(* ===== verification/_CoqProject ===== *)
-Q . S2P
Prelude.v
Metrics.v
Scheduler.v
SchedulerClaims.v
SchedulerSlots.v
SchedulerShell.v
SchedulerLoop.v
SchedulerFacts.v
GoStd.v
HostState.v
HostFrames.v
HostInput.v
HostSession.v
HostInputFacts.v
HostCapsule.v
HostHandlers.v
HostRepo.v
HostRepoFacts.v
HostReduce.v
HostDriverFacts.v
HostSteps.v
HostInputRun.v
HostGraph.v
HostGraphRun.v
HostClients.v
HostTyped.v
HostQuiescing.v
GoStrings.v
GoTime.v
ShellArgs.v
GoPath.v
DriverTypes.v
DriverCommon.v
DriverToolLog.v
DriverBasic.v
DriverClaude.v
DriverGemini.v
DriverCodex.v
DriverRegistry.v
DriverFacts.v
DriverJobs.v
DriverPersist.v
DriverStatus.v
DriverFlags.v
DriverChoice.v
HostBuiltin.v
DriverFindings.v
Termvt.v
TermvtFacts.v
RuntimeStore.v
RuntimeSnapshot.v
RuntimeRestart.v
RuntimeMessaging.v
RuntimeJournal.v
RuntimeRecovery.v
RuntimeMessagingRun.v
RuntimeBuiltin.v
RuntimeTyped.v
RuntimeLifecycle.v
RuntimeLifecycleFacts.v
RuntimeRelay.v
RuntimeRelaySafety.v
RuntimeRelayOrder.v
RuntimeRelayStream.v
RuntimeRelayGapless.v
RuntimeRelayRun.v
GatewayCredentials.v
GatewayWorkspace.v
GatewayWorkspaceFacts.v
WslSupervisor.v
WslSupervisorFacts.v
WslStop.v
AgentHook.v
ClientConfig.v
FleetHealth.v
FleetRuntime.v
FleetFacts.v
FleetRun.v
FleetDemo.v
