(* ===== verification/Prelude.v ===== *)
(** * agent-grid: verification of the decision cores

    agent-grid runs coding agents (Claude, Codex, Gemini, Grok, shells) in terminal
    sessions and lets several clients watch and steer them.  Its services are written
    in Go with a functional core: the state of a component is a value, a reducer maps
    state and event to a new state and a list of effects, and a shell of goroutines
    carries the effects out.  This library models those cores and proves what they
    promise.  Paths below are under src/services.

    ** The parts of the program

    - orchestrator/scheduler polls an issue tracker, decides which issues get an agent,
      retries failed attempts and keeps the books of running work.  Its reducer is
      driven by a loop that executes effects, keeps retry timers and reloads the
      configuration.  platform/metrics adds up what the agents report.
    - host/state is the reducer of the daemon that owns the sessions: frames on a stack
      per session, approvals and questions the agents raise, resume capsules,
      connections and surface subscriptions, repository preparation, shutdown.
    - host/driver holds one driver per agent.  The reducer routes events of a frame to
      its driver, which updates its own state and returns effects; it also rewrites the
      launch command and persists the state across restarts.
    - platform/agentlaunch and platform/lib split, join and parse command lines.
    - host/runtime is the shell around the reducer: one event loop owns the state and
      carries effects out, with goroutines for connections, terminals and workers.  It
      saves sessions to files and loads them at start-up, passes messages between agent
      frames and journals them, settles the terminal revisions clients ask for
      (terminal lifecycle), and relays terminal output to connections.
    - platform/termvt runs one program in a pty, feeds a terminal emulator and fans the
      output out to subscribers; host/runtime's relay is one of them.
    - server/api is the HTTP and web-socket gateway clients talk to.  It admits web sockets
      by tickets, hands clone credentials out on leases, and serves and writes the files of
      a session's workspace.
    - platform/wslhost is a Windows service that keeps the daemon's server running inside a
      WSL distribution: a supervisor probes, starts, checks and restarts it, and a stop
      transaction ends it.
    - host/lib/agenthook registers the daemon's command and its MCP servers in the settings
      files of the agents, which is how the drivers get their hook events.
    - clients: goclient/clientconfig loads the servers a client may use (paths under
      src/clients), and web-host follows them all, with a worker per server that probes it,
      reads its web socket and publishes what it observes.

    ** Files

    Standard library of Go: Prelude.v (this file: 64-bit integers, time, map iteration
    in arbitrary order, stable sorting, record updates, shared lemmas), GoStd.v (hashes,
    runes, fmt), GoStrings.v (strings, strconv), GoTime.v (RFC 3339), GoPath.v
    (path/filepath).

    Scheduler: Metrics.v (platform/metrics), Scheduler.v (state, transitions and every
    event handler), SchedulerShell.v (run loop and effect interpreter), and the theorems
    in SchedulerClaims.v, SchedulerSlots.v, SchedulerLoop.v and SchedulerFacts.v.

    Host reducer: HostState.v (state, events, effects, driver interface), HostFrames.v
    (reduce_helpers.go), HostInput.v (approvals and questions), HostSession.v
    (reduce_session*.go, reduce_frame*.go), HostCapsule.v (resumecapsule.go),
    HostHandlers.v (the remaining reduce_*.go), HostRepo.v (repository*.go), HostReduce.v
    (reduce.go, event_dispatch.go).  HostSteps.v decomposes [Reduce] into a few primitive
    steps, so that a property of whole runs is shown by looking at each primitive once.
    The theorems are in HostInputFacts.v and HostInputRun.v (human input), HostGraph.v
    and HostGraphRun.v (an abstract session graph and the refinement), HostClients.v
    (subscriptions, shutdown), HostQuiescing.v (admission while shutting down),
    HostRepoFacts.v (preparations), HostDriverFacts.v (what driving a frame can change),
    HostTyped.v (driver states stay within their driver's type).

    Drivers: ShellArgs.v (platform/agentlaunch), DriverTypes.v (states, jobs, and the
    environment of the drivers), DriverCommon.v (what they share), DriverToolLog.v,
    DriverBasic.v (generic, shell, agy, grok), DriverClaude.v, DriverGemini.v,
    DriverCodex.v, DriverRegistry.v (the built-in drivers as records of the reducer's
    interface).  The theorems are in DriverFacts.v, DriverJobs.v, DriverPersist.v,
    DriverStatus.v, DriverFlags.v, DriverChoice.v, DriverFindings.v, and HostBuiltin.v
    puts reducer and drivers together.  Modules HostDemo and DriverDemo have the concrete
    values the witnesses run on.

    Runtime: RuntimeStore.v (frame_messaging_store.go), RuntimeSnapshot.v (persist.go,
    bootstrap*.go, snapshots of interpret.go), RuntimeMessaging.v
    (frame_messaging_runtime.go, frame_messaging_thread.go), RuntimeLifecycle.v
    (terminal_lifecycle_*.go), RuntimeRelay.v (terminal_relay.go, severance.go and the
    lanes of internal_dispatch.go and ipc.go), Termvt.v (platform/termvt, the session
    actor).  Theorems: RuntimeRestart.v and RuntimeBuiltin.v (sessions across a restart),
    RuntimeTyped.v (driver states from a loaded snapshot on), RuntimeJournal.v,
    RuntimeRecovery.v and RuntimeMessagingRun.v (messages across a crash),
    RuntimeLifecycleFacts.v, RuntimeRelaySafety.v, RuntimeRelayOrder.v,
    RuntimeRelayStream.v, RuntimeRelayGapless.v and RuntimeRelayRun.v (the relay under
    every interleaving), TermvtFacts.v.  Concrete runs are
    in the demo modules at the end of the files.

    Gateway: GatewayCredentials.v (ticket.go, repository_lease.go, with their theorems),
    GatewayWorkspace.v (workspace_path.go, workspace.go, workspace_write.go, the error
    translation of mux.go) and GatewayWorkspaceFacts.v (what a request reaches, and what a
    write leaves behind).

    WSL host: WslSupervisor.v (supervisor.go, supervisor_runtime.go, the launch commands of
    process.go), WslSupervisorFacts.v (its runs), WslStop.v (stop.go and the stop side of
    service.go, with their theorem, and concrete runs of both).

    Hooks: AgentHook.v (install.go, with its theorems).

    Clients: ClientConfig.v (config.go, projection.go, with their theorem); FleetHealth.v
    (the values of fleet.go: observations, their wire schema, classification of errors,
    members), FleetRuntime.v (its runtime), FleetFacts.v (the books of workers, epochs and
    generations), FleetRun.v (the theorems on runs), FleetDemo.v (what the classification can
    say, and concrete runs of both).

    ** How the code is modelled

    A Go struct is a record with the source's fields, an update [r.F = v] is
    [r <| F := v |>]; an interface value or tagged union is an inductive type; a handler
    is a function from state and event to state and effects, with the source's guards
    in the source's order.  A map is a [gmap] (nil and empty are the same); ranging over
    one goes through the class [GoMapRange], an arbitrary order, so theorems hold for
    every order.  Integers are [Z] with [wrap64] where the source can overflow, instants
    are nanoseconds since Go's zero time, strings are byte strings.  A panic is [None],
    an error a value of a sum or an option.  A pointer receiver that is updated is state
    passing; the in-place updates of shared maps the drivers make are noted where they
    occur.  Logging is left out.

    Concurrency is modelled where the code has it.  The terminal relay is a set of threads
    over a shared heap: a thread is a list of instructions, one per section under the
    mutex or channel operation, and [step] runs one instruction of any thread, so a
    property of [reachable] holds for every interleaving.  Buffered channels are lists
    with their capacities (class [Capacities]).  The fleet runtime of the web host is modelled
    in the same way, with a thread per worker and per reconnect.  Fields written only by the model, which
    record what was pushed, sent, delivered and released, are marked as such.  The
    terminal session and the lifecycle lane are actors: functions folded over the
    commands they serve.

    What the code takes from outside is a parameter: the random source (a function from
    the number of the draw), JSON decoding ([PayloadCodec], [DriverEnv]), files, the
    environment and Codex's database ([DriverEnv]), the answers of tracker, spawner,
    workers and clock to the scheduler loop, and the order of evaluation Go leaves open
    ([operands_late]), the JSON of a journal line ([JournalCodec]), the terminal emulator
    ([Emulator]), for the messaging operations the clock and the errors of appends and
    saves ([Outside]), for the gateway the daemon, symbolic links, git ([Host]) and the
    failures and interference a write meets ([Weather]), for the WSL host the clock, probes,
    starts, health checks and stop requests ([Dependencies], [StopDependencies]: the answer to
    a call is a function of the calls made before), and for the settings files JSON text
    ([JSON]) and the errors of the file system ([Disk]), for the clients the decoding of
    servers.json ([ConfigCodec]), URLs ([URLs]) and the identifiers of sessions
    ([SessionCodec]).  The reducer's theorems take the drivers as a parameter too: any
    registry whose drivers emit only the effects drivers may ([PoliteDrivers], a class);
    DriverFacts.v discharges the class for the built-in drivers.

    ** What the theorems show

    - Scheduler: claims, concurrency limits and retry timers over every run of the loop
      against any environment; allocation within all limits and work conserving;
      exact behaviour of stall detection and tracker refresh; token totals conserved;
      the retry delay and where it overflows; termination of the loop's recursion.
    - Human input: every request is announced and closed in balance and answered at most
      once over any run; approvals only move forward.
    - Session graph: [Reduce] refines an abstract machine; the graph stays well formed
      and the frames spawned and unregistered balance, for arbitrary drivers and for the
      built-in ones.
    - Clients: subscriptions are balanced and bounded, a shutdown completes once, its
      waiters are kept, and nothing changes while it is under way.
    - Repository preparation: every event does exactly what an executable stage machine says
      of its kind and the stage; fenced, idempotent, with one commit.
    - Command lines: the two-pass lexer never panics and partitions its input, quoting
      round-trips, and editing flags in the text edits the argument vector.
    - Drivers: at most one job of a kind in flight, persistence round-trips, the status
      is the one the evidence calls for, authoritative choices are kept, only the root
      frame has effects.
    - Restarts: saving and loading brings back the live sessions; frame messages survive a
      crash at any point with failing appends and saves, as long as no append leaves a torn
      line and lines read back; every frame's driver state has the type its
      driver asserts, from loading on through every event.
    - Terminals: a session's subscriber gets a snapshot and then every event in order until
      it is disconnected; the relay neither panics nor leaks or releases twice a surface,
      and a connection gets a gapless prefix of the output; the outcomes of a revision only
      move forward until it is refused, are bounded in number, and a deadline settles every revision that is
      current.  The event loop can block itself for good ([relay_loop_deadlock]).
    - Gateway: a ticket admits once and a lease is granted once; whatever its path, a
      request stays in the workspace of its session; a write is all or nothing.
    - WSL host: under every order of timers, exits, resumes and recovery stops the supervisor
      serves every input and has something on its way that moves it on, with one exception
      the theorem names; it starts the server only after a probe found none, and boundedly
      often; a stop escalates only against a server that was asked and stayed.
    - Hooks: an installation registers the command for every event, edits the list of each
      in exactly one of four ways and leaves everything else; repeated ones come to rest; a shell reads the command back as it was meant.
    - Clients: the usable servers of a file are distinct and sound with one default, and an
      entry costs only itself and those it collides with; each enabled server (with distinct
      identifiers) has one current worker and what is shown is that worker's, under every interleaving; what is published
      is valid and current, and publishing never blocks.
    - Findings: theorems and examples whose statement is a defect of the code say so in
      their comment; they are stated on the same definitions.

    ** Bounds and fuel

    The scheduler's step and effect interpreter call each other; the model takes fuel,
    and [step_drains] shows that four nested steps are enough for every event and that
    more never changes the result.  The supervisor's restart and probe cycle call each other
    too; [supervisor_never_stalls] shows that one nested restart is enough for every input of
    every run.  Decoding of runes takes the length of the string as
    fuel, each step consumes a byte.  Everything else recurses on its data.  Round trips
    of times hold for years 0 to 9999, the years RFC 3339 can write; integers that are
    printed and parsed back are int64 as in the code.

    ** Not modelled

    The rest of host/runtime (spawning, pty and stream backends, IPC framing, file and log
    tailing, worker pools, repository workers), the worker jobs of host/driver that run
    commands and read transcripts, the views (cards, tags), the rest of host/lib and host/tools
    (transcript parsers, MCP tools), most of host/proto and the rest of server/api (wire
    encoding, HTTP), the parsing of WORKFLOW.md and prompts, git, the tracker client, the terminal
    emulator, termvt's manager and pty code, the registration, log and HTTP probe of
    platform/wslhost, the commands, and the rest of the clients: input and output, generated
    schemas, or rendering.  Of the parts that are modelled, log lines, views returned beside a driver's state, wall-clock seconds of
    relayed chunks, and JSON text are left out; the lifecycle worker between its events is
    an arbitrary source of results and timers.

    ** Next

    Pure parts of what is not modelled that the reducers rely on: configuration and
    prompt templates of the orchestrator, the transcript trackers whose results the
    drivers take as job results, the frame registry, worker pool and stream subsystem of
    host/runtime, and the web-socket side of server/api. *)

From Stdlib Require Import String.
From Stdlib Require Export ZArith Lia Ascii.
From stdpp Require Export base tactics gmap strings list fin_maps sorting numbers.
Export stdpp.list_basics.list stdpp.list_relations.list stdpp.list_monad.list
  stdpp.list_misc.list stdpp.list_numbers.list.

#[export] Set Default Goal Selector "!".

Open Scope Z_scope.

Create HintDb agrid.
Create Rewrite HintDb agrid.

(** ** Machine integers

    Go's [int] and [int64] are 64-bit two's complement on every platform the
    program is built for; [uint64] counters wrap modulo 2^64. *)

Definition wrap64 (z : Z) : Z := (z + 2 ^ 63) mod 2 ^ 64 - 2 ^ 63.

Definition u64 (z : Z) : Z := z mod 2 ^ 64.

Definition min_int64 : Z := - 2 ^ 63.
Definition max_int64 : Z := 2 ^ 63 - 1.

(** [time.Time.Sub] saturates instead of wrapping. *)
Definition sat64 (z : Z) : Z := Z.max min_int64 (Z.min max_int64 z).

Lemma wrap64_bounds z : min_int64 <= wrap64 z <= max_int64.
Proof.
  unfold wrap64, min_int64, max_int64.
  pose proof (Z.mod_pos_bound (z + 2 ^ 63) (2 ^ 64) ltac:(lia)). lia.
Qed.

Lemma wrap64_id z : min_int64 <= z <= max_int64 -> wrap64 z = z.
Proof.
  unfold wrap64, min_int64, max_int64. intros Hz.
  rewrite Z.mod_small by lia. lia.
Qed.

Lemma wrap64_wrap64_l a b : wrap64 (wrap64 a + b) = wrap64 (a + b).
Proof.
  unfold wrap64.
  replace ((a + 2 ^ 63) mod 2 ^ 64 - 2 ^ 63 + b + 2 ^ 63)
    with ((a + 2 ^ 63) mod 2 ^ 64 + b) by lia.
  rewrite Zplus_mod_idemp_l. f_equal. f_equal. lia.
Qed.

Lemma wrap64_wrap64_r a b : wrap64 (a + wrap64 b) = wrap64 (a + b).
Proof. rewrite Z.add_comm, wrap64_wrap64_l. f_equal. lia. Qed.

Lemma wrap64_idemp a : wrap64 (wrap64 a) = wrap64 a.
Proof. apply wrap64_id, wrap64_bounds. Qed.

#[export] Hint Rewrite wrap64_wrap64_l wrap64_wrap64_r wrap64_idemp : agrid.

Lemma u64_id z : 0 <= z < 2 ^ 64 -> u64 z = z.
Proof. apply Z.mod_small. Qed.

Lemma u64_bounds z : 0 <= u64 z < 2 ^ 64.
Proof. apply Z.mod_pos_bound. lia. Qed.

(** ** Instants and durations

    A [time.Time] is the number of nanoseconds since Go's zero time
    (January 1, year 1 UTC), so [IsZero] is the test against 0; a
    [time.Duration] is an [int64] number of nanoseconds. *)

Abbreviation Time := Z (only parsing).
Abbreviation Duration := Z (only parsing).

Definition Millisecond : Duration := 1000000.
Definition Second : Duration := 1000000000.
Definition Minute : Duration := 60 * Second.

Definition IsZero (t : Time) : bool := t =? 0.
Definition Before (t u : Time) : bool := t <? u.
Definition Add (t : Time) (d : Duration) : Time := t + d.
Definition Sub (t u : Time) : Duration := sat64 (t - u).

(** Seconds from the zero time to the Unix epoch. *)
Definition unixToInternal : Z := 62135596800.

Definition UnixMilli (t : Time) : Z := (t - unixToInternal * Second) / Millisecond.

Lemma Sub_id t u : min_int64 <= t - u <= max_int64 -> Sub t u = t - u.
Proof. unfold Sub, sat64. lia. Qed.

(** ** Functional record update

    Every record [R] of the development declares its eta expansion once; the
    setter of a field is then derived from it, so that [r <| f := v |>] is the
    record with the field [f] replaced. *)

Class Eta (R : Type) := eta : R -> R.

Class Setter {R E : Type} (get : R -> E) := set_field : (E -> E) -> R -> R.
Arguments set_field {R E} get {_} _ _ / : assert.

Ltac derive_setter :=
  lazymatch goal with
  | |- @Setter ?R ?E ?get =>
    let inst := constr:(_ : Eta R) in
    let f := fresh "f" in
    let r := fresh "r" in
    intros f r;
    let b := eval hnf in (inst r) in
    match b with
    | context C [get r] => let b' := context C [f (get r)] in exact b'
    end
  end.

#[export] Hint Extern 1 (@Setter _ _ _) => derive_setter : typeclass_instances.

#[warnings="-postfix-notation-not-level-1"]
Notation "r <| get := v |>" := (set_field get (fun _ => v) r)
  (at level 12, left associativity, get constr at level 10, v constr at level 99,
   format "r  <| get  :=  v |>").

(** ** Go maps

    A Go map is a [gmap]; [nil] and empty maps are identified, since every
    read of the program agrees on them.  [range] visits the entries in an
    unspecified order: a [GoMapRange] is any choice of such an order, and the
    theorems hold for all of them. *)

Class GoMapRange := {
  range : forall {K V : Type} `{Countable K}, gmap K V -> list (K * V);
  range_perm : forall {K V : Type} `{Countable K} (m : gmap K V),
    range m ≡ₚ map_to_list m
}.

(** The order of [map_to_list], used where a witness evaluates a loop. *)
Definition canonical_range : GoMapRange :=
  {| range := fun K V _ _ m => map_to_list m;
     range_perm := fun K V _ _ m => reflexivity _ |}.

Section Range.
Context `{GoMapRange} {K V : Type} `{Countable K}.
Implicit Types m : gmap K V.

Lemma elem_of_range m k v : (k, v) ∈ range m <-> m !! k = Some v.
Proof. rewrite range_perm. apply elem_of_map_to_list. Qed.

Lemma NoDup_range_keys m : NoDup (range m).*1.
Proof. rewrite range_perm. apply NoDup_fst_map_to_list. Qed.

Lemma length_range m : length (range m) = size m.
Proof. rewrite range_perm. apply length_map_to_list. Qed.
End Range.

(** The first entry a [range] loop meets that satisfies a test: the shape of
    every search loop that returns from inside its body. *)
Definition range_find `{GoMapRange} {K V B : Type} `{Countable K}
    (f : K -> V -> option B) (m : gmap K V) : option B :=
  head (omap (fun kv => f kv.1 kv.2) (range m)).

Lemma head_omap_Some {A B} (f : A -> option B) (l : list A) b :
  head (omap f l) = Some b -> exists a, a ∈ l /\ f a = Some b.
Proof.
  intros Hh. assert (b ∈ omap f l) as Hin.
  { destruct (omap f l); simplify_eq/=. left. }
  apply list_elem_of_omap in Hin. naive_solver.
Qed.

Lemma head_omap_None {A B} (f : A -> option B) (l : list A) :
  head (omap f l) = None <-> forall a, a ∈ l -> f a = None.
Proof.
  split.
  - intros Hn a Ha. destruct (f a) as [b|] eqn:Hf; [|done].
    assert (b ∈ omap f l) as Hin by (apply list_elem_of_omap; eauto).
    destruct (omap f l); [inversion Hin | done].
  - intros Hall. destruct (head (omap f l)) as [b|] eqn:Hh; [|done].
    apply head_omap_Some in Hh as (a & Ha & Hf). by rewrite Hall in Hf.
Qed.

Section RangeFind.
Context `{GoMapRange} {K V B : Type} `{Countable K}.
Implicit Types (f : K -> V -> option B) (m : gmap K V).

Lemma range_find_Some f m b :
  range_find f m = Some b -> exists k v, m !! k = Some v /\ f k v = Some b.
Proof.
  intros ([k v] & Hin & Hf)%head_omap_Some.
  apply elem_of_range in Hin. eauto.
Qed.

Lemma range_find_None f m :
  range_find f m = None <-> forall k v, m !! k = Some v -> f k v = None.
Proof.
  unfold range_find. rewrite head_omap_None. split.
  - intros Hall k v Hk. apply (Hall (k, v)). by apply elem_of_range.
  - intros Hall [k v] Hin%elem_of_range. eauto.
Qed.

(** When at most one entry passes the test the result does not depend on
    the iteration order. *)
Lemma range_find_unique f m k v b :
  m !! k = Some v -> f k v = Some b ->
  (forall k' v' b', m !! k' = Some v' -> f k' v' = Some b' -> b' = b) ->
  range_find f m = Some b.
Proof.
  intros Hk Hf Huniq. destruct (range_find f m) as [b'|] eqn:Hfind.
  - apply range_find_Some in Hfind as (k' & v' & Hk' & Hf'). f_equal. eauto.
  - rewrite range_find_None in Hfind. by rewrite (Hfind _ _ Hk) in Hf.
Qed.
End RangeFind.

(** ** Stable sorting

    [sort.SliceStable] is determined by its comparison; insertion from the
    right is its reference definition.  [sort.Strings] sorts a type on which
    the order is total, so stability is invisible and it is the same function. *)

Section StableSort.
Context {A : Type} (less : A -> A -> bool).

Fixpoint insert_stable (x : A) (l : list A) : list A :=
  match l with
  | [] => [x]
  | y :: l' => if less y x then y :: insert_stable x l' else x :: l
  end.

Definition sort_stable (l : list A) : list A := foldr insert_stable [] l.

Lemma insert_stable_perm x l : insert_stable x l ≡ₚ x :: l.
Proof.
  induction l as [|y l IH]; simpl; [done|].
  destruct (less y x); [|done]. rewrite IH. by constructor.
Qed.

Lemma sort_stable_perm l : sort_stable l ≡ₚ l.
Proof.
  induction l as [|x l IH]; simpl; [done|].
  by rewrite insert_stable_perm, IH.
Qed.

Lemma elem_of_sort_stable x l : x ∈ sort_stable l <-> x ∈ l.
Proof. by rewrite sort_stable_perm. Qed.

Class StrictWeakOrder := {
  less_asym : forall x y, less x y = true -> less y x = false;
  less_neg_trans : forall x y z,
    less x y = false -> less y z = false -> less x z = false
}.

Context `{!StrictWeakOrder}.

Lemma insert_stable_sorted x l :
  StronglySorted (fun a b => less b a = false) l ->
  StronglySorted (fun a b => less b a = false) (insert_stable x l).
Proof.
  induction 1 as [|y l Hl IH Hy]; simpl; [by repeat constructor|].
  destruct (less y x) eqn:Hyx.
  - constructor; [done|]. rewrite insert_stable_perm.
    constructor; [by apply less_asym | done].
  - constructor; [by constructor|]. constructor; [done|].
    eapply Forall_impl; [exact Hy|]. simpl. intros z Hz.
    by apply (less_neg_trans z y x).
Qed.

Lemma sort_stable_sorted l :
  StronglySorted (fun a b => less b a = false) (sort_stable l).
Proof.
  induction l as [|x l IH]; simpl; [constructor|].
  by apply insert_stable_sorted.
Qed.

(** Two elements neither of which is less than the other. *)
Definition tied (c y : A) : bool := negb (less c y) && negb (less y c).

Lemma insert_stable_filter c x l :
  filter (fun y => tied c y = true) (insert_stable x l)
  = filter (fun y => tied c y = true) (x :: l).
Proof.
  induction l as [|y l IH]; simpl; [done|].
  destruct (less y x) eqn:Hyx; [|done].
  rewrite filter_cons, IH, !filter_cons.
  destruct (decide (tied c y = true)) as [Hy|], (decide (tied c x = true)) as [Hx|];
    [exfalso | done..].
  unfold tied in *. rewrite !andb_true_iff, !negb_true_iff in *.
  destruct Hx as [? Hxc], Hy as [Hcy Hyc].
  rewrite (less_neg_trans y c x) in Hyx; done.
Qed.

Lemma sort_stable_filter c l :
  filter (fun y => tied c y = true) (sort_stable l)
  = filter (fun y => tied c y = true) l.
Proof.
  induction l as [|x l IH]; simpl; [done|].
  by rewrite insert_stable_filter, !filter_cons, IH.
Qed.
End StableSort.

(** ** Strings

    Go strings are byte sequences compared lexicographically. *)

Lemma String_leb_false s t : String.leb s t = false <-> String.ltb t s = true.
Proof.
  unfold String.leb, String.ltb. rewrite (String.compare_antisym s t).
  by destruct (String.compare t s).
Qed.

Lemma String_ltb_leb s t : String.ltb s t = negb (String.leb t s).
Proof.
  destruct (String.leb t s) eqn:Hle; simpl.
  - apply not_true_iff_false. intros Hlt%String_leb_false. congruence.
  - by apply String_leb_false.
Qed.

#[export] Instance String_ltb_swo : StrictWeakOrder String.ltb.
Proof.
  assert (forall s t, String.leb s t = true <-> String.le s t) as Hle.
  { intros s t. unfold String.le. by rewrite Is_true_true. }
  split.
  - intros s t. rewrite !String_ltb_leb, negb_true_iff, negb_false_iff.
    intros Hts. destruct (String.leb_total s t); congruence.
  - intros s t u. rewrite !String_ltb_leb, !negb_false_iff, !Hle.
    intros ??. by trans t.
Qed.

Definition is_ascii (s : string) : bool :=
  forallb (fun c => (N_of_ascii c <? 128)%N) (list_ascii_of_string s).

Definition lower_byte (c : ascii) : ascii :=
  if ((65 <=? N_of_ascii c) && (N_of_ascii c <=? 90))%N
  then ascii_of_N (N_of_ascii c + 32) else c.

(** [strings.ToLower] lowers the bytes of a pure ASCII string; any other
    string goes through the Unicode case tables, which are a parameter. *)
Class UnicodeTables := unicode_ToLower : string -> string.

Definition ToLower `{UnicodeTables} (s : string) : string :=
  if is_ascii s
  then string_of_list_ascii (lower_byte <$> list_ascii_of_string s)
  else unicode_ToLower s.

(** Sorted keys of a map ([util.go] style deterministic iteration). *)
Definition sort_Strings (l : list string) : list string := sort_stable String.ltb l.

Lemma sort_Strings_perm l : sort_Strings l ≡ₚ l.
Proof. apply sort_stable_perm. Qed.

Lemma sort_Strings_sorted l : StronglySorted String.le (sort_Strings l).
Proof.
  pose proof (sort_stable_sorted String.ltb l) as Hs.
  unfold sort_Strings. induction Hs as [|x k Hk IH Hx]; constructor; [done|].
  eapply Forall_impl; [exact Hx|]. simpl. intros t.
  rewrite String_ltb_leb, negb_false_iff. unfold String.le. by rewrite Is_true_true.
Qed.

(** Sorting strings forgets the order of the input: two enumerations of the
    same keys sort to the same list. *)
Lemma sort_Strings_unique l k : l ≡ₚ k -> sort_Strings l = sort_Strings k.
Proof.
  intros Hlk.
  apply (StronglySorted_unique String.le); [by apply sort_Strings_sorted..|].
  by rewrite !sort_Strings_perm.
Qed.

(** ** Sums over maps *)

Definition map_sum {K V} `{Countable K} (f : V -> Z) (m : gmap K V) : Z :=
  map_fold (fun _ v acc => f v + acc) 0 m.

Section MapSum.
Context {K V : Type} `{Countable K} (f : V -> Z).
Implicit Types m : gmap K V.

Lemma map_sum_empty : map_sum f (∅ : gmap K V) = 0.
Proof. apply map_fold_empty. Qed.

Lemma map_sum_insert_new m k v :
  m !! k = None -> map_sum f (<[k := v]> m) = f v + map_sum f m.
Proof. intros Hk. unfold map_sum. rewrite map_fold_insert_L; [done|lia|done]. Qed.

Lemma map_sum_delete m k v :
  m !! k = Some v -> map_sum f m = f v + map_sum f (delete k m).
Proof.
  intros Hk. rewrite <- (insert_delete_id m k v Hk) at 1.
  apply map_sum_insert_new, lookup_delete_eq.
Qed.

Lemma map_sum_insert m k v :
  map_sum f (<[k := v]> m) = f v + map_sum f (delete k m).
Proof. rewrite <- insert_delete_eq. apply map_sum_insert_new, lookup_delete_eq. Qed.

Lemma map_sum_range `{GoMapRange} m :
  map_sum f m = foldr (fun kv acc => f kv.2 + acc) 0 (range m).
Proof.
  unfold map_sum. rewrite map_fold_foldr.
  transitivity (foldr (fun kv acc => f kv.2 + acc) 0 (map_to_list m)).
  - induction (map_to_list m) as [|[k v] l IH]; simpl; [done|]. by rewrite IH.
  - apply (foldr_permutation_proper (=) (fun (kv : K * V) acc => f kv.2 + acc));
      [solve_proper | intros; simpl; lia | by rewrite range_perm].
Qed.

(** The accumulation loop [for _, v := range m { acc += f(v) }]. *)
Lemma range_sum_wrap `{GoMapRange} m a :
  wrap64 a = a ->
  foldl (fun acc kv => wrap64 (acc + f kv.2)) a (range m) = wrap64 (a + map_sum f m).
Proof.
  rewrite map_sum_range. generalize (range m). intros l. revert a.
  induction l as [|[k v] l IH]; intros a Ha; simpl.
  - by rewrite Z.add_0_r.
  - rewrite IH by apply wrap64_idemp. rewrite wrap64_wrap64_l. f_equal. lia.
Qed.
End MapSum.

(** Number of entries of a map that satisfy a test ([count++] in a [range] loop). *)
Definition map_count {K V} `{Countable K} (p : K -> V -> bool) (m : gmap K V) : Z :=
  Z.of_nat (size (filter (fun kv => p kv.1 kv.2 = true) m)).

Lemma map_count_insert_new {K V} `{Countable K} (p : K -> V -> bool) (m : gmap K V) k v :
  m !! k = None ->
  map_count p (<[k := v]> m) = (if p k v then 1 else 0) + map_count p m.
Proof.
  intros Hk. unfold map_count. destruct (p k v) eqn:E.
  - rewrite map_filter_insert_True by done.
    rewrite map_size_insert_None; [lia|]. apply map_lookup_filter_None. auto.
  - rewrite map_filter_insert_False by (cbn; congruence). by rewrite delete_id.
Qed.

(** ** Counting occurrences *)

Definition times {A} `{EqDecision A} (x : A) (l : list A) : Z :=
  Z.of_nat (length (filter (fun y => y = x) l)).

Section Times.
Context {A : Type} `{EqDecision A}.
Implicit Types (x y : A) (l : list A).

Lemma times_nil x : times x [] = 0.
Proof. done. Qed.

Lemma times_app x l l' : times x (l ++ l') = times x l + times x l'.
Proof. unfold times. rewrite filter_app, length_app. lia. Qed.

Lemma times_one x y : times x [y] = if decide (y = x) then 1 else 0.
Proof. unfold times. rewrite filter_cons. by case_decide. Qed.

Lemma times_cons x y l : times x (y :: l) = times x [y] + times x l.
Proof. apply (times_app x [y]). Qed.

Lemma times_nonneg x l : 0 <= times x l.
Proof. unfold times. lia. Qed.

Lemma times_elem x l : x ∈ l <-> 0 < times x l.
Proof.
  unfold times. split.
  - intros Hin. assert (x ∈ filter (fun y => y = x) l) as Hf by (by apply list_elem_of_filter).
    destruct (filter _ _); [by apply elem_of_nil in Hf|simpl; lia].
  - intros Hpos. destruct (filter (fun y => y = x) l) as [|y l'] eqn:Hl; simpl in Hpos; [lia|].
    assert (y ∈ filter (fun y => y = x) l) as Hy by (rewrite Hl; left).
    by apply list_elem_of_filter in Hy as [-> ?].
Qed.

Lemma times_absent x l : x ∉ l -> times x l = 0.
Proof. rewrite times_elem. pose proof (times_nonneg x l). lia. Qed.

Lemma times_delete x l i y :
  l !! i = Some y -> times x (delete i l) = times x l - times x [y].
Proof.
  intros Hi. rewrite delete_take_drop. rewrite <- (take_drop_middle l i y Hi) at 3.
  rewrite !times_app, (times_cons x y). lia.
Qed.

Lemma times_NoDup l : (forall x, times x l <= 1) <-> NoDup l.
Proof.
  split.
  - induction l as [|y l IH]; intros Hall; [constructor|]. constructor.
    + intros Hin%times_elem. specialize (Hall y). rewrite times_cons, times_one in Hall.
      rewrite decide_True in Hall by done. lia.
    + apply IH. intros x. specialize (Hall x). rewrite times_cons in Hall.
      pose proof (times_nonneg x [y]). lia.
  - induction 1 as [|y l Hy _ IH]; intros x; [by rewrite times_nil|].
    rewrite times_cons, times_one. case_decide as Heq; [subst|apply IH].
    rewrite times_absent by done. lia.
Qed.
End Times.
