(* ===== verification/Metrics.v ===== *)
(** * platform/metrics: token accounting

    [metrics.Accumulator] (src/services/platform/metrics/metrics.go) turns the
    absolute per-thread token reports of an agent into totals.  The file models
    its data and operations and shows that reports which never decrease within
    a thread are counted exactly once. *)

From S2P Require Import Prelude.

(** ** Data *)

Record Totals := mkTotals { tot_Input : Z; tot_Output : Z; tot_Total : Z }.
Record Usage := mkUsage {
  us_ThreadID : string; us_Input : Z; us_Output : Z; us_Total : Z }.
Record Accumulator := mkAccumulator {
  acc_lastSeen : gmap string Usage; acc_totals : Totals }.

Definition zero_totals : Totals := mkTotals 0 0 0.
Definition zero_usage : Usage := mkUsage "" 0 0 0.
Definition NewAccumulator : Accumulator := mkAccumulator ∅ zero_totals.

Record RateLimitSnapshot := mkRateLimit {
  rl_PrimaryUsedPercent : Z; rl_PrimaryResetsAt : Z;
  rl_SecondaryUsedPercent : Z; rl_SecondaryResetsAt : Z }.

(** [RuntimeAccumulator]: the sum of the durations of the completed turns. *)
Record RuntimeAccumulator := mkRuntimeAccumulator { rt_total : Duration }.

(** ** Operations *)

Definition clampPos (v : Z) : Z := if v <? 0 then 0 else v.

(** A missing map entry reads as the zero [Usage]. *)
Definition last_seen (a : Accumulator) (thread : string) : Usage :=
  default zero_usage (acc_lastSeen a !! thread).

Definition Observe (a : Accumulator) (u : Usage) : Accumulator :=
  let prev := last_seen a (us_ThreadID u) in
  mkAccumulator
    (<[us_ThreadID u := u]> (acc_lastSeen a))
    (mkTotals
       (wrap64 (tot_Input (acc_totals a) + clampPos (wrap64 (us_Input u - us_Input prev))))
       (wrap64 (tot_Output (acc_totals a) + clampPos (wrap64 (us_Output u - us_Output prev))))
       (wrap64 (tot_Total (acc_totals a) + clampPos (wrap64 (us_Total u - us_Total prev))))).

Definition AccTotals (a : Accumulator) : Totals := acc_totals a.

Definition AddTurn (r : RuntimeAccumulator) (d : Duration) : RuntimeAccumulator :=
  if 0 <? d then mkRuntimeAccumulator (wrap64 (rt_total r + d)) else r.

(** ** Exactly-once accounting *)

(** The sums of each counter over the threads, in 64 bits. *)
Definition sums (m : gmap string Usage) : Totals :=
  mkTotals (wrap64 (map_sum us_Input m)) (wrap64 (map_sum us_Output m)) (wrap64 (map_sum us_Total m)).

(** The reports of one thread, in their order. *)
Definition reports_of (thread : string) (us : list Usage) : list Usage :=
  filter (fun u => us_ThreadID u = thread) us.

(** The last report of each thread that reported. *)
Definition last_reports (us : list Usage) : gmap string Usage :=
  list_to_map (reverse ((fun u => (us_ThreadID u, u)) <$> us)).

(** A report of a thread whose counters do not go backwards. *)
Definition advances (prev u : Usage) : Prop :=
  0 <= us_Input prev <= us_Input u /\ us_Input u <= max_int64 /\
  0 <= us_Output prev <= us_Output u /\ us_Output u <= max_int64 /\
  0 <= us_Total prev <= us_Total u /\ us_Total u <= max_int64.

(** Every report advances the one its thread made before it, or zero if it is the
    thread's first. *)
Definition monotone_reports (us : list Usage) : Prop :=
  forall pre u post, us = pre ++ u :: post ->
    advances (default zero_usage (last (reports_of (us_ThreadID u) pre))) u.

Definition observe_all (a : Accumulator) (us : list Usage) : Accumulator :=
  foldl Observe a us.

Lemma last_reports_snoc us u : last_reports (us ++ [u]) = <[us_ThreadID u := u]> (last_reports us).
Proof. unfold last_reports. by rewrite fmap_app, reverse_app. Qed.

Lemma last_reports_lookup us t : last_reports us !! t = last (reports_of t us).
Proof.
  induction us as [|u us IH] using rev_ind; [done|].
  unfold reports_of in *. rewrite last_reports_snoc, filter_app, filter_cons, filter_nil.
  case_decide as Ht; subst.
  - by rewrite lookup_insert_eq, last_snoc.
  - by rewrite lookup_insert_ne, app_nil_r.
Qed.

Lemma observe_all_snoc a us u : observe_all a (us ++ [u]) = Observe (observe_all a us) u.
Proof. unfold observe_all. by rewrite foldl_app. Qed.

(** What is remembered of any reports, monotone or not. *)
Lemma observe_all_lastSeen us : acc_lastSeen (observe_all NewAccumulator us) = last_reports us.
Proof.
  induction us as [|u us IH] using rev_ind; [done|].
  by rewrite observe_all_snoc, last_reports_snoc, <- IH.
Qed.

Lemma monotone_snoc us u :
  monotone_reports (us ++ [u]) ->
  monotone_reports us /\ advances (default zero_usage (last_reports us !! us_ThreadID u)) u.
Proof.
  intros Hm. split.
  - intros pre v post ->. apply (Hm pre v (post ++ [u])). by rewrite <- app_assoc.
  - rewrite last_reports_lookup. by apply (Hm us u []).
Qed.

Lemma map_sum_last_seen (f : Usage -> Z) a t :
  f zero_usage = 0 ->
  map_sum f (acc_lastSeen a)
  = f (last_seen a t) + map_sum f (delete t (acc_lastSeen a)).
Proof.
  intros Hz. unfold last_seen.
  destruct (acc_lastSeen a !! t) as [u|] eqn:Hu; simpl.
  - by apply map_sum_delete.
  - rewrite Hz, delete_id by done. lia.
Qed.

Lemma clampPos_advance p u :
  0 <= p <= u -> u <= max_int64 -> clampPos (wrap64 (u - p)) = u - p.
Proof.
  intros. rewrite wrap64_id by (unfold min_int64; lia).
  unfold clampPos. destruct (Z.ltb_spec (u - p) 0); lia.
Qed.

Lemma wrap64_advance s p u rest :
  s = p + rest -> wrap64 (wrap64 s + (u - p)) = wrap64 (u + rest).
Proof. intros ->. rewrite wrap64_wrap64_l. f_equal. lia. Qed.

Lemma Observe_sums a u :
  acc_totals a = sums (acc_lastSeen a) -> advances (last_seen a (us_ThreadID u)) u ->
  acc_totals (Observe a u) = sums (acc_lastSeen (Observe a u)).
Proof.
  unfold sums, advances. intros Hs (?&?&?&?&?&?).
  unfold Observe. cbn [acc_totals acc_lastSeen]. rewrite Hs. cbn [tot_Input tot_Output tot_Total].
  rewrite !clampPos_advance, !map_sum_insert by done.
  f_equal; by apply wrap64_advance, map_sum_last_seen.
Qed.

(** C37: token reports whose absolute counters never go backwards within a
    thread are counted exactly once: after any such sequence the totals are the
    sums, over the threads that reported, of the thread's last report in the
    sequence. *)
Theorem observe_all_exactly_once us :
  monotone_reports us ->
  AccTotals (observe_all NewAccumulator us) = sums (last_reports us) /\
  (forall t, last_reports us !! t = last (reports_of t us)).
Proof.
  intros Hm. split; [|apply last_reports_lookup]. unfold AccTotals.
  rewrite <- observe_all_lastSeen. induction us as [|u us IH] using rev_ind.
  { unfold sums. simpl. by rewrite !map_sum_empty. }
  apply monotone_snoc in Hm as [Hm Hu]. rewrite observe_all_snoc.
  apply Observe_sums; [by apply IH|]. unfold last_seen. by rewrite observe_all_lastSeen.
Qed.

Definition demo_reports : list Usage :=
  [ mkUsage "t1" 100 50 150; mkUsage "t2" 200 80 280; mkUsage "t1" 250 120 370 ].

Lemma observe_all_exactly_once_witness :
  AccTotals (observe_all NewAccumulator demo_reports) = mkTotals 450 200 650
  /\ sums (last_reports demo_reports) = mkTotals 450 200 650.
Proof.
  split; [|vm_compute; reflexivity].
  destruct (observe_all_exactly_once demo_reports) as [-> _]; [|vm_compute; reflexivity].
  intros pre u post Heq. unfold demo_reports in Heq.
  do 3 (destruct pre as [|? pre]; [injection Heq as <- <-; repeat split; vm_compute; discriminate|
    injection Heq as <- Heq]).
  by destruct pre.
Defined.

Lemma last_seen_Observe a u : last_seen (Observe a u) (us_ThreadID u) = u.
Proof. unfold last_seen, Observe. cbn [acc_lastSeen]. by rewrite lookup_insert_eq. Qed.

(** A repeated absolute report adds nothing. *)
Lemma Observe_same a u : acc_totals (Observe (Observe a u) u) = acc_totals (Observe a u).
Proof.
  unfold Observe at 1. rewrite last_seen_Observe, !Z.sub_diag.
  change (clampPos (wrap64 0)) with 0. rewrite !Z.add_0_r.
  unfold Observe. cbn [acc_totals tot_Input tot_Output tot_Total]. by rewrite !wrap64_idemp.
Qed.

(** A report that goes backwards is not ignored: it lowers the remembered
    absolute, so the thread's next report is counted again.  Three reports of a
    thread whose counter reads 100, 40 and 100 are totalled as 160. *)
Example backwards_report_recounted :
  tot_Total (AccTotals (observe_all NewAccumulator
    [ mkUsage "t" 0 0 100; mkUsage "t" 0 0 40; mkUsage "t" 0 0 100 ])) = 160.
Proof. vm_compute. reflexivity. Qed.
