(* ===== verification/Scheduler.v ===== *)
(** * orchestrator/scheduler: the pure reducer

    Model of src/services/orchestrator/scheduler: the issue and configuration
    records it reads (platform/tracker, orchestrator/wfconfig), its [State], the
    transition helpers of transitions.go, the slot arithmetic of slots.go, the
    eligibility filter and sort, and [Reduce] with every event handler.  The
    theorems about them are in SchedulerClaims.v, SchedulerSlots.v,
    SchedulerLoop.v and SchedulerFacts.v. *)

From S2P Require Import Prelude Metrics.

(** ** Tracker issues (platform/tracker/tracker.go) *)

Record Blocker := mkBlocker {
  bl_ID : string; bl_Identifier : string; bl_State : string }.

Record Project := mkProject { prj_Name : string; prj_Content : string }.

Record Issue := mkIssue {
  iss_ID : string;
  iss_Identifier : string;
  iss_Title : string;
  iss_Description : string;
  iss_Priority : option Z;
  iss_State : string;
  iss_BranchName : string;
  iss_URL : string;
  iss_Labels : list string;
  iss_BlockedBy : list Blocker;
  iss_Project : Project;
  iss_CreatedAt : Time;
  iss_UpdatedAt : Time }.

Definition zero_issue : Issue :=
  mkIssue "" "" "" "" None "" "" "" [] [] (mkProject "" "") 0 0.

(** ** Configuration (orchestrator/wfconfig/config.go) *)

Record TrackerConfig := mkTrackerConfig {
  tc_Kind : string; tc_Endpoint : string; tc_APIKey : string;
  tc_ProjectSlugs : list string; tc_ActiveStates : list string;
  tc_TerminalStates : list string }.

Record AgentConfig := mkAgentConfig {
  ac_MaxConcurrentAgents : Z;
  ac_MaxConcurrentAgentsByState : gmap string Z;
  ac_MaxTurns : Z;
  ac_MaxRetryBackoffMS : Z }.

Record CodexConfig := mkCodexConfig {
  cc_Command : string; cc_TurnTimeoutMS : Z; cc_ReadTimeoutMS : Z;
  cc_StallTimeoutMS : Z; cc_ApprovalPolicy : string; cc_ThreadSandbox : string;
  cc_TurnSandboxPolicy : string }.

(** The polling, workspace, hook and server settings are not read by the
    reducer; the polling interval is read by the loop's ticker only. *)
Record Config := mkConfig {
  cfg_Tracker : TrackerConfig; cfg_PollingIntervalMS : Z;
  cfg_Agent : AgentConfig; cfg_Codex : CodexConfig }.

(** ** State (state.go) *)

Inductive RunPhase :=
| PhasePreparingWorkspace | PhaseBuildingPrompt | PhaseLaunchingAgentProcess
| PhaseInitializingSession | PhaseStreamingTurn | PhaseFinishing | PhaseSucceeded
| PhaseFailed | PhaseTimedOut | PhaseStalled | PhaseCanceledByReconciliation.

Inductive RetryKind := RetryContinuation | RetryBackoff.

(** The errors the reducer records or returns; [ErrOther] carries the text of
    an error produced outside it (a spawn, an agent run, a tracker fetch). *)
Inductive SchedError :=
| ErrDuplicateDispatch | ErrStall | ErrNotInRefresh | ErrLeftActiveStates
| errNoSlots | ErrOther (msg : string).

#[export] Instance SchedError_eq_dec : EqDecision SchedError.
Proof. solve_decision. Defined.

Record LiveSession := mkLiveSession {
  ls_SessionID : string; ls_ThreadID : string; ls_TurnID : string;
  ls_StartedAt : Time }.

Record RunAttempt := mkRunAttempt {
  run_Issue : Issue;
  run_Session : LiveSession;
  run_Attempt : Z;
  run_Phase : RunPhase;
  run_TurnCount : Z;
  run_StartedAt : Time;
  run_LastCodexMessage : string;
  run_LastCodexEvent : string;
  run_LastCodexTimestamp : Time;
  run_CodexAppServerPID : Z;
  run_TotalInputTokens : Z;
  run_TotalOutputTokens : Z;
  run_TotalTokens : Z;
  run_TotalRuntime : Duration;
  run_RateLimit : option RateLimitSnapshot }.

#[export] Instance eta_RunAttempt : Eta RunAttempt := fun r =>
  mkRunAttempt (run_Issue r) (run_Session r) (run_Attempt r) (run_Phase r)
    (run_TurnCount r) (run_StartedAt r) (run_LastCodexMessage r)
    (run_LastCodexEvent r) (run_LastCodexTimestamp r) (run_CodexAppServerPID r)
    (run_TotalInputTokens r) (run_TotalOutputTokens r) (run_TotalTokens r)
    (run_TotalRuntime r) (run_RateLimit r).

Definition zero_session : LiveSession := mkLiveSession "" "" "" 0.

Definition zero_run : RunAttempt :=
  mkRunAttempt zero_issue zero_session 0 PhasePreparingWorkspace 0 0 "" "" 0 0 0 0 0 0 None.

Record RetryEntry := mkRetryEntry {
  re_IssueID : string; re_Identifier : string; re_Attempt : Z;
  re_Kind : RetryKind; re_Err : option SchedError; re_DueAtMS : Z }.

#[export] Instance eta_RetryEntry : Eta RetryEntry := fun r =>
  mkRetryEntry (re_IssueID r) (re_Identifier r) (re_Attempt r) (re_Kind r)
    (re_Err r) (re_DueAtMS r).

Record State := mkState {
  s_Running : gmap string RunAttempt;
  s_Claimed : gset string;
  s_RetryAttempts : gmap string RetryEntry;
  s_Usage : gmap string Accumulator;
  s_Runtime : gmap string Duration;
  s_CodexTotals : Totals;
  s_CodexRuntime : Duration }.

#[export] Instance eta_State : Eta State := fun s =>
  mkState (s_Running s) (s_Claimed s) (s_RetryAttempts s) (s_Usage s) (s_Runtime s)
    (s_CodexTotals s) (s_CodexRuntime s).

Definition NewState : State := mkState ∅ ∅ ∅ ∅ ∅ zero_totals 0.

(** [CodexSecondsRunning] is kept as a duration; its conversion to a float
    number of seconds is left to the HTTP layer. *)
Record StateSnapshot := mkStateSnapshot {
  snap_Running : gmap string RunAttempt;
  snap_Claimed : gset string;
  snap_RetryAttempts : gmap string RetryEntry;
  snap_CodexTotals : Totals;
  snap_CodexRunning : Duration }.

Definition add_totals (a b : Totals) : Totals :=
  mkTotals (wrap64 (tot_Input a + tot_Input b)) (wrap64 (tot_Output a + tot_Output b))
           (wrap64 (tot_Total a + tot_Total b)).

Definition Snapshot `{GoMapRange} (s : State) : StateSnapshot :=
  let totals := foldl (fun t kv => add_totals t (AccTotals kv.2)) (s_CodexTotals s)
                      (range (s_Usage s)) in
  let rt := foldl (fun d kv => wrap64 (d + kv.2)) (s_CodexRuntime s)
                  (range (s_Runtime s)) in
  mkStateSnapshot (s_Running s) (s_Claimed s) (s_RetryAttempts s) totals rt.

(** ** Events and effects (event.go, effect.go) *)

Inductive Event :=
| EvTick (ConfigValid : bool)
| EvCandidatesFetched (Issues : list Issue)
| EvTrackerRefreshed (RequestedIDs : list string) (Issues : list Issue)
| EvRevalidated (Issue_ : Issue) (Attempt : Z) (Fresh : option Issue)
| EvRetryResolved (IssueID Identifier : string) (Attempt : Z)
    (Issues : list Issue) (FetchErr : option SchedError)
| EvSpawned (Issue_ : Issue) (Attempt : Z) (Session : LiveSession)
| EvSpawnFailed (Issue_ : Issue) (Attempt : Z) (Err : option SchedError)
| EvWorkerExit (IssueID : string) (Err : option SchedError) (Attempt : Z)
| EvRetryDue (IssueID Identifier : string) (Attempt : Z)
| EvCodexActivity (IssueID Event_ Message : string) (Timestamp : Time)
    (Usage_ : option Usage) (RateLimit : option RateLimitSnapshot)
    (TurnDuration : option Duration) (TurnCompleted : bool).

Inductive Effect :=
| EffFetchCandidates
| EffRefreshTracker (IDs : list string)
| EffRevalidate (Issue_ : Issue) (Attempt : Z)
| EffRetryFetch (IssueID Identifier : string) (Attempt : Z)
| EffSpawn (Issue_ : Issue) (Attempt : Z)
| EffKillWorker (IssueID Reason : string)
| EffRemoveWorkspace (Identifier : string)
| EffArmRetryTimer (IssueID Identifier : string) (Attempt : Z) (Delay : Duration)
| EffCancelRetryTimer (IssueID : string).

(** ** Transitions (transitions.go)

    [withKey] and [withoutKey] are copy-on-write insertion and deletion. *)

Definition withKey {V} (m : gmap string V) (k : string) (v : V) : gmap string V :=
  <[k := v]> m.
Definition withoutKey {V} (m : gmap string V) (k : string) : gmap string V :=
  delete k m.

Definition claim (s : State) (issue : Issue) : State * option SchedError :=
  if decide (iss_ID issue ∈ s_Claimed s) then (s, Some ErrDuplicateDispatch)
  else if decide (is_Some (s_Running s !! iss_ID issue)) then (s, Some ErrDuplicateDispatch)
  else
    let s := s <| s_RetryAttempts := withoutKey (s_RetryAttempts s) (iss_ID issue) |> in
    let s := s <| s_Claimed := {[iss_ID issue]} ∪ s_Claimed s |> in
    (s, None).

Definition claimFromRetry (s : State) (issueID : string) : State * option SchedError :=
  if decide (is_Some (s_RetryAttempts s !! issueID)) then
    if decide (is_Some (s_Running s !! issueID)) then (s, Some ErrDuplicateDispatch)
    else if decide (issueID ∈ s_Claimed s) then
      (s <| s_RetryAttempts := withoutKey (s_RetryAttempts s) issueID |>, None)
    else (s, Some ErrDuplicateDispatch)
  else (s, Some ErrDuplicateDispatch).

Definition markRunning (s : State) (issue : Issue) (attempt : Z) (session : LiveSession) : State :=
  s <| s_Running := withKey (s_Running s) (iss_ID issue)
         (mkRunAttempt issue session attempt PhasePreparingWorkspace 0
            (ls_StartedAt session) "" "" 0 0 0 0 0 0 None) |>.

Definition updateIssueSnapshot (s : State) (issueID : string) (issue : Issue) : State :=
  match s_Running s !! issueID with
  | None => s
  | Some run =>
    s <| s_Running := withKey (s_Running s) issueID (run <| run_Issue := issue |>) |>
  end.

(** The [ok] result is the [option]; the unchanged state and zero entry that
    come with [ok = false] are never used by a caller. *)
Definition workerExitNormal (s : State) (issueID : string) : option (State * RetryEntry) :=
  match s_Running s !! issueID with
  | None => None
  | Some run =>
    Some (s <| s_Running := withoutKey (s_Running s) issueID |>,
          mkRetryEntry issueID (iss_Identifier (run_Issue run))
            (wrap64 (run_Attempt run + 1)) RetryContinuation None 0)
  end.

Definition workerExitAbnormal (s : State) (issueID : string) (err : option SchedError)
    (attempt : Z) : option (State * RetryEntry) :=
  match s_Running s !! issueID with
  | None => None
  | Some run =>
    Some (s <| s_Running := withoutKey (s_Running s) issueID |>,
          mkRetryEntry issueID (iss_Identifier (run_Issue run))
            (wrap64 (attempt + 1)) RetryBackoff err 0)
  end.

Definition releaseClaim (s : State) (issueID : string) : State :=
  let s := match s_Usage s !! issueID with
           | Some acc =>
             s <| s_CodexTotals := add_totals (s_CodexTotals s) (AccTotals acc) |>
               <| s_Usage := withoutKey (s_Usage s) issueID |>
           | None => s
           end in
  let s := match s_Runtime s !! issueID with
           | Some rt =>
             s <| s_CodexRuntime := wrap64 (s_CodexRuntime s + rt) |>
               <| s_Runtime := withoutKey (s_Runtime s) issueID |>
           | None => s
           end in
  s <| s_Running := withoutKey (s_Running s) issueID |>
    <| s_Claimed := s_Claimed s ∖ {[issueID]} |>
    <| s_RetryAttempts := withoutKey (s_RetryAttempts s) issueID |>.

Definition enqueueRetry (s : State) (entry : RetryEntry) : State :=
  s <| s_RetryAttempts := withKey (s_RetryAttempts s) (re_IssueID entry) entry |>.

Definition incrementTurnCount (s : State) (issueID : string) : State :=
  match s_Running s !! issueID with
  | None => s
  | Some run =>
    s <| s_Running := withKey (s_Running s) issueID
           (run <| run_TurnCount := wrap64 (run_TurnCount run + 1) |>) |>
  end.

Definition updateCodexActivity (s : State) (issueID event message : string) (ts : Time) : State :=
  match s_Running s !! issueID with
  | None => s
  | Some run =>
    let run := run <| run_LastCodexEvent := event |>
                   <| run_LastCodexTimestamp := ts |> in
    let run := if decide (message = "") then run
               else run <| run_LastCodexMessage := message |> in
    s <| s_Running := withKey (s_Running s) issueID run |>
  end.

Definition recordUsage (s : State) (issueID : string) (u : Usage) : State :=
  match s_Running s !! issueID with
  | None => s
  | Some run =>
    let acc := Observe (default NewAccumulator (s_Usage s !! issueID)) u in
    let totals := AccTotals acc in
    s <| s_Usage := withKey (s_Usage s) issueID acc |>
      <| s_Running := withKey (s_Running s) issueID
           (run <| run_TotalInputTokens := tot_Input totals |>
                <| run_TotalOutputTokens := tot_Output totals |>
                <| run_TotalTokens := tot_Total totals |>) |>
  end.

Definition recordRateLimit (s : State) (issueID : string) (rl : RateLimitSnapshot) : State :=
  match s_Running s !! issueID with
  | None => s
  | Some run =>
    s <| s_Running := withKey (s_Running s) issueID (run <| run_RateLimit := Some rl |>) |>
  end.

Definition addRuntime (s : State) (issueID : string) (d : Duration) : State :=
  match s_Running s !! issueID with
  | None => s
  | Some run =>
    if d <=? 0 then s
    else
      s <| s_Running := withKey (s_Running s) issueID
             (run <| run_TotalRuntime := wrap64 (run_TotalRuntime run + d) |>) |>
        <| s_Runtime := withKey (s_Runtime s) issueID
             (wrap64 (default 0 (s_Runtime s !! issueID) + d)) |>
  end.

(** ** Retry delays (retry.go) *)

Definition continuationDelay : Duration := 1000 * Millisecond.

(** [10_000 * (1 << shift)] is evaluated in Go's 64-bit [int], as is the
    conversion of the milliseconds to nanoseconds. *)
Definition backoffDelay (attempt : Z) (cfg : Config) : Duration :=
  let attempt := if attempt <? 1 then 1 else attempt in
  let shift := attempt - 1 in
  let shift := if 62 <? shift then 62 else shift in
  let ms := wrap64 (10000 * wrap64 (Z.shiftl 1 shift)) in
  let maxMS := ac_MaxRetryBackoffMS (cfg_Agent cfg) in
  let ms := if (0 <? maxMS) && (maxMS <? ms) then maxMS else ms in
  wrap64 (ms * Millisecond).

(** ** Deterministic iteration (util.go) *)

Definition sortedRunningIDs (s : State) : list string :=
  sort_Strings (elements (dom (s_Running s))).

Definition sortedIDs (ids : list string) : list string := sort_Strings ids.

Section Scheduler.
Context `{UnicodeTables}.

(** ** Eligibility (eligibility.go) *)

Definition normSet (states : list string) : gset string :=
  list_to_set (ToLower <$> states).

Definition hasActiveBlocker (blockers : list Blocker) (terminal : gset string) : bool :=
  existsb (fun b => negb (bool_decide (ToLower (bl_State b) ∈ terminal))) blockers.

Definition eligible (iss : Issue) (s : State) (active terminal : gset string) : bool :=
  if bool_decide (iss_ID iss = "") || bool_decide (iss_Identifier iss = "")
     || bool_decide (iss_Title iss = "") || bool_decide (iss_State iss = "")
  then false
  else
    let norm := ToLower (iss_State iss) in
    if negb (bool_decide (norm ∈ active)) || bool_decide (norm ∈ terminal) then false
    else if bool_decide (is_Some (s_Running s !! iss_ID iss)) then false
    else if bool_decide (iss_ID iss ∈ s_Claimed s) then false
    else if bool_decide (is_Some (s_RetryAttempts s !! iss_ID iss)) then false
    else if bool_decide (ToLower (iss_State iss) = "todo")
            && hasActiveBlocker (iss_BlockedBy iss) terminal then false
    else true.

Definition filterEligible (cands : list Issue) (s : State) (cfg : Config) : list Issue :=
  let active := normSet (tc_ActiveStates (cfg_Tracker cfg)) in
  let terminal := normSet (tc_TerminalStates (cfg_Tracker cfg)) in
  filter (fun iss => eligible iss s active terminal = true) cands.

(** The comparison of [sortCandidates]: priority ascending with nil last, then
    creation time, then identifier. *)
Definition candidate_less (a b : Issue) : bool :=
  let tie :=
    if negb (iss_CreatedAt a =? iss_CreatedAt b)
    then Before (iss_CreatedAt a) (iss_CreatedAt b)
    else String.ltb (iss_Identifier a) (iss_Identifier b) in
  match iss_Priority a, iss_Priority b with
  | None, Some _ => false
  | Some _, None => true
  | Some p, Some q => if negb (p =? q) then p <? q else tie
  | None, None => tie
  end.

Definition sortCandidates (l : list Issue) : list Issue := sort_stable candidate_less l.

(** ** Dispatch slots (slots.go) *)

Definition retryQueuedCount (s : State) : Z :=
  map_count (fun id _ => negb (bool_decide (is_Some (s_Running s !! id)))) (s_RetryAttempts s).

Definition runningInState (s : State) (norm : string) : Z :=
  map_count (fun _ run => bool_decide (ToLower (iss_State (run_Issue run)) = norm)) (s_Running s).

Definition availableGlobalSlots (s : State) (cfg : Config) : Z :=
  let used := Z.of_nat (size (s_Running s)) + retryQueuedCount s in
  let avail := ac_MaxConcurrentAgents (cfg_Agent cfg) - used in
  if avail <? 0 then 0 else avail.

(** The per-state limit; the global one when none is configured. *)
Definition stateCapacity (cfg : Config) (norm : string) : Z :=
  default (ac_MaxConcurrentAgents (cfg_Agent cfg))
          (ac_MaxConcurrentAgentsByState (cfg_Agent cfg) !! norm).

Definition availablePerStateSlots (state : string) (s : State) (cfg : Config) : Z :=
  let norm := ToLower state in
  let avail := stateCapacity cfg norm - runningInState s norm in
  if avail <? 0 then 0 else avail.

Definition retryReclaimHasSlot (s : State) (cfg : Config) (issueID state : string) : bool :=
  let globalUsed := Z.of_nat (size (s_Running s)) + retryQueuedCount s in
  let globalUsed := if decide (is_Some (s_RetryAttempts s !! issueID))
                    then globalUsed - 1 else globalUsed in
  if ac_MaxConcurrentAgents (cfg_Agent cfg) <=? globalUsed then false
  else 0 <? availablePerStateSlots state s cfg.

(** ** Handlers *)

Definition armRetry (s : State) (entry : RetryEntry) (delay : Duration) (now : Time)
    : State * list Effect :=
  let entry := entry <| re_DueAtMS := UnixMilli (Add now delay) |> in
  (enqueueRetry s entry,
   [EffArmRetryTimer (re_IssueID entry) (re_Identifier entry) (re_Attempt entry) delay]).

(** reduce_reconcile.go *)

(** One iteration of the loop of [reduceStall]. *)
Definition stall_one (cfg : Config) (now : Time) (threshold : Duration)
    (acc : State * list Effect) (id : string) : State * list Effect :=
  let '(s, effs) := acc in
  let run := default zero_run (s_Running s !! id) in
  let base := if IsZero (run_LastCodexTimestamp run)
              then run_StartedAt run else run_LastCodexTimestamp run in
  if IsZero base || (Sub now base <=? threshold) then (s, effs)
  else match workerExitAbnormal s id (Some ErrStall) (run_Attempt run) with
       | None => (s, effs)
       | Some (s, entry) =>
         let effs := effs ++ [EffKillWorker id "stall"] in
         let '(s, armEffs) := armRetry s entry (backoffDelay (re_Attempt entry) cfg) now in
         (s, effs ++ armEffs)
       end.

Definition reduceStall (s : State) (cfg : Config) (now : Time) : State * list Effect :=
  if cc_StallTimeoutMS (cfg_Codex cfg) <=? 0 then (s, [])
  else
    let threshold := wrap64 (cc_StallTimeoutMS (cfg_Codex cfg) * Millisecond) in
    foldl (stall_one cfg now threshold) (s, []) (sortedRunningIDs s).

Definition reconcileKillRetry (s : State) (effs : list Effect) (id : string) (attempt : Z)
    (cause : SchedError) (reason : string) (cfg : Config) (now : Time)
    : State * list Effect :=
  match workerExitAbnormal s id (Some cause) attempt with
  | None => (s, effs)
  | Some (ns, entry) =>
    let effs := effs ++ [EffKillWorker id reason] in
    let '(ns, armEffs) := armRetry ns entry (backoffDelay (re_Attempt entry) cfg) now in
    (ns, effs ++ armEffs)
  end.

(** [byID]: a later issue with the same id replaces an earlier one. *)
Definition issues_by_id (issues : list Issue) : gmap string Issue :=
  foldl (fun m iss => <[iss_ID iss := iss]> m) ∅ issues.

(** One iteration of the loop of [reduceTrackerRefreshed]. *)
Definition refresh_one (byID : gmap string Issue) (terminal active : gset string)
    (cfg : Config) (now : Time) (acc : State * list Effect) (id : string)
    : State * list Effect :=
  let '(s, effs) := acc in
  match s_Running s !! id with
  | None => (s, effs)
  | Some run =>
    match byID !! id with
    | None => reconcileKillRetry s effs id (run_Attempt run) ErrNotInRefresh "not-found" cfg now
    | Some iss =>
      let norm := ToLower (iss_State iss) in
      if bool_decide (norm ∈ terminal) then
        (releaseClaim s id,
         effs ++ [EffKillWorker id "terminal"; EffRemoveWorkspace (iss_Identifier (run_Issue run))])
      else if bool_decide (norm ∈ active) then (updateIssueSnapshot s id iss, effs)
      else reconcileKillRetry s effs id (run_Attempt run) ErrLeftActiveStates "non-active" cfg now
    end
  end.

Definition reduceTrackerRefreshed (s : State) (requested : list string) (issues : list Issue)
    (cfg : Config) (now : Time) : State * list Effect :=
  let byID := issues_by_id issues in
  let terminal := normSet (tc_TerminalStates (cfg_Tracker cfg)) in
  let active := normSet (tc_ActiveStates (cfg_Tracker cfg)) in
  foldl (refresh_one byID terminal active cfg now) (s, []) (sortedIDs requested).

(** reduce_dispatch.go *)

(** [perStateUsed]: running attempts counted by lowercased issue state. *)
Definition count_by_state (s : State) : gmap string Z :=
  map_fold (fun _ run m =>
      let k := ToLower (iss_State (run_Issue run)) in
      <[k := default 0 (m !! k) + 1]> m) ∅ (s_Running s).

(** The allocation loop of [reduceCandidates]; [break] ends it, [continue]
    goes on with the next issue. *)
Fixpoint dispatch_loop (cfg : Config) (eligibles : list Issue) (s : State)
    (globalAvail : Z) (perStateUsed : gmap string Z) (effs : list Effect)
    : State * list Effect :=
  match eligibles with
  | [] => (s, effs)
  | iss :: rest =>
    if globalAvail <=? 0 then (s, effs)
    else
      let norm := ToLower (iss_State iss) in
      let used := default 0 (perStateUsed !! norm) in
      if stateCapacity cfg norm <=? used
      then dispatch_loop cfg rest s globalAvail perStateUsed effs
      else match claim s iss with
           | (_, Some _) => dispatch_loop cfg rest s globalAvail perStateUsed effs
           | (ns, None) =>
             dispatch_loop cfg rest ns (globalAvail - 1) (<[norm := used + 1]> perStateUsed)
               (effs ++ [EffRevalidate iss 0])
           end
  end.

Definition reduceCandidates (s : State) (cands : list Issue) (cfg : Config)
    : State * list Effect :=
  let eligibles := sortCandidates (filterEligible cands s cfg) in
  dispatch_loop cfg eligibles s (availableGlobalSlots s cfg) (count_by_state s) [].

Definition reduceRevalidated (s : State) (issue : Issue) (attempt : Z)
    (fresh : option Issue) (cfg : Config) : State * list Effect :=
  match fresh with
  | None => (releaseClaim s (iss_ID issue), [])
  | Some f =>
    let active := normSet (tc_ActiveStates (cfg_Tracker cfg)) in
    let terminal := normSet (tc_TerminalStates (cfg_Tracker cfg)) in
    let norm := ToLower (iss_State f) in
    if negb (bool_decide (norm ∈ active)) || bool_decide (norm ∈ terminal)
    then (releaseClaim s (iss_ID issue), [])
    else (s, [EffSpawn issue attempt])
  end.

(** reduce_retry.go *)

Definition findIssue (issues : list Issue) (id : string) : option Issue :=
  head (filter (fun iss => iss_ID iss = id) issues).

Definition retryEntry (issueID identifier : string) (attempt : Z)
    (cause : option SchedError) : RetryEntry :=
  mkRetryEntry issueID identifier attempt RetryBackoff cause 0.

Definition reduceRetryResolved (s : State) (issueID identifier : string) (attempt : Z)
    (issues : list Issue) (fetchErr : option SchedError) (cfg : Config) (now : Time)
    : State * list Effect :=
  match fetchErr with
  | Some err =>
    armRetry s (retryEntry issueID identifier (wrap64 (attempt + 1)) (Some err))
      (backoffDelay (wrap64 (attempt + 1)) cfg) now
  | None =>
    match findIssue issues issueID with
    | None => (releaseClaim s issueID, [])
    | Some found =>
      let terminal := normSet (tc_TerminalStates (cfg_Tracker cfg)) in
      let active := normSet (tc_ActiveStates (cfg_Tracker cfg)) in
      let norm := ToLower (iss_State found) in
      if bool_decide (norm ∈ terminal) || negb (bool_decide (norm ∈ active))
      then (releaseClaim s issueID, [])
      else if negb (retryReclaimHasSlot s cfg issueID (iss_State found))
      then armRetry s (retryEntry issueID identifier (wrap64 (attempt + 1)) (Some errNoSlots))
             (backoffDelay (wrap64 (attempt + 1)) cfg) now
      else match claimFromRetry s issueID with
           | (_, Some _) => (s, [])
           | (ns, None) => (ns, [EffSpawn found attempt])
           end
    end
  end.

(** reduce.go *)

Definition reduceTick (s : State) (configValid : bool) (cfg : Config) (now : Time)
    : State * list Effect :=
  let '(s, effs) := reduceStall s cfg now in
  let effs := if decide (s_Running s = ∅) then effs
              else effs ++ [EffRefreshTracker (sortedRunningIDs s)] in
  let effs := if configValid then effs ++ [EffFetchCandidates] else effs in
  (s, effs).

Definition reduceWorkerExit (s : State) (issueID : string) (err : option SchedError)
    (attempt : Z) (cfg : Config) (now : Time) : State * list Effect :=
  match err with
  | None =>
    match workerExitNormal s issueID with
    | None => (s, [])
    | Some (ns, entry) => armRetry ns entry continuationDelay now
    end
  | Some e =>
    match workerExitAbnormal s issueID (Some e) attempt with
    | None => (s, [])
    | Some (ns, entry) => armRetry ns entry (backoffDelay (re_Attempt entry) cfg) now
    end
  end.

Definition reduceSpawnFailed (s : State) (issue : Issue) (attempt : Z)
    (err : option SchedError) (cfg : Config) (now : Time) : State * list Effect :=
  let s := releaseClaim s (iss_ID issue) in
  let entry := mkRetryEntry (iss_ID issue) (iss_Identifier issue) (wrap64 (attempt + 1))
                 RetryBackoff err 0 in
  armRetry s entry (backoffDelay (re_Attempt entry) cfg) now.

Definition reduceCodexActivity (s : State) (issueID event message : string) (ts : Time)
    (usage : option Usage) (rl : option RateLimitSnapshot) (dur : option Duration)
    (completed : bool) : State :=
  let s := updateCodexActivity s issueID event message ts in
  let s := match usage with Some u => recordUsage s issueID u | None => s end in
  let s := match rl with Some r => recordRateLimit s issueID r | None => s end in
  let s := match dur with Some d => addRuntime s issueID d | None => s end in
  if completed then incrementTurnCount s issueID else s.

Definition Reduce (s : State) (ev : Event) (cfg : Config) (now : Time) : State * list Effect :=
  match ev with
  | EvTick valid => reduceTick s valid cfg now
  | EvTrackerRefreshed ids issues => reduceTrackerRefreshed s ids issues cfg now
  | EvCandidatesFetched issues => reduceCandidates s issues cfg
  | EvRevalidated issue attempt fresh => reduceRevalidated s issue attempt fresh cfg
  | EvRetryDue id ident attempt => (s, [EffRetryFetch id ident attempt])
  | EvRetryResolved id ident attempt issues fetchErr =>
    reduceRetryResolved s id ident attempt issues fetchErr cfg now
  | EvSpawned issue attempt session => (markRunning s issue attempt session, [])
  | EvSpawnFailed issue attempt err => reduceSpawnFailed s issue attempt err cfg now
  | EvWorkerExit id err attempt => reduceWorkerExit s id err attempt cfg now
  | EvCodexActivity id event message ts usage rl dur completed =>
    (reduceCodexActivity s id event message ts usage rl dur completed, [])
  end.

End Scheduler.

(** ** Preflight (preflight.go) *)

Inductive PreflightError :=
| PreflightKindRequired | PreflightKindUnsupported (kind : string)
| PreflightAPIKeyRequired | PreflightProjectSlugsRequired | PreflightCommandRequired.

Definition supportedTrackerKinds : gset string := {["linear"]}.

Definition Preflight (cfg : Config) : option PreflightError :=
  let t := cfg_Tracker cfg in
  if bool_decide (tc_Kind t = "") then Some PreflightKindRequired
  else if negb (bool_decide (tc_Kind t ∈ supportedTrackerKinds))
  then Some (PreflightKindUnsupported (tc_Kind t))
  else if bool_decide (tc_APIKey t = "") then Some PreflightAPIKeyRequired
  else if bool_decide (tc_Kind t = "linear") && bool_decide (tc_ProjectSlugs t = [])
  then Some PreflightProjectSlugsRequired
  else if bool_decide (cc_Command (cfg_Codex cfg) = "") then Some PreflightCommandRequired
  else None.

(** ** Concrete data for the witnesses *)
Module SchedDemo.

Definition demo_unicode : UnicodeTables := fun s => s.

#[export] Existing Instance demo_unicode.

Definition demo_issue (id : string) (prio : Z) : Issue :=
  mkIssue id ("AG-" +:+ id) "title" "" (Some prio) "Todo" "" "" [] [] (mkProject "" "") 0 0.

Definition demo_config : Config :=
  mkConfig (mkTrackerConfig "linear" "" "key" ["proj"] ["Todo"; "In Progress"] ["Done"])
    30000 (mkAgentConfig 2 ∅ 20 300000) (mkCodexConfig "codex" 0 0 300000 "" "" "").

End SchedDemo.
