(* ===== verification/SchedulerClaims.v ===== *)
(** * orchestrator/scheduler: claim bookkeeping

    The issue ids a scheduler state tracks fall into running ids, queued ids
    (waiting for a retry timer) and ids whose dispatch is in flight, between the
    claim made by [reduceCandidates] or [claimFromRetry] and the [EvSpawned] or
    [EvSpawnFailed] that ends it.  This file states the invariant that relates
    them to [State.Claimed], and shows that every event handler preserves it. *)

From S2P Require Import Prelude Metrics Scheduler.

(** ** The three groups of ids *)

Definition running_ids (s : State) : gset string := dom (s_Running s).
Definition queued_ids (s : State) : gset string := dom (s_RetryAttempts s).

(** Ids whose dispatch an event carries, or an effect list starts. *)
Definition in_flight_event (ev : Event) : list string :=
  match ev with
  | EvRevalidated issue _ _ | EvSpawned issue _ _ | EvSpawnFailed issue _ _ => [iss_ID issue]
  | _ => []
  end.

Definition in_flight_effect (eff : Effect) : list string :=
  match eff with
  | EffRevalidate issue _ | EffSpawn issue _ => [iss_ID issue]
  | _ => []
  end.

Definition in_flight_effects (effs : list Effect) : list string :=
  effs ≫= in_flight_effect.

Lemma in_flight_effects_app e1 e2 :
  in_flight_effects (e1 ++ e2) = in_flight_effects e1 ++ in_flight_effects e2.
Proof. apply bind_app. Qed.

(** The invariant, for a state with the dispatches [P] in flight: a running id
    is claimed; running, queued and in-flight ids are disjoint; every claim is
    accounted for by one of the groups; entries carry the id they are stored
    under. *)
Record claims_ok (s : State) (P : list string) : Prop := {
  co_running : forall id, id ∈ running_ids s ->
    id ∈ s_Claimed s /\ (id ∉ queued_ids s) /\ id ∉ P;
  co_flight : forall id, id ∈ P -> id ∈ s_Claimed s /\ id ∉ queued_ids s;
  co_no_leak : forall id, id ∈ s_Claimed s ->
    id ∈ running_ids s \/ id ∈ queued_ids s \/ id ∈ P;
  co_nodup : NoDup P;
  co_run_keys : map_Forall (fun id run => iss_ID (run_Issue run) = id) (s_Running s);
  co_retry_keys : map_Forall (fun id e => re_IssueID e = id) (s_RetryAttempts s) }.

(** ** What the transitions do to the groups *)

Section Views.
Implicit Types s : State.

Lemma releaseClaim_Running s id : s_Running (releaseClaim s id) = delete id (s_Running s).
Proof. unfold releaseClaim. by repeat case_match. Qed.

Lemma releaseClaim_Claimed s id : s_Claimed (releaseClaim s id) = s_Claimed s ∖ {[id]}.
Proof. unfold releaseClaim. by repeat case_match. Qed.

Lemma releaseClaim_Retry s id :
  s_RetryAttempts (releaseClaim s id) = delete id (s_RetryAttempts s).
Proof. unfold releaseClaim. by repeat case_match. Qed.

Lemma elem_of_withKey {V} (m : gmap string V) k v x :
  x ∈ dom (withKey m k v) <-> x = k \/ x ∈ dom m.
Proof. unfold withKey. rewrite dom_insert. set_solver. Qed.

Lemma elem_of_delete {V} (m : gmap string V) k x :
  x ∈ dom (delete k m) <-> x <> k /\ x ∈ dom m.
Proof. rewrite dom_delete. set_solver. Qed.

Lemma workerExitAbnormal_Some s id err att s' e :
  workerExitAbnormal s id err att = Some (s', e) ->
  id ∈ running_ids s /\ re_IssueID e = id /\
  s' = s <| s_Running := delete id (s_Running s) |>.
Proof.
  unfold workerExitAbnormal, running_ids. rewrite elem_of_dom.
  case_match; intros; simplify_eq/=; eauto.
Qed.

Lemma workerExitNormal_Some s id s' e :
  workerExitNormal s id = Some (s', e) ->
  id ∈ running_ids s /\ re_IssueID e = id /\
  s' = s <| s_Running := delete id (s_Running s) |>.
Proof.
  unfold workerExitNormal, running_ids. rewrite elem_of_dom.
  case_match; intros; simplify_eq/=; eauto.
Qed.
End Views.

#[export] Hint Rewrite releaseClaim_Running releaseClaim_Claimed releaseClaim_Retry
  @elem_of_withKey @elem_of_delete : agrid.

(** Reduces membership in the groups of an updated state to membership in the
    groups of the original one. *)
Ltac group_simpl :=
  unfold running_ids, queued_ids in *;
  cbn [set_field eta eta_State eta_RetryEntry enqueueRetry armRetry markRunning fst
       s_Running s_Claimed s_RetryAttempts re_IssueID] in *;
  autorewrite with agrid in *;
  rewrite ?elem_of_difference, ?elem_of_union, ?elem_of_singleton, ?list_elem_of_filter in *.

(** Splits the invariant's goals; the id at hand is compared with [k]. *)
Ltac claims_cases k :=
  group_simpl;
  match goal with
  | |- forall _, _ => intros x; group_simpl; destruct (decide (x = k)); subst;
                    repeat match goal with
                    | H : forall id, id ∈ _ -> _ |- _ => specialize (H x) || specialize (H k)
                    end; group_simpl; tauto
  | _ => idtac
  end.

(** ** Preservation by the transitions *)

Section Preservation.
Implicit Types (s : State) (P : list string).

(** Releasing an id drops it from every group. *)
Lemma releaseClaim_ok s P id :
  claims_ok s P -> claims_ok (releaseClaim s id) (filter (fun x => x <> id) P).
Proof.
  intros [H1 H2 H3 H4 H5 H6]. split; try claims_cases id.
  - by apply NoDup_filter.
  - by apply map_Forall_delete.
  - by apply map_Forall_delete.
Qed.

Lemma filter_notin P id : id ∉ P -> filter (fun x => x <> id) P = P.
Proof.
  intros Hid. induction P as [|x P IH]; [done|].
  apply not_elem_of_cons in Hid as [??].
  rewrite filter_cons_True by done. by rewrite IH.
Qed.

Lemma releaseClaim_ok_flight s P id :
  claims_ok s (id :: P) -> claims_ok (releaseClaim s id) P.
Proof.
  intros Hok. pose proof (co_nodup _ _ Hok) as [Hid HP]%NoDup_cons.
  apply (releaseClaim_ok s (id :: P) id) in Hok.
  by rewrite filter_cons_False, filter_notin in Hok by naive_solver.
Qed.

Lemma releaseClaim_ok_other s P id :
  id ∉ P -> claims_ok s P -> claims_ok (releaseClaim s id) P.
Proof. intros Hid Hok. rewrite <- (filter_notin P id Hid). by apply releaseClaim_ok. Qed.

(** Queueing an id that is neither running nor in flight. *)
Lemma armRetry_ok s P e delay now :
  (re_IssueID e ∉ running_ids s) -> (re_IssueID e ∉ P) ->
  claims_ok s P -> claims_ok (armRetry s e delay now).1 P.
Proof.
  intros Hr HP [H1 H2 H3 H4 H5 H6]. split; try claims_cases (re_IssueID e); try done.
  by apply map_Forall_insert_2.
Qed.

(** A running attempt that ends is queued: one move of its id. *)
Lemma exit_and_arm_ok s P id e delay now :
  id ∈ running_ids s -> re_IssueID e = id -> claims_ok s P ->
  claims_ok (armRetry (s <| s_Running := delete id (s_Running s) |>) e delay now).1 P.
Proof.
  intros Hid <- [H1 H2 H3 H4 H5 H6]. split; try claims_cases (re_IssueID e); try done.
  - by apply map_Forall_delete.
  - by apply map_Forall_insert_2.
Qed.

(** A change of state that keeps the groups and the keys. *)
Lemma claims_ok_same s s' P :
  running_ids s' = running_ids s -> s_Claimed s' = s_Claimed s ->
  s_RetryAttempts s' = s_RetryAttempts s ->
  (forall id run', s_Running s' !! id = Some run' ->
     exists run, s_Running s !! id = Some run /\ iss_ID (run_Issue run') = iss_ID (run_Issue run)) ->
  claims_ok s P -> claims_ok s' P.
Proof.
  intros HR HC HQ Hk [H1 H2 H3 H4 H5 H6]. unfold queued_ids in *.
  split; unfold queued_ids; rewrite ?HR, ?HC, ?HQ; try done.
  intros id run' Hid. destruct (Hk _ _ Hid) as (run & Hrun & ->). by apply H5.
Qed.

(** Claiming a free id puts its dispatch in flight. *)
Lemma claim_ok s P iss s' :
  claim s iss = (s', None) -> claims_ok s P -> claims_ok s' (iss_ID iss :: P).
Proof.
  unfold claim. repeat case_decide; intros; simplify_eq.
  destruct H2 as [H1 H2 H3 H4 H5 H6].
  assert (iss_ID iss ∉ P) by (intros ?; naive_solver).
  split; group_simpl; try done.
  - intros x Hx. destruct (H1 x Hx) as (? & ? & ?).
    assert (x <> iss_ID iss) by (intros ->; by apply elem_of_dom in Hx). set_solver.
  - intros x [->|Hx]%elem_of_cons; [set_solver|]. destruct (H2 x Hx). set_solver.
  - intros x Hx. destruct (decide (x = iss_ID iss)) as [->|]; set_solver.
  - by constructor.
  - by apply map_Forall_delete.
Qed.

Lemma claimFromRetry_ok s P id s' :
  claimFromRetry s id = (s', None) -> claims_ok s P -> claims_ok s' (id :: P).
Proof.
  unfold claimFromRetry. repeat case_decide; intros; simplify_eq.
  destruct H3 as [H1' H2 H3 H4 H5 H6].
  apply elem_of_dom in H. rewrite <- (elem_of_dom (D:=gset string)) in H0.
  assert (id ∉ P) by (intros ?; naive_solver).
  split; group_simpl; unfold withoutKey; try done.
  - intros x Hx. destruct (H1' x Hx) as (? & ? & ?).
    assert (x <> id) by congruence. rewrite elem_of_delete. set_solver.
  - intros x [->|Hx]%elem_of_cons; rewrite elem_of_delete; [naive_solver|].
    destruct (H2 x Hx). naive_solver.
  - intros x Hx. rewrite elem_of_delete, elem_of_cons.
    destruct (decide (x = id)) as [->|]; [auto|]. destruct (H3 x Hx); naive_solver.
  - by constructor.
  - by apply map_Forall_delete.
Qed.

(** A finished dispatch becomes a running attempt. *)
Lemma markRunning_ok s P iss att ses :
  claims_ok s (iss_ID iss :: P) -> claims_ok (markRunning s iss att ses) P.
Proof.
  intros [H1 H2 H3 H4 H5 H6]. apply NoDup_cons in H4 as [Hn H4].
  split; group_simpl; try done.
  - intros x. rewrite elem_of_withKey. intros [->|Hx].
    + destruct (H2 (iss_ID iss)); set_solver.
    + destruct (H1 x Hx) as (? & ? & ?); set_solver.
  - intros x Hx. apply H2. set_solver.
  - intros x Hx. rewrite elem_of_withKey. specialize (H3 x Hx). set_solver.
  - by apply map_Forall_insert_2.
Qed.
End Preservation.

(** ** Retry timers

    [T] are the ids with an armed timer; [A] are ids whose arming is still owed:
    an [EffArmRetryTimer] not yet executed, or a timer that has fired and whose
    resolution is under way. *)

Definition owed_event (ev : Event) : list string :=
  match ev with EvRetryDue id _ _ | EvRetryResolved id _ _ _ _ => [id] | _ => [] end.

Definition owed_effect (eff : Effect) : list string :=
  match eff with EffRetryFetch id _ _ | EffArmRetryTimer id _ _ _ => [id] | _ => [] end.

Definition owed_effects (effs : list Effect) : list string := effs ≫= owed_effect.

Lemma owed_effects_app e1 e2 : owed_effects (e1 ++ e2) = owed_effects e1 ++ owed_effects e2.
Proof. apply bind_app. Qed.

(** The ledger invariant: the claims are in order, a timer is armed only for a
    queued id and never owed as well, and (when the tracker and the spawner are
    wired) every queued id that still holds its claim has a timer, or is owed
    one. *)
Record ledger_ok (wired : Prop) (T : gset string) (s : State) (P A : list string) : Prop := {
  lo_claims : claims_ok s P;
  lo_owed_nodup : NoDup A;
  lo_owed : forall id, id ∈ A -> id ∈ queued_ids s;
  lo_timers : forall id, id ∈ T -> id ∈ queued_ids s /\ id ∉ A;
  lo_live : wired -> forall id, id ∈ queued_ids s -> id ∈ s_Claimed s -> id ∈ T \/ id ∈ A }.

Definition tracked_ids (s : State) (P : list string) : gset string :=
  running_ids s ∪ queued_ids s ∪ list_to_set P.

(** One move of the ledger: it keeps the invariant and tracks no new id. *)
Definition ledger_move (s : State) (P A : list string) (s' : State) (P' A' : list string) : Prop :=
  forall wired T, ledger_ok wired T s P A ->
    ledger_ok wired T s' P' A' /\ tracked_ids s' P' ⊆ tracked_ids s P.

Lemma ledger_move_refl s P A : ledger_move s P A s P A.
Proof. by intros wired T. Qed.

Lemma ledger_move_trans s1 P1 A1 s2 P2 A2 s3 P3 A3 :
  ledger_move s1 P1 A1 s2 P2 A2 -> ledger_move s2 P2 A2 s3 P3 A3 ->
  ledger_move s1 P1 A1 s3 P3 A3.
Proof.
  intros H12 H23 wired T H1. destruct (H12 _ _ H1) as [H2 Hsub].
  destruct (H23 _ _ H2) as [H3 Hsub']. split; [done|]. by etrans.
Qed.

#[export] Instance claims_ok_proper s : Proper ((≡ₚ) ==> impl) (claims_ok s).
Proof.
  intros P P' HP [H1 H2 H3 H4 H5 H6]. split; try done.
  - setoid_rewrite <- HP. done.
  - setoid_rewrite <- HP. done.
  - setoid_rewrite <- HP. done.
  - by rewrite <- HP.
Qed.

#[export] Instance ledger_ok_proper wired T s :
  Proper ((≡ₚ) ==> (≡ₚ) ==> impl) (ledger_ok wired T s).
Proof.
  intros P P' HP A A' HA [H1 H2 H3 H4 H5]. split.
  - by rewrite <- HP.
  - by rewrite <- HA.
  - setoid_rewrite <- HA. done.
  - setoid_rewrite <- HA. done.
  - setoid_rewrite <- HA. done.
Qed.

Lemma ledger_move_perm s P A s' P' A' Q B Q' B' :
  P ≡ₚ Q -> A ≡ₚ B -> P' ≡ₚ Q' -> A' ≡ₚ B' ->
  ledger_move s P A s' P' A' -> ledger_move s Q B s' Q' B'.
Proof.
  intros HP HA HP' HA' Hm wired T Hok. rewrite <- HP, <- HA in Hok.
  destruct (Hm _ _ Hok) as [Hok' Hsub]. rewrite HP', HA' in Hok'. split; [done|].
  unfold tracked_ids in *. intros x. specialize (Hsub x).
  rewrite !elem_of_union, !elem_of_list_to_set in *. by rewrite <- HP, <- HP'.
Qed.

Section Moves.
Implicit Types (s : State) (P A : list string).

Ltac tracked_cases k :=
  let x := fresh "x" in
  intros x; unfold tracked_ids;
  rewrite !elem_of_union, ?elem_of_list_to_set, ?elem_of_cons; group_simpl;
  rewrite ?elem_of_union, ?elem_of_list_to_set, ?elem_of_cons in *;
  destruct (decide (x = k)); subst; tauto.

(** A released id that no timer refers to. *)
Lemma release_flight_move s P A id : ledger_move s (id :: P) A (releaseClaim s id) P A.
Proof.
  intros wired T [Hc H2 H3 H4 H5].
  assert (id ∉ queued_ids s) as Hq by (apply (co_flight _ _ Hc); left).
  split; [|tracked_cases id].
  split; [by apply releaseClaim_ok_flight|done|..]; group_simpl.
  - intros x Hx. group_simpl. split; [|naive_solver]. intros ->. naive_solver.
  - intros x Hx. group_simpl. split; [|naive_solver]. split; [|naive_solver].
    intros ->. naive_solver.
  - intros Hw x Hx Hx'. group_simpl. naive_solver.
Qed.

Lemma release_running_move s P A id :
  id ∈ running_ids s -> ledger_move s P A (releaseClaim s id) P A.
Proof.
  intros Hr wired T [Hc H2 H3 H4 H5].
  destruct (co_running _ _ Hc id Hr) as (HC & Hq & HP).
  split; [|tracked_cases id].
  split; [by apply releaseClaim_ok_other|done|..]; group_simpl.
  - intros x Hx. group_simpl. split; [|naive_solver]. intros ->. naive_solver.
  - intros x Hx. group_simpl. split; [|naive_solver]. split; [|naive_solver].
    intros ->. naive_solver.
  - intros Hw x Hx Hx'. group_simpl. naive_solver.
Qed.

Lemma release_owed_move s P A id : ledger_move s P (id :: A) (releaseClaim s id) P A.
Proof.
  intros wired T [Hc H2 H3 H4 H5]. apply NoDup_cons in H2 as [Hn H2].
  assert (id ∈ queued_ids s) as Hq by (apply H3; left).
  assert (id ∉ P) as HP by (intros HP; by destruct (co_flight _ _ Hc _ HP)).
  split; [|tracked_cases id].
  split; [by apply releaseClaim_ok_other|done|..]; group_simpl.
  - intros x Hx. group_simpl. split; [by intros ->|]. apply H3. by right.
  - intros x Hx. group_simpl. destruct (H4 x Hx) as [? Hx'].
    rewrite not_elem_of_cons in Hx'. tauto.
  - intros Hw x Hx Hx'. group_simpl. destruct (H5 Hw x) as [|[->|]%elem_of_cons]; tauto.
Qed.

(** A running attempt ends and is queued; its timer is owed. *)
Lemma exit_and_arm_move s P A id e delay now :
  id ∈ running_ids s -> re_IssueID e = id ->
  ledger_move s P A
    (armRetry (s <| s_Running := delete id (s_Running s) |>) e delay now).1 P (id :: A).
Proof.
  intros Hr He wired T [Hc H2 H3 H4 H5].
  destruct (co_running _ _ Hc id Hr) as (HC & Hq & HP).
  split; [|subst id; tracked_cases (re_IssueID e)].
  split; [by apply exit_and_arm_ok|..]; group_simpl; rewrite ?He.
  - constructor; [|done]. intros ?. naive_solver.
  - intros x [->|Hx]%elem_of_cons; group_simpl; [by left|]. right. by apply H3.
  - intros x Hx. group_simpl. destruct (H4 x Hx). split; [by right|].
    intros [->|?]%elem_of_cons; tauto.
  - intros Hw x Hx HC'. rewrite elem_of_cons. group_simpl.
    destruct (decide (x = id)); [tauto|]. destruct (H5 Hw x); naive_solver.
Qed.

(** An owed id is queued again. *)
Lemma rearm_move s P A e delay now :
  ledger_move s P (re_IssueID e :: A) (armRetry s e delay now).1 P (re_IssueID e :: A).
Proof.
  intros wired T [Hc H2 H3 H4 H5].
  assert (re_IssueID e ∈ queued_ids s) as Hq by (apply H3; left).
  assert (re_IssueID e ∉ P) as HP by (intros HP; by destruct (co_flight _ _ Hc _ HP)).
  assert (re_IssueID e ∉ running_ids s) as HR
    by (intros HR; destruct (co_running _ _ Hc _ HR) as (?&?&?); done).
  split; [|tracked_cases (re_IssueID e)].
  split; [by apply armRetry_ok|done|..]; group_simpl.
  - intros x Hx. group_simpl. right. by apply H3.
  - intros x Hx. group_simpl. destruct (H4 x Hx). tauto.
  - intros Hw x Hx HC. group_simpl. destruct Hx as [->|Hx]; [right; by left|by apply H5].
Qed.

(** A failed dispatch is queued without its claim. *)
Lemma spawn_failed_move s P A e delay now id :
  re_IssueID e = id ->
  ledger_move s (id :: P) A (armRetry (releaseClaim s id) e delay now).1 P (id :: A).
Proof.
  intros He wired T Hok. pose proof Hok as [Hc _ _ _ _].
  pose proof (co_nodup _ _ Hc) as [HP _]%NoDup_cons.
  assert (id ∉ queued_ids s) as Hq by (apply (co_flight _ _ Hc); left).
  assert (id ∉ running_ids s) as HR
    by (intros HR; destruct (co_running _ _ Hc _ HR) as (?&?&[]%not_elem_of_cons); done).
  destruct (release_flight_move s P A id wired T Hok) as [[Hc' H2 H3 H4 H5] Hsub].
  assert (id ∉ A) as HA by (intros HA%H3; group_simpl; tauto).
  assert (id ∉ T) as HT by (intros HT%H4; group_simpl; tauto).
  split.
  - split; [apply armRetry_ok; rewrite ?He; [|done..]; group_simpl; tauto|..]; group_simpl; rewrite ?He.
    + by constructor.
    + intros x [->|Hx]%elem_of_cons; group_simpl; [by left|]. specialize (H3 x Hx).
      group_simpl. tauto.
    + intros x Hx. destruct (H4 x Hx). group_simpl. split; [tauto|].
      intros [->|?]%elem_of_cons; tauto.
    + intros Hw x Hx HC'. specialize (H5 Hw x). rewrite elem_of_cons. group_simpl. tauto.
  - intros x. specialize (Hsub x). revert Hsub. unfold tracked_ids.
    rewrite !elem_of_union, ?elem_of_list_to_set, ?elem_of_cons. group_simpl. subst id.
    rewrite ?elem_of_union, ?elem_of_list_to_set, ?elem_of_cons. tauto.
Qed.

(** A dispatch resumed from the queue; the claim was kept while queued. *)
Lemma claimFromRetry_move s P A id s' :
  claimFromRetry s id = (s', None) -> ledger_move s P (id :: A) s' (id :: P) A.
Proof.
  intros Hcl wired T [Hc H2 H3 H4 H5]. apply NoDup_cons in H2 as [Hn H2].
  pose proof (claimFromRetry_ok _ P _ _ Hcl Hc) as Hc'. unfold claimFromRetry in Hcl.
  repeat case_decide; simplify_eq. unfold withoutKey in *.
  assert (id ∈ queued_ids s) by (apply H3; left).
  split; [|tracked_cases id].
  split; try done; group_simpl.
  - intros x Hx. group_simpl. split; [by intros ->|]. apply H3. by right.
  - intros x Hx. group_simpl. destruct (H4 x Hx) as [? Hx'].
    rewrite not_elem_of_cons in Hx'. tauto.
  - intros Hw x Hx Hx'. group_simpl. destruct (H5 Hw x) as [|[->|]%elem_of_cons]; tauto.
Qed.

(** A resolved retry whose id has lost its claim is left in the queue, with no
    timer. *)
Lemma orphan_move s P A id s' err :
  claimFromRetry s id = (s', Some err) -> ledger_move s P (id :: A) s P A.
Proof.
  intros Hcl wired T [Hc H2 H3 H4 H5]. apply NoDup_cons in H2 as [Hn H2].
  assert (id ∈ queued_ids s) as Hq by (apply H3; left).
  assert (id ∉ s_Claimed s) as HC.
  { unfold claimFromRetry in Hcl. repeat case_decide; simplify_eq.
    - by destruct (co_running _ _ Hc id) as (_&?&_); [apply elem_of_dom|].
    - done.
    - unfold queued_ids in Hq. by apply elem_of_dom in Hq. }
  split; [|done]. split; try done.
  - intros x Hx. apply H3. by right.
  - intros x Hx. destruct (H4 x Hx) as [? Hx']. rewrite not_elem_of_cons in Hx'. tauto.
  - intros Hw x Hx Hx'. destruct (H5 Hw x) as [|[->|]%elem_of_cons]; tauto.
Qed.

Lemma spawned_move s P A iss att ses :
  ledger_move s (iss_ID iss :: P) A (markRunning s iss att ses) P A.
Proof.
  intros wired T [Hc H2 H3 H4 H5].
  split; [|tracked_cases (iss_ID iss)]. split; try done. by apply markRunning_ok.
Qed.
End Moves.

(** ** Updates of a running attempt in place *)

Section SameGroups.
Implicit Types s : State.

(** Same groups, and each running attempt keeps its issue id. *)
Record same_groups s s' : Prop := {
  sg_running : running_ids s' = running_ids s;
  sg_claimed : s_Claimed s' = s_Claimed s;
  sg_retry : s_RetryAttempts s' = s_RetryAttempts s;
  sg_keys : forall id run', s_Running s' !! id = Some run' ->
    exists run, s_Running s !! id = Some run /\ iss_ID (run_Issue run') = iss_ID (run_Issue run) }.

Lemma same_groups_refl s : same_groups s s.
Proof. split; eauto. Qed.

Lemma same_groups_trans s1 s2 s3 :
  same_groups s1 s2 -> same_groups s2 s3 -> same_groups s1 s3.
Proof.
  intros [??? H12] [??? H23]. split; try congruence.
  intros id run3 (run2 & Hr & ->)%H23. by apply H12.
Qed.

Lemma update_running_same s s' id run run' :
  s_Running s !! id = Some run -> iss_ID (run_Issue run') = iss_ID (run_Issue run) ->
  s_Running s' = withKey (s_Running s) id run' ->
  s_Claimed s' = s_Claimed s -> s_RetryAttempts s' = s_RetryAttempts s ->
  same_groups s s'.
Proof.
  intros Hid Hk HR HC HQ. split; try done.
  - unfold running_ids, withKey in *. rewrite HR, dom_insert_L.
    apply elem_of_dom_2 in Hid. set_solver.
  - intros x r. rewrite HR. unfold withKey.
    destruct (decide (x = id)) as [->|]; [rewrite lookup_insert_eq|rewrite lookup_insert_ne by done];
      intros; simplify_eq; eauto.
Qed.

Ltac same_update s id := destruct (s_Running s !! id) eqn:?; [|apply same_groups_refl];
  eapply update_running_same; [eassumption| |reflexivity..]; try case_decide; done.

Lemma updateCodexActivity_same s id ev msg ts : same_groups s (updateCodexActivity s id ev msg ts).
Proof.
  unfold updateCodexActivity. same_update s id.
Qed.

Lemma recordUsage_same s id u : same_groups s (recordUsage s id u).
Proof. unfold recordUsage. same_update s id. Qed.

Lemma recordRateLimit_same s id rl : same_groups s (recordRateLimit s id rl).
Proof. unfold recordRateLimit. same_update s id. Qed.

Lemma addRuntime_same s id d : same_groups s (addRuntime s id d).
Proof. unfold addRuntime. destruct (d <=? 0); [|same_update s id].
  case_match; apply same_groups_refl. Qed.

Lemma incrementTurnCount_same s id : same_groups s (incrementTurnCount s id).
Proof. unfold incrementTurnCount. same_update s id. Qed.

Lemma same_groups_option {X} (f : State -> X -> State) (o : option X) s0 s :
  (forall s x, same_groups s (f s x)) -> same_groups s0 s ->
  same_groups s0 (match o with Some x => f s x | None => s end).
Proof. intros Hf Hs. destruct o; [|done]. by eapply same_groups_trans. Qed.

Lemma reduceCodexActivity_same s id ev msg ts usage rl dur completed :
  same_groups s (reduceCodexActivity s id ev msg ts usage rl dur completed).
Proof.
  unfold reduceCodexActivity.
  eapply same_groups_trans; [|destruct completed; [apply incrementTurnCount_same|apply same_groups_refl]].
  apply (same_groups_option (fun s d => addRuntime s id d)); [intros; apply addRuntime_same|].
  apply (same_groups_option (fun s r => recordRateLimit s id r)); [intros; apply recordRateLimit_same|].
  apply (same_groups_option (fun s u => recordUsage s id u)); [intros; apply recordUsage_same|].
  apply updateCodexActivity_same.
Qed.

Lemma same_groups_move s s' P A : same_groups s s' -> ledger_move s P A s' P A.
Proof.
  intros [HR HC HQ Hk] wired T [Hc H2 H3 H4 H5].
  assert (queued_ids s' = queued_ids s) as HQ' by (unfold queued_ids; by rewrite HQ).
  split.
  - split; rewrite ?HQ', ?HC; try done. by apply (claims_ok_same s).
  - unfold tracked_ids. by rewrite HR, HQ'.
Qed.
End SameGroups.

(** ** Every handler but the allocation is a ledger move *)

Lemma issues_by_id_ID issues id iss :
  issues_by_id issues !! id = Some iss -> iss_ID iss = id.
Proof.
  unfold issues_by_id.
  assert (forall m : gmap string Issue, map_Forall (fun id iss => iss_ID iss = id) m ->
    map_Forall (fun id iss => iss_ID iss = id)
      (foldl (fun m iss => <[iss_ID iss := iss]> m) m issues)) as Hgen.
  { induction issues as [|i issues IH]; intros m Hm; [done|]. cbn. apply IH.
    by apply map_Forall_insert_2. }
  intros Hid. by apply (Hgen ∅ (map_Forall_empty _) id).
Qed.

Section HandlerMoves.
Context `{UnicodeTables}.
Implicit Types (s : State) (P A : list string).

Definition handler_move P A (acc acc' : State * list Effect) : Prop :=
  ledger_move acc.1 (in_flight_effects acc.2 ++ P) (owed_effects acc.2 ++ A)
              acc'.1 (in_flight_effects acc'.2 ++ P) (owed_effects acc'.2 ++ A).

Lemma foldl_handler_move {X} (f : State * list Effect -> X -> State * list Effect) P A acc l :
  (forall acc x, handler_move P A acc (f acc x)) -> handler_move P A acc (foldl f acc l).
Proof.
  intros Hf. revert acc. induction l as [|x l IH]; intros acc; [apply ledger_move_refl|].
  cbn. eapply ledger_move_trans; [apply Hf|apply IH].
Qed.

Lemma kill_retry_move P A s effs id att cause reason cfg now :
  handler_move P A (s, effs) (reconcileKillRetry s effs id att cause reason cfg now).
Proof.
  unfold reconcileKillRetry, handler_move. destruct (workerExitAbnormal _ _ _ _) as [[ns e]|] eqn:E;
    [|apply ledger_move_refl].
  apply workerExitAbnormal_Some in E as (Hr & <- & ->).
  cbn [fst snd armRetry]. rewrite !in_flight_effects_app, !owed_effects_app.
  cbn. rewrite !app_nil_r. eapply ledger_move_perm;
    [reflexivity|reflexivity|reflexivity| |by apply exit_and_arm_move].
  rewrite <- app_assoc. apply Permutation_middle.
Qed.

Lemma stall_one_move P A cfg now threshold acc id :
  handler_move P A acc (stall_one cfg now threshold acc id).
Proof.
  destruct acc as [s effs]. unfold stall_one. case_match; [apply ledger_move_refl|].
  pose proof (kill_retry_move P A s effs id
    (run_Attempt (default zero_run (s_Running s !! id))) ErrStall "stall" cfg now) as Hm.
  unfold reconcileKillRetry in Hm.
  destruct (workerExitAbnormal _ _ _ _) as [[ns e]|]; exact Hm.
Qed.

Lemma refresh_one_move P A byID terminal active cfg now acc id :
  (forall id iss, byID !! id = Some iss -> iss_ID iss = id) ->
  handler_move P A acc (refresh_one byID terminal active cfg now acc id).
Proof.
  intros Hby. destruct acc as [s effs]. unfold refresh_one.
  destruct (s_Running s !! id) as [run|] eqn:Er; [|apply ledger_move_refl].
  destruct (byID !! id) as [iss|] eqn:Eb; [|apply kill_retry_move].
  repeat case_match; [| |apply kill_retry_move].
  - unfold handler_move. cbn [fst snd]. rewrite in_flight_effects_app, owed_effects_app.
    cbn. rewrite !app_nil_r. apply release_running_move. by apply elem_of_dom_2 in Er.
  - intros wired T Hok. cbn [fst snd] in *. revert wired T Hok.
    change (ledger_move s (in_flight_effects effs ++ P) (owed_effects effs ++ A)
      (updateIssueSnapshot s id iss) (in_flight_effects effs ++ P) (owed_effects effs ++ A)).
    intros wired T Hok. eapply same_groups_move, Hok.
    unfold updateIssueSnapshot. rewrite Er. eapply update_running_same; [eassumption| |reflexivity..].
    cbn. rewrite (Hby _ _ Eb). symmetry. by apply (co_run_keys _ _ (lo_claims _ _ _ _ _ Hok)).
Qed.

Lemma reduceStall_move P A s cfg now : handler_move P A (s, []) (reduceStall s cfg now).
Proof.
  unfold reduceStall. case_match; [apply ledger_move_refl|].
  apply foldl_handler_move. intros. apply stall_one_move.
Qed.

Lemma reduceTick_move P A s valid cfg now : handler_move P A (s, []) (reduceTick s valid cfg now).
Proof.
  pose proof (reduceStall_move P A s cfg now) as Hm. unfold reduceTick.
  destruct (reduceStall s cfg now) as [s' effs]. unfold handler_move in *. cbn [fst snd] in *.
  destruct valid; case_decide;
    rewrite ?in_flight_effects_app, ?owed_effects_app; cbn; rewrite ?app_nil_r; done.
Qed.

Lemma reduceWorkerExit_move P A s id err att cfg now :
  handler_move P A (s, []) (reduceWorkerExit s id err att cfg now).
Proof.
  unfold reduceWorkerExit, handler_move.
  destruct err as [e|].
  - destruct (workerExitAbnormal _ _ _ _) as [[ns en]|] eqn:E; [|apply ledger_move_refl].
    apply workerExitAbnormal_Some in E as (Hr & <- & ->). by apply exit_and_arm_move.
  - destruct (workerExitNormal _ _) as [[ns en]|] eqn:E; [|apply ledger_move_refl].
    apply workerExitNormal_Some in E as (Hr & <- & ->). by apply exit_and_arm_move.
Qed.

Lemma findIssue_ID issues id iss : findIssue issues id = Some iss -> iss_ID iss = id.
Proof.
  unfold findIssue. intros Hh. apply head_Some_elem_of in Hh.
  by apply list_elem_of_filter in Hh as [? _].
Qed.

Lemma reduceRetryResolved_move P A s id ident att issues err cfg now :
  let '(s', effs) := reduceRetryResolved s id ident att issues err cfg now in
  ledger_move s P (id :: A) s' (in_flight_effects effs ++ P) (owed_effects effs ++ A).
Proof.
  unfold reduceRetryResolved. destruct err as [e|].
  { apply (rearm_move s P A (retryEntry id ident (wrap64 (att + 1)) (Some e))). }
  destruct (findIssue issues id) as [found|] eqn:Ef; [|apply release_owed_move].
  destruct (_ || _); [apply release_owed_move|].
  destruct (negb _); [apply (rearm_move s P A (retryEntry id ident (wrap64 (att + 1)) (Some errNoSlots)))|].
  destruct (claimFromRetry s id) as [ns [e|]] eqn:Ec; [by eapply orphan_move|].
  cbn. rewrite (findIssue_ID _ _ _ Ef). by apply claimFromRetry_move.
Qed.

Definition is_candidates (ev : Event) : bool :=
  match ev with EvCandidatesFetched _ => true | _ => false end.

Lemma Reduce_move P A s ev cfg now :
  is_candidates ev = false ->
  let '(s', effs) := Reduce s ev cfg now in
  ledger_move s (in_flight_event ev ++ P) (owed_event ev ++ A)
              s' (in_flight_effects effs ++ P) (owed_effects effs ++ A).
Proof.
  intros Hev. destruct ev; try done; cbn [in_flight_event owed_event Reduce app].
  - pose proof (reduceTick_move P A s ConfigValid cfg now) as Hm. by case_match.
  - pose proof (foldl_handler_move
      (refresh_one (issues_by_id Issues) (normSet (tc_TerminalStates (cfg_Tracker cfg)))
         (normSet (tc_ActiveStates (cfg_Tracker cfg))) cfg now) P A (s, [])
      (sortedIDs RequestedIDs)) as Hm.
    unfold reduceTrackerRefreshed. case_match. apply Hm.
    intros. apply refresh_one_move, issues_by_id_ID.
  - unfold reduceRevalidated. destruct Fresh as [f|]; [|apply release_flight_move].
    destruct (_ || _); [apply release_flight_move|apply ledger_move_refl].
  - apply reduceRetryResolved_move.
  - apply spawned_move.
  - unfold reduceSpawnFailed. by apply spawn_failed_move.
  - pose proof (reduceWorkerExit_move P A s IssueID Err Attempt cfg now) as Hm. by case_match.
  - apply same_groups_move, reduceCodexActivity_same.
Qed.
End HandlerMoves.
