(* ===== verification/SchedulerSlots.v ===== *)
(** * orchestrator/scheduler: dispatch slots

    What one allocation ([reduceCandidates]) hands out: the limits it keeps, the
    order it follows, that it leaves no usable slot unused, and what it does to
    the claim ledger of SchedulerClaims.v. *)

From S2P Require Import Prelude Metrics Scheduler SchedulerClaims.

Section Slots.
Context `{UnicodeTables}.
Implicit Types s : State.

(** ** Counting *)

Definition in_state (norm : string) (iss : Issue) : bool :=
  bool_decide (ToLower (iss_State iss) = norm).

(** Issues of a list in a given lowercased state. *)
Definition count_in_state (norm : string) (l : list Issue) : Z :=
  Z.of_nat (length (filter (fun iss => in_state norm iss = true) l)).

Lemma count_in_state_cons norm iss l :
  count_in_state norm (iss :: l)
  = (if in_state norm iss then 1 else 0) + count_in_state norm l.
Proof.
  unfold count_in_state. rewrite filter_cons.
  destruct (in_state norm iss); case_decide; try congruence; cbn [length]; lia.
Qed.

Lemma count_in_state_nonneg norm l : 0 <= count_in_state norm l.
Proof. unfold count_in_state. lia. Qed.

(** The loop's table holds the number of running attempts of each state. *)
Lemma count_by_state_lookup s norm :
  default 0 (count_by_state s !! norm) = runningInState s norm.
Proof.
  unfold count_by_state, runningInState. revert norm.
  apply (map_fold_weak_ind (fun r m => forall norm, default 0 (r !! norm) =
    map_count (fun _ run => bool_decide (ToLower (iss_State (run_Issue run)) = norm)) m)).
  { intros norm. by rewrite lookup_empty. }
  intros k run m r Hk IH norm. rewrite map_count_insert_new by done. rewrite <- IH.
  case_bool_decide as E.
  - subst norm. rewrite lookup_insert_eq. cbn. lia.
  - rewrite lookup_insert_ne by done. lia.
Qed.

(** ** The allocation loop *)

Definition revalidations (picked : list Issue) : list Effect :=
  (fun iss => EffRevalidate iss 0) <$> picked.

(** What a pass of the loop over [l] picks. *)
Record allocation (cfg : Config) (l : list Issue) (s s' : State) (avail : Z)
    (used : gmap string Z) (picked : list Issue) : Prop := {
  al_order : picked `sublist_of` l;
  al_global : Z.of_nat (length picked) <= Z.max 0 avail;
  al_state : forall norm, default 0 (used !! norm) + count_in_state norm picked
    <= Z.max (stateCapacity cfg norm) (default 0 (used !! norm));
  al_running : s_Running s' = s_Running s;
  al_claimed : s_Claimed s' = s_Claimed s ∪ list_to_set (iss_ID <$> picked);
  al_fresh : Forall (fun iss => iss_ID iss ∉ s_Claimed s) picked;
  al_nodup : NoDup (iss_ID <$> picked);
  al_retry : forall id, s_RetryAttempts s' !! id =
    if decide (id ∈ iss_ID <$> picked) then None else s_RetryAttempts s !! id;
  al_maximal : forall iss, iss ∈ l -> iss ∉ picked ->
    Z.of_nat (length picked) = Z.max 0 avail \/
    stateCapacity cfg (ToLower (iss_State iss))
      <= default 0 (used !! ToLower (iss_State iss)) + count_in_state (ToLower (iss_State iss)) picked \/
    iss_ID iss ∈ s_Claimed s' \/ is_Some (s_Running s !! iss_ID iss) }.

Lemma claim_None_inv s iss s' :
  claim s iss = (s', None) ->
  (iss_ID iss ∉ s_Claimed s) /\ s_Running s !! iss_ID iss = None /\
  s_Running s' = s_Running s /\ s_Claimed s' = {[iss_ID iss]} ∪ s_Claimed s /\
  s_RetryAttempts s' = delete (iss_ID iss) (s_RetryAttempts s).
Proof.
  unfold claim. repeat case_decide; intros; simplify_eq.
  rewrite <- eq_None_not_Some in *. naive_solver.
Qed.

Lemma claim_Some_inv s iss s' e :
  claim s iss = (s', Some e) -> iss_ID iss ∈ s_Claimed s \/ is_Some (s_Running s !! iss_ID iss).
Proof. unfold claim. repeat case_decide; naive_solver. Qed.

Lemma allocation_stop cfg l s avail used : avail <= 0 -> allocation cfg l s s avail used [].
Proof.
  intros Ha. split; cbn; try done.
  - apply sublist_nil_l.
  - lia.
  - intros norm. unfold count_in_state. cbn. lia.
  - set_solver.
  - constructor.
  - intros. left. lia.
Qed.

Lemma allocation_skip cfg iss l s s' avail used picked :
  stateCapacity cfg (ToLower (iss_State iss)) <= default 0 (used !! ToLower (iss_State iss)) \/
  iss_ID iss ∈ s_Claimed s \/ is_Some (s_Running s !! iss_ID iss) ->
  allocation cfg l s s' avail used picked -> allocation cfg (iss :: l) s s' avail used picked.
Proof.
  intros Hskip [H1 H2 H3 H4 H5 H6 H7 H8 H9]. split; try done.
  - by apply sublist_cons.
  - intros i [->|Hi]%elem_of_cons Hn; [|by apply H9].
    right. pose proof (count_in_state_nonneg (ToLower (iss_State iss)) picked).
    destruct Hskip as [|[?|?]]; [left; lia|right; left|by right; right].
    rewrite H5. set_solver.
Qed.

Lemma allocation_pick cfg iss l s s1 s' avail used picked :
  0 < avail -> default 0 (used !! ToLower (iss_State iss)) < stateCapacity cfg (ToLower (iss_State iss)) ->
  claim s iss = (s1, None) ->
  allocation cfg l s1 s' (avail - 1)
    (<[ToLower (iss_State iss) := default 0 (used !! ToLower (iss_State iss)) + 1]> used) picked ->
  allocation cfg (iss :: l) s s' avail used (iss :: picked).
Proof.
  intros Ha Hcap (Hf & Hr & HR1 & HC1 & HQ1)%claim_None_inv [H1 H2 H3 H4 H5 H6 H7 H8 H9].
  assert (forall norm, default 0 (<[ToLower (iss_State iss) :=
      default 0 (used !! ToLower (iss_State iss)) + 1]> used !! norm)
    = default 0 (used !! norm) + (if in_state norm iss then 1 else 0)) as Hused.
  { intros norm. unfold in_state. case_bool_decide as E.
    - subst norm. by rewrite lookup_insert_eq.
    - rewrite lookup_insert_ne by done. lia. }
  assert (Forall (fun i => (iss_ID i ∉ s_Claimed s) /\ iss_ID i <> iss_ID iss) picked) as Hp.
  { eapply Forall_impl; [exact H6|]. cbn. intros i Hi. rewrite HC1 in Hi. set_solver. }
  split; cbn; try done.
  - by apply sublist_skip.
  - lia.
  - intros norm. specialize (H3 norm). rewrite count_in_state_cons. rewrite Hused in H3.
    unfold in_state in *. case_bool_decide; subst; lia.
  - by rewrite H4.
  - rewrite H5, HC1. set_solver.
  - constructor; [done|]. eapply Forall_impl; [exact Hp|]. by intros i [? _].
  - constructor; [|done]. intros (i & Hi & Hin)%list_elem_of_fmap.
    rewrite Forall_forall in Hp. destruct (Hp i Hin). done.
  - intros id. rewrite H8, HQ1. destruct (decide (id = iss_ID iss)) as [->|].
    + rewrite lookup_delete_eq. repeat case_decide; set_solver.
    + rewrite lookup_delete_ne by done. repeat case_decide; set_solver.
  - intros i [->|Hi]%elem_of_cons; [set_solver|]. intros [? Hn]%not_elem_of_cons.
    destruct (H9 i Hi Hn) as [E|[E|[E|E]]]; [left; lia| |auto|rewrite HR1 in E; auto].
    right. left. rewrite Hused in E. rewrite count_in_state_cons.
    destruct (in_state (ToLower (iss_State i)) iss); lia.
Qed.

Lemma dispatch_loop_allocation cfg l s avail used effs :
  exists picked s', dispatch_loop cfg l s avail used effs = (s', effs ++ revalidations picked) /\
    allocation cfg l s s' avail used picked.
Proof.
  revert s avail used effs. induction l as [|iss l IH]; intros s avail used effs.
  { exists [], s. cbn. rewrite app_nil_r. split; [done|].
    split; cbn; try done; try set_solver; try lia; try constructor.
    intros norm. unfold count_in_state. cbn. lia. }
  cbn [dispatch_loop]. destruct (Z.leb_spec avail 0) as [Ha|Ha].
  { exists [], s. cbn. rewrite app_nil_r. split; [done|]. by apply allocation_stop. }
  destruct (Z.leb_spec (stateCapacity cfg (ToLower (iss_State iss)))
              (default 0 (used !! ToLower (iss_State iss)))) as [Hc|Hc].
  { destruct (IH s avail used effs) as (picked & s' & -> & Hal).
    exists picked, s'. split; [done|]. apply allocation_skip; auto. }
  destruct (claim s iss) as [s1 [e|]] eqn:Ecl.
  { destruct (IH s avail used effs) as (picked & s' & -> & Hal).
    exists picked, s'. split; [done|]. apply claim_Some_inv in Ecl. apply allocation_skip; auto. }
  destruct (IH s1 (avail - 1)
    (<[ToLower (iss_State iss) := default 0 (used !! ToLower (iss_State iss)) + 1]> used)
    (effs ++ [EffRevalidate iss 0])) as (picked & s' & -> & Hal).
  exists (iss :: picked), s'. split; [by rewrite <- app_assoc|]. by eapply allocation_pick.
Qed.

(** ** Eligible issues and their order *)

Lemma eligible_inv iss s active terminal :
  eligible iss s active terminal = true ->
  ToLower (iss_State iss) ∈ active /\ (ToLower (iss_State iss) ∉ terminal) /\
  s_Running s !! iss_ID iss = None /\ (iss_ID iss ∉ s_Claimed s) /\
  s_RetryAttempts s !! iss_ID iss = None /\
  (ToLower (iss_State iss) = "todo" ->
     Forall (fun b => ToLower (bl_State b) ∈ terminal) (iss_BlockedBy iss)).
Proof.
  unfold eligible. intros He.
  repeat match type of He with
  | (if ?b then false else _) = true => destruct b eqn:?; [done|]
  end.
  rewrite ?orb_false_iff, ?negb_false_iff, ?bool_decide_eq_false, ?bool_decide_eq_true in *.
  rewrite <- !eq_None_not_Some in *. destruct_and?. split_and!; try done.
  intros Hto. rewrite bool_decide_eq_true_2 in * by done. cbn in *.
  unfold hasActiveBlocker in *.
  match goal with H : existsb _ _ = false |- _ => revert H end.
  induction (iss_BlockedBy iss) as [|b l IH]; cbn; [constructor|].
  rewrite orb_false_iff, negb_false_iff, bool_decide_eq_true. intros [??]. constructor; auto.
Qed.

Lemma filterEligible_elem iss cands s cfg :
  iss ∈ filterEligible cands s cfg ->
  iss ∈ cands /\ eligible iss s (normSet (tc_ActiveStates (cfg_Tracker cfg)))
                    (normSet (tc_TerminalStates (cfg_Tracker cfg))) = true.
Proof. unfold filterEligible. rewrite list_elem_of_filter. tauto. Qed.

#[export] Instance candidate_less_swo : StrictWeakOrder candidate_less.
Proof.
  pose proof String_ltb_swo as [Sa St].
  assert (forall p q : Z, (p =? q) = true \/ (p =? q) = false) as _ by (intros; lia).
  unfold candidate_less, Before. split.
  - intros x y. destruct (iss_Priority x), (iss_Priority y); try done;
      rewrite 1?(Z.eqb_sym z0 z), (Z.eqb_sym (iss_CreatedAt y) (iss_CreatedAt x));
      repeat case_match; try lia; apply Sa.
  - intros x y z. destruct (iss_Priority x) as [p|], (iss_Priority y) as [q|],
      (iss_Priority z) as [r|]; try done;
      destruct (Z.eqb_spec (iss_CreatedAt x) (iss_CreatedAt y)),
        (Z.eqb_spec (iss_CreatedAt y) (iss_CreatedAt z)),
        (Z.eqb_spec (iss_CreatedAt x) (iss_CreatedAt z));
      try (destruct (Z.eqb_spec p q), (Z.eqb_spec q r), (Z.eqb_spec p r)); cbn;
      try lia; apply St.
Qed.

(** Candidates are dispatched in priority order; equal ones keep the tracker's
    order. *)
Lemma sortCandidates_spec l :
  sortCandidates l ≡ₚ l /\
  StronglySorted (fun a b => candidate_less b a = false) (sortCandidates l) /\
  (forall c, filter (fun y => tied candidate_less c y = true) (sortCandidates l)
             = filter (fun y => tied candidate_less c y = true) l).
Proof.
  split_and!; [apply sort_stable_perm|apply sort_stable_sorted, _|].
  intros c. apply sort_stable_filter, _.
Qed.

(** ** One allocation *)

Lemma reduceCandidates_allocation s cands cfg :
  exists picked s', reduceCandidates s cands cfg = (s', revalidations picked) /\
    allocation cfg (sortCandidates (filterEligible cands s cfg)) s s'
      (availableGlobalSlots s cfg) (count_by_state s) picked.
Proof. apply (dispatch_loop_allocation _ _ _ _ _ []). Qed.

Lemma availableGlobalSlots_nonneg s cfg : 0 <= availableGlobalSlots s cfg.
Proof. unfold availableGlobalSlots. case_match; lia. Qed.

Lemma StronglySorted_sublist {A} (R : A -> A -> Prop) l k :
  l `sublist_of` k -> StronglySorted R k -> StronglySorted R l.
Proof.
  induction 1 as [|x l k Hs IH|x l k Hs IH]; intros Hk; [constructor|..];
    apply StronglySorted_inv in Hk as [Hk Hx]; [|by apply IH].
  constructor; [by apply IH|]. rewrite Forall_forall in Hx |- *.
  intros y Hy. apply Hx. by eapply elem_of_sublist.
Qed.

Lemma allocation_elem cfg cands s s' avail used picked :
  allocation cfg (sortCandidates (filterEligible cands s cfg)) s s' avail used picked ->
  Forall (fun iss => iss ∈ cands /\ eligible iss s
    (normSet (tc_ActiveStates (cfg_Tracker cfg)))
    (normSet (tc_TerminalStates (cfg_Tracker cfg))) = true) picked.
Proof.
  intros Hal. apply Forall_forall. intros iss Hi. apply filterEligible_elem.
  rewrite <- elem_of_sort_stable. eapply elem_of_sublist; [exact Hi|apply Hal].
Qed.

Lemma allocation_retry_same cfg cands s s' avail used picked :
  allocation cfg (sortCandidates (filterEligible cands s cfg)) s s' avail used picked ->
  s_RetryAttempts s' = s_RetryAttempts s.
Proof.
  intros Hal. apply map_eq. intros id. rewrite (al_retry _ _ _ _ _ _ _ Hal).
  case_decide as Hin; [|done]. apply list_elem_of_fmap in Hin as (iss & -> & Hi).
  apply allocation_elem in Hal. rewrite Forall_forall in Hal.
  destruct (Hal iss Hi) as [_ He]. apply eligible_inv in He. naive_solver.
Qed.

(** One allocation requests revalidation of distinct, eligible candidates in
    priority order; it never picks more issues than there are global slots, nor
    takes any tracker state above its limit, and it changes nothing of the
    state but the claims of the picked issues. *)
Theorem reduceCandidates_limits s cands cfg :
  exists picked, let '(s', effs) := reduceCandidates s cands cfg in
    effs = revalidations picked /\
    NoDup (iss_ID <$> picked) /\
    Z.of_nat (length picked) <= availableGlobalSlots s cfg /\
    (forall norm, runningInState s norm + count_in_state norm picked
       <= Z.max (stateCapacity cfg norm) (runningInState s norm)) /\
    s_Running s' = s_Running s /\ s_RetryAttempts s' = s_RetryAttempts s /\
    s_Claimed s' = s_Claimed s ∪ list_to_set (iss_ID <$> picked) /\
    StronglySorted (fun a b => candidate_less b a = false) picked /\
    Forall (fun iss => iss ∈ cands /\ eligible iss s
       (normSet (tc_ActiveStates (cfg_Tracker cfg)))
       (normSet (tc_TerminalStates (cfg_Tracker cfg))) = true) picked.
Proof.
  destruct (reduceCandidates_allocation s cands cfg) as (picked & s' & -> & Hal).
  pose proof (availableGlobalSlots_nonneg s cfg).
  pose proof Hal as [H1 H2 H3 H4 H5 H6 H7 _ _].
  exists picked. split_and!; try done.
  - lia.
  - intros norm. specialize (H3 norm). by rewrite count_by_state_lookup in H3.
  - by eapply allocation_retry_same.
  - eapply StronglySorted_sublist; [done|]. apply sortCandidates_spec.
  - by eapply allocation_elem.
Qed.

(** The allocation leaves no usable slot: an eligible candidate that was
    not picked had no global slot left, or its state was at its limit, or it is
    a second copy of an issue that was picked. *)
Theorem reduceCandidates_work_conserving s cands cfg iss :
  iss ∈ cands ->
  eligible iss s (normSet (tc_ActiveStates (cfg_Tracker cfg)))
    (normSet (tc_TerminalStates (cfg_Tracker cfg))) = true ->
  exists picked, (reduceCandidates s cands cfg).2 = revalidations picked /\
    (iss ∈ picked \/ iss_ID iss ∈ iss_ID <$> picked \/
     Z.of_nat (length picked) = availableGlobalSlots s cfg \/
     stateCapacity cfg (ToLower (iss_State iss))
       <= runningInState s (ToLower (iss_State iss))
          + count_in_state (ToLower (iss_State iss)) picked).
Proof.
  intros Hi He. destruct (reduceCandidates_allocation s cands cfg) as (picked & s' & -> & Hal).
  exists picked. split; [done|]. destruct (decide (iss_ID iss ∈ iss_ID <$> picked)); [auto|].
  pose proof (availableGlobalSlots_nonneg s cfg).
  destruct (al_maximal _ _ _ _ _ _ _ Hal iss) as [E|[E|[E|E]]].
  - apply elem_of_sort_stable, list_elem_of_filter. auto.
  - intros Hp. by apply (list_elem_of_fmap_2 iss_ID) in Hp.
  - right; right; left. lia.
  - right; right; right. by rewrite count_by_state_lookup in E.
  - exfalso. rewrite (al_claimed _ _ _ _ _ _ _ Hal) in E. apply eligible_inv in He. set_solver.
  - exfalso. apply eligible_inv in He as (_&_&Hr&_). rewrite Hr in E. by destruct E.
Qed.

(** ** The allocation and the ledger *)

(** The slots counted as used are the running and the queued ids, each once. *)
Lemma used_slots s :
  Z.of_nat (size (s_Running s)) + retryQueuedCount s
  = Z.of_nat (size (running_ids s ∪ queued_ids s)).
Proof.
  unfold retryQueuedCount, map_count, running_ids, queued_ids.
  set (waiting := filter _ (s_RetryAttempts s)).
  assert (dom waiting = dom (s_RetryAttempts s) ∖ dom (s_Running s)) as Hw.
  { apply set_eq. intros id. unfold waiting. rewrite elem_of_difference, !elem_of_dom.
    split.
    - intros [e [He Hn]%map_lookup_filter_Some]. cbn in Hn.
      rewrite negb_true_iff, bool_decide_eq_false in Hn. eauto.
    - intros [[e He] Hn]. exists e. apply map_lookup_filter_Some. split; [done|]. cbn.
      by rewrite negb_true_iff, bool_decide_eq_false. }
  rewrite size_union_alt, <- Hw, !size_dom. lia.
Qed.

Lemma in_flight_revalidations picked :
  in_flight_effects (revalidations picked) = iss_ID <$> picked.
Proof. induction picked as [|i l IH]; cbn; [done|]. f_equal. apply IH. Qed.

Lemma owed_revalidations picked : owed_effects (revalidations picked) = [].
Proof. induction picked as [|i l IH]; cbn; [done|]. apply IH. Qed.

Lemma reduceCandidates_ledger wired T s P A cands cfg :
  ledger_ok wired T s P A ->
  let '(s', effs) := reduceCandidates s cands cfg in
  ledger_ok wired T s' (in_flight_effects effs ++ P) (owed_effects effs ++ A).
Proof.
  destruct (reduceCandidates_allocation s cands cfg) as (picked & s' & -> & Hal).
  intros [[H1 H2 H3 H4 H5 H6] HA1 HA2 HA3 HA4].
  rewrite in_flight_revalidations, owed_revalidations.
  pose proof (allocation_retry_same _ _ _ _ _ _ _ Hal) as HQ.
  pose proof (allocation_elem _ _ _ _ _ _ _ Hal) as Hel. rewrite Forall_forall in Hel.
  destruct Hal as [_ _ _ HR HC Hf Hnd _ _].
  assert (forall id, id ∈ iss_ID <$> picked ->
    (id ∉ s_Claimed s) /\ (id ∉ running_ids s) /\ id ∉ queued_ids s) as Hid.
  { intros id (iss & -> & Hi)%list_elem_of_fmap. destruct (Hel iss Hi) as [_ He].
    apply eligible_inv in He as (_&_&Hr&Hc&Hq&_). unfold running_ids, queued_ids.
    rewrite !not_elem_of_dom. auto. }
  split; [split|..]; unfold running_ids, queued_ids in *; rewrite ?HR, ?HC, ?HQ; try done.
  - intros id Hi. rewrite elem_of_app. destruct (H1 id Hi) as (?&?&?). specialize (Hid id). set_solver.
  - intros id. rewrite elem_of_app. intros [Hi|Hi]; [|specialize (H2 id Hi); set_solver].
    specialize (Hid id Hi). set_solver.
  - intros id Hi. rewrite elem_of_app. apply elem_of_union in Hi as [Hi|Hi]; [|set_solver].
    destruct (H3 id Hi) as [|[|]]; auto.
  - apply NoDup_app. split_and!; try done. intros id Hi HP. specialize (Hid id Hi).
    specialize (H2 id HP). tauto.
  - intros Hw id Hq [Hc|Hi]%elem_of_union; [by apply HA4|].
    rewrite elem_of_list_to_set in Hi. specialize (Hid id Hi). tauto.
Qed.

Lemma reduceCandidates_tracked s cands cfg :
  let '(s', effs) := reduceCandidates s cands cfg in
  Z.of_nat (size (tracked_ids s' (in_flight_effects effs)))
  <= Z.max (ac_MaxConcurrentAgents (cfg_Agent cfg)) (Z.of_nat (size (tracked_ids s []))).
Proof.
  destruct (reduceCandidates_allocation s cands cfg) as (picked & s' & -> & Hal).
  pose proof (allocation_retry_same _ _ _ _ _ _ _ Hal) as HQ.
  pose proof (al_global _ _ _ _ _ _ _ Hal) as Hg.
  pose proof (used_slots s) as Hu. unfold availableGlobalSlots in Hg. rewrite Hu in Hg.
  unfold tracked_ids. rewrite in_flight_revalidations.
  assert (running_ids s' ∪ queued_ids s' = running_ids s ∪ queued_ids s) as ->.
  { unfold running_ids, queued_ids. by rewrite HQ, (al_running _ _ _ _ _ _ _ Hal). }
  rewrite list_to_set_nil, union_empty_r_L.
  assert (size (running_ids s ∪ queued_ids s ∪ list_to_set (iss_ID <$> picked))
    <= size (running_ids s ∪ queued_ids s) + length picked)%nat as Hsz.
  { rewrite size_union_alt. apply Nat.add_le_mono_l.
    transitivity (size (list_to_set (iss_ID <$> picked) : gset string)); [apply subseteq_size; set_solver|].
    rewrite size_list_to_set by apply Hal. by rewrite length_fmap. }
  case_match; lia.
Qed.

End Slots.

Module SlotsDemo.
Import SchedDemo.

Lemma reduceCandidates_work_conserving_witness :
  exists picked, (reduceCandidates NewState [demo_issue "c" 3; demo_issue "a" 1; demo_issue "b" 2]
                    demo_config).2 = revalidations picked /\
    (demo_issue "c" 3 ∈ picked \/ "c" ∈ iss_ID <$> picked \/
     Z.of_nat (length picked) = availableGlobalSlots NewState demo_config \/
     stateCapacity demo_config "todo"
       <= runningInState NewState "todo" + count_in_state "todo" picked).
Proof.
  apply (reduceCandidates_work_conserving NewState
    [demo_issue "c" 3; demo_issue "a" 1; demo_issue "b" 2] demo_config (demo_issue "c" 3)).
  - left.
  - by vm_compute.
Defined.

End SlotsDemo.
