(* ===== verification/SchedulerShell.v ===== *)
(** * orchestrator/scheduler: the run loop around the reducer

    Model of scheduler.go, effects_exec.go, dispatch.go and startup.go: the
    shell owns the state, interprets every effect of [Reduce], feeds results back
    depth-first as events, and keeps the worker handles and retry timers.  The
    tracker, the spawner, the workspace, the clock and the workflow file are the
    shell's dependencies: each is an arbitrary function of the index of the call
    made to it, so theorems hold for every sequence of answers. *)

From S2P Require Import Prelude Metrics Scheduler SchedulerClaims SchedulerSlots.

(** ** Dependencies *)

Record SpawnResult := mkSpawnResult {
  sr_Session : LiveSession;
  sr_Worker : option nat }.      (* the live handle, nil when absent *)

Record RefreshTracker := mkRefreshTracker {
  rt_RefreshStates : nat -> list string -> SchedError + list Issue;
  rt_TerminalIssues : nat -> SchedError + list Issue }.

(** A nil dependency is [None].  [dp_Load] stands for workflowfile.Load followed
    by wfconfig.Resolve: the resolved configuration and the prompt template, or
    [None] on any error. *)
Record Deps := mkDeps {
  dp_Candidates : option (nat -> SchedError + list Issue);
  dp_Spawn : option (nat -> Issue -> Z -> SchedError + SpawnResult);
  dp_RefreshTracker : option RefreshTracker;
  dp_WorkspaceRemove : option (nat -> string -> option SchedError);
  dp_Now : nat -> Time;
  dp_Load : nat -> option (Config * string) }.

Record retryFireReq := mkRetryFireReq {
  rf_IssueID : string; rf_Identifier : string; rf_Attempt : Z }.

Record WorkerExit := mkWorkerExit {
  we_IssueID : string; we_Err : option SchedError; we_Attempt : Z }.

Record CodexActivity := mkCodexActivity {
  ca_IssueID : string; ca_Event : string; ca_Message : string; ca_Timestamp : Time;
  ca_Usage : option Usage; ca_RateLimit : option RateLimitSnapshot;
  ca_TurnDuration : option Duration; ca_TurnCompleted : bool }.

(** ** The scheduler object

    A timer is the request it delivers and whether its callback has run; [sh_retryFire]
    is the channel the callbacks send on.  [sh_kills] and [sh_removed] record the
    kill goroutines started and the workspaces whose removal was requested;
    [sh_io] counts the calls made to the dependencies. *)
Record Shell := mkShell {
  sh_cur : State;
  sh_published : State;
  sh_cfg : Config;
  sh_lastGood : Config;
  sh_lastGoodTemplate : string;
  sh_degraded : bool;
  sh_interval : Duration;
  sh_workers : gmap string nat;
  sh_timers : gmap string (retryFireReq * bool);
  sh_retryFire : list retryFireReq;
  sh_kills : list (nat * string);
  sh_removed : list string;
  sh_io : nat }.

#[export] Instance eta_Shell : Eta Shell := fun r =>
  mkShell (sh_cur r) (sh_published r) (sh_cfg r) (sh_lastGood r) (sh_lastGoodTemplate r)
    (sh_degraded r) (sh_interval r) (sh_workers r) (sh_timers r) (sh_retryFire r)
    (sh_kills r) (sh_removed r) (sh_io r).

Definition New (cfg : Config) (tmpl : string) : Shell :=
  mkShell NewState NewState cfg cfg tmpl false
    (wrap64 (cfg_PollingIntervalMS cfg * Millisecond)) ∅ ∅ [] [] [] 0.

(** The number of the next call to a dependency. *)
Definition next_io (sh : Shell) : nat * Shell := (sh_io sh, sh <| sh_io := S (sh_io sh) |>).

Definition publish (sh : Shell) : Shell := sh <| sh_published := sh_cur sh |>.

Definition codexEvent (a : CodexActivity) : Event :=
  EvCodexActivity (ca_IssueID a) (ca_Event a) (ca_Message a) (ca_Timestamp a)
    (ca_Usage a) (ca_RateLimit a) (ca_TurnDuration a) (ca_TurnCompleted a).

Definition intervalOrFallback (sh : Shell) : Duration :=
  if 0 <? sh_interval sh then sh_interval sh else Second.

Definition applyInterval (sh : Shell) : Shell :=
  let want := wrap64 (cfg_PollingIntervalMS (sh_lastGood sh) * Millisecond) in
  if (0 <? want) && negb (want =? sh_interval sh) then sh <| sh_interval := want |> else sh.

Section Shell.
Context `{UnicodeTables} (deps : Deps).

Definition markDegraded (sh : Shell) : Shell := sh <| sh_degraded := true |>.

Definition reloadConfig (sh : Shell) : Shell * (Config * bool) :=
  let '(k, sh) := next_io sh in
  match dp_Load deps k with
  | None => (markDegraded sh, (sh_lastGood sh, false))
  | Some (cfg, tmpl) =>
    match Preflight cfg with
    | Some _ => (markDegraded sh, (sh_lastGood sh, false))
    | None => (sh <| sh_degraded := false |> <| sh_lastGood := cfg |>
                  <| sh_lastGoodTemplate := tmpl |>, (cfg, true))
    end
  end.

(** dispatch.go *)
Definition revalidateIssue (rt : RefreshTracker) (k : nat) (issueID : string)
    : SchedError + option Issue :=
  match rt_RefreshStates rt k [issueID] with
  | inl err => inl err
  | inr issues => inr (findIssue issues issueID)
  end.

Definition armTimer (sh : Shell) (issueID identifier : string) (attempt : Z) : Shell :=
  sh <| sh_timers := <[issueID := (mkRetryFireReq issueID identifier attempt, false)]> (sh_timers sh) |>.

Definition cancelTimer (sh : Shell) (issueID : string) : Shell :=
  sh <| sh_timers := delete issueID (sh_timers sh) |>.

(** *** effects_exec.go; [rec] is the step that folds a follow-up event. *)
Section Exec.
Variable rec : Shell -> Event -> option Shell.

Definition execFetchCandidates (sh : Shell) : option Shell :=
  match dp_Candidates deps, dp_Spawn deps with
  | Some candidates, Some _ =>
    let '(k, sh) := next_io sh in
    match candidates k with
    | inl _ => Some sh
    | inr cands => rec sh (EvCandidatesFetched cands)
    end
  | _, _ => Some sh
  end.

Definition execRefreshTracker (sh : Shell) (ids : list string) : option Shell :=
  match dp_RefreshTracker deps, dp_WorkspaceRemove deps with
  | Some rt, Some _ =>
    let '(k, sh) := next_io sh in
    match rt_RefreshStates rt k ids with
    | inl _ => Some sh
    | inr issues => rec sh (EvTrackerRefreshed ids issues)
    end
  | _, _ => Some sh
  end.

Definition execRevalidate (sh : Shell) (issue : Issue) (attempt : Z) : option Shell :=
  match dp_RefreshTracker deps with
  | None => rec sh (EvRevalidated issue attempt (Some issue))
  | Some rt =>
    let '(k, sh) := next_io sh in
    let fresh := match revalidateIssue rt k (iss_ID issue) with
                 | inl _ => None
                 | inr fresh => fresh
                 end in
    rec sh (EvRevalidated issue attempt fresh)
  end.

Definition execRetryFetch (sh : Shell) (issueID identifier : string) (attempt : Z) : option Shell :=
  match dp_Candidates deps, dp_Spawn deps with
  | Some candidates, Some _ =>
    let '(k, sh) := next_io sh in
    match candidates k with
    | inl err => rec sh (EvRetryResolved issueID identifier attempt [] (Some err))
    | inr cands => rec sh (EvRetryResolved issueID identifier attempt cands None)
    end
  | _, _ => Some sh
  end.

Definition execSpawn (sh : Shell) (issue : Issue) (attempt : Z) : option Shell :=
  match dp_Spawn deps with
  | None => Some sh
  | Some spawn =>
    let '(k, sh) := next_io sh in
    match spawn k issue attempt with
    | inl err => rec sh (EvSpawnFailed issue attempt (Some err))
    | inr res =>
      let sh := match sr_Worker res with
                | Some w => sh <| sh_workers := <[iss_ID issue := w]> (sh_workers sh) |>
                | None => sh
                end in
      rec sh (EvSpawned issue attempt (sr_Session res))
    end
  end.

Definition execKillWorker (sh : Shell) (issueID reason : string) : Shell :=
  match sh_workers sh !! issueID with
  | None => sh
  | Some w => sh <| sh_workers := delete issueID (sh_workers sh) |>
                 <| sh_kills := sh_kills sh ++ [(w, reason)] |>
  end.

Definition execRemoveWorkspace (sh : Shell) (identifier : string) : Shell :=
  match dp_WorkspaceRemove deps with
  | None => sh
  | Some _ =>
    let '(_, sh) := next_io sh in
    sh <| sh_removed := sh_removed sh ++ [identifier] |>
  end.

Definition exec (sh : Shell) (eff : Effect) : option Shell :=
  match eff with
  | EffFetchCandidates => execFetchCandidates sh
  | EffRefreshTracker ids => execRefreshTracker sh ids
  | EffRevalidate issue attempt => execRevalidate sh issue attempt
  | EffRetryFetch id ident attempt => execRetryFetch sh id ident attempt
  | EffSpawn issue attempt => execSpawn sh issue attempt
  | EffKillWorker id reason => Some (execKillWorker sh id reason)
  | EffRemoveWorkspace ident => Some (execRemoveWorkspace sh ident)
  | EffArmRetryTimer id ident attempt _ => Some (armTimer sh id ident attempt)
  | EffCancelRetryTimer id => Some (cancelTimer sh id)
  end.

Fixpoint exec_all (sh : Shell) (effs : list Effect) : option Shell :=
  match effs with
  | [] => Some sh
  | eff :: effs => exec sh eff ≫= fun sh => exec_all sh effs
  end.
End Exec.

(** [step] and [exec] call each other; [fuel] bounds the depth of the calls. *)
Fixpoint step (fuel : nat) (sh : Shell) (ev : Event) : option Shell :=
  match fuel with
  | O => None
  | S fuel =>
    let '(k, sh) := next_io sh in
    let '(next, effs) := Reduce (sh_cur sh) ev (sh_cfg sh) (dp_Now deps k) in
    exec_all (step fuel) (publish (sh <| sh_cur := next |>)) effs
  end.

(** The depth of the longest chain: tick, candidates, revalidation, spawn. *)
Definition max_depth : nat := 4.

Definition tick (sh : Shell) : option Shell :=
  let '(sh, (cfg, valid)) := reloadConfig sh in
  step max_depth (sh <| sh_cfg := cfg |>) (EvTick valid).

Definition handleRetryFire (sh : Shell) (req : retryFireReq) : option Shell :=
  let sh := sh <| sh_timers := delete (rf_IssueID req) (sh_timers sh) |> in
  let '(sh, (cfg, valid)) := reloadConfig sh in
  if valid
  then step max_depth (sh <| sh_cfg := cfg |>)
         (EvRetryDue (rf_IssueID req) (rf_Identifier req) (rf_Attempt req))
  else
    let sh := match s_RetryAttempts (sh_cur sh) !! rf_IssueID req with
              | Some entry =>
                let '(k, sh) := next_io sh in
                let entry := entry <| re_DueAtMS := UnixMilli (Add (dp_Now deps k) continuationDelay) |> in
                publish (sh <| sh_cur := enqueueRetry (sh_cur sh) entry |>)
              | None => sh
              end in
    Some (armTimer sh (rf_IssueID req) (rf_Identifier req) (rf_Attempt req)).

(** The branch of the select loop for a finished worker. *)
Definition handleWorkerDone (sh : Shell) (w : WorkerExit) : option Shell :=
  let sh := sh <| sh_workers := delete (we_IssueID w) (sh_workers sh) |> in
  let '(sh, (cfg, _)) := reloadConfig sh in
  step max_depth (sh <| sh_cfg := cfg |>) (EvWorkerExit (we_IssueID w) (we_Err w) (we_Attempt w)).

(** startup.go: the removals requested at boot. *)
Definition StartupCleanup (sh : Shell) : Shell :=
  match dp_RefreshTracker deps, dp_WorkspaceRemove deps with
  | Some rt, Some _ =>
    let '(k, sh) := next_io sh in
    match rt_TerminalIssues rt k with
    | inl _ => sh
    | inr issues => foldl (fun sh iss => execRemoveWorkspace sh (iss_Identifier iss)) sh issues
    end
  | _, _ => sh
  end.

(** One iteration of the select loop of [Run], or a timer callback.  Ticks also
    stand for the reload channel, which does the same. *)
Inductive loop_step : Shell -> Shell -> Prop :=
| loop_tick sh sh' : tick sh = Some sh' -> loop_step sh (applyInterval sh')
| loop_timer_expires sh id req :
    sh_timers sh !! id = Some (req, false) ->
    loop_step sh (sh <| sh_timers := <[id := (req, true)]> (sh_timers sh) |>
                     <| sh_retryFire := sh_retryFire sh ++ [req] |>)
| loop_retryFire sh sh' req rest :
    sh_retryFire sh = req :: rest ->
    handleRetryFire (sh <| sh_retryFire := rest |>) req = Some sh' ->
    loop_step sh sh'
| loop_workerDone sh sh' w : handleWorkerDone sh w = Some sh' -> loop_step sh sh'
| loop_codexActivity sh sh' a : step max_depth sh (codexEvent a) = Some sh' -> loop_step sh sh'.

(** [Run]: startup cleanup and a first tick, then the loop. *)
Definition run_start (cfg : Config) (tmpl : string) : option Shell :=
  tick (StartupCleanup (New cfg tmpl)).

Definition reachable (cfg : Config) (tmpl : string) (sh : Shell) : Prop :=
  exists sh0, run_start cfg tmpl = Some sh0 /\ rtc loop_step sh0 sh.

End Shell.
