(* ===== verification/SchedulerLoop.v ===== *)
(** * orchestrator/scheduler: properties of the run loop

    Every event drains in at most four nested steps, and every state the loop
    reaches satisfies the claim ledger and the concurrency limit, whatever the
    tracker, the spawner, the workers and the clock do. *)

From stdpp Require Import relations.
From S2P Require Import Prelude Metrics Scheduler SchedulerClaims SchedulerSlots SchedulerShell.

Section Emission.
Context `{UnicodeTables}.

(** Which effects an event can give rise to. *)
Definition may_emit (ev : Event) (eff : Effect) : bool :=
  match ev, eff with
  | EvTick _, (EffKillWorker _ _ | EffArmRetryTimer _ _ _ _ | EffRefreshTracker _) => true
  | EvTick valid, EffFetchCandidates => valid
  | EvCandidatesFetched _, EffRevalidate _ _ => true
  | EvTrackerRefreshed _ _, (EffKillWorker _ _ | EffArmRetryTimer _ _ _ _ | EffRemoveWorkspace _) => true
  | EvRevalidated _ _ _, EffSpawn _ _ => true
  | EvRetryDue _ _ _, EffRetryFetch _ _ _ => true
  | EvRetryResolved _ _ _ _ _, (EffSpawn _ _ | EffArmRetryTimer _ _ _ _) => true
  | EvSpawnFailed _ _ _, EffArmRetryTimer _ _ _ _ => true
  | EvWorkerExit _ _ _, EffArmRetryTimer _ _ _ _ => true
  | _, _ => false
  end.

Lemma foldl_emits {X} (P : Effect -> Prop) (f : State * list Effect -> X -> State * list Effect) l acc :
  (forall acc x, Forall P acc.2 -> Forall P (f acc x).2) -> Forall P acc.2 -> Forall P (foldl f acc l).2.
Proof. intros Hf. revert acc. induction l as [|x l IH]; intros acc Hacc; [done|]. apply IH, Hf, Hacc. Qed.

Lemma kill_retry_emits (P : Effect -> Prop) s effs id att cause reason cfg now :
  (forall id reason, P (EffKillWorker id reason)) ->
  (forall id ident att d, P (EffArmRetryTimer id ident att d)) ->
  Forall P effs -> Forall P (reconcileKillRetry s effs id att cause reason cfg now).2.
Proof.
  intros Hk Ha He. unfold reconcileKillRetry. destruct (workerExitAbnormal _ _ _ _) as [[ns e]|]; [|done].
  cbn. rewrite !Forall_app, !Forall_singleton. auto.
Qed.

Lemma reduceStall_emits (P : Effect -> Prop) s cfg now :
  (forall id reason, P (EffKillWorker id reason)) ->
  (forall id ident att d, P (EffArmRetryTimer id ident att d)) ->
  Forall P (reduceStall s cfg now).2.
Proof.
  intros Hk Ha. unfold reduceStall. case_match; [by constructor|].
  apply foldl_emits; [|by constructor]. intros [s' effs] id He. unfold stall_one.
  case_match; [done|].
  pose proof (kill_retry_emits P s' effs id
    (run_Attempt (default zero_run (s_Running s' !! id))) ErrStall "stall" cfg now Hk Ha He) as Hm.
  unfold reconcileKillRetry in Hm. destruct (workerExitAbnormal _ _ _ _) as [[ns e]|]; exact Hm.
Qed.

Lemma Reduce_emits s ev cfg now :
  Forall (fun eff => may_emit ev eff = true) (Reduce s ev cfg now).2.
Proof.
  destruct ev; cbn [Reduce].
  - unfold reduceTick. pose proof (reduceStall_emits
      (fun eff => may_emit (EvTick ConfigValid) eff = true) s cfg now) as Hm.
    destruct (reduceStall s cfg now) as [s' effs]. cbn [snd] in *.
    destruct ConfigValid; case_decide; cbn [snd]; rewrite ?Forall_app, ?Forall_singleton; auto.
  - destruct (reduceCandidates_allocation s Issues cfg) as (picked & s' & -> & _).
    cbn. apply Forall_fmap, Forall_forall. done.
  - unfold reduceTrackerRefreshed. apply foldl_emits; [|by constructor].
    intros [s' effs] id He. unfold refresh_one. cbn [snd] in *.
    destruct (s_Running s' !! id); [|done].
    destruct (issues_by_id Issues !! id); [|by apply kill_retry_emits].
    case_match; [by cbn; rewrite Forall_app, Forall_cons, Forall_singleton|].
    case_match; [done|]. by apply kill_retry_emits.
  - unfold reduceRevalidated. destruct Fresh; [|by constructor].
    destruct (_ || _); repeat constructor.
  - unfold reduceRetryResolved. destruct FetchErr; [repeat constructor|].
    destruct (findIssue _ _); [|constructor]. destruct (_ || _); [constructor|].
    destruct (negb _); [repeat constructor|].
    destruct (claimFromRetry _ _) as [? [|]]; repeat constructor.
  - constructor.
  - repeat constructor.
  - unfold reduceWorkerExit. destruct Err;
      [destruct (workerExitAbnormal _ _ _ _) as [[]|]|destruct (workerExitNormal _ _) as [[]|]];
      repeat constructor.
  - repeat constructor.
  - constructor.
Qed.
End Emission.

(** ** Termination *)

Section Drain.
Context `{UnicodeTables} (deps : Deps).

(** The depth an event needs, and the depth of the event an effect feeds back. *)
Definition depth (ev : Event) : nat :=
  match ev with
  | EvTick _ => 4 | EvCandidatesFetched _ => 3 | EvRetryDue _ _ _ => 3
  | EvRevalidated _ _ _ => 2 | EvRetryResolved _ _ _ _ _ => 2
  | _ => 1
  end.

Definition effect_depth (eff : Effect) : nat :=
  match eff with
  | EffFetchCandidates => 3 | EffRevalidate _ _ => 2 | EffRetryFetch _ _ _ => 2
  | EffRefreshTracker _ => 1 | EffSpawn _ _ => 1
  | _ => 0
  end.

Lemma may_emit_depth ev eff : may_emit ev eff = true -> (effect_depth eff < depth ev)%nat.
Proof. destruct ev, eff; cbn; try done; lia. Qed.

(** [exec] consults [rec] only on events of the depth of the effect. *)
Lemma exec_ext rec1 rec2 n sh eff :
  (forall sh ev, (depth ev <= n)%nat -> rec1 sh ev = rec2 sh ev) ->
  (effect_depth eff <= n)%nat -> exec deps rec1 sh eff = exec deps rec2 sh eff.
Proof.
  intros Hr Hd. destruct eff; cbn in *; try done.
  - unfold execFetchCandidates. repeat case_match; try done. by apply Hr.
  - unfold execRefreshTracker. repeat case_match; try done. by apply Hr.
  - unfold execRevalidate. repeat case_match; by apply Hr.
  - unfold execRetryFetch. repeat case_match; try done; by apply Hr.
  - unfold execSpawn. repeat case_match; try done; by apply Hr.
Qed.

Lemma exec_total rec n sh eff :
  (forall sh ev, (depth ev <= n)%nat -> is_Some (rec sh ev)) ->
  (effect_depth eff <= n)%nat -> is_Some (exec deps rec sh eff).
Proof.
  intros Hr Hd. destruct eff; cbn in *; try done.
  - unfold execFetchCandidates. repeat case_match; try done. by apply Hr.
  - unfold execRefreshTracker. repeat case_match; try done. by apply Hr.
  - unfold execRevalidate. repeat case_match; by apply Hr.
  - unfold execRetryFetch. repeat case_match; try done; by apply Hr.
  - unfold execSpawn. repeat case_match; try done; by apply Hr.
Qed.

Lemma exec_all_ext rec1 rec2 n sh effs :
  (forall sh ev, (depth ev <= n)%nat -> rec1 sh ev = rec2 sh ev) ->
  Forall (fun eff => (effect_depth eff <= n)%nat) effs ->
  exec_all deps rec1 sh effs = exec_all deps rec2 sh effs.
Proof.
  intros Hr Hd. revert sh. induction Hd as [|eff effs He Hd IH]; intros sh; [done|]. cbn.
  rewrite (exec_ext rec1 rec2 n) by done. destruct (exec deps rec2 sh eff); [apply IH|done].
Qed.

Lemma exec_all_total rec n sh effs :
  (forall sh ev, (depth ev <= n)%nat -> is_Some (rec sh ev)) ->
  Forall (fun eff => (effect_depth eff <= n)%nat) effs -> is_Some (exec_all deps rec sh effs).
Proof.
  intros Hr Hd. revert sh. induction Hd as [|eff effs He Hd IH]; intros sh; [done|]. cbn.
  destruct (exec_total rec n sh eff Hr He) as [sh' ->]. apply IH.
Qed.

Lemma Reduce_depth s ev cfg now n :
  (depth ev <= S n)%nat ->
  Forall (fun eff => (effect_depth eff <= n)%nat) (Reduce s ev cfg now).2.
Proof.
  intros Hn. eapply Forall_impl; [apply Reduce_emits|]. cbn. intros eff He%may_emit_depth. lia.
Qed.

Lemma step_total n sh ev : (depth ev <= n)%nat -> is_Some (step deps n sh ev).
Proof.
  revert sh ev. induction n as [|n IH]; intros sh ev Hd; [destruct ev; cbn in Hd; lia|]. cbn.
  pose proof (Reduce_depth (sh_cur sh) ev (sh_cfg sh) (dp_Now deps (sh_io sh)) n Hd) as He.
  destruct (Reduce _ _ _ _) as [next effs]. by eapply exec_all_total.
Qed.

Lemma step_more_fuel n m sh ev :
  (depth ev <= n)%nat -> (n <= m)%nat -> step deps m sh ev = step deps n sh ev.
Proof.
  revert m sh ev. induction n as [|n IH]; intros [|m] sh ev Hd Hm; [destruct ev; cbn in Hd; lia..|]. cbn.
  pose proof (Reduce_depth (sh_cur sh) ev (sh_cfg sh) (dp_Now deps (sh_io sh)) n Hd) as He.
  destruct (Reduce _ _ _ _) as [next effs]. eapply exec_all_ext; [|done].
  intros. apply IH; lia.
Qed.

Lemma depth_le_max ev : (depth ev <= max_depth)%nat.
Proof. destruct ev; cbn; unfold max_depth; lia. Qed.

Lemma run_start_total cfg tmpl : is_Some (run_start deps cfg tmpl).
Proof.
  unfold run_start, tick. destruct (reloadConfig _ _) as [sh [c valid]].
  apply step_total, depth_le_max.
Qed.

(** C36: the depth-first drain of an event always ends: with [max_depth] nested
    steps every event produces a result, and more depth never changes it. *)
Theorem step_drains sh ev fuel :
  (max_depth <= fuel)%nat ->
  is_Some (step deps max_depth sh ev) /\ step deps fuel sh ev = step deps max_depth sh ev.
Proof.
  intros Hf. split; [apply step_total, depth_le_max|]. apply step_more_fuel; [apply depth_le_max|done].
Qed.
End Drain.

(** ** The loop invariant *)

Section Invariant.
Context `{UnicodeTables} (deps : Deps).

(** [M] bounds the configured limits, where [limited] holds. *)
Context (limited : Prop) (M : Z).

Definition wired : Prop := is_Some (dp_Candidates deps) /\ is_Some (dp_Spawn deps).

(** Every request in the channel comes from the current timer of its issue. *)
Definition fires_ok (timers : gmap string (retryFireReq * bool)) (fires : list retryFireReq) : Prop :=
  NoDup (rf_IssueID <$> fires) /\
  (forall req, req ∈ fires -> timers !! rf_IssueID req = Some (req, true)) /\
  map_Forall (fun id t => rf_IssueID t.1 = id) timers.

Record shell_ok (sh : Shell) (P A : list string) : Prop := {
  so_ledger : ledger_ok wired (dom (sh_timers sh)) (sh_cur sh) P A;
  so_limit : limited -> Z.of_nat (size (tracked_ids (sh_cur sh) P)) <= M;
  so_cfg : limited -> ac_MaxConcurrentAgents (cfg_Agent (sh_cfg sh)) <= M;
  so_lastGood : limited -> ac_MaxConcurrentAgents (cfg_Agent (sh_lastGood sh)) <= M;
  so_fires : fires_ok (sh_timers sh) (sh_retryFire sh);
  so_published : sh_published sh = sh_cur sh }.

(** Fields the invariant does not read may change. *)
Lemma shell_ok_frame sh sh' P A :
  sh_timers sh' = sh_timers sh -> sh_cur sh' = sh_cur sh -> sh_cfg sh' = sh_cfg sh ->
  sh_lastGood sh' = sh_lastGood sh -> sh_retryFire sh' = sh_retryFire sh ->
  sh_published sh' = sh_published sh -> shell_ok sh P A -> shell_ok sh' P A.
Proof. intros E1 E2 E3 E4 E5 E6 [????]. split; rewrite ?E1, ?E2, ?E3, ?E4, ?E5, ?E6; done. Qed.

#[local] Instance shell_ok_proper sh : Proper ((≡ₚ) ==> (≡ₚ) ==> impl) (shell_ok sh).
Proof.
  intros P P' HP A A' HA [H1 H2 ????]. split; try done.
  - by rewrite <- HP, <- HA.
  - unfold tracked_ids in *. by rewrite <- HP.
Qed.

(** Arming an owed timer. *)
Lemma armTimer_ok sh P A id ident att :
  shell_ok sh P (id :: A) -> shell_ok (armTimer sh id ident att) P A.
Proof.
  intros [[Hc H2 H3 H4 H5] ??? (Hf1 & Hf2 & Hf3) ?]. apply NoDup_cons in H2 as [Hn H2].
  assert (id ∉ dom (sh_timers sh)) as HT by (intros HT; destruct (H4 id HT); set_solver).
  split; cbn; try done; [split; try done|split_and!; [done|..]].
  - intros x Hx. apply H3. by right.
  - intros x. rewrite dom_insert, elem_of_union, elem_of_singleton. intros [->|Hx].
    + split; [apply H3; by left|done].
    + destruct (H4 x Hx) as [? Hx']. rewrite not_elem_of_cons in Hx'. tauto.
  - intros Hw x Hq HC. rewrite dom_insert, elem_of_union, elem_of_singleton.
    destruct (H5 Hw x Hq HC) as [?|[->|?]%elem_of_cons]; auto.
  - intros req Hr. pose proof (Hf2 req Hr) as Hl. rewrite lookup_insert_ne; [done|].
    intros ->. by apply elem_of_dom_2 in Hl.
  - by apply map_Forall_insert_2.
Qed.

Definition needs_spawn (ev : Event) : bool :=
  match ev with
  | EvCandidatesFetched _ | EvRevalidated _ _ _ | EvRetryResolved _ _ _ _ _ => true
  | _ => false
  end.

Definition effect_needs_spawn (eff : Effect) : bool :=
  match eff with EffRevalidate _ _ | EffSpawn _ _ => true | _ => false end.

(** No handler asks for a timer to be cancelled. *)
Definition is_cancel (eff : Effect) : bool :=
  match eff with EffCancelRetryTimer _ => true | _ => false end.

(** What an event needs in order to be handled: nothing in flight around an
    allocation, a spawner behind a dispatch. *)
Definition admissible (ev : Event) (P : list string) : Prop :=
  (needs_spawn ev = true -> is_Some (dp_Spawn deps)) /\
  match ev with EvTick _ | EvCandidatesFetched _ => P = [] | _ => True end.

Definition effects_admissible (effs : list Effect) (P : list string) : Prop :=
  Forall (fun eff => (effect_needs_spawn eff = true -> is_Some (dp_Spawn deps)) /\
                     is_cancel eff = false) effs /\
  (EffFetchCandidates ∈ effs -> in_flight_effects effs = [] /\ P = []).

Lemma Reduce_admissible s ev cfg now P :
  admissible ev P -> effects_admissible (Reduce s ev cfg now).2 P.
Proof.
  intros [Hsp HP]. pose proof (Reduce_emits s ev cfg now) as He.
  revert He. generalize (Reduce s ev cfg now).2. intros effs He. split.
  - eapply Forall_impl; [exact He|]. cbn. intros eff Hm. destruct ev, eff; naive_solver.
  - intros Hin. destruct ev; try (rewrite Forall_forall in He; by specialize (He _ Hin)).
    split; [|done]. clear Hin. induction He as [|eff effs Hm He IH]; [done|].
    unfold in_flight_effects in *. cbn. rewrite IH. by destruct eff.
Qed.

Definition rec_ok (rec : Shell -> Event -> option Shell) : Prop :=
  forall sh ev P A sh', admissible ev P ->
    shell_ok sh (in_flight_event ev ++ P) (owed_event ev ++ A) ->
    rec sh ev = Some sh' -> shell_ok sh' P A.

Lemma shell_ok_unwired sh P A id : ~ wired -> shell_ok sh P (id :: A) -> shell_ok sh P A.
Proof.
  intros Hw [[Hc H2 H3 H4 H5] ?????]. apply NoDup_cons in H2 as [_ H2]. split; try done.
  split; try done.
  - intros x Hx. apply H3. by right.
  - intros x Hx. destruct (H4 x Hx) as [? Hx']. rewrite not_elem_of_cons in Hx'. tauto.
Qed.

Ltac frame := eapply shell_ok_frame; [..|eassumption]; reflexivity.

Lemma exec_ok rec sh eff P A sh' :
  rec_ok rec ->
  (effect_needs_spawn eff = true -> is_Some (dp_Spawn deps)) ->
  (eff = EffFetchCandidates -> P = []) -> is_cancel eff = false ->
  shell_ok sh (in_flight_effect eff ++ P) (owed_effect eff ++ A) ->
  exec deps rec sh eff = Some sh' -> shell_ok sh' P A.
Proof.
  intros Hrec Hsp Hfetch Hcan Hok Hex. destruct eff; cbn in Hok, Hex; try done.
  - unfold execFetchCandidates, next_io in Hex. repeat case_match; simplify_eq; try done; [frame|].
    eapply (Hrec _ _ P A) in Hex; [exact Hex|split; eauto|cbn; frame].
  - unfold execRefreshTracker, next_io in Hex. repeat case_match; simplify_eq; try done; [frame|].
    eapply (Hrec _ _ P A) in Hex; [exact Hex|done|cbn; frame].
  - unfold execRevalidate, next_io in Hex. repeat case_match; simplify_eq;
      (eapply (Hrec _ _ P A) in Hex; [exact Hex|split; eauto|cbn; frame]).
  - unfold execRetryFetch, next_io in Hex. repeat case_match; simplify_eq.
    + eapply (Hrec _ _ P A) in Hex; [exact Hex|split; eauto|cbn; frame].
    + eapply (Hrec _ _ P A) in Hex; [exact Hex|split; eauto|cbn; frame].
    + eapply shell_ok_unwired, Hok. intros [_ []]. congruence.
    + eapply shell_ok_unwired, Hok. intros [[] _]. congruence.
  - unfold execSpawn, next_io in Hex. destruct (Hsp eq_refl) as [spawn Es]. rewrite Es in Hex.
    case_match; [eapply (Hrec _ _ P A) in Hex; [exact Hex|done|cbn; frame]|].
    eapply (Hrec _ _ P A) in Hex; [exact Hex|done|]. cbn. case_match; frame.
  - unfold execKillWorker in Hex. repeat case_match; simplify_eq; [frame|done].
  - unfold execRemoveWorkspace, next_io in Hex. repeat case_match; simplify_eq; [frame|done].
  - simplify_eq. by apply armTimer_ok.
Qed.

Lemma exec_all_ok rec sh effs P A sh' :
  rec_ok rec -> effects_admissible effs P ->
  shell_ok sh (in_flight_effects effs ++ P) (owed_effects effs ++ A) ->
  exec_all deps rec sh effs = Some sh' -> shell_ok sh' P A.
Proof.
  intros Hrec. revert sh. induction effs as [|eff effs IH]; intros sh [Hsp Hfetch] Hok Hex.
  { cbn in *. by simplify_eq. }
  apply Forall_cons in Hsp as [[Hs Hc] Hsp]. cbn in Hex.
  destruct (exec deps rec sh eff) as [sh1|] eqn:E1; [|done]. cbn in Hex.
  unfold in_flight_effects, owed_effects in Hok. cbn in Hok. rewrite <- !app_assoc in Hok.
  eapply IH; [| |exact Hex].
  - split; [done|]. intros Hin. destruct Hfetch as [Hf ->]; [by right|]. split; [|done].
    unfold in_flight_effects in *. cbn in Hf. by apply app_eq_nil in Hf as [_ Hf].
  - eapply exec_ok; [exact Hrec|exact Hs| |exact Hc|exact Hok|exact E1].
    intros ->. destruct Hfetch as [Hf ->]; [by left|]. rewrite app_nil_r.
    unfold in_flight_effects in Hf. cbn in Hf. done.
Qed.

(** Reducing an event keeps the ledger and the limit. *)
Lemma Reduce_shell_ok sh ev P A next effs now :
  admissible ev P ->
  shell_ok sh (in_flight_event ev ++ P) (owed_event ev ++ A) ->
  Reduce (sh_cur sh) ev (sh_cfg sh) now = (next, effs) ->
  shell_ok (publish (sh <| sh_cur := next |>)) (in_flight_effects effs ++ P) (owed_effects effs ++ A).
Proof.
  intros [_ Hadm] [Hl Hlim ????] Hred. destruct (is_candidates ev) eqn:Ec.
  - destruct ev; try done. subst P. cbn in Hred.
    pose proof (reduceCandidates_ledger _ _ _ _ _ Issues (sh_cfg sh) Hl) as Hl'.
    pose proof (reduceCandidates_tracked (sh_cur sh) Issues (sh_cfg sh)) as Ht.
    rewrite Hred in Hl', Ht. rewrite app_nil_r in *. split; cbn; try done.
    intros Hlt. specialize (Hlim Hlt). cbn in Hlim. naive_solver lia.
  - pose proof (Reduce_move P A (sh_cur sh) ev (sh_cfg sh) now Ec) as Hm. rewrite Hred in Hm.
    destruct (Hm _ _ Hl) as [Hl' Hsub]. split; cbn; try done.
    intros Hlt. specialize (Hlim Hlt). apply subseteq_size in Hsub. lia.
Qed.

Lemma step_ok fuel : rec_ok (step deps fuel).
Proof.
  induction fuel as [|fuel IH]; intros sh ev P A sh' Hadm Hok Hst; [done|].
  cbn in Hst. destruct (Reduce _ _ _ _) as [next effs] eqn:Er.
  eapply exec_all_ok; [exact IH| | |exact Hst].
  - pose proof (Reduce_admissible (sh_cur sh) ev (sh_cfg sh) (dp_Now deps (sh_io sh)) P Hadm) as Ha.
    by rewrite Er in Ha.
  - assert (shell_ok (sh <| sh_io := S (sh_io sh) |>)
      (in_flight_event ev ++ P) (owed_event ev ++ A)) as Hok' by frame.
    pose proof (Reduce_shell_ok _ ev P A next effs _ Hadm Hok' Er) as Hred. exact Hred.
Qed.

(** *** Loop iterations *)

Hypothesis loaded_limit : limited -> forall k cfg tmpl, dp_Load deps k = Some (cfg, tmpl) ->
  ac_MaxConcurrentAgents (cfg_Agent cfg) <= M.

Lemma reloadConfig_ok sh P A sh' cfg valid :
  shell_ok sh P A -> reloadConfig deps sh = (sh', (cfg, valid)) ->
  shell_ok sh' P A /\ shell_ok (sh' <| sh_cfg := cfg |>) P A.
Proof.
  intros [H1 H2 H3 H4 H5 H6] Hr. unfold reloadConfig, next_io in Hr.
  destruct (dp_Load deps (sh_io sh)) as [[c tmpl]|] eqn:El;
    [destruct (Preflight c)|]; simplify_eq; split; split; cbn; eauto.
Qed.

Lemma tick_ok sh sh' : shell_ok sh [] [] -> tick deps sh = Some sh' -> shell_ok sh' [] [].
Proof.
  intros Hok. unfold tick. destruct (reloadConfig deps sh) as [sh1 [cfg valid]] eqn:Er.
  intros Hst. eapply (step_ok _ _ _ [] []) in Hst; [done|done|].
  by eapply reloadConfig_ok in Er as [_ ?].
Qed.

Lemma workerDone_ok sh w sh' :
  shell_ok sh [] [] -> handleWorkerDone deps sh w = Some sh' -> shell_ok sh' [] [].
Proof.
  intros Hok. unfold handleWorkerDone.
  destruct (reloadConfig _ _) as [sh1 [cfg valid]] eqn:Er.
  intros Hst. eapply (step_ok _ _ _ [] []) in Hst; [done|done|].
  eapply reloadConfig_ok in Er as [_ ?]; [done|]. frame.
Qed.

(** A received request takes its timer out of the table: the arming is owed. *)
Lemma receive_fire_ok sh req rest :
  shell_ok sh [] [] -> sh_retryFire sh = req :: rest ->
  shell_ok (sh <| sh_retryFire := rest |>
               <| sh_timers := delete (rf_IssueID req) (sh_timers sh) |>) [] [rf_IssueID req].
Proof.
  intros [[Hc H2 H3 H4 H5] ??? (Hf1 & Hf2 & Hf3) ?] Hq. rewrite Hq in *.
  apply NoDup_cons in Hf1 as [Hn Hf1].
  assert (rf_IssueID req ∈ dom (sh_timers sh)) as HT.
  { eapply elem_of_dom_2, Hf2. by left. }
  split; cbn; try done; [split; try done|split_and!; [done|..]].
  - apply NoDup_singleton.
  - intros x ->%list_elem_of_singleton. by apply H4.
  - intros x [Hx ?]%elem_of_delete. rewrite list_elem_of_singleton. naive_solver.
  - intros Hw x Hx HC. rewrite elem_of_delete, list_elem_of_singleton.
    destruct (decide (x = rf_IssueID req)); [by right|]. left. split; [done|].
    by destruct (H5 Hw x Hx HC) as [|?%elem_of_nil].
  - intros r Hr. rewrite lookup_delete_ne; [by apply Hf2; right|].
    intros E. apply Hn. rewrite E. by apply list_elem_of_fmap_2.
  - by apply map_Forall_delete.
Qed.

Lemma retryFire_ok sh req rest sh' :
  shell_ok sh [] [] -> sh_retryFire sh = req :: rest ->
  handleRetryFire deps (sh <| sh_retryFire := rest |>) req = Some sh' -> shell_ok sh' [] [].
Proof.
  intros Hok Hq Hh. apply (receive_fire_ok _ _ _ Hok) in Hq. unfold handleRetryFire in Hh.
  destruct (reloadConfig _ _) as [sh1 [cfg valid]] eqn:Er.
  eapply reloadConfig_ok in Er as [Hok1 Hok2]; [|exact Hq]. destruct valid.
  { by eapply (step_ok _ _ _ [] []) in Hh; [exact Hh|done|]. }
  simplify_eq. apply armTimer_ok. destruct Hok1 as [Hl Hlim ????].
  destruct (s_RetryAttempts (sh_cur sh1) !! rf_IssueID req) as [e|] eqn:Ee; [|done].
  assert (re_IssueID e = rf_IssueID req) as Hid
    by apply (co_retry_keys _ _ (lo_claims _ _ _ _ _ Hl) _ _ Ee).
  destruct (rearm_move (sh_cur sh1) [] [] e continuationDelay (dp_Now deps (sh_io sh1))
    wired (dom (sh_timers sh1))) as [Hl' Hsub]; [by rewrite Hid|].
  split; cbn; try done; [by rewrite Hid in Hl'|].
  intros Hlt. specialize (Hlim Hlt). apply subseteq_size in Hsub. cbn in Hsub. lia.
Qed.

Lemma timer_expires_ok sh id req :
  shell_ok sh [] [] -> sh_timers sh !! id = Some (req, false) ->
  shell_ok (sh <| sh_timers := <[id := (req, true)]> (sh_timers sh) |>
               <| sh_retryFire := sh_retryFire sh ++ [req] |>) [] [].
Proof.
  intros [Hl ??? (Hf1 & Hf2 & Hf3) ?] Hid. pose proof (Hf3 _ _ Hid) as Hk. cbn in Hk. subst id.
  assert (dom (<[rf_IssueID req := (req, true)]> (sh_timers sh)) = dom (sh_timers sh)) as Hdom.
  { rewrite dom_insert_L. apply elem_of_dom_2 in Hid. set_solver. }
  assert (forall r, r ∈ sh_retryFire sh -> rf_IssueID r <> rf_IssueID req) as Hne.
  { intros r Hr E. apply Hf2 in Hr. rewrite E in Hr. congruence. }
  split; cbn; try done; [by rewrite Hdom|]. split_and!.
  - rewrite fmap_app. change (rf_IssueID <$> [req]) with [rf_IssueID req].
    apply NoDup_app. split_and!; [done| |apply NoDup_singleton].
    intros x (r & -> & Hr)%list_elem_of_fmap. rewrite list_elem_of_singleton. by apply Hne.
  - intros r [Hr| ->%list_elem_of_singleton]%elem_of_app; [|by rewrite lookup_insert_eq].
    rewrite lookup_insert_ne by (intros E; by apply (Hne r Hr)). by apply Hf2.
  - by apply map_Forall_insert_2.
Qed.

Lemma loop_step_ok sh sh' : loop_step deps sh sh' -> shell_ok sh [] [] -> shell_ok sh' [] [].
Proof.
  intros Hst Hok. destruct Hst.
  - eapply tick_ok in Hok; [|done]. unfold applyInterval. case_match; [frame|done].
  - by apply timer_expires_ok.
  - by eapply retryFire_ok.
  - by eapply workerDone_ok.
  - by eapply (step_ok max_depth sh (codexEvent a) [] []).
Qed.

Lemma removals_ok (l : list Issue) sh P A :
  shell_ok sh P A ->
  shell_ok (foldl (fun sh iss => execRemoveWorkspace deps sh (iss_Identifier iss)) sh l) P A.
Proof.
  revert sh. induction l as [|i l IH]; intros sh Hok; [done|]. apply IH.
  unfold execRemoveWorkspace, next_io. repeat case_match; simplify_eq; [frame|done].
Qed.

Lemma StartupCleanup_ok sh P A : shell_ok sh P A -> shell_ok (StartupCleanup deps sh) P A.
Proof.
  intros Hok. unfold StartupCleanup, next_io. repeat case_match; simplify_eq; try done; [frame|].
  apply removals_ok. frame.
Qed.

Lemma New_ok cfg tmpl :
  (limited -> 0 <= M /\ ac_MaxConcurrentAgents (cfg_Agent cfg) <= M) -> shell_ok (New cfg tmpl) [] [].
Proof.
  intros HM. split; try (intros Hlt; by apply HM); try done.
  - split; [split|..]; try apply NoDup_nil_2; try apply map_Forall_empty;
      intros; unfold queued_ids, running_ids in *; cbn in *; set_solver.
  - split_and!; [constructor|set_solver|apply map_Forall_empty].
Qed.

Lemma reachable_ok cfg tmpl sh :
  (limited -> 0 <= M /\ ac_MaxConcurrentAgents (cfg_Agent cfg) <= M) ->
  reachable deps cfg tmpl sh -> shell_ok sh [] [].
Proof.
  intros HM (sh0 & Hst & Hrtc).
  assert (shell_ok sh0 [] []) as Hok by (eapply tick_ok, Hst; by apply StartupCleanup_ok, New_ok).
  clear Hst. induction Hrtc; [done|]. eauto using loop_step_ok.
Qed.
End Invariant.

(** ** Guarantees of the running scheduler *)

Section Guarantees.
Context `{UnicodeTables} (deps : Deps).

(** C4: whatever the dependencies answer, in every state between two loop
    iterations a running issue is claimed and not queued, every claim belongs to
    a running or a queued issue (none is leaked), entries are stored under their
    own issue id, and the published state is the current one. *)
Theorem reachable_claims cfg tmpl sh :
  reachable deps cfg tmpl sh ->
  let s := sh_cur sh in
  running_ids s ⊆ s_Claimed s /\ running_ids s ## queued_ids s /\
  s_Claimed s ⊆ running_ids s ∪ queued_ids s /\
  map_Forall (fun id run => iss_ID (run_Issue run) = id) (s_Running s) /\
  map_Forall (fun id e => re_IssueID e = id) (s_RetryAttempts s) /\
  sh_published sh = s.
Proof.
  intros Hr. cbn zeta.
  destruct (reachable_ok deps False 0 ltac:(done) cfg tmpl sh ltac:(done) Hr)
    as [[[H1 H2 H3 H4 H5 H6] _ _ _ _] _ _ _ _ Hp].
  split_and!; try done.
  - intros id Hid. by apply H1.
  - intros id Hid Hq. destruct (H1 id Hid) as (_ & ? & _). done.
  - intros id Hid. destruct (H3 id Hid) as [|[|Hn]]; [set_solver..|by apply elem_of_nil in Hn].
Qed.

(** C18: if no configuration ever loaded allows more than [M] concurrent agents,
    then at most [M] issues are ever running or waiting for a retry. *)
Theorem reachable_concurrency M cfg tmpl sh :
  0 <= M -> ac_MaxConcurrentAgents (cfg_Agent cfg) <= M ->
  (forall k cfg' tmpl', dp_Load deps k = Some (cfg', tmpl') ->
     ac_MaxConcurrentAgents (cfg_Agent cfg') <= M) ->
  reachable deps cfg tmpl sh ->
  Z.of_nat (size (running_ids (sh_cur sh) ∪ queued_ids (sh_cur sh))) <= M.
Proof.
  intros HM Hcfg Hload Hr.
  pose proof (so_limit _ _ _ _ _ _ (reachable_ok deps True M (fun _ => Hload) cfg tmpl sh
    (fun _ => conj HM Hcfg) Hr) I) as Hl.
  unfold tracked_ids in Hl. by rewrite list_to_set_nil, union_empty_r_L in Hl.
Qed.

(** C35: with the tracker and the spawner wired, no claimed issue is forgotten in
    the queue: between iterations each has a timer; timers exist for queued
    issues only, and the requests waiting in the channel are those of distinct
    issues whose timer has fired. *)
Theorem reachable_timers cfg tmpl sh :
  is_Some (dp_Candidates deps) -> is_Some (dp_Spawn deps) ->
  reachable deps cfg tmpl sh ->
  queued_ids (sh_cur sh) ∩ s_Claimed (sh_cur sh) ⊆ dom (sh_timers sh) /\
  dom (sh_timers sh) ⊆ queued_ids (sh_cur sh) /\
  NoDup (rf_IssueID <$> sh_retryFire sh) /\
  (forall req, req ∈ sh_retryFire sh -> sh_timers sh !! rf_IssueID req = Some (req, true)).
Proof.
  intros Hc Hs Hr.
  destruct (reachable_ok deps False 0 ltac:(done) cfg tmpl sh ltac:(done) Hr)
    as [[_ _ _ H4 H5] _ _ _ (Hf1 & Hf2 & _) _].
  split_and!; try done.
  - intros id [Hq HC]%elem_of_intersection.
    destruct (H5 (conj Hc Hs) id Hq HC) as [|Hn]; [done|by apply elem_of_nil in Hn].
  - intros id Hid. by apply H4.
Qed.
End Guarantees.

(** ** A concrete run

    A tracker with three candidates, a limit of two agents and a spawner whose
    first call fails. *)
Module SchedulerDemo.

Import SchedDemo.

Definition demo_deps (fails_at : nat) : Deps :=
  mkDeps (Some (fun _ => inr [demo_issue "c" 3; demo_issue "a" 1; demo_issue "b" 2]))
    (Some (fun k iss _ => if Nat.eqb k fails_at then inl (ErrOther "spawn")
                          else inr (mkSpawnResult zero_session (Some k))))
    None None (fun k => 1000 * Second + Z.of_nat k) (fun _ => Some (demo_config, "prompt")).

Definition demo_start (fails_at : nat) : Shell :=
  match run_start (demo_deps fails_at) demo_config "prompt" with
  | Some sh => sh | None => New demo_config "" end.

Lemma demo_reachable n : reachable (demo_deps n) demo_config "prompt" (demo_start n).
Proof.
  destruct (run_start_total (demo_deps n) demo_config "prompt") as [sh Hs].
  exists sh. unfold demo_start. rewrite Hs. split; [done|]. apply rtc_refl.
Qed.

Lemma step_drains_witness :
  is_Some (step (demo_deps 99) max_depth (New demo_config "") (EvTick true)) /\
  step (demo_deps 99) 7 (New demo_config "") (EvTick true)
  = step (demo_deps 99) max_depth (New demo_config "") (EvTick true).
Proof. apply (step_drains (demo_deps 99) (New demo_config "") (EvTick true) 7). vm_compute. lia. Defined.

Lemma reachable_claims_witness :
  running_ids (sh_cur (demo_start 99)) = {["a"; "b"]} /\
  s_Claimed (sh_cur (demo_start 99)) ⊆ running_ids (sh_cur (demo_start 99)) ∪ queued_ids (sh_cur (demo_start 99)).
Proof.
  split; [by vm_compute|].
  apply (reachable_claims (demo_deps 99) demo_config "prompt" (demo_start 99)).
  apply demo_reachable.
Defined.

Lemma reachable_concurrency_witness :
  Z.of_nat (size (running_ids (sh_cur (demo_start 99)) ∪ queued_ids (sh_cur (demo_start 99)))) <= 2.
Proof.
  apply (reachable_concurrency (demo_deps 99) 2 demo_config "prompt" (demo_start 99)).
  - lia.
  - vm_compute. congruence.
  - intros k cfg' tmpl' [= <- <-]. vm_compute. congruence.
  - apply demo_reachable.
Defined.

Lemma reachable_timers_witness :
  queued_ids (sh_cur (demo_start 5)) = {["a"]} /\
  dom (sh_timers (demo_start 5)) ⊆ queued_ids (sh_cur (demo_start 5)).
Proof.
  split; [by vm_compute|].
  apply (reachable_timers (demo_deps 5) demo_config "prompt" (demo_start 5)).
  - cbn. eauto.
  - cbn. eauto.
  - apply demo_reachable.
Defined.

(** The failed spawn of "a", after its timer has fired and been handled. *)
Definition demo_req : retryFireReq := mkRetryFireReq "a" "AG-a" 1.

Definition demo_fired : Shell :=
  demo_start 5 <| sh_timers := <["a" := (demo_req, true)]> (sh_timers (demo_start 5)) |>
               <| sh_retryFire := sh_retryFire (demo_start 5) ++ [demo_req] |>.

Definition demo_stranded : Shell :=
  default demo_fired (handleRetryFire (demo_deps 5) (demo_fired <| sh_retryFire := [] |>) demo_req).

(** "a" is left in the queue with neither claim nor timer. *)
Lemma spawn_failure_strands :
  rtc (loop_step (demo_deps 5)) (demo_start 5) demo_stranded /\
  (bool_decide ("a" ∈ queued_ids (sh_cur demo_stranded)) = true /\
   bool_decide ("a" ∈ s_Claimed (sh_cur demo_stranded)) = false /\
   bool_decide (sh_timers demo_stranded = ∅) = true /\ sh_retryFire demo_stranded = []).
Proof.
  split; [|by vm_compute].
  eapply rtc_l; [apply (loop_timer_expires _ _ "a" demo_req); by vm_compute|].
  eapply rtc_l; [|apply rtc_refl]. apply (loop_retryFire _ _ _ demo_req []); [by vm_compute|].
  unfold demo_stranded. fold demo_fired.
  destruct (handleRetryFire _ _ _) as [sh|] eqn:E; [done|]. exfalso. revert E. by vm_compute.
Qed.

End SchedulerDemo.
