(* ===== verification/SchedulerFacts.v ===== *)
(** * orchestrator/scheduler: retry delays, token totals, reconciliation

    Functional properties of single handlers of the reducer: the exponential
    backoff and where its arithmetic overflows, conservation of the cumulative
    token and runtime totals, stall detection, tracker reconciliation, and what
    happens to failed spawns and to late worker exits. *)

From S2P Require Import Prelude Metrics Scheduler SchedulerClaims SchedulerSlots.

(** ** Retry delays (retry.go) *)

Section Backoff.
Implicit Types cfg : Config.

Lemma shiftl_pow n : 0 <= n -> Z.shiftl 1 n = 2 ^ n.
Proof. intros Hn. rewrite Z.shiftl_mul_pow2 by done. lia. Qed.

Lemma pow_bound n m : 0 <= n <= m -> 1 <= 2 ^ n <= 2 ^ m.
Proof.
  intros [Hn Hm]. split; [|by apply Z.pow_le_mono_r; lia].
  change 1 with (2 ^ 0). apply Z.pow_le_mono_r; lia.
Qed.

(** Below the fifty-first attempt the delay is 10s doubled per attempt and
    capped by the configured maximum, so it is positive, bounded by the maximum
    and never shrinks from one attempt to the next. *)
Theorem backoffDelay_exact cfg attempt :
  1 <= attempt <= 50 ->
  0 < ac_MaxRetryBackoffMS (cfg_Agent cfg) <= max_int64 / Millisecond ->
  backoffDelay attempt cfg
    = Z.min (10000 * 2 ^ (attempt - 1)) (ac_MaxRetryBackoffMS (cfg_Agent cfg)) * Millisecond /\
  0 < backoffDelay attempt cfg <= ac_MaxRetryBackoffMS (cfg_Agent cfg) * Millisecond /\
  (attempt < 50 -> backoffDelay attempt cfg <= backoffDelay (attempt + 1) cfg).
Proof.
  intros Ha Hm.
  assert (forall a, 1 <= a <= 50 -> backoffDelay a cfg
    = Z.min (10000 * 2 ^ (a - 1)) (ac_MaxRetryBackoffMS (cfg_Agent cfg)) * Millisecond) as Hex.
  { intros a Ha'. unfold backoffDelay.
    pose proof (pow_bound (a - 1) 49 ltac:(lia)) as Hp.
    assert (max_int64 / Millisecond = 9223372036854) as Hmax by reflexivity.
    replace (a <? 1) with false by lia. replace (62 <? a - 1) with false by lia.
    rewrite shiftl_pow by lia.
    rewrite (wrap64_id (2 ^ (a - 1))) by (unfold min_int64, max_int64; lia).
    rewrite (wrap64_id (10000 * _)) by (unfold min_int64, max_int64; lia).
    replace (0 <? ac_MaxRetryBackoffMS (cfg_Agent cfg)) with true by lia. cbn [andb].
    destruct (Z.ltb_spec (ac_MaxRetryBackoffMS (cfg_Agent cfg)) (10000 * 2 ^ (a - 1)));
      rewrite wrap64_id; unfold min_int64, max_int64, Millisecond in *; lia. }
  assert (Millisecond = 1000000) as HM by reflexivity.
  pose proof (pow_bound (attempt - 1) 49 ltac:(lia)) as Hp.
  split; [by apply Hex|]. split; [rewrite Hex by lia; nia|].
  intros Hlt. rewrite !Hex by lia.
  pose proof (Z.pow_le_mono_r 2 (attempt - 1) (attempt + 1 - 1) ltac:(lia) ltac:(lia)). nia.
Qed.

(** The doubling is done in a 64-bit [int] before the cap is applied: the
    fifty-first attempt has a negative delay and from the sixty-first on the
    delay is zero, whatever the configured maximum. *)
Theorem backoffDelay_overflow cfg :
  backoffDelay 51 cfg < 0 /\ forall attempt, 61 <= attempt -> backoffDelay attempt cfg = 0.
Proof.
  split.
  - unfold backoffDelay. cbn [Z.ltb Z.compare Z.sub].
    change (wrap64 (10000 * wrap64 (Z.shiftl 1 50))) with (-7187745005283311616).
    destruct (0 <? _) eqn:E; [|by vm_compute].
    replace (_ <? -7187745005283311616) with false by lia. by vm_compute.
  - intros attempt Ha. unfold backoffDelay.
    replace (attempt <? 1) with false by lia.
    set (shift := if 62 <? attempt - 1 then 62 else attempt - 1).
    assert (shift = 60 \/ shift = 61 \/ shift = 62) as Hs
      by (unfold shift; destruct (Z.ltb_spec 62 (attempt - 1)); lia).
    assert (wrap64 (10000 * wrap64 (Z.shiftl 1 shift)) = 0) as ->
      by (destruct Hs as [->|[->| ->]]; reflexivity).
    destruct (0 <? _) eqn:E; [|done]. by replace (_ <? 0) with false by lia.
Qed.
End Backoff.

(** ** Loops over issue ids

    The reconciliation loops treat each id on its own: an iteration reads and
    writes only what the state holds for its id, and appends its effects. *)

Section PerIssue.
Implicit Types s t : State.

Definition issue_view (s : State) (id : string) :=
  (s_Running s !! id, s_RetryAttempts s !! id, bool_decide (id ∈ s_Claimed s)).

Record per_issue (f : State * list Effect -> string -> State * list Effect) : Prop := {
  pi_append : forall s effs x,
    f (s, effs) x = ((f (s, []) x).1, effs ++ (f (s, []) x).2);
  pi_other : forall s x id, id <> x -> issue_view (f (s, []) x).1 id = issue_view s id;
  pi_same : forall s t id, issue_view s id = issue_view t id ->
    issue_view (f (s, []) id).1 id = issue_view (f (t, []) id).1 id /\
    (f (s, []) id).2 = (f (t, []) id).2 }.

Lemma list_bind_ext_in {A B} (g h : A -> list B) l :
  (forall y, y ∈ l -> g y = h y) -> l ≫= g = l ≫= h.
Proof.
  induction l as [|x l IH]; intros Hgh; [done|]. cbn.
  rewrite (Hgh x) by left. f_equal. apply IH. intros y Hy. apply Hgh. by right.
Qed.

Lemma bind_if {A B} (p : A -> bool) (g : A -> list B) l :
  (l ≫= fun x => if p x then g x else []) = filter (fun x => p x = true) l ≫= g.
Proof.
  induction l as [|x l IH]; [done|]. rewrite filter_cons. cbn. rewrite IH.
  by destruct (p x).
Qed.

Lemma per_issue_foldl f : per_issue f -> forall l s effs, NoDup l ->
  (foldl f (s, effs) l).2 = effs ++ (l ≫= fun id => (f (s, []) id).2) /\
  forall id, issue_view (foldl f (s, effs) l).1 id
    = if decide (id ∈ l) then issue_view (f (s, []) id).1 id else issue_view s id.
Proof.
  intros [Happ Hoth Hsame] l. induction l as [|x l IH]; intros s effs Hnd.
  { cbn. split; [by rewrite app_nil_r|]. done. }
  apply NoDup_cons in Hnd as [Hx Hnd]. cbn [foldl]. rewrite Happ.
  destruct (IH (f (s, []) x).1 (effs ++ (f (s, []) x).2) Hnd) as [He Hv]. split.
  - rewrite He, <- app_assoc. f_equal. cbn. f_equal. apply list_bind_ext_in. intros y Hy.
    apply Hsame, Hoth. by intros ->.
  - intros id. rewrite Hv. destruct (decide (id = x)) as [->|Hne].
    + rewrite decide_False by done. rewrite decide_True by set_solver. done.
    + destruct (decide (id ∈ l)); [rewrite decide_True by set_solver|rewrite decide_False by set_solver].
      * apply Hsame. by apply Hoth.
      * by apply Hoth.
Qed.

(** The entry a killed attempt leaves in the queue, and the effects of the kill. *)
Definition killed_entry (run : RunAttempt) (id : string) (att : Z) (cause : SchedError)
    (cfg : Config) (now : Time) : RetryEntry :=
  mkRetryEntry id (iss_Identifier (run_Issue run)) (wrap64 (att + 1)) RetryBackoff (Some cause)
    (UnixMilli (Add now (backoffDelay (wrap64 (att + 1)) cfg))).

Definition kill_effects (run : RunAttempt) (id : string) (att : Z) (reason : string)
    (cfg : Config) : list Effect :=
  [EffKillWorker id reason;
   EffArmRetryTimer id (iss_Identifier (run_Issue run)) (wrap64 (att + 1))
     (backoffDelay (wrap64 (att + 1)) cfg)].

Lemma kill_retry_running s effs id att cause reason cfg now run :
  s_Running s !! id = Some run ->
  (reconcileKillRetry s effs id att cause reason cfg now).2
    = effs ++ kill_effects run id att reason cfg /\
  issue_view (reconcileKillRetry s effs id att cause reason cfg now).1 id
    = (None, Some (killed_entry run id att cause cfg now), bool_decide (id ∈ s_Claimed s)) /\
  forall y, y <> id ->
    issue_view (reconcileKillRetry s effs id att cause reason cfg now).1 y = issue_view s y.
Proof.
  intros Hr. unfold reconcileKillRetry, issue_view, workerExitAbnormal, withoutKey, withKey.
  rewrite Hr. cbn. split_and!.
  - by rewrite <- app_assoc.
  - by rewrite lookup_delete_eq, lookup_insert_eq.
  - intros y Hy. by rewrite lookup_delete_ne, lookup_insert_ne by done.
Qed.

(** Last sign of life of an attempt: its last activity, or its start. *)
Definition activity_base (run : RunAttempt) : Time :=
  if IsZero (run_LastCodexTimestamp run) then run_StartedAt run else run_LastCodexTimestamp run.

Definition stalled (threshold : Duration) (now : Time) (run : RunAttempt) : bool :=
  negb (IsZero (activity_base run)) && negb (Sub now (activity_base run) <=? threshold).

Lemma stall_one_alt cfg now threshold s effs id :
  stall_one cfg now threshold (s, effs) id =
  match s_Running s !! id with
  | Some run => if stalled threshold now run
                then reconcileKillRetry s effs id (run_Attempt run) ErrStall "stall" cfg now
                else (s, effs)
  | None => (s, effs)
  end.
Proof.
  unfold stall_one, reconcileKillRetry, stalled, activity_base, workerExitAbnormal.
  destruct (s_Running s !! id) as [run|] eqn:E.
  - cbn. destruct (IsZero (run_LastCodexTimestamp run)); cbn.
    + destruct (IsZero (run_StartedAt run)); [done|]. cbn. by destruct (_ <=? threshold).
    + destruct (IsZero (run_LastCodexTimestamp run)); [done|]. cbn. by destruct (_ <=? threshold).
  - by destruct (_ || _).
Qed.

Lemma stall_one_per_issue cfg now threshold : per_issue (stall_one cfg now threshold).
Proof.
  split.
  - intros s effs x. rewrite !stall_one_alt. destruct (s_Running s !! x) as [run|] eqn:E;
      [|by rewrite app_nil_r]. destruct (stalled _ _ _); [|by rewrite app_nil_r].
    unfold reconcileKillRetry, workerExitAbnormal. rewrite E. cbn. by rewrite <- app_assoc.
  - intros s x id Hne. rewrite stall_one_alt. destruct (s_Running s !! x) as [run|] eqn:E; [|done].
    destruct (stalled _ _ _); [|done]. by apply (kill_retry_running s [] x _ _ _ _ _ run).
  - intros s t id Hv. pose proof Hv as [= HR HQ HC].
    rewrite !stall_one_alt, HR. destruct (s_Running t !! id) as [run|] eqn:E; [|done].
    destruct (stalled _ _ _); [|done].
    destruct (kill_retry_running s [] id (run_Attempt run) ErrStall "stall" cfg now run HR) as (-> & -> & _).
    destruct (kill_retry_running t [] id (run_Attempt run) ErrStall "stall" cfg now run E) as (-> & -> & _).
    by rewrite HC.
Qed.

Lemma sortedRunningIDs_elem s id : id ∈ sortedRunningIDs s <-> is_Some (s_Running s !! id).
Proof.
  unfold sortedRunningIDs. rewrite sort_Strings_perm, elem_of_elements. apply elem_of_dom.
Qed.

Lemma sortedRunningIDs_nodup s : NoDup (sortedRunningIDs s).
Proof. unfold sortedRunningIDs. rewrite sort_Strings_perm. apply NoDup_elements. Qed.

(** Stall detection ends exactly the attempts whose last sign of life is
    older than the threshold: each is killed and queued for a backoff retry with
    its attempt incremented and its claim kept; every other attempt and queue
    entry is left as it was.  Without a stall timeout nothing happens. *)
Theorem reduceStall_spec s cfg now :
  let threshold := wrap64 (cc_StallTimeoutMS (cfg_Codex cfg) * Millisecond) in
  let is_stalled id := (0 <? cc_StallTimeoutMS (cfg_Codex cfg)) &&
    match s_Running s !! id with Some run => stalled threshold now run | None => false end in
  let '(s', effs) := reduceStall s cfg now in
  (forall id, issue_view s' id =
     match s_Running s !! id with
     | Some run => if is_stalled id
                   then (None, Some (killed_entry run id (run_Attempt run) ErrStall cfg now),
                         bool_decide (id ∈ s_Claimed s))
                   else issue_view s id
     | None => issue_view s id
     end) /\
  effs = filter (fun id => is_stalled id = true) (sortedRunningIDs s) ≫= fun id =>
    match s_Running s !! id with
    | Some run => kill_effects run id (run_Attempt run) "stall" cfg
    | None => []
    end.
Proof.
  cbn zeta. unfold reduceStall. destruct (Z.leb_spec (cc_StallTimeoutMS (cfg_Codex cfg)) 0) as [Hz|Hz].
  { replace (0 <? _) with false by lia. cbn [andb]. split; [by intros id; case_match|].
    rewrite <- bind_if. by induction (sortedRunningIDs s). }
  replace (0 <? _) with true by lia. cbn [andb].
  pose proof (per_issue_foldl _ (stall_one_per_issue cfg now
    (wrap64 (cc_StallTimeoutMS (cfg_Codex cfg) * Millisecond))) (sortedRunningIDs s) s []
    (sortedRunningIDs_nodup s)) as [He Hv].
  destruct (foldl _ _ _) as [s' effs]. cbn [fst snd app] in *. split.
  - intros id. rewrite Hv. destruct (s_Running s !! id) as [run|] eqn:E.
    + rewrite decide_True by (apply sortedRunningIDs_elem; eauto). rewrite stall_one_alt, E.
      destruct (stalled _ _ _); [|done]. by apply (kill_retry_running s [] id _ _ "stall" _ _ run).
    + rewrite decide_False; [done|]. rewrite sortedRunningIDs_elem, E. by intros [? ?].
  - rewrite He, <- bind_if. apply list_bind_ext_in. intros id _. rewrite stall_one_alt.
    destruct (s_Running s !! id) as [run|] eqn:E; [|done].
    destruct (stalled _ _ run); [|done]. by apply (kill_retry_running s [] id _ _ "stall" _ now run).
Qed.
End PerIssue.

(** ** Tracker reconciliation (reduce_reconcile.go) *)

Section Refresh.
Context `{UnicodeTables}.
Implicit Types s t : State.

(** What the refreshed tracker data says about a running attempt. *)
Inductive Verdict := Missing | Terminal | Active (iss : Issue) | Inactive.

Definition verdict (issues : list Issue) (cfg : Config) (id : string) : Verdict :=
  match issues_by_id issues !! id with
  | None => Missing
  | Some iss =>
    if bool_decide (ToLower (iss_State iss) ∈ normSet (tc_TerminalStates (cfg_Tracker cfg)))
    then Terminal
    else if bool_decide (ToLower (iss_State iss) ∈ normSet (tc_ActiveStates (cfg_Tracker cfg)))
    then Active iss else Inactive
  end.

(** What becomes of the attempt, and the effects. *)
Definition settle (v : Verdict) (run : RunAttempt) (id : string) (retry : option RetryEntry)
    (claimed : bool) (cfg : Config) (now : Time)
    : option RunAttempt * option RetryEntry * bool :=
  match v with
  | Missing => (None, Some (killed_entry run id (run_Attempt run) ErrNotInRefresh cfg now), claimed)
  | Terminal => (None, None, false)
  | Active iss => (Some (run <| run_Issue := iss |>), retry, claimed)
  | Inactive => (None, Some (killed_entry run id (run_Attempt run) ErrLeftActiveStates cfg now), claimed)
  end.

Definition settle_effects (v : Verdict) (run : RunAttempt) (id : string) (cfg : Config) : list Effect :=
  match v with
  | Missing => kill_effects run id (run_Attempt run) "not-found" cfg
  | Terminal => [EffKillWorker id "terminal"; EffRemoveWorkspace (iss_Identifier (run_Issue run))]
  | Active _ => []
  | Inactive => kill_effects run id (run_Attempt run) "non-active" cfg
  end.

Abbreviation refresh issues cfg now := (refresh_one (issues_by_id issues)
  (normSet (tc_TerminalStates (cfg_Tracker cfg))) (normSet (tc_ActiveStates (cfg_Tracker cfg))) cfg now).

Lemma refresh_one_running issues cfg now s effs id run :
  s_Running s !! id = Some run ->
  (refresh issues cfg now (s, effs) id).2
    = effs ++ settle_effects (verdict issues cfg id) run id cfg /\
  issue_view (refresh issues cfg now (s, effs) id).1 id
    = settle (verdict issues cfg id) run id (s_RetryAttempts s !! id)
        (bool_decide (id ∈ s_Claimed s)) cfg now /\
  forall y, y <> id -> issue_view (refresh issues cfg now (s, effs) id).1 y = issue_view s y.
Proof.
  intros Hr. unfold refresh_one, verdict. rewrite Hr.
  destruct (issues_by_id issues !! id) as [iss|]; [|by apply kill_retry_running].
  destruct (bool_decide (_ ∈ normSet (tc_TerminalStates _))).
  { split; [done|]. unfold issue_view. cbn [fst settle]. autorewrite with agrid. split.
    - rewrite !lookup_delete_eq. f_equal. apply bool_decide_eq_false. set_solver.
    - intros y Hy. rewrite !lookup_delete_ne by done. f_equal. apply bool_decide_ext. set_solver. }
  destruct (bool_decide _); [|by apply kill_retry_running].
  unfold updateIssueSnapshot, issue_view, withKey. rewrite Hr. cbn. split_and!.
  - by rewrite app_nil_r.
  - by rewrite lookup_insert_eq.
  - intros y Hy. by rewrite lookup_insert_ne.
Qed.

Lemma refresh_one_absent issues cfg now s effs id :
  s_Running s !! id = None -> refresh issues cfg now (s, effs) id = (s, effs).
Proof. intros Hr. unfold refresh_one. by rewrite Hr. Qed.

Lemma refresh_one_effs issues cfg now s effs id :
  (refresh issues cfg now (s, effs) id).1 = (refresh issues cfg now (s, []) id).1.
Proof.
  unfold refresh_one, reconcileKillRetry.
  destruct (s_Running s !! id); [|done]. destruct (issues_by_id issues !! id);
    [destruct (bool_decide _); [done|]; destruct (bool_decide _); [done|]|];
    by destruct (workerExitAbnormal _ _ _ _) as [[]|].
Qed.

Lemma refresh_one_per_issue issues cfg now : per_issue (refresh issues cfg now).
Proof.
  split.
  - intros s effs x. destruct (s_Running s !! x) as [run|] eqn:E.
    + destruct (refresh_one_running issues cfg now s effs x run E) as (He & _).
      destruct (refresh_one_running issues cfg now s [] x run E) as (He' & _).
      rewrite (surjective_pairing (refresh issues cfg now (s, effs) x)), He, He'.
      by rewrite refresh_one_effs.
    + rewrite !refresh_one_absent by done. cbn. by rewrite app_nil_r.
  - intros s x id Hne. destruct (s_Running s !! x) as [run|] eqn:E;
      [by eapply refresh_one_running|by rewrite refresh_one_absent].
  - intros s t id Hv. pose proof Hv as [= HR HQ HC].
    destruct (s_Running t !! id) as [run|] eqn:E; [|by rewrite !refresh_one_absent].
    destruct (refresh_one_running issues cfg now s [] id run HR) as (-> & -> & _).
    destruct (refresh_one_running issues cfg now t [] id run E) as (-> & -> & _).
    by rewrite HQ, HC.
Qed.

(** A tracker refresh settles every requested running attempt by what the
    tracker reported: a terminal issue is released and its workspace removed, an
    active one gets the new snapshot, a missing or inactive one is killed and
    queued; attempts that were not requested are untouched, and the effects
    come in the order of the ids. *)
Theorem reduceTrackerRefreshed_spec s requested issues cfg now :
  NoDup requested ->
  let '(s', effs) := reduceTrackerRefreshed s requested issues cfg now in
  (forall id, issue_view s' id =
     match s_Running s !! id with
     | Some run =>
       if decide (id ∈ requested)
       then settle (verdict issues cfg id) run id (s_RetryAttempts s !! id)
              (bool_decide (id ∈ s_Claimed s)) cfg now
       else issue_view s id
     | None => issue_view s id
     end) /\
  effs = sort_Strings requested ≫= fun id =>
    match s_Running s !! id with
    | Some run => settle_effects (verdict issues cfg id) run id cfg
    | None => []
    end.
Proof.
  intros Hnd. unfold reduceTrackerRefreshed, sortedIDs.
  rewrite <- (sort_Strings_perm requested) in Hnd.
  pose proof (per_issue_foldl _ (refresh_one_per_issue issues cfg now) _ s [] Hnd) as [He Hv].
  destruct (foldl _ _ _) as [s' effs]. cbn [fst snd app] in *. split.
  - intros id. rewrite Hv.
    destruct (s_Running s !! id) as [run|] eqn:E.
    + destruct (decide (id ∈ requested)) as [Hin|Hin]; rewrite <- (sort_Strings_perm requested) in Hin.
      * rewrite decide_True by done. by eapply refresh_one_running.
      * by rewrite decide_False.
    + case_decide; [|done]. by rewrite refresh_one_absent.
  - rewrite He. apply list_bind_ext_in. intros id _.
    destruct (s_Running s !! id) as [run|] eqn:E; [|by rewrite refresh_one_absent].
    by apply (refresh_one_running issues cfg now s [] id run).
Qed.
End Refresh.

(** ** Cumulative totals (state.go, transitions.go) *)

Section Conservation.
Context `{GoMapRange} `{UnicodeTables}.
Implicit Types s : State.

Definition totals_in_range (t : Totals) : Prop :=
  wrap64 (tot_Input t) = tot_Input t /\ wrap64 (tot_Output t) = tot_Output t /\
  wrap64 (tot_Total t) = tot_Total t.

(** The rolled-up counters are 64-bit values. *)
Definition counters_ok (s : State) : Prop :=
  totals_in_range (s_CodexTotals s) /\ wrap64 (s_CodexRuntime s) = s_CodexRuntime s.

Lemma fold_totals (l : list (string * Accumulator)) t :
  foldl (fun t kv => add_totals t (AccTotals kv.2)) t l =
  mkTotals (foldl (fun a kv => wrap64 (a + tot_Input (AccTotals kv.2))) (tot_Input t) l)
           (foldl (fun a kv => wrap64 (a + tot_Output (AccTotals kv.2))) (tot_Output t) l)
           (foldl (fun a kv => wrap64 (a + tot_Total (AccTotals kv.2))) (tot_Total t) l).
Proof.
  revert t. induction l as [|[k acc] l IH]; intros t; [by destruct t|]. cbn. by rewrite IH.
Qed.

Lemma Snapshot_totals s : counters_ok s ->
  snap_CodexTotals (Snapshot s) =
    mkTotals (wrap64 (tot_Input (s_CodexTotals s) + map_sum (fun a => tot_Input (AccTotals a)) (s_Usage s)))
             (wrap64 (tot_Output (s_CodexTotals s) + map_sum (fun a => tot_Output (AccTotals a)) (s_Usage s)))
             (wrap64 (tot_Total (s_CodexTotals s) + map_sum (fun a => tot_Total (AccTotals a)) (s_Usage s))) /\
  snap_CodexRunning (Snapshot s) = wrap64 (s_CodexRuntime s + map_sum (fun d => d) (s_Runtime s)).
Proof.
  intros [(Hi & Ho & Ht) Hr]. cbn. rewrite fold_totals.
  rewrite !(range_sum_wrap (fun a => tot_Input (AccTotals a))) by done.
  rewrite !(range_sum_wrap (fun a => tot_Output (AccTotals a))) by done.
  rewrite !(range_sum_wrap (fun a => tot_Total (AccTotals a))) by done.
  by rewrite (range_sum_wrap (fun d : Duration => d)).
Qed.

(** [t] reports the same totals as [s]. *)
Definition conserves (s t : State) : Prop :=
  counters_ok s -> counters_ok t /\
    snap_CodexTotals (Snapshot t) = snap_CodexTotals (Snapshot s) /\
    snap_CodexRunning (Snapshot t) = snap_CodexRunning (Snapshot s).

Lemma conserves_same s t :
  s_Usage t = s_Usage s -> s_Runtime t = s_Runtime s -> s_CodexTotals t = s_CodexTotals s ->
  s_CodexRuntime t = s_CodexRuntime s -> conserves s t.
Proof.
  intros E1 E2 E3 E4 Hok. unfold counters_ok, Snapshot in *. cbn. by rewrite E1, E2, E3, E4.
Qed.

Lemma conserves_trans s1 s2 s3 : conserves s1 s2 -> conserves s2 s3 -> conserves s1 s3.
Proof.
  intros H12 H23 Hok. destruct (H12 Hok) as (Hok2 & E1 & E2).
  destruct (H23 Hok2) as (Hok3 & -> & ->). by rewrite E1, E2.
Qed.

Lemma wrap_move a v r : wrap64 (wrap64 (a + v) + r) = wrap64 (a + (v + r)).
Proof. rewrite wrap64_wrap64_l. f_equal. lia. Qed.

(** Releasing a claim moves the issue's counters into the rolled-up ones. *)
Lemma roll_up_usage s id acc :
  s_Usage s !! id = Some acc ->
  conserves s (s <| s_CodexTotals := add_totals (s_CodexTotals s) (AccTotals acc) |>
                 <| s_Usage := withoutKey (s_Usage s) id |>).
Proof.
  intros Ha Hok.
  assert (counters_ok (s <| s_CodexTotals := add_totals (s_CodexTotals s) (AccTotals acc) |>
    <| s_Usage := withoutKey (s_Usage s) id |>)) as Hok'.
  { split; [|apply Hok]. cbn. repeat split; cbn; apply wrap64_idemp. }
  split; [done|]. destruct (Snapshot_totals _ Hok') as [-> ->], (Snapshot_totals _ Hok) as [-> ->].
  split; [|done]. cbn. unfold withoutKey.
  rewrite !(map_sum_delete _ (s_Usage s) id acc Ha). by rewrite !wrap_move.
Qed.

Lemma roll_up_runtime s id d :
  s_Runtime s !! id = Some d ->
  conserves s (s <| s_CodexRuntime := wrap64 (s_CodexRuntime s + d) |>
                 <| s_Runtime := withoutKey (s_Runtime s) id |>).
Proof.
  intros Ha Hok.
  assert (counters_ok (s <| s_CodexRuntime := wrap64 (s_CodexRuntime s + d) |>
    <| s_Runtime := withoutKey (s_Runtime s) id |>)) as Hok'.
  { split; [apply Hok|]. cbn. apply wrap64_idemp. }
  split; [done|]. destruct (Snapshot_totals _ Hok') as [-> ->], (Snapshot_totals _ Hok) as [-> ->].
  split; [done|]. cbn. unfold withoutKey.
  rewrite (map_sum_delete _ (s_Runtime s) id d Ha). by rewrite wrap_move.
Qed.

Lemma releaseClaim_conserves s id : conserves s (releaseClaim s id).
Proof.
  unfold releaseClaim.
  set (s1 := match s_Usage s !! id with Some _ => _ | None => _ end).
  set (s2 := match s_Runtime s1 !! id with Some _ => _ | None => _ end).
  assert (conserves s s1) as H1.
  { subst s1. destruct (s_Usage s !! id) as [acc|] eqn:E; [by apply roll_up_usage|by apply conserves_same]. }
  assert (conserves s1 s2) as H2.
  { subst s2. destruct (s_Runtime s1 !! id) as [d|] eqn:E; [by apply roll_up_runtime|by apply conserves_same]. }
  eapply conserves_trans; [eapply conserves_trans; [exact H1|exact H2]|]. by apply conserves_same.
Qed.

Lemma kill_retry_conserves s effs id att cause reason cfg now :
  conserves s (reconcileKillRetry s effs id att cause reason cfg now).1.
Proof.
  unfold reconcileKillRetry, workerExitAbnormal.
  destruct (s_Running s !! id); by apply conserves_same.
Qed.

Lemma foldl_conserves {X} (f : State * list Effect -> X -> State * list Effect) l acc :
  (forall acc x, conserves acc.1 (f acc x).1) -> conserves acc.1 (foldl f acc l).1.
Proof.
  intros Hf. revert acc. induction l as [|x l IH]; intros acc; [by apply conserves_same|].
  cbn. eapply conserves_trans; [apply Hf|apply IH].
Qed.

Lemma dispatch_loop_conserves cfg l s avail used effs :
  conserves s (dispatch_loop cfg l s avail used effs).1.
Proof.
  revert s avail used effs. induction l as [|iss l IH]; intros; cbn; [by apply conserves_same|].
  destruct (avail <=? 0); [by apply conserves_same|]. destruct (_ <=? _); [apply IH|].
  unfold claim. repeat case_decide; [apply IH..|].
  eapply conserves_trans; [|apply IH]. by apply conserves_same.
Qed.

(** The cumulative totals of a snapshot are conserved: no event but an
    agent's usage report changes the reported token and runtime totals (64-bit
    counters), whatever is dispatched, retried, killed or released. *)
Theorem Reduce_conserves_totals s ev cfg now :
  counters_ok s ->
  (forall id e m ts u rl d c, ev <> EvCodexActivity id e m ts u rl d c) ->
  counters_ok (Reduce s ev cfg now).1 /\
  snap_CodexTotals (Snapshot (Reduce s ev cfg now).1) = snap_CodexTotals (Snapshot s) /\
  snap_CodexRunning (Snapshot (Reduce s ev cfg now).1) = snap_CodexRunning (Snapshot s).
Proof.
  intros Hok Hev. revert Hok. change (conserves s (Reduce s ev cfg now).1).
  destruct ev; cbn [Reduce]; [..|naive_solver].
  - unfold reduceTick, reduceStall. destruct (_ <=? 0); [by apply conserves_same|].
    pose proof (foldl_conserves (stall_one cfg now
      (wrap64 (cc_StallTimeoutMS (cfg_Codex cfg) * Millisecond))) (sortedRunningIDs s) (s, [])) as Hf.
    destruct (foldl _ _ _) as [s' effs]. apply Hf. intros [s1 e1] id. rewrite stall_one_alt.
    repeat case_match; try by apply conserves_same. apply kill_retry_conserves.
  - apply dispatch_loop_conserves.
  - unfold reduceTrackerRefreshed. apply (foldl_conserves _ _ (s, [])). intros [s1 e1] id.
    unfold refresh_one, updateIssueSnapshot. destruct (s_Running s1 !! id); [|by apply conserves_same].
    destruct (issues_by_id Issues !! id); [|apply kill_retry_conserves].
    destruct (bool_decide _); [apply releaseClaim_conserves|].
    destruct (bool_decide _); [by apply conserves_same|apply kill_retry_conserves].
  - unfold reduceRevalidated. repeat case_match; (apply releaseClaim_conserves || by apply conserves_same).
  - unfold reduceRetryResolved, claimFromRetry.
    repeat (case_match || case_decide); simplify_eq; (apply releaseClaim_conserves || by apply conserves_same).
  - by apply conserves_same.
  - eapply conserves_trans; [apply releaseClaim_conserves|by apply conserves_same].
  - unfold reduceWorkerExit, workerExitNormal, workerExitAbnormal.
    destruct Err; destruct (s_Running s !! _); by apply conserves_same.
  - by apply conserves_same.
Qed.
End Conservation.

(** ** Failed spawns and late worker exits *)

Section Findings.
Context `{UnicodeTables}.
Implicit Types s : State.

Lemma releaseClaim_gone s id :
  (id ∉ s_Claimed (releaseClaim s id)) /\ (forall iss a, EffSpawn iss a ∉ []) /\
  s_RetryAttempts (releaseClaim s id) !! id = None.
Proof. autorewrite with agrid. split_and!; [set_solver|set_solver|apply lookup_delete_eq]. Qed.

(** C38: a failed spawn releases the claim and queues the issue, but the retry
    path demands the claim.  So whatever the retry's fetch brings, the retry does not
    spawn the issue and does not claim it again.  When the fetch worked, the issue is
    still active and not terminal and a slot is free, the reducer changes nothing and
    asks for nothing: no timer is armed again, while the queue entry keeps the issue
    from being eligible.  When the fetch failed or no slot is free the issue is queued
    again, for another retry of the same kind; only when it is gone, terminal or no
    longer active is it released. *)
Theorem spawn_failed_stranded s issue att err cfg now ident att' issues fetchErr cfg' now' :
  let id := iss_ID issue in
  let s1 := (Reduce s (EvSpawnFailed issue att err) cfg now).1 in
  let '(s2, effs) := Reduce s1 (EvRetryResolved id ident att' issues fetchErr) cfg' now' in
  let ready found :=
    bool_decide (ToLower (iss_State found) ∈ normSet (tc_ActiveStates (cfg_Tracker cfg')))
    && negb (bool_decide (ToLower (iss_State found) ∈ normSet (tc_TerminalStates (cfg_Tracker cfg')))) in
  (forall iss active terminal, iss_ID iss = id -> eligible iss s1 active terminal = false) /\
  (id ∉ s_Claimed s1) /\ (id ∉ s_Claimed s2) /\ (forall iss a, EffSpawn iss a ∉ effs) /\
  match fetchErr, findIssue issues id with
  | Some _, _ => is_Some (s_RetryAttempts s2 !! id)
  | None, Some found =>
      if ready found then
        if retryReclaimHasSlot s1 cfg' id (iss_State found) then s2 = s1 /\ effs = []
        else is_Some (s_RetryAttempts s2 !! id)
      else s_RetryAttempts s2 !! id = None
  | None, None => s_RetryAttempts s2 !! id = None
  end.
Proof.
  intros id s1.
  assert (is_Some (s_RetryAttempts s1 !! id)) as Hq.
  { unfold s1, withKey. cbn. unfold withKey. rewrite lookup_insert_eq. eauto. }
  assert (id ∉ s_Claimed s1) as HC.
  { unfold s1. cbn. autorewrite with agrid. set_solver. }
  destruct (Reduce s1 _ cfg' now') as [s2 effs] eqn:E. intros ready.
  split; [|split; [exact HC|]].
  { intros iss active terminal Hid. apply not_true_is_false. intros He.
    apply eligible_inv in He as (_&_&_&_&Hn&_). rewrite Hid in Hn. rewrite Hn in Hq. by destruct Hq. }
  clearbody s1. revert E. cbn [Reduce]. unfold reduceRetryResolved, armRetry, withKey.
  destruct fetchErr as [e|].
  { intros [= <- <-]. cbn. rewrite lookup_insert_eq. split_and!; [done| |eauto]. set_solver. }
  destruct (findIssue issues id) as [found|].
  2:{ intros [= <- <-]. apply releaseClaim_gone. }
  unfold ready. destruct (bool_decide (_ ∈ normSet (tc_TerminalStates _))), (bool_decide (_ ∈ normSet (tc_ActiveStates _)));
    cbn [negb orb andb]; try (intros [= <- <-]; apply releaseClaim_gone).
  destruct (retryReclaimHasSlot _ _ _ _); cbn [negb].
  - unfold claimFromRetry. repeat case_decide; try done; intros [= <- <-]; split_and!; try done; set_solver.
  - intros [= <- <-]. cbn. rewrite lookup_insert_eq. split_and!; [done| |eauto]. set_solver.
Qed.

(** C39: a worker exit is matched by issue id alone: the exit of an earlier
    attempt, arriving after the issue was dispatched again, takes the newer run
    out of [Running] and queues another retry, with no effect that stops the
    newer worker. *)
Theorem late_exit_ends_newer_run s id run e att cfg now :
  s_Running s !! id = Some run -> att <> run_Attempt run ->
  let '(s', effs) := Reduce s (EvWorkerExit id (Some e) att) cfg now in
  s_Running s' = delete id (s_Running s) /\
  s_RetryAttempts s' !! id = Some (killed_entry run id att e cfg now) /\
  Forall (fun eff => forall reason, eff <> EffKillWorker id reason) effs.
Proof.
  intros Hr _. cbn. unfold reduceWorkerExit, workerExitAbnormal. rewrite Hr. cbn. split_and!.
  - done.
  - unfold withKey. by rewrite lookup_insert_eq.
  - by repeat constructor.
Qed.
End Findings.

(** ** Witnesses *)
Module FactsDemo.
Import SchedDemo.

Lemma backoffDelay_exact_witness :
  backoffDelay 3 demo_config = 40 * Second /\ backoffDelay 9 demo_config = 300 * Second.
Proof.
  split.
  - destruct (backoffDelay_exact demo_config 3) as [-> _]; [lia|by vm_compute|by vm_compute].
  - destruct (backoffDelay_exact demo_config 9) as [-> _]; [lia|by vm_compute|by vm_compute].
Defined.

(** A running issue. *)
Definition demo_state : State :=
  markRunning (claim NewState (demo_issue "a" 1)).1 (demo_issue "a" 1) 2
    (mkLiveSession "" "" "" (1000 * Second)).

Definition demo_done : Issue :=
  mkIssue "a" "AG-a" "title" "" None "Done" "" "" [] [] (mkProject "" "") 0 0.

Lemma reduceTrackerRefreshed_spec_witness :
  s_Running demo_state !! "a" <> None /\
  issue_view (reduceTrackerRefreshed demo_state ["a"] [demo_done] demo_config 0).1 "a"
    = (None, None, false).
Proof.
  split; [by vm_compute|].
  pose proof (reduceTrackerRefreshed_spec demo_state ["a"] [demo_done] demo_config 0
    (NoDup_singleton _)) as Hs.
  destruct (reduceTrackerRefreshed _ _ _ _ _) as [s' effs]. destruct Hs as [Hv _].
  cbn [fst]. rewrite Hv. by vm_compute.
Defined.

Lemma Reduce_conserves_totals_witness :
  snap_CodexRunning (Snapshot (H := canonical_range)
    (Reduce (addRuntime demo_state "a" 7) (EvTrackerRefreshed ["a"] [demo_done]) demo_config 0).1) = 7.
Proof.
  destruct (Reduce_conserves_totals (H := canonical_range) (addRuntime demo_state "a" 7)
    (EvTrackerRefreshed ["a"] [demo_done]) demo_config 0) as (_ & _ & ->); [by vm_compute|done|].
  by vm_compute.
Defined.

Lemma spawn_failed_stranded_witness :
  let s1 := (Reduce (claim NewState (demo_issue "a" 1)).1
               (EvSpawnFailed (demo_issue "a" 1) 0 None) demo_config 0).1 in
  Reduce s1 (EvRetryResolved "a" "AG-a" 1 [demo_issue "a" 1] None) demo_config 0 = (s1, []).
Proof.
  pose proof (spawn_failed_stranded (claim NewState (demo_issue "a" 1)).1 (demo_issue "a" 1) 0 None
    demo_config 0 "AG-a" 1 [demo_issue "a" 1] None demo_config 0) as Hs. cbv zeta in Hs |- *.
  destruct (Reduce _ (EvRetryResolved _ _ _ _ _) _ _) as [s2 effs].
  destruct Hs as (_ & _ & _ & _ & Hs). vm_compute in Hs. destruct Hs as [-> ->]. by vm_compute.
Defined.

Lemma late_exit_ends_newer_run_witness :
  s_Running (Reduce demo_state (EvWorkerExit "a" (Some ErrStall) 0) demo_config 0).1
  = delete "a" (s_Running demo_state).
Proof.
  pose proof (late_exit_ends_newer_run demo_state "a"
    (default zero_run (s_Running demo_state !! "a")) ErrStall 0 demo_config 0) as Hl.
  destruct (Reduce _ _ _ _) as [s' effs]. apply Hl; by vm_compute.
Defined.

End FactsDemo.
