(* ===== verification/GoStd.v ===== *)
(** * Standard library functions the host reducer calls

    FNV-1a (hash/fnv), SHA-256 (crypto/sha256), the decoding of a string into
    runes and back (unicode/utf8, as [[]rune(s)] and [string(r)] do it),
    [strings.Join] and [fmt]'s [%d].  They are executable and checked against
    published test vectors. *)

From Stdlib Require Import String.
From stdpp Require Import pretty.
From S2P Require Import Prelude.

(** ** Bytes *)

Definition byte_Z (c : ascii) : Z := Z.of_N (N_of_ascii c).
Definition Z_byte (z : Z) : ascii := ascii_of_N (Z.to_N (z mod 256)).

Definition bytes_of (s : string) : list Z := byte_Z <$> list_ascii_of_string s.
Definition of_bytes (l : list Z) : string := string_of_list_ascii (Z_byte <$> l).

Definition hex_digit (z : Z) : ascii := Z_byte (if z <? 10 then 48 + z else 87 + z).

Definition hex_encode (l : list Z) : string :=
  string_of_list_ascii (b ← l; [hex_digit (b / 16); hex_digit (b mod 16)]).

(** [fmt.Sprintf("%d", z)] *)
Definition show_int (z : Z) : string := pretty z.

(** [strings.Join] *)
Fixpoint strings_Join (elems : list string) (sep : string) : string :=
  match elems with
  | [] => ""
  | [s] => s
  | s :: rest => s +:+ sep +:+ strings_Join rest sep
  end.

(** ** FNV-1a, 32 bits *)

Definition fnv32a (s : string) : Z :=
  foldl (fun h b => (Z.lxor h b * 16777619) mod 2 ^ 32) 2166136261 (bytes_of s).

(** ** SHA-256 *)

Module Sha256.

Definition add32 (a b : Z) : Z := (a + b) mod 2 ^ 32.
Definition rotr (n x : Z) : Z := Z.lor (Z.shiftr x n) (Z.shiftl x (32 - n) mod 2 ^ 32).
Definition not32 (x : Z) : Z := 2 ^ 32 - 1 - x.

Definition Ch (x y z : Z) : Z := Z.lxor (Z.land x y) (Z.land (not32 x) z).
Definition Maj (x y z : Z) : Z := Z.lxor (Z.lxor (Z.land x y) (Z.land x z)) (Z.land y z).
Definition S0 (x : Z) : Z := Z.lxor (Z.lxor (rotr 2 x) (rotr 13 x)) (rotr 22 x).
Definition S1 (x : Z) : Z := Z.lxor (Z.lxor (rotr 6 x) (rotr 11 x)) (rotr 25 x).
Definition s0 (x : Z) : Z := Z.lxor (Z.lxor (rotr 7 x) (rotr 18 x)) (Z.shiftr x 3).
Definition s1 (x : Z) : Z := Z.lxor (Z.lxor (rotr 17 x) (rotr 19 x)) (Z.shiftr x 10).

(** The constants as the standard derives them: the first 32 bits of the fractional
    parts of the cube roots of the first 64 primes ([K]) and of the square roots of
    the first eight ([H0]).  [int_root pow n] is the largest integer below 2^48
    whose power is at most [n]. *)
Definition int_root (pow : Z -> Z) (n : Z) : Z :=
  foldr (fun bit acc => if pow (acc + 2 ^ bit) <=? n then acc + 2 ^ bit else acc) 0
    (Z.of_nat <$> seq 0 48).
Definition primes (below : nat) : list Z :=
  Z.of_nat <$> base.filter (fun p => Forall (fun d => ~ (p mod d = 0)%nat) (seq 2 (p - 2)))
    (seq 2 (below - 2)).

Definition K : list Z := Eval vm_compute in
  (fun p => int_root (fun x => x * x * x) (p * 2 ^ 96) mod 2 ^ 32) <$> primes 312.
Definition H0 : list Z := Eval vm_compute in
  (fun p => int_root (fun x => x * x) (p * 2 ^ 64) mod 2 ^ 32) <$> primes 20.

(** The message, a one bit, zeros, and the length in bits on 8 bytes. *)
Definition pad (msg : list Z) : list Z :=
  let n := Z.of_nat (length msg) in
  msg ++ [128] ++ replicate (Z.to_nat ((55 - n) mod 64)) 0
  ++ ((fun i => Z.shiftr (8 * n) (8 * i) mod 256) <$> [7; 6; 5; 4; 3; 2; 1; 0]).

Fixpoint chunks (n fuel : nat) (l : list Z) : list (list Z) :=
  match fuel with
  | O => []
  | S fuel => match l with [] => [] | _ => take n l :: chunks n fuel (drop n l) end
  end.

Definition word (l : list Z) : Z := foldl (fun acc b => acc * 256 + b) 0 l.

(** The schedule, newest word first. *)
Fixpoint extend (fuel : nat) (w : list Z) : list Z :=
  match fuel with
  | O => w
  | S fuel =>
    let g i := nth i w 0 in
    extend fuel (add32 (add32 (s1 (g 1%nat)) (g 6%nat)) (add32 (s0 (g 14%nat)) (g 15%nat)) :: w)
  end.

Definition round (st : list Z) (kw : Z * Z) : list Z :=
  match st with
  | [a; b; c; d; e; f; g; h] =>
    let t1 := add32 (add32 (add32 h (S1 e)) (add32 (Ch e f g) kw.1)) kw.2 in
    let t2 := add32 (S0 a) (Maj a b c) in
    [add32 t1 t2; a; b; c; add32 d t1; e; f; g]
  | _ => st
  end.

Definition block (st : list Z) (msg : list Z) : list Z :=
  let w := rev (extend 48 (rev (word <$> chunks 4 16 msg))) in
  zip_with add32 st (foldl round st (zip K w)).

Definition sum (msg : list Z) : list Z :=
  let padded := pad msg in
  let st := foldl block H0 (chunks 64 (length padded) padded) in
  w ← st; (fun i => Z.shiftr w (8 * i) mod 256) <$> [3; 2; 1; 0].

Definition hex (s : string) : string := hex_encode (sum (bytes_of s)).

Example sha256_empty :
  hex "" = "e3b0c44298fc1c149afbf4c8996fb92427ae41e4649b934ca495991b7852b855".
Proof. vm_compute. reflexivity. Qed.

Example sha256_abc :
  hex "abc" = "ba7816bf8f01cfea414140de5dae2223b00361a396177a9cb410ff61f20015ad".
Proof. vm_compute. reflexivity. Qed.

Example sha256_two_blocks :
  hex "abcdbcdecdefdefgefghfghighijhijkijkljklmklmnlmnomnopnopq"
  = "248d6a61d20638b8e5c026930c3e6039a33ce45964ff2167f6ecedd419db06c1".
Proof. vm_compute. reflexivity. Qed.

End Sha256.

(** ** Runes *)

Definition RuneError : Z := 0xfffd.

Definition in_range (lo hi b : Z) : bool := (lo <=? b) && (b <=? hi).

(** [utf8.DecodeRune]: the rune at the head of the bytes and the bytes left;
    an invalid or truncated sequence is one byte of [RuneError]. *)
Definition decode_rune (b0 : Z) (rest : list Z) : Z * list Z :=
  let bad := (RuneError, rest) in
  let cont := in_range 0x80 0xbf in
  if b0 <? 0x80 then (b0, rest)
  else if in_range 0xc2 0xdf b0 then
    match rest with
    | b1 :: r => if cont b1 then ((b0 mod 32) * 64 + b1 mod 64, r) else bad
    | _ => bad
    end
  else if in_range 0xe0 0xef b0 then
    match rest with
    | b1 :: b2 :: r =>
      let lo := if b0 =? 0xe0 then 0xa0 else 0x80 in
      let hi := if b0 =? 0xed then 0x9f else 0xbf in
      if in_range lo hi b1 && cont b2
      then ((b0 mod 16) * 4096 + (b1 mod 64) * 64 + b2 mod 64, r) else bad
    | _ => bad
    end
  else if in_range 0xf0 0xf4 b0 then
    match rest with
    | b1 :: b2 :: b3 :: r =>
      let lo := if b0 =? 0xf0 then 0x90 else 0x80 in
      let hi := if b0 =? 0xf4 then 0x8f else 0xbf in
      if in_range lo hi b1 && cont b2 && cont b3
      then ((b0 mod 8) * 262144 + (b1 mod 64) * 4096 + (b2 mod 64) * 64 + b3 mod 64, r) else bad
    | _ => bad
    end
  else bad.

(** Every rune uses at least one byte, so the number of bytes is enough fuel. *)
Fixpoint decode_runes (fuel : nat) (l : list Z) : list Z :=
  match fuel, l with
  | S fuel, b0 :: rest => let '(r, rest) := decode_rune b0 rest in r :: decode_runes fuel rest
  | _, _ => []
  end.

Definition runes (s : string) : list Z :=
  let l := bytes_of s in decode_runes (length l) l.

(** [utf8.AppendRune]; decoded runes are never surrogates or out of range. *)
Definition encode_rune (r : Z) : list Z :=
  if r <? 0x80 then [r]
  else if r <? 0x800 then [0xc0 + r / 64; 0x80 + r mod 64]
  else if r <? 0x10000 then [0xe0 + r / 4096; 0x80 + (r / 64) mod 64; 0x80 + r mod 64]
  else [0xf0 + r / 262144; 0x80 + (r / 4096) mod 64; 0x80 + (r / 64) mod 64; 0x80 + r mod 64].

Definition string_of_runes (l : list Z) : string := of_bytes (r ← l; encode_rune r).

Example runes_mixed : runes "a…é" = [97; 0x2026; 0xe9].
Proof. reflexivity. Qed.

Example runes_invalid : runes (of_bytes [97; 0x80; 0xe2; 0x80]) = [97; RuneError; RuneError; RuneError].
Proof. reflexivity. Qed.

Example runes_roundtrip : string_of_runes (runes "a…é") = "a…é".
Proof. vm_compute. reflexivity. Qed.

Example fnv32a_vectors : fnv32a "" = 0x811c9dc5 /\ fnv32a "a" = 0xe40c292c /\ fnv32a "foobar" = 0xbf9cf968.
Proof. vm_compute. auto. Qed.
