(* ===== verification/HostState.v ===== *)
(** * host/state: domain state, events and effects

    Model of the data of src/services/host/state: the session graph, human-input
    requests, surface subscriptions, jobs, repository preparations, the events
    [Reduce] accepts and the effects it returns, and the driver interface of
    driver_iface.go.  A driver is an arbitrary record of functions over an
    abstract state, exactly as the Go interface leaves it; nil interface values
    and nil pointers are [None].  Nil and empty maps and slices are identified,
    since the package never distinguishes them. *)

From S2P Require Import Prelude.

(** ** Identifiers *)

Abbreviation SessionID := string (only parsing).
Abbreviation FrameID := string (only parsing).
Abbreviation SubsystemID := string (only parsing).
Abbreviation TargetID := string (only parsing).
Abbreviation SubscriberID := string (only parsing).
Abbreviation ConnID := Z (only parsing).
Abbreviation JobID := Z (only parsing).
Abbreviation ApprovalID := string (only parsing).
Abbreviation QuestionID := string (only parsing).

(** ** Launch data (driver_iface.go) *)

Record LaunchOptions := mkLaunchOptions {
  lo_WorktreeEnabled : bool; lo_InitialInput : string; lo_Cols : Z; lo_Rows : Z }.

#[export] Instance eta_LaunchOptions : Eta LaunchOptions := fun r =>
  mkLaunchOptions (lo_WorktreeEnabled r) (lo_InitialInput r) (lo_Cols r) (lo_Rows r).

Definition zero_options : LaunchOptions := mkLaunchOptions false "" 0 0.

Inductive LaunchMode := LaunchModeCreate | LaunchModeColdStart | LaunchModeWarmStart.
Inductive LaunchSubsystem := LaunchSubsystemCLI | LaunchSubsystemStream.

Record ResumeTarget := mkResumeTarget { rt_ThreadID : string; rt_RolloutPath : string }.

Record StreamLaunchOptions := mkStreamLaunchOptions {
  slo_DangerouslyBypassPermissions : bool; slo_ResumeTarget : ResumeTarget;
  slo_ColdStartSessionID : string }.

Record LaunchPlan := mkLaunchPlan {
  lp_Command : string; lp_Argv : list string; lp_PreCommands : list (list string);
  lp_PreCommandTimeout : Duration; lp_StartDir : string; lp_Project : string;
  lp_Options : LaunchOptions; lp_Subsystem : LaunchSubsystem;
  lp_Stream : StreamLaunchOptions; lp_ManagedMCPTools : list string; lp_Stdin : string }.

#[export] Instance eta_LaunchPlan : Eta LaunchPlan := fun r =>
  mkLaunchPlan (lp_Command r) (lp_Argv r) (lp_PreCommands r) (lp_PreCommandTimeout r)
    (lp_StartDir r) (lp_Project r) (lp_Options r) (lp_Subsystem r) (lp_Stream r)
    (lp_ManagedMCPTools r) (lp_Stdin r).

Record CreateLaunch := mkCreateLaunch {
  cl_Command : string; cl_StartDir : string; cl_Options : LaunchOptions }.

(** ** Human-input requests (approval_request.go, question_request.go) *)

Inductive RequestStatus := Pending | Resolved | Expired | Cancelled.

Inductive ApprovalDecision := DecisionNone | DecisionAccept | DecisionDeny
| DecisionOther (text : string).

Inductive ResolutionReason := ReasonNone | ReasonClient | ReasonExpired | ReasonCancelled
| ReasonAuto | ReasonServer.

#[export] Instance RequestStatus_eq_dec : EqDecision RequestStatus.
Proof. solve_decision. Defined.
#[export] Instance ApprovalDecision_eq_dec : EqDecision ApprovalDecision.
Proof. solve_decision. Defined.
#[export] Instance ResolutionReason_eq_dec : EqDecision ResolutionReason.
Proof. solve_decision. Defined.

Record ApprovalRequest := mkApproval {
  ap_ID : ApprovalID; ap_SessionID : SessionID; ap_FrameID : FrameID;
  ap_Kind : string; ap_Command : string; ap_Path : string; ap_Reason : string;
  ap_CreatedAt : Time; ap_ExpiresAt : Time; ap_Status : RequestStatus;
  ap_DefaultDecision : ApprovalDecision; ap_Decision : ApprovalDecision;
  ap_ResolvingClientInstanceID : string; ap_ResolutionReason : ResolutionReason }.

#[export] Instance eta_Approval : Eta ApprovalRequest := fun r =>
  mkApproval (ap_ID r) (ap_SessionID r) (ap_FrameID r) (ap_Kind r) (ap_Command r) (ap_Path r)
    (ap_Reason r) (ap_CreatedAt r) (ap_ExpiresAt r) (ap_Status r) (ap_DefaultDecision r)
    (ap_Decision r) (ap_ResolvingClientInstanceID r) (ap_ResolutionReason r).

Record QuestionRequest := mkQuestion {
  qu_ID : QuestionID; qu_SessionID : SessionID; qu_FrameID : FrameID; qu_Prompt : string;
  qu_CreatedAt : Time; qu_ExpiresAt : Time; qu_Status : RequestStatus; qu_Answer : string;
  qu_ResolvingClientInstanceID : string; qu_ResolutionReason : ResolutionReason }.

#[export] Instance eta_Question : Eta QuestionRequest := fun r =>
  mkQuestion (qu_ID r) (qu_SessionID r) (qu_FrameID r) (qu_Prompt r) (qu_CreatedAt r)
    (qu_ExpiresAt r) (qu_Status r) (qu_Answer r) (qu_ResolvingClientInstanceID r)
    (qu_ResolutionReason r).

(** ** Frame messaging (frame_messaging.go) *)

Record FrameMessagingSummary := mkSummary {
  su_UnreadCount : Z; su_LatestMessagePreview : string; su_LatestReplyPreview : string;
  su_PendingDeliveryCount : Z; su_LastDeliveryStatus : string }.

#[export] Instance eta_Summary : Eta FrameMessagingSummary := fun r =>
  mkSummary (su_UnreadCount r) (su_LatestMessagePreview r) (su_LatestReplyPreview r)
    (su_PendingDeliveryCount r) (su_LastDeliveryStatus r).

Record FrameReply := mkFrameReply {
  fr_ID : string; fr_SourceFrameID : FrameID; fr_Body : string; fr_FinalAnswer : string;
  fr_CreatedAt : Time; fr_Resolution : string; fr_Confidence : string;
  fr_FinalAnswerPreview : string }.

Record FrameMessage := mkFrameMessage {
  fm_ID : string; fm_SourceFrameID : FrameID; fm_TargetFrameID : FrameID; fm_Topic : string;
  fm_Body : string; fm_Priority : string; fm_CreatedAt : Time; fm_Read : bool;
  fm_ReplyStatus : string; fm_DeliveryStatus : string; fm_Reply : option FrameReply }.

#[export] Instance eta_FrameMessage : Eta FrameMessage := fun r =>
  mkFrameMessage (fm_ID r) (fm_SourceFrameID r) (fm_TargetFrameID r) (fm_Topic r) (fm_Body r)
    (fm_Priority r) (fm_CreatedAt r) (fm_Read r) (fm_ReplyStatus r) (fm_DeliveryStatus r)
    (fm_Reply r).

Record SessionFrameMessaging := mkMessaging {
  ms_Summary : FrameMessagingSummary; ms_Messages : list FrameMessage }.

(** ** Resume capsules (resumecapsule.go) *)

Record ResumeCapsule := mkCapsule {
  rc_Objective : string; rc_CurrentState : string; rc_NextAction : string;
  rc_Unresolved : list string; rc_Changed : list string; rc_Verified : list string;
  rc_Remaining : list string; rc_Attention : string; rc_GeneratedAt : Time;
  rc_SourceDigest : string; rc_SourceTurns : Z; rc_FlaggedWrong : bool;
  rc_FlaggedAt : Time; rc_LastError : string; rc_LastErrorAt : Time }.

#[export] Instance eta_Capsule : Eta ResumeCapsule := fun r =>
  mkCapsule (rc_Objective r) (rc_CurrentState r) (rc_NextAction r) (rc_Unresolved r)
    (rc_Changed r) (rc_Verified r) (rc_Remaining r) (rc_Attention r) (rc_GeneratedAt r)
    (rc_SourceDigest r) (rc_SourceTurns r) (rc_FlaggedWrong r) (rc_FlaggedAt r)
    (rc_LastError r) (rc_LastErrorAt r).

Definition zero_capsule : ResumeCapsule := mkCapsule "" "" "" [] [] [] [] "" 0 "" 0 false 0 "" 0.

Record CapsuleTurn := mkCapsuleTurn { ct_Role : string; ct_Text : string }.

Record CapsuleJobInput := mkCapsuleJobInput {
  cji_SessionID : SessionID; cji_Prompt : string; cji_SourceDigest : string;
  cji_SourceTurns : Z }.

Record CapsuleJobResult := mkCapsuleJobResult {
  cjr_Objective : string; cjr_CurrentState : string; cjr_NextAction : string;
  cjr_Unresolved : list string; cjr_Changed : list string; cjr_Verified : list string;
  cjr_Remaining : list string; cjr_Attention : string; cjr_SourceDigest : string;
  cjr_SourceTurns : Z }.

(** ** Repository preparations (repository.go) *)

Record GitHubRepositoryIdentity := mkRepo {
  gh_ID : string; gh_Owner : string; gh_Name : string }.

Definition RepoValid (r : GitHubRepositoryIdentity) : bool :=
  negb (bool_decide (gh_ID r = "")) && negb (bool_decide (gh_Owner r = ""))
  && negb (bool_decide (gh_Name r = "")).

Inductive PreparationStage :=
| PrepStageConfirmed | PrepStageCloneInProgress | PrepStageCloneReady | PrepStageFailed
| PrepStageCancelled | PrepStageInterrupted | PrepStageInternalCorruption
| PrepStageAvailable | PrepStageAbandoned.

#[export] Instance PreparationStage_eq_dec : EqDecision PreparationStage.
Proof. solve_decision. Defined.

Definition stage_string (st : PreparationStage) : string :=
  match st with
  | PrepStageConfirmed => "confirmed" | PrepStageCloneInProgress => "clone-in-progress"
  | PrepStageCloneReady => "clone-ready" | PrepStageFailed => "failed"
  | PrepStageCancelled => "cancelled" | PrepStageInterrupted => "interrupted"
  | PrepStageInternalCorruption => "internal_corruption" | PrepStageAvailable => "available"
  | PrepStageAbandoned => "abandoned"
  end.

Definition stage_IsSessionAvailable (st : PreparationStage) : bool :=
  bool_decide (st = PrepStageAvailable).

Definition IsTerminal (st : PreparationStage) : bool :=
  match st with
  | PrepStageAvailable | PrepStageAbandoned | PrepStageInternalCorruption => true
  | _ => false
  end.

(** Failure codes are strings: workers may send any. *)
Definition PrepFailureNone : string := "".
Definition PrepFailureInvalidIdentity : string := "invalid_identity".
Definition PrepFailureCloneFailed : string := "clone_failed".
Definition PrepFailureLaunchFailed : string := "launch_failed".
Definition PrepFailureCancelled : string := "cancelled".
Definition PrepFailureInterrupted : string := "interrupted".
Definition PrepFailureInternalCorrupt : string := "internal_corruption".
Definition PrepFailureIncompleteCommit : string := "incomplete_commit_evidence".
Definition PrepFailureIllegalTransition : string := "illegal_transition".

Inductive RetryOrigin := RetryOriginNone | RetryOriginClone | RetryOriginLaunch.

#[export] Instance RetryOrigin_eq_dec : EqDecision RetryOrigin.
Proof. solve_decision. Defined.

Definition origin_string (o : RetryOrigin) : string :=
  match o with RetryOriginNone => "" | RetryOriginClone => "clone" | RetryOriginLaunch => "launch" end.

Record CreationIntent := mkIntent {
  ci_ID : string; ci_ServerID : string; ci_Repository : GitHubRepositoryIdentity;
  ci_Fingerprint : string; ci_Command : string }.

Record RepositoryPreparation := mkPrep {
  pr_ID : string; pr_IntentID : string; pr_ServerID : string;
  pr_Repository : GitHubRepositoryIdentity; pr_Stage : PreparationStage;
  pr_FailureCode : string; pr_RetryOrigin : RetryOrigin; pr_Revision : Z;
  pr_LastOwnedWorkerGeneration : Z; pr_ClonePath : string; pr_SessionID : SessionID;
  pr_CloneDurable : bool; pr_LaunchSucceeded : bool }.

#[export] Instance eta_Prep : Eta RepositoryPreparation := fun r =>
  mkPrep (pr_ID r) (pr_IntentID r) (pr_ServerID r) (pr_Repository r) (pr_Stage r)
    (pr_FailureCode r) (pr_RetryOrigin r) (pr_Revision r) (pr_LastOwnedWorkerGeneration r)
    (pr_ClonePath r) (pr_SessionID r) (pr_CloneDurable r) (pr_LaunchSucceeded r).

Definition IsSessionAvailable (p : RepositoryPreparation) : bool :=
  stage_IsSessionAvailable (pr_Stage p) && negb (bool_decide (pr_SessionID p = "")).

Record RepositoryPreparationReply := mkPrepReply {
  prr_PreparationID : string; prr_IntentID : string; prr_ServerID : string;
  prr_Repository : GitHubRepositoryIdentity; prr_Stage : string; prr_FailureCode : string;
  prr_RetryOrigin : string; prr_Revision : Z; prr_SessionID : string; prr_ClonePath : string }.

(** ** Subsystem payloads and driver events (driver_iface.go, event.go) *)

Inductive SubsystemKind := SubsystemCLI | SubsystemStream | SubsystemKindOther (name : string).

Inductive SubsystemEventKind :=
| SubsystemSessionReady | SubsystemFailed | SubsystemPromptSubmitted | SubsystemTurnStarted
| SubsystemTurnCompleted | SubsystemToolStarted | SubsystemToolCompleted
| SubsystemApprovalRequested | SubsystemApprovalResolved | SubsystemQuestionRequested
| SubsystemQuestionResolved | SubsystemPlanUpdated | SubsystemDiffUpdated
| SubsystemMessageUpdated | SubsystemTitleUpdated | SubsystemMetadataUpdated
| SubsystemEventOther (name : string).

#[export] Instance SubsystemEventKind_eq_dec : EqDecision SubsystemEventKind.
Proof. solve_decision. Defined.

Record SubsystemApproval := mkSubsystemApproval {
  sa_ID : string; sa_Kind : string; sa_Command : string; sa_Path : string; sa_Reason : string;
  sa_AutoApprove : bool; sa_Resolved : bool; sa_Denied : bool }.

Record SubsystemQuestion := mkSubsystemQuestion {
  sq_ID : string; sq_Prompt : string; sq_Answer : string }.

Record SubsystemTurn := mkSubsystemTurn { tn_Role : string; tn_Text : string }.

Record SubsystemTool := mkSubsystemTool {
  tl_ID : string; tl_Name : string; tl_Command : string; tl_Path : string; tl_Error : string;
  tl_PermissionMode : string; tl_IsInterrupt : bool }.

Record SubsystemPlan := mkSubsystemPlan { pn_Summary : string }.
Record SubsystemDiff := mkSubsystemDiff { df_Summary : string; df_Paths : list string }.
Record SubsystemMessage := mkSubsystemMessage { mg_RecentTurns : list SubsystemTurn }.

Record SubsystemPayload := mkSubsystemPayload {
  sp_SessionID : string; sp_ColdStartSessionID : string; sp_TurnID : string;
  sp_TargetID : string; sp_RequestedTargetID : string; sp_ObservedTargetID : string;
  sp_ResumePhase : string; sp_Prompt : string; sp_Error : string;
  sp_LastAssistantMessage : string; sp_StatusLine : string; sp_Title : string;
  sp_Model : string; sp_ModelSet : bool; sp_Effort : string; sp_EffortSet : bool;
  sp_TitleSet : bool; sp_Preview : string; sp_TranscriptPath : string;
  sp_Tool : option SubsystemTool; sp_Approval : option SubsystemApproval;
  sp_Question : option SubsystemQuestion; sp_Plan : option SubsystemPlan;
  sp_Diff : option SubsystemDiff; sp_Message : option SubsystemMessage }.

#[export] Instance eta_SubsystemPayload : Eta SubsystemPayload := fun r =>
  mkSubsystemPayload (sp_SessionID r) (sp_ColdStartSessionID r) (sp_TurnID r) (sp_TargetID r)
    (sp_RequestedTargetID r) (sp_ObservedTargetID r) (sp_ResumePhase r) (sp_Prompt r)
    (sp_Error r) (sp_LastAssistantMessage r) (sp_StatusLine r) (sp_Title r) (sp_Model r)
    (sp_ModelSet r) (sp_Effort r) (sp_EffortSet r) (sp_TitleSet r) (sp_Preview r)
    (sp_TranscriptPath r) (sp_Tool r) (sp_Approval r) (sp_Question r) (sp_Plan r) (sp_Diff r)
    (sp_Message r).

Definition zero_payload : SubsystemPayload :=
  mkSubsystemPayload "" "" "" "" "" "" "" "" "" "" "" "" "" false "" false false "" ""
    None None None None None None.

Inductive TerminalSignalKind :=
| TerminalSignalUnknown | TerminalSignalWindowTitle | TerminalSignalNotification
| TerminalSignalProgress | TerminalSignalBell | TerminalSignalOther (name : string).

Inductive PromptPhase :=
| PromptPhaseNone | PromptPhaseStart | PromptPhaseInput | PromptPhaseCommand
| PromptPhaseComplete | PromptPhaseOther (n : Z).

Inductive Status := StatusRunning | StatusWaiting | StatusIdle | StatusStopped | StatusPending.

#[export] Instance Status_eq_dec : EqDecision Status.
Proof. solve_decision. Defined.

Record FrameContext := mkFrameContext {
  fc_ID : FrameID; fc_Project : string; fc_Command : string; fc_LaunchOptions : LaunchOptions;
  fc_CreatedAt : Time; fc_IsRoot : bool }.

(** ** Surface subscriptions (state.go) *)

Record SurfaceSubscription := mkSub { sub_SessionID : SessionID; sub_SubscriberID : SubscriberID }.

#[export] Instance SurfaceSubscription_eq_dec : EqDecision SurfaceSubscription.
Proof. solve_decision. Defined.

#[export] Instance SurfaceSubscription_countable : Countable SurfaceSubscription.
Proof.
  apply (inj_countable' (fun s => (sub_SessionID s, sub_SubscriberID s))
           (fun p => mkSub p.1 p.2)). by intros [].
Defined.

Record SurfaceGeometry := mkGeometry { geo_Cols : Z; geo_Rows : Z }.

Record Subscriber := mkSubscriber { sb_ConnID : ConnID; sb_Filters : list string }.

Record JobMeta := mkJobMeta {
  jm_SessionID : SessionID; jm_FrameID : FrameID; jm_StartedAt : Time }.

Record ShutdownWaiter := mkWaiter { wt_ConnID : ConnID; wt_ReqID : string }.
Record ShutdownTransaction := mkShutdownTx { tx_ID : Z; tx_Waiters : list ShutdownWaiter }.

Inductive LifecyclePhase := LifecycleRunning | LifecycleQuiescing.

#[export] Instance LifecyclePhase_eq_dec : EqDecision LifecyclePhase.
Proof. solve_decision. Defined.

Inductive ShutdownResult := ShutdownCommitted | ShutdownCommitFailed | ShutdownDeadlineExceeded.
Inductive ShutdownCleanupOutcome := ShutdownCleanupCompleted | ShutdownCleanupDeadlineExceeded.

(** ** Types drivers define

    [DS] is the union of the driver states; [DriverJobInput] and
    [DriverJobResult] are the jobs drivers start and the results they get. *)
Class HostTypes := {
  DS : Type;
  DriverJobInput : Type;
  DriverJobResult : Type }.

Section Types.
Context {HT : HostTypes}.

Definition DriverState : Type := option DS.

Inductive JobInput := JobCapsule (input : CapsuleJobInput) | JobDriver (input : DriverJobInput).
Inductive JobResult := ResultCapsule (r : CapsuleJobResult) | ResultDriver (r : DriverJobResult).

Inductive DriverEvent :=
| DEvHook (Event_ : string) (Timestamp : Time) (RoostSessionID Payload : string)
| DEvSubsystem (Source : SubsystemKind) (Kind : SubsystemEventKind) (Timestamp : Time)
    (Payload : SubsystemPayload)
| DEvTick (Now : Time) (Watched : bool) (Project : string) (N Seq : Z)
| DEvJobResult (Result : JobResult) (Err : option string) (Now : Time)
| DEvFileChanged (Path : string)
| DEvFrameOsc (Cmd : Z) (Kind : TerminalSignalKind) (Title Body : string)
    (ProgressState ProgressValue : Z) (Now : Time)
| DEvFramePrompt (Phase : PromptPhase) (ExitCode : option Z) (Now : Time)
| DEvStatusLineClick (Range : string) (Now : Time)
| DEvWorktreeResolved (StartDir Name : string)
| DEvCommandExited (ExitCode : Z) (Timestamp : Time).

(** ** Effects (effect.go, repository.go) *)

Inductive RespBody :=
| BodyNil
| BodyCreateSession (sid : string)
| BodySessions
| BodySurfaceReadText (sid : SessionID) (lines : Z)
| BodySurfaceUnsubscribed (sid : SessionID) (sub : SubscriberID)
| BodyDriverList
| BodySessionMessages (sid : SessionID)
| BodyResumeCapsules
| BodyPreparation (reply : RepositoryPreparationReply)
| BodyOther (text : string).

Inductive BroadcastPayload :=
| PayApproval (r : ApprovalRequest) | PayQuestion (q : QuestionRequest) | PayOther (text : string).

Inductive Effect :=
| EffSpawnFrame (SessionID_ : SessionID) (FrameID_ : FrameID) (Plan : LaunchPlan)
    (Env : gmap string string) (ReplyConn : ConnID) (ReplyReqID : string)
| EffKillFrame (FrameID_ : FrameID)
| EffRegisterFrame (FrameID_ : FrameID) (Tap : bool)
| EffUnregisterFrame (FrameID_ : FrameID)
| EffSetSessionEnv (Key Value : string)
| EffUnsetSessionEnv (Key : string)
| EffReleaseFrames (TransactionID : Z)
| EffCommitShutdownSessions (TransactionID : Z)
| EffCompleteShutdown (Result : ShutdownResult)
| EffTerminateRuntime
| EffReleaseFrame (FrameID_ : FrameID)
| EffSendResponse (ConnID_ : ConnID) (ReqID : string) (Body : RespBody)
| EffSendResponseSync (ConnID_ : ConnID) (ReqID : string) (Body : RespBody)
| EffSendError (ConnID_ : ConnID) (ReqID Code Message : string) (Details : gmap string string)
| EffBroadcastSessionsChanged
| EffBroadcastEvent (Name : string) (Payload : BroadcastPayload) (FilterTag : string)
| EffReplyHeldApproval (FrameID_ : FrameID) (ApprovalID_ : ApprovalID)
    (Decision : ApprovalDecision) (Error : string)
| EffReplyHeldQuestion (FrameID_ : FrameID) (QuestionID_ : QuestionID) (Answer Error : string)
| EffCloseConn (ConnID_ : ConnID)
| EffSendFrameKeys (ConnID_ : ConnID) (ReqID : string) (SessionID_ : SessionID)
    (Text Key : string) (WithEnter : bool)
| EffPersistSnapshot
| EffWatchFile (FrameID_ : FrameID) (Path Kind : string)
| EffUnwatchFile (FrameID_ : FrameID)
| EffEventLogAppend (FrameID_ : FrameID) (Line : string)
| EffToolLogAppend (Namespace Project Line : string)
| EffFrameMessagingPersistRead (SessionID_ : SessionID) (MessageIDs : list string)
| EffReconcileWindows
| EffRecordNotification (SessionID_ : SessionID) (FrameID_ : FrameID) (Cmd : Z)
    (Title Body : string)
| EffPushDriver (SessionID_ : SessionID) (Command : string)
| EffStartJob (JobID_ : JobID) (Input : JobInput)
| EffSurfaceSubscribeStart (ConnID_ : ConnID) (SessionID_ : SessionID)
    (SubscriberID_ : SubscriberID) (Cols Rows : Z)
| EffSurfaceSubscribeStop (ConnID_ : ConnID) (SessionID_ : SessionID)
    (SubscriberID_ : SubscriberID)
| EffSurfaceResize (SessionID_ : SessionID) (Cols Rows : Z)
| EffSurfaceWriteRaw (SessionID_ : SessionID) (Data : string)
| EffBroadcastSurfaceOutput (SessionID_ : SessionID) (Data : string)
| EffBroadcastPromptEvent (FrameID_ : FrameID) (Phase : string) (ExitCode : Z)
| EffRepositoryPersist (PreparationID : string) (Revision : Z)
| EffRepositoryStartClone (PreparationID ServerID : string)
    (Repository : GitHubRepositoryIdentity) (Generation : Z)
| EffRepositoryLaunchSession (PreparationID ServerID : string)
    (Repository : GitHubRepositoryIdentity) (Generation : Z)
| EffRepositoryStopOwnedWork (PreparationID : string) (Generation : Z).

(** ** The driver interface

    The optional capabilities a driver may implement are [option] fields. *)
Record Driver := mkDriver {
  drv_Name : string;
  drv_DisplayName : string;
  drv_NewState : Time -> DriverState;
  drv_Step : DriverState -> FrameContext -> DriverEvent -> DriverState * list Effect;
  drv_Status : DriverState -> Status;
  drv_Persist : DriverState -> gmap string string;
  drv_Restore : gmap string string -> Time -> DriverState;
  drv_PrepareLaunch : DriverState -> LaunchMode -> string -> string -> LaunchOptions ->
    string + LaunchPlan;
  drv_PrepareCreate : option (DriverState -> SessionID -> string -> string -> LaunchOptions ->
    string + (DriverState * CreateLaunch));
  drv_Forkable : option ((DriverState -> string -> option string) *
    (DriverState -> Time -> DriverState));
  drv_WithForkSessionID : option (DriverState -> SessionID -> DriverState);
  drv_BootstrapSessionStart : option (DriverState -> FrameContext -> Time ->
    DriverState * list Effect);
  drv_StartDirAware : option ((DriverState -> string) * (DriverState -> string -> DriverState));
  drv_CapsuleTurns : option (DriverState -> list CapsuleTurn);
  drv_WarmStartRecover : option (DriverState -> Time -> DriverState * list Effect);
  drv_RecoverableOnColdStart : option (DriverState -> bool) }.

(** ** State (state.go) *)

Record SessionFrame := mkFrame {
  f_ID : FrameID; f_SubsystemID : SubsystemID; f_TargetID : TargetID; f_Project : string;
  f_Command : string; f_LaunchOptions : LaunchOptions; f_CreatedAt : Time;
  f_Driver : DriverState }.

#[export] Instance eta_Frame : Eta SessionFrame := fun r =>
  mkFrame (f_ID r) (f_SubsystemID r) (f_TargetID r) (f_Project r) (f_Command r)
    (f_LaunchOptions r) (f_CreatedAt r) (f_Driver r).

Record Session := mkSession {
  ss_ID : SessionID; ss_Project : string; ss_CreatedAt : Time; ss_Frames : list SessionFrame;
  ss_HeadFrameID : FrameID; ss_MRUFrameIDs : list FrameID; ss_Command : string;
  ss_LaunchOptions : LaunchOptions; ss_Driver : DriverState;
  ss_FrameMessaging : option SessionFrameMessaging; ss_FrameGeneration : Z;
  ss_ResumeCapsule : option ResumeCapsule; ss_EndedAt : option Time }.

#[export] Instance eta_Session : Eta Session := fun r =>
  mkSession (ss_ID r) (ss_Project r) (ss_CreatedAt r) (ss_Frames r) (ss_HeadFrameID r)
    (ss_MRUFrameIDs r) (ss_Command r) (ss_LaunchOptions r) (ss_Driver r) (ss_FrameMessaging r)
    (ss_FrameGeneration r) (ss_ResumeCapsule r) (ss_EndedAt r).

Definition Ended (sess : Session) : bool := bool_decide (is_Some (ss_EndedAt sess)).

(** [Features] is read by no reducer and left out. *)
Record State := mkState {
  st_Lifecycle : LifecyclePhase;
  st_Shutdown : option ShutdownTransaction;
  st_NextShutdownID : Z;
  st_Sessions : gmap SessionID Session;
  st_Subscribers : gmap ConnID Subscriber;
  st_SurfaceSubs : gmap ConnID (gmap SurfaceSubscription SurfaceGeometry);
  st_Jobs : gmap JobID JobMeta;
  st_NextJobID : JobID;
  st_NextConnID : ConnID;
  st_Now : Time;
  st_Aliases : gmap string string;
  st_DefaultCommand : string;
  st_PendingApprovals : gmap SessionID (gmap ApprovalID ApprovalRequest);
  st_PendingQuestions : gmap SessionID (gmap QuestionID QuestionRequest);
  st_StatusEpoch : string;
  st_StatusSignals : gmap SessionID Z;
  st_CreationIntents : gmap string CreationIntent;
  st_RepositoryPreparations : gmap string RepositoryPreparation;
  st_ResumeCapsulesEnabled : bool;
  st_CapsuleGenerating : gmap SessionID string }.

#[export] Instance eta_HState : Eta State := fun r =>
  mkState (st_Lifecycle r) (st_Shutdown r) (st_NextShutdownID r) (st_Sessions r)
    (st_Subscribers r) (st_SurfaceSubs r) (st_Jobs r) (st_NextJobID r) (st_NextConnID r)
    (st_Now r) (st_Aliases r) (st_DefaultCommand r) (st_PendingApprovals r)
    (st_PendingQuestions r) (st_StatusEpoch r) (st_StatusSignals r) (st_CreationIntents r)
    (st_RepositoryPreparations r) (st_ResumeCapsulesEnabled r) (st_CapsuleGenerating r).

Definition New : State :=
  mkState LifecycleRunning None 0 ∅ ∅ ∅ ∅ 0 0 0 ∅ "" ∅ ∅ "" ∅ ∅ ∅ false ∅.

End Types.

(** ** Events (event.go, repository.go) *)

Record EvCmdSubscribe := mkEvCmdSubscribe {
  cs_ConnID : ConnID; cs_ReqID : string; cs_Filters : list string }.
Record EvEvent := mkEvEvent {
  ee_ConnID : ConnID; ee_ReqID : string; ee_Event : string; ee_Payload : string }.
Record EvCmdSurfaceReadText := mkEvReadText {
  srt_ConnID : ConnID; srt_ReqID : string; srt_SessionID : SessionID; srt_Lines : Z }.
Record EvCmdSurfaceSendText := mkEvSendText {
  sst_ConnID : ConnID; sst_ReqID : string; sst_SessionID : SessionID; sst_Text : string }.
Record EvCmdSurfaceSendKey := mkEvSendKey {
  ssk_ConnID : ConnID; ssk_ReqID : string; ssk_SessionID : SessionID; ssk_Key : string }.
Record EvCmdSurfaceSubscribe := mkEvSurfaceSubscribe {
  ess_ConnID : ConnID; ess_ReqID : string; ess_SessionID : SessionID;
  ess_SubscriberID : SubscriberID; ess_Cols : Z; ess_Rows : Z }.
Record EvCmdSurfaceUnsubscribe := mkEvSurfaceUnsubscribe {
  esu_ConnID : ConnID; esu_ReqID : string; esu_SessionID : SessionID;
  esu_SubscriberID : SubscriberID }.
Record EvCmdSurfaceResize := mkEvSurfaceResize {
  esr_ConnID : ConnID; esr_ReqID : string; esr_SessionID : SessionID; esr_Cols : Z; esr_Rows : Z }.
Record EvCmdSurfaceWriteRaw := mkEvSurfaceWriteRaw {
  esw_ConnID : ConnID; esw_ReqID : string; esw_SessionID : SessionID; esw_Data : string }.
Record EvCmdApprovalRespond := mkEvApprovalRespond {
  ear_ConnID : ConnID; ear_ReqID : string; ear_SessionID : SessionID;
  ear_ApprovalID : ApprovalID; ear_Decision : ApprovalDecision; ear_ClientInstanceID : string }.
Record EvCmdApprovalCancel := mkEvApprovalCancel {
  eac_ConnID : ConnID; eac_ReqID : string; eac_SessionID : SessionID;
  eac_ApprovalID : ApprovalID; eac_ClientInstanceID : string }.
Record EvCmdQuestionRespond := mkEvQuestionRespond {
  eqr_ConnID : ConnID; eqr_ReqID : string; eqr_SessionID : SessionID;
  eqr_QuestionID : QuestionID; eqr_Answer : string; eqr_ClientInstanceID : string }.
Record EvCmdQuestionCancel := mkEvQuestionCancel {
  eqc_ConnID : ConnID; eqc_ReqID : string; eqc_SessionID : SessionID;
  eqc_QuestionID : QuestionID; eqc_ClientInstanceID : string }.
Record EvDriverEvent := mkEvDriverEvent {
  ede_ConnID : ConnID; ede_ReqID : string; ede_Event : string; ede_Timestamp : Time;
  ede_SenderID : FrameID; ede_Payload : string }.
Record EvSubsystem := mkEvSubsystem {
  es_ConnID : ConnID; es_ReqID : string; es_FrameID : FrameID; es_Source : SubsystemKind;
  es_Kind : SubsystemEventKind; es_Timestamp : Time; es_Payload : SubsystemPayload }.
Record EvTick := mkEvTick { et_Now : Time; et_N : Z }.
Record EvFrameCommandExited := mkEvCommandExited { efe_FrameID : FrameID; efe_ExitCode : Z }.
Record EvFrameSpawned := mkEvFrameSpawned {
  efs_SessionID : SessionID; efs_FrameID : FrameID; efs_SubsystemID : SubsystemID;
  efs_WorktreeStartDir : string; efs_WorktreeName : string; efs_ReplyConn : ConnID;
  efs_ReplyReqID : string }.
Record EvSpawnFailed := mkEvSpawnFailed {
  esf_SessionID : SessionID; esf_FrameID : FrameID; esf_Err : string; esf_ReplyConn : ConnID;
  esf_ReplyReqID : string }.
Record EvFrameOsc := mkEvFrameOsc {
  efo_FrameID : FrameID; efo_Cmd : Z; efo_Kind : TerminalSignalKind; efo_Title : string;
  efo_Body : string; efo_ProgressState : Z; efo_ProgressValue : Z; efo_Now : Time }.
Record EvFramePrompt := mkEvFramePrompt {
  efp_FrameID : FrameID; efp_Phase : PromptPhase; efp_ExitCode : option Z; efp_Now : Time }.
Record EvShutdownCleanupFinished := mkEvCleanup {
  ecf_TransactionID : Z; ecf_Outcome : ShutdownCleanupOutcome }.

(** [Kind] selects the transition. *)
Record EvRepository := mkEvRepository {
  er_ConnID : ConnID; er_ReqID : string; er_Kind : string; er_IntentID : string;
  er_PreparationID : string; er_ServerID : string; er_Repository : GitHubRepositoryIdentity;
  er_Fingerprint : string; er_ObservedRevision : Z; er_ClonePath : string; er_Code : string;
  er_SessionID : SessionID; er_Command : string; er_CloneDurable : bool;
  er_LaunchSucceeded : bool }.

Inductive Event {HT : HostTypes} :=
| EvCmdSubscribe_ (e : EvCmdSubscribe)
| EvCmdUnsubscribe (ConnID_ : ConnID) (ReqID : string)
| EvEvent_ (e : EvEvent)
| EvCmdSurfaceReadText_ (e : EvCmdSurfaceReadText)
| EvCmdSurfaceSendText_ (e : EvCmdSurfaceSendText)
| EvCmdSurfaceSendKey_ (e : EvCmdSurfaceSendKey)
| EvCmdSurfaceSubscribe_ (e : EvCmdSurfaceSubscribe)
| EvCmdSurfaceUnsubscribe_ (e : EvCmdSurfaceUnsubscribe)
| EvCmdSurfaceResize_ (e : EvCmdSurfaceResize)
| EvCmdSurfaceWriteRaw_ (e : EvCmdSurfaceWriteRaw)
| EvCmdDriverList (ConnID_ : ConnID) (ReqID : string)
| EvCmdApprovalRespond_ (e : EvCmdApprovalRespond)
| EvCmdApprovalCancel_ (e : EvCmdApprovalCancel)
| EvCmdQuestionRespond_ (e : EvCmdQuestionRespond)
| EvCmdQuestionCancel_ (e : EvCmdQuestionCancel)
| EvDriverEvent_ (e : EvDriverEvent)
| EvSubsystem_ (e : EvSubsystem)
| EvConnOpened (ConnID_ : ConnID)
| EvConnClosed (ConnID_ : ConnID)
| EvTick_ (e : EvTick)
| EvFileChanged (FrameID_ : FrameID) (Path : string)
| EvJobResult (JobID_ : JobID) (Result : JobResult) (Err : option string)
| EvFrameVanished (FrameID_ : FrameID)
| EvFrameCommandExited_ (e : EvFrameCommandExited)
| EvFrameSpawned_ (e : EvFrameSpawned)
| EvSpawnFailed_ (e : EvSpawnFailed)
| EvFrameOsc_ (e : EvFrameOsc)
| EvFramePrompt_ (e : EvFramePrompt)
| EvShutdownSaveBarrierSucceeded (TransactionID : Z)
| EvShutdownSaveBarrierFailed (TransactionID : Z) (Err : string)
| EvShutdownCleanupFinished_ (e : EvShutdownCleanupFinished)
| EvRepository_ (e : EvRepository).

(** ** The driver registry *)

Class DriverSys {HT : HostTypes} := {
  driverRegistry : gmap string Driver;
  defaultFactory : option (string -> option Driver) }.

(** [strings.IndexAny(command, " \t")]: the prefix before the first blank. *)
Fixpoint FirstToken (command : string) : string :=
  match command with
  | EmptyString => EmptyString
  | String c rest =>
    if bool_decide (c = Ascii.ascii_of_nat 32) || bool_decide (c = Ascii.ascii_of_nat 9)
    then EmptyString else String c (FirstToken rest)
  end.

Definition GetDriver `{DriverSys} (command : string) : option Driver :=
  match driverRegistry !! FirstToken command with
  | Some d => Some d
  | None => match defaultFactory with
            | Some factory => factory command
            | None => driverRegistry !! ""
            end
  end.

(** ** Error codes (reduce_frame_evict.go) *)

Definition ErrCodeNotFound : string := "not_found".
Definition ErrCodeInvalidArgument : string := "invalid_argument".
Definition ErrCodeInternal : string := "internal".
Definition ErrCodeUnsupported : string := "unsupported".
Definition ErrCodeResourceExhausted : string := "resource_exhausted".
Definition ErrCodeFrameNotReady : string := "frame_not_ready".
Definition ErrCodeUnavailable : string := "unavailable".
Definition ErrCodeResolvedByOther : string := "resolved_by_other".
Definition ErrCodeStaleRevision : string := "stale_revision".

Definition errResp {HT : HostTypes} (connID : ConnID) (reqID code message : string) : Effect :=
  EffSendError connID reqID code message ∅.

Definition okResp {HT : HostTypes} (connID : ConnID) (reqID : string) (body : RespBody) : Effect :=
  EffSendResponse connID reqID body.
