(* ===== verification/HostFrames.v ===== *)
(** * host/state: frame helpers and driver stepping

    Model of reduce_helpers.go and size_hint.go: the frame stack of a session,
    its most-recently-used list, the lookup of a frame across sessions, and the
    routing of an event to a frame's driver with the post-processing of the
    effects the driver returns.  Ids drawn from crypto/rand are arguments of the
    definitions that use them. *)

From S2P Require Import Prelude HostState.

Section Frames.
Context `{GoMapRange} `{DriverSys}.
Implicit Types (s : State) (sess : Session).

(** ** The frame stack *)

Definition spawnEffect (sessID : SessionID) (frameID : FrameID) (plan : LaunchPlan)
    (connID : ConnID) (reqID : string) : Effect :=
  EffSpawnFrame sessID frameID plan
    (<["AG_SESSION_ID" := sessID]> (<["AG_FRAME_ID" := frameID]> ∅)) connID reqID.

Definition rootFrame sess : option SessionFrame :=
  match ss_Frames sess with
  | [] =>
    if bool_decide (ss_Command sess = "") || bool_decide (ss_Driver sess = None) then None
    else Some (mkFrame (ss_ID sess) "" "" (ss_Project sess) (ss_Command sess)
                 (ss_LaunchOptions sess) (ss_CreatedAt sess) (ss_Driver sess))
  | f :: _ => Some f
  end.

Definition find_frame_by_id (frames : list SessionFrame) (id : FrameID) : option SessionFrame :=
  head (filter (fun f => f_ID f = id) frames).

Definition headFrame sess : option SessionFrame :=
  match ss_Frames sess with
  | [] => rootFrame sess
  | frames =>
    match (if bool_decide (ss_HeadFrameID sess = "") then None
           else find_frame_by_id frames (ss_HeadFrameID sess)) with
    | Some f => Some f
    | None => last frames
    end
  end.

Definition pushMRU sess (frameID : FrameID) : Session :=
  if bool_decide (frameID = "") then sess
  else
    let mru := frameID :: filter (fun id => id <> frameID) (ss_MRUFrameIDs sess) in
    sess <| ss_MRUFrameIDs := take 16 mru |>.

(** The ids of the frames of a session ([existing] in popMRU and pruneMRU). *)
Definition frame_ids sess : list FrameID := f_ID <$> ss_Frames sess.

(** The first id of the list that is a frame, and the list after it. *)
Fixpoint first_existing (existing ids : list FrameID) : option (FrameID * list FrameID) :=
  match ids with
  | [] => None
  | id :: rest => if decide (id ∈ existing) then Some (id, rest) else first_existing existing rest
  end.

Definition popMRU sess : FrameID * Session :=
  match first_existing (frame_ids sess) (ss_MRUFrameIDs sess) with
  | Some (id, rest) => (id, sess <| ss_MRUFrameIDs := rest |>)
  | None => ("", sess <| ss_MRUFrameIDs := [] |>)
  end.

Definition bumpFrameGeneration sess : Session :=
  sess <| ss_FrameGeneration := wrap64 (ss_FrameGeneration sess + 1) |>.

Fixpoint dedup (seen ids : list FrameID) : list FrameID :=
  match ids with
  | [] => []
  | id :: rest => if decide (id ∈ seen) then dedup seen rest else id :: dedup (id :: seen) rest
  end.

Definition pruneMRU sess : Session :=
  match ss_MRUFrameIDs sess with
  | [] => sess
  | mru => sess <| ss_MRUFrameIDs := dedup [] (filter (fun id => id ∈ frame_ids sess) mru) |>
  end.

(** Only called with an index of the list; the frame removed is [None] when it
    is not one. *)
Definition removeFrameByIndex sess (i : nat) : Session * option SessionFrame :=
  (sess <| ss_Frames := take i (ss_Frames sess) ++ drop (S i) (ss_Frames sess) |>,
   ss_Frames sess !! i).

(** The index of the first frame with the id; -1 is [None]. *)
Fixpoint find_index (frames : list SessionFrame) (frameID : FrameID) : option nat :=
  match frames with
  | [] => None
  | f :: rest => if decide (f_ID f = frameID) then Some O else S <$> find_index rest frameID
  end.

Definition findFrameIndex sess (frameID : FrameID) : option nat :=
  find_index (ss_Frames sess) frameID.

(** The loop over [s.Sessions] stops at the first session, in the iteration
    order of the map, that has the frame. *)
Definition findFrame s (frameID : FrameID) : option (SessionID * Session * nat) :=
  range_find (fun sessID sess =>
    (fun idx => (sessID, sess, idx)) <$> findFrameIndex sess frameID) (st_Sessions s).

Definition truncateFrames sess (from : nat) : list SessionFrame := drop from (ss_Frames sess).

Definition frameContext (frame : SessionFrame) (isRoot : bool) : FrameContext :=
  mkFrameContext (f_ID frame) (f_Project frame) (f_Command frame) (f_LaunchOptions frame)
    (f_CreatedAt frame) isRoot.

(** ** Effects returned by drivers *)

Definition fill (field default_ : string) : string :=
  if bool_decide (field = "") then default_ else field.

Definition postProcessEffect s (sessID : SessionID) (frameID : FrameID) (eff : Effect)
    : Effect * State :=
  match eff with
  | EffStartJob _ input =>
    let s := s <| st_NextJobID := u64 (st_NextJobID s + 1) |> in
    let jobID := st_NextJobID s in
    let s := s <| st_Jobs := <[jobID := mkJobMeta sessID frameID (st_Now s)]> (st_Jobs s) |> in
    (EffStartJob jobID input, s)
  | EffEventLogAppend fid line => (EffEventLogAppend (fill fid frameID) line, s)
  | EffWatchFile fid path kind => (EffWatchFile (fill fid frameID) path kind, s)
  | EffUnwatchFile fid => (EffUnwatchFile (fill fid frameID), s)
  | EffPushDriver sid command => (EffPushDriver (fill sid sessID) command, s)
  | EffRecordNotification sid fid cmd title body =>
    (EffRecordNotification (fill sid sessID) (fill fid frameID) cmd title body, s)
  | _ => (eff, s)
  end.

Fixpoint postProcessEffects s (sessID : SessionID) (frameID : FrameID) (raw : list Effect)
    : State * list Effect :=
  match raw with
  | [] => (s, [])
  | eff :: raw =>
    let '(patched, s) := postProcessEffect s sessID frameID eff in
    let '(s, out) := postProcessEffects s sessID frameID raw in
    (s, patched :: out)
  end.

(** The session with the driver state of one frame replaced. *)
Definition setFrameDriver sess (i : nat) (ds : DriverState) : Session :=
  sess <| ss_Frames := alter (fun f => f <| f_Driver := ds |>) i (ss_Frames sess) |>.

(** The result is [None] when Go's [found] is false; the state and effects are
    then the ones passed in, and no effects. *)
Definition stepDriver s (frameID : FrameID) (ev : DriverEvent) : option (State * list Effect) :=
  '(sessID, sess, frameIdx) ← findFrame s frameID;
  frame ← ss_Frames sess !! frameIdx;
  drv ← GetDriver (f_Command frame);
  let ctx := frameContext frame (bool_decide (frameIdx = O)) in
  let ds := match f_Driver frame with
            | None => drv_NewState drv (st_Now s)
            | ds => ds
            end in
  let '(nextDS, rawEffs) := drv_Step drv ds ctx ev in
  let s := s <| st_Sessions := <[sessID := setFrameDriver sess frameIdx nextDS]> (st_Sessions s) |> in
  Some (postProcessEffects s sessID frameID rawEffs).

Definition bootstrapDriverSessionStart s (frameID : FrameID) : option (State * list Effect) :=
  '(sessID, sess, frameIdx) ← findFrame s frameID;
  if bool_decide (frameIdx = O) then
    frame ← ss_Frames sess !! frameIdx;
    drv ← GetDriver (f_Command frame);
    bootstrap ← drv_BootstrapSessionStart drv;
    let '(nextDS, rawEffs) := bootstrap (f_Driver frame) (frameContext frame true) (st_Now s) in
    let s := s <| st_Sessions := <[sessID := setFrameDriver sess frameIdx nextDS]> (st_Sessions s) |> in
    Some (postProcessEffects s sessID frameID rawEffs)
  else None.

Definition sessionWatched s (sid : SessionID) : bool :=
  existsb (fun conn => existsb (fun sub => bool_decide (sub_SessionID sub.1 = sid))
                         (map_to_list conn.2)) (map_to_list (st_SurfaceSubs s)).

(** One iteration of [stepActiveSessions]; [acc] is the state, the effects and
    the number of events made so far, which is the [Seq] of a tick. *)
Definition step_session (makeEv : Session -> bool -> Z -> DriverEvent)
    (acc : State * list Effect * Z) (sessID : SessionID) : State * list Effect * Z :=
  let '(s, effs, seq) := acc in
  match (sess ← st_Sessions s !! sessID; frame ← rootFrame sess;
         drv ← GetDriver (f_Command frame); Some (sess, frame)) with
  | None => (s, effs, seq)
  | Some (sess, frame) =>
    let ev := makeEv sess (sessionWatched s sessID) seq in
    match stepDriver s (f_ID frame) ev with
    | None => (s, effs, u64 (seq + 1))
    | Some (next, sessEffs) => (next, effs ++ sessEffs, u64 (seq + 1))
    end
  end.

(** The changed flag says whether any driver emitted an effect. *)
Definition stepActiveSessions s (makeEv : Session -> bool -> Z -> DriverEvent)
    : State * list Effect * bool :=
  let ids := sort_Strings (elements (dom (st_Sessions s))) in
  let '(s, effs, _) := foldl (step_session makeEv) (s, [], 0) ids in
  (s, effs, negb (bool_decide (length effs = O))).

(** ** Terminal size hints (size_hint.go) *)

Definition MaxDim : Z := 2000.

Inductive SizeHintError := AsymmetricSizeHint | ColsOutOfRange | RowsOutOfRange.

Definition ValidateSizeHint (cols rows : Z) : option SizeHintError :=
  if (cols =? 0) && (rows =? 0) then None
  else if negb (eqb (cols =? 0) (rows =? 0)) then Some AsymmetricSizeHint
  else if (cols <? 1) || (MaxDim <? cols) then Some ColsOutOfRange
  else if (rows <? 1) || (MaxDim <? rows) then Some RowsOutOfRange
  else None.

Definition SizeHintRejectReason (cols rows : Z) : string :=
  match ValidateSizeHint cols rows with
  | None => ""
  | Some _ =>
    if negb (eqb (cols =? 0) (rows =? 0)) then "asymmetric size hint"
    else if (cols <? 1) || (MaxDim <? cols) then "cols out of range"
    else if (rows <? 1) || (MaxDim <? rows) then "rows out of range"
    else "invalid size hint"
  end.

End Frames.

(** * host/state: a concrete host

    A driver with a string state, a state with one running session, and the
    requests on it, used where a witness evaluates a definition. *)

Module HostDemo.

#[export] Instance demo_types : HostTypes :=
  {| DS := string; DriverJobInput := string; DriverJobResult := string |}.

Definition demo_plan (project command : string) (opts : LaunchOptions) : LaunchPlan :=
  mkLaunchPlan command [command] [] 0 project project opts LaunchSubsystemCLI
    (mkStreamLaunchOptions false (mkResumeTarget "" "") "") [] (lo_InitialInput opts).

(** Records the last hook in its state and emits nothing. *)
Definition shell_driver : Driver :=
  {| drv_Name := "shell"; drv_DisplayName := "Shell";
     drv_NewState := fun _ => Some "new";
     drv_Step := fun ds _ ev =>
       match ev with DEvHook name _ _ _ => (Some name, []) | _ => (ds, []) end;
     drv_Status := fun _ => StatusRunning;
     drv_Persist := fun ds => {["state" := default "" ds]};
     drv_Restore := fun bag _ => bag !! "state";
     drv_PrepareLaunch := fun _ _ project command opts => inr (demo_plan project command opts);
     drv_PrepareCreate := None; drv_Forkable := None; drv_WithForkSessionID := None;
     drv_BootstrapSessionStart := None; drv_StartDirAware := None; drv_CapsuleTurns := None;
     drv_WarmStartRecover := None; drv_RecoverableOnColdStart := None |}.

#[export] Instance demo_drivers : DriverSys :=
  {| driverRegistry := {["shell" := shell_driver]}; defaultFactory := None |}.

#[export] Instance demo_range : GoMapRange := canonical_range.

Definition demo_frame (id : FrameID) : SessionFrame :=
  mkFrame id "" "" "/work" "shell" zero_options 1000 (Some "new").

Definition demo_session (id : SessionID) (frames : list FrameID) : Session :=
  mkSession id "/work" 1000 (demo_frame <$> frames) (default "" (last frames)) [] "shell"
    zero_options (Some "new") None 0 None None.

Definition demo_state : State :=
  New <| st_Now := 5000 |> <| st_Sessions := {["s1" := demo_session "s1" ["f1"]]} |>.

End HostDemo.
