(* ===== verification/HostInput.v ===== *)
(** * host/state: human-input requests

    Model of approval_request.go, reduce_approval.go, question_request.go,
    reduce_question.go and [maybeResolveHumanInputFromSubsystem] of
    reduce_event.go: the durable ledgers of approvals and questions, keyed by
    session and request id, and every transition of a request.  The two ledgers
    have the same shape, so the map operations are defined once. *)

From S2P Require Import Prelude HostState HostFrames.

(** ** The ledger: a map of maps *)

Section Ledger.
Context {R : Type}.
Implicit Types (m : gmap string (gmap string R)).

Definition ledger_find `{GoMapRange} m (id : string) : option (R * SessionID) :=
  if bool_decide (id = "") then None
  else range_find (fun sessID rs => (fun r => (r, sessID)) <$> rs !! id) m.

Definition ledger_put m (sessID id : string) (r : R) : gmap string (gmap string R) :=
  <[sessID := <[id := r]> (default ∅ (m !! sessID))]> m.

Definition ledger_delete m (sessID id : string) : gmap string (gmap string R) :=
  match m !! sessID with
  | None => m
  | Some rs =>
    match rs !! id with
    | None => m
    | Some _ =>
      let nm := delete id rs in
      if bool_decide (size nm = O) then delete sessID m else <[sessID := nm]> m
    end
  end.

(** The [hits] a sweep collects before it changes the ledger. *)
Definition ledger_hits `{GoMapRange} (p : R -> bool) m : list (SessionID * R) :=
  '(sessID, rs) ← range m;
  '(_, r) ← range rs;
  if p r then [(sessID, r)] else [].
End Ledger.

Definition status_string (st : RequestStatus) : string :=
  match st with
  | Pending => "pending" | Resolved => "resolved" | Expired => "expired"
  | Cancelled => "cancelled"
  end.

Definition decision_string (d : ApprovalDecision) : string :=
  match d with
  | DecisionNone => "" | DecisionAccept => "accept" | DecisionDeny => "deny"
  | DecisionOther text => text
  end.

Definition reason_string (r : ResolutionReason) : string :=
  match r with
  | ReasonNone => "" | ReasonClient => "client" | ReasonExpired => "expired"
  | ReasonCancelled => "cancelled" | ReasonAuto => "auto" | ReasonServer => "server"
  end.

Definition DefaultApprovalTTL : Duration := 30 * Second.
Definition DefaultQuestionTTL : Duration := 30 * Second.
Definition AutoResolvingClientInstanceID : string := "auto".
Definition EvtNameApprovalRequested : string := "approval-requested".
Definition EvtNameApprovalResolved : string := "approval-resolved".
Definition EvtNameQuestionRequested : string := "question-requested".
Definition EvtNameQuestionResolved : string := "question-resolved".

Section Input.
Context `{GoMapRange} `{DriverSys}.
Implicit Types (s : State).

(** ** Approvals *)

Definition PendingApprovalsForSession s (sessionID : SessionID) : list ApprovalRequest :=
  filter (fun r => ap_Status r = Pending)
    (range (default ∅ (st_PendingApprovals s !! sessionID))).*2.

Definition FindApproval s (id : ApprovalID) : option (ApprovalRequest * SessionID) :=
  ledger_find (st_PendingApprovals s) id.

Definition putApproval s (r : ApprovalRequest) : State :=
  s <| st_PendingApprovals :=
    ledger_put (st_PendingApprovals s) (ap_SessionID r) (ap_ID r) r |>.

Definition deleteApproval s (sessionID : SessionID) (id : ApprovalID) : State :=
  s <| st_PendingApprovals := ledger_delete (st_PendingApprovals s) sessionID id |>.

Definition resolvedByOtherError (connID : ConnID) (reqID : string) (r : ApprovalRequest)
    : Effect :=
  EffSendError connID reqID ErrCodeResolvedByOther "approval already resolved by another client"
    (list_to_map [("decision", decision_string (ap_Decision r));
                  ("resolving_client_instance_id", ap_ResolvingClientInstanceID r);
                  ("resolution_reason", reason_string (ap_ResolutionReason r));
                  ("status", status_string (ap_Status r))]).

Definition approvalRequestedBroadcast (r : ApprovalRequest) : Effect :=
  EffBroadcastEvent EvtNameApprovalRequested (PayApproval r) EvtNameApprovalRequested.

Definition approvalResolvedBroadcast (r : ApprovalRequest) : Effect :=
  EffBroadcastEvent EvtNameApprovalResolved (PayApproval r) EvtNameApprovalResolved.

Definition reduceApprovalRespond s (e : EvCmdApprovalRespond) : State * list Effect :=
  if bool_decide (ear_ApprovalID e = "") then
    (s, [errResp (ear_ConnID e) (ear_ReqID e) ErrCodeInvalidArgument "approval_id required"])
  else if negb (bool_decide (ear_Decision e = DecisionAccept))
       && negb (bool_decide (ear_Decision e = DecisionDeny)) then
    (s, [errResp (ear_ConnID e) (ear_ReqID e) ErrCodeInvalidArgument
           "decision must be accept or deny"])
  else
    match FindApproval s (ear_ApprovalID e) with
    | None =>
      (s, [errResp (ear_ConnID e) (ear_ReqID e) ErrCodeNotFound "approval not found"])
    | Some (r, _) =>
      if negb (bool_decide (ap_Status r = Pending)) then
        (s, [resolvedByOtherError (ear_ConnID e) (ear_ReqID e) r])
      else
        let r := r <| ap_Status := Resolved |> <| ap_Decision := ear_Decision e |>
                   <| ap_ResolvingClientInstanceID := ear_ClientInstanceID e |>
                   <| ap_ResolutionReason := ReasonClient |> in
        (putApproval s r,
         [okResp (ear_ConnID e) (ear_ReqID e) BodyNil;
          EffReplyHeldApproval (ap_FrameID r) (ap_ID r) (ap_Decision r) "";
          approvalResolvedBroadcast r])
    end.

Definition reduceApprovalCancel s (e : EvCmdApprovalCancel) : State * list Effect :=
  if bool_decide (eac_ApprovalID e = "") then
    (s, [errResp (eac_ConnID e) (eac_ReqID e) ErrCodeInvalidArgument "approval_id required"])
  else
    match FindApproval s (eac_ApprovalID e) with
    | None =>
      (s, [errResp (eac_ConnID e) (eac_ReqID e) ErrCodeNotFound "approval not found"])
    | Some (r, _) =>
      if negb (bool_decide (ap_Status r = Pending)) then
        (s, [resolvedByOtherError (eac_ConnID e) (eac_ReqID e) r])
      else
        let r := r <| ap_Status := Cancelled |> <| ap_Decision := DecisionDeny |>
                   <| ap_ResolvingClientInstanceID := eac_ClientInstanceID e |>
                   <| ap_ResolutionReason := ReasonCancelled |> in
        (putApproval s r,
         [okResp (eac_ConnID e) (eac_ReqID e) BodyNil;
          EffReplyHeldApproval (ap_FrameID r) (ap_ID r) DecisionDeny "connection-lost";
          approvalResolvedBroadcast r])
    end.

(** [None] is Go's [handled = false]. *)
Definition maybeCreateApprovalFromSubsystem s (e : EvSubsystem) : option (State * list Effect) :=
  if negb (bool_decide (es_Kind e = SubsystemApprovalRequested)) then None
  else
    a ← sp_Approval (es_Payload e);
    let id := sa_ID a in
    if bool_decide (id = "") then None
    else if bool_decide (is_Some (FindApproval s id)) then Some (s, [])
    else
      '(sessID, _, _) ← findFrame s (es_FrameID e);
      let now := if IsZero (es_Timestamp e) then st_Now s else es_Timestamp e in
      let defaultDecision := if sa_AutoApprove a then DecisionAccept else DecisionDeny in
      let r := mkApproval id sessID (es_FrameID e) (sa_Kind a) (sa_Command a) (sa_Path a)
                 (sa_Reason a) now (Add now DefaultApprovalTTL) Pending defaultDecision
                 DecisionNone "" ReasonNone in
      let s := putApproval s r in
      let effs := [approvalRequestedBroadcast r] in
      if sa_AutoApprove a then
        let r := r <| ap_Status := Resolved |> <| ap_Decision := DecisionAccept |>
                   <| ap_ResolvingClientInstanceID := AutoResolvingClientInstanceID |>
                   <| ap_ResolutionReason := ReasonAuto |> in
        Some (putApproval s r,
              effs ++ [EffReplyHeldApproval (ap_FrameID r) (ap_ID r) DecisionAccept "";
                       approvalResolvedBroadcast r])
      else Some (s, effs).

Definition approval_expired (now : Time) (r : ApprovalRequest) : bool :=
  bool_decide (ap_Status r = Pending) && negb (IsZero (ap_ExpiresAt r))
  && negb (Before now (ap_ExpiresAt r)).

Definition expire_approval (acc : State * list Effect) (h : SessionID * ApprovalRequest)
    : State * list Effect :=
  let '(s, effs) := acc in
  let r := h.2 <| ap_Status := Expired |> <| ap_Decision := ap_DefaultDecision h.2 |> in
  let r := if bool_decide (ap_Decision r = DecisionNone)
           then r <| ap_Decision := DecisionDeny |> else r in
  let r := r <| ap_ResolutionReason := ReasonExpired |> in
  (putApproval s r,
   effs ++ [EffReplyHeldApproval (ap_FrameID r) (ap_ID r) (ap_Decision r) "";
            approvalResolvedBroadcast r]).

Definition expirePendingApprovals s (now : Time) : State * list Effect :=
  if IsZero now then (s, [])
  else foldl expire_approval (s, [])
         (ledger_hits (approval_expired now) (st_PendingApprovals s)).

Definition cancelled_approval (r : ApprovalRequest) : ApprovalRequest :=
  r <| ap_Status := Cancelled |> <| ap_Decision := DecisionDeny |>
    <| ap_ResolutionReason := ReasonCancelled |>.

Definition cancel_approval_effects (r : ApprovalRequest) : list Effect :=
  [EffReplyHeldApproval (ap_FrameID r) (ap_ID r) DecisionDeny "connection-lost";
   approvalResolvedBroadcast (cancelled_approval r)].

Definition cancel_approval (acc : State * list Effect) (h : SessionID * ApprovalRequest)
    : State * list Effect :=
  let '(s, effs) := acc in
  (deleteApproval s h.1 (ap_ID h.2), effs ++ cancel_approval_effects h.2).

Definition cancelApprovalsForFrame s (frameID : FrameID) : State * list Effect :=
  if bool_decide (frameID = "") then (s, [])
  else foldl cancel_approval (s, [])
         (ledger_hits (fun r => bool_decide (ap_Status r = Pending)
                               && bool_decide (ap_FrameID r = frameID))
            (st_PendingApprovals s)).

Definition reap_approval (sessionID : SessionID) (acc : State * list Effect)
    (h : ApprovalID * ApprovalRequest) : State * list Effect :=
  let '(s, effs) := acc in
  (deleteApproval s sessionID h.1,
   effs ++ (if bool_decide (ap_Status h.2 = Pending) then cancel_approval_effects h.2 else [])).

Definition cancelApprovalsForSession s (sessionID : SessionID) : State * list Effect :=
  if bool_decide (sessionID = "") then (s, [])
  else foldl (reap_approval sessionID) (s, [])
         (range (default ∅ (st_PendingApprovals s !! sessionID))).

(** ** Questions *)

Definition PendingQuestionsForSession s (sessionID : SessionID) : list QuestionRequest :=
  filter (fun q => qu_Status q = Pending)
    (range (default ∅ (st_PendingQuestions s !! sessionID))).*2.

Definition FindQuestion s (id : QuestionID) : option (QuestionRequest * SessionID) :=
  ledger_find (st_PendingQuestions s) id.

Definition putQuestion s (q : QuestionRequest) : State :=
  s <| st_PendingQuestions :=
    ledger_put (st_PendingQuestions s) (qu_SessionID q) (qu_ID q) q |>.

Definition deleteQuestion s (sessionID : SessionID) (id : QuestionID) : State :=
  s <| st_PendingQuestions := ledger_delete (st_PendingQuestions s) sessionID id |>.

Definition questionResolvedByOtherError (connID : ConnID) (reqID : string) (q : QuestionRequest)
    : Effect :=
  EffSendError connID reqID ErrCodeResolvedByOther "question already resolved by another client"
    (list_to_map [("answer", qu_Answer q);
                  ("resolving_client_instance_id", qu_ResolvingClientInstanceID q);
                  ("resolution_reason", reason_string (qu_ResolutionReason q));
                  ("status", status_string (qu_Status q))]).

Definition questionRequestedBroadcast (q : QuestionRequest) : Effect :=
  EffBroadcastEvent EvtNameQuestionRequested (PayQuestion q) EvtNameQuestionRequested.

Definition questionResolvedBroadcast (q : QuestionRequest) : Effect :=
  EffBroadcastEvent EvtNameQuestionResolved (PayQuestion q) EvtNameQuestionResolved.

Definition reduceQuestionRespond s (e : EvCmdQuestionRespond) : State * list Effect :=
  if bool_decide (eqr_QuestionID e = "") then
    (s, [errResp (eqr_ConnID e) (eqr_ReqID e) ErrCodeInvalidArgument "question_id required"])
  else
    match FindQuestion s (eqr_QuestionID e) with
    | None =>
      (s, [errResp (eqr_ConnID e) (eqr_ReqID e) ErrCodeNotFound "question not found"])
    | Some (q, _) =>
      if negb (bool_decide (qu_Status q = Pending)) then
        (s, [questionResolvedByOtherError (eqr_ConnID e) (eqr_ReqID e) q])
      else
        let q := q <| qu_Status := Resolved |> <| qu_Answer := eqr_Answer e |>
                   <| qu_ResolvingClientInstanceID := eqr_ClientInstanceID e |>
                   <| qu_ResolutionReason := ReasonClient |> in
        (putQuestion s q,
         [okResp (eqr_ConnID e) (eqr_ReqID e) BodyNil;
          EffReplyHeldQuestion (qu_FrameID q) (qu_ID q) (qu_Answer q) "";
          questionResolvedBroadcast q])
    end.

Definition reduceQuestionCancel s (e : EvCmdQuestionCancel) : State * list Effect :=
  if bool_decide (eqc_QuestionID e = "") then
    (s, [errResp (eqc_ConnID e) (eqc_ReqID e) ErrCodeInvalidArgument "question_id required"])
  else
    match FindQuestion s (eqc_QuestionID e) with
    | None =>
      (s, [errResp (eqc_ConnID e) (eqc_ReqID e) ErrCodeNotFound "question not found"])
    | Some (q, _) =>
      if negb (bool_decide (qu_Status q = Pending)) then
        (s, [questionResolvedByOtherError (eqc_ConnID e) (eqc_ReqID e) q])
      else
        let q := q <| qu_Status := Cancelled |>
                   <| qu_ResolvingClientInstanceID := eqc_ClientInstanceID e |>
                   <| qu_ResolutionReason := ReasonCancelled |> in
        (putQuestion s q,
         [okResp (eqc_ConnID e) (eqc_ReqID e) BodyNil;
          EffReplyHeldQuestion (qu_FrameID q) (qu_ID q) "" "connection-lost";
          questionResolvedBroadcast q])
    end.

Definition maybeCreateQuestionFromSubsystem s (e : EvSubsystem) : option (State * list Effect) :=
  if negb (bool_decide (es_Kind e = SubsystemQuestionRequested)) then None
  else
    qp ← sp_Question (es_Payload e);
    let id := sq_ID qp in
    if bool_decide (id = "") then None
    else if bool_decide (is_Some (FindQuestion s id)) then Some (s, [])
    else
      '(sessID, _, _) ← findFrame s (es_FrameID e);
      let now := if IsZero (es_Timestamp e) then st_Now s else es_Timestamp e in
      let q := mkQuestion id sessID (es_FrameID e) (sq_Prompt qp) now
                 (Add now DefaultQuestionTTL) Pending "" "" ReasonNone in
      Some (putQuestion s q, [questionRequestedBroadcast q]).

Definition question_expired (now : Time) (q : QuestionRequest) : bool :=
  bool_decide (qu_Status q = Pending) && negb (IsZero (qu_ExpiresAt q))
  && negb (Before now (qu_ExpiresAt q)).

Definition expire_question (acc : State * list Effect) (h : SessionID * QuestionRequest)
    : State * list Effect :=
  let '(s, effs) := acc in
  let q := h.2 <| qu_Status := Expired |> <| qu_ResolutionReason := ReasonExpired |> in
  (putQuestion s q,
   effs ++ [EffReplyHeldQuestion (qu_FrameID q) (qu_ID q) "" "connection-lost";
            questionResolvedBroadcast q]).

Definition expirePendingQuestions s (now : Time) : State * list Effect :=
  if IsZero now then (s, [])
  else foldl expire_question (s, [])
         (ledger_hits (question_expired now) (st_PendingQuestions s)).

Definition cancelled_question (q : QuestionRequest) : QuestionRequest :=
  q <| qu_Status := Cancelled |> <| qu_ResolutionReason := ReasonCancelled |>.

Definition cancel_question_effects (q : QuestionRequest) : list Effect :=
  [EffReplyHeldQuestion (qu_FrameID q) (qu_ID q) "" "connection-lost";
   questionResolvedBroadcast (cancelled_question q)].

Definition cancel_question (acc : State * list Effect) (h : SessionID * QuestionRequest)
    : State * list Effect :=
  let '(s, effs) := acc in
  (deleteQuestion s h.1 (qu_ID h.2), effs ++ cancel_question_effects h.2).

Definition cancelQuestionsForFrame s (frameID : FrameID) : State * list Effect :=
  if bool_decide (frameID = "") then (s, [])
  else foldl cancel_question (s, [])
         (ledger_hits (fun q => bool_decide (qu_Status q = Pending)
                               && bool_decide (qu_FrameID q = frameID))
            (st_PendingQuestions s)).

Definition reap_question (sessionID : SessionID) (acc : State * list Effect)
    (h : QuestionID * QuestionRequest) : State * list Effect :=
  let '(s, effs) := acc in
  (deleteQuestion s sessionID h.1,
   effs ++ (if bool_decide (qu_Status h.2 = Pending) then cancel_question_effects h.2 else [])).

Definition cancelQuestionsForSession s (sessionID : SessionID) : State * list Effect :=
  if bool_decide (sessionID = "") then (s, [])
  else foldl (reap_question sessionID) (s, [])
         (range (default ∅ (st_PendingQuestions s !! sessionID))).

(** ** Resolution announced by the driver's server *)

Definition maybeResolveHumanInputFromSubsystem s (e : EvSubsystem)
    : option (State * list Effect) :=
  match es_Kind e with
  | SubsystemApprovalResolved =>
    a ← sp_Approval (es_Payload e);
    '(request, _) ← FindApproval s (sa_ID a);
    if negb (bool_decide (ap_Status request = Pending)) then Some (s, [])
    else
      let request := request <| ap_Status := Resolved |>
                       <| ap_ResolutionReason := ReasonServer |> in
      Some (putApproval s request, [approvalResolvedBroadcast request])
  | SubsystemQuestionResolved =>
    qp ← sp_Question (es_Payload e);
    '(request, _) ← FindQuestion s (sq_ID qp);
    if negb (bool_decide (qu_Status request = Pending)) then Some (s, [])
    else
      let request := request <| qu_Status := Resolved |>
                       <| qu_ResolutionReason := ReasonServer |> in
      Some (putQuestion s request, [questionResolvedBroadcast request])
  | _ => None
  end.

End Input.
