(* ===== verification/HostSession.v ===== *)
(** * host/state: sessions and frames

    Model of reduce_session.go, reduce_session_nav.go, reduce_frame.go and
    reduce_frame_evict.go: creating, pushing, forking, stopping and evicting,
    and the events that report how a spawn went.  [rnd i] is the [i]-th draw of
    [allocSessionID] (12 random bytes in hexadecimal) during one event; nothing
    is assumed of the draws here. *)

From S2P Require Import Prelude HostState HostFrames HostInput.

Record CreateSessionParams := mkCreateParams {
  cp_Project : string; cp_Command : string; cp_Options : LaunchOptions }.
Record PushDriverParams := mkPushParams {
  pp_SessionID : string; pp_Project : string; pp_Command : string; pp_Options : LaunchOptions;
  pp_Input : string }.
Record SetHeadFrameParams := mkSetHeadParams { hp_SessionID : string; hp_FrameID : string }.

Inductive rootDisposition := retainEndedSession | dropUnstartedSession.

#[export] Instance rootDisposition_eq_dec : EqDecision rootDisposition.
Proof. solve_decision. Defined.

Section Session.
Context `{GoMapRange} `{DriverSys} (rnd : nat -> string).
Implicit Types (s : State) (sess : Session).

(** ** Creating a session *)

Definition resolveCreateCommand s (command : string) : string :=
  let command := if bool_decide (command = "") then st_DefaultCommand s else command in
  let command := if bool_decide (command = "") then "shell" else command in
  default command (st_Aliases s !! command).

Definition prepareSessionDriver s (drv : Driver) (sessID : SessionID) (project command : string)
    (options : LaunchOptions) : string + (DriverState * CreateLaunch) :=
  let driverState := drv_NewState drv (st_Now s) in
  match drv_PrepareCreate drv with
  | Some prepare => prepare driverState sessID project command options
  | None => inr (driverState, mkCreateLaunch command project options)
  end.

Definition reduceCreateSession s (connID : ConnID) (reqID : string) (p : CreateSessionParams)
    : State * list Effect :=
  if bool_decide (cp_Project p = "") then
    (s, [errResp connID reqID ErrCodeInvalidArgument "project arg required"])
  else
    let command := resolveCreateCommand s (cp_Command p) in
    let sessID := rnd 0 in
    match GetDriver command with
    | None =>
      (s, [errResp connID reqID ErrCodeUnsupported ("no driver registered for command " +:+ command)])
    | Some drv =>
      match prepareSessionDriver s drv sessID (cp_Project p) command (cp_Options p) with
      | inl err => (s, [errResp connID reqID ErrCodeInvalidArgument err])
      | inr (driverState, createLaunch) =>
        let rootFrameID := rnd 1 in
        match drv_PrepareLaunch drv driverState LaunchModeCreate (cp_Project p)
                (cl_Command createLaunch) (cl_Options createLaunch) with
        | inl err => (s, [errResp connID reqID ErrCodeInvalidArgument err])
        | inr launch =>
          let launch := launch <| lp_Project := cp_Project p |> in
          let frame := mkFrame rootFrameID "" rootFrameID (cp_Project p) command
                         (lp_Options launch) (st_Now s) driverState in
          let session := mkSession sessID (cp_Project p) (st_Now s) [frame] rootFrameID []
                           command (cp_Options p) driverState None 0 None None in
          (s <| st_Sessions := <[sessID := session]> (st_Sessions s) |>,
           [spawnEffect sessID rootFrameID launch connID reqID])
        end
      end
    end.

(** ** Pushing a driver frame *)

(** The start directory of the root frame, handed to the new driver state when
    both drivers know about start directories. *)
Definition inheritStartDir (rootF : SessionFrame) (drv : Driver) (driverState : DriverState)
    : DriverState :=
  match (rootDrv ← GetDriver (f_Command rootF); drv_StartDirAware rootDrv) with
  | Some (StartDir, _) =>
    let parentDir := StartDir (f_Driver rootF) in
    if bool_decide (parentDir = "") then driverState
    else match drv_StartDirAware drv with
         | Some (_, WithStartDir) => WithStartDir driverState parentDir
         | None => driverState
         end
  | None => driverState
  end.

(** Both callers drop the state of a failed push, so an error carries none. *)
Definition pushDriverInternal s (draw : nat) (sid : SessionID) (project rawCommand : string)
    (options : LaunchOptions) (input : string) (connID : ConnID) (reqID : string)
    : string + (State * list Effect) :=
  match st_Sessions s !! sid with
  | None => inl "session not found"
  | Some sess =>
    let project := if bool_decide (project = "") then ss_Project sess else project in
    let options := options <| lo_InitialInput := input |> in
    let command := resolveCreateCommand s rawCommand in
    match GetDriver command with
    | None => inl ("no driver registered for command " +:+ command)
    | Some drv =>
      match prepareSessionDriver s drv sid project command options with
      | inl err => inl err
      | inr (driverState, createLaunch) =>
        let driverState := match rootFrame sess with
                           | Some rootF => inheritStartDir rootF drv driverState
                           | None => driverState
                           end in
        let frameID := rnd draw in
        match drv_PrepareLaunch drv driverState LaunchModeCreate project
                (cl_Command createLaunch) (cl_Options createLaunch) with
        | inl err => inl err
        | inr launch =>
          let launch := launch <| lp_Project := project |> in
          let frame := mkFrame frameID "" frameID project command (lp_Options launch)
                         (st_Now s) driverState in
          let sess := pushMRU sess (ss_HeadFrameID sess) in
          let sess := sess <| ss_HeadFrameID := frameID |>
                           <| ss_Frames := ss_Frames sess ++ [frame] |> in
          let sess := bumpFrameGeneration sess in
          inr (s <| st_Sessions := <[sid := sess]> (st_Sessions s) |>,
               [spawnEffect sid frameID launch connID reqID])
        end
      end
    end
  end.

Definition reducePushDriver s (connID : ConnID) (reqID : string) (p : PushDriverParams)
    : State * list Effect :=
  let sid := pp_SessionID p in
  if bool_decide (sid = "") then
    (s, [errResp connID reqID ErrCodeInvalidArgument "session_id required"])
  else if bool_decide (st_Sessions s !! sid = None) then
    (s, [errResp connID reqID ErrCodeNotFound "session not found"])
  else
    match pushDriverInternal s 0 sid (pp_Project p) (pp_Command p) (pp_Options p) (pp_Input p)
            connID reqID with
    | inl err => (s, [errResp connID reqID ErrCodeInvalidArgument err])
    | inr out => out
    end.

(** [draw] is the index of the next draw. *)
Fixpoint resolvePushDriverEffects_from (draw : nat) s (rawEffs : list Effect)
    : State * list Effect :=
  match rawEffs with
  | [] => (s, [])
  | EffPushDriver sid command :: rest =>
    match pushDriverInternal s draw sid "" command zero_options "" 0 "" with
    | inl _ => resolvePushDriverEffects_from (S draw) s rest
    | inr (s, pushEffs) =>
      let '(s, effs) := resolvePushDriverEffects_from (S draw) s rest in
      (s, pushEffs ++ effs)
    end
  | eff :: rest =>
    let '(s, effs) := resolvePushDriverEffects_from draw s rest in
    (s, eff :: effs)
  end.

Definition resolvePushDriverEffects s (rawEffs : list Effect) : State * list Effect :=
  resolvePushDriverEffects_from 0 s rawEffs.

(** ** Forking *)

Definition makeForkSession s (src : Session) (newSessID : SessionID) (rootFrameID : FrameID)
    (durableCommand : string) (opts : LaunchOptions) (driverState : DriverState) : Session :=
  mkSession newSessID (ss_Project src) (st_Now s)
    [mkFrame rootFrameID "" "" (ss_Project src) durableCommand zero_options (st_Now s) driverState]
    rootFrameID [] durableCommand opts driverState None 0 None None.

Definition spawnForkSession s (connID : ConnID) (reqID : string) sess (forkDrv : Driver)
    (driverState : DriverState) (durableCommand launchCommand : string) (opts : LaunchOptions)
    : State * list Effect :=
  let newSessID := rnd 0 in
  let driverState := match drv_WithForkSessionID forkDrv with
                     | Some setter => setter driverState newSessID
                     | None => driverState
                     end in
  let rootFrameID := rnd 1 in
  let newSess := makeForkSession s sess newSessID rootFrameID durableCommand opts driverState in
  match drv_PrepareLaunch forkDrv driverState LaunchModeCreate (ss_Project sess) launchCommand opts with
  | inl err => (s, [errResp connID reqID ErrCodeInvalidArgument err])
  | inr launch =>
    let launch := launch <| lp_Project := ss_Project sess |> in
    let newSess := newSess <| ss_Frames :=
      alter (fun f => f <| f_LaunchOptions := lp_Options launch |>) 0%nat (ss_Frames newSess) |> in
    (s <| st_Sessions := <[newSessID := newSess]> (st_Sessions s) |>,
     [spawnEffect newSessID rootFrameID launch connID reqID])
  end.

(** [ForkChildState] is the second half of the [Forkable] capability that
    [resolveForkDrv] validated. *)
Definition buildForkSession s (connID : ConnID) (reqID : string) sess (rootF : SessionFrame)
    (ForkChildState : DriverState -> Time -> DriverState) (forkDrv : Driver)
    (forkCommand : string) : State * list Effect :=
  let driverState := ForkChildState (f_Driver rootF) (st_Now s) in
  let driverState := inheritStartDir rootF forkDrv driverState in
  spawnForkSession s connID reqID sess forkDrv driverState (f_Command rootF) forkCommand
    zero_options.

Definition resolveForkDrv s (connID : ConnID) (reqID : string) (rootF : SessionFrame)
    : list Effect + ((DriverState -> Time -> DriverState) * Driver * string) :=
  match GetDriver (f_Command rootF) with
  | None =>
    inl [errResp connID reqID ErrCodeUnsupported ("no driver for command " +:+ f_Command rootF)]
  | Some rootDrv =>
    match drv_Forkable rootDrv with
    | None =>
      inl [errResp connID reqID ErrCodeUnsupported
             (drv_Name rootDrv +:+ " driver does not support fork")]
    | Some (ForkCommand, ForkChildState) =>
      match ForkCommand (f_Driver rootF) (f_Command rootF) with
      | None =>
        inl [errResp connID reqID ErrCodeUnsupported
               "fork not available (session ID not yet established)"]
      | Some forkCmd =>
        let forkCommand := resolveCreateCommand s forkCmd in
        match GetDriver forkCommand with
        | None =>
          inl [errResp connID reqID ErrCodeUnsupported
                 ("no driver for fork command " +:+ forkCommand)]
        | Some forkDrv => inr (ForkChildState, forkDrv, forkCommand)
        end
      end
    end
  end.

Definition reduceForkSession s (connID : ConnID) (reqID : string) (sid : SessionID)
    : State * list Effect :=
  if bool_decide (sid = "") then
    (s, [errResp connID reqID ErrCodeInvalidArgument "session_id required"])
  else
    match st_Sessions s !! sid with
    | None => (s, [errResp connID reqID ErrCodeNotFound "session not found"])
    | Some sess =>
      match rootFrame sess with
      | None => (s, [errResp connID reqID ErrCodeInvalidArgument "session has no root frame"])
      | Some rootF =>
        match resolveForkDrv s connID reqID rootF with
        | inl errEff => (s, errEff)
        | inr (ForkChildState, forkDrv, forkCommand) =>
          buildForkSession s connID reqID sess rootF ForkChildState forkDrv forkCommand
        end
      end
    end.

(** ** Removing frames *)

Definition frameTeardownEffects (frameID : FrameID) (killWindow : bool) : list Effect :=
  (if killWindow then [EffKillFrame frameID] else [])
  ++ [EffReleaseFrame frameID; EffUnregisterFrame frameID; EffUnwatchFile frameID].

Definition endSession sess (now : Time) : Session :=
  sess <| ss_Frames := [] |> <| ss_HeadFrameID := "" |> <| ss_MRUFrameIDs := [] |>
       <| ss_EndedAt := Some now |>.

Definition reduceStopSession s (connID : ConnID) (reqID : string) (sid : SessionID)
    : State * list Effect :=
  match st_Sessions s !! sid with
  | None => (s, [errResp connID reqID ErrCodeNotFound "session not found"])
  | Some sess =>
    let removed := truncateFrames sess 0 in
    (s <| st_Sessions := <[sid := endSession sess (st_Now s)]> (st_Sessions s) |>,
     [EffBroadcastSessionsChanged]
     ++ (frame ← removed; frameTeardownEffects (f_ID frame) true)
     ++ [okResp connID reqID BodyNil; EffPersistSnapshot])
  end.

Definition evictRootFrame s (sessID : SessionID) sess (killWindow : bool)
    (disposition : rootDisposition) : State * list Effect :=
  let allRemoved := truncateFrames sess 0 in
  let s := s <| st_Sessions :=
    if bool_decide (disposition = retainEndedSession)
    then <[sessID := endSession sess (st_Now s)]> (st_Sessions s)
    else delete sessID (st_Sessions s) |> in
  let '(s, reapEffs) := cancelApprovalsForSession s sessID in
  let '(s, qReap) := cancelQuestionsForSession s sessID in
  (s, reapEffs ++ qReap
      ++ (frame ← allRemoved; frameTeardownEffects (f_ID frame) killWindow)
      ++ [EffPersistSnapshot; EffBroadcastSessionsChanged]).

(** The head after the active frame is removed: the most recent frame that
    still exists, or the root. *)
Definition fallbackHead sess : Session :=
  let '(fallback, sess) := popMRU sess in
  let fallback := if bool_decide (fallback = "")
                  then default "" (f_ID <$> head (ss_Frames sess)) else fallback in
  sess <| ss_HeadFrameID := fallback |>.

Definition evictChildFrame s (sessID : SessionID) sess (idx : nat) (frameID : FrameID)
    (killWindow : bool) : State * list Effect :=
  let wasActive := bool_decide (ss_HeadFrameID sess = frameID) in
  let '(sess, removed) := removeFrameByIndex sess idx in
  let sess := bumpFrameGeneration sess in
  let sess := pruneMRU sess in
  let sess := if wasActive then fallbackHead sess else sess in
  let s := s <| st_Sessions := <[sessID := sess]> (st_Sessions s) |> in
  let '(s, reapEffs) := cancelApprovalsForFrame s frameID in
  let '(s, qReap) := cancelQuestionsForFrame s frameID in
  (s, reapEffs ++ frameTeardownEffects (default "" (f_ID <$> removed)) killWindow
      ++ qReap ++ [EffPersistSnapshot; EffBroadcastSessionsChanged]).

(** [None] is Go's [ok = false]. *)
Definition evictFrame s (frameID : FrameID) (killWindow : bool) (disposition : rootDisposition)
    : option (State * list Effect) :=
  '(sessID, sess, idx) ← findFrame s frameID;
  if bool_decide (idx = O) then Some (evictRootFrame s sessID sess killWindow disposition)
  else Some (evictChildFrame s sessID sess idx frameID killWindow).

(** ** Spawn results and navigation *)

Definition reduceFrameSpawned s (e : EvFrameSpawned) : State * list Effect :=
  match (sess ← st_Sessions s !! efs_SessionID e;
         frameIdx ← findFrameIndex sess (efs_FrameID e);
         frame ← ss_Frames sess !! frameIdx; Some (sess, frameIdx, frame)) with
  | None => (s, [])
  | Some (sess, frameIdx, frame) =>
    let bind := negb (bool_decide (efs_SubsystemID e = ""))
                && negb (bool_decide (f_SubsystemID frame = efs_SubsystemID e)) in
    let frame := if bind then frame <| f_SubsystemID := efs_SubsystemID e |> else frame in
    let s := if bind
             then s <| st_Sessions := <[efs_SessionID e :=
                    sess <| ss_Frames := <[frameIdx := frame]> (ss_Frames sess) |>]> (st_Sessions s) |>
             else s in
    let s := if bool_decide (efs_WorktreeStartDir e = "") then s
             else match stepDriver s (efs_FrameID e)
                          (DEvWorktreeResolved (efs_WorktreeStartDir e) (efs_WorktreeName e)) with
                  | Some (next, _) => next
                  | None => s
                  end in
    let '(s, bootstrapEffs) :=
      if bool_decide (frameIdx = O)
      then default (s, []) (bootstrapDriverSessionStart s (efs_FrameID e))
      else (s, []) in
    (s, bootstrapEffs
        ++ [EffRegisterFrame (efs_FrameID e)
              (bool_decide (frameIdx = O) || negb (bool_decide (f_SubsystemID frame = "")));
            EffPersistSnapshot; EffBroadcastSessionsChanged]
        ++ (if efs_ReplyConn e =? 0 then []
            else [okResp (efs_ReplyConn e) (efs_ReplyReqID e)
                    (BodyCreateSession (efs_SessionID e))]))
  end.

Definition reduceSpawnFailed s (e : EvSpawnFailed) : State * list Effect :=
  let '(s, effs) := default (s, []) (evictFrame s (esf_FrameID e) false dropUnstartedSession) in
  if esf_ReplyConn e =? 0 then (s, effs)
  else (s, effs ++ [errResp (esf_ReplyConn e) (esf_ReplyReqID e) ErrCodeInternal
                      ("frame spawn failed: " +:+ esf_Err e)]).

Definition reduceListSessions s (connID : ConnID) (reqID : string) : State * list Effect :=
  (s, [okResp connID reqID BodySessions]).

Definition reduceSetHeadFrame s (connID : ConnID) (reqID : string) (p : SetHeadFrameParams)
    : State * list Effect :=
  match st_Sessions s !! hp_SessionID p with
  | None => (s, [errResp connID reqID ErrCodeNotFound "session not found"])
  | Some sess =>
    if bool_decide (findFrameIndex sess (hp_FrameID p) = None) then
      (s, [errResp connID reqID ErrCodeNotFound "frame not found"])
    else if bool_decide (ss_HeadFrameID sess = hp_FrameID p) then
      (s, [okResp connID reqID BodyNil])
    else
      let sess := pushMRU sess (ss_HeadFrameID sess) in
      let sess := sess <| ss_HeadFrameID := hp_FrameID p |> in
      (s <| st_Sessions := <[hp_SessionID p := sess]> (st_Sessions s) |>,
       [okResp connID reqID BodyNil; EffPersistSnapshot; EffBroadcastSessionsChanged])
  end.

End Session.
