(* ===== verification/HostInputFacts.v ===== *)
(** * host/state: the life of a human-input request

    What the transitions of HostInput.v promise together.  A ledger is a
    two-level map; its abstract view is one partial map from request ids to
    requests, which every operation updates at the ids it names and nowhere
    else.  [input_step] is the contract of a transition: the ledger stays well
    formed, a request only moves forward, and announcements, closings and
    replies to the held agent call balance.  It is a preorder in the effects, so
    that whole handlers compose it.  The section is generic in the kind of
    request; approvals and questions are its two instances. *)

From S2P Require Import Prelude HostState HostFrames HostInput.

(** What the contract needs to know about a kind of request: where its ledger
    is, which effects announce it, close it and reply to it. *)
Class Request {HT : HostTypes} (R : Type) := {
  rq_ID : R -> string;
  rq_Session : R -> SessionID;
  rq_Status : R -> RequestStatus;
  rq_sound : R -> Prop;
  rq_same : R -> R -> Prop;
  rq_same_preorder :: PreOrder rq_same;
  rq_ledger : State -> gmap string (gmap string R);
  eff_opens : Effect -> option string;
  eff_closes : Effect -> option string;
  eff_closes_held : Effect -> option string;
  eff_replies : Effect -> option string }.

(** The number of effects of a list that a classifier maps to an id. *)
Definition occ {HT : HostTypes} (f : Effect -> option string) (id : string) (effs : list Effect)
    : nat :=
  length (filter (fun e => f e = Some id) effs).

Section Occ.
Context {HT : HostTypes}.
Implicit Types (f : Effect -> option string) (effs : list Effect).

Lemma occ_app f id effs effs' : occ f id (effs ++ effs') = (occ f id effs + occ f id effs')%nat.
Proof. unfold occ. by rewrite filter_app, length_app. Qed.

Lemma occ_nil f id : occ f id [] = O.
Proof. done. Qed.

Lemma occ_cons f id e effs :
  occ f id (e :: effs) = ((if decide (f e = Some id) then 1 else 0) + occ f id effs)%nat.
Proof. unfold occ. rewrite filter_cons. by case_decide. Qed.

Lemma occ_none f id effs : Forall (fun e => f e = None) effs -> occ f id effs = O.
Proof.
  induction 1 as [|e effs He _ IH]; [done|]. rewrite occ_cons, IH, He. by case_decide.
Qed.
End Occ.

Create Rewrite HintDb occ.
#[export] Hint Rewrite @occ_app @occ_nil @occ_cons : occ.

(** ** The ledger as a partial map *)

Section View.
Context {R : Type}.
Implicit Types (m : gmap string (gmap string R)).

Definition entry m (sessID id : string) : option R := rs ← m !! sessID; rs !! id.

Lemma entry_put m sessID id r sessID' id' :
  entry (ledger_put m sessID id r) sessID' id'
  = if decide (sessID' = sessID /\ id' = id) then Some r else entry m sessID' id'.
Proof.
  unfold entry, ledger_put. destruct (decide (sessID' = sessID)) as [->|].
  - rewrite lookup_insert_eq. simpl. destruct (decide (id' = id)) as [->|].
    + by rewrite lookup_insert_eq, decide_True.
    + rewrite lookup_insert_ne, decide_False by naive_solver.
      by destruct (m !! sessID); simpl; rewrite ?lookup_empty.
  - by rewrite lookup_insert_ne, decide_False by naive_solver.
Qed.

Lemma entry_delete m sessID id sessID' id' :
  entry (ledger_delete m sessID id) sessID' id'
  = if decide (sessID' = sessID /\ id' = id) then None else entry m sessID' id'.
Proof.
  unfold entry, ledger_delete. destruct (m !! sessID) as [rs|] eqn:Hs.
  2:{ case_decide; [|done]. destruct_and!; subst. by rewrite Hs. }
  destruct (rs !! id) as [r|] eqn:Hid.
  2:{ case_decide; [|done]. destruct_and!; subst. by rewrite Hs. }
  destruct (decide (sessID' = sessID)) as [->|].
  2:{ case_bool_decide; [rewrite lookup_delete_ne | rewrite lookup_insert_ne];
      try done; by rewrite decide_False by naive_solver. }
  assert (delete id rs !! id' = if decide (sessID = sessID /\ id' = id) then None else rs !! id')
    as Hdel.
  { rewrite lookup_delete. repeat case_decide; naive_solver. }
  rewrite Hs. simpl. rewrite <- Hdel. case_bool_decide as Hsz.
  - apply map_size_empty_inv in Hsz. by rewrite Hsz, lookup_delete_eq, lookup_empty.
  - by rewrite lookup_insert_eq.
Qed.

Lemma elem_of_hits `{GoMapRange} (p : R -> bool) m sessID r :
  (sessID, r) ∈ ledger_hits p m <-> exists id, entry m sessID id = Some r /\ p r = true.
Proof.
  unfold ledger_hits, entry. rewrite list_elem_of_bind. split.
  - intros ([sess rs] & Hin & Hr%elem_of_range).
    apply list_elem_of_bind in Hin as ([id r'] & Hin & Hid%elem_of_range).
    destruct (p r') eqn:?; [|by apply elem_of_nil in Hin].
    apply list_elem_of_singleton in Hin. simplify_eq. exists id. by rewrite Hr.
  - intros (id & Hentry & Hp). destruct (m !! sessID) as [rs|] eqn:Hs; [|done].
    exists (sessID, rs). split; [|by apply elem_of_range].
    apply list_elem_of_bind. exists (id, r). rewrite Hp. split; [set_solver|].
    by apply elem_of_range.
Qed.
End View.

Section Contract.
Context `{GoMapRange} {HT : HostTypes} {R : Type} `{!Request R}.
Implicit Types (m : gmap string (gmap string R)) (s : State) (effs : list Effect).

(** Every entry is filed under its own session and id, ids are unique over all
    sessions, and every request is sound. *)
Record ledger_wf m : Prop := {
  wf_entry : forall sessID id r, entry m sessID id = Some r ->
    rq_ID r = id /\ rq_Session r = sessID /\ id <> "" /\ rq_sound r;
  wf_unique : forall sessID sessID' id r r', entry m sessID id = Some r ->
    entry m sessID' id = Some r' -> sessID = sessID' }.

Definition view m (id : string) : option R := fst <$> ledger_find m id.

Lemma find_entry m id r sessID :
  ledger_find m id = Some (r, sessID) -> entry m sessID id = Some r.
Proof.
  unfold ledger_find. case_bool_decide; [done|].
  intros (k & rs & Hk & Hf)%range_find_Some. unfold entry.
  destruct (rs !! id) eqn:?; simplify_eq/=. by rewrite Hk.
Qed.

Lemma entry_find m id r sessID :
  ledger_wf m -> entry m sessID id = Some r -> ledger_find m id = Some (r, sessID).
Proof.
  intros Hwf He. pose proof (wf_entry _ Hwf _ _ _ He) as (_ & _ & Hne & _).
  unfold ledger_find. rewrite bool_decide_eq_false_2 by done.
  pose proof He as He'. unfold entry in He'. destruct (m !! sessID) as [rs|] eqn:Hs; [|done].
  simpl in He'. eapply range_find_unique; [exact Hs | by rewrite He' | simpl].
  intros k v [r' k'] Hk Hv. destruct (v !! id) as [r''|] eqn:Hv'; simplify_eq/=.
  assert (entry m k' id = Some r') as He'' by (unfold entry; by rewrite Hk).
  pose proof (wf_unique _ Hwf _ _ _ _ _ He He''). naive_solver.
Qed.

Lemma view_Some m id r :
  ledger_wf m -> view m id = Some r <-> exists sessID, entry m sessID id = Some r.
Proof.
  intros Hwf. unfold view. split.
  - destruct (ledger_find m id) as [[r' sessID]|] eqn:Hf; [|done].
    apply find_entry in Hf. simpl. naive_solver.
  - intros [sessID He]. by rewrite (entry_find _ _ _ _ Hwf He).
Qed.

Lemma view_None m id : ledger_wf m -> view m id = None <-> forall sessID, entry m sessID id = None.
Proof.
  intros Hwf. rewrite eq_None_not_Some. split.
  - intros Hno sessID. destruct (entry m sessID id) as [r|] eqn:He; [|done].
    destruct Hno. exists r. apply view_Some; eauto.
  - intros Hall [r Hr]. apply view_Some in Hr as [sessID He]; [|done]. by rewrite Hall in He.
Qed.

(** Writing a request under its own session updates the view at its id. *)
Lemma ledger_put_spec m r :
  ledger_wf m -> rq_ID r <> "" -> rq_sound r ->
  (view m (rq_ID r) = None \/ is_Some (entry m (rq_Session r) (rq_ID r))) ->
  let m' := ledger_put m (rq_Session r) (rq_ID r) r in
  ledger_wf m' /\
  forall id, view m' id = if decide (id = rq_ID r) then Some r else view m id.
Proof.
  intros Hwf Hne Hsound Hslot m'.
  assert (forall sessID r', entry m sessID (rq_ID r) = Some r' -> sessID = rq_Session r) as Huniq.
  { intros sessID r' He. destruct Hslot as [Hno|[r'' He']].
    - rewrite view_None in Hno by done. by rewrite Hno in He.
    - by eapply wf_unique. }
  assert (ledger_wf m') as Hwf'.
  { split.
    - intros sessID id r'. unfold m'. rewrite entry_put. case_decide; [naive_solver|].
      by apply wf_entry.
    - intros sessID sessID' id r1 r2. unfold m'. rewrite !entry_put.
      repeat case_decide; destruct_and?; subst; intros ??; simplify_eq; eauto.
      + symmetry. eauto.
      + by eapply wf_unique. }
  split; [done|]. intros id. case_decide; subst.
  - apply view_Some; [done|]. exists (rq_Session r). unfold m'.
    by rewrite entry_put, decide_True.
  - apply option_eq. intros r'. rewrite !view_Some by done. unfold m'.
    by setoid_rewrite entry_put; setoid_rewrite decide_False; [|naive_solver..].
Qed.

Lemma ledger_delete_spec m sessID id r :
  ledger_wf m -> entry m sessID id = Some r ->
  let m' := ledger_delete m sessID id in
  ledger_wf m' /\
  forall id', view m' id' = if decide (id' = id) then None else view m id'.
Proof.
  intros Hwf He m'. assert (ledger_wf m') as Hwf'.
  { split.
    - intros s i r'. unfold m'. rewrite entry_delete. case_decide; [done|]. by apply wf_entry.
    - intros s s' i r1 r2. unfold m'. rewrite !entry_delete.
      repeat case_decide; try done. by apply wf_unique. }
  split; [done|]. intros id'. case_decide; subst.
  - apply view_None; [done|]. intros s. unfold m'. rewrite entry_delete. case_decide; [done|].
    destruct (entry m s id) eqn:He'; [|done].
    pose proof (wf_unique _ Hwf _ _ _ _ _ He He'). naive_solver.
  - apply option_eq. intros r'. rewrite !view_Some by done. unfold m'.
    by setoid_rewrite entry_delete; setoid_rewrite decide_False; [|naive_solver..].
Qed.

Lemma hits_NoDup (p : R -> bool) m :
  ledger_wf m -> NoDup ((fun h => rq_ID h.2) <$> ledger_hits p m).
Proof.
  intros Hwf. apply NoDup_fmap_2_strong.
  - intros [s1 r1] [s2 r2] (i1 & H1 & _)%elem_of_hits (i2 & H2 & _)%elem_of_hits Heq.
    pose proof (wf_entry _ Hwf _ _ _ H1). pose proof (wf_entry _ Hwf _ _ _ H2).
    destruct_and!. simpl in Heq. assert (i1 = i2) as -> by congruence.
    pose proof (wf_unique _ Hwf _ _ _ _ _ H1 H2). congruence.
  - unfold ledger_hits. apply NoDup_bind.
    + intros [s1 m1] [s2 m2] [s r] Hm1%elem_of_range Hm2%elem_of_range.
      rewrite !list_elem_of_bind. intros ([i1 r1] & Hin1 & _) ([i2 r2] & Hin2 & _).
      destruct (p r1), (p r2); set_solver.
    + intros [s1 m1] Hm1%elem_of_range. apply NoDup_bind.
      * intros [i1 r1] [i2 r2] [s r] H1%elem_of_range H2%elem_of_range Hi1 Hi2.
        assert (r1 = r /\ r2 = r) as [-> ->] by (destruct (p r1), (p r2); set_solver).
        assert (entry m s1 i1 = Some r /\ entry m s1 i2 = Some r) as [He1 He2]
          by (unfold entry; by rewrite Hm1).
        apply (wf_entry _ Hwf) in He1, He2. destruct_and!; congruence.
      * intros [i1 r1] _. destruct (p r1); [apply NoDup_singleton | constructor].
      * eapply NoDup_fmap_1, NoDup_range_keys.
    + eapply NoDup_fmap_1, NoDup_range_keys.
Qed.

(** ** The contract of a transition *)

(** 1 when the request is still waiting for an answer. *)
Definition pend (o : option R) : nat :=
  match o with
  | Some r => if decide (rq_Status r = Pending) then 1 else 0
  | None => 0
  end.

(** A request keeps its identity and leaves [Pending] at most once. *)
Definition advance (r r' : R) : Prop :=
  rq_same r r' /\ (r' = r \/ (rq_Status r = Pending /\ rq_Status r' <> Pending)).

#[export] Instance advance_preorder : PreOrder advance.
Proof.
  split.
  - intros r. split; [done | by left].
  - intros r1 r2 r3 [S12 A12] [S23 A23]. split; [by trans r2|].
    destruct A12 as [->|], A23 as [->|]; tauto.
Qed.

(** An effect that says nothing about requests of this kind. *)
Definition silent (e : Effect) : Prop :=
  eff_opens e = None /\ eff_closes e = None /\ eff_closes_held e = None /\ eff_replies e = None.

Record input_step s effs s' : Prop := {
  is_wf : ledger_wf (rq_ledger s');
  is_balance : forall id,
    (occ eff_opens id effs + pend (view (rq_ledger s) id)
     = occ eff_closes id effs + pend (view (rq_ledger s') id))%nat;
  is_replies : forall id, occ eff_closes_held id effs = occ eff_replies id effs;
  is_forward : forall id r', occ eff_opens id effs = O -> view (rq_ledger s') id = Some r' ->
    exists r, view (rq_ledger s) id = Some r /\ advance r r' }.

Lemma silent_occ id effs :
  Forall silent effs ->
  occ eff_opens id effs = O /\ occ eff_closes id effs = O /\
  occ eff_closes_held id effs = O /\ occ eff_replies id effs = O.
Proof.
  intros Hs. repeat split; apply occ_none; (eapply Forall_impl; [exact Hs|]);
    unfold silent; tauto.
Qed.

Lemma input_step_silent s effs s' :
  ledger_wf (rq_ledger s) -> rq_ledger s' = rq_ledger s -> Forall silent effs ->
  input_step s effs s'.
Proof.
  intros Hwf Heq Hsil. split; rewrite ?Heq; try done;
    intros id; destruct (silent_occ id effs Hsil) as (Ho & Hc & Hh & Hr).
  - lia.
  - congruence.
  - intros r' _ Hv. exists r'. by split.
Qed.

Lemma input_step_trans s1 effs1 s2 effs2 s3 :
  input_step s1 effs1 s2 -> input_step s2 effs2 s3 -> input_step s1 (effs1 ++ effs2) s3.
Proof.
  intros [W1 B1 R1 F1] [W2 B2 R2 F2]. split; [done|..]; intros id; rewrite ?occ_app.
  - specialize (B1 id). specialize (B2 id). lia.
  - by rewrite R1, R2.
  - intros r3 Ho Hv. apply F2 in Hv as (r2 & Hv & A2); [|lia].
    apply F1 in Hv as (r1 & Hv & A1); [|lia]. exists r1. split; [done|]. by trans r2.
Qed.

(** A transition that changes one request: it may announce it, and closes it
    with a reply exactly when it leaves [Pending]. *)
Lemma input_step_update s effs s' id o :
  ledger_wf (rq_ledger s') ->
  (forall id', view (rq_ledger s') id' = if decide (id' = id) then o else view (rq_ledger s) id') ->
  (forall id', id' <> id -> occ eff_opens id' effs = O /\ occ eff_closes id' effs = O) ->
  (forall id', occ eff_closes_held id' effs = occ eff_replies id' effs) ->
  (occ eff_opens id effs + pend (view (rq_ledger s) id) = occ eff_closes id effs + pend o)%nat ->
  (forall r', occ eff_opens id effs = O -> o = Some r' ->
     exists r, view (rq_ledger s) id = Some r /\ advance r r') ->
  input_step s effs s'.
Proof.
  intros Hwf Hview Hother Hrep Hbal Hadv. split; [done|..]; intros id'.
  - rewrite Hview. case_decide; [by subst|]. destruct (Hother id') as [-> ->]; done.
  - done.
  - intros r' Ho. rewrite Hview. case_decide; [subst; by apply Hadv|].
    intros Hv. exists r'. by split.
Qed.

(** The effects of a transition that closes, or announces, one request. *)
Definition closes_one (id : string) effs : Prop := forall id',
  occ eff_opens id' effs = O /\
  occ eff_closes id' effs = (if decide (id' = id) then 1 else 0)%nat /\
  occ eff_closes_held id' effs = occ eff_replies id' effs.

Definition opens_one (id : string) effs : Prop := forall id',
  occ eff_opens id' effs = (if decide (id' = id) then 1 else 0)%nat /\
  occ eff_closes id' effs = O /\
  occ eff_closes_held id' effs = occ eff_replies id' effs.

Lemma input_step_close s effs s' r o :
  ledger_wf (rq_ledger s') ->
  (forall id', view (rq_ledger s') id'
     = if decide (id' = rq_ID r) then o else view (rq_ledger s) id') ->
  view (rq_ledger s) (rq_ID r) = Some r -> rq_Status r = Pending -> pend o = O ->
  (forall r', o = Some r' -> advance r r') ->
  closes_one (rq_ID r) effs ->
  input_step s effs s'.
Proof.
  intros Hwf' Hview Hr Hp Ho Hadv Heffs. eapply input_step_update; [done|done|..].
  - intros id' Hne. destruct (Heffs id') as (-> & -> & _). by rewrite decide_False.
  - apply Heffs.
  - destruct (Heffs (rq_ID r)) as (-> & -> & _). rewrite Hr, Ho, decide_True by done.
    simpl. rewrite decide_True by done. lia.
  - intros r' _ ->. eauto.
Qed.

Lemma close_put s effs s' r r' :
  ledger_wf (rq_ledger s) -> entry (rq_ledger s) (rq_Session r) (rq_ID r) = Some r ->
  rq_Status r = Pending -> rq_Status r' <> Pending -> rq_same r r' -> rq_sound r' ->
  rq_ID r' = rq_ID r -> rq_Session r' = rq_Session r ->
  rq_ledger s' = ledger_put (rq_ledger s) (rq_Session r') (rq_ID r') r' ->
  closes_one (rq_ID r) effs ->
  input_step s effs s'.
Proof.
  intros Hwf He Hp Hp' Hsame Hsound Hid Hsess Hput Heffs.
  pose proof (wf_entry _ Hwf _ _ _ He) as (_ & _ & Hne & _).
  destruct (ledger_put_spec (rq_ledger s) r') as [Hwf' Hview]; [done| |done| |].
  { by rewrite Hid. }
  { right. rewrite Hid, Hsess. eauto. }
  rewrite <- Hput in Hwf', Hview. rewrite Hid in Hview.
  eapply input_step_close; eauto.
  - apply view_Some; eauto.
  - simpl. by rewrite decide_False.
  - intros ? [= <-]. split; auto.
Qed.

Lemma close_delete s effs s' sessID r :
  ledger_wf (rq_ledger s) -> entry (rq_ledger s) sessID (rq_ID r) = Some r ->
  rq_Status r = Pending ->
  rq_ledger s' = ledger_delete (rq_ledger s) sessID (rq_ID r) ->
  closes_one (rq_ID r) effs ->
  input_step s effs s'.
Proof.
  intros Hwf He Hp Hdel Heffs.
  destruct (ledger_delete_spec (rq_ledger s) _ _ _ Hwf He) as [Hwf' Hview].
  rewrite <- Hdel in Hwf', Hview. eapply input_step_close; eauto; [|done..].
  apply view_Some; eauto.
Qed.

(** Dropping the tombstone of a closed request. *)
Lemma drop_delete s effs s' sessID r :
  ledger_wf (rq_ledger s) -> entry (rq_ledger s) sessID (rq_ID r) = Some r ->
  rq_Status r <> Pending ->
  rq_ledger s' = ledger_delete (rq_ledger s) sessID (rq_ID r) -> Forall silent effs ->
  input_step s effs s'.
Proof.
  intros Hwf He Hp Hdel Hsil.
  destruct (ledger_delete_spec (rq_ledger s) _ _ _ Hwf He) as [Hwf' Hview].
  rewrite <- Hdel in Hwf', Hview. eapply input_step_update; [done|done|..].
  - intros id' _. by destruct (silent_occ id' effs Hsil) as (-> & -> & _).
  - intros id'. by destruct (silent_occ id' effs Hsil) as (_ & _ & -> & ->).
  - destruct (silent_occ (rq_ID r) effs Hsil) as (-> & -> & _).
    assert (view (rq_ledger s) (rq_ID r) = Some r) as -> by (apply view_Some; eauto).
    simpl. by rewrite decide_False.
  - done.
Qed.

Lemma open_put s effs s' r :
  ledger_wf (rq_ledger s) -> ledger_find (rq_ledger s) (rq_ID r) = None ->
  rq_ID r <> "" -> rq_Status r = Pending -> rq_sound r ->
  rq_ledger s' = ledger_put (rq_ledger s) (rq_Session r) (rq_ID r) r ->
  opens_one (rq_ID r) effs ->
  input_step s effs s' /\ entry (rq_ledger s') (rq_Session r) (rq_ID r) = Some r.
Proof.
  intros Hwf Hnone Hne Hp Hsound Hput Heffs.
  assert (view (rq_ledger s) (rq_ID r) = None) as Hv by (unfold view; by rewrite Hnone).
  destruct (ledger_put_spec (rq_ledger s) r) as [Hwf' Hview]; auto.
  split; [|rewrite Hput, entry_put; by rewrite decide_True].
  rewrite <- Hput in Hwf', Hview. eapply input_step_update; [done|done|..].
  - intros id' Hne'. destruct (Heffs id') as (-> & -> & _). by rewrite decide_False.
  - apply Heffs.
  - destruct (Heffs (rq_ID r)) as (-> & -> & _). rewrite Hv. simpl.
    by rewrite !decide_True.
  - intros r' Ho. destruct (Heffs (rq_ID r)) as (Ho' & _). by rewrite decide_True, Ho in Ho'.
Qed.

End Contract.

(** ** The two kinds of request *)

Section Kinds.
Context {HT : HostTypes}.

(** The decision of an approval is the one its resolution calls for: the
    client's, the auto-approval, the default captured at creation when it
    expires, deny when it is cancelled. *)
Definition approval_sound (r : ApprovalRequest) : Prop :=
  ap_ExpiresAt r = Add (ap_CreatedAt r) DefaultApprovalTTL /\
  (ap_DefaultDecision r = DecisionAccept \/ ap_DefaultDecision r = DecisionDeny) /\
  match ap_Status r, ap_ResolutionReason r with
  | Pending, ReasonNone | Resolved, ReasonServer => ap_Decision r = DecisionNone
  | Resolved, ReasonClient => ap_Decision r = DecisionAccept \/ ap_Decision r = DecisionDeny
  | Resolved, ReasonAuto => ap_Decision r = DecisionAccept /\ ap_DefaultDecision r = DecisionAccept
  | Expired, ReasonExpired => ap_Decision r = ap_DefaultDecision r
  | Cancelled, ReasonCancelled => ap_Decision r = DecisionDeny
  | _, _ => False
  end.

(** Everything but the resolution. *)
Definition approval_identity (r : ApprovalRequest) : ApprovalRequest :=
  r <| ap_Status := Pending |> <| ap_Decision := DecisionNone |>
    <| ap_ResolvingClientInstanceID := "" |> <| ap_ResolutionReason := ReasonNone |>.

Definition broadcasts_approval (name : string) (e : Effect) : option ApprovalRequest :=
  match e with
  | EffBroadcastEvent n (PayApproval r) _ => if bool_decide (n = name) then Some r else None
  | _ => None
  end.

#[export] Instance approval_request : Request ApprovalRequest.
Proof.
  refine {|
    rq_ID := ap_ID; rq_Session := ap_SessionID; rq_Status := ap_Status;
    rq_sound := approval_sound;
    rq_same := fun r r' => approval_identity r = approval_identity r';
    rq_ledger := st_PendingApprovals;
    eff_opens := fun e => ap_ID <$> broadcasts_approval EvtNameApprovalRequested e;
    eff_closes := fun e => ap_ID <$> broadcasts_approval EvtNameApprovalResolved e;
    eff_closes_held := fun e =>
      r ← broadcasts_approval EvtNameApprovalResolved e;
      if bool_decide (ap_ResolutionReason r = ReasonServer) then None else Some (ap_ID r);
    eff_replies := fun e =>
      match e with EffReplyHeldApproval _ id _ _ => Some id | _ => None end |}.
  split; [by intros r | by intros r1 r2 r3 -> ->].
Defined.

Definition question_sound (q : QuestionRequest) : Prop :=
  qu_ExpiresAt q = Add (qu_CreatedAt q) DefaultQuestionTTL /\
  match qu_Status q, qu_ResolutionReason q with
  | Resolved, ReasonClient => True
  | Pending, ReasonNone | Resolved, ReasonServer | Expired, ReasonExpired
  | Cancelled, ReasonCancelled => qu_Answer q = ""
  | _, _ => False
  end.

Definition question_identity (q : QuestionRequest) : QuestionRequest :=
  q <| qu_Status := Pending |> <| qu_Answer := "" |>
    <| qu_ResolvingClientInstanceID := "" |> <| qu_ResolutionReason := ReasonNone |>.

Definition broadcasts_question (name : string) (e : Effect) : option QuestionRequest :=
  match e with
  | EffBroadcastEvent n (PayQuestion q) _ => if bool_decide (n = name) then Some q else None
  | _ => None
  end.

#[export] Instance question_request : Request QuestionRequest.
Proof.
  refine {|
    rq_ID := qu_ID; rq_Session := qu_SessionID; rq_Status := qu_Status;
    rq_sound := question_sound;
    rq_same := fun q q' => question_identity q = question_identity q';
    rq_ledger := st_PendingQuestions;
    eff_opens := fun e => qu_ID <$> broadcasts_question EvtNameQuestionRequested e;
    eff_closes := fun e => qu_ID <$> broadcasts_question EvtNameQuestionResolved e;
    eff_closes_held := fun e =>
      q ← broadcasts_question EvtNameQuestionResolved e;
      if bool_decide (qu_ResolutionReason q = ReasonServer) then None else Some (qu_ID q);
    eff_replies := fun e =>
      match e with EffReplyHeldQuestion _ id _ _ => Some id | _ => None end |}.
  split; [by intros q | by intros q1 q2 q3 -> ->].
Defined.

End Kinds.

(** Counts the classified effects of an explicit list. *)
Ltac count_effects :=
  intros ?; autorewrite with occ; cbn;
  repeat case_decide; simplify_eq/=; repeat split; lia.

Section Operations.
Context `{GoMapRange} `{DriverSys}.
Implicit Types (s : State) (effs : list Effect).

Definition input_wf s : Prop :=
  ledger_wf (R := ApprovalRequest) (st_PendingApprovals s) /\
  ledger_wf (R := QuestionRequest) (st_PendingQuestions s).

Record inputs_step s effs s' : Prop := {
  approvals_step : input_step (R := ApprovalRequest) s effs s';
  questions_step : input_step (R := QuestionRequest) s effs s' }.

Definition input_contract s (out : State * list Effect) : Prop :=
  input_wf s -> inputs_step s out.2 out.1.

Definition silent_input (e : Effect) : Prop :=
  silent (R := ApprovalRequest) e /\ silent (R := QuestionRequest) e.

Lemma inputs_step_wf s effs s' : inputs_step s effs s' -> input_wf s'.
Proof. intros [[] []]. by split. Qed.

Lemma inputs_step_trans s1 effs1 s2 effs2 s3 :
  inputs_step s1 effs1 s2 -> inputs_step s2 effs2 s3 -> inputs_step s1 (effs1 ++ effs2) s3.
Proof. intros [A1 Q1] [A2 Q2]. split; by eapply input_step_trans. Qed.

Lemma inputs_step_silent s effs s' :
  input_wf s -> st_PendingApprovals s' = st_PendingApprovals s ->
  st_PendingQuestions s' = st_PendingQuestions s -> Forall silent_input effs ->
  inputs_step s effs s'.
Proof.
  intros [Ha Hq] Ea Eq Hs. split; (apply input_step_silent; [done|done|]);
    (eapply Forall_impl; [exact Hs|]); unfold silent_input; tauto.
Qed.

(** An approval transition says nothing about questions, and conversely. *)
Lemma approvals_only s effs s' :
  input_wf s -> st_PendingQuestions s' = st_PendingQuestions s ->
  Forall (silent (R := QuestionRequest)) effs ->
  input_step (R := ApprovalRequest) s effs s' -> inputs_step s effs s'.
Proof. intros [_ Hq] Eq Hs Ha. split; [done|]. by apply input_step_silent. Qed.

Lemma questions_only s effs s' :
  input_wf s -> st_PendingApprovals s' = st_PendingApprovals s ->
  Forall (silent (R := ApprovalRequest)) effs ->
  input_step (R := QuestionRequest) s effs s' -> inputs_step s effs s'.
Proof. intros [Ha _] Eq Hs Hq. split; [|done]. by apply input_step_silent. Qed.

(** What a successful lookup gives. *)
Lemma FindApproval_entry s id r sessID :
  input_wf s -> FindApproval s id = Some (r, sessID) ->
  ap_ID r = id /\ approval_sound r /\
  entry (st_PendingApprovals s) (ap_SessionID r) (ap_ID r) = Some r.
Proof.
  intros [Hwf _] Hf%find_entry. pose proof (wf_entry _ Hwf _ _ _ Hf) as (? & ? & _ & ?).
  simpl in *. subst. auto.
Qed.

Lemma FindQuestion_entry s id q sessID :
  input_wf s -> FindQuestion s id = Some (q, sessID) ->
  qu_ID q = id /\ question_sound q /\
  entry (st_PendingQuestions s) (qu_SessionID q) (qu_ID q) = Some q.
Proof.
  intros [_ Hwf] Hf%find_entry. pose proof (wf_entry _ Hwf _ _ _ Hf) as (? & ? & _ & ?).
  simpl in *. subst. auto.
Qed.

(** Closing a pending approval with a tombstone. *)
Lemma close_approval s effs r r' :
  input_wf s -> entry (st_PendingApprovals s) (ap_SessionID r) (ap_ID r) = Some r ->
  ap_Status r = Pending -> ap_Status r' <> Pending ->
  approval_identity r' = approval_identity r -> approval_sound r' ->
  closes_one (R := ApprovalRequest) (ap_ID r) effs ->
  Forall (silent (R := QuestionRequest)) effs ->
  inputs_step s effs (putApproval s r').
Proof.
  intros Hwf He Hp Hp' Hid Hsound Hc Hsil. apply approvals_only; [done|done|done|].
  assert (ap_ID r' = ap_ID r) by apply (f_equal ap_ID Hid).
  assert (ap_SessionID r' = ap_SessionID r) by apply (f_equal ap_SessionID Hid).
  by apply (close_put (R := ApprovalRequest) s effs (putApproval s r') r r'); try apply Hwf.
Qed.

Lemma close_question s effs q q' :
  input_wf s -> entry (st_PendingQuestions s) (qu_SessionID q) (qu_ID q) = Some q ->
  qu_Status q = Pending -> qu_Status q' <> Pending ->
  question_identity q' = question_identity q -> question_sound q' ->
  closes_one (R := QuestionRequest) (qu_ID q) effs ->
  Forall (silent (R := ApprovalRequest)) effs ->
  inputs_step s effs (putQuestion s q').
Proof.
  intros Hwf He Hp Hp' Hid Hsound Hc Hsil. apply questions_only; [done|done|done|].
  assert (qu_ID q' = qu_ID q) by apply (f_equal qu_ID Hid).
  assert (qu_SessionID q' = qu_SessionID q) by apply (f_equal qu_SessionID Hid).
  by apply (close_put (R := QuestionRequest) s effs (putQuestion s q') q q'); try apply Hwf.
Qed.

(** ** Sweeps

    A loop over requests collected beforehand: every iteration meets the
    contract at its own request and leaves the others alone. *)
Section Sweep.
Context {R : Type} `{!Request R} {A : Type} (body : State * list Effect -> A -> State * list Effect)
  (sess : A -> SessionID) (req : A -> R) (P : A -> Prop).

Hypothesis body_effs : forall s effs a,
  body (s, effs) a = ((body (s, []) a).1, effs ++ (body (s, []) a).2).

Hypothesis body_step : forall s a,
  input_wf s -> P a -> entry (rq_ledger s) (sess a) (rq_ID (req a)) = Some (req a) ->
  inputs_step s (body (s, []) a).2 (body (s, []) a).1 /\
  forall sessID id, id <> rq_ID (req a) ->
    entry (rq_ledger (body (s, []) a).1) sessID id = entry (rq_ledger s) sessID id.

Lemma sweep_step hits s effs0 :
  input_wf s ->
  NoDup ((fun a => rq_ID (req a)) <$> hits) ->
  (forall a, a ∈ hits -> P a /\ entry (rq_ledger s) (sess a) (rq_ID (req a)) = Some (req a)) ->
  exists s' effs, foldl body (s, effs0) hits = (s', effs0 ++ effs) /\ inputs_step s effs s'.
Proof.
  revert s effs0. induction hits as [|a hits IH]; intros s effs0 Hwf Hnd Hin; simpl.
  - exists s, []. rewrite app_nil_r. split; [done|]. by apply inputs_step_silent.
  - rewrite fmap_cons, NoDup_cons in Hnd. destruct Hnd as [Hnew Hnd].
    destruct (Hin a) as [HP He]; [set_solver|].
    destruct (body_step s a Hwf HP He) as [Hstep Hframe]. rewrite body_effs.
    destruct (body (s, []) a) as [s1 effs1]. simpl in *.
    destruct (IH s1 (effs0 ++ effs1) (inputs_step_wf _ _ _ Hstep) Hnd) as (s' & effs & -> & Hrest).
    { intros b Hb. destruct (Hin b) as [HPb Heb]; [set_solver|]. split; [done|].
      rewrite Hframe; [done|]. intros Heq. apply Hnew. rewrite <- Heq.
      apply list_elem_of_fmap. eauto. }
    exists s', (effs1 ++ effs). rewrite app_assoc. split; [done|].
    by eapply inputs_step_trans.
Qed.
(** When an iteration writes [upd a] at its own request, so does the loop. *)
Lemma sweep_view (upd : A -> option R) hits s effs0 :
  (forall s a, input_wf s -> P a ->
     entry (rq_ledger s) (sess a) (rq_ID (req a)) = Some (req a) ->
     forall id, view (rq_ledger (body (s, []) a).1) id
       = if decide (id = rq_ID (req a)) then upd a else view (rq_ledger s) id) ->
  input_wf s -> NoDup ((fun a => rq_ID (req a)) <$> hits) ->
  (forall a, a ∈ hits -> P a /\ entry (rq_ledger s) (sess a) (rq_ID (req a)) = Some (req a)) ->
  (forall a, a ∈ hits ->
     view (rq_ledger (foldl body (s, effs0) hits).1) (rq_ID (req a)) = upd a) /\
  (forall id, (forall a, a ∈ hits -> rq_ID (req a) <> id) ->
     view (rq_ledger (foldl body (s, effs0) hits).1) id = view (rq_ledger s) id).
Proof.
  intros Hupd. revert s effs0.
  induction hits as [|a hits IH]; intros s effs0 Hwf Hnd Hin; simpl; [set_solver|].
  rewrite fmap_cons, NoDup_cons in Hnd. destruct Hnd as [Hnew Hnd].
  destruct (Hin a) as [HP He]; [set_solver|].
  destruct (body_step s a Hwf HP He) as [Hstep Hframe]. rewrite body_effs.
  pose proof (Hupd s a Hwf HP He) as Hva.
  destruct (body (s, []) a) as [s1 effs1]. simpl in *.
  assert (forall b, b ∈ hits -> rq_ID (req b) <> rq_ID (req a)) as Hother.
  { intros b Hb Heq. apply Hnew. rewrite <- Heq. apply list_elem_of_fmap. eauto. }
  destruct (IH s1 (effs0 ++ effs1) (inputs_step_wf _ _ _ Hstep) Hnd) as [IHin IHout].
  { intros b Hb. destruct (Hin b) as [HPb Heb]; [set_solver|]. split; [done|].
    rewrite Hframe; auto. }
  split.
  - intros b [-> | Hb]%elem_of_cons; [|auto].
    rewrite IHout by auto. by rewrite Hva, decide_True.
  - intros id Hid. rewrite IHout by set_solver. rewrite Hva, decide_False; [done|].
    intros ->. apply (Hid a); set_solver.
Qed.
End Sweep.

End Operations.

(** Explicit effect lists that say nothing about a kind of request. *)
Ltac silence := repeat (apply Forall_cons; split); try apply Forall_nil; repeat split; cbn; try done.
Ltac quiet_step := apply inputs_step_silent; [done|done|done|silence].

Section Respond.
Context `{GoMapRange} `{DriverSys}.
Implicit Types (s : State).

Lemma reduceApprovalRespond_contract s e : input_contract s (reduceApprovalRespond s e).
Proof.
  intros Hwf. unfold reduceApprovalRespond.
  case_bool_decide; [quiet_step|].
  destruct (_ && _) eqn:Hd; [quiet_step|].
  assert (ear_Decision e = DecisionAccept \/ ear_Decision e = DecisionDeny) as Hdec.
  { apply andb_false_iff in Hd as [Hd|Hd]; apply negb_false_iff, bool_decide_eq_true in Hd; auto. }
  clear Hd.
  destruct (FindApproval _ _) as [[r sessID]|] eqn:Hf;
    [|quiet_step].
  destruct (FindApproval_entry _ _ _ _ Hwf Hf) as (Hid & Hsound & He).
  case_bool_decide as Hp; simpl; [|quiet_step].
  apply (close_approval s _ r); try done; [|count_effects|silence].
  by destruct Hsound as (Hx & Hdef & _).
Qed.

Lemma reduceApprovalCancel_contract s e : input_contract s (reduceApprovalCancel s e).
Proof.
  intros Hwf. unfold reduceApprovalCancel.
  case_bool_decide; [quiet_step|].
  destruct (FindApproval _ _) as [[r sessID]|] eqn:Hf;
    [|quiet_step].
  destruct (FindApproval_entry _ _ _ _ Hwf Hf) as (Hid & (Hx & Hdef & _) & He).
  case_bool_decide as Hp; simpl; [|quiet_step].
  apply (close_approval s _ r); try done; [count_effects|silence].
Qed.

Lemma reduceQuestionRespond_contract s e : input_contract s (reduceQuestionRespond s e).
Proof.
  intros Hwf. unfold reduceQuestionRespond.
  case_bool_decide; [quiet_step|].
  destruct (FindQuestion _ _) as [[q sessID]|] eqn:Hf;
    [|quiet_step].
  destruct (FindQuestion_entry _ _ _ _ Hwf Hf) as (Hid & (Hx & _) & He).
  case_bool_decide as Hp; simpl; [|quiet_step].
  apply (close_question s _ q); try done; [count_effects|silence].
Qed.

End Respond.

Section Lifecycle.
Context `{GoMapRange} `{DriverSys}.
Implicit Types (s : State).

Lemma reduceQuestionCancel_contract s e : input_contract s (reduceQuestionCancel s e).
Proof.
  intros Hwf. unfold reduceQuestionCancel.
  case_bool_decide; [quiet_step|].
  destruct (FindQuestion _ _) as [[q sessID]|] eqn:Hf; [|quiet_step].
  destruct (FindQuestion_entry _ _ _ _ Hwf Hf) as (Hid & (Hx & Hsound) & He).
  case_bool_decide as Hp; simpl; [|quiet_step].
  rewrite Hp in Hsound. destruct (qu_ResolutionReason q); try done.
  apply (close_question s _ q); try done; [count_effects|silence].
Qed.

Lemma maybeCreateApproval_contract s e out :
  maybeCreateApprovalFromSubsystem s e = Some out -> input_contract s out.
Proof.
  unfold maybeCreateApprovalFromSubsystem. intros Hout Hwf.
  destruct (negb _); [done|]. destruct (sp_Approval _) as [a|]; [|done]. simpl in Hout.
  case_bool_decide as Hid; [done|]. case_bool_decide as Hf; [simplify_eq; quiet_step|].
  destruct (findFrame s _) as [[[sessID sess] idx]|]; [|done]. simpl in Hout.
  set (r := mkApproval _ _ _ _ _ _ _ _ _ _ _ _ _ _) in Hout.
  assert (approval_sound r) as Hsound by (repeat split; simpl; destruct (sa_AutoApprove a); auto).
  destruct (open_put (R := ApprovalRequest) s [approvalRequestedBroadcast r] (putApproval s r) r)
    as [Hopen He]; 
    [apply Hwf | by apply eq_None_not_Some | done | done | done | done | count_effects |].
  assert (inputs_step s [approvalRequestedBroadcast r] (putApproval s r)) as Hstep
    by (apply approvals_only; [done|done|silence|done]).
  destruct (sa_AutoApprove a) eqn:Hauto; simplify_eq/=; [|done].
  change (?a :: ?b :: ?c) with ([a] ++ b :: c).
  eapply inputs_step_trans; [exact Hstep|].
  apply (close_approval _ _ r); [|done|done|done|done| |count_effects|silence].
  - by apply inputs_step_wf in Hstep.
  - repeat split; auto.
Qed.

Lemma maybeCreateQuestion_contract s e out :
  maybeCreateQuestionFromSubsystem s e = Some out -> input_contract s out.
Proof.
  unfold maybeCreateQuestionFromSubsystem. intros Hout Hwf.
  destruct (negb _); [done|]. destruct (sp_Question _) as [a|]; [|done]. simpl in Hout.
  case_bool_decide as Hid; [done|]. case_bool_decide as Hf; [simplify_eq; quiet_step|].
  destruct (findFrame s _) as [[[sessID sess] idx]|]; [|done]. simplify_eq/=.
  set (q := mkQuestion _ _ _ _ _ _ _ _ _ _).
  destruct (open_put (R := QuestionRequest) s [questionRequestedBroadcast q] (putQuestion s q) q)
    as [Hopen He]; 
    [apply Hwf | by apply eq_None_not_Some | done | done | done | done | count_effects |].
  apply questions_only; [done|done|silence|done].
Qed.

Lemma maybeResolve_contract s e out :
  maybeResolveHumanInputFromSubsystem s e = Some out -> input_contract s out.
Proof.
  unfold maybeResolveHumanInputFromSubsystem. intros Hout Hwf.
  destruct (es_Kind e); try done.
  - destruct (sp_Approval _) as [a|]; [|done]. simpl in Hout.
    destruct (FindApproval _ _) as [[r sessID]|] eqn:Hf; [|done]. simpl in Hout.
    destruct (FindApproval_entry _ _ _ _ Hwf Hf) as (Hid & (Hx & Hdef & Hsound) & He).
    case_bool_decide as Hp; simplify_eq/=; [|quiet_step].
    rewrite Hp in Hsound. destruct (ap_ResolutionReason r); try done.
    apply (close_approval s _ r); try done; [count_effects|silence].
  - destruct (sp_Question _) as [a|]; [|done]. simpl in Hout.
    destruct (FindQuestion _ _) as [[q sessID]|] eqn:Hf; [|done]. simpl in Hout.
    destruct (FindQuestion_entry _ _ _ _ Hwf Hf) as (Hid & (Hx & Hsound) & He).
    case_bool_decide as Hp; simplify_eq/=; [|quiet_step].
    rewrite Hp in Hsound. destruct (qu_ResolutionReason q); try done.
    apply (close_question s _ q); try done; [count_effects|silence].
Qed.

End Lifecycle.

Section Sweeps.
Context `{GoMapRange} `{DriverSys}.
Implicit Types (s : State).

(** A sweep over collected approvals whose body meets the contract. *)
Lemma hits_sweep_contract {R} `{!Request R} (body : State * list Effect -> SessionID * R -> _)
    (p : R -> bool) s m :
  rq_ledger s = m ->
  (input_wf s -> ledger_wf (rq_ledger s)) ->
  (forall s effs h, body (s, effs) h = ((body (s, []) h).1, effs ++ (body (s, []) h).2)) ->
  (forall s h, input_wf s -> p h.2 = true -> entry (rq_ledger s) h.1 (rq_ID h.2) = Some h.2 ->
     inputs_step s (body (s, []) h).2 (body (s, []) h).1 /\
     forall sessID id, id <> rq_ID h.2 ->
       entry (rq_ledger (body (s, []) h).1) sessID id = entry (rq_ledger s) sessID id) ->
  input_contract s (foldl body (s, []) (ledger_hits p m)).
Proof.
  intros <- Hled Heffs Hstep Hwf. pose proof (Hled Hwf) as Hl.
  destruct (sweep_step body fst snd (fun h => p h.2 = true) Heffs Hstep
              (ledger_hits p (rq_ledger s)) s []) as (s' & effs & -> & Hs); auto.
  - by apply hits_NoDup.
  - intros [sessID r] (id & He & Hp)%elem_of_hits. split; [done|].
    simpl. by destruct (wf_entry _ Hl _ _ _ He) as (-> & _).
Qed.

Lemma hits_sweep_view {R} `{!Request R} (body : State * list Effect -> SessionID * R -> _)
    (p : R -> bool) (upd : R -> option R) s m :
  rq_ledger s = m -> ledger_wf m ->
  (forall s effs h, body (s, effs) h = ((body (s, []) h).1, effs ++ (body (s, []) h).2)) ->
  (forall s h, input_wf s -> p h.2 = true -> entry (rq_ledger s) h.1 (rq_ID h.2) = Some h.2 ->
     inputs_step s (body (s, []) h).2 (body (s, []) h).1 /\
     forall sessID id, id <> rq_ID h.2 ->
       entry (rq_ledger (body (s, []) h).1) sessID id = entry (rq_ledger s) sessID id) ->
  (forall s h, input_wf s -> p h.2 = true -> entry (rq_ledger s) h.1 (rq_ID h.2) = Some h.2 ->
     forall id, view (rq_ledger (body (s, []) h).1) id
       = if decide (id = rq_ID h.2) then upd h.2 else view (rq_ledger s) id) ->
  input_wf s -> forall id,
  view (rq_ledger (foldl body (s, []) (ledger_hits p m)).1) id
  = r ← view m id; if p r then upd r else Some r.
Proof.
  intros <- Hl Heffs Hstep Hview Hwf id.
  destruct (sweep_view body fst snd (fun h => p h.2 = true) Heffs Hstep (fun h => upd h.2)
              (ledger_hits p (rq_ledger s)) s [] Hview Hwf (hits_NoDup _ _ Hl)) as [Hin Hout].
  { intros [sessID r] (id' & He & Hp)%elem_of_hits. split; [done|]. simpl.
    by destruct (wf_entry _ Hl _ _ _ He) as (-> & _). }
  destruct (view (rq_ledger s) id) as [r|] eqn:Hv; simpl.
  - pose proof Hv as [sessID He]%view_Some; [|done].
    destruct (wf_entry _ Hl _ _ _ He) as (<- & _). destruct (p r) eqn:Hp.
    + apply (Hin (sessID, r)). apply elem_of_hits. eauto.
    + rewrite Hout; [done|]. intros [s' r'] (id' & He' & Hp')%elem_of_hits. simpl.
      intros Heq. destruct (wf_entry _ Hl _ _ _ He') as (<- & _).
      assert (view (rq_ledger s) (rq_ID r') = Some r') as Hv' by (apply view_Some; eauto).
      rewrite Heq, Hv in Hv'. congruence.
  - rewrite Hout; [done|]. intros [s' r'] (id' & He' & Hp')%elem_of_hits. simpl. intros <-.
    destruct (wf_entry _ Hl _ _ _ He') as (<- & _).
    assert (view (rq_ledger s) (rq_ID r') = Some r') as Hv' by (apply view_Some; eauto).
    congruence.
Qed.

Lemma entry_put_ne {R} (m : gmap string (gmap string R)) sessID id r sessID' id' :
  id' <> id -> entry (ledger_put m sessID id r) sessID' id' = entry m sessID' id'.
Proof. intros. rewrite entry_put, decide_False; naive_solver. Qed.

Lemma entry_delete_ne {R} (m : gmap string (gmap string R)) sessID id sessID' id' :
  id' <> id -> entry (ledger_delete m sessID id) sessID' id' = entry m sessID' id'.
Proof. intros. rewrite entry_delete, decide_False; naive_solver. Qed.

Lemma expire_approval_step now s h :
  input_wf s -> approval_expired now h.2 = true ->
  entry (st_PendingApprovals s) h.1 (ap_ID h.2) = Some h.2 ->
  inputs_step s (expire_approval (s, []) h).2 (expire_approval (s, []) h).1 /\
  forall sessID id, id <> ap_ID h.2 ->
    entry (st_PendingApprovals (expire_approval (s, []) h).1) sessID id
    = entry (st_PendingApprovals s) sessID id.
Proof.
  destruct h as [sessID r]. intros Hwf Hp He. simpl in He.
  apply andb_true_iff in Hp as [[Hp%bool_decide_eq_true _]%andb_true_iff _]. simpl in Hp.
  destruct (wf_entry _ (proj1 Hwf) _ _ _ He) as (_ & <- & _ & Hx & Hdef & _).
  unfold expire_approval. cbn [fst snd set_field].
  rewrite bool_decide_eq_false_2 by (simpl; destruct Hdef as [-> | ->]; done).
  split; [|intros; by apply entry_put_ne].
  apply (close_approval s _ r); try done; [count_effects|silence].
Qed.

Lemma expirePendingApprovals_contract s now : input_contract s (expirePendingApprovals s now).
Proof.
  unfold expirePendingApprovals. destruct (IsZero now); [intros Hwf; quiet_step|].
  apply (hits_sweep_contract (R := ApprovalRequest) expire_approval _ s);
    [done|by intros []|done|]. intros s' h. apply expire_approval_step.
Qed.

Lemma expirePendingQuestions_contract s now : input_contract s (expirePendingQuestions s now).
Proof.
  unfold expirePendingQuestions. destruct (IsZero now); [intros Hwf; quiet_step|].
  apply (hits_sweep_contract (R := QuestionRequest) expire_question _ s); [done|by intros []|done|].
  intros s' [sessID q] Hwf Hp He. simpl in He.
  apply andb_true_iff in Hp as [[Hp%bool_decide_eq_true _]%andb_true_iff _]. simpl in Hp.
  destruct (wf_entry _ (proj2 Hwf) _ _ _ He) as (_ & <- & _ & Hx & Hsound).
  unfold expire_question. cbn [fst snd set_field].
  split; [|intros; by apply entry_put_ne].
  rewrite Hp in Hsound. destruct (qu_ResolutionReason q); try done.
  apply (close_question s' _ q); try done; [count_effects|silence].
Qed.

(** The reaping step shared by the teardown of a frame and of a session. *)
Lemma cancel_approval_step s sessID r :
  input_wf s -> ap_Status r = Pending ->
  entry (st_PendingApprovals s) sessID (ap_ID r) = Some r ->
  inputs_step s (cancel_approval_effects r) (deleteApproval s sessID (ap_ID r)).
Proof.
  intros Hwf Hp He. apply approvals_only; [done|done|silence|].
  apply (close_delete (R := ApprovalRequest) _ _ _ sessID r); try done; [apply Hwf|].
  count_effects.
Qed.

Lemma cancel_question_step s sessID q :
  input_wf s -> qu_Status q = Pending ->
  entry (st_PendingQuestions s) sessID (qu_ID q) = Some q ->
  inputs_step s (cancel_question_effects q) (deleteQuestion s sessID (qu_ID q)).
Proof.
  intros Hwf Hp He. apply questions_only; [done|done|silence|].
  apply (close_delete (R := QuestionRequest) _ _ _ sessID q); try done; [apply Hwf|].
  count_effects.
Qed.

Lemma cancelApprovalsForFrame_contract s f : input_contract s (cancelApprovalsForFrame s f).
Proof.
  unfold cancelApprovalsForFrame. case_bool_decide; [intros Hwf; quiet_step|].
  apply (hits_sweep_contract (R := ApprovalRequest) cancel_approval _ s); [done|by intros []|done|].
  intros s' [sessID r] Hwf [Hp%bool_decide_eq_true _]%andb_true_iff He.
  split; [by apply cancel_approval_step | intros; by apply entry_delete_ne].
Qed.

Lemma cancelQuestionsForFrame_contract s f : input_contract s (cancelQuestionsForFrame s f).
Proof.
  unfold cancelQuestionsForFrame. case_bool_decide; [intros Hwf; quiet_step|].
  apply (hits_sweep_contract (R := QuestionRequest) cancel_question _ s); [done|by intros []|done|].
  intros s' [sessID q] Hwf [Hp%bool_decide_eq_true _]%andb_true_iff He.
  split; [by apply cancel_question_step | intros; by apply entry_delete_ne].
Qed.

(** The entries of one session, with the ids they are filed under. *)
Lemma session_entries {R} `{!Request R} (m : gmap string (gmap string R)) sessID h :
  ledger_wf m -> h ∈ range (default ∅ (m !! sessID)) ->
  h.1 = rq_ID h.2 /\ entry m sessID (rq_ID h.2) = Some h.2.
Proof.
  intros Hwf. destruct h as [id r]. intros Hin%elem_of_range.
  assert (entry m sessID id = Some r) as He.
  { unfold entry. by destruct (m !! sessID); simpl in *. }
  by destruct (wf_entry _ Hwf _ _ _ He) as (<- & _).
Qed.

Lemma session_NoDup {R} `{!Request R} (m : gmap string (gmap string R)) sessID :
  ledger_wf m -> NoDup ((fun h => rq_ID h.2) <$> range (default ∅ (m !! sessID))).
Proof.
  intros Hwf.
  assert ((fun h => rq_ID h.2) <$> range (default ∅ (m !! sessID))
          = (range (default ∅ (m !! sessID))).*1) as ->; [|apply NoDup_range_keys].
  apply list_fmap_ext. intros i h Hh.
  symmetry. apply (session_entries m sessID h Hwf). by eapply list_elem_of_lookup_2.
Qed.

Lemma reap_approval_step sid s h :
  input_wf s -> h.1 = ap_ID h.2 -> entry (st_PendingApprovals s) sid (ap_ID h.2) = Some h.2 ->
  inputs_step s (reap_approval sid (s, []) h).2 (reap_approval sid (s, []) h).1.
Proof.
  destruct h as [id r]. simpl. intros Hwf -> He. case_bool_decide.
  - by apply cancel_approval_step.
  - apply approvals_only; [done|done|silence|].
    apply (drop_delete (R := ApprovalRequest) _ _ _ sid r); try done; apply Hwf.
Qed.

Lemma cancelApprovalsForSession_contract s sid :
  input_contract s (cancelApprovalsForSession s sid).
Proof.
  intros Hwf. unfold cancelApprovalsForSession. case_bool_decide; [quiet_step|].
  edestruct (sweep_step (R := ApprovalRequest) (reap_approval sid) (fun _ => sid) snd
               (fun h => h.1 = ap_ID h.2)) as (s' & effs & -> & Hs); [..|exact Hs].
  - done.
  - intros s1 h Hwf1 Hid He. split; [by apply reap_approval_step|].
    intros sessID id Hne. destruct h. simpl in *. subst. by apply entry_delete_ne.
  - done.
  - apply session_NoDup, Hwf.
  - intros h Hh. by apply session_entries in Hh; [|apply Hwf].
Qed.

Lemma reap_question_step sid s h :
  input_wf s -> h.1 = qu_ID h.2 -> entry (st_PendingQuestions s) sid (qu_ID h.2) = Some h.2 ->
  inputs_step s (reap_question sid (s, []) h).2 (reap_question sid (s, []) h).1.
Proof.
  destruct h as [id r]. simpl. intros Hwf -> He. case_bool_decide.
  - by apply cancel_question_step.
  - apply questions_only; [done|done|silence|].
    apply (drop_delete (R := QuestionRequest) _ _ _ sid r); try done; apply Hwf.
Qed.

Lemma cancelQuestionsForSession_contract s sid :
  input_contract s (cancelQuestionsForSession s sid).
Proof.
  intros Hwf. unfold cancelQuestionsForSession. case_bool_decide; [quiet_step|].
  edestruct (sweep_step (R := QuestionRequest) (reap_question sid) (fun _ => sid) snd
               (fun h => h.1 = qu_ID h.2)) as (s' & effs & -> & Hs); [..|exact Hs].
  - done.
  - intros s1 h Hwf1 Hid He. split; [by apply reap_question_step|].
    intros sessID id Hne. destruct h. simpl in *. subst. by apply entry_delete_ne.
  - done.
  - apply session_NoDup, Hwf.
  - intros h Hh. by apply session_entries in Hh; [|apply Hwf].
Qed.

End Sweeps.
