(* ===== verification/HostCapsule.v ===== *)
(** * host/state: resume capsules

    Model of resumecapsule.go and reduce_resumecapsule.go: when a tick enqueues
    the generation of a session's capsule, the prompt it builds, and how the
    result of the job is applied. *)

From Stdlib Require Import String.
From S2P Require Import Prelude GoStd HostState HostFrames.

Definition capsuleCheckInterval : Z := 15.
Definition capsuleErrorBackoff : Duration := 5 * Minute.
Definition capsuleEntryTextCap : Z := 2000.
Definition capsuleTotalTextCap : Z := 16000.

Definition nl : string := String "010"%char EmptyString.
Definition qt (s : string) : string :=
  String "034"%char EmptyString +:+ s +:+ String "034"%char EmptyString.

(** ** The prompt *)

Definition capsuleTailClip (s : string) (max : Z) : string :=
  let r := runes s in
  if Z.of_nat (length r) <=? max then s
  else "…" +:+ string_of_runes (drop (length r - Z.to_nat max) r).

Definition turn_block (t : CapsuleTurn) : string :=
  "[" +:+ ct_Role t +:+ "]" +:+ nl +:+ capsuleTailClip (ct_Text t) capsuleEntryTextCap +:+ nl.

(** The loop from the newest turn back: [turns] is the part not yet visited,
    newest first. *)
Fixpoint collect_blocks (turns : list CapsuleTurn) (total : Z) (blocks : list string)
    : list string :=
  match turns with
  | [] => blocks
  | t :: older =>
    let block := turn_block t in
    let len := Z.of_nat (String.length block) in
    if (capsuleTotalTextCap <? total + len) && negb (bool_decide (blocks = [])) then blocks
    else collect_blocks older (total + len) (block :: blocks)
  end.

Definition renderCapsuleTurns (turns : list CapsuleTurn) : string :=
  strings_Join (collect_blocks (rev turns) 0 []) nl.

Definition capsule_instructions : string :=
  "You maintain a resume capsule for an AI coding session: a compact work-state "
  +:+ "summary that lets the user resume after an interruption without rereading history. "
  +:+ "From the previous capsule and the recent conversation turns below, produce the "
  +:+ "updated capsule." +:+ nl +:+ nl
  +:+ "Return ONLY a JSON object, no code fences, no prose, with exactly these keys:" +:+ nl
  +:+ "{" +:+ qt "objective" +:+ ": " +:+ qt "..." +:+ ", " +:+ qt "current_state" +:+ ": "
  +:+ qt "..." +:+ ", " +:+ qt "next_action" +:+ ": " +:+ qt "..." +:+ ", " +:+ qt "unresolved"
  +:+ ": [" +:+ qt "..." +:+ "]," +:+ nl
  +:+ " " +:+ qt "changed" +:+ ": [" +:+ qt "..." +:+ "], " +:+ qt "verified" +:+ ": ["
  +:+ qt "..." +:+ "], " +:+ qt "remaining" +:+ ": [" +:+ qt "..." +:+ "], " +:+ qt "attention"
  +:+ ": " +:+ qt "..." +:+ "}" +:+ nl +:+ nl
  +:+ "objective: the overall goal the user is driving (1 sentence, stable across turns)." +:+ nl
  +:+ "current_state: what has been established or completed so far (1-2 sentences)." +:+ nl
  +:+ "next_action: the single next concrete step (1 sentence)." +:+ nl
  +:+ "unresolved: open questions or pending decisions (0-4 short items)." +:+ nl
  +:+ "changed: concrete changes completed so far — files, behaviors, documents (0-4 short items)."
  +:+ nl
  +:+ "verified: what has actually been verified — tests run, checks passed (0-3 short items; "
  +:+ "only include evidence present in the conversation, never assumed)." +:+ nl
  +:+ "remaining: work that is still left to do (0-4 short items)." +:+ nl
  +:+ "attention: one sentence when the user's decision or review is needed, else an empty string."
  +:+ nl
  +:+ "Base every field on the conversation only; never invent progress or verification."
  +:+ nl +:+ nl.

Definition formatResumeCapsulePrompt (prev : ResumeCapsule) (turns : list CapsuleTurn)
    (project : string) : string :=
  capsule_instructions
  +:+ (if bool_decide (project = "") then ""
       else "<project>" +:+ nl +:+ project +:+ nl +:+ "</project>" +:+ nl +:+ nl)
  +:+ (if IsZero (rc_GeneratedAt prev) then ""
       else "<previous_capsule>" +:+ nl
            +:+ "objective: " +:+ rc_Objective prev +:+ nl
            +:+ "current_state: " +:+ rc_CurrentState prev +:+ nl
            +:+ "next_action: " +:+ rc_NextAction prev +:+ nl
            +:+ (if bool_decide (rc_Unresolved prev = []) then ""
                 else "unresolved: " +:+ strings_Join (rc_Unresolved prev) "; " +:+ nl)
            +:+ "</previous_capsule>" +:+ nl +:+ nl)
  +:+ "<recent_turns>" +:+ nl +:+ renderCapsuleTurns turns +:+ "</recent_turns>" +:+ nl.

Definition capsuleDigest (turns : list CapsuleTurn) : string :=
  Sha256.hex (foldr (fun t acc =>
    ct_Role t +:+ of_bytes [0] +:+ ct_Text t +:+ of_bytes [255] +:+ acc) "" turns).

Definition capsuleCheckDue (sessID : SessionID) (tickN : Z) : bool :=
  u64 (tickN + fnv32a sessID) mod capsuleCheckInterval =? 0.

Section Capsule.
Context `{GoMapRange} `{DriverSys}.
Implicit Types (s : State) (sess : Session).

(** [None] is Go's [ok = false]. *)
Definition maybeEnqueueOneCapsule s (sessID : SessionID) sess : option (State * Effect) :=
  if bool_decide (is_Some (st_CapsuleGenerating s !! sessID)) then None
  else
    frame ← rootFrame sess;
    drv ← GetDriver (f_Command frame);
    CapsuleTurns ← drv_CapsuleTurns drv;
    if bool_decide (drv_Status drv (f_Driver frame) = StatusRunning) then None
    else
      let turns := CapsuleTurns (f_Driver frame) in
      if bool_decide (length turns = O) then None
      else
        let digest := capsuleDigest turns in
        let skip := match ss_ResumeCapsule sess with
                    | None => false
                    | Some prev =>
                      bool_decide (rc_SourceDigest prev = digest)
                      || (negb (bool_decide (rc_LastError prev = ""))
                          && (Sub (st_Now s) (rc_LastErrorAt prev) <? capsuleErrorBackoff))
                    end in
        if skip then None
        else
          let prev := default zero_capsule (ss_ResumeCapsule sess) in
          let input := mkCapsuleJobInput sessID
                         (formatResumeCapsulePrompt prev turns (ss_Project sess)) digest
                         (Z.of_nat (length turns)) in
          let '(eff, s) := postProcessEffect s sessID (f_ID frame)
                             (EffStartJob 0 (JobCapsule input)) in
          Some (s <| st_CapsuleGenerating := <[sessID := digest]> (st_CapsuleGenerating s) |>, eff).

Definition enqueue_capsule (tickN : Z) (acc : State * list Effect) (kv : SessionID * Session)
    : State * list Effect :=
  let '(s, effs) := acc in
  if negb (capsuleCheckDue kv.1 tickN) then acc
  else match maybeEnqueueOneCapsule s kv.1 kv.2 with
       | None => acc
       | Some (next, eff) => (next, effs ++ [eff])
       end.

Definition maybeEnqueueResumeCapsules s (tickN : Z) : State * list Effect :=
  if negb (st_ResumeCapsulesEnabled s) then (s, [])
  else foldl (enqueue_capsule tickN) (s, []) (range (st_Sessions s)).

Definition setCapsule s (sid : SessionID) sess (capsule : ResumeCapsule) : State :=
  s <| st_Sessions := <[sid := sess <| ss_ResumeCapsule := Some capsule |>]> (st_Sessions s) |>.

Definition reduceListResumeCapsules s (connID : ConnID) (reqID : string) : State * list Effect :=
  (s, [EffSendResponseSync connID reqID BodyResumeCapsules]).

Definition reduceFlagResumeCapsule s (connID : ConnID) (reqID : string) (sid : SessionID)
    (flagged : bool) : State * list Effect :=
  if bool_decide (sid = "") then
    (s, [errResp connID reqID ErrCodeInvalidArgument "session_id required"])
  else
    match st_Sessions s !! sid with
    | None => (s, [errResp connID reqID ErrCodeNotFound "session not found"])
    | Some sess =>
      match ss_ResumeCapsule sess with
      | None => (s, [errResp connID reqID ErrCodeNotFound "session has no resume capsule"])
      | Some capsule =>
        let capsule := capsule <| rc_FlaggedWrong := flagged |> in
        let capsule := if flagged then capsule <| rc_FlaggedAt := st_Now s |> else capsule in
        let line := if flagged then "resume-capsule flagged wrong"
                    else "resume-capsule flag cleared" in
        (setCapsule s sid sess capsule,
         [okResp connID reqID BodyNil; EffPersistSnapshot; EffBroadcastSessionsChanged]
         ++ match rootFrame sess with
            | Some frame => [EffEventLogAppend (f_ID frame) line]
            | None => []
            end)
      end
    end.

Definition reduceCapsuleJobResult s (meta : JobMeta) (result : CapsuleJobResult)
    (jobErr : option string) : State * list Effect :=
  let s := s <| st_CapsuleGenerating := delete (jm_SessionID meta) (st_CapsuleGenerating s) |> in
  match st_Sessions s !! jm_SessionID meta with
  | None => (s, [])
  | Some sess =>
    match jobErr with
    | Some err =>
      match ss_ResumeCapsule sess with
      | None => (s, [])
      | Some capsule =>
        let capsule := capsule <| rc_LastError := err |> <| rc_LastErrorAt := st_Now s |> in
        (setCapsule s (jm_SessionID meta) sess capsule,
         [EffPersistSnapshot; EffBroadcastSessionsChanged])
      end
    | None =>
      if bool_decide (cjr_SourceDigest result = "") then (s, [])
      else
        let capsule := mkCapsule (cjr_Objective result) (cjr_CurrentState result)
                         (cjr_NextAction result) (cjr_Unresolved result) (cjr_Changed result)
                         (cjr_Verified result) (cjr_Remaining result) (cjr_Attention result)
                         (st_Now s) (cjr_SourceDigest result) (cjr_SourceTurns result)
                         false 0 "" 0 in
        (setCapsule s (jm_SessionID meta) sess capsule,
         [EffPersistSnapshot; EffBroadcastSessionsChanged])
    end
  end.

End Capsule.
