(* ===== verification/HostHandlers.v ===== *)
(** * host/state: connections, surfaces, ticks, jobs, terminal signals, messages, shutdown

    Model of reduce_conn.go, reduce_surface.go, reduce_tick.go, reduce_job.go,
    reduce_osc.go, reduce_messages.go, frame_messaging.go, reduce_lifecycle.go and
    the driver-facing half of reduce_event.go. *)

From S2P Require Import Prelude GoStd HostState HostFrames HostInput HostSession HostCapsule.

(** The text of a size hint error, as [fmt.Errorf] builds it. *)
Definition size_hint_message (cols rows : Z) (err : SizeHintError) : string :=
  match err with
  | AsymmetricSizeHint => "asymmetric size hint: both cols and rows must be specified"
  | ColsOutOfRange =>
    "cols must be 0 or 1.." +:+ show_int MaxDim +:+ "; got " +:+ show_int cols
  | RowsOutOfRange =>
    "rows must be 0 or 1.." +:+ show_int MaxDim +:+ "; got " +:+ show_int rows
  end.

Section Handlers.
Context `{GoMapRange} `{DriverSys} (rnd : nat -> string).
Implicit Types (s : State) (sess : Session).

(** ** Connections *)

Definition reduceConnOpened s (connID : ConnID) : State * list Effect :=
  (if st_NextConnID s <? connID then s <| st_NextConnID := connID |> else s, []).

Definition reduceConnClosed s (connID : ConnID) : State * list Effect :=
  let hasSub := bool_decide (is_Some (st_Subscribers s !! connID)) in
  let s := if hasSub then s <| st_Subscribers := delete connID (st_Subscribers s) |> else s in
  match st_SurfaceSubs s !! connID with
  | None => (s, [])
  | Some inner =>
    (s <| st_SurfaceSubs := delete connID (st_SurfaceSubs s) |>,
     (fun sub => EffSurfaceSubscribeStop connID (sub_SessionID sub.1) (sub_SubscriberID sub.1))
       <$> range inner)
  end.

Definition reduceSubscribe s (e : EvCmdSubscribe) : State * list Effect :=
  (s <| st_Subscribers :=
     <[cs_ConnID e := mkSubscriber (cs_ConnID e) (cs_Filters e)]> (st_Subscribers s) |>,
   [okResp (cs_ConnID e) (cs_ReqID e) BodyNil; EffBroadcastSessionsChanged]).

Definition reduceUnsubscribe s (connID : ConnID) (reqID : string) : State * list Effect :=
  (s <| st_Subscribers := delete connID (st_Subscribers s) |>, [okResp connID reqID BodyNil]).

(** ** Surfaces *)

Definition hasSession s (sid : SessionID) : bool := bool_decide (is_Some (st_Sessions s !! sid)).

Definition sessionNotFound (connID : ConnID) (reqID : string) (sid : SessionID) : Effect :=
  errResp connID reqID ErrCodeNotFound ("session not found: " +:+ sid).

Definition reduceSurfaceReadText s (e : EvCmdSurfaceReadText) : State * list Effect :=
  if negb (hasSession s (srt_SessionID e)) then
    (s, [sessionNotFound (srt_ConnID e) (srt_ReqID e) (srt_SessionID e)])
  else
    let lines := if srt_Lines e <=? 0 then 30 else srt_Lines e in
    (s, [EffSendResponseSync (srt_ConnID e) (srt_ReqID e)
           (BodySurfaceReadText (srt_SessionID e) lines)]).

Definition reduceSurfaceSendText s (e : EvCmdSurfaceSendText) : State * list Effect :=
  if negb (hasSession s (sst_SessionID e)) then
    (s, [sessionNotFound (sst_ConnID e) (sst_ReqID e) (sst_SessionID e)])
  else
    (s, [EffSendFrameKeys (sst_ConnID e) (sst_ReqID e) (sst_SessionID e) (sst_Text e) "" true]).

Definition reduceSurfaceSendKey s (e : EvCmdSurfaceSendKey) : State * list Effect :=
  if negb (hasSession s (ssk_SessionID e)) then
    (s, [sessionNotFound (ssk_ConnID e) (ssk_ReqID e) (ssk_SessionID e)])
  else
    (s, [EffSendFrameKeys (ssk_ConnID e) (ssk_ReqID e) (ssk_SessionID e) "" (ssk_Key e) false]).

Definition reduceDriverList s (connID : ConnID) (reqID : string) : State * list Effect :=
  (s, [EffSendResponseSync connID reqID BodyDriverList]).

Definition maxSurfaceSubs : nat := 8.

Definition reduceSurfaceSubscribe s (e : EvCmdSurfaceSubscribe) : State * list Effect :=
  let conn := ess_ConnID e in
  let req := ess_ReqID e in
  let sid := ess_SessionID e in
  if (ess_Cols e =? 0) || (ess_Rows e =? 0) then
    (s, [errResp conn req ErrCodeInvalidArgument
           "surface subscribe requires non-zero cols and rows"])
  else
    match ValidateSizeHint (ess_Cols e) (ess_Rows e) with
    | Some err =>
      (s, [errResp conn req ErrCodeInvalidArgument
             (size_hint_message (ess_Cols e) (ess_Rows e) err)])
    | None =>
      let key := mkSub sid (ess_SubscriberID e) in
      match st_Sessions s !! sid with
      | None => (s, [sessionNotFound conn req sid])
      | Some sess =>
        if bool_decide (headFrame sess = None) then
          (s, [errResp conn req ErrCodeFrameNotReady ("frame-not-ready: " +:+ sid)])
        else
          let existing := default ∅ (st_SurfaceSubs s !! conn) in
          let already := bool_decide (is_Some (existing !! key)) in
          if negb already && (maxSurfaceSubs <=? size existing)%nat then
            (s, [errResp conn req ErrCodeResourceExhausted
                   "per-conn surface subscribe cap (8) exceeded"])
          else if already then (s, [okResp conn req BodyNil])
          else
            (s <| st_SurfaceSubs :=
               <[conn := <[key := mkGeometry (ess_Cols e) (ess_Rows e)]> existing]>
                 (st_SurfaceSubs s) |>,
             [EffSurfaceSubscribeStart conn sid (ess_SubscriberID e) (ess_Cols e) (ess_Rows e);
              okResp conn req BodyNil])
      end
    end.

Definition reduceSurfaceUnsubscribe s (e : EvCmdSurfaceUnsubscribe) : State * list Effect :=
  let conn := esu_ConnID e in
  let req := esu_ReqID e in
  let sid := esu_SessionID e in
  let key := mkSub sid (esu_SubscriberID e) in
  let inner := default ∅ (st_SurfaceSubs s !! conn) in
  if bool_decide (inner !! key = None) then (s, [okResp conn req BodyNil])
  else
    let inner := delete key inner in
    (s <| st_SurfaceSubs :=
       if bool_decide (size inner = O) then delete conn (st_SurfaceSubs s)
       else <[conn := inner]> (st_SurfaceSubs s) |>,
     [EffSurfaceSubscribeStop conn sid (esu_SubscriberID e);
      if bool_decide (req = "")
      then EffSendResponseSync conn "" (BodySurfaceUnsubscribed sid (esu_SubscriberID e))
      else okResp conn req BodyNil]).

Definition reduceSurfaceResize s (e : EvCmdSurfaceResize) : State * list Effect :=
  if negb (hasSession s (esr_SessionID e)) then
    (s, [sessionNotFound (esr_ConnID e) (esr_ReqID e) (esr_SessionID e)])
  else
    (s, [EffSurfaceResize (esr_SessionID e) (esr_Cols e) (esr_Rows e);
         okResp (esr_ConnID e) (esr_ReqID e) BodyNil]).

Definition reduceSurfaceWriteRaw s (e : EvCmdSurfaceWriteRaw) : State * list Effect :=
  if negb (hasSession s (esw_SessionID e)) then
    (s, [sessionNotFound (esw_ConnID e) (esw_ReqID e) (esw_SessionID e)])
  else
    (s, [EffSurfaceWriteRaw (esw_SessionID e) (esw_Data e);
         okResp (esw_ConnID e) (esw_ReqID e) BodyNil]).

(** ** Ticks and process exits *)

Definition tickEvent (e : EvTick) sess (watched : bool) (seq : Z) : DriverEvent :=
  DEvTick (et_Now e) watched (default "" (f_Project <$> rootFrame sess)) (et_N e) seq.

Definition reduceTick s (e : EvTick) : State * list Effect :=
  let s := s <| st_Now := et_Now e |> in
  let '(s, effs, changed) := stepActiveSessions s (tickEvent e) in
  let effs := if et_N e mod 5 =? 0 then effs ++ [EffReconcileWindows] else effs in
  let '(s, capsuleEffs) := maybeEnqueueResumeCapsules s (et_N e) in
  let '(s, aExp) := expirePendingApprovals s (et_Now e) in
  let '(s, qExp) := expirePendingQuestions s (et_Now e) in
  let expired := negb (bool_decide (length aExp = O)) || negb (bool_decide (length qExp = O)) in
  (s, effs ++ capsuleEffs ++ aExp ++ qExp
      ++ (if changed || expired then [EffPersistSnapshot; EffBroadcastSessionsChanged] else [])).

Definition reduceFrameVanished s (frameID : FrameID) : State * list Effect :=
  default (s, []) (evictFrame s frameID false retainEndedSession).

Definition isIntentionalExit (code : Z) : bool :=
  bool_decide (code ∈ [0; 129; 130; 137; 143]).

Definition reduceFrameCommandExited s (e : EvFrameCommandExited) : State * list Effect :=
  match (loc ← findFrame s (efe_FrameID e);
         frame ← ss_Frames loc.1.2 !! loc.2; Some frame) with
  | None => (s, [])
  | Some frame =>
    if isIntentionalExit (efe_ExitCode e) then
      default (s, []) (evictFrame s (efe_FrameID e) true retainEndedSession)
    else
      let stopped := match GetDriver (f_Command frame), f_Driver frame with
                     | Some drv, Some _ =>
                       bool_decide (drv_Status drv (f_Driver frame) = StatusStopped)
                     | _, _ => false
                     end in
      if stopped then (s, [EffReleaseFrame (efe_FrameID e)])
      else
        let '(next, rawEffs) := default (s, []) (stepDriver s (efe_FrameID e)
                                  (DEvCommandExited (efe_ExitCode e) (st_Now s))) in
        (next, rawEffs ++ [EffReleaseFrame (efe_FrameID e)])
  end.

(** ** Jobs and files *)

Definition reduceJobResult s (jobID : JobID) (result : JobResult) (err : option string)
    : State * list Effect :=
  match st_Jobs s !! jobID with
  | None => (s, [])
  | Some meta =>
    let s := s <| st_Jobs := delete jobID (st_Jobs s) |> in
    match result with
    | ResultCapsule capResult => reduceCapsuleJobResult s meta capResult err
    | ResultDriver _ =>
      match stepDriver s (jm_FrameID meta) (DEvJobResult result err (st_Now s)) with
      | None => (s, [])
      | Some (s, effs) => (s, effs ++ [EffPersistSnapshot; EffBroadcastSessionsChanged])
      end
    end
  end.

Definition reduceFileChanged s (frameID : FrameID) (path : string) : State * list Effect :=
  match (_ ← findFrame s frameID; stepDriver s frameID (DEvFileChanged path)) with
  | None => (s, [])
  | Some (s, effs) =>
    (s, if bool_decide (length effs = O) then effs
        else effs ++ [EffPersistSnapshot; EffBroadcastSessionsChanged])
  end.

(** ** Terminal signals *)

Definition incrementStatusSignal s (sessID : SessionID) : State :=
  s <| st_StatusSignals :=
    <[sessID := u64 (default 0 (st_StatusSignals s !! sessID) + 1)]> (st_StatusSignals s) |>.

Definition isPersist (eff : Effect) : bool :=
  match eff with EffPersistSnapshot => true | _ => false end.
Definition isBroadcast (eff : Effect) : bool :=
  match eff with EffBroadcastSessionsChanged => true | _ => false end.

Definition appendMissingSessionRefreshEffects (effs : list Effect) : list Effect :=
  effs ++ (if existsb isPersist effs then [] else [EffPersistSnapshot])
       ++ (if existsb isBroadcast effs then [] else [EffBroadcastSessionsChanged]).

Definition signalKind (kind : TerminalSignalKind) (cmd : Z) : TerminalSignalKind :=
  match kind with
  | TerminalSignalUnknown =>
    if (cmd =? 0) || (cmd =? 2) then TerminalSignalWindowTitle else TerminalSignalNotification
  | _ => kind
  end.

Definition reduceFrameOsc s (e : EvFrameOsc) : State * list Effect :=
  let kind := signalKind (efo_Kind e) (efo_Cmd e) in
  match kind with
  | TerminalSignalWindowTitle =>
    if bool_decide (efo_Title e = "") then (s, [])
    else if bool_decide (findFrame s (efo_FrameID e) = None) then (s, [])
    else
      let line := "[osc" +:+ show_int (efo_Cmd e) +:+ "] " +:+ efo_Title e in
      let '(next, dEffs) := default (s, []) (stepDriver s (efo_FrameID e)
        (DEvFrameOsc (efo_Cmd e) kind (efo_Title e) "" 0 0 (efo_Now e))) in
      (next, appendMissingSessionRefreshEffects
               (EffEventLogAppend (efo_FrameID e) line :: dEffs))
  | TerminalSignalProgress =>
    if bool_decide (findFrame s (efo_FrameID e) = None) then (s, [])
    else
      let '(next, dEffs) := default (s, []) (stepDriver s (efo_FrameID e)
        (DEvFrameOsc (efo_Cmd e) kind "" "" (efo_ProgressState e) (efo_ProgressValue e)
           (efo_Now e))) in
      let line := "[osc9;4] state=" +:+ show_int (efo_ProgressState e)
                  +:+ " value=" +:+ show_int (efo_ProgressValue e) in
      (next, appendMissingSessionRefreshEffects
               (EffEventLogAppend (efo_FrameID e) line :: dEffs))
  | TerminalSignalBell =>
    match findFrame s (efo_FrameID e) with
    | None => (s, [])
    | Some (sessID, _, _) =>
      (incrementStatusSignal s sessID,
       [EffEventLogAppend (efo_FrameID e) "[bell]"; EffPersistSnapshot;
        EffBroadcastSessionsChanged])
    end
  | _ =>
    if bool_decide (efo_Title e = "") && bool_decide (efo_Body e = "") then (s, [])
    else
      match findFrame s (efo_FrameID e) with
      | None => (s, [])
      | Some (sessID, _, _) =>
        (incrementStatusSignal s sessID,
         [EffRecordNotification sessID (efo_FrameID e) (efo_Cmd e) (efo_Title e) (efo_Body e);
          EffPersistSnapshot; EffBroadcastSessionsChanged])
      end
  end.

Definition promptPhaseName (p : PromptPhase) : string :=
  match p with
  | PromptPhaseStart => "start" | PromptPhaseInput => "input"
  | PromptPhaseCommand => "command" | PromptPhaseComplete => "complete"
  | _ => "none"
  end.

Definition promptEventLogLine (phase : PromptPhase) (exitCode : option Z) : string :=
  let name := promptPhaseName phase in
  match phase, exitCode with
  | PromptPhaseComplete, Some code =>
    "[osc133] phase=" +:+ name +:+ " exit=" +:+ show_int code
  | _, _ => "[osc133] phase=" +:+ name
  end.

Definition reduceFramePrompt s (e : EvFramePrompt) : State * list Effect :=
  let s := s <| st_Now := efp_Now e |> in
  if bool_decide (findFrame s (efp_FrameID e) = None) then (s, [])
  else
    let line := promptEventLogLine (efp_Phase e) (efp_ExitCode e) in
    let '(next, dEffs) := default (s, []) (stepDriver s (efp_FrameID e)
      (DEvFramePrompt (efp_Phase e) (efp_ExitCode e) (efp_Now e))) in
    (next, appendMissingSessionRefreshEffects
             (EffEventLogAppend (efp_FrameID e) line :: dEffs)).

(** ** Session messages *)

Definition reduceListSessionMessages s (connID : ConnID) (reqID : string) (sid : SessionID)
    : State * list Effect :=
  if bool_decide (sid = "") then
    (s, [errResp connID reqID ErrCodeInvalidArgument "session_id required"])
  else if negb (hasSession s sid) then
    (s, [errResp connID reqID ErrCodeNotFound "session not found"])
  else (s, [EffSendResponseSync connID reqID (BodySessionMessages sid)]).

(** The position of the first message with the id. *)
Fixpoint find_message (id : string) (msgs : list FrameMessage) : option nat :=
  match msgs with
  | [] => None
  | msg :: rest => if decide (fm_ID msg = id) then Some O else S <$> find_message id rest
  end.

Definition unread_count (msgs : list FrameMessage) : Z :=
  Z.of_nat (length (filter (fun m => fm_Read m = false) msgs)).

(** [None] is Go's [changed = false]. *)
Definition markSessionMessagesReadThroughID (fm : SessionFrameMessaging)
    (lastReadMessageID : string) : option SessionFrameMessaging :=
  if bool_decide (lastReadMessageID = "") then None
  else
    boundary ← find_message lastReadMessageID (ms_Messages fm);
    let through := take (S boundary) (ms_Messages fm) in
    let changed := existsb (fun m => negb (fm_Read m)) through in
    let msgs := ((fun m => m <| fm_Read := true |>) <$> through)
                ++ drop (S boundary) (ms_Messages fm) in
    let unread := unread_count msgs in
    if negb changed && (su_UnreadCount (ms_Summary fm) =? unread) then None
    else Some (mkMessaging (ms_Summary fm <| su_UnreadCount := unread |>) msgs).

Definition newly_read (before after : list FrameMessage) : list string :=
  omap (fun p => if fm_Read p.2 && negb (fm_Read p.1) then Some (fm_ID p.2) else None)
    (zip before after).

Definition reduceReadSessionMessages s (connID : ConnID) (reqID : string) (sid : SessionID)
    (lastReadMessageID : string) : State * list Effect :=
  if bool_decide (sid = "") then
    (s, [errResp connID reqID ErrCodeInvalidArgument "session_id required"])
  else
    match st_Sessions s !! sid with
    | None => (s, [errResp connID reqID ErrCodeNotFound "session not found"])
    | Some sess =>
      match ss_FrameMessaging sess with
      | None => (s, [okResp connID reqID BodyNil])
      | Some fm =>
        match markSessionMessagesReadThroughID fm lastReadMessageID with
        | None => (s, [okResp connID reqID BodyNil])
        | Some next =>
          let readIDs := newly_read (ms_Messages fm) (ms_Messages next) in
          (s <| st_Sessions :=
             <[sid := sess <| ss_FrameMessaging := Some next |>]> (st_Sessions s) |>,
           [okResp connID reqID BodyNil; EffPersistSnapshot; EffBroadcastSessionsChanged]
           ++ (if bool_decide (length readIDs = O) then []
               else [EffFrameMessagingPersistRead sid readIDs]))
        end
      end
    end.

(** ** Shutdown transactions *)

Definition currentShutdown s (id : Z) : option ShutdownTransaction :=
  if bool_decide (st_Lifecycle s = LifecycleQuiescing)
  then tx ← st_Shutdown s; if tx_ID tx =? id then Some tx else None
  else None.

Definition reduceShutdown s (connID : ConnID) (reqID : string) : State * list Effect :=
  let waiter := mkWaiter connID reqID in
  match st_Lifecycle s with
  | LifecycleQuiescing =>
    match st_Shutdown s with
    | Some tx =>
      if connID =? 0 then (s, [])
      else (s <| st_Shutdown := Some (mkShutdownTx (tx_ID tx) (tx_Waiters tx ++ [waiter])) |>, [])
    | None => (s, [])
    end
  | LifecycleRunning =>
    let s := s <| st_NextShutdownID := u64 (st_NextShutdownID s + 1) |> in
    let tx := mkShutdownTx (st_NextShutdownID s) (if connID =? 0 then [] else [waiter]) in
    (s <| st_Lifecycle := LifecycleQuiescing |> <| st_Shutdown := Some tx |>,
     [EffCommitShutdownSessions (tx_ID tx)])
  end.

Definition reduceShutdownSaveSucceeded s (id : Z) : State * list Effect :=
  match currentShutdown s id with
  | None => (s, [])
  | Some _ => (s, [EffReleaseFrames id])
  end.

Definition reduceShutdownSaveFailed s (id : Z) (err : string) : State * list Effect :=
  match currentShutdown s id with
  | None => (s, [])
  | Some tx =>
    (s <| st_Lifecycle := LifecycleRunning |> <| st_Shutdown := None |>,
     ((fun w => errResp (wt_ConnID w) (wt_ReqID w) ErrCodeInternal
                  ("shutdown persistence failed: " +:+ err)) <$> tx_Waiters tx)
     ++ [EffCompleteShutdown ShutdownCommitFailed])
  end.

Definition reduceShutdownCleanupFinished s (e : EvShutdownCleanupFinished) : State * list Effect :=
  match currentShutdown s (ecf_TransactionID e) with
  | None => (s, [])
  | Some tx =>
    let result := match ecf_Outcome e with
                  | ShutdownCleanupDeadlineExceeded => ShutdownDeadlineExceeded
                  | ShutdownCleanupCompleted => ShutdownCommitted
                  end in
    let reply w := match result with
                   | ShutdownDeadlineExceeded =>
                     errResp (wt_ConnID w) (wt_ReqID w) ErrCodeUnavailable
                       "shutdown cleanup deadline exceeded"
                   | _ => EffSendResponseSync (wt_ConnID w) (wt_ReqID w) BodyNil
                   end in
    (s <| st_Shutdown := None |>,
     (reply <$> tx_Waiters tx) ++ [EffCompleteShutdown result; EffTerminateRuntime])
  end.

(** ** Driver hooks and subsystem events (reduce_event.go) *)

Definition refreshAndReply (connID : ConnID) (reqID : string) : list Effect :=
  [EffPersistSnapshot; EffBroadcastSessionsChanged]
  ++ (if connID =? 0 then [] else [okResp connID reqID BodyNil]).

Definition reduceDriverHook s (e : EvDriverEvent) : State * list Effect :=
  if bool_decide (ede_SenderID e = "") then
    (s, [errResp (ede_ConnID e) (ede_ReqID e) ErrCodeInvalidArgument
           ("driver event requires sender_id: " +:+ ede_Event e)])
  else if bool_decide (findFrame s (ede_SenderID e) = None) then
    (s, [errResp (ede_ConnID e) (ede_ReqID e) ErrCodeNotFound "unknown session"])
  else
    match stepDriver s (ede_SenderID e)
            (DEvHook (ede_Event e) (ede_Timestamp e) (ede_SenderID e) (ede_Payload e)) with
    | None =>
      (s, [errResp (ede_ConnID e) (ede_ReqID e) ErrCodeInternal "no driver for session"])
    | Some (s, rawEffs) =>
      let '(s, effs) := resolvePushDriverEffects rnd s rawEffs in
      (s, effs ++ refreshAndReply (ede_ConnID e) (ede_ReqID e))
    end.

Definition bindTarget s (sessID : SessionID) sess (frameIdx : nat) (targetID : TargetID) : State :=
  match ss_Frames sess !! frameIdx with
  | Some frame =>
    if negb (bool_decide (targetID = "")) && negb (bool_decide (targetID = f_TargetID frame))
    then s <| st_Sessions := <[sessID := sess <| ss_Frames :=
           <[frameIdx := frame <| f_TargetID := targetID |>]> (ss_Frames sess) |>]> (st_Sessions s) |>
    else s
  | None => s
  end.

(** A step that may not apply ([handled = false]). *)
Definition thenMaybe (acc : State * list Effect) (f : State -> option (State * list Effect))
    : State * list Effect :=
  match f acc.1 with
  | Some (next, more) => (next, acc.2 ++ more)
  | None => acc
  end.

Definition signalsAttention (kind : SubsystemEventKind) : bool :=
  match kind with
  | SubsystemTurnCompleted | SubsystemApprovalRequested | SubsystemQuestionRequested => true
  | _ => false
  end.

Definition reduceSubsystem s (e : EvSubsystem) : State * list Effect :=
  if bool_decide (es_FrameID e = "") then
    (s, [errResp (es_ConnID e) (es_ReqID e) ErrCodeInvalidArgument
           "subsystem event requires frame_id"])
  else
    match findFrame s (es_FrameID e) with
    | None => (s, [errResp (es_ConnID e) (es_ReqID e) ErrCodeNotFound "unknown session"])
    | Some (sessID, sess, frameIdx) =>
      let s := bindTarget s sessID sess frameIdx (sp_TargetID (es_Payload e)) in
      match stepDriver s (es_FrameID e)
              (DEvSubsystem (es_Source e) (es_Kind e) (es_Timestamp e) (es_Payload e)) with
      | None => (s, [errResp (es_ConnID e) (es_ReqID e) ErrCodeInternal "no driver for session"])
      | Some (s, rawEffs) =>
        let acc := resolvePushDriverEffects rnd s rawEffs in
        let acc := thenMaybe acc (fun s => maybeCreateApprovalFromSubsystem s e) in
        let acc := thenMaybe acc (fun s => maybeCreateQuestionFromSubsystem s e) in
        let acc := thenMaybe acc (fun s => maybeResolveHumanInputFromSubsystem s e) in
        let s := if signalsAttention (es_Kind e) then incrementStatusSignal acc.1 sessID
                 else acc.1 in
        (s, acc.2 ++ refreshAndReply (es_ConnID e) (es_ReqID e))
      end
    end.

End Handlers.
