(* ===== verification/HostRepo.v ===== *)
(** * host/state: repository preparations

    Model of repository_reduce.go, reduce_repository_event.go and the maps of
    repository.go: the lifecycle of cloning a repository and launching a session
    in the clone, fenced by a revision number.  The theorems give the stage
    machine as a relation and show that the reducer implements it, that a worker
    with an outdated revision changes nothing, that retries are idempotent and
    that a session becomes available in exactly one way. *)

From S2P Require Import Prelude HostState HostFrames.

Record RepositoryCreateParams := mkRepoCreateParams {
  rcp_IntentID : string; rcp_PreparationID : string; rcp_ServerID : string;
  rcp_Repository : GitHubRepositoryIdentity; rcp_Fingerprint : string; rcp_Command : string }.

Section Repository.
Context `{GoMapRange} `{DriverSys}.
Implicit Types (s : State) (prep : RepositoryPreparation) (e : EvRepository).

Definition AvailablePreparations s : list RepositoryPreparation :=
  filter (fun p => IsSessionAvailable p = true) (range (st_RepositoryPreparations s)).*2.

Definition FindPreparation s (id : string) : option RepositoryPreparation :=
  if bool_decide (id = "") then None else st_RepositoryPreparations s !! id.

Definition putPreparation s prep : State :=
  s <| st_RepositoryPreparations := <[pr_ID prep := prep]> (st_RepositoryPreparations s) |>.

Definition putCreationIntent s (intent : CreationIntent) : State :=
  s <| st_CreationIntents := <[ci_ID intent := intent]> (st_CreationIntents s) |>.

Definition SessionIsAvailableProjection s (id : SessionID) : bool :=
  negb (bool_decide (id = "")) && bool_decide (is_Some (st_Sessions s !! id)).

Definition prepSnapshot prep : RepositoryPreparationReply :=
  mkPrepReply (pr_ID prep) (pr_IntentID prep) (pr_ServerID prep) (pr_Repository prep)
    (stage_string (pr_Stage prep)) (pr_FailureCode prep) (origin_string (pr_RetryOrigin prep))
    (pr_Revision prep) (pr_SessionID prep) (pr_ClonePath prep).

Definition rejectPrep (conn : ConnID) (req code msg : string) : list Effect :=
  [errResp conn req code msg].

Definition illegal prep (conn : ConnID) (req : string) : list Effect :=
  rejectPrep conn req PrepFailureIllegalTransition
    ("illegal preparation transition from " +:+ stage_string (pr_Stage prep)).

Definition findPrepByIntent s (intent : string) : option RepositoryPreparation :=
  range_find (fun _ p => if bool_decide (pr_IntentID p = intent) then Some p else None)
    (st_RepositoryPreparations s).

(** [inl] is Go's [ok = false] with the effects of the rejection. *)
Definition loadPrepFenced s (id : string) (observed : Z) (conn : ConnID) (req : string)
    : list Effect + RepositoryPreparation :=
  match FindPreparation s id with
  | None => inl (rejectPrep conn req PrepFailureInvalidIdentity "preparation not found")
  | Some prep =>
    if negb (observed =? pr_Revision prep)
    then inl [errResp conn req ErrCodeStaleRevision "observed revision does not match"]
    else inr prep
  end.

Definition prepReply (conn : ConnID) (req : string) prep : Effect :=
  okResp conn req (BodyPreparation (prepSnapshot prep)).

Definition prepPersist prep : Effect := EffRepositoryPersist (pr_ID prep) (pr_Revision prep).

Definition advancePrep s prep (stage : PreparationStage) (code : string) (origin : RetryOrigin)
    (conn : ConnID) (req : string) : State * list Effect :=
  let prep := prep <| pr_Stage := stage |> <| pr_FailureCode := code |>
                   <| pr_RetryOrigin := origin |>
                   <| pr_Revision := u64 (pr_Revision prep + 1) |> in
  (putPreparation s prep, [prepPersist prep; prepReply conn req prep]).

Definition reduceRepositoryCreate s e : State * list Effect :=
  let conn := er_ConnID e in
  let req := er_ReqID e in
  if bool_decide (er_IntentID e = "") || bool_decide (er_PreparationID e = "")
     || bool_decide (er_ServerID e = "") || negb (RepoValid (er_Repository e))
     || bool_decide (er_Command e = "") then
    (s, rejectPrep conn req PrepFailureInvalidIdentity
          "fully-qualified identities and command required")
  else
    let existing := st_CreationIntents s !! er_IntentID e in
    let conflict := match existing with
                    | Some i => negb (bool_decide (ci_Fingerprint i = er_Fingerprint e))
                    | None => false
                    end in
    if conflict then
      (s, rejectPrep conn req PrepFailureIllegalTransition "intent fingerprint conflict")
    else
      match (_ ← existing; findPrepByIntent s (er_IntentID e)) with
      | Some prep => (s, [prepReply conn req prep])
      | None =>
        if bool_decide (is_Some (st_RepositoryPreparations s !! er_PreparationID e)) then
          (s, rejectPrep conn req PrepFailureIllegalTransition "preparation already exists")
        else
          let intent := mkIntent (er_IntentID e) (er_ServerID e) (er_Repository e)
                          (er_Fingerprint e) (er_Command e) in
          let prep := mkPrep (er_PreparationID e) (er_IntentID e) (er_ServerID e)
                        (er_Repository e) PrepStageConfirmed PrepFailureNone RetryOriginNone
                        1 1 "" "" false false in
          let s := putCreationIntent s intent in
          let s := putPreparation s prep in
          (s, [prepPersist prep;
               EffRepositoryStartClone (pr_ID prep) (pr_ServerID prep) (pr_Repository prep) 1;
               prepReply conn req prep])
      end.

(** The continuation of a handler that fences on the observed revision. *)
Definition fenced s e (k : RepositoryPreparation -> State * list Effect) : State * list Effect :=
  match loadPrepFenced s (er_PreparationID e) (er_ObservedRevision e) (er_ConnID e) (er_ReqID e) with
  | inl effs => (s, effs)
  | inr prep => k prep
  end.

Definition reduceRepositoryCloneStarted s e : State * list Effect :=
  fenced s e (fun prep =>
    let legal := match pr_Stage prep with
                 | PrepStageConfirmed | PrepStageFailed | PrepStageCancelled
                 | PrepStageInterrupted => true
                 | _ => false
                 end in
    if negb legal then (s, illegal prep (er_ConnID e) (er_ReqID e))
    else if negb (bool_decide (pr_RetryOrigin prep = RetryOriginNone))
            && negb (bool_decide (pr_RetryOrigin prep = RetryOriginClone))
    then (s, illegal prep (er_ConnID e) (er_ReqID e))
    else advancePrep s prep PrepStageCloneInProgress PrepFailureNone RetryOriginNone
           (er_ConnID e) (er_ReqID e)).

Definition prepLaunch prep : Effect :=
  EffRepositoryLaunchSession (pr_ID prep) (pr_ServerID prep) (pr_Repository prep)
    (pr_LastOwnedWorkerGeneration prep).

Definition reduceRepositoryCloneReady s e : State * list Effect :=
  fenced s e (fun prep =>
    if negb (bool_decide (pr_Stage prep = PrepStageCloneInProgress)) then
      (s, illegal prep (er_ConnID e) (er_ReqID e))
    else if bool_decide (er_ClonePath e = "") then
      (s, rejectPrep (er_ConnID e) (er_ReqID e) PrepFailureInvalidIdentity "clone path required")
    else
      let prep := prep <| pr_ClonePath := er_ClonePath e |> <| pr_CloneDurable := true |>
                       <| pr_Stage := PrepStageCloneReady |> <| pr_FailureCode := PrepFailureNone |>
                       <| pr_RetryOrigin := RetryOriginNone |>
                       <| pr_Revision := u64 (pr_Revision prep + 1) |> in
      (putPreparation s prep,
       [prepPersist prep; prepLaunch prep; prepReply (er_ConnID e) (er_ReqID e) prep])).

(** Where a retry resumes after the work of this stage is lost. *)
Definition stopOrigin prep : RetryOrigin :=
  if bool_decide (pr_Stage prep = PrepStageCloneReady) then RetryOriginLaunch else RetryOriginClone.

Definition reduceRepositoryFailed s e : State * list Effect :=
  fenced s e (fun prep =>
    if IsTerminal (pr_Stage prep) then (s, illegal prep (er_ConnID e) (er_ReqID e))
    else
      let code := if bool_decide (er_Code e = PrepFailureNone)
                  then PrepFailureCloneFailed else er_Code e in
      let code := if bool_decide (pr_Stage prep = PrepStageCloneReady)
                     && bool_decide (code = PrepFailureCloneFailed)
                  then PrepFailureLaunchFailed else code in
      advancePrep s prep PrepStageFailed code (stopOrigin prep) (er_ConnID e) (er_ReqID e)).

Definition prepStop prep : Effect :=
  EffRepositoryStopOwnedWork (pr_ID prep) (pr_LastOwnedWorkerGeneration prep).

Definition reduceRepositoryCancelled s e : State * list Effect :=
  fenced s e (fun prep =>
    if IsTerminal (pr_Stage prep) then (s, illegal prep (er_ConnID e) (er_ReqID e))
    else
      let prep := prep <| pr_Stage := PrepStageCancelled |> <| pr_FailureCode := PrepFailureCancelled |>
                       <| pr_RetryOrigin := stopOrigin prep |>
                       <| pr_Revision := u64 (pr_Revision prep + 1) |> in
      (putPreparation s prep,
       [prepPersist prep; prepStop prep; prepReply (er_ConnID e) (er_ReqID e) prep])).

Definition reduceRepositoryInterrupted s e : State * list Effect :=
  match FindPreparation s (er_PreparationID e) with
  | None => (s, rejectPrep (er_ConnID e) (er_ReqID e) PrepFailureInvalidIdentity
                  "preparation not found")
  | Some prep =>
    match pr_Stage prep with
    | PrepStageConfirmed | PrepStageCloneInProgress | PrepStageCloneReady =>
      advancePrep s prep PrepStageInterrupted PrepFailureInterrupted (stopOrigin prep)
        (er_ConnID e) (er_ReqID e)
    | _ => (s, [prepReply (er_ConnID e) (er_ReqID e) prep])
    end
  end.

Definition reduceRepositoryQuarantined s e : State * list Effect :=
  fenced s e (fun prep =>
    if IsSessionAvailable prep then (s, illegal prep (er_ConnID e) (er_ReqID e))
    else advancePrep s prep PrepStageInternalCorruption PrepFailureInternalCorrupt RetryOriginNone
           (er_ConnID e) (er_ReqID e)).

Definition reduceRepositoryRetry s e : State * list Effect :=
  fenced s e (fun prep =>
    if negb (bool_decide (pr_Stage prep = PrepStageFailed))
       && negb (bool_decide (pr_Stage prep = PrepStageCancelled))
       && negb (bool_decide (pr_Stage prep = PrepStageInterrupted))
    then (s, illegal prep (er_ConnID e) (er_ReqID e))
    else
      let prep := prep <| pr_LastOwnedWorkerGeneration :=
                            u64 (pr_LastOwnedWorkerGeneration prep + 1) |>
                       <| pr_FailureCode := PrepFailureNone |>
                       <| pr_Revision := u64 (pr_Revision prep + 1) |> in
      let '(prep, start) :=
        if bool_decide (pr_RetryOrigin prep = RetryOriginLaunch) then
          let prep := prep <| pr_Stage := PrepStageCloneReady |> in (prep, prepLaunch prep)
        else
          let prep := prep <| pr_Stage := PrepStageConfirmed |> <| pr_CloneDurable := false |>
                           <| pr_ClonePath := "" |> in
          (prep, EffRepositoryStartClone (pr_ID prep) (pr_ServerID prep) (pr_Repository prep)
                   (pr_LastOwnedWorkerGeneration prep)) in
      let prep := prep <| pr_RetryOrigin := RetryOriginNone |> in
      (putPreparation s prep,
       [prepPersist prep; start; prepReply (er_ConnID e) (er_ReqID e) prep])).

Definition availableSession prep e : Session :=
  mkSession (er_SessionID e)
    ("github://" +:+ pr_ServerID prep +:+ "/" +:+ gh_Owner (pr_Repository prep) +:+ "/"
     +:+ gh_Name (pr_Repository prep))
    0 [] "" [] (er_Command e) zero_options None None 0 None None.

Definition reduceRepositoryCommitAvailable s e : State * list Effect :=
  fenced s e (fun prep =>
    let conn := er_ConnID e in
    let req := er_ReqID e in
    if negb (bool_decide (pr_Stage prep = PrepStageCloneReady)) then (s, illegal prep conn req)
    else if negb (er_CloneDurable e) || negb (er_LaunchSucceeded e) then
      (s, rejectPrep conn req PrepFailureIncompleteCommit "clone and launch evidence required")
    else if bool_decide (er_SessionID e = "") || bool_decide (er_ClonePath e = "") then
      (s, rejectPrep conn req PrepFailureInvalidIdentity "session and clone path ids required")
    else if SessionIsAvailableProjection s (er_SessionID e) then
      (s, rejectPrep conn req PrepFailureIllegalTransition "session already available")
    else
      let prep := prep <| pr_Stage := PrepStageAvailable |> <| pr_SessionID := er_SessionID e |>
                       <| pr_ClonePath := er_ClonePath e |> <| pr_CloneDurable := true |>
                       <| pr_LaunchSucceeded := true |> <| pr_FailureCode := PrepFailureNone |>
                       <| pr_RetryOrigin := RetryOriginNone |>
                       <| pr_Revision := u64 (pr_Revision prep + 1) |> in
      let s := putPreparation s prep in
      (s <| st_Sessions := <[er_SessionID e := availableSession prep e]> (st_Sessions s) |>,
       [prepPersist prep; EffBroadcastSessionsChanged; prepReply conn req prep])).

(** The second lookup finds what [advancePrep] stored. *)
Definition reduceRepositoryAbandon s e : State * list Effect :=
  fenced s e (fun prep =>
    if bool_decide (pr_Stage prep = PrepStageAvailable) then
      (s, illegal prep (er_ConnID e) (er_ReqID e))
    else
      let '(s, _) := advancePrep s prep PrepStageAbandoned (pr_FailureCode prep)
                       (pr_RetryOrigin prep) (er_ConnID e) (er_ReqID e) in
      let zero := mkPrep "" "" "" (mkRepo "" "" "") PrepStageConfirmed "" RetryOriginNone
                    0 0 "" "" false false in
      let prep := default zero (FindPreparation s (er_PreparationID e)) in
      (s, [prepPersist prep; prepStop prep; prepReply (er_ConnID e) (er_ReqID e) prep])).

Definition reduceRepository s e : State * list Effect :=
  let kind := er_Kind e in
  if bool_decide (kind = "create") then reduceRepositoryCreate s e
  else if bool_decide (kind = "clone_started") then reduceRepositoryCloneStarted s e
  else if bool_decide (kind = "clone_ready") then reduceRepositoryCloneReady s e
  else if bool_decide (kind = "failed") then reduceRepositoryFailed s e
  else if bool_decide (kind = "cancelled") then reduceRepositoryCancelled s e
  else if bool_decide (kind = "interrupted") then reduceRepositoryInterrupted s e
  else if bool_decide (kind = "quarantined") then reduceRepositoryQuarantined s e
  else if bool_decide (kind = "retry") then reduceRepositoryRetry s e
  else if bool_decide (kind = "commit_available") then reduceRepositoryCommitAvailable s e
  else if bool_decide (kind = "abandon") then reduceRepositoryAbandon s e
  else (s, rejectPrep (er_ConnID e) (er_ReqID e) PrepFailureIllegalTransition
             "unknown repository event kind").

Definition reduceRepositoryCreateEvent s (connID : ConnID) (reqID : string)
    (p : RepositoryCreateParams) : State * list Effect :=
  reduceRepositoryCreate s
    (mkEvRepository connID reqID "create" (rcp_IntentID p) (rcp_PreparationID p) (rcp_ServerID p)
       (rcp_Repository p) (rcp_Fingerprint p) 0 "" "" "" (rcp_Command p) false false).

Definition reduceRepositoryPreparationEvent s (connID : ConnID) (reqID : string)
    (preparationID : string) : State * list Effect :=
  match FindPreparation s preparationID with
  | None => (s, rejectPrep connID reqID PrepFailureInvalidIdentity "preparation not found")
  | Some prep => (s, [prepReply connID reqID prep])
  end.

End Repository.
