(* ===== verification/HostRepoFacts.v ===== *)
(** * host/state: what the preparation lifecycle guarantees

    The stage machine as a function of the kind of event ([prep_next]), the
    well-formedness of the preparation maps ([repo_wf]) and the shape of every outcome
    of [reduceRepository] ([prep_outcome]), from which the properties follow. *)

From S2P Require Import Prelude HostState HostFrames HostRepo.

(** ** The stage machine *)

(** A machine state: the stage, and where a retry would resume. *)
Definition prep_abs (p : RepositoryPreparation) : PreparationStage * RetryOrigin :=
  (pr_Stage p, pr_RetryOrigin p).

(** What is lost when the work of a stage stops: the launch, or the clone. *)
Definition resume_at (st : PreparationStage) : RetryOrigin :=
  match st with PrepStageCloneReady => RetryOriginLaunch | _ => RetryOriginClone end.

Definition prep_next (kind : string) (a : PreparationStage * RetryOrigin)
    : option (PreparationStage * RetryOrigin) :=
  let '(st, origin) := a in
  match kind with
  | "clone_started" =>
      match st, origin with
      | _, RetryOriginLaunch => None
      | (PrepStageConfirmed | PrepStageFailed | PrepStageCancelled | PrepStageInterrupted), _ =>
          Some (PrepStageCloneInProgress, RetryOriginNone)
      | _, _ => None
      end
  | "clone_ready" =>
      match st with
      | PrepStageCloneInProgress => Some (PrepStageCloneReady, RetryOriginNone)
      | _ => None
      end
  | "commit_available" =>
      match st with
      | PrepStageCloneReady => Some (PrepStageAvailable, RetryOriginNone)
      | _ => None
      end
  | "failed" =>
      match st with
      | PrepStageAvailable | PrepStageAbandoned | PrepStageInternalCorruption => None
      | _ => Some (PrepStageFailed, resume_at st)
      end
  | "cancelled" =>
      match st with
      | PrepStageAvailable | PrepStageAbandoned | PrepStageInternalCorruption => None
      | _ => Some (PrepStageCancelled, resume_at st)
      end
  | "interrupted" =>
      match st with
      | PrepStageConfirmed | PrepStageCloneInProgress | PrepStageCloneReady =>
          Some (PrepStageInterrupted, resume_at st)
      | _ => None
      end
  | "retry" =>
      match st with
      | PrepStageFailed | PrepStageCancelled | PrepStageInterrupted =>
          match origin with
          | RetryOriginLaunch => Some (PrepStageCloneReady, RetryOriginNone)
          | _ => Some (PrepStageConfirmed, RetryOriginNone)
          end
      | _ => None
      end
  | "quarantined" =>
      match st with
      | PrepStageAvailable => None
      | _ => Some (PrepStageInternalCorruption, RetryOriginNone)
      end
  | "abandon" =>
      match st with PrepStageAvailable => None | _ => Some (PrepStageAbandoned, origin) end
  | _ => None
  end.

Lemma prep_next_available kind origin : prep_next kind (PrepStageAvailable, origin) = None.
Proof.
  unfold prep_next. cbn. repeat (case_match; try reflexivity).
Qed.

Lemma prep_next_unknown kind a :
  kind <> "clone_started" -> kind <> "clone_ready" -> kind <> "failed" -> kind <> "cancelled" ->
  kind <> "interrupted" -> kind <> "quarantined" -> kind <> "retry" -> kind <> "commit_available" ->
  kind <> "abandon" -> prep_next kind a = None.
Proof. intros. destruct a. unfold prep_next. repeat (case_match; try reflexivity); congruence. Qed.

(** A clone that is reported durable has a path, whenever a launch may use it;
    a session id is recorded exactly on the preparations that are available. *)
Record prep_wf (p : RepositoryPreparation) : Prop := {
  pwf_id : pr_ID p <> "";
  pwf_intent : pr_IntentID p <> "";
  pwf_revision : 0 <= pr_Revision p < 2 ^ 64;
  pwf_session : pr_Stage p = PrepStageAvailable <-> pr_SessionID p <> "";
  pwf_launched : pr_LaunchSucceeded p = true <-> pr_Stage p = PrepStageAvailable;
  pwf_clone : pr_Stage p = PrepStageCloneReady \/ pr_Stage p = PrepStageAvailable \/
    pr_RetryOrigin p = RetryOriginLaunch -> pr_CloneDurable p = true /\ pr_ClonePath p <> "" }.

Definition prep_same (p p' : RepositoryPreparation) : Prop :=
  pr_ID p' = pr_ID p /\ pr_IntentID p' = pr_IntentID p /\ pr_ServerID p' = pr_ServerID p /\
  pr_Repository p' = pr_Repository p.

Section RepoFacts.
Context `{GoMapRange} `{DriverSys}.
Implicit Types (s : State) (p prep : RepositoryPreparation) (e : EvRepository).

(** Every event but an interruption names the revision it was made for. *)
Definition fence_ok e p : bool :=
  match er_Kind e with
  | "interrupted" => true
  | _ => er_ObservedRevision e =? pr_Revision p
  end.

(** What an event has to bring along besides. *)
Definition evidence s e : bool :=
  match er_Kind e with
  | "clone_ready" => negb (bool_decide (er_ClonePath e = ""))
  | "commit_available" =>
      er_CloneDurable e && er_LaunchSucceeded e && negb (bool_decide (er_SessionID e = ""))
      && negb (bool_decide (er_ClonePath e = ""))
      && bool_decide (st_Sessions s !! er_SessionID e = None)
  | _ => true
  end.

(** Where [e] takes the preparation it names. *)
Definition prep_moves s e p : option (PreparationStage * RetryOrigin) :=
  if fence_ok e p && evidence s e then prep_next (er_Kind e) (prep_abs p) else None.

(** One transition of one preparation. *)
Record prep_step s e p p' : Prop := {
  ps_same : prep_same p p';
  ps_moves : prep_moves s e p = Some (prep_abs p');
  ps_revision : pr_Revision p' = u64 (pr_Revision p + 1);
  ps_wf : prep_wf p -> prep_wf p' }.

Record repo_wf s : Prop := {
  rwf_prep : forall id p, st_RepositoryPreparations s !! id = Some p -> pr_ID p = id /\ prep_wf p;
  rwf_intent : forall id i, st_CreationIntents s !! id = Some i -> ci_ID i = id;
  rwf_owner : forall id p, st_RepositoryPreparations s !! id = Some p ->
    exists i, st_CreationIntents s !! pr_IntentID p = Some i /\
      ci_ServerID i = pr_ServerID p /\ ci_Repository i = pr_Repository p;
  rwf_used : forall id i, st_CreationIntents s !! id = Some i ->
    exists pid p, st_RepositoryPreparations s !! pid = Some p /\ pr_IntentID p = id;
  rwf_unique : forall id id' p p', st_RepositoryPreparations s !! id = Some p ->
    st_RepositoryPreparations s !! id' = Some p' -> pr_IntentID p = pr_IntentID p' -> id = id' }.

(** Everything a repository event can do to the state. *)
Inductive prep_outcome s e : State -> Prop :=
| outcome_none :
    (forall p, FindPreparation s (er_PreparationID e) = Some p -> prep_moves s e p = None) ->
    prep_outcome s e s
| outcome_moved p p' :
    FindPreparation s (er_PreparationID e) = Some p ->
    er_Kind e <> "create" ->
    er_Kind e = "interrupted" \/ er_ObservedRevision e = pr_Revision p ->
    pr_Stage p' <> PrepStageAvailable ->
    prep_step s e p p' ->
    prep_outcome s e (putPreparation s p')
| outcome_available p p' :
    FindPreparation s (er_PreparationID e) = Some p ->
    er_Kind e = "commit_available" -> er_ObservedRevision e = pr_Revision p ->
    st_Sessions s !! er_SessionID e = None -> er_CloneDurable e = true ->
    er_LaunchSucceeded e = true ->
    pr_Stage p' = PrepStageAvailable -> pr_SessionID p' = er_SessionID e ->
    prep_step s e p p' ->
    prep_outcome s e (putPreparation s p' <| st_Sessions :=
      <[er_SessionID e := availableSession p' e]> (st_Sessions s) |>)
| outcome_created i p :
    st_CreationIntents s !! er_IntentID e = None ->
    st_RepositoryPreparations s !! er_PreparationID e = None ->
    er_Kind e = "create" ->
    ci_ID i = er_IntentID e -> ci_ServerID i = pr_ServerID p ->
    ci_Repository i = pr_Repository p -> ci_Fingerprint i = er_Fingerprint e ->
    pr_ID p = er_PreparationID e -> pr_IntentID p = er_IntentID e ->
    prep_abs p = (PrepStageConfirmed, RetryOriginNone) -> pr_Revision p = 1 -> prep_wf p ->
    prep_outcome s e (putPreparation (putCreationIntent s i) p).

Lemma FindPreparation_lookup s id p :
  FindPreparation s id = Some p -> id <> "" /\ st_RepositoryPreparations s !! id = Some p.
Proof. unfold FindPreparation. case_bool_decide; naive_solver. Qed.

Lemma fenced_cases s e k :
  (exists effs, fenced s e k = (s, effs)) \/
  (exists p, FindPreparation s (er_PreparationID e) = Some p /\
     er_ObservedRevision e = pr_Revision p /\ fenced s e k = k p).
Proof.
  unfold fenced, loadPrepFenced. destruct (FindPreparation _ _) as [p|]; [|eauto].
  destruct (Z.eqb_spec (er_ObservedRevision e) (pr_Revision p)); simpl; eauto 6.
Qed.

(** The lookup by intent is exact on well-formed states, whatever the
    iteration order. *)
Lemma findPrepByIntent_Some s intent pid p :
  repo_wf s -> st_RepositoryPreparations s !! pid = Some p -> pr_IntentID p = intent ->
  findPrepByIntent s intent = Some p.
Proof.
  intros Hwf Hp Hi. unfold findPrepByIntent.
  eapply range_find_unique; [exact Hp | by rewrite bool_decide_eq_true_2 | simpl].
  intros pid' p' b Hp'. case_bool_decide as Hi'; [|done]. intros [= <-].
  assert (pid = pid') as <- by (eapply rwf_unique; [done..|congruence]). congruence.
Qed.

Lemma outcome_stay s e p :
  FindPreparation s (er_PreparationID e) = Some p -> prep_moves s e p = None -> prep_outcome s e s.
Proof. intros Hf Hm. apply outcome_none. by intros q Hq; simplify_eq. Qed.

Lemma fenced_outcome s e k :
  (forall p, fence_ok e p = (er_ObservedRevision e =? pr_Revision p)) ->
  (forall p, FindPreparation s (er_PreparationID e) = Some p ->
     er_ObservedRevision e = pr_Revision p ->
     prep_moves s e p = (if evidence s e then prep_next (er_Kind e) (prep_abs p) else None) ->
     prep_outcome s e (k p).1) ->
  prep_outcome s e (fenced s e k).1.
Proof.
  intros Hfence Hk. unfold fenced, loadPrepFenced.
  destruct (FindPreparation _ _) as [p|] eqn:Hf.
  - pose proof (Hfence p) as Hp. destruct (Z.eqb_spec (er_ObservedRevision e) (pr_Revision p)).
    + apply Hk; [done..|]. unfold prep_moves. by rewrite Hp.
    + apply (outcome_stay s e p Hf). unfold prep_moves. by rewrite Hp.
  - simpl. apply outcome_none. by intros p; rewrite Hf.
Qed.

(** [advancePrep] to a stage other than available. *)
Lemma advance_outcome s e p stage code origin :
  FindPreparation s (er_PreparationID e) = Some p ->
  er_Kind e <> "create" ->
  er_Kind e = "interrupted" \/ er_ObservedRevision e = pr_Revision p ->
  pr_Stage p <> PrepStageAvailable -> stage <> PrepStageAvailable ->
  prep_moves s e p = Some (stage, origin) ->
  (stage = PrepStageCloneReady \/ origin = RetryOriginLaunch ->
     pr_Stage p = PrepStageCloneReady \/ pr_RetryOrigin p = RetryOriginLaunch) ->
  prep_outcome s e (advancePrep s p stage code origin (er_ConnID e) (er_ReqID e)).1.
Proof.
  intros Hf Hk Ho Hp Hs Hm Hclone. unfold advancePrep. simpl.
  apply (outcome_moved s e p); [done|done|done|done|]. split; simpl; try done.
  intros [Wid Wint Wrev Wsess Wl Wcl]. split; simpl; try done.
  - apply u64_bounds.
  - tauto.
  - rewrite Wl. tauto.
  - intros Hor. apply Wcl. tauto.
Qed.

#[local] Arguments advancePrep : simpl never.

(** The handlers, one by one: [Hk] fixes the kind, [Hm] says where the machine goes. *)
Ltac handler Hk :=
  apply fenced_outcome; [by intros p; unfold fence_ok; rewrite Hk|];
  intros p Hf Ho Hm; unfold evidence, prep_abs in Hm; rewrite Hk in Hm; cbn in Hm.

Ltac stay Hf Hm := by apply (outcome_stay _ _ _ Hf); rewrite Hm.

Ltac advance_with Hk Hst Hm :=
  unfold stopOrigin; rewrite ?Hst; first [rewrite bool_decide_eq_true_2 by done|
    rewrite bool_decide_eq_false_2 by done|idtac];
  apply advance_outcome;
  [done | by rewrite Hk | by (left + right) | by rewrite Hst | done | by rewrite Hm
  | rewrite ?Hst; intros [?|?]; first [discriminate | by auto]].

Lemma cloneStarted_outcome s e :
  er_Kind e = "clone_started" -> prep_outcome s e (reduceRepositoryCloneStarted s e).1.
Proof.
  intros Hk. handler Hk. destruct (pr_Stage p) eqn:Hst; cbn [negb]; destruct (pr_RetryOrigin p) eqn:Hor;
    cbn; solve [stay Hf Hm | advance_with Hk Hst Hm].
Qed.

Lemma cloneReady_outcome s e :
  er_Kind e = "clone_ready" -> prep_outcome s e (reduceRepositoryCloneReady s e).1.
Proof.
  intros Hk. handler Hk. destruct (bool_decide_reflect (pr_Stage p = PrepStageCloneInProgress)) as [Hst|Hst].
  2:{ apply (outcome_stay _ _ _ Hf). rewrite Hm. destruct (negb _), (pr_Stage p); done. }
  rewrite Hst in Hm. case_bool_decide as Hpath; [stay Hf Hm|].
  simpl. apply (outcome_moved s e p); [done | by rewrite Hk | by right | done |].
  split; simpl; rewrite ?Hst; [done|done|done|].
  intros [Wid Wint Wrev Wsess Wl Wcl]. rewrite Hst in *.
  split; simpl; auto; [apply u64_bounds | rewrite <- Wsess | rewrite Wl]; split; discriminate.
Qed.

Lemma failed_outcome s e :
  er_Kind e = "failed" -> prep_outcome s e (reduceRepositoryFailed s e).1.
Proof.
  intros Hk. handler Hk. destruct (pr_Stage p) eqn:Hst; cbn [IsTerminal];
    solve [stay Hf Hm | advance_with Hk Hst Hm].
Qed.

Lemma cancelled_outcome s e :
  er_Kind e = "cancelled" -> prep_outcome s e (reduceRepositoryCancelled s e).1.
Proof.
  intros Hk. handler Hk. destruct (IsTerminal _) eqn:Ht.
  { apply (outcome_stay _ _ _ Hf). rewrite Hm. by destruct (pr_Stage p). }
  change (prep_outcome s e (advancePrep s p PrepStageCancelled PrepFailureCancelled (stopOrigin p)
    (er_ConnID e) (er_ReqID e)).1).
  destruct (pr_Stage p) eqn:Hst; try discriminate; advance_with Hk Hst Hm.
Qed.

Lemma interrupted_outcome s e :
  er_Kind e = "interrupted" -> prep_outcome s e (reduceRepositoryInterrupted s e).1.
Proof.
  intros Hk. unfold reduceRepositoryInterrupted.
  destruct (FindPreparation _ _) as [p|] eqn:Hf; [|by simpl; apply outcome_none; intros p; rewrite Hf].
  assert (prep_moves s e p = prep_next "interrupted" (prep_abs p)) as Hm.
  { unfold prep_moves, fence_ok, evidence. by rewrite Hk. }
  unfold prep_abs in Hm. cbn in Hm.
  destruct (pr_Stage p) eqn:Hst; solve [stay Hf Hm | advance_with Hk Hst Hm].
Qed.

Lemma quarantined_outcome s e :
  repo_wf s -> er_Kind e = "quarantined" -> prep_outcome s e (reduceRepositoryQuarantined s e).1.
Proof.
  intros Hwf Hk. handler Hk. pose proof Hf as [_ Hp]%FindPreparation_lookup.
  destruct (rwf_prep _ Hwf _ _ Hp) as [_ Hpwf]. pose proof (pwf_session _ Hpwf) as Hsess.
  unfold IsSessionAvailable. destruct (pr_Stage p) eqn:Hst; simpl; try advance_with Hk Hst Hm.
  rewrite bool_decide_eq_false_2; [stay Hf Hm|]. by apply Hsess.
Qed.

Lemma retry_outcome s e :
  er_Kind e = "retry" -> prep_outcome s e (reduceRepositoryRetry s e).1.
Proof.
  intros Hk. handler Hk. destruct (_ && _) eqn:Hleg.
  { apply (outcome_stay _ _ _ Hf). rewrite Hm. by destruct (pr_Stage p). }
  assert (pr_Stage p <> PrepStageAvailable) as Hst by (by destruct (pr_Stage p)).
  assert (prep_moves s e p = Some (if bool_decide (pr_RetryOrigin p = RetryOriginLaunch)
    then PrepStageCloneReady else PrepStageConfirmed, RetryOriginNone)) as Hm'.
  { rewrite Hm. destruct (pr_Stage p); try done; by destruct (pr_RetryOrigin p). }
  clear Hleg Hm.
  destruct p as [id intent server repo stage code origin rev gen path sid durable launched].
  cbn in Hf, Ho, Hst, Hm' |- *. case_bool_decide as Hor; cbn;
    (eapply outcome_moved; [exact Hf | by rewrite Hk | by right | done |]);
    (split; simpl; [done|done|done|]); intros [Wid Wint Wrev Wsess Wl Wcl];
    (split; simpl; auto; [apply u64_bounds|..]).
  1,3: rewrite <- Wsess; split; [discriminate|done].
  1,2: rewrite Wl; split; [done|discriminate].
  intros [|[|]]; discriminate.
Qed.

Lemma abandon_outcome s e :
  er_Kind e = "abandon" -> prep_outcome s e (reduceRepositoryAbandon s e).1.
Proof.
  intros Hk. handler Hk. case_bool_decide as Hst; [rewrite Hst in Hm; stay Hf Hm|].
  apply (advance_outcome s e p PrepStageAbandoned (pr_FailureCode p) (pr_RetryOrigin p));
    [done | by rewrite Hk | by right | done | done | rewrite Hm; by destruct (pr_Stage p) |].
  intros [?|?]; [discriminate | by right].
Qed.

Lemma commit_outcome s e :
  er_Kind e = "commit_available" -> prep_outcome s e (reduceRepositoryCommitAvailable s e).1.
Proof.
  intros Hk. handler Hk. destruct (bool_decide_reflect (pr_Stage p = PrepStageCloneReady)) as [Hst|Hst].
  2:{ apply (outcome_stay _ _ _ Hf). rewrite Hm. destruct (_ && _), (pr_Stage p); done. }
  rewrite Hst in Hm. simpl.
  destruct (er_CloneDurable e) eqn:Hcd; [|stay Hf Hm].
  destruct (er_LaunchSucceeded e) eqn:Hls; [|stay Hf Hm]. simpl in Hm |- *.
  case_bool_decide as Hs; [stay Hf Hm|]. case_bool_decide as Hc; [stay Hf Hm|]. simpl in Hm |- *.
  unfold SessionIsAvailableProjection. rewrite bool_decide_eq_false_2 by done. simpl.
  destruct (st_Sessions s !! er_SessionID e) as [old|] eqn:Hold; [stay Hf Hm|].
  apply (outcome_available s e p); auto.
  split; simpl; rewrite ?Hst; [done|done|done|].
  intros [Wid Wint Wrev Wsess Wl Wcl]. split; simpl; auto; try done. apply u64_bounds.
Qed.

Definition create_valid e : bool :=
  negb (bool_decide (er_IntentID e = "") || bool_decide (er_PreparationID e = "")
        || bool_decide (er_ServerID e = "") || negb (RepoValid (er_Repository e))
        || bool_decide (er_Command e = "")).

Lemma outcome_untouched s e : (forall a, prep_next (er_Kind e) a = None) -> prep_outcome s e s.
Proof. intros Hn. apply outcome_none. intros p _. unfold prep_moves. rewrite Hn. by destruct (_ && _). Qed.

Lemma create_outcome s e :
  repo_wf s -> er_Kind e = "create" -> prep_outcome s e (reduceRepositoryCreate s e).1.
Proof.
  intros Hwf Hk. assert (forall a, prep_next (er_Kind e) a = None) as Hnone by (intros []; by rewrite Hk).
  unfold reduceRepositoryCreate. cbv zeta.
  destruct (_ || _) eqn:Hv; [by apply outcome_untouched|].
  rewrite !orb_false_iff, !bool_decide_eq_false in Hv. destruct Hv as [[[[Hi Hp] _] _] _].
  destruct (st_CreationIntents s !! er_IntentID e) as [i|] eqn:Hint; simpl.
  - destruct (negb _); [by apply outcome_untouched|].
    destruct (rwf_used _ Hwf _ _ Hint) as (pid & p & Hpid & Hpi).
    rewrite (findPrepByIntent_Some s _ pid p Hwf Hpid Hpi). by apply outcome_untouched.
  - case_bool_decide as Hpre; [by apply outcome_untouched|]. apply eq_None_not_Some in Hpre. simpl.
    apply outcome_created; try done. split; simpl; try done; try lia.
    intros [|[|]]; discriminate.
Qed.

Lemma reduceRepository_outcome s e : repo_wf s -> prep_outcome s e (reduceRepository s e).1.
Proof.
  intros Hwf. unfold reduceRepository. cbv zeta. repeat (case_bool_decide; [
    first [ by apply create_outcome | by apply cloneStarted_outcome | by apply cloneReady_outcome
          | by apply failed_outcome | by apply cancelled_outcome | by apply interrupted_outcome
          | by apply quarantined_outcome | by apply retry_outcome | by apply commit_outcome
          | by apply abandon_outcome ]|]). simpl.
  apply outcome_untouched. intros a. by apply prep_next_unknown.
Qed.

(** ** Well-formedness *)

Lemma repo_wf_move s e id p p' :
  repo_wf s -> st_RepositoryPreparations s !! id = Some p -> prep_step s e p p' ->
  repo_wf (putPreparation s p').
Proof.
  intros Hwf Hp Hstep. destruct (rwf_prep _ Hwf _ _ Hp) as [Hid Hpwf].
  destruct (ps_same _ _ _ _ Hstep) as (Eid & Ein & Esrv & Erepo).
  assert (pr_ID p' = id) as Hid' by congruence.
  split; simpl; rewrite ?Hid'.
  - intros id1 p1. rewrite lookup_insert_Some. intros [[<- <-]|[_ H1]].
    + split; [done|]. by apply (ps_wf _ _ _ _ Hstep).
    + by apply (rwf_prep _ Hwf).
  - apply (rwf_intent _ Hwf).
  - intros id1 p1. rewrite lookup_insert_Some. intros [[<- <-]|[_ H1]].
    + rewrite Ein, Esrv, Erepo. by apply (rwf_owner _ Hwf id).
    + by apply (rwf_owner _ Hwf id1).
  - intros iid i Hi. destruct (rwf_used _ Hwf _ _ Hi) as (pid & q & Hq & Hqi).
    destruct (decide (pid = id)) as [->|].
    + exists id, p'. rewrite lookup_insert_eq. split; [done|]. congruence.
    + exists pid, q. by rewrite lookup_insert_ne.
  - assert (forall id1 p1, <[id := p']> (st_RepositoryPreparations s) !! id1 = Some p1 ->
      exists q, st_RepositoryPreparations s !! id1 = Some q /\ pr_IntentID p1 = pr_IntentID q)
      as Hback.
    { intros id1 p1. rewrite lookup_insert_Some. intros [[<- <-]|[_ H1]]; eauto. }
    intros id1 id2 p1 p2 (q1 & H1 & E1)%Hback (q2 & H2 & E2)%Hback Heq.
    eapply rwf_unique; [done..|congruence].
Qed.

Lemma repo_wf_create s i p :
  repo_wf s -> st_CreationIntents s !! ci_ID i = None ->
  st_RepositoryPreparations s !! pr_ID p = None ->
  ci_ID i = pr_IntentID p -> ci_ServerID i = pr_ServerID p -> ci_Repository i = pr_Repository p ->
  prep_wf p -> repo_wf (putPreparation (putCreationIntent s i) p).
Proof.
  intros Hwf Hi Hp Eid Esrv Erepo Hpwf.
  assert (forall id q, st_RepositoryPreparations s !! id = Some q -> pr_IntentID q <> ci_ID i)
    as Hfresh.
  { intros id q Hq Heq. destruct (rwf_owner _ Hwf _ _ Hq) as (j & Hj & _).
    rewrite Heq in Hj. congruence. }
  split; simpl.
  - intros id q. rewrite lookup_insert_Some. intros [[<- <-]|[_ Hq]]; [done|].
    by apply (rwf_prep _ Hwf).
  - intros id j. rewrite lookup_insert_Some. intros [[<- <-]|[_ Hj]]; [done|].
    by apply (rwf_intent _ Hwf).
  - intros id q. rewrite lookup_insert_Some. intros [[<- <-]|[_ Hq]].
    + exists i. by rewrite <- Eid, lookup_insert_eq.
    + destruct (rwf_owner _ Hwf _ _ Hq) as (j & Hj & ?). exists j.
      rewrite lookup_insert_ne; [done|]. intros Heq. by apply (Hfresh _ _ Hq).
  - intros id j. rewrite lookup_insert_Some. intros [[<- <-]|[_ Hj]].
    + exists (pr_ID p), p. by rewrite lookup_insert_eq.
    + destruct (rwf_used _ Hwf _ _ Hj) as (pid & q & Hq & ?). exists pid, q.
      rewrite lookup_insert_ne; [done|]. congruence.
  - intros id id' q q'. rewrite !lookup_insert_Some.
    intros [[<- <-]|[? Hq]] [[<- <-]|[? Hq']] Heq; auto.
    + destruct (Hfresh _ _ Hq'). congruence.
    + destruct (Hfresh _ _ Hq). congruence.
    + by eapply rwf_unique.
Qed.

Lemma prep_outcome_wf s e s' : repo_wf s -> prep_outcome s e s' -> repo_wf s'.
Proof.
  intros Hwf Ho. inversion Ho; subst; [done|..].
  - eapply repo_wf_move; [done| |done]. by eapply FindPreparation_lookup.
  - assert (repo_wf (putPreparation s p')) as [] by
      (eapply repo_wf_move; [done|by eapply FindPreparation_lookup|done]). by split.
  - apply repo_wf_create; try done; congruence.
Qed.

(** A repository event moves at most the preparation it names, as the machine says. *)
Lemma prep_outcome_lookup s e s' id p :
  repo_wf s -> prep_outcome s e s' -> st_RepositoryPreparations s !! id = Some p ->
  exists p', st_RepositoryPreparations s' !! id = Some p' /\
    ((p' = p /\ (id = er_PreparationID e -> prep_moves s e p = None))
     \/ (id = er_PreparationID e /\ prep_step s e p p')).
Proof.
  intros Hwf Ho Hp. destruct (rwf_prep _ Hwf _ _ Hp) as [Hpid Hpwf].
  assert (id = er_PreparationID e -> FindPreparation s (er_PreparationID e) = Some p) as Hfind.
  { intros <-. unfold FindPreparation. rewrite bool_decide_eq_false_2; [done|].
    rewrite <- Hpid. apply (pwf_id _ Hpwf). }
  assert (forall q q', FindPreparation s (er_PreparationID e) = Some q -> prep_step s e q q' ->
    exists p', <[pr_ID q' := q']> (st_RepositoryPreparations s) !! id = Some p' /\
      ((p' = p /\ (id = er_PreparationID e -> prep_moves s e p = None))
       \/ (id = er_PreparationID e /\ prep_step s e p p'))) as Hmove.
  { intros q q' [_ Hq]%FindPreparation_lookup Hs.
    destruct (rwf_prep _ Hwf _ _ Hq) as [Hid _]. destruct (ps_same _ _ _ _ Hs) as (Eid & _).
    rewrite Eid, Hid. destruct (decide (id = er_PreparationID e)) as [->|].
    - rewrite lookup_insert_eq. exists q'. simplify_eq. auto.
    - rewrite lookup_insert_ne by done. exists p. split; [done|]. by left. }
  destruct Ho as [Hn|q q' Hq _ _ _ Hs|q q' Hq _ _ _ _ _ _ _ Hs|i q _ Hnew _ _ _ _ _ Hq]; simpl.
  - exists p. split; [done|]. left. auto.
  - by eapply Hmove.
  - by eapply Hmove.
  - exists p. rewrite Hq, lookup_insert_ne by congruence. split; [done|]. left. split; [done|]. congruence.
Qed.

Lemma prep_outcome_new s e s' id p' :
  repo_wf s -> prep_outcome s e s' ->
  st_RepositoryPreparations s !! id = None -> st_RepositoryPreparations s' !! id = Some p' ->
  er_Kind e = "create" /\ id = er_PreparationID e /\
  prep_abs p' = (PrepStageConfirmed, RetryOriginNone) /\ pr_Revision p' = 1.
Proof.
  intros Hwf Ho Hn Hp'.
  assert (forall q q', FindPreparation s (er_PreparationID e) = Some q -> prep_step s e q q' ->
    <[pr_ID q' := q']> (st_RepositoryPreparations s) !! id = None) as Hmove.
  { intros q q' [_ Hq]%FindPreparation_lookup Hs.
    destruct (rwf_prep _ Hwf _ _ Hq) as [Hid _]. destruct (ps_same _ _ _ _ Hs) as (Eid & _).
    rewrite Eid, Hid, lookup_insert_ne; [done|]. congruence. }
  inversion Ho; subst; simpl in *; [congruence|..].
  - by erewrite Hmove in Hp'.
  - by erewrite Hmove in Hp'.
  - apply lookup_insert_Some in Hp' as [[<- <-]|[_ ?]]; [|congruence]. done.
Qed.

(** A run of repository events. *)
Definition repository_run s (es : list EvRepository) : State :=
  foldl (fun s e => (reduceRepository s e).1) s es.

Lemma repository_run_wf s es : repo_wf s -> repo_wf (repository_run s es).
Proof.
  revert s. induction es as [|e es IH]; intros s Hwf; simpl; [done|].
  apply IH. eapply prep_outcome_wf; [done|]. by apply reduceRepository_outcome.
Qed.

Lemma repository_run_available s es id p :
  repo_wf s -> st_RepositoryPreparations s !! id = Some p -> pr_Stage p = PrepStageAvailable ->
  st_RepositoryPreparations (repository_run s es) !! id = Some p.
Proof.
  revert s. induction es as [|e es IH]; intros s Hwf Hp Hst; simpl; [done|].
  pose proof (reduceRepository_outcome s e Hwf) as Ho.
  apply IH; [by eapply prep_outcome_wf| |done].
  destruct (prep_outcome_lookup _ _ _ _ _ Hwf Ho Hp) as (p' & Hp' & [[-> _]|[_ Hs]]); [done|].
  pose proof (ps_moves _ _ _ _ Hs) as Hm. unfold prep_moves, prep_abs in Hm.
  rewrite Hst, prep_next_available in Hm. by destruct (_ && _).
Qed.


(** The kinds of event a worker or client sends with the revision it saw. *)
Definition fenced_kinds : list string :=
  ["clone_started"; "clone_ready"; "failed"; "cancelled"; "quarantined"; "retry";
   "commit_available"; "abandon"].

Lemma reduceRepository_stale s e p :
  er_Kind e ∈ fenced_kinds -> FindPreparation s (er_PreparationID e) = Some p ->
  er_ObservedRevision e <> pr_Revision p ->
  reduceRepository s e
  = (s, [errResp (er_ConnID e) (er_ReqID e) ErrCodeStaleRevision
           "observed revision does not match"]).
Proof.
  intros Hk Hp Hrev.
  assert (forall k, fenced s e k = (s, [errResp (er_ConnID e) (er_ReqID e) ErrCodeStaleRevision
           "observed revision does not match"])) as Hf.
  { intros k. unfold fenced, loadPrepFenced. rewrite Hp.
    by destruct (Z.eqb_spec (er_ObservedRevision e) (pr_Revision p)). }
  unfold reduceRepository, fenced_kinds in *. cbv zeta.
  repeat (apply elem_of_cons in Hk as [-> | Hk]; [apply Hf|]). by apply elem_of_nil in Hk.
Qed.

Lemma u64_succ_ne z : 0 <= z < 2 ^ 64 -> u64 (z + 1) <> z.
Proof.
  intros Hz. unfold u64. destruct (decide (z = 2 ^ 64 - 1)) as [->|].
  - by vm_compute.
  - rewrite Z.mod_small; lia.
Qed.

(** Revision fencing.  When an event changes a preparation, every event that
    was prepared against the revision it had before is answered with
    stale_revision and changes nothing: of two workers that observed the same
    revision at most one succeeds. *)
Theorem repository_fenced_once s e e2 p p' :
  repo_wf s ->
  st_RepositoryPreparations s !! er_PreparationID e = Some p ->
  st_RepositoryPreparations (reduceRepository s e).1 !! er_PreparationID e = Some p' ->
  p' <> p ->
  er_PreparationID e2 = er_PreparationID e -> er_Kind e2 ∈ fenced_kinds ->
  er_ObservedRevision e2 = pr_Revision p ->
  pr_Revision p' = u64 (pr_Revision p + 1) /\
  reduceRepository (reduceRepository s e).1 e2
  = ((reduceRepository s e).1,
     [errResp (er_ConnID e2) (er_ReqID e2) ErrCodeStaleRevision
        "observed revision does not match"]).
Proof.
  intros Hwf Hp Hp' Hne Hid Hk Hrev.
  pose proof (reduceRepository_outcome s e Hwf) as Ho.
  destruct (prep_outcome_lookup _ _ _ _ _ Hwf Ho Hp) as (q & Hq & Hcase).
  rewrite Hp' in Hq. injection Hq as <-. destruct Hcase as [[? _]|[_ Hs]]; [done|].
  pose proof (ps_revision _ _ _ _ Hs) as Hr. split; [done|].
  destruct (rwf_prep _ Hwf _ _ Hp) as [Hpid [Hne' _ Hb _ _ _]].
  apply (reduceRepository_stale _ _ p' Hk).
  - rewrite Hid. unfold FindPreparation. rewrite bool_decide_eq_false_2 by congruence. done.
  - rewrite Hrev, Hr. intros Heq. by apply (u64_succ_ne _ Hb).
Qed.

(** Creation is idempotent per intent.  In a well-formed state a second
    create with a known intent and the same fingerprint changes nothing, starts no
    work and answers with the one preparation of that intent, whatever preparation
    id it proposes; a different fingerprint is refused. *)
Theorem repository_create_idempotent s e i :
  repo_wf s -> create_valid e = true ->
  st_CreationIntents s !! er_IntentID e = Some i ->
  (ci_Fingerprint i = er_Fingerprint e ->
     exists pid p, st_RepositoryPreparations s !! pid = Some p /\ pr_IntentID p = er_IntentID e /\
       reduceRepositoryCreate s e = (s, [prepReply (er_ConnID e) (er_ReqID e) p])) /\
  (ci_Fingerprint i <> er_Fingerprint e ->
     reduceRepositoryCreate s e
     = (s, rejectPrep (er_ConnID e) (er_ReqID e) PrepFailureIllegalTransition
             "intent fingerprint conflict")).
Proof.
  unfold create_valid. rewrite negb_true_iff. intros Hwf Hv Hi.
  unfold reduceRepositoryCreate. cbv zeta. rewrite Hv, Hi. split; intros Hfp.
  - rewrite bool_decide_eq_true_2 by done.
    destruct (rwf_used _ Hwf _ _ Hi) as (pid & p & Hp & Hpi). exists pid, p.
    split; [done|]. split; [done|]. simpl.
    by rewrite (findPrepByIntent_Some s _ pid p Hwf Hp Hpi).
  - by rewrite bool_decide_eq_false_2 by done.
Qed.

(** The sole availability commit.  A repository event never removes or
    overwrites a session; it adds one only when it commits a durable clone and a
    successful launch to a preparation that was ready, which it makes available
    under that session id. *)
Theorem repository_sole_commit s e :
  repo_wf s ->
  st_Sessions (reduceRepository s e).1 = st_Sessions s \/
  (exists p p', er_Kind e = "commit_available" /\
     er_CloneDurable e = true /\ er_LaunchSucceeded e = true /\
     st_Sessions s !! er_SessionID e = None /\
     st_RepositoryPreparations s !! er_PreparationID e = Some p /\
     st_RepositoryPreparations (reduceRepository s e).1 !! er_PreparationID e = Some p' /\
     pr_Stage p = PrepStageCloneReady /\ IsSessionAvailable p' = true /\
     pr_SessionID p' = er_SessionID e /\
     st_Sessions (reduceRepository s e).1
     = <[er_SessionID e := availableSession p' e]> (st_Sessions s)).
Proof.
  intros Hwf. pose proof (reduceRepository_outcome s e Hwf) as Ho.
  generalize dependent (reduceRepository s e).1. intros s' Ho.
  destruct Ho as [| |p p' Hf Hk Hrev Hnone Hcd Hls Hst Hsid Hs|]; [by left|by left| |by left].
  right. exists p, p'. pose proof Hf as [_ Hp]%FindPreparation_lookup.
  destruct (rwf_prep _ Hwf _ _ Hp) as [Hpid Hpwf]. destruct (ps_same _ _ _ _ Hs) as (Eid & _).
  pose proof (pwf_session _ (ps_wf _ _ _ _ Hs Hpwf)) as Hsess.
  assert (pr_Stage p = PrepStageCloneReady) as Hready.
  { pose proof (ps_moves _ _ _ _ Hs) as Hm. unfold prep_moves, prep_abs in Hm.
    rewrite Hk, Hst in Hm. destruct (_ && _); [|done]. simpl in Hm. by destruct (pr_Stage p). }
  repeat split; try done.
  - simpl. by rewrite Eid, Hpid, lookup_insert_eq.
  - unfold IsSessionAvailable. rewrite Hst. simpl.
    rewrite bool_decide_eq_false_2; [done|]. by apply Hsess.
Qed.

End RepoFacts.

(** ** Concrete runs *)

Module RepoDemo.
Import HostDemo.

Definition acme : GitHubRepositoryIdentity := mkRepo "42" "acme" "grid".

Definition repo_event (kind : string) (rev : Z) : EvRepository :=
  mkEvRepository 1 "r" kind "i1" "p1" "srv" acme "fp" rev "/clones/p1" "" "sess" "shell" true true.

Definition full_run : list EvRepository :=
  [repo_event "create" 0; repo_event "clone_started" 1; repo_event "clone_ready" 2;
   repo_event "commit_available" 3].

Definition demo_prep (stage : PreparationStage) (rev : Z) (path sid : string) (durable launched : bool)
    : RepositoryPreparation :=
  mkPrep "p1" "i1" "srv" acme stage "" RetryOriginNone rev 1 path sid durable launched.

Lemma New_repo_wf : repo_wf New.
Proof. by split; simpl; setoid_rewrite lookup_empty. Qed.


(** Two workers that both saw revision 2: the second report is stale. *)
Lemma repository_fenced_once_witness :
  let s := repository_run New [repo_event "create" 0; repo_event "clone_started" 1] in
  let s' := (reduceRepository s (repo_event "failed" 2)).1 in
  reduceRepository s' (repo_event "clone_ready" 2)
  = (s', [errResp 1 "r" ErrCodeStaleRevision "observed revision does not match"]).
Proof.
  intros s s'.
  refine (proj2 (repository_fenced_once s (repo_event "failed" 2) (repo_event "clone_ready" 2)
    (demo_prep PrepStageCloneInProgress 2 "" "" false false)
    (demo_prep PrepStageFailed 3 "" "" false false
       <| pr_FailureCode := PrepFailureCloneFailed |> <| pr_RetryOrigin := RetryOriginClone |>)
    _ _ _ _ _ _ _)).
  - apply repository_run_wf, New_repo_wf.
  - vm_compute. reflexivity.
  - vm_compute. reflexivity.
  - discriminate.
  - reflexivity.
  - apply elem_of_cons. right. apply elem_of_cons. left. reflexivity.
  - reflexivity.
Defined.

Lemma repository_create_idempotent_witness :
  let s := repository_run New full_run in
  exists pid p, st_RepositoryPreparations s !! pid = Some p /\ pr_IntentID p = "i1" /\
    reduceRepositoryCreate s (repo_event "create" 0) = (s, [prepReply 1 "r" p]).
Proof.
  intros s.
  refine (proj1 (repository_create_idempotent s (repo_event "create" 0)
    (mkIntent "i1" "srv" acme "fp" "shell") _ _ _) _).
  - apply repository_run_wf, New_repo_wf.
  - vm_compute. reflexivity.
  - vm_compute. reflexivity.
  - reflexivity.
Defined.

Lemma repository_sole_commit_witness :
  let s := repository_run New (take 3 full_run) in
  let s' := (reduceRepository s (repo_event "commit_available" 3)).1 in
  st_Sessions s' = st_Sessions s \/ exists sess, st_Sessions s' = <["sess" := sess]> (st_Sessions s).
Proof.
  intros s s'.
  destruct (repository_sole_commit s (repo_event "commit_available" 3)) as [Heq|Hex].
  - apply repository_run_wf, New_repo_wf.
  - left. exact Heq.
  - right. destruct Hex as (p & p' & _ & _ & _ & _ & _ & _ & _ & _ & _ & Heq).
    exists (availableSession p' (repo_event "commit_available" 3)). exact Heq.
Defined.

End RepoDemo.
