(* ===== verification/HostReduce.v ===== *)
(** * host/state: the reducer

    Model of event_dispatch.go and reduce.go: the table of registered events and
    [Reduce], with the admission boundary that replaces it while the runtime is
    shutting down.  A call that panics in Go is [None].  [json.Unmarshal] into a
    parameter type is a parameter ([PayloadCodec]): a function from the payload to
    the value or the text of the error. *)

From S2P Require Import Prelude GoStd HostState HostFrames HostInput HostSession HostCapsule.
From S2P Require Import HostHandlers HostRepo.

Definition EventCreateSession : string := "create-session".
Definition EventStopSession : string := "stop-session".
Definition EventListSessions : string := "list-sessions".
Definition EventShutdown : string := "shutdown".
Definition EventPushDriver : string := "push-driver".
Definition EventForkSession : string := "fork-session".
Definition EventSetHeadFrame : string := "set-head-frame".
Definition EventListSessionMessages : string := "list-session-messages".
Definition EventReadSessionMessages : string := "read-session-messages".
Definition EventCreateRepositorySession : string := "create-repository-session".
Definition EventGetRepositoryPreparation : string := "get-repository-preparation".
Definition EventListResumeCapsules : string := "list-resume-capsules".
Definition EventFlagResumeCapsule : string := "flag-resume-capsule".

Record SessionMessagesParams := mkMessagesParams {
  mp_SessionID : string; mp_LastReadMessageID : string }.
Record ResumeCapsuleFlagParams := mkFlagParams { flp_SessionID : string; flp_Flagged : bool }.

Class PayloadCodec := {
  decode_unit : string -> string + unit;
  decode_create : string -> string + CreateSessionParams;
  decode_push : string -> string + PushDriverParams;
  decode_session : string -> string + SessionID;
  decode_set_head : string -> string + SetHeadFrameParams;
  decode_messages : string -> string + SessionMessagesParams;
  decode_repo_create : string -> string + RepositoryCreateParams;
  decode_preparation : string -> string + string;
  decode_flag : string -> string + ResumeCapsuleFlagParams }.

Section Reduce.
Context `{GoMapRange} `{DriverSys} `{PayloadCodec} (rnd : nat -> string).
Implicit Types (s : State).

(** The handler [RegisterEvent] stores: an empty payload is the zero value. *)
Definition RegisterEvent {T} (zero : T) (unmarshal : string -> string + T)
    (handler : State -> ConnID -> string -> T -> State * list Effect)
    s (e : EvEvent) : State * list Effect :=
  let decoded := if bool_decide (ee_Payload e = "") then inr zero else unmarshal (ee_Payload e) in
  match decoded with
  | inl err =>
    (s, [errResp (ee_ConnID e) (ee_ReqID e) ErrCodeInvalidArgument ("invalid payload: " +:+ err)])
  | inr payload => handler s (ee_ConnID e) (ee_ReqID e) payload
  end.

(** The registrations of the package's [init] functions. *)
Definition eventHandlers : list (string * (State -> EvEvent -> State * list Effect)) := [
  (EventCreateSession,
    RegisterEvent (mkCreateParams "" "" zero_options) decode_create (reduceCreateSession rnd));
  (EventPushDriver,
    RegisterEvent (mkPushParams "" "" "" zero_options "") decode_push (reducePushDriver rnd));
  (EventForkSession, RegisterEvent "" decode_session (reduceForkSession rnd));
  (EventStopSession, RegisterEvent "" decode_session reduceStopSession);
  (EventListSessions,
    RegisterEvent tt decode_unit (fun s c r _ => reduceListSessions s c r));
  (EventSetHeadFrame, RegisterEvent (mkSetHeadParams "" "") decode_set_head reduceSetHeadFrame);
  (EventShutdown, RegisterEvent tt decode_unit (fun s c r _ => reduceShutdown s c r));
  (EventListSessionMessages,
    RegisterEvent (mkMessagesParams "" "") decode_messages
      (fun s c r p => reduceListSessionMessages s c r (mp_SessionID p)));
  (EventReadSessionMessages,
    RegisterEvent (mkMessagesParams "" "") decode_messages
      (fun s c r p => reduceReadSessionMessages s c r (mp_SessionID p) (mp_LastReadMessageID p)));
  (EventCreateRepositorySession,
    RegisterEvent (mkRepoCreateParams "" "" "" (mkRepo "" "" "") "" "") decode_repo_create
      reduceRepositoryCreateEvent);
  (EventGetRepositoryPreparation,
    RegisterEvent "" decode_preparation reduceRepositoryPreparationEvent);
  (EventListResumeCapsules,
    RegisterEvent tt decode_unit (fun s c r _ => reduceListResumeCapsules s c r));
  (EventFlagResumeCapsule,
    RegisterEvent (mkFlagParams "" false) decode_flag
      (fun s c r p => reduceFlagResumeCapsule s c r (flp_SessionID p) (flp_Flagged p)))].

Definition handler_of (name : string) : option (State -> EvEvent -> State * list Effect) :=
  snd <$> head (filter (fun h => h.1 = name) eventHandlers).

Definition IsRegisteredEvent (name : string) : bool := bool_decide (is_Some (handler_of name)).

(** Calling the nil handler of an unknown event panics. *)
Definition reduceEvent s (e : EvEvent) : option (State * list Effect) :=
  fn ← handler_of (ee_Event e); Some (fn s e).

Definition shuttingDown (connID : ConnID) (reqID : string) : list Effect :=
  [errResp connID reqID ErrCodeUnavailable "runtime is shutting down"].

Definition requestIdentity (ev : Event) : option (ConnID * string) :=
  match ev with
  | EvCmdSurfaceSubscribe_ e => Some (ess_ConnID e, ess_ReqID e)
  | EvCmdSurfaceSendText_ e => Some (sst_ConnID e, sst_ReqID e)
  | EvCmdSurfaceSendKey_ e => Some (ssk_ConnID e, ssk_ReqID e)
  | EvCmdSurfaceResize_ e => Some (esr_ConnID e, esr_ReqID e)
  | EvCmdSurfaceWriteRaw_ e => Some (esw_ConnID e, esw_ReqID e)
  | EvCmdApprovalRespond_ e => Some (ear_ConnID e, ear_ReqID e)
  | EvCmdApprovalCancel_ e => Some (eac_ConnID e, eac_ReqID e)
  | EvCmdQuestionRespond_ e => Some (eqr_ConnID e, eqr_ReqID e)
  | EvCmdQuestionCancel_ e => Some (eqc_ConnID e, eqc_ReqID e)
  | _ => None
  end.

Definition reduceQuiescing s (ev : Event) : option (State * list Effect) :=
  match ev with
  | EvShutdownSaveBarrierSucceeded id => Some (reduceShutdownSaveSucceeded s id)
  | EvShutdownSaveBarrierFailed id err => Some (reduceShutdownSaveFailed s id err)
  | EvShutdownCleanupFinished_ e => Some (reduceShutdownCleanupFinished s e)
  | EvConnOpened c => Some (reduceConnOpened s c)
  | EvConnClosed c => Some (reduceConnClosed s c)
  | EvCmdDriverList c r => Some (reduceDriverList s c r)
  | EvCmdSurfaceReadText_ e => Some (reduceSurfaceReadText s e)
  | EvCmdSubscribe_ e => Some (reduceSubscribe s e)
  | EvCmdUnsubscribe c r => Some (reduceUnsubscribe s c r)
  | EvCmdSurfaceUnsubscribe_ e => Some (reduceSurfaceUnsubscribe s e)
  | EvEvent_ e =>
    if bool_decide (ee_Event e = EventShutdown) || bool_decide (ee_Event e = EventListSessions)
       || bool_decide (ee_Event e = EventListSessionMessages)
    then reduceEvent s e
    else Some (s, shuttingDown (ee_ConnID e) (ee_ReqID e))
  | EvCmdSurfaceSubscribe_ _ | EvCmdSurfaceSendText_ _ | EvCmdSurfaceSendKey_ _
  | EvCmdSurfaceResize_ _ | EvCmdSurfaceWriteRaw_ _ | EvCmdApprovalRespond_ _
  | EvCmdApprovalCancel_ _ | EvCmdQuestionRespond_ _ | EvCmdQuestionCancel_ _ =>
    '(connID, reqID) ← requestIdentity ev; Some (s, shuttingDown connID reqID)
  | EvDriverEvent_ e =>
    Some (s, if ede_ConnID e =? 0 then [] else shuttingDown (ede_ConnID e) (ede_ReqID e))
  | EvSubsystem_ e =>
    Some (s, if es_ConnID e =? 0 then [] else shuttingDown (es_ConnID e) (es_ReqID e))
  | EvFrameSpawned_ _ | EvSpawnFailed_ _ | EvFrameVanished _ | EvFrameCommandExited_ _
  | EvTick_ _ | EvJobResult _ _ _ | EvFileChanged _ _ | EvFrameOsc_ _ | EvFramePrompt_ _ =>
    Some (s, [])
  | EvRepository_ _ => None
  end.

Definition reduceRunning s (ev : Event) : option (State * list Effect) :=
  match ev with
  | EvEvent_ e => reduceEvent s e
  | EvDriverEvent_ e => Some (reduceDriverHook rnd s e)
  | EvSubsystem_ e => Some (reduceSubsystem rnd s e)
  | EvFrameSpawned_ e => Some (reduceFrameSpawned s e)
  | EvSpawnFailed_ e => Some (reduceSpawnFailed s e)
  | EvFrameVanished f => Some (reduceFrameVanished s f)
  | EvFrameCommandExited_ e => Some (reduceFrameCommandExited s e)
  | EvTick_ e => Some (reduceTick s e)
  | EvJobResult j r err => Some (reduceJobResult s j r err)
  | EvFileChanged f p => Some (reduceFileChanged s f p)
  | EvFrameOsc_ e => Some (reduceFrameOsc s e)
  | EvFramePrompt_ e => Some (reduceFramePrompt s e)
  | EvShutdownSaveBarrierSucceeded id => Some (reduceShutdownSaveSucceeded s id)
  | EvShutdownSaveBarrierFailed id err => Some (reduceShutdownSaveFailed s id err)
  | EvShutdownCleanupFinished_ e => Some (reduceShutdownCleanupFinished s e)
  | EvConnOpened c => Some (reduceConnOpened s c)
  | EvConnClosed c => Some (reduceConnClosed s c)
  | EvCmdSubscribe_ e => Some (reduceSubscribe s e)
  | EvCmdUnsubscribe c r => Some (reduceUnsubscribe s c r)
  | EvCmdSurfaceReadText_ e => Some (reduceSurfaceReadText s e)
  | EvCmdSurfaceSendText_ e => Some (reduceSurfaceSendText s e)
  | EvCmdSurfaceSendKey_ e => Some (reduceSurfaceSendKey s e)
  | EvCmdDriverList c r => Some (reduceDriverList s c r)
  | EvCmdSurfaceSubscribe_ e => Some (reduceSurfaceSubscribe s e)
  | EvCmdSurfaceUnsubscribe_ e => Some (reduceSurfaceUnsubscribe s e)
  | EvCmdSurfaceResize_ e => Some (reduceSurfaceResize s e)
  | EvCmdSurfaceWriteRaw_ e => Some (reduceSurfaceWriteRaw s e)
  | EvCmdApprovalRespond_ e => Some (reduceApprovalRespond s e)
  | EvCmdApprovalCancel_ e => Some (reduceApprovalCancel s e)
  | EvCmdQuestionRespond_ e => Some (reduceQuestionRespond s e)
  | EvCmdQuestionCancel_ e => Some (reduceQuestionCancel s e)
  | EvRepository_ e => Some (reduceRepository s e)
  end.

Definition Reduce s (ev : Event) : option (State * list Effect) :=
  match st_Lifecycle s with
  | LifecycleQuiescing => reduceQuiescing s ev
  | LifecycleRunning => reduceRunning s ev
  end.

End Reduce.
