(* ===== verification/HostDriverFacts.v ===== *)
(** * host/state: what a driver can and cannot change

    The drivers are arbitrary here, except for the kinds of effect they emit
    ([PoliteDrivers]; DriverFacts.v shows that the built-in ones comply).  Whatever they do,
    the steps that run them change driver states and the job table only: the shape
    of the session graph, the human-input ledgers, subscriptions, preparations and
    the lifecycle are untouched ([inert]). *)

From S2P Require Import Prelude HostState HostFrames HostInput HostSession HostCapsule HostHandlers.
From S2P Require Import HostInputFacts.

(** The effects the drivers under src/services/host/driver emit. *)
Definition driver_effect {HT : HostTypes} (e : Effect) : bool :=
  match e with
  | EffStartJob _ _ | EffEventLogAppend _ _ | EffToolLogAppend _ _ _ | EffWatchFile _ _ _
  | EffUnwatchFile _ | EffPushDriver _ _ | EffRecordNotification _ _ _ _ _
  | EffPersistSnapshot | EffBroadcastSessionsChanged => true
  | _ => false
  end.

Class PoliteDrivers `{DriverSys} := {
  polite_step : forall command drv ds ctx ev, GetDriver command = Some drv ->
    Forall (fun e => driver_effect e = true) (drv_Step drv ds ctx ev).2;
  polite_bootstrap : forall command drv bootstrap ds ctx now, GetDriver command = Some drv ->
    drv_BootstrapSessionStart drv = Some bootstrap ->
    Forall (fun e => driver_effect e = true) (bootstrap ds ctx now).2 }.

Section Inert.
Context `{GoMapRange} `{DriverSys}.
Implicit Types (s : State) (sess : Session).

(** What the theorems about the session graph look at. *)
Record Shape := mkShape {
  sh_ID : SessionID; sh_Frames : list FrameID; sh_Head : FrameID; sh_MRU : list FrameID;
  sh_Ended : option Time }.

Definition shape sess : Shape :=
  mkShape (ss_ID sess) (f_ID <$> ss_Frames sess) (ss_HeadFrameID sess) (ss_MRUFrameIDs sess)
    (ss_EndedAt sess).

Definition graph s : gmap SessionID Shape := shape <$> st_Sessions s.

(** The state without the sessions and the bookkeeping of jobs, capsules,
    attention signals and time. *)
Definition core s : State :=
  s <| st_Sessions := ∅ |> <| st_Jobs := ∅ |> <| st_NextJobID := 0 |>
    <| st_CapsuleGenerating := ∅ |> <| st_StatusSignals := ∅ |> <| st_Now := 0 |>.

(** [own command ds]: [ds] is a state of the driver of [command].  A driver makes and
    returns states of its own. *)
Record stable (own : string -> DriverState -> Prop) : Prop := {
  own_new : forall command drv now, GetDriver command = Some drv -> own command (drv_NewState drv now);
  own_step : forall command drv ds ctx ev, GetDriver command = Some drv -> own command ds ->
    own command (drv_Step drv ds ctx ev).1;
  own_bootstrap : forall command drv boot ds ctx now, GetDriver command = Some drv ->
    drv_BootstrapSessionStart drv = Some boot -> own command ds -> own command (boot ds ctx now).1 }.

(** The rest of what makes driver states well typed: preparing a session, inheriting a
    start directory and forking stay within the driver's states, and a fork command
    names the driver it comes from and has more than one word. *)
Record typed (own : string -> DriverState -> Prop) : Prop := {
  typed_stable : stable own;
  own_create : forall command drv prepare ds sid project o ds' cl, GetDriver command = Some drv ->
    drv_PrepareCreate drv = Some prepare -> own command ds ->
    prepare ds sid project command o = inr (ds', cl) -> own command ds';
  own_start_dir : forall command drv aware ds dir, GetDriver command = Some drv ->
    drv_StartDirAware drv = Some aware -> own command ds -> own command (aware.2 ds dir);
  own_fork_id : forall command drv setter ds id, GetDriver command = Some drv ->
    drv_WithForkSessionID drv = Some setter -> own command ds -> own command (setter ds id);
  own_fork : forall command drv ForkCommand ForkChildState ds fork now, GetDriver command = Some drv ->
    drv_Forkable drv = Some (ForkCommand, ForkChildState) -> ForkCommand ds command = Some fork ->
    own command (ForkChildState ds now) /\ GetDriver fork = Some drv /\ FirstToken fork <> fork }.

(** Aliases are single words. *)
Definition word_aliases (aliases : gmap string string) : Prop :=
  forall name, is_Some (aliases !! name) -> FirstToken name = name.

Definition frames_own (own : string -> DriverState -> Prop) (frames : list SessionFrame) : Prop :=
  Forall (fun f => own (f_Command f) (f_Driver f)) frames.

Definition sessions_own own (sessions : gmap SessionID Session) : Prop :=
  map_Forall (fun _ sess => frames_own own (ss_Frames sess)) sessions.

Record inert s s' : Prop := {
  inert_core : core s' = core s;
  inert_graph : graph s' = graph s;
  inert_own : forall own, stable own ->
    sessions_own own (st_Sessions s) -> sessions_own own (st_Sessions s') }.

#[export] Instance inert_preorder : PreOrder inert.
Proof.
  split; [by intros s|]. intros s1 s2 s3 [C1 G1 O1] [C2 G2 O2].
  split; [by rewrite C2 | by rewrite G2 | auto].
Qed.

Lemma graph_insert s sid sess sess' :
  st_Sessions s !! sid = Some sess -> shape sess' = shape sess ->
  shape <$> <[sid := sess']> (st_Sessions s) = graph s.
Proof.
  intros Hs Hsh. unfold graph. rewrite fmap_insert, Hsh. apply insert_id.
  by rewrite lookup_fmap, Hs.
Qed.

Lemma sessions_own_insert own sessions sid sess :
  sessions_own own sessions -> frames_own own (ss_Frames sess) ->
  sessions_own own (<[sid := sess]> sessions).
Proof. intros Hs Hf. by apply map_Forall_insert_2. Qed.

Lemma prepareSessionDriver_own own s command drv sid project options ds cl :
  typed own -> GetDriver command = Some drv ->
  prepareSessionDriver s drv sid project command options = inr (ds, cl) -> own command ds.
Proof.
  intros Ht Hd. unfold prepareSessionDriver.
  pose proof (own_new _ (typed_stable _ Ht) _ _ (st_Now s) Hd) as Hn.
  destruct (drv_PrepareCreate drv) as [prepare|] eqn:Hp; [|by intros [= <- <-]].
  by eapply (own_create _ Ht).
Qed.

Lemma inheritStartDir_own own command drv rootF ds :
  typed own -> GetDriver command = Some drv -> own command ds ->
  own command (inheritStartDir rootF drv ds).
Proof.
  intros Ht Hd Ho. unfold inheritStartDir. destruct (_ ≫= _) as [[StartDir ?]|]; [|done]. cbv zeta.
  case_bool_decide; [done|]. destruct (drv_StartDirAware drv) as [[get WithStartDir]|] eqn:Ha; [|done].
  by apply (own_start_dir _ Ht _ drv (get, WithStartDir)).
Qed.

(** A forked session starts with a state of its parent's driver. *)
Lemma fork_own (rnd : nat -> string) own s c r rootF ForkChildState drv fork :
  typed own -> word_aliases (st_Aliases s) ->
  resolveForkDrv s c r rootF = inr (ForkChildState, drv, fork) ->
  let ds := inheritStartDir rootF drv (ForkChildState (f_Driver rootF) (st_Now s)) in
  own (f_Command rootF)
    (match drv_WithForkSessionID drv with Some setter => setter ds (rnd 0%nat) | None => ds end).
Proof.
  intros Ht Hal. unfold resolveForkDrv.
  destruct (GetDriver (f_Command rootF)) as [rootDrv|] eqn:Hroot; [|done].
  destruct (drv_Forkable rootDrv) as [[ForkCommand child]|] eqn:Hfk; [|done].
  destruct (ForkCommand _ _) as [cmd|] eqn:Hc; [|done].
  destruct (own_fork _ Ht _ _ _ _ _ _ (st_Now s) Hroot Hfk Hc) as (Hchild & Hd & Hw).
  assert (resolveCreateCommand s cmd = cmd) as ->.
  { unfold resolveCreateCommand. destruct cmd as [|a cmd]; [done|]. rewrite !bool_decide_false by done.
    destruct (st_Aliases s !! _) as [v|] eqn:Hv; [|done]. by destruct Hw; apply Hal. }
  cbv zeta. rewrite Hd. intros [= <- <- <-].
  assert (own (f_Command rootF) (inheritStartDir rootF rootDrv (child (f_Driver rootF) (st_Now s))))
    by (by apply inheritStartDir_own).
  destruct (drv_WithForkSessionID rootDrv) as [setter|] eqn:Hw'; [|done]. by apply (own_fork_id _ Ht _ rootDrv setter).
Qed.

(** Replacing a session by one of the same shape. *)
Lemma inert_session s s' sid sess sess' :
  st_Sessions s !! sid = Some sess -> shape sess' = shape sess ->
  (forall own, stable own -> frames_own own (ss_Frames sess) -> frames_own own (ss_Frames sess')) ->
  s' = s <| st_Sessions := <[sid := sess']> (st_Sessions s) |> -> inert s s'.
Proof.
  intros Hs Hsh Ho ->. split; [done|by eapply graph_insert|].
  intros own Hst Hown. apply sessions_own_insert; [done|]. apply Ho; [done|]. by apply (Hown sid).
Qed.

Lemma inert_same s s' : core s' = core s -> st_Sessions s' = st_Sessions s -> inert s s'.
Proof. intros Hc Hs. split; [done| |]; unfold graph; rewrite Hs; auto. Qed.

(** A change of a frame that keeps its command and its driver state. *)
Lemma frames_own_rewrite own frames i f f' :
  frames !! i = Some f -> f_Command f' = f_Command f -> f_Driver f' = f_Driver f ->
  frames_own own frames -> frames_own own (<[i := f']> frames).
Proof.
  intros Hf Hc Hd Ho. apply Forall_insert; [done|]. rewrite Hc, Hd. by apply (Forall_lookup_1 _ _ i f) in Ho.
Qed.

Lemma findFrame_lookup s frameID sessID sess idx :
  findFrame s frameID = Some (sessID, sess, idx) ->
  st_Sessions s !! sessID = Some sess /\ findFrameIndex sess frameID = Some idx.
Proof.
  intros (k & v & Hk & Hf)%range_find_Some.
  destruct (findFrameIndex v frameID) eqn:?; simplify_eq/=. auto.
Qed.

Lemma find_index_lookup frames frameID idx :
  find_index frames frameID = Some idx -> exists f, frames !! idx = Some f /\ f_ID f = frameID.
Proof.
  revert idx. induction frames as [|f frames IH]; intros idx; simpl; [done|].
  case_decide; [naive_solver|].
  destruct (find_index frames frameID) as [j|] eqn:Hj; [|done].
  intros [= <-]. destruct (IH j) as (g & Hg & ?); [done|]. eauto.
Qed.

Lemma fmap_alter_same {A B} (g : A -> B) (h : A -> A) i (l : list A) :
  (forall x, g (h x) = g x) -> g <$> alter h i l = g <$> l.
Proof.
  intros Hg. revert i. induction l as [|x l IH]; intros [|i]; csimpl; f_equal; auto.
Qed.

Lemma setFrameDriver_own own sess i f ds :
  ss_Frames sess !! i = Some f -> own (f_Command f) ds ->
  frames_own own (ss_Frames sess) -> frames_own own (ss_Frames (setFrameDriver sess i ds)).
Proof.
  intros Hf Hds Ho. unfold frames_own, setFrameDriver. simpl. apply Forall_alter; [done|].
  intros x Hx. by simplify_eq.
Qed.

Lemma shape_setFrameDriver sess i ds : shape (setFrameDriver sess i ds) = shape sess.
Proof. unfold shape, setFrameDriver. simpl. by rewrite fmap_alter_same. Qed.

Lemma postProcessEffect_spec s sessID frameID eff :
  driver_effect eff = true ->
  driver_effect (postProcessEffect s sessID frameID eff).1 = true /\
  inert s (postProcessEffect s sessID frameID eff).2.
Proof. by destruct eff. Qed.

Lemma postProcessEffects_spec s sessID frameID raw :
  Forall (fun e => driver_effect e = true) raw ->
  Forall (fun e => driver_effect e = true) (postProcessEffects s sessID frameID raw).2 /\
  inert s (postProcessEffects s sessID frameID raw).1.
Proof.
  intros Hraw. revert s. induction Hraw as [|e raw He Hraw IH]; intros s; simpl.
  - by split; [constructor|].
  - destruct (postProcessEffect_spec s sessID frameID e He) as [He' Hs].
    destruct (postProcessEffect s sessID frameID e) as [e' s1].
    destruct (IH s1) as [Hout Hs1]. destruct (postProcessEffects s1 sessID frameID raw) as [s2 out].
    simpl in *. split; [by constructor|]. by trans s1.
Qed.

Context `{!PoliteDrivers}.

Lemma stepDriver_spec s frameID ev s' effs :
  stepDriver s frameID ev = Some (s', effs) ->
  inert s s' /\ Forall (fun e => driver_effect e = true) effs.
Proof.
  unfold stepDriver. destruct (findFrame s frameID) as [[[sessID sess] idx]|] eqn:Hf; [|done].
  apply findFrame_lookup in Hf as [Hs _]. simpl.
  destruct (ss_Frames sess !! idx) as [frame|] eqn:Hfr; [|done]. simpl.
  destruct (GetDriver (f_Command frame)) as [drv|] eqn:Hd; [|done]. simpl.
  set (ds := match f_Driver frame with None => _ | _ => _ end).
  pose proof (polite_step _ _ ds (frameContext frame (bool_decide (idx = O))) ev Hd) as Hp.
  assert (forall own, stable own -> frames_own own (ss_Frames sess) ->
    own (f_Command frame) (drv_Step drv ds (frameContext frame (bool_decide (idx = O))) ev).1) as Ho.
  { intros own Hst Hown. apply (own_step _ Hst); [done|]. subst ds.
    pose proof (Forall_lookup_1 _ _ _ _ Hown Hfr) as Hown1. simpl in Hown1.
    destruct (f_Driver frame); [done|]. by apply (own_new _ Hst). }
  destruct (drv_Step _ _ _ _) as [nextDS raw]. simpl in Hp, Ho.
  set (s1 := s <| st_Sessions := <[sessID := setFrameDriver sess idx nextDS]> (st_Sessions s) |>).
  assert (inert s s1) as Hs1 by (eapply inert_session;
    [done|apply shape_setFrameDriver|intros own Hst Hown; eapply (setFrameDriver_own own); [exact Hfr|by apply Ho|done]|done]).
  pose proof (postProcessEffects_spec s1 sessID frameID raw Hp) as [He Hi].
  intros [= Hout]. change (postProcessEffects s1 sessID frameID raw = (s', effs)) in Hout.
  rewrite Hout in He, Hi. simpl in *.
  split; [by trans s1|done].
Qed.

Lemma bootstrap_spec s frameID s' effs :
  bootstrapDriverSessionStart s frameID = Some (s', effs) ->
  inert s s' /\ Forall (fun e => driver_effect e = true) effs.
Proof.
  unfold bootstrapDriverSessionStart.
  destruct (findFrame s frameID) as [[[sessID sess] idx]|] eqn:Hf; [|done].
  apply findFrame_lookup in Hf as [Hs _]. simpl. case_bool_decide; [|done].
  destruct (ss_Frames sess !! idx) as [frame|] eqn:Hfr; [|done]. simpl.
  destruct (GetDriver (f_Command frame)) as [drv|] eqn:Hd; [|done]. simpl.
  destruct (drv_BootstrapSessionStart drv) as [boot|] eqn:Hb; [|done]. simpl.
  pose proof (polite_bootstrap _ _ _ (f_Driver frame) (frameContext frame true) (st_Now s) Hd Hb)
    as Hp.
  assert (forall own, stable own -> frames_own own (ss_Frames sess) ->
    own (f_Command frame) (boot (f_Driver frame) (frameContext frame true) (st_Now s)).1) as Ho.
  { intros own Hst Hown. eapply (own_bootstrap _ Hst); [done..|]. exact (Forall_lookup_1 _ _ _ _ Hown Hfr). }
  destruct (boot _ _ _) as [nextDS raw]. simpl in Hp, Ho.
  set (s1 := s <| st_Sessions := <[sessID := setFrameDriver sess idx nextDS]> (st_Sessions s) |>).
  assert (inert s s1) as Hs1 by (eapply inert_session;
    [done|apply shape_setFrameDriver|intros own Hst Hown; eapply (setFrameDriver_own own); [exact Hfr|by apply Ho|done]|done]).
  pose proof (postProcessEffects_spec s1 sessID frameID raw Hp) as [He Hi].
  intros [= Hout]. change (postProcessEffects s1 sessID frameID raw = (s', effs)) in Hout.
  rewrite Hout in He, Hi. simpl in *.
  split; [by trans s1|done].
Qed.

(** The same for a step whose absence leaves everything as it is. *)
Lemma stepDriver_default s frameID ev :
  let out := default (s, []) (stepDriver s frameID ev) in
  inert s out.1 /\ Forall (fun e => driver_effect e = true) out.2.
Proof.
  destruct (stepDriver s frameID ev) as [[s' effs]|] eqn:Hs; simpl.
  - by eapply stepDriver_spec.
  - by split; [|constructor].
Qed.

Lemma stepActiveSessions_spec s makeEv :
  inert s (stepActiveSessions s makeEv).1.1 /\
  Forall (fun e => driver_effect e = true) (stepActiveSessions s makeEv).1.2.
Proof.
  unfold stepActiveSessions. generalize (sort_Strings (elements (dom (st_Sessions s)))) as ids.
  assert (forall ids acc, inert s acc.1.1 -> Forall (fun e => driver_effect e = true) acc.1.2 ->
    inert s (foldl (step_session makeEv) acc ids).1.1 /\
    Forall (fun e => driver_effect e = true) (foldl (step_session makeEv) acc ids).1.2) as Hloop.
  { induction ids as [|sid ids IH]; intros acc Hi He; simpl; [done|].
    apply IH; destruct acc as [[s1 effs1] seq]; simpl in *; unfold step_session;
      (destruct (sess ← st_Sessions s1 !! sid; _) as [[sess frame]|]; [|done]);
      pose proof (stepDriver_spec s1 (f_ID frame) (makeEv sess (sessionWatched s1 sid) seq)) as Hstep;
      (destruct (stepDriver _ _ _) as [[s2 effs2]|]; [|done]);
      destruct (Hstep _ _ eq_refl); simpl.
    - by trans s1.
    - by apply Forall_app. }
  intros ids. destruct (Hloop ids (s, [], 0)) as [Hi He]; [done|constructor|].
  by destruct (foldl _ _ _) as [[s' effs] seq].
Qed.

(** ** Capsules *)

Lemma enqueueCapsules_spec s tickN :
  inert s (maybeEnqueueResumeCapsules s tickN).1 /\
  Forall (fun e => driver_effect e = true) (maybeEnqueueResumeCapsules s tickN).2.
Proof.
  unfold maybeEnqueueResumeCapsules. destruct (negb _); [by split; [|constructor]|].
  generalize (range (st_Sessions s)) as l.
  assert (forall l acc, inert s acc.1 -> Forall (fun e => driver_effect e = true) acc.2 ->
    inert s (foldl (enqueue_capsule tickN) acc l).1 /\
    Forall (fun e => driver_effect e = true) (foldl (enqueue_capsule tickN) acc l).2) as Hloop.
  { induction l as [|[sid sess] l IH]; intros [s1 effs1] Hi He; simpl in *; [done|].
    destruct (negb _); [by apply IH|].
    destruct (maybeEnqueueOneCapsule s1 sid sess) as [[s2 eff]|] eqn:Hone; [|by apply IH].
    assert (inert s1 s2 /\ driver_effect eff = true) as [Hi2 He2].
    { revert Hone. unfold maybeEnqueueOneCapsule. case_bool_decide; [done|].
      destruct (rootFrame sess); [|done]. simpl. destruct (GetDriver _); [|done]. simpl.
      destruct (drv_CapsuleTurns _); [|done]. simpl. do 2 (case_bool_decide; [done|]).
      match goal with |- context [if ?b then None else _] => destruct b end; [done|].
      intros [= <- <-]. by split. }
    apply IH; [by trans s1|]. apply Forall_app. auto using Forall_singleton. }
  intros l. by destruct (Hloop l (s, [])); [|constructor|].
Qed.

End Inert.
