(* ===== verification/HostSteps.v ===== *)
(** * host/state: the reducer as a sequence of primitive operations

    [Reduce] is a composition of about twenty operations that matter to the
    invariants, each of them written once in the source, and of bookkeeping that
    touches none of the state the invariants look at ([prim_inert]).
    [Reduce_decomposes] is that decomposition; a property of whole runs is then
    proved by looking at each operation once. *)

From S2P Require Import Prelude HostState HostFrames HostInput HostSession HostCapsule HostHandlers.
From S2P Require Import HostRepo HostReduce HostDriverFacts.

(** ** Lists of effects of one kind *)

Section Effects.
Context {HT : HostTypes}.

Definition all_effects (p : Effect -> bool) (effs : list Effect) : Prop :=
  Forall (fun e => p e = true) effs.

Lemma all_nil p : all_effects p [].
Proof. constructor. Qed.
Lemma all_cons p e effs : p e = true -> all_effects p effs -> all_effects p (e :: effs).
Proof. by constructor. Qed.
Lemma all_app p effs effs' : all_effects p effs -> all_effects p effs' -> all_effects p (effs ++ effs').
Proof. intros. by apply Forall_app. Qed.
Lemma all_fmap {A} p (f : A -> Effect) l : (forall x, p (f x) = true) -> all_effects p (f <$> l).
Proof. intros Hf. apply Forall_fmap, Forall_true. auto. Qed.
Lemma all_bind {A} p (f : A -> list Effect) l : (forall x, all_effects p (f x)) -> all_effects p (l ≫= f).
Proof. intros Hf. apply Forall_bind, Forall_true. auto. Qed.
Lemma all_if p (b : bool) effs effs' :
  all_effects p effs -> all_effects p effs' -> all_effects p (if b then effs else effs').
Proof. by destruct b. Qed.
Lemma all_impl (p q : Effect -> bool) effs :
  (forall e, p e = true -> q e = true) -> all_effects p effs -> all_effects q effs.
Proof. intros Hpq Hp. eapply Forall_impl; [exact Hp|]. apply Hpq. Qed.

(** Effects no invariant speaks about: replies, persistence, logs, driver work and
    terminal traffic, but not spawns, teardown, human input, surface subscriptions,
    repository work or the shutdown protocol. *)
Definition plain (e : Effect) : bool :=
  match e with
  | EffSendResponse _ _ _ | EffSendResponseSync _ _ _ | EffSendError _ _ _ _ _
  | EffBroadcastSessionsChanged | EffSendFrameKeys _ _ _ _ _ _ | EffPersistSnapshot
  | EffWatchFile _ _ _ | EffUnwatchFile _ | EffEventLogAppend _ _ | EffToolLogAppend _ _ _
  | EffFrameMessagingPersistRead _ _ | EffReconcileWindows | EffRecordNotification _ _ _ _ _
  | EffPushDriver _ _ | EffStartJob _ _ | EffSurfaceResize _ _ _ | EffSurfaceWriteRaw _ _
  | EffReleaseFrame _ | EffRegisterFrame _ _ => true
  | _ => false
  end.

Lemma driver_plain effs : all_effects driver_effect effs -> all_effects plain effs.
Proof. apply all_impl. by intros []. Qed.

End Effects.

(** ** Operations on the human-input ledgers *)

Section Ledgers.
Context `{GoMapRange} `{DriverSys}.
Implicit Types (s : State) (effs : list Effect).

Definition ledger_effect (e : Effect) : bool :=
  match e with
  | EffBroadcastEvent _ _ _ | EffReplyHeldApproval _ _ _ _ | EffReplyHeldQuestion _ _ _ _ => true
  | _ => plain e
  end.

(** The state without the ledgers. *)
Definition off_ledgers s : State :=
  s <| st_PendingApprovals := ∅ |> <| st_PendingQuestions := ∅ |>.

Definition ledger_only s (out : State * list Effect) : Prop :=
  off_ledgers out.1 = off_ledgers s /\ all_effects ledger_effect out.2.

Lemma sweep_only {A} (f : State * list Effect -> A -> State * list Effect) :
  (forall s effs x, off_ledgers (f (s, effs) x).1 = off_ledgers s) ->
  (forall s effs x, all_effects ledger_effect effs -> all_effects ledger_effect (f (s, effs) x).2) ->
  forall l s, ledger_only s (foldl f (s, []) l).
Proof.
  intros Hs He l s. assert (forall acc, off_ledgers acc.1 = off_ledgers s ->
    all_effects ledger_effect acc.2 -> ledger_only s (foldl f acc l)) as Hloop;
    [|by apply Hloop; [|constructor]].
  induction l as [|x l IH]; intros [s' effs] Hs' He'; simpl in *; [done|].
  apply IH; [rewrite Hs; done|by apply He].
Qed.
End Ledgers.

Create HintDb plain.
#[export] Hint Resolve driver_plain : plain.

(** Shows that a list built from constructors and known lists is of one kind. *)
Ltac effectly :=
  repeat first [ apply all_nil | apply all_cons; [reflexivity|] | apply all_app
               | apply all_fmap; intros; reflexivity | apply all_bind; intros ?
               | apply all_if | assumption | solve [eauto with plain] ].

Section LedgerOps.
Context `{GoMapRange} `{DriverSys}.
Implicit Types (s : State) (effs : list Effect).

Lemma ledger_ops_only :
  (forall s e, ledger_only s (reduceApprovalRespond s e)) /\
  (forall s e, ledger_only s (reduceApprovalCancel s e)) /\
  (forall s e, ledger_only s (reduceQuestionRespond s e)) /\
  (forall s e, ledger_only s (reduceQuestionCancel s e)).
Proof.
  split_and!; intros s e;
    unfold reduceApprovalRespond, reduceApprovalCancel, reduceQuestionRespond, reduceQuestionCancel;
    repeat case_match; simplify_eq/=; (split; [done|effectly]).
Qed.

Lemma subsystem_ops_only s e out :
  maybeCreateApprovalFromSubsystem s e = Some out \/
  maybeCreateQuestionFromSubsystem s e = Some out \/
  maybeResolveHumanInputFromSubsystem s e = Some out -> ledger_only s out.
Proof.
  unfold maybeCreateApprovalFromSubsystem, maybeCreateQuestionFromSubsystem,
    maybeResolveHumanInputFromSubsystem.
  intros [Hout|[Hout|Hout]]; repeat case_match; simplify_eq/=;
    repeat (apply bind_Some in Hout as (? & ? & Hout); repeat case_match; simplify_eq/=);
    (split; [done|effectly]).
Qed.

(** A sweep whose step writes one ledger and appends effects. *)
Ltac sweeping :=
  apply sweep_only; intros s' effs h; [done|intros He; cbn; effectly].

Lemma expiry_only s now :
  ledger_only s (expirePendingApprovals s now) /\ ledger_only s (expirePendingQuestions s now).
Proof.
  unfold expirePendingApprovals, expirePendingQuestions.
  split; (destruct (IsZero now); [by split; [|effectly]|]); sweeping.
Qed.

Lemma cancel_frame_only s f :
  ledger_only s (cancelApprovalsForFrame s f) /\ ledger_only s (cancelQuestionsForFrame s f).
Proof.
  unfold cancelApprovalsForFrame, cancelQuestionsForFrame.
  split; (case_bool_decide; [by split; [|effectly]|]); sweeping.
Qed.

Lemma cancel_session_only s sid :
  ledger_only s (cancelApprovalsForSession s sid) /\ ledger_only s (cancelQuestionsForSession s sid).
Proof.
  unfold cancelApprovalsForSession, cancelQuestionsForSession.
  split; (case_bool_decide; [by split; [|effectly]|]); sweeping.
Qed.

End LedgerOps.

(** ** Repository events *)

Section RepositoryOps.
Context `{GoMapRange} `{DriverSys}.
Implicit Types (s : State) (e : EvRepository).

Definition repository_effect (eff : Effect) : bool :=
  match eff with
  | EffRepositoryPersist _ _ | EffRepositoryStartClone _ _ _ _ | EffRepositoryLaunchSession _ _ _ _
  | EffRepositoryStopOwnedWork _ _ => true
  | _ => plain eff
  end.

(** The state without preparations, intents and sessions. *)
Definition off_repository s : State :=
  s <| st_RepositoryPreparations := ∅ |> <| st_CreationIntents := ∅ |> <| st_Sessions := ∅ |>.

(** A repository event writes preparations and intents, and commits at most one
    new session. *)
Record repository_only s e (out : State * list Effect) : Prop := {
  ro_rest : off_repository out.1 = off_repository s;
  ro_effects : all_effects repository_effect out.2;
  ro_sessions : st_Sessions out.1 = st_Sessions s \/
    (st_Sessions s !! er_SessionID e = None /\ exists p,
     st_Sessions out.1 = <[er_SessionID e := availableSession p e]> (st_Sessions s)) }.

Ltac repo_same := split; [done|cbn; effectly|by left].

Lemma fenced_only s e k :
  (forall prep, repository_only s e (k prep)) -> repository_only s e (fenced s e k).
Proof.
  intros Hk. unfold fenced, loadPrepFenced. destruct (FindPreparation _ _); [|repo_same].
  destruct (negb _); [repo_same|]. apply Hk.
Qed.

Lemma create_only s e : repository_only s e (reduceRepositoryCreate s e).
Proof.
  unfold reduceRepositoryCreate. cbv zeta. destruct (_ || _); [repo_same|].
  destruct (match _ with Some _ => _ | None => _ end); [repo_same|].
  destruct (_ ≫= _); [repo_same|]. case_bool_decide; repo_same.
Qed.

Lemma interrupted_only s e : repository_only s e (reduceRepositoryInterrupted s e).
Proof.
  unfold reduceRepositoryInterrupted. destruct (FindPreparation _ _) as [p|]; [|repo_same].
  destruct (pr_Stage p); repo_same.
Qed.

Lemma commit_only s e : repository_only s e (reduceRepositoryCommitAvailable s e).
Proof.
  apply fenced_only. intros prep. cbv zeta.
  repeat (match goal with |- repository_only _ _ (if ?b then _ else _) =>
    destruct b eqn:?; [repo_same|] end).
  match goal with |- context [putPreparation s ?p] => generalize p; intros prep' end.
  split; [done|cbn; effectly|right]. split; [|by exists prep'].
  unfold SessionIsAvailableProjection in *.
  destruct (bool_decide (er_SessionID e = "")); [done|]. simpl in *.
  by destruct (st_Sessions s !! er_SessionID e); simplify_option_eq.
Qed.

Lemma reduceRepository_only s e : repository_only s e (reduceRepository s e).
Proof.
  unfold reduceRepository. cbv zeta.
  repeat (match goal with |- repository_only _ _ (if bool_decide ?P then _ else _) =>
    destruct (bool_decide P) end;
    [first [ apply create_only | apply interrupted_only | apply commit_only
           | apply fenced_only; intros prep; cbv zeta;
             repeat (match goal with |- context [if ?b then _ else _] => destruct b end); repo_same
           | apply fenced_only; intros prep; cbv zeta; destruct (pr_Stage prep); repo_same ]|]).
  repo_same.
Qed.

End RepositoryOps.

Section Steps.
Context `{GoMapRange} `{DriverSys} `{PayloadCodec} (rnd : nat -> string).
Implicit Types (s : State) (effs : list Effect).

(** A push that succeeds appends one frame under the drawn id, makes it the head
    and asks for its process. *)
Lemma push_outcome s n sid project command options input c r out :
  pushDriverInternal rnd s n sid project command options input c r = inr out ->
  exists sess frame plan, st_Sessions s !! sid = Some sess /\ f_ID frame = rnd n /\
    let sess1 := pushMRU sess (ss_HeadFrameID sess) in
    out = (s <| st_Sessions := <[sid := bumpFrameGeneration (sess1 <| ss_HeadFrameID := rnd n |>
                 <| ss_Frames := ss_Frames sess1 ++ [frame] |>)]> (st_Sessions s) |>,
           [spawnEffect sid (rnd n) plan c r]).
Proof.
  unfold pushDriverInternal. destruct (st_Sessions s !! sid) as [sess|]; [|done]. cbv zeta.
  destruct (GetDriver _) as [drv|]; [|done].
  destruct (prepareSessionDriver _ _ _ _ _ _) as [|[ds cl]]; [done|].
  destruct (drv_PrepareLaunch _ _ _ _ _ _) as [|launch]; [done|]. intros Hout.
  exists sess. injection Hout as <-. eexists _, _. split; [done|]. split; [|reflexivity]. done.
Qed.

(** ** The operations

    [primitive n k s out]: the operation takes [s] to [out] and draws the ids
    [rnd n .. rnd (k - 1)]. *)

Inductive primitive : nat -> nat -> State -> State * list Effect -> Prop :=
| prim_inert n s s' effs : inert s s' -> all_effects plain effs -> primitive n n s (s', effs)
| prim_push n s sid project command options input c r out :
    pushDriverInternal rnd s n sid project command options input c r = inr out ->
    primitive n (S n) s out
| prim_head n s sid sess frameID c r :
    st_Sessions s !! sid = Some sess -> is_Some (findFrameIndex sess frameID) ->
    primitive n n s
      (s <| st_Sessions := <[sid := pushMRU sess (ss_HeadFrameID sess)
              <| ss_HeadFrameID := frameID |>]> (st_Sessions s) |>,
       [okResp c r BodyNil; EffPersistSnapshot; EffBroadcastSessionsChanged])
| prim_stop n s c r sid : primitive n n s (reduceStopSession s c r sid)
| prim_evict n s frameID kill disposition out :
    evictFrame s frameID kill disposition = Some out -> primitive n n s out
| prim_approval_respond n s e : primitive n n s (reduceApprovalRespond s e)
| prim_approval_cancel n s e : primitive n n s (reduceApprovalCancel s e)
| prim_question_respond n s e : primitive n n s (reduceQuestionRespond s e)
| prim_question_cancel n s e : primitive n n s (reduceQuestionCancel s e)
| prim_approval_create n s e out :
    maybeCreateApprovalFromSubsystem s e = Some out -> primitive n n s out
| prim_question_create n s e out :
    maybeCreateQuestionFromSubsystem s e = Some out -> primitive n n s out
| prim_resolve n s e out :
    maybeResolveHumanInputFromSubsystem s e = Some out -> primitive n n s out
| prim_approval_expire n s now : primitive n n s (expirePendingApprovals s now)
| prim_question_expire n s now : primitive n n s (expirePendingQuestions s now)
| prim_conn_opened n s c : primitive n n s (reduceConnOpened s c)
| prim_conn_closed n s c : primitive n n s (reduceConnClosed s c)
| prim_subscribe n s e : primitive n n s (reduceSubscribe s e)
| prim_unsubscribe n s c r : primitive n n s (reduceUnsubscribe s c r)
| prim_surface_subscribe n s e : primitive n n s (reduceSurfaceSubscribe s e)
| prim_surface_unsubscribe n s e : primitive n n s (reduceSurfaceUnsubscribe s e)
| prim_repository n s e : primitive n n s (reduceRepository s e)
| prim_shutdown n s c r : primitive n n s (reduceShutdown s c r)
| prim_saved n s id : primitive n n s (reduceShutdownSaveSucceeded s id)
| prim_save_failed n s id err : primitive n n s (reduceShutdownSaveFailed s id err)
| prim_cleaned n s e : primitive n n s (reduceShutdownCleanupFinished s e).

(** [prims n s out]: a sequence of operations whose draws are at least [n] and
    increase. *)
Inductive prims : nat -> State -> State * list Effect -> Prop :=
| prims_nil n s : prims n s (s, [])
| prims_cons n m k s s1 effs1 s2 effs2 :
    (n <= m)%nat -> primitive m k s (s1, effs1) -> prims k s1 (s2, effs2) ->
    prims n s (s2, effs1 ++ effs2).

(** One event: a session is created under the first two draws, or the operations
    run in sequence. *)
Inductive event_steps s : State * list Effect -> Prop :=
| ev_create sess plan c r :
    shape sess = mkShape (rnd 0) [rnd 1] (rnd 1) [] None ->
    (forall own, typed own -> word_aliases (st_Aliases s) -> frames_own own (ss_Frames sess)) ->
    event_steps s
      (s <| st_Sessions := <[rnd 0 := sess]> (st_Sessions s) |>,
       [spawnEffect (rnd 0) (rnd 1) plan c r])
| ev_prims out : prims 0 s out -> event_steps s out.

Lemma prims_weaken n m s out : (n <= m)%nat -> prims m s out -> prims n s out.
Proof. intros Hle Hp. destruct Hp; [constructor|]. eapply prims_cons; [|done..]. lia. Qed.

Lemma prims_one n k s out : primitive n k s out -> prims n s out.
Proof.
  destruct out as [s' effs]. intros Hp. rewrite <- (app_nil_r effs).
  eapply prims_cons; [done..|constructor].
Qed.

Lemma prims_then n k s s1 effs1 out :
  primitive n k s (s1, effs1) -> prims k s1 out -> prims n s (out.1, effs1 ++ out.2).
Proof. destruct out. intros. by eapply prims_cons. Qed.

(** Bookkeeping after a sequence. *)
Lemma prims_snoc_inert n s s1 effs1 s2 effs2 :
  prims n s (s1, effs1) -> inert s1 s2 -> all_effects plain effs2 ->
  prims n s (s2, effs1 ++ effs2).
Proof.
  intros Hp Hi He. remember (s1, effs1) as out eqn:Hout. revert s1 effs1 Hout Hi.
  induction Hp as [n s|n m k s s0 effs0 s0' effs0' Hle Hprim Hp IH]; intros s1 effs1 [= <- <-] Hi.
  - apply (prims_one n n). by constructor.
  - rewrite <- app_assoc. eapply prims_cons; [done..|]. by eapply IH.
Qed.

Lemma prims_inert n s s' effs : inert s s' -> all_effects plain effs -> prims n s (s', effs).
Proof. intros. apply (prims_one n n). by constructor. Qed.

(** Bookkeeping before a sequence. *)
Lemma prims_after n s s1 effs1 s2 effs2 :
  inert s s1 -> all_effects plain effs1 -> prims n s1 (s2, effs2) -> prims n s (s2, effs1 ++ effs2).
Proof. intros Hi He Hp. eapply prims_cons; [done|by constructor|done]. Qed.

End Steps.

(** Closes a goal whose outcome is bookkeeping. *)
Ltac inert_out :=
  apply prims_inert; [first [reflexivity | by apply inert_same]|cbn; effectly].

Section Decompose.
Context `{GoMapRange} `{DriverSys} `{PayloadCodec} (rnd : nat -> string) `{!PoliteDrivers}.
Implicit Types (s : State) (effs : list Effect).

(** ** Pushes *)

Lemma resolvePush_prims n s raw :
  all_effects driver_effect raw -> prims rnd n s (resolvePushDriverEffects_from rnd n s raw).
Proof.
  intros Hraw. revert n s. induction Hraw as [|e raw He Hraw IH]; intros n s; simpl.
  { constructor. }
  destruct e; try discriminate; simpl;
    try (specialize (IH n s); destruct (resolvePushDriverEffects_from rnd n s raw) as [s' effs];
         apply (prims_after rnd n s s [_] s' effs); [reflexivity|by effectly|done]).
  destruct (pushDriverInternal _ _ _ _ _ _ _ _ _ _) as [err|[s1 pushEffs]] eqn:Hp.
  - eapply prims_weaken; [|apply IH]. lia.
  - specialize (IH (S n) s1). destruct (resolvePushDriverEffects_from rnd (S n) s1 raw) as [s' effs].
    eapply prims_cons; [done|by eapply prim_push|done].
Qed.

(** ** Handlers *)

(** A handler that is a tree of guards over bookkeeping outcomes. *)
Ltac inert_handler := repeat case_match; simplify_eq/=; inert_out.

Lemma createSession_steps s c r p : event_steps rnd s (reduceCreateSession rnd s c r p).
Proof.
  unfold reduceCreateSession. case_bool_decide; [apply ev_prims; inert_out|]. cbv zeta.
  destruct (GetDriver _) as [drv|] eqn:Hd; [|apply ev_prims; inert_out].
  destruct (prepareSessionDriver _ _ _ _ _ _) as [|[ds launch]] eqn:Hp; [apply ev_prims; inert_out|].
  destruct (drv_PrepareLaunch _ _ _ _ _ _); [apply ev_prims; inert_out|].
  apply ev_create; [done|]. intros own Ht _. constructor; [|constructor].
  by eapply prepareSessionDriver_own.
Qed.

Lemma pushDriver_prims s c r p : prims rnd 0 s (reducePushDriver rnd s c r p).
Proof.
  unfold reducePushDriver. case_bool_decide; [inert_out|]. case_bool_decide; [inert_out|].
  destruct (pushDriverInternal _ _ _ _ _ _ _ _ _ _) as [|out] eqn:Hp; [inert_out|].
  by eapply prims_one, prim_push.
Qed.

Lemma forkSession_steps s c r sid : event_steps rnd s (reduceForkSession rnd s c r sid).
Proof.
  unfold reduceForkSession. case_bool_decide; [apply ev_prims; inert_out|].
  destruct (st_Sessions s !! sid) as [sess|]; [|apply ev_prims; inert_out].
  destruct (rootFrame sess) as [rootF|]; [|apply ev_prims; inert_out].
  destruct (resolveForkDrv _ _ _ _) as [effs|[[child drv] cmd]] eqn:Hr.
  - apply ev_prims. revert Hr. unfold resolveForkDrv. repeat case_match; intros [= <-]; inert_out.
  - unfold buildForkSession, spawnForkSession. cbv zeta.
    destruct (drv_PrepareLaunch _ _ _ _ _ _); [apply ev_prims; inert_out|].
    apply ev_create; [done|]. intros own Ht Hal. constructor; [|constructor]. exact (fork_own rnd own s c r rootF child drv cmd Ht Hal Hr).
Qed.

Lemma setHead_prims s c r p : prims rnd 0 s (reduceSetHeadFrame s c r p).
Proof.
  unfold reduceSetHeadFrame. destruct (st_Sessions s !! _) as [sess|] eqn:Hs; [|inert_out].
  case_bool_decide as Hf; [inert_out|]. case_bool_decide; [inert_out|].
  eapply prims_one, prim_head; [done|]. destruct (findFrameIndex _ _); [by eexists|done].
Qed.

Lemma readMessages_prims s c r sid last :
  prims rnd 0 s (reduceReadSessionMessages s c r sid last).
Proof.
  unfold reduceReadSessionMessages. case_bool_decide; [inert_out|].
  destruct (st_Sessions s !! sid) as [sess|] eqn:Hs; [|inert_out].
  destruct (ss_FrameMessaging sess); [|inert_out].
  destruct (markSessionMessagesReadThroughID _ _); [|inert_out].
  apply prims_inert; [|effectly]. by eapply inert_session; [done|..|reflexivity].
Qed.

Lemma setCapsule_inert s sid sess cap :
  st_Sessions s !! sid = Some sess -> inert s (setCapsule s sid sess cap).
Proof. intros Hs. by eapply inert_session; [done|..|reflexivity]. Qed.

Lemma flagCapsule_prims s c r sid b : prims rnd 0 s (reduceFlagResumeCapsule s c r sid b).
Proof.
  unfold reduceFlagResumeCapsule. case_bool_decide; [inert_out|].
  destruct (st_Sessions s !! sid) as [sess|] eqn:Hs; [|inert_out].
  destruct (ss_ResumeCapsule sess); [|inert_out]. cbv zeta.
  apply prims_inert; [by apply setCapsule_inert|]. destruct (rootFrame sess); effectly.
Qed.

Lemma evictFrame_prims s frameID kill disposition :
  prims rnd 0 s (default (s, []) (evictFrame s frameID kill disposition)).
Proof.
  destruct (evictFrame s frameID kill disposition) as [out|] eqn:He; [|constructor].
  by eapply prims_one, prim_evict.
Qed.

(** A driver step whose absence leaves everything as it is, with the refresh. *)
Lemma stepDriver_inert s frameID ev s' effs :
  default (s, []) (stepDriver s frameID ev) = (s', effs) ->
  inert s s' /\ all_effects plain effs.
Proof.
  intros Hout. destruct (stepDriver_default s frameID ev) as [Hi Hd]. rewrite Hout in Hi, Hd.
  split; [done|by apply driver_plain].
Qed.

Lemma refresh_plain effs :
  all_effects plain effs -> all_effects plain (appendMissingSessionRefreshEffects effs).
Proof. intros. unfold appendMissingSessionRefreshEffects. effectly. Qed.

Lemma frameSpawned_prims s e : prims rnd 0 s (reduceFrameSpawned s e).
Proof.
  unfold reduceFrameSpawned.
  destruct (_ ≫= _) as [[[sess idx] frame]|] eqn:Hloc; [|inert_out].
  apply bind_Some in Hloc as (sess' & Hs & Hloc). apply bind_Some in Hloc as (idx' & _ & Hloc).
  apply bind_Some in Hloc as (frame' & Hf & [= -> -> ->]). cbv zeta.
  set (s1 := if _ && _ then s <| st_Sessions := _ |> else s).
  assert (inert s s1) as I1.
  { subst s1. destruct (_ && _); [|done]. eapply inert_session; [done|..|done]; [|intros own _; by eapply frames_own_rewrite].
    unfold shape. simpl. f_equal. rewrite list_fmap_insert. apply list_insert_id.
    by rewrite list_lookup_fmap, Hf. }
  clearbody s1. set (s2 := if bool_decide (efs_WorktreeStartDir e = "") then s1 else _).
  assert (inert s s2) as I2.
  { trans s1; [done|]. subst s2. case_bool_decide; [done|].
    destruct (stepDriver _ _ _) as [[s3 effs3]|] eqn:Hd; [|done].
    by apply stepDriver_spec in Hd as [Hi _]. }
  clearbody s2. set (out := if bool_decide (idx = O) then _ else _).
  assert (inert s out.1 /\ all_effects plain out.2) as [I3 P3].
  { subst out. case_bool_decide; simpl; [|by split; [|effectly]].
    destruct (bootstrapDriverSessionStart _ _) as [[s3 effs3]|] eqn:Hb; simpl; [|by split; [|effectly]].
    apply bootstrap_spec in Hb as [Hi Hd]. split; [by trans s2|by apply driver_plain]. }
  clearbody out. destruct out as [s3 boot]. simpl in *.
  apply prims_inert; [done|]. effectly.
Qed.

Lemma spawnFailed_prims s e : prims rnd 0 s (reduceSpawnFailed s e).
Proof.
  unfold reduceSpawnFailed.
  pose proof (evictFrame_prims s (esf_FrameID e) false dropUnstartedSession) as Hp.
  destruct (default _ _) as [s' effs]. destruct (_ =? _); [done|].
  eapply prims_snoc_inert; [done|done|effectly].
Qed.

Lemma commandExited_prims s e : prims rnd 0 s (reduceFrameCommandExited s e).
Proof.
  unfold reduceFrameCommandExited. destruct (_ ≫= _) as [frame|]; [|inert_out].
  destruct (isIntentionalExit _); [apply evictFrame_prims|].
  destruct (match _ with Some _ => _ | None => _ end); [inert_out|].
  destruct (default _ _) as [s' effs] eqn:Hd. apply stepDriver_inert in Hd as [Hi He].
  apply prims_inert; [done|]. effectly.
Qed.

Lemma tick_prims s e : prims rnd 0 s (reduceTick s e).
Proof.
  unfold reduceTick. set (s0 := s <| st_Now := et_Now e |>).
  destruct (stepActiveSessions_spec s0 (tickEvent e)) as [I1 D1].
  destruct (stepActiveSessions s0 (tickEvent e)) as [[s1 effs1] changed]. simpl in I1, D1.
  destruct (enqueueCapsules_spec s1 (et_N e)) as [I2 D2].
  destruct (maybeEnqueueResumeCapsules s1 (et_N e)) as [s2 effs2]. simpl in I2, D2.
  assert (inert s s0) as I0 by done.
  pose proof (prim_approval_expire rnd 0 s2 (et_Now e)) as P3.
  destruct (expirePendingApprovals s2 (et_Now e)) as [s3 effs3].
  pose proof (prim_question_expire rnd 0 s3 (et_Now e)) as P4.
  destruct (expirePendingQuestions s3 (et_Now e)) as [s4 effs4].
  apply (prims_after rnd 0 s s1); [by trans s0|apply driver_plain in D1; effectly|].
  apply (prims_after rnd 0 s1 s2); [done|by apply driver_plain|].
  eapply prims_cons; [done|exact P3|]. eapply prims_cons; [done|exact P4|].
  apply prims_inert; [done|]. effectly.
Qed.

Lemma jobResult_prims s j r err : prims rnd 0 s (reduceJobResult s j r err).
Proof.
  unfold reduceJobResult. destruct (st_Jobs s !! j) as [meta|]; [|inert_out].
  destruct r as [r|r].
  - unfold reduceCapsuleJobResult. cbv zeta. set (s1 := _ <| st_CapsuleGenerating := _ |>).
    assert (inert s s1) as I1 by done. clearbody s1.
    destruct (st_Sessions s1 !! _) as [sess|] eqn:Hs; [|apply prims_inert; [done|effectly]].
    destruct err; [destruct (ss_ResumeCapsule sess)|case_bool_decide];
      (apply prims_inert; [|cbn; effectly]); try done; (trans s1; [done|by apply setCapsule_inert]).
  - set (s1 := s <| st_Jobs := _ |>). assert (inert s s1) as I1 by done.
    destruct (stepDriver s1 _ _) as [[s' effs]|] eqn:Hs; [|inert_out].
    apply stepDriver_spec in Hs as [Hi Hd]. apply driver_plain in Hd.
    apply prims_inert; [by trans s1|]. effectly.
Qed.

Lemma fileChanged_prims s f p : prims rnd 0 s (reduceFileChanged s f p).
Proof.
  unfold reduceFileChanged. destruct (findFrame s f); simpl; [|inert_out].
  destruct (stepDriver _ _ _) as [[s' effs]|] eqn:Hs; [|inert_out].
  apply stepDriver_spec in Hs as [Hi Hd]. apply driver_plain in Hd.
  apply prims_inert; [done|]. effectly.
Qed.

Lemma frameOsc_prims s e : prims rnd 0 s (reduceFrameOsc s e).
Proof.
  unfold reduceFrameOsc. cbv zeta.
  assert (forall ev line, prims rnd 0 s
    (let '(next, dEffs) := default (s, []) (stepDriver s (efo_FrameID e) ev) in
     (next, appendMissingSessionRefreshEffects (EffEventLogAppend (efo_FrameID e) line :: dEffs))))
    as Hroute.
  { intros ev line. destruct (default _ _) as [s' effs] eqn:Hd.
    apply stepDriver_inert in Hd as [Hi He].
    apply prims_inert; [done|]. apply refresh_plain. effectly. }
  destruct (signalKind _ _);
    repeat match goal with
    | |- context [if ?b then _ else _] => destruct b
    | |- context [match findFrame ?s ?f with _ => _ end] => destruct (findFrame s f) as [[[? ?] ?]|]
    end; try inert_out; apply Hroute.
Qed.

Lemma framePrompt_prims s e : prims rnd 0 s (reduceFramePrompt s e).
Proof.
  unfold reduceFramePrompt. set (s1 := s <| st_Now := _ |>). assert (inert s s1) as I1 by done.
  case_bool_decide; [inert_out|].
  destruct (default _ _) as [s' effs] eqn:Hd. apply stepDriver_inert in Hd as [Hi He].
  apply prims_inert; [by trans s1|]. apply refresh_plain. effectly.
Qed.

Lemma driverHook_prims s e : prims rnd 0 s (reduceDriverHook rnd s e).
Proof.
  unfold reduceDriverHook. do 2 (case_bool_decide; [inert_out|]).
  destruct (stepDriver _ _ _) as [[s1 raw]|] eqn:Hs; [|inert_out].
  apply stepDriver_spec in Hs as [Hi Hd]. pose proof (resolvePush_prims 0 s1 raw Hd) as Hp.
  unfold resolvePushDriverEffects. destruct (resolvePushDriverEffects_from _ _ _ _) as [s2 effs].
  eapply prims_snoc_inert; [|done|unfold refreshAndReply; effectly].
  apply (prims_after rnd 0 s s1 [] s2 effs); [done|effectly|done].
Qed.

(** A sequence followed by an operation that may not apply. *)
Lemma prims_snoc n s s1 effs1 out :
  prims rnd n s (s1, effs1) -> (forall m, primitive rnd m m s1 out) ->
  prims rnd n s (out.1, effs1 ++ out.2).
Proof.
  intros Hp Hprim. remember (s1, effs1) as out1 eqn:Hout. revert s1 effs1 Hout Hprim.
  induction Hp as [n s|n m k s s0 effs0 s0' effs0' Hle Hp0 Hp IH]; intros s1 effs1 [= <- <-] Hprim.
  - apply (prims_one rnd n n). destruct out. apply Hprim.
  - rewrite <- app_assoc. eapply prims_cons; [done..|]. by eapply IH.
Qed.

Lemma thenMaybe_prims n s acc f :
  prims rnd n s acc -> (forall s1 out m, f s1 = Some out -> primitive rnd m m s1 out) ->
  prims rnd n s (thenMaybe acc f).
Proof.
  intros Hacc Hf. destruct acc as [s1 effs]. unfold thenMaybe. simpl.
  destruct (f s1) as [[s2 more]|] eqn:Heq; [|done].
  apply (prims_snoc n s s1 effs (s2, more)); [done|]. intros m. by apply Hf.
Qed.

Lemma bindTarget_inert s sessID sess idx targetID :
  st_Sessions s !! sessID = Some sess -> inert s (bindTarget s sessID sess idx targetID).
Proof.
  intros Hs. unfold bindTarget. destruct (ss_Frames sess !! idx) as [frame|] eqn:Hf; [|done].
  destruct (_ && _); [|done]. eapply inert_session; [done|..|done]; [|intros own _; by eapply frames_own_rewrite].
  unfold shape. simpl. f_equal. rewrite list_fmap_insert. apply list_insert_id.
  by rewrite list_lookup_fmap, Hf.
Qed.

Lemma subsystem_prims s e : prims rnd 0 s (reduceSubsystem rnd s e).
Proof.
  unfold reduceSubsystem. case_bool_decide; [inert_out|].
  destruct (findFrame s (es_FrameID e)) as [[[sessID sess] idx]|] eqn:Hf; [|inert_out].
  apply findFrame_lookup in Hf as [Hs _].
  cbv zeta. set (s0 := bindTarget s sessID sess idx _).
  assert (inert s s0) as I0 by (by apply bindTarget_inert). clearbody s0.
  destruct (stepDriver s0 _ _) as [[s1 raw]|] eqn:Hd; [|apply prims_inert; [done|effectly]].
  apply stepDriver_spec in Hd as [Hi Hd]. pose proof (resolvePush_prims 0 s1 raw Hd) as Hp.
  assert (prims rnd 0 s (resolvePushDriverEffects rnd s1 raw)) as Hp0.
  { unfold resolvePushDriverEffects. destruct (resolvePushDriverEffects_from _ _ _ _) as [s2 effs].
    apply (prims_after rnd 0 s s1 [] s2 effs); [by trans s0|effectly|done]. }
  apply (thenMaybe_prims 0 s _ (fun s => maybeCreateApprovalFromSubsystem s e)) in Hp0;
    [|intros; by eapply prim_approval_create].
  apply (thenMaybe_prims 0 s _ (fun s => maybeCreateQuestionFromSubsystem s e)) in Hp0;
    [|intros; by eapply prim_question_create].
  apply (thenMaybe_prims 0 s _ (fun s => maybeResolveHumanInputFromSubsystem s e)) in Hp0;
    [|intros; by eapply prim_resolve].
  revert Hp0. generalize (thenMaybe (thenMaybe (thenMaybe (resolvePushDriverEffects rnd s1 raw)
    (fun s => maybeCreateApprovalFromSubsystem s e)) (fun s => maybeCreateQuestionFromSubsystem s e))
    (fun s => maybeResolveHumanInputFromSubsystem s e)). intros [s4 effs4] Hp4. simpl.
  eapply prims_snoc_inert; [exact Hp4|by destruct (signalsAttention _)|unfold refreshAndReply; effectly].
Qed.

Lemma RegisterEvent_steps {T} (zero : T) dec handler s e :
  (forall c r p, event_steps rnd s (handler s c r p)) ->
  event_steps rnd s (RegisterEvent zero dec handler s e).
Proof.
  intros Hh. unfold RegisterEvent. case_bool_decide; [apply Hh|].
  destruct (dec _); [apply ev_prims; inert_out|apply Hh].
Qed.

Lemma repositoryCreateEvent_prims s c r p : prims rnd 0 s (reduceRepositoryCreateEvent s c r p).
Proof.
  unfold reduceRepositoryCreateEvent. set (e := mkEvRepository _ _ _ _ _ _ _ _ _ _ _ _ _ _ _).
  change (reduceRepositoryCreate s e) with (reduceRepository s e).
  eapply prims_one, prim_repository.
Qed.

Lemma handler_steps name fn s e :
  handler_of rnd name = Some fn -> event_steps rnd s (fn s e).
Proof.
  unfold handler_of. intros Hfn.
  destruct (head (filter _ _)) as [[n g]|] eqn:Hh; simplify_eq/=.
  assert ((n, fn) ∈ eventHandlers rnd) as Hin.
  { destruct (filter _ _) as [|h l] eqn:Hl; simplify_eq/=.
    assert ((n, fn) ∈ filter (fun h => h.1 = name) (eventHandlers rnd)) as Hf by (rewrite Hl; left).
    by apply list_elem_of_filter in Hf as [_ ?]. }
  unfold eventHandlers in Hin.
  repeat (apply elem_of_cons in Hin as [[= -> ->] | Hin];
    [apply RegisterEvent_steps; intros;
     try first [apply createSession_steps | apply forkSession_steps]; apply ev_prims|]);
    [..|by apply elem_of_nil in Hin].
  - apply pushDriver_prims.
  - eapply prims_one, prim_stop.
  - inert_out.
  - apply setHead_prims.
  - eapply prims_one, prim_shutdown.
  - unfold reduceListSessionMessages. inert_handler.
  - apply readMessages_prims.
  - apply repositoryCreateEvent_prims.
  - unfold reduceRepositoryPreparationEvent. inert_handler.
  - inert_out.
  - apply flagCapsule_prims.
Qed.

Lemma event_decomposes s e out : reduceEvent rnd s e = Some out -> event_steps rnd s out.
Proof.
  unfold reduceEvent. destruct (handler_of rnd (ee_Event e)) as [fn|] eqn:Hf; [|done].
  intros [= <-]. by eapply handler_steps.
Qed.

(** Every event of the reducer is a sequence of operations. *)
Lemma Reduce_decomposes s ev out : Reduce rnd s ev = Some out -> event_steps rnd s out.
Proof.
  unfold Reduce. destruct (st_Lifecycle s).
  - destruct ev; simpl; try (by apply event_decomposes); intros [= <-]; apply ev_prims;
      eauto using driverHook_prims, subsystem_prims, frameSpawned_prims,
        spawnFailed_prims, evictFrame_prims, commandExited_prims, tick_prims,
        jobResult_prims, fileChanged_prims, frameOsc_prims, framePrompt_prims;
      try (eapply prims_one; constructor; fail).
    all: unfold reduceSurfaceReadText, reduceSurfaceSendText,
      reduceSurfaceSendKey, reduceSurfaceResize, reduceSurfaceWriteRaw; inert_handler.
  - destruct ev; simpl; intros Hout; try (destruct (_ || _); [by eapply event_decomposes|]);
      simplify_eq/=; apply ev_prims; try (eapply prims_one; constructor; fail).
    all: unfold reduceSurfaceReadText; inert_handler.
Qed.

End Decompose.
