(* ===== verification/HostInputRun.v ===== *)
(** * host/state: human-input requests over whole runs

    Lifts the contract of HostInputFacts.v to [Reduce] and to any sequence of
    events: announcements, closings and held replies balance for every request id,
    and requests only move forward. *)

From S2P Require Import Prelude HostState HostFrames HostInput HostSession HostCapsule HostHandlers.
From S2P Require Import HostInputFacts HostRepo HostReduce HostDriverFacts HostFrames HostSteps.

Section Quiet.
Context {HT : HostTypes}.

(** Effects that say nothing about approvals or questions. *)
Definition quiet (e : Effect) : bool :=
  match e with
  | EffBroadcastEvent _ (PayApproval _) _ | EffBroadcastEvent _ (PayQuestion _) _
  | EffReplyHeldApproval _ _ _ _ | EffReplyHeldQuestion _ _ _ _ => false
  | _ => true
  end.

Lemma quiet_silent effs : all_effects quiet effs -> Forall silent_input effs.
Proof.
  intros Hq. eapply Forall_impl; [exact Hq|]. simpl. intros e He.
  repeat split; destruct e; try done; match goal with p : BroadcastPayload |- _ => by destruct p end.
Qed.

Lemma plain_quiet effs : all_effects plain effs -> all_effects quiet effs.
Proof. apply all_impl. by intros []. Qed.

Lemma teardown_quiet frameID killWindow : all_effects quiet (frameTeardownEffects frameID killWindow).
Proof. destruct killWindow; repeat constructor. Qed.
End Quiet.

#[export] Hint Resolve plain_quiet teardown_quiet : plain.

Section InputRun.
Context `{GoMapRange} `{DriverSys} `{PayloadCodec} (rnd : nat -> string) `{!PoliteDrivers}.
Implicit Types (s : State) (effs : list Effect).

Lemma quiet_contract s out :
  st_PendingApprovals out.1 = st_PendingApprovals s ->
  st_PendingQuestions out.1 = st_PendingQuestions s -> all_effects quiet out.2 ->
  input_contract s out.
Proof. intros Ha Hq Hs Hwf. apply inputs_step_silent; auto using quiet_silent. Qed.

Ltac quiet_out := apply quiet_contract; [done | done | cbn; effectly].

(** Running one contract after another, with the effects appended. *)
Lemma contract_seq s s1 effs1 s2 effs2 :
  input_contract s (s1, effs1) -> input_contract s1 (s2, effs2) ->
  input_contract s (s2, effs1 ++ effs2).
Proof.
  intros C1 C2 Hwf. pose proof (C1 Hwf) as S1. simpl in *.
  eapply inputs_step_trans; [done|]. apply C2. by eapply inputs_step_wf.
Qed.

(** ** Operations *)

Lemma inert_contract s s' effs :
  inert s s' -> all_effects plain effs -> input_contract s (s', effs).
Proof.
  intros [Hc _] He. apply quiet_contract; simpl; [|..|by apply plain_quiet].
  - apply (f_equal st_PendingApprovals Hc).
  - apply (f_equal st_PendingQuestions Hc).
Qed.

Lemma push_contract s n sid project command options input c r out :
  pushDriverInternal rnd s n sid project command options input c r = inr out ->
  input_contract s out.
Proof. intros (sess & frame & plan & _ & _ & ->)%push_outcome. quiet_out. Qed.

Lemma evictRootFrame_contract s sessID sess killWindow disposition :
  input_contract s (evictRootFrame s sessID sess killWindow disposition).
Proof.
  unfold evictRootFrame. set (s1 := s <| st_Sessions := _ |>).
  pose proof (cancelApprovalsForSession_contract s1 sessID) as C1.
  destruct (cancelApprovalsForSession s1 sessID) as [s2 e2].
  pose proof (cancelQuestionsForSession_contract s2 sessID) as C2.
  destruct (cancelQuestionsForSession s2 sessID) as [s3 e3].
  assert (input_contract s (s1, [])) as C0 by quiet_out.
  apply (contract_seq s s2 e2).
  - by apply (contract_seq s s1 [] s2 e2).
  - apply (contract_seq s2 s3 e3); [done|].
    quiet_out.
Qed.

Lemma evictChildFrame_contract s sessID sess idx frameID killWindow :
  input_contract s (evictChildFrame s sessID sess idx frameID killWindow).
Proof.
  unfold evictChildFrame. destruct (removeFrameByIndex sess idx) as [sess1 removed].
  set (s1 := s <| st_Sessions := _ |>).
  pose proof (cancelApprovalsForFrame_contract s1 frameID) as C1.
  destruct (cancelApprovalsForFrame s1 frameID) as [s2 e2].
  pose proof (cancelQuestionsForFrame_contract s2 frameID) as C2.
  destruct (cancelQuestionsForFrame s2 frameID) as [s3 e3].
  assert (input_contract s (s1, [])) as C0 by quiet_out.
  apply (contract_seq s s2 e2); [by apply (contract_seq s s1 [] s2 e2)|].
  apply (contract_seq s2 s2); [apply quiet_contract; [done|done|effectly]|].
  apply (contract_seq s2 s3 e3); [done|]. quiet_out.
Qed.

Lemma evict_contract s frameID killWindow disposition out :
  evictFrame s frameID killWindow disposition = Some out -> input_contract s out.
Proof.
  unfold evictFrame. destruct (findFrame s frameID) as [[[sessID sess] idx]|]; simpl; [|done].
  case_bool_decide; intros [= <-]; [apply evictRootFrame_contract | apply evictChildFrame_contract].
Qed.

Lemma repository_contract s e : input_contract s (reduceRepository s e).
Proof.
  destruct (reduceRepository_only s e) as [Hs He _].
  apply quiet_contract; [apply (f_equal st_PendingApprovals Hs)
    |apply (f_equal st_PendingQuestions Hs)|]. revert He. apply all_impl. by intros [].
Qed.

(** A tree of guards over outcomes that leave the ledgers alone. *)
Ltac quiet_handler := repeat case_match; simplify_eq/=; quiet_out.

Lemma connClosed_contract s c : input_contract s (reduceConnClosed s c).
Proof.
  unfold reduceConnClosed. destruct (bool_decide _); destruct (_ !! c); quiet_out.
Qed.

Lemma surfaceUnsubscribe_contract s e : input_contract s (reduceSurfaceUnsubscribe s e).
Proof.
  unfold reduceSurfaceUnsubscribe. cbv zeta. destruct (bool_decide (_ = None)); [quiet_out|].
  apply quiet_contract; [done|done|]. apply all_cons; [done|]. apply all_cons; [|effectly].
  by destruct (bool_decide (esu_ReqID e = "")).
Qed.

Lemma shutdownResults_contract s :
  (forall id, input_contract s (reduceShutdownSaveSucceeded s id)) /\
  (forall id err, input_contract s (reduceShutdownSaveFailed s id err)) /\
  (forall e, input_contract s (reduceShutdownCleanupFinished s e)).
Proof.
  split_and!; intros; unfold reduceShutdownSaveSucceeded, reduceShutdownSaveFailed,
    reduceShutdownCleanupFinished; (destruct (currentShutdown _ _); [|quiet_out]);
    [quiet_out|quiet_out|]. destruct (ecf_Outcome e); quiet_out.
Qed.

Lemma primitive_contract n k s out : primitive rnd n k s out -> input_contract s out.
Proof.
  intros Hp. destruct (shutdownResults_contract s) as (C1 & C2 & C3).
  destruct Hp; eauto using inert_contract, push_contract, evict_contract,
    reduceApprovalRespond_contract, reduceApprovalCancel_contract, reduceQuestionRespond_contract,
    reduceQuestionCancel_contract, maybeCreateApproval_contract, maybeCreateQuestion_contract,
    maybeResolve_contract, expirePendingApprovals_contract, expirePendingQuestions_contract,
    connClosed_contract, surfaceUnsubscribe_contract, repository_contract.
  all: try quiet_out.
  all: unfold reduceStopSession, reduceConnOpened, reduceSurfaceSubscribe, reduceShutdown;
    quiet_handler.
Qed.

Lemma prims_contract n s out : prims rnd n s out -> input_contract s out.
Proof.
  induction 1 as [n s|n m k s s1 effs1 s2 effs2 _ Hp _ IH].
  - quiet_out.
  - eapply contract_seq; [by eapply primitive_contract|done].
Qed.

Lemma Reduce_contract s ev out : Reduce rnd s ev = Some out -> input_contract s out.
Proof.
  intros Hr. destruct (Reduce_decomposes _ _ _ _ Hr) as [sess plan c r Hsh|out' Hp]; [quiet_out|].
  by eapply prims_contract.
Qed.

(** ** Runs *)

(** A run of the reducer: any events, with any random draws. *)
Inductive host_run s : list Effect -> State -> Prop :=
| run_start : host_run s [] s
| run_event effs s' draws ev effs' s'' :
    host_run s effs s' -> Reduce draws s' ev = Some (s'', effs') ->
    host_run s (effs ++ effs') s''.

Lemma New_input_wf : input_wf New.
Proof. by split; split; unfold entry; simpl; setoid_rewrite lookup_empty. Qed.

(** A request that is neither announced nor closed was not there. *)
Lemma New_pend {R} `{!Request R} id : rq_ledger New = (∅ : gmap string (gmap string R)) ->
  pend (view (rq_ledger New) id) = O.
Proof.
  intros ->. unfold view, ledger_find. case_bool_decide; [done|].
  assert (range_find (fun sessID (rs : gmap string R) => (fun r => (r, sessID)) <$> rs !! id) ∅ = None)
    as -> by (apply range_find_None; by setoid_rewrite lookup_empty). done.
Qed.

End InputRun.

Section InputClaims.
Context `{GoMapRange} `{DriverSys} `{PayloadCodec} `{!PoliteDrivers}.
Implicit Types (s : State) (effs : list Effect).

Lemma run_inputs s effs s' : input_wf s -> host_run s effs s' -> inputs_step s effs s'.
Proof.
  intros Hwf Hrun. induction Hrun as [|effs s' draws ev effs' s'' Hrun IH Hred].
  - apply inputs_step_silent; [done|done|done|constructor].
  - eapply inputs_step_trans; [exact IH|]. pose proof (Reduce_contract _ _ _ _ Hred) as Hc.
    apply Hc. by eapply inputs_step_wf.
Qed.

(** Requests announced to the clients, resolutions broadcast, and replies sent
    to the held call of the agent, per request id. *)
Definition approvals_requested (id : ApprovalID) effs : nat := occ (eff_opens (R := ApprovalRequest)) id effs.
Definition approvals_resolved (id : ApprovalID) effs : nat := occ (eff_closes (R := ApprovalRequest)) id effs.
Definition approvals_replied (id : ApprovalID) effs : nat := occ (eff_replies (R := ApprovalRequest)) id effs.
Definition questions_requested (id : QuestionID) effs : nat := occ (eff_opens (R := QuestionRequest)) id effs.
Definition questions_resolved (id : QuestionID) effs : nat := occ (eff_closes (R := QuestionRequest)) id effs.
Definition questions_replied (id : QuestionID) effs : nat := occ (eff_replies (R := QuestionRequest)) id effs.

(** Resolutions other than those the agent's own server announced. *)
Definition approvals_decided (id : ApprovalID) effs : nat :=
  occ (eff_closes_held (R := ApprovalRequest)) id effs.
Definition questions_decided (id : QuestionID) effs : nat :=
  occ (eff_closes_held (R := QuestionRequest)) id effs.

Definition approval_pending s (id : ApprovalID) : nat :=
  match FindApproval s id with
  | Some (r, _) => if decide (ap_Status r = Pending) then 1 else 0
  | None => 0
  end.
Definition question_pending s (id : QuestionID) : nat :=
  match FindQuestion s id with
  | Some (q, _) => if decide (qu_Status q = Pending) then 1 else 0
  | None => 0
  end.

Lemma approval_pending_view s id :
  approval_pending s id = pend (view (rq_ledger (R := ApprovalRequest) s) id).
Proof. unfold approval_pending, FindApproval, view. by destruct (ledger_find _ _) as [[]|]. Qed.

Lemma question_pending_view s id :
  question_pending s id = pend (view (rq_ledger (R := QuestionRequest) s) id).
Proof. unfold question_pending, FindQuestion, view. by destruct (ledger_find _ _) as [[]|]. Qed.

(** C1: every human-input request is answered exactly once.  Over any run of the
    host reducer from its initial state, and for every request id, the number of
    requests announced equals the number of resolutions broadcast plus one if the
    request is still pending; and every resolution the reducer decided (by a client,
    by policy, by expiry or by teardown, but not one the agent's server announced
    itself) is matched by exactly one reply to the held call. *)
Theorem human_input_answered_once effs s :
  host_run New effs s ->
  (forall id, approvals_requested id effs = (approvals_resolved id effs + approval_pending s id)%nat /\
     approvals_decided id effs = approvals_replied id effs) /\
  (forall id, questions_requested id effs = (questions_resolved id effs + question_pending s id)%nat /\
     questions_decided id effs = questions_replied id effs).
Proof.
  intros Hrun. destruct (run_inputs _ _ _ New_input_wf Hrun) as [[_ BA RA _] [_ BQ RQ _]].
  split; intros id; (split; [|auto]).
  - rewrite approval_pending_view. specialize (BA id). rewrite New_pend in BA by done.
    unfold approvals_requested, approvals_resolved. lia.
  - rewrite question_pending_view. specialize (BQ id). rewrite New_pend in BQ by done.
    unfold questions_requested, questions_resolved. lia.
Qed.

(** An approval only moves forward.  If one event leaves an approval in the
    ledger without announcing it anew, then it was there before with the same
    identity, command, expiry and captured default; it is unchanged, or it was
    pending and is now resolved with the decision that its resolution calls for
    (the client's, the auto-approval, the captured default on expiry, deny on
    cancellation).  In particular a resolved approval is never altered. *)
Theorem approval_moves_forward draws s ev s' effs id r' sid' :
  input_wf s -> Reduce draws s ev = Some (s', effs) ->
  approvals_requested id effs = O -> FindApproval s' id = Some (r', sid') ->
  exists r sid, FindApproval s id = Some (r, sid) /\
    approval_identity r' = approval_identity r /\ approval_sound r' /\
    (r' = r \/ (ap_Status r = Pending /\ ap_Status r' <> Pending)).
Proof.
  intros Hwf Hred Hopen Hfind.
  pose proof (Reduce_contract _ _ _ _ Hred Hwf) as [[W B RP F] _]. simpl in *.
  assert (view (st_PendingApprovals s') id = Some r') as Hv'
    by (unfold view; unfold FindApproval in Hfind; by rewrite Hfind).
  destruct (F id r' Hopen Hv') as (r & Hv & Hsame & Hadv).
  unfold view in Hv. destruct (ledger_find (st_PendingApprovals s) id) as [[r0 sid]|] eqn:Hf;
    [|done]. injection Hv as ->.
  exists r, sid. split; [exact Hf|]. split; [by symmetry|]. split; [|done].
  apply find_entry in Hfind. destruct (wf_entry _ W _ _ _ Hfind) as (_ & _ & _ & Hsound). exact Hsound.
Qed.

End InputClaims.

Module InputDemo.
Import HostDemo.

Definition demo_params : CreateSessionParams := mkCreateParams "/work" "shell" zero_options.

#[export] Instance demo_codec : PayloadCodec :=
  {| decode_unit := fun _ => inr tt; decode_create := fun _ => inr demo_params;
     decode_push := fun p => inr (mkPushParams p "" "shell" zero_options "");
     decode_session := fun p => inr p;
     decode_set_head := fun p => inr (mkSetHeadParams "s1" p);
     decode_messages := fun p => inr (mkMessagesParams p "");
     decode_repo_create := fun _ => inl "unexpected"; decode_preparation := fun p => inr p;
     decode_flag := fun p => inr (mkFlagParams p true) |}.

#[export] Instance demo_polite : PoliteDrivers.
Proof.
  assert (forall command drv, GetDriver command = Some drv -> drv = shell_driver) as Hshell.
  { intros command drv. unfold GetDriver. cbn [driverRegistry defaultFactory demo_drivers].
    destruct (decide (FirstToken command = "shell")) as [->|Hne].
    - rewrite lookup_singleton_eq. congruence.
    - rewrite lookup_singleton_ne by done. by rewrite lookup_singleton_ne. }
  split.
  - intros command drv ds ctx ev ->%Hshell. destruct ev; constructor.
  - intros command drv boot ds ctx now ->%Hshell. done.
Qed.

(** The first draw names the session, the second its root frame. *)
Definition demo_draws (n : nat) : string := match n with O => "s1" | _ => "f1" end.

Definition asks (id : string) : Event :=
  EvSubsystem_ (mkEvSubsystem 0 "" "f1" SubsystemStream SubsystemApprovalRequested 6000
    (zero_payload <| sp_Approval :=
       Some (mkSubsystemApproval id "command" "rm" "" "" false false false) |>)).

Definition answers (id : string) (client : string) (d : ApprovalDecision) : Event :=
  EvCmdApprovalRespond_ (mkEvApprovalRespond 7 "r" "s1" id d client).

Fixpoint play (s : State) (evs : list Event) : option (State * list Effect) :=
  match evs with
  | [] => Some (s, [])
  | ev :: rest =>
    '(s', effs) ← Reduce demo_draws s ev; '(s'', effs') ← play s' rest; Some (s'', effs ++ effs')
  end.

Lemma play_run s0 effs0 s evs s' effs :
  host_run s0 effs0 s -> play s evs = Some (s', effs) -> host_run s0 (effs0 ++ effs) s'.
Proof.
  revert effs0 s effs. induction evs as [|ev evs IH]; intros effs0 s effs Hrun; simpl.
  - intros [= <- <-]. by rewrite app_nil_r.
  - destruct (Reduce demo_draws s ev) as [[s1 e1]|] eqn:Hred; [|done]. simpl.
    destruct (play s1 evs) as [[s2 e2]|] eqn:Hp; [|done]. simpl. intros [= <- <-].
    rewrite app_assoc. eapply IH; [|done]. by eapply run_event.
Qed.

Definition creates : Event := EvEvent_ (mkEvEvent 3 "c" EventCreateSession "{}").

(** Two requests, one of them answered twice. *)
Definition demo_events : list Event :=
  [creates; asks "a1"; asks "a2"; answers "a1" "phone" DecisionAccept;
   answers "a1" "laptop" DecisionDeny].

Definition demo_final : State * list Effect := default (New, []) (play New demo_events).

Lemma demo_run : host_run New demo_final.2 demo_final.1.
Proof.
  assert (play New demo_events = Some demo_final) as Hp by (vm_compute; reflexivity).
  destruct demo_final as [s effs]. apply (play_run New [] New _ _ _ (run_start New) Hp).
Qed.

Lemma human_input_answered_once_witness :
  approvals_requested "a1" demo_final.2 = 1%nat /\ approvals_replied "a1" demo_final.2 = 1%nat /\
  approvals_requested "a2" demo_final.2 = (approvals_resolved "a2" demo_final.2 + 1)%nat.
Proof.
  destruct (human_input_answered_once demo_final.2 demo_final.1 demo_run) as [Ha _].
  destruct (Ha "a1") as [_ <-]. destruct (Ha "a2") as [-> _].
  split; [vm_compute; reflexivity|]. split; vm_compute; reflexivity.
Defined.

(** The state in which "a1" and "a2" are pending. *)
Definition demo_asked : State := (default (New, []) (play New (take 3 demo_events))).1.

Lemma demo_asked_wf : input_wf demo_asked.
Proof.
  assert (play New (take 3 demo_events) = Some (demo_asked, (default (New, []) (play New (take 3 demo_events))).2))
    as Hp by (vm_compute; reflexivity).
  eapply inputs_step_wf, run_inputs; [apply New_input_wf|].
  exact (play_run New [] New _ _ _ (run_start New) Hp).
Qed.

Definition demo_answered : State * list Effect :=
  default (New, []) (Reduce demo_draws demo_asked (answers "a1" "phone" DecisionAccept)).

Definition demo_resolution : ApprovalRequest :=
  mkApproval "a1" "s1" "f1" "command" "rm" "" "" 6000 (6000 + DefaultApprovalTTL) Resolved
    DecisionDeny DecisionAccept "phone" ReasonClient.

Lemma approval_moves_forward_witness :
  exists r sid, FindApproval demo_asked "a1" = Some (r, sid) /\
    approval_identity demo_resolution = approval_identity r /\ approval_sound demo_resolution /\
    (demo_resolution = r \/ (ap_Status r = Pending /\ ap_Status demo_resolution <> Pending)).
Proof.
  apply (approval_moves_forward demo_draws demo_asked (answers "a1" "phone" DecisionAccept)
           demo_answered.1 demo_answered.2 "a1" demo_resolution "s1").
  - apply demo_asked_wf.
  - vm_compute. reflexivity.
  - vm_compute. reflexivity.
  - vm_compute. reflexivity.
Defined.

End InputDemo.
