(* ===== verification/HostGraph.v ===== *)
(** * host/state: the session graph as an abstract machine

    What the reducer promises about sessions and frames, without driver states,
    jobs or clients: a session is a list of frame ids with a head and a
    most-recently-used list ([Shape] of HostDriverFacts.v), and the graph changes by
    seven kinds of move.  Each move names the frames it brings in and the frames it
    takes out.  The moves preserve [graph_wf] and keep the books of every frame id.
    HostGraphRun.v shows that the reducer implements the machine. *)

From S2P Require Import Prelude HostState HostFrames HostDriverFacts.

Abbreviation Graph := (gmap SessionID Shape).

(** ** The machine *)

Definition mru_push (frameID : FrameID) (mru : list FrameID) : list FrameID :=
  take 16 (frameID :: filter (fun id => id <> frameID) mru).

(** A session that starts with one frame. *)
Definition shape_new (sid : SessionID) (frameID : FrameID) : Shape :=
  mkShape sid [frameID] frameID [] None.

(** The previous head is remembered when there is one. *)
Definition shape_remember (sh : Shape) : list FrameID :=
  if decide (sh_Frames sh = []) then sh_MRU sh else mru_push (sh_Head sh) (sh_MRU sh).

Definition shape_push (sh : Shape) (frameID : FrameID) : Shape :=
  mkShape (sh_ID sh) (sh_Frames sh ++ [frameID]) frameID (shape_remember sh) (sh_Ended sh).

Definition shape_focus (sh : Shape) (frameID : FrameID) : Shape :=
  mkShape (sh_ID sh) (sh_Frames sh) frameID (shape_remember sh) (sh_Ended sh).

(** Removing a frame: its traces go, and a removed head is replaced by the most
    recent surviving frame, or by the root. *)
Definition shape_close (sh : Shape) (i : nat) : Shape :=
  let frames := delete i (sh_Frames sh) in
  let mru := filter (fun id => id ∈ frames) (sh_MRU sh) in
  if decide (sh_Frames sh !! i = Some (sh_Head sh)) then
    mkShape (sh_ID sh) frames (default (default "" (head frames)) (head mru)) (tail mru) (sh_Ended sh)
  else mkShape (sh_ID sh) frames (sh_Head sh) mru (sh_Ended sh).

Definition shape_end (sh : Shape) (now : Time) : Shape :=
  mkShape (sh_ID sh) [] "" [] (Some now).

(** How often a frame id occurs in the graph. *)
Definition live (frameID : FrameID) (G : Graph) : Z :=
  map_sum (fun sh => times frameID (sh_Frames sh)) G.

(** [graph_step G ins outs G'] is one move. *)
Inductive graph_step : Graph -> list FrameID -> list FrameID -> Graph -> Prop :=
| step_create G sid frameID :
    G !! sid = None -> frameID <> "" -> live frameID G = 0 ->
    graph_step G [frameID] [] (<[sid := shape_new sid frameID]> G)
| step_push G sid sh frameID :
    G !! sid = Some sh -> frameID <> "" -> live frameID G = 0 ->
    graph_step G [frameID] [] (<[sid := shape_push sh frameID]> G)
| step_focus G sid sh frameID :
    G !! sid = Some sh -> frameID ∈ sh_Frames sh ->
    graph_step G [] [] (<[sid := shape_focus sh frameID]> G)
| step_close G sid sh i frameID :
    G !! sid = Some sh -> sh_Frames sh !! S i = Some frameID ->
    graph_step G [] [frameID] (<[sid := shape_close sh (S i)]> G)
| step_end G sid sh now :
    G !! sid = Some sh -> graph_step G [] (sh_Frames sh) (<[sid := shape_end sh now]> G)
| step_drop G sid sh :
    G !! sid = Some sh -> graph_step G [] (sh_Frames sh) (delete sid G)
| step_commit G sid :
    G !! sid = None -> graph_step G [] [] (<[sid := mkShape sid [] "" [] None]> G).

Inductive graph_steps : Graph -> list FrameID -> list FrameID -> Graph -> Prop :=
| steps_refl G : graph_steps G [] [] G
| steps_cons G ins outs G' ins' outs' G'' :
    graph_step G ins outs G' -> graph_steps G' ins' outs' G'' ->
    graph_steps G (ins ++ ins') (outs ++ outs') G''.

(** ** Well-formedness *)

Record shape_wf (sid : SessionID) (sh : Shape) : Prop := {
  sw_id : sh_ID sh = sid;
  sw_frames : "" ∉ sh_Frames sh;
  sw_head : (sh_Frames sh = [] /\ sh_Head sh = "") \/ sh_Head sh ∈ sh_Frames sh;
  sw_mru : NoDup (sh_MRU sh) /\ (length (sh_MRU sh) <= 16)%nat /\
    forall id, id ∈ sh_MRU sh -> id ∈ sh_Frames sh }.

Record graph_wf (G : Graph) : Prop := {
  gw_shape : forall sid sh, G !! sid = Some sh -> shape_wf sid sh;
  gw_unique : forall frameID, live frameID G <= 1 }.

(** ** Counting *)

Section Counting.
Implicit Types (G : Graph) (f : FrameID).

Lemma live_delete f G sid sh :
  G !! sid = Some sh -> live f G = times f (sh_Frames sh) + live f (delete sid G).
Proof. intros Hs. unfold live. by rewrite (map_sum_delete _ _ _ _ Hs). Qed.

Lemma live_insert f G sid sh :
  live f (<[sid := sh]> G) = times f (sh_Frames sh) + live f (delete sid G).
Proof. unfold live. by rewrite map_sum_insert. Qed.

Lemma live_nonneg f G : 0 <= live f G.
Proof.
  induction G as [|sid sh G Hs IH] using map_ind; [done|].
  rewrite live_insert, (delete_id _ _ Hs). pose proof (times_nonneg f (sh_Frames sh)). lia.
Qed.

(** The move of a session from one shape to another. *)
Lemma live_replace f G sid sh sh' :
  G !! sid = Some sh ->
  live f (<[sid := sh']> G) = live f G + times f (sh_Frames sh') - times f (sh_Frames sh).
Proof. intros Hs. rewrite live_insert, (live_delete f G sid sh Hs). lia. Qed.

Lemma live_add f G sid sh :
  G !! sid = None -> live f (<[sid := sh]> G) = live f G + times f (sh_Frames sh).
Proof. intros Hs. rewrite live_insert, (delete_id _ _ Hs). lia. Qed.

Lemma live_elem f G sid sh :
  G !! sid = Some sh -> f ∈ sh_Frames sh -> 0 < live f G.
Proof.
  intros Hs Hf%times_elem. rewrite (live_delete f G sid sh Hs).
  pose proof (live_nonneg f (delete sid G)). lia.
Qed.

(** In a graph where every frame id occurs at most once. *)
Lemma live_unique G :
  (forall f, live f G <= 1) ->
  (forall sid sh, G !! sid = Some sh -> NoDup (sh_Frames sh)) /\
  (forall sid sid' sh sh' f, G !! sid = Some sh -> G !! sid' = Some sh' ->
     f ∈ sh_Frames sh -> f ∈ sh_Frames sh' -> sid = sid').
Proof.
  intros Hall. split.
  - intros sid sh Hs. apply times_NoDup. intros f. specialize (Hall f).
    rewrite (live_delete f G sid sh Hs) in Hall. pose proof (live_nonneg f (delete sid G)). lia.
  - intros sid sid' sh sh' f Hs Hs' Hf%times_elem Hf'. destruct (decide (sid = sid')) as [|Hne]; [done|].
    specialize (Hall f). rewrite (live_delete f G sid sh Hs) in Hall.
    assert (0 < live f (delete sid G)); [|lia].
    eapply live_elem; [|done]. by rewrite lookup_delete_ne.
Qed.

End Counting.

(** ** The moves preserve well-formedness and keep the books *)

Section Moves.
Implicit Types (G : Graph) (f : FrameID) (sh : Shape).

Lemma graph_step_live G ins outs G' f :
  graph_step G ins outs G' -> live f G' = live f G + times f ins - times f outs.
Proof.
  intros Hstep. destruct Hstep as [G sid g Hs|G sid sh g Hs|G sid sh g Hs|G sid sh i g Hs Hi
    |G sid sh now Hs|G sid sh Hs|G sid Hs]; rewrite ?times_nil.
  - rewrite live_add by done. simpl. lia.
  - rewrite (live_replace f G sid sh) by done. simpl. rewrite times_app. lia.
  - rewrite (live_replace f G sid sh) by done. simpl. lia.
  - rewrite (live_replace f G sid sh) by done.
    assert (sh_Frames (shape_close sh (S i)) = delete (S i) (sh_Frames sh)) as ->
      by (unfold shape_close; by case_decide).
    rewrite (times_delete f _ _ _ Hi). lia.
  - rewrite (live_replace f G sid sh) by done. simpl. rewrite times_nil. lia.
  - rewrite (live_delete f G sid sh Hs). lia.
  - rewrite live_add by done. simpl. rewrite times_nil. lia.
Qed.

Lemma mru_push_wf (frames mru : list FrameID) f :
  NoDup mru -> f ∈ frames -> (forall id, id ∈ mru -> id ∈ frames) ->
  NoDup (mru_push f mru) /\ (length (mru_push f mru) <= 16)%nat /\
  forall id, id ∈ mru_push f mru -> id ∈ frames.
Proof.
  intros Hnd Hf Hsub. unfold mru_push.
  assert (sublist (take 16 (f :: filter (fun id => id <> f) mru)) (f :: filter (fun id => id <> f) mru))
    as Hs by apply sublist_take.
  split_and!.
  - eapply sublist_NoDup; [|exact Hs]. constructor; [|by apply NoDup_filter].
    intros [? _]%list_elem_of_filter. done.
  - rewrite length_take. lia.
  - intros id Hin. eapply elem_of_sublist in Hin; [|exact Hs].
    apply elem_of_cons in Hin as [->|[_ ?]%list_elem_of_filter]; auto.
Qed.

Lemma shape_remember_wf sid sh :
  shape_wf sid sh ->
  NoDup (shape_remember sh) /\ (length (shape_remember sh) <= 16)%nat /\
  forall id, id ∈ shape_remember sh -> id ∈ sh_Frames sh.
Proof.
  intros [_ _ Hhead (Hnd & Hlen & Hsub)]. unfold shape_remember. case_decide; [done|].
  apply mru_push_wf; [done| |done]. destruct Hhead as [[]|]; done.
Qed.

Lemma shape_push_wf sid sh f : shape_wf sid sh -> f <> "" -> shape_wf sid (shape_push sh f).
Proof.
  intros Hwf Hf. destruct (shape_remember_wf sid sh Hwf) as (Hnd & Hlen & Hsub).
  destruct Hwf as [Hid Hfr _ _]. split; simpl; [done| |right; set_solver|].
  - rewrite elem_of_app, list_elem_of_singleton. naive_solver.
  - split_and!; [done|done|]. intros id Hin. apply elem_of_app. auto.
Qed.

Lemma shape_focus_wf sid sh f : shape_wf sid sh -> f ∈ sh_Frames sh -> shape_wf sid (shape_focus sh f).
Proof.
  intros Hwf Hf. destruct (shape_remember_wf sid sh Hwf) as (Hnd & Hlen & Hsub).
  destruct Hwf as [Hid Hfr _ _]. by split; simpl; [| |right|].
Qed.

(** The list of survivors after a frame is closed. *)
Lemma survivors_wf (frames mru : list FrameID) :
  NoDup mru -> (length mru <= 16)%nat ->
  NoDup (filter (fun id => id ∈ frames) mru) /\
  (length (filter (fun id => id ∈ frames) mru) <= 16)%nat /\
  forall id, id ∈ filter (fun id => id ∈ frames) mru -> id ∈ frames.
Proof.
  intros Hnd Hlen. split_and!; [by apply NoDup_filter| |by intros id [? _]%list_elem_of_filter].
  etrans; [|done]. apply length_filter.
Qed.

(** The root survives, so there is always a frame left to take the head. *)
Lemma shape_close_wf sid sh i f :
  shape_wf sid sh -> NoDup (sh_Frames sh) -> sh_Frames sh !! S i = Some f ->
  shape_wf sid (shape_close sh (S i)).
Proof.
  intros [Hid Hfr Hhead (Hnd & Hlen & Hsub)] Hndf Hi.
  assert ("" ∉ delete (S i) (sh_Frames sh)) as Hfr' by (intros ?%list_elem_of_delete_inv; done).
  destruct (sh_Frames sh) as [|root rest] eqn:Hframes; [done|].
  destruct (survivors_wf (delete (S i) (root :: rest)) (sh_MRU sh) Hnd Hlen) as (Hnd' & Hlen' & Hsub').
  unfold shape_close. rewrite Hframes. case_decide as Hwas.
  - split; simpl in *; [done|done|right|].
    + destruct (filter _ _) as [|h mru] eqn:Hm; simpl; [left|]. apply Hsub'. left.
    + destruct (filter _ _) as [|h mru]; simpl in *; [done|].
      apply NoDup_cons in Hnd' as [_ ?]. split_and!; [done|lia|]. intros id Hin. apply Hsub'. by right.
  - split; simpl in *; [done|done|right|done]. destruct Hhead as [[]|Hin]; [done|].
    apply elem_of_cons in Hin as [->|Hin]; [left|right].
    apply list_elem_of_lookup in Hin as [j Hj]. apply list_elem_of_lookup.
    assert (j <> i) as Hji by (intros ->; simpl in Hi; congruence).
    destruct (decide (j < i)%nat).
    + exists j. by rewrite list_lookup_delete_lt.
    + exists (pred j). rewrite list_lookup_delete_ge by lia. by replace (S (pred j)) with j by lia.
Qed.

Lemma graph_insert_wf G sid sh :
  graph_wf G -> shape_wf sid sh -> (forall f, live f (<[sid := sh]> G) <= 1) ->
  graph_wf (<[sid := sh]> G).
Proof.
  intros [Hall _] Hsh Hlive. split; [|done].
  intros sid' sh' [[-> <-]|[Hne Hs]]%lookup_insert_Some; auto.
Qed.

Lemma graph_step_wf G ins outs G' : graph_step G ins outs G' -> graph_wf G -> graph_wf G'.
Proof.
  intros Hstep Hwf. pose proof (live_unique G (gw_unique _ Hwf)) as [Hnd _].
  assert (forall f, live f G' <= 1) as Hlive.
  { intros f. rewrite (graph_step_live _ _ _ _ f Hstep). pose proof (gw_unique _ Hwf f) as Hu.
    pose proof (times_nonneg f outs) as Ho.
    destruct Hstep; rewrite ?times_nil in *; try lia; rewrite times_one; case_decide; subst; lia. }
  destruct Hstep as [G sid g Hs|G sid sh g Hs|G sid sh g Hs|G sid sh i g Hs Hi
    |G sid sh now Hs|G sid sh Hs|G sid Hs];
    try (pose proof (gw_shape _ Hwf _ _ Hs) as Hsh).
  - apply graph_insert_wf; [done| |done]. split; simpl; [done| |right; left|].
    + by intros ?%list_elem_of_singleton.
    + split_and!; [constructor|lia|by intros ? ?%elem_of_nil].
  - apply graph_insert_wf; [done|by apply shape_push_wf|done].
  - apply graph_insert_wf; [done|by apply shape_focus_wf|done].
  - apply graph_insert_wf; [done|eapply shape_close_wf; eauto|done].
  - apply graph_insert_wf; [done| |done]. destruct Hsh as [Hid _ _ _].
    split; simpl; [done|apply not_elem_of_nil|by left|].
    split_and!; [constructor|lia|by intros ? ?%elem_of_nil].
  - split; [|done]. intros sid' sh' [_ ?]%lookup_delete_Some. by apply (gw_shape _ Hwf).
  - apply graph_insert_wf; [done| |done].
    split; simpl; [done|apply not_elem_of_nil|by left|].
    split_and!; [constructor|lia|by intros ? ?%elem_of_nil].
Qed.

Lemma graph_steps_wf G ins outs G' : graph_steps G ins outs G' -> graph_wf G -> graph_wf G'.
Proof. induction 1; eauto using graph_step_wf. Qed.

Lemma graph_steps_live G ins outs G' f :
  graph_steps G ins outs G' -> live f G' = live f G + times f ins - times f outs.
Proof.
  induction 1 as [|G ins outs G1 ins' outs' G2 Hstep Hsteps IH]; [rewrite !times_nil; lia|].
  rewrite IH, (graph_step_live _ _ _ _ f Hstep), !times_app. lia.
Qed.

Lemma graph_steps_one G ins outs G' : graph_step G ins outs G' -> graph_steps G ins outs G'.
Proof.
  intros Hstep. rewrite <- (app_nil_r ins), <- (app_nil_r outs).
  eapply steps_cons; [done|constructor].
Qed.

Lemma graph_steps_trans G ins outs G' ins' outs' G'' :
  graph_steps G ins outs G' -> graph_steps G' ins' outs' G'' ->
  graph_steps G (ins ++ ins') (outs ++ outs') G''.
Proof.
  induction 1 as [|G ins1 outs1 G1 ins2 outs2 G2 Hstep Hsteps IH]; intros Hs; [done|].
  rewrite <- !app_assoc. eapply steps_cons; eauto.
Qed.

End Moves.
