(* ===== verification/HostGraphRun.v ===== *)
(** * host/state: the reducer implements the session graph machine

    Every operation of the reducer is a sequence of moves of the machine of
    HostGraph.v; the frames a move brings in are those a spawn effect asks for, the
    frames it takes out are those an unregister effect removes.  The ids the
    operating system's random source yields are assumed to be non-empty, distinct
    within one event and unused in the current graph ([fresh_from]). *)

From stdpp Require Import pretty.
From S2P Require Import Prelude HostState HostFrames HostInput HostSession HostCapsule HostHandlers.
From S2P Require Import HostRepo HostReduce HostDriverFacts HostSteps HostGraph HostInputRun HostFrames.

Section GraphRun.
Context `{GoMapRange} `{DriverSys} `{PayloadCodec}.
Implicit Types (s : State) (sess : Session) (effs : list Effect) (rnd : nat -> string).

(** The frames spawned and unregistered by a list of effects. *)
Definition spawned effs : list FrameID :=
  omap (fun e => match e with EffSpawnFrame _ f _ _ _ _ => Some f | _ => None end) effs.
Definition unregistered effs : list FrameID :=
  omap (fun e => match e with EffUnregisterFrame f => Some f | _ => None end) effs.

Definition unmoved (e : Effect) : bool :=
  match e with EffSpawnFrame _ _ _ _ _ _ | EffUnregisterFrame _ => false | _ => true end.

Lemma spawned_app effs effs' : spawned (effs ++ effs') = spawned effs ++ spawned effs'.
Proof. apply omap_app. Qed.
Lemma unregistered_app effs effs' :
  unregistered (effs ++ effs') = unregistered effs ++ unregistered effs'.
Proof. apply omap_app. Qed.

Lemma unmoved_none effs : all_effects unmoved effs -> spawned effs = [] /\ unregistered effs = [].
Proof. induction 1 as [|[] effs He _ [Hs Hu]]; simplify_eq/=; auto. Qed.

Lemma ledger_none effs :
  all_effects ledger_effect effs -> spawned effs = [] /\ unregistered effs = [].
Proof. intros He. apply unmoved_none. revert He. apply all_impl. by intros []. Qed.

Lemma plain_unmoved effs : all_effects plain effs -> all_effects unmoved effs.
Proof. apply all_impl. by intros []. Qed.

(** The draws from [n] on name no frame of the graph. *)
Record fresh_from rnd (n : nat) (G : Graph) : Prop := {
  ff_name : forall i, (n <= i)%nat -> rnd i <> "" /\ live (rnd i) G = 0;
  ff_inj : forall i j, (n <= i)%nat -> (n <= j)%nat -> rnd i = rnd j -> i = j }.

(** What an operation does to the graph, spawning [ins]. *)
Definition moves (ins : list FrameID) s (out : State * list Effect) : Prop :=
  spawned out.2 = ins /\ graph_steps (graph s) ins (unregistered out.2) (graph out.1).

Lemma moves_none s out :
  graph out.1 = graph s -> all_effects unmoved out.2 -> moves [] s out.
Proof.
  intros Hg He. unfold moves. destruct (unmoved_none _ He) as [-> ->]. rewrite Hg.
  split; [done|constructor].
Qed.

Lemma moves_same s out :
  st_Sessions out.1 = st_Sessions s -> all_effects unmoved out.2 -> moves [] s out.
Proof. intros Hs. apply moves_none. unfold graph. by rewrite Hs. Qed.

Lemma graph_set s s' sid sess :
  st_Sessions s' = <[sid := sess]> (st_Sessions s) -> graph s' = <[sid := shape sess]> (graph s).
Proof. intros Hs. unfold graph. by rewrite Hs, fmap_insert. Qed.

(** An operation that writes one session and makes one move. *)
Lemma moves_one s out sid sess ins outs :
  st_Sessions out.1 = <[sid := sess]> (st_Sessions s) ->
  graph_step (graph s) ins outs (<[sid := shape sess]> (graph s)) ->
  spawned out.2 = ins -> unregistered out.2 = outs -> moves ins s out.
Proof.
  intros Hs Hstep Hins <-. split; [done|]. apply graph_steps_one. by rewrite (graph_set s _ sid sess Hs).
Qed.

Lemma graph_lookup s sid sess : st_Sessions s !! sid = Some sess -> graph s !! sid = Some (shape sess).
Proof. intros Hs. unfold graph. by rewrite lookup_fmap, Hs. Qed.

(** ** The frame helpers on shapes *)

Lemma shape_pushMRU sid sess :
  shape_wf sid (shape sess) ->
  ss_MRUFrameIDs (pushMRU sess (ss_HeadFrameID sess)) = shape_remember (shape sess).
Proof.
  intros [_ Hfr Hhead _]. unfold pushMRU, shape_remember. simpl in *.
  destruct Hhead as [[Hnil ->]|Hin].
  - rewrite bool_decide_true by done. by rewrite decide_True.
  - rewrite bool_decide_false by (intros Heq; by rewrite Heq in Hin).
    rewrite decide_False; [done|]. intros Hnil. rewrite Hnil in Hin. by apply elem_of_nil in Hin.
Qed.

Lemma pushMRU_others sess f :
  ss_ID (pushMRU sess f) = ss_ID sess /\ ss_Frames (pushMRU sess f) = ss_Frames sess /\
  ss_EndedAt (pushMRU sess f) = ss_EndedAt sess.
Proof. unfold pushMRU. by case_bool_decide. Qed.

Lemma pushMRU_open sess f :
  pushMRU (sess <| ss_EndedAt := None |>) f = pushMRU sess f <| ss_EndedAt := None |>.
Proof. unfold pushMRU. by case_bool_decide. Qed.

Lemma dedup_NoDup seen ids :
  NoDup ids -> (forall id, id ∈ ids -> id ∉ seen) -> dedup seen ids = ids.
Proof.
  intros Hnd. revert seen. induction Hnd as [|id ids Hid Hnd IH]; intros seen Hs; simpl; [done|].
  rewrite decide_False by (apply Hs; left). f_equal. apply IH.
  intros id' Hin. rewrite elem_of_cons. intros [->|]; [done|]. eapply Hs; [|done]. by right.
Qed.

Lemma first_existing_all existing ids :
  (forall id, id ∈ ids -> id ∈ existing) ->
  first_existing existing ids = match ids with [] => None | id :: rest => Some (id, rest) end.
Proof. destruct ids as [|id ids]; intros Hall; simpl; [done|]. rewrite decide_True; [done|]. apply Hall. left. Qed.

(** Removing a frame and repairing the head. *)
Lemma shape_evict sid sess i frameID :
  shape_wf sid (shape sess) -> f_ID <$> ss_Frames sess !! S i = Some frameID ->
  let sess1 := pruneMRU (bumpFrameGeneration (removeFrameByIndex sess (S i)).1) in
  shape (if bool_decide (ss_HeadFrameID sess = frameID) then fallbackHead sess1 else sess1)
  = shape_close (shape sess) (S i).
Proof.
  intros [_ Hfr _ (Hnd & _ & Hsub)] Hf. simpl in Hfr, Hnd, Hsub.
  assert (f_ID <$> take (S i) (ss_Frames sess) ++ drop (S (S i)) (ss_Frames sess)
          = delete (S i) (f_ID <$> ss_Frames sess)) as Hdel
    by (rewrite delete_take_drop, fmap_app, fmap_take, fmap_drop; done).
  set (frames' := delete (S i) (f_ID <$> ss_Frames sess)) in *.
  set (mru' := filter (fun id => id ∈ frames') (ss_MRUFrameIDs sess)).
  set (sess1 := pruneMRU _).
  assert (shape sess1 = mkShape (ss_ID sess) frames' (ss_HeadFrameID sess) mru' (ss_EndedAt sess)) as Hs1.
  { subst sess1. unfold pruneMRU. simpl. destruct (ss_MRUFrameIDs sess) as [|m ms] eqn:Hm.
    - unfold shape. simpl. rewrite Hdel. by subst mru'; rewrite ?Hm.
    - unfold shape. simpl. rewrite Hdel. f_equal. unfold frame_ids. simpl. rewrite Hdel.
      apply dedup_NoDup; [by apply NoDup_filter|]. intros ? _. apply not_elem_of_nil. }
  intros sess2. subst sess2. unfold shape_close. simpl. fold frames' mru'.
  rewrite list_lookup_fmap, Hf.
  case_bool_decide as Hhead.
  - rewrite decide_True by congruence. unfold fallbackHead, popMRU.
    injection Hs1 as Hid Hframes Hh Hmru Hend. unfold frame_ids. rewrite Hframes, Hmru.
    rewrite first_existing_all by (by intros id [? _]%list_elem_of_filter).
    destruct mru' as [|h rest] eqn:Hm; simpl.
    + unfold shape. simpl. rewrite Hid, Hframes, Hend. f_equal.
      rewrite <- Hframes. by destruct (ss_Frames sess1).
    + assert (h ∈ frames') as Hh'.
      { assert (h ∈ mru') as [? _]%list_elem_of_filter; [subst mru'; rewrite Hm; left|done]. }
      rewrite bool_decide_false; [unfold shape; simpl; by rewrite Hid, Hframes, Hend|].
      intros ->. apply list_elem_of_delete_inv in Hh'. done.
  - rewrite decide_False by congruence. exact Hs1.
Qed.

(** ** The operations *)

Lemma create_moves rnd s sess plan c r :
  fresh_from rnd 0 (graph s) -> graph s !! rnd 0%nat = None ->
  shape sess = mkShape (rnd 0%nat) [rnd 1%nat] (rnd 1%nat) [] None ->
  moves [rnd 1%nat] s (s <| st_Sessions := <[rnd 0%nat := sess]> (st_Sessions s) |>,
           [spawnEffect (rnd 0%nat) (rnd 1%nat) plan c r]).
Proof.
  intros [Hn _] Hs Hsh. eapply moves_one; [reflexivity| |done|done]. rewrite Hsh.
  destruct (Hn 1%nat) as (Hne & Hl); [lia|]. by apply step_create.
Qed.

Lemma push_moves rnd n s sid project command options input c r out :
  graph_wf (graph s) -> fresh_from rnd n (graph s) ->
  pushDriverInternal rnd s n sid project command options input c r = inr out ->
  moves [rnd n] s out.
Proof.
  intros Hwf [Hn _] (sess & frame & plan & Hs & Hid & ->)%push_outcome.
  apply graph_lookup in Hs. pose proof (gw_shape _ Hwf _ _ Hs) as Hsh.
  destruct (Hn n) as (Hne & Hl); [lia|].
  eapply moves_one; [reflexivity| |done|done].
  match goal with |- graph_step _ _ _ (<[_ := shape ?x]> _) =>
    assert (shape x = shape_push (shape sess) (rnd n)) as -> end.
  { pose proof (shape_pushMRU sid sess Hsh) as Hm.
    destruct (pushMRU_others sess (ss_HeadFrameID sess)) as (Hid' & Hfr & Hend).
    unfold shape, shape_push. simpl. by rewrite Hid', Hfr, Hend, Hm, fmap_app, <- Hid. }
  by apply step_push.
Qed.

Lemma findFrameIndex_elem sess frameID :
  is_Some (findFrameIndex sess frameID) -> frameID ∈ sh_Frames (shape sess).
Proof.
  intros [i Hi]. apply find_index_lookup in Hi as (f & Hf & <-). simpl.
  apply list_elem_of_fmap. exists f. split; [done|]. by eapply list_elem_of_lookup_2.
Qed.

Lemma head_moves s sid sess frameID c r :
  graph_wf (graph s) -> st_Sessions s !! sid = Some sess ->
  is_Some (findFrameIndex sess frameID) ->
  moves [] s (s <| st_Sessions := <[sid := pushMRU sess (ss_HeadFrameID sess)
              <| ss_HeadFrameID := frameID |>]> (st_Sessions s) |>,
           [okResp c r BodyNil; EffPersistSnapshot; EffBroadcastSessionsChanged]).
Proof.
  intros Hwf Hs Hf%findFrameIndex_elem. apply graph_lookup in Hs.
  pose proof (gw_shape _ Hwf _ _ Hs) as Hsh. eapply moves_one; [reflexivity| |done|done].
  match goal with |- graph_step _ _ _ (<[_ := shape ?x]> _) =>
    assert (shape x = shape_focus (shape sess) frameID) as -> end.
  { pose proof (shape_pushMRU sid sess Hsh) as Hm.
    destruct (pushMRU_others sess (ss_HeadFrameID sess)) as (Hid & Hfr & Hend).
    unfold shape, shape_focus. simpl. rewrite Hid, Hfr, Hend, Hm. done. }
  by apply step_focus.
Qed.

(** The effects that take down a list of frames. *)
Lemma teardown_effects (frames : list SessionFrame) kill :
  spawned (frame ← frames; frameTeardownEffects (f_ID frame) kill) = [] /\
  unregistered (frame ← frames; frameTeardownEffects (f_ID frame) kill) = f_ID <$> frames.
Proof.
  induction frames as [|f frames [IH1 IH2]]; [done|]. csimpl.
  rewrite spawned_app, unregistered_app, IH1, IH2. by destruct kill.
Qed.

Lemma stop_moves s c r sid : moves [] s (reduceStopSession s c r sid).
Proof.
  unfold reduceStopSession. destruct (st_Sessions s !! sid) as [sess|] eqn:Hs.
  - change (truncateFrames sess 0) with (ss_Frames sess).
    destruct (teardown_effects (ss_Frames sess) true) as [Hsp Hun].
    eapply moves_one; [reflexivity|apply (step_end _ _ (shape sess) (st_Now s)), graph_lookup, Hs|..].
    + cbn [snd]. by rewrite !spawned_app, Hsp.
    + cbn [snd]. by rewrite !unregistered_app, Hun, app_nil_r.
  - apply moves_same; [done|effectly].
Qed.

Lemma ledger_moves s out : ledger_only s out -> moves [] s out.
Proof.
  intros [Hs He]. apply moves_same; [apply (f_equal st_Sessions Hs)|].
  revert He. apply all_impl. by intros [].
Qed.

Lemma evictRoot_moves s sid sess kill disposition :
  st_Sessions s !! sid = Some sess -> moves [] s (evictRootFrame s sid sess kill disposition).
Proof.
  intros Hs. unfold evictRootFrame. change (truncateFrames sess 0) with (ss_Frames sess). cbv zeta.
  set (s1 := s <| st_Sessions := _ |>).
  destruct (cancel_session_only s1 sid) as [[K1 E1] _].
  destruct (cancelApprovalsForSession s1 sid) as [s2 e2]. simpl in K1, E1.
  destruct (cancel_session_only s2 sid) as [_ [K2 E2]].
  destruct (cancelQuestionsForSession s2 sid) as [s3 e3]. simpl in K2, E2.
  apply (f_equal st_Sessions) in K1, K2. simpl in K1, K2.
  destruct (ledger_none _ E1) as [S1 U1]. destruct (ledger_none _ E2) as [S2 U2].
  destruct (teardown_effects (ss_Frames sess) kill) as [St Ut]. apply graph_lookup in Hs.
  unfold moves. cbn [fst snd]. rewrite !spawned_app, !unregistered_app, S1, U1, S2, U2, St, Ut.
  rewrite !app_nil_r. simpl. split; [done|]. apply graph_steps_one.
  assert (graph s3 = graph s1) as -> by (unfold graph; by rewrite K2, K1). subst s1.
  case_bool_decide.
  - erewrite (graph_set s (s <| st_Sessions := _ |>)) by reflexivity.
    by apply (step_end _ _ (shape sess) (st_Now s)).
  - unfold graph. simpl. rewrite fmap_delete. by apply (step_drop _ _ (shape sess)).
Qed.

Lemma evictChild_moves s sid sess i frameID kill :
  graph_wf (graph s) -> st_Sessions s !! sid = Some sess ->
  findFrameIndex sess frameID = Some (S i) ->
  moves [] s (evictChildFrame s sid sess (S i) frameID kill).
Proof.
  intros Hwf Hs (f & Hf & Hid)%find_index_lookup. unfold evictChildFrame.
  apply graph_lookup in Hs. pose proof (gw_shape _ Hwf _ _ Hs) as Hsh.
  pose proof (shape_evict sid sess i frameID Hsh) as Hshape. rewrite Hf in Hshape.
  specialize (Hshape (f_equal Some Hid)). cbv zeta in Hshape |- *.
  assert ((removeFrameByIndex sess (S i)).2 = Some f) as Hrem by done.
  destruct (removeFrameByIndex sess (S i)) as [sess1 removed]. cbn [fst snd] in Hshape, Hrem.
  subst removed. revert Hshape. generalize (if bool_decide (ss_HeadFrameID sess = frameID)
    then fallbackHead (pruneMRU (bumpFrameGeneration sess1))
    else pruneMRU (bumpFrameGeneration sess1)) as sess'. intros sess' Hshape.
  set (s1 := s <| st_Sessions := _ |>).
  destruct (cancel_frame_only s1 frameID) as [[K1 E1] _].
  destruct (cancelApprovalsForFrame s1 frameID) as [s2 e2]. simpl in K1, E1.
  destruct (cancel_frame_only s2 frameID) as [_ [K2 E2]].
  destruct (cancelQuestionsForFrame s2 frameID) as [s3 e3]. simpl in K2, E2.
  apply (f_equal st_Sessions) in K1, K2. simpl in K1, K2.
  destruct (ledger_none _ E1) as [S1 U1]. destruct (ledger_none _ E2) as [S2 U2].
  apply (moves_one s _ sid sess' [] [frameID]); cbn [fst snd].
  - by rewrite K2, K1.
  - rewrite Hshape. apply step_close; [done|]. simpl. rewrite list_lookup_fmap, Hf. simpl. by f_equal.
  - rewrite !spawned_app, S1, S2. by destruct kill.
  - rewrite !unregistered_app, U1, U2. simpl. rewrite Hid. by destruct kill.
Qed.

Lemma evict_moves s frameID kill disposition out :
  graph_wf (graph s) -> evictFrame s frameID kill disposition = Some out -> moves [] s out.
Proof.
  intros Hwf. unfold evictFrame. destruct (findFrame s frameID) as [[[sid sess] idx]|] eqn:Hf; [|done].
  apply findFrame_lookup in Hf as [Hs Hi]. simpl. case_bool_decide; intros [= <-].
  - by apply evictRoot_moves.
  - destruct idx as [|i]; [done|]. by apply evictChild_moves.
Qed.

Ltac same_out := apply moves_same; [done|cbn; effectly].

(** Repository events touch the sessions only to commit a new one. *)
Lemma repository_moves s e : moves [] s (reduceRepository s e).
Proof.
  destruct (reduceRepository_only s e) as [_ He Hs].
  assert (all_effects unmoved (reduceRepository s e).2) as Hu
    by (revert He; apply all_impl; by intros []).
  destruct Hs as [Hs|(Hnew & p & Hs)]; [by apply moves_same|].
  destruct (unmoved_none _ Hu) as [Hsp Hun]. eapply moves_one; [exact Hs| |done|done].
  apply step_commit. unfold graph. by rewrite lookup_fmap, Hnew.
Qed.

Lemma bookkeeping_moves s :
  (forall c, moves [] s (reduceConnOpened s c)) /\ (forall c, moves [] s (reduceConnClosed s c)) /\
  (forall e, moves [] s (reduceSurfaceSubscribe s e)) /\
  (forall e, moves [] s (reduceSurfaceUnsubscribe s e)) /\
  (forall c r, moves [] s (reduceShutdown s c r)).
Proof.
  split_and!; intros;
    unfold reduceConnOpened, reduceConnClosed, reduceSurfaceSubscribe, reduceSurfaceUnsubscribe,
      reduceShutdown; cbv zeta; repeat case_match; simplify_eq/=; same_out.
Qed.

Lemma lifecycle_moves s :
  (forall id, moves [] s (reduceShutdownSaveSucceeded s id)) /\
  (forall id err, moves [] s (reduceShutdownSaveFailed s id err)) /\
  (forall e, moves [] s (reduceShutdownCleanupFinished s e)).
Proof.
  split_and!; intros;
    unfold reduceShutdownSaveSucceeded, reduceShutdownSaveFailed, reduceShutdownCleanupFinished;
    (destruct (currentShutdown _ _); [|same_out]); [same_out..|].
  destruct (ecf_Outcome e); same_out.
Qed.

(** ** Every operation is a sequence of moves *)

(** A push draws one id, every other operation none. *)
Lemma primitive_moves rnd n k s out :
  graph_wf (graph s) -> fresh_from rnd n (graph s) -> primitive rnd n k s out ->
  (k = n /\ moves [] s out) \/ (k = S n /\ moves [rnd n] s out).
Proof.
  intros Hwf Hfresh Hp. destruct (bookkeeping_moves s) as (B1 & B2 & B3 & B4 & B5).
  destruct (lifecycle_moves s) as (L1 & L2 & L3). destruct ledger_ops_only as (K1 & K2 & K3 & K4).
  destruct Hp as [n s s' effs [_ Hg _] He| | | | | | | | | | | |n s now|n s now| | | | | | | | | | |];
    try (right; split; [done|by eapply push_moves]); left; (split; [done|]);
    eauto using head_moves, stop_moves, evict_moves, repository_moves, ledger_moves,
      subsystem_ops_only.
  - apply moves_none; [done|by apply plain_unmoved].
  - apply ledger_moves, expiry_only.
  - apply ledger_moves, expiry_only.
  - same_out.
  - same_out.
Qed.

(** What a move spawns is no longer fresh, the rest still is. *)
Lemma moves_fresh rnd n k ins s out :
  fresh_from rnd n (graph s) -> moves ins s out -> (n <= k)%nat ->
  (forall i, (k <= i)%nat -> rnd i ∉ ins) -> fresh_from rnd k (graph out.1).
Proof.
  intros [Hn Hinj] [_ Hsteps] Hle Hout. split; [|intros; apply Hinj; (lia || done)].
  intros i Hi. destruct (Hn i) as [Hne Hl]; [lia|]. split; [done|].
  pose proof (graph_steps_live _ _ _ _ (rnd i) Hsteps) as Hl'.
  assert (times (rnd i) ins = 0) as Ht.
  { pose proof (times_nonneg (rnd i) ins). pose proof (times_elem (rnd i) ins) as [_ Hin].
    destruct (decide (times (rnd i) ins = 0)); [done|]. exfalso. apply (Hout i Hi), Hin. lia. }
  pose proof (live_nonneg (rnd i) (graph out.1)). pose proof (times_nonneg (rnd i) (unregistered out.2)).
  lia.
Qed.

Lemma prims_moves rnd n s out :
  prims rnd n s out -> graph_wf (graph s) -> fresh_from rnd n (graph s) ->
  graph_steps (graph s) (spawned out.2) (unregistered out.2) (graph out.1).
Proof.
  induction 1 as [n s|n m k s s1 effs1 s2 effs2 Hle Hp Hps IH]; intros Hwf Hf; [constructor|].
  assert (fresh_from rnd m (graph s)) as Hfm.
  { destruct Hf as [Hn Hinj]. split; intros; [apply Hn|apply Hinj]; (lia || done). }
  assert (moves (spawned effs1) s (s1, effs1) /\ fresh_from rnd k (graph s1)) as [[_ Hm] Hfk].
  { destruct (primitive_moves rnd m k s (s1, effs1) Hwf Hfm Hp) as [[-> Hm]|[-> Hm]];
      destruct (Hm) as [Hsp Hst]; cbn [fst snd] in Hsp; rewrite Hsp; (split; [done|]).
    - eapply (moves_fresh rnd m m _ s (s1, effs1)); [done|done|lia|]. intros. apply not_elem_of_nil.
    - eapply (moves_fresh rnd m (S m) _ s (s1, effs1)); [done|done|lia|].
      intros i Hi ->%list_elem_of_singleton%(ff_inj _ _ _ Hfm); lia. }
  simpl in *. rewrite spawned_app, unregistered_app.
  eapply graph_steps_trans; [exact Hm|]. apply IH; [by eapply graph_steps_wf|done].
Qed.

Context `{!PoliteDrivers}.

(** The draws of one event: distinct, non-empty, naming neither a frame nor a
    session of the current state. *)
Definition fresh_draws rnd s : Prop :=
  fresh_from rnd 0 (graph s) /\ graph s !! rnd 0%nat = None.

Lemma Reduce_graph_steps rnd s ev s' effs :
  graph_wf (graph s) -> fresh_draws rnd s -> Reduce rnd s ev = Some (s', effs) ->
  graph_steps (graph s) (spawned effs) (unregistered effs) (graph s').
Proof.
  intros Hwf [Hf Hs] Hr. pose proof (Reduce_decomposes _ _ _ _ Hr) as Hd.
  remember (s', effs) as out eqn:Hout.
  destruct Hd as [sess plan c r Hsh _|out Hp].
  - pose proof (create_moves rnd s sess plan c r Hf Hs Hsh) as [Hsp Hm].
    simplify_eq/=. exact Hm.
  - pose proof (prims_moves rnd 0 s out Hp Hwf Hf) as Hm. by subst out.
Qed.

(** C2: the reducer refines the session graph machine.  From a state whose graph
    is well formed, with fresh draws, every event that does not panic changes the
    graph by a sequence of the machine's moves (create, push, focus, close, end,
    drop, commit) in which the frames brought in are exactly those the effects
    spawn and the frames taken out exactly those the effects unregister; the graph
    is well formed again. *)
Theorem Reduce_refines_graph rnd s ev s' effs :
  graph_wf (graph s) -> fresh_draws rnd s -> Reduce rnd s ev = Some (s', effs) ->
  graph_steps (graph s) (spawned effs) (unregistered effs) (graph s') /\ graph_wf (graph s').
Proof.
  intros Hwf Hf Hr. pose proof (Reduce_graph_steps rnd s ev s' effs Hwf Hf Hr) as Hsteps.
  split; [done|]. by eapply graph_steps_wf.
Qed.

(** A run of the reducer in which every event has fresh draws. *)
Inductive fresh_run s : list Effect -> State -> Prop :=
| fresh_start : fresh_run s [] s
| fresh_event effs s' draws ev effs' s'' :
    fresh_run s effs s' -> fresh_draws draws s' -> Reduce draws s' ev = Some (s'', effs') ->
    fresh_run s (effs ++ effs') s''.

(** The invariant of a run, for any drivers that emit what drivers may. *)
Lemma fresh_run_graph effs s :
  fresh_run New effs s ->
  graph_wf (graph s) /\
  forall frameID, times frameID (spawned effs) = times frameID (unregistered effs) + live frameID (graph s).
Proof.
  intros Hrun. induction Hrun as [|effs s1 draws ev effs' s2 Hrun [Hwf Hbooks] Hfresh Hr].
  - split; [|done]. split; [|done]. intros sid sh Hs. unfold graph in Hs. simpl in Hs.
    by rewrite fmap_empty, lookup_empty in Hs.
  - pose proof (Reduce_graph_steps draws s1 ev s2 effs' Hwf Hfresh Hr) as Hsteps.
    split; [by eapply graph_steps_wf|]. intros f. specialize (Hbooks f).
    pose proof (graph_steps_live _ _ _ _ f Hsteps).
    rewrite spawned_app, unregistered_app, !times_app. lia.
Qed.

(** The session graph invariant.  In every state a run from the initial state
    reaches, sessions are stored under their own id, no frame id occurs twice in the
    whole graph, the head of a session with frames is one of them, and the
    most-recently-used list has at most 16 distinct entries, all of them frames of
    the session.  And the books of every frame id balance: it has been spawned once
    more than it has been unregistered exactly when it is in the graph. *)
Theorem session_graph_invariant effs s :
  fresh_run New effs s ->
  graph_wf (graph s) /\
  forall frameID, times frameID (spawned effs) = times frameID (unregistered effs) + live frameID (graph s).
Proof. apply fresh_run_graph. Qed.

(** The head.  In a state with a well-formed graph the head frame of a session
    is the frame its head id names; the fallback of [headFrame] to the last frame is
    never taken. *)
Lemma headFrame_is_head s sid sess :
  graph_wf (graph s) -> st_Sessions s !! sid = Some sess -> ss_Frames sess <> [] ->
  exists f, headFrame sess = Some f /\ f ∈ ss_Frames sess /\ f_ID f = ss_HeadFrameID sess.
Proof.
  intros Hwf Hs Hne. apply graph_lookup in Hs. pose proof (gw_shape _ Hwf _ _ Hs) as [_ Hfr Hhead _].
  simpl in Hfr, Hhead. destruct Hhead as [[Hnil _]|Hin]; [by apply fmap_nil_inv in Hnil|].
  assert (ss_HeadFrameID sess <> "") as Hh by (intros Heq; by rewrite Heq in Hin).
  apply list_elem_of_fmap in Hin as (g & Hg & Hgin).
  unfold headFrame. destruct (ss_Frames sess) as [|f0 fs]; [done|].
  rewrite bool_decide_false by done. unfold find_frame_by_id.
  destruct (filter _ _) as [|f l] eqn:Hl.
  - exfalso. assert (g ∈ filter (fun f => f_ID f = ss_HeadFrameID sess) (f0 :: fs)) as Hx
      by (by apply list_elem_of_filter). rewrite Hl in Hx. by apply elem_of_nil in Hx.
  - exists f. assert (f ∈ filter (fun f => f_ID f = ss_HeadFrameID sess) (f0 :: fs)) as [? ?]%list_elem_of_filter
      by (rewrite Hl; left). done.
Qed.

(** C40: an ended session can come back.  A push onto a session that has ended is
    refused or accepted exactly as if the session had not ended.  When it is accepted, it
    asks for the same process, adds the frame and makes it the head, and the session
    still carries its end time: the reducer does not look at it. *)
Theorem push_revives_ended rnd n s sid sess project command options input c r :
  st_Sessions s !! sid = Some sess -> Ended sess = true ->
  let open := s <| st_Sessions := <[sid := sess <| ss_EndedAt := None |>]> (st_Sessions s) |> in
  match pushDriverInternal rnd open n sid project command options input c r with
  | inl err => pushDriverInternal rnd s n sid project command options input c r = inl err
  | inr (open', effs) => exists sess',
      pushDriverInternal rnd s n sid project command options input c r
        = inr (s <| st_Sessions := <[sid := sess']> (st_Sessions s) |>, effs) /\
      st_Sessions open' !! sid = Some (sess' <| ss_EndedAt := None |>) /\
      Ended sess' = true /\ f_ID <$> last (ss_Frames sess') = Some (rnd n) /\ ss_HeadFrameID sess' = rnd n
  end.
Proof.
  intros Hs He open. set (sess0 := sess <| ss_EndedAt := None |>).
  assert (st_Sessions open !! sid = Some sess0) as Ho by apply lookup_insert_eq.
  unfold pushDriverInternal. rewrite Hs, Ho. cbv zeta.
  change (resolveCreateCommand open command) with (resolveCreateCommand s command).
  change (rootFrame sess0) with (rootFrame sess). change (ss_Project sess0) with (ss_Project sess).
  change (ss_HeadFrameID sess0) with (ss_HeadFrameID sess).
  change (st_Now open) with (st_Now s). change (prepareSessionDriver open) with (prepareSessionDriver s).
  destruct (GetDriver _) as [drv|]; [|reflexivity].
  destruct (prepareSessionDriver _ _ _ _ _ _) as [err|[ds launch]]; [reflexivity|].
  destruct (drv_PrepareLaunch _ _ _ _ _ _) as [err|plan]; [reflexivity|].
  eexists. split; [reflexivity|]. unfold sess0. rewrite pushMRU_open. simpl. rewrite lookup_insert_eq.
  destruct (pushMRU_others sess (ss_HeadFrameID sess)) as (_ & _ & Hend).
  unfold Ended in *. simpl. rewrite Hend, last_snoc. done.
Qed.

End GraphRun.

(** The lookup of a frame does not depend on the iteration order of Go maps.
    When every frame id occurs at most once, [findFrame] returns the session and
    index that have it, whatever order the loop over the sessions takes. *)
Theorem findFrame_order_independent (R1 R2 : GoMapRange) {HT : HostTypes} (s : State) frameID :
  graph_wf (graph s) ->
  @findFrame R1 HT s frameID = @findFrame R2 HT s frameID /\
  (forall sid sess, st_Sessions s !! sid = Some sess -> frameID ∈ f_ID <$> ss_Frames sess ->
     exists i, @findFrame R1 HT s frameID = Some (sid, sess, i) /\ findFrameIndex sess frameID = Some i).
Proof.
  intros Hwf. destruct (live_unique _ (gw_unique _ Hwf)) as [_ Hone].
  assert (forall (R : GoMapRange) sid sess i,
    st_Sessions s !! sid = Some sess -> findFrameIndex sess frameID = Some i ->
    @findFrame R HT s frameID = Some (sid, sess, i)) as Hfind.
  { intros R sid sess i Hs Hi. eapply range_find_unique; [exact Hs|by rewrite Hi|].
    intros sid' sess' b' Hs' Hb'. destruct (findFrameIndex sess' frameID) as [i'|] eqn:Hi'; [|done].
    assert (sid' = sid) as ->; [|simplify_eq/=; congruence].
    eapply (Hone sid' sid _ _ frameID); try (by apply graph_lookup); apply findFrameIndex_elem; eauto. }
  split.
  - destruct (@findFrame R1 HT s frameID) as [[[sid sess] i]|] eqn:Hf.
    + apply findFrame_lookup in Hf as [Hs Hi]. symmetry. by apply Hfind.
    + destruct (@findFrame R2 HT s frameID) as [[[sid sess] i]|] eqn:Hf2; [|done].
      apply findFrame_lookup in Hf2 as [Hs Hi]. by rewrite (Hfind R1 _ _ _ Hs Hi) in Hf.
  - intros sid sess Hs Hin. destruct (findFrameIndex sess frameID) as [i|] eqn:Hi; eauto.
    exfalso. revert Hi Hin. unfold findFrameIndex. clear. induction (ss_Frames sess) as [|f fs IH]; simpl.
    + intros _ ?%elem_of_nil. done.
    + case_decide; [done|]. destruct (find_index fs frameID); [done|].
      intros _ [->|?]%elem_of_cons; [done|auto].
Qed.

(** ** Concrete runs *)

Section Stories.
Context `{GoMapRange} `{DriverSys} `{PayloadCodec}.

(** The draws of an event start with a letter of its own. *)
Definition letter_draws (c : Ascii.ascii) (i : nat) : string := String c (pretty i).

Definition starts (c : Ascii.ascii) (x : string) : bool :=
  match x with EmptyString => false | String d _ => bool_decide (d = c) end.

Definition letter_unused (c : Ascii.ascii) (s : State) : bool :=
  forallb (fun p => negb (starts c p.1) && forallb (fun f => negb (starts c f)) (sh_Frames p.2))
    (map_to_list (graph s)).

Lemma live_absent f G :
  (forall sid sh, G !! sid = Some sh -> f ∉ sh_Frames sh) -> live f G = 0.
Proof.
  induction G as [|sid sh G Hs IH] using map_ind; intros Hall; [done|].
  rewrite live_insert, (delete_id _ _ Hs), IH.
  - pose proof (times_nonneg f (sh_Frames sh)). pose proof (times_elem f (sh_Frames sh)) as [_ Hin].
    destruct (decide (times f (sh_Frames sh) = 0)); [lia|]. exfalso.
    apply (Hall sid sh); [by rewrite lookup_insert_eq|]. apply Hin. lia.
  - intros sid' sh' Hs'. apply (Hall sid'). rewrite lookup_insert_ne; [done|]. congruence.
Qed.

Lemma letter_draws_fresh c s : letter_unused c s = true -> fresh_draws (letter_draws c) s.
Proof.
  unfold letter_unused. rewrite forallb_forall. intros Hall.
  assert (forall sid sh, graph s !! sid = Some sh ->
    starts c sid = false /\ forall f, f ∈ sh_Frames sh -> starts c f = false) as Hno.
  { intros sid sh Hs%elem_of_map_to_list%list_elem_of_In%Hall. simpl in Hs.
    apply andb_true_iff in Hs as [Hsid Hf]. split; [by apply negb_true_iff|].
    rewrite forallb_forall in Hf. intros f Hin%list_elem_of_In%Hf. by apply negb_true_iff. }
  assert (forall i, starts c (letter_draws c i) = true) as Hst
    by (intros i; simpl; by apply bool_decide_true).
  split; [split|].
  - intros i _. split; [done|]. apply live_absent. intros sid sh Hs Hin.
    apply (Hno sid sh Hs) in Hin. by rewrite Hst in Hin.
  - intros i j _ _ [= Heq]. by apply (inj pretty) in Heq.
  - destruct (graph s !! letter_draws c 0) as [sh|] eqn:Hs; [|done].
    apply Hno in Hs as [Hs _]. by rewrite Hst in Hs.
Qed.

Fixpoint tell (s : State) (story : list (Ascii.ascii * Event)) : option (State * list Effect) :=
  match story with
  | [] => Some (s, [])
  | (c, ev) :: rest =>
    if letter_unused c s then
      '(s', effs) ← Reduce (letter_draws c) s ev; '(s'', effs') ← tell s' rest;
      Some (s'', effs ++ effs')
    else None
  end.

Lemma tell_run s0 effs0 s story s' effs :
  fresh_run s0 effs0 s -> tell s story = Some (s', effs) -> fresh_run s0 (effs0 ++ effs) s'.
Proof.
  revert effs0 s effs. induction story as [|[c ev] story IH]; intros effs0 s effs Hrun; simpl.
  - intros [= <- <-]. by rewrite app_nil_r.
  - destruct (letter_unused c s) eqn:Hc; [|done].
    destruct (Reduce (letter_draws c) s ev) as [[s1 e1]|] eqn:Hred; [|done]. simpl.
    destruct (tell s1 story) as [[s2 e2]|] eqn:Hp; [|done]. simpl. intros [= <- <-].
    rewrite app_assoc. eapply IH; [|done].
    eapply fresh_event; [done|by apply letter_draws_fresh|done].
Qed.

End Stories.

Module GraphDemo.
Import HostDemo InputDemo.

(** Creating a session, pushing a second frame, going back to the first, and the
    second process ending. *)
Definition demo_story : list (Ascii.ascii * Event) :=
  [("a"%char, creates);
   ("b"%char, EvEvent_ (mkEvEvent 3 "p" EventPushDriver "a0"));
   ("c"%char, EvFrameCommandExited_ (mkEvCommandExited "b0" 0))].

Definition story_end (n : nat) : State * list Effect := default (New, []) (tell New (take n demo_story)).

Lemma story_run n : fresh_run New (story_end n).2 (story_end n).1.
Proof.
  unfold story_end. destruct (tell New (take n demo_story)) as [[s effs]|] eqn:Ht; simpl; [|constructor].
  apply (tell_run New [] New _ _ _ (fresh_start New) Ht).
Qed.

Lemma session_graph_invariant_witness :
  graph_wf (graph (story_end 3).1) /\
  times "b0" (spawned (story_end 3).2) = times "b0" (unregistered (story_end 3).2) /\
  live "a1" (graph (story_end 3).1) = 1.
Proof.
  destruct (session_graph_invariant _ _ (story_run 3)) as [Hwf Hbooks].
  split; [exact Hwf|]. split; [|vm_compute; reflexivity].
  rewrite (Hbooks "b0").
  assert (live "b0" (graph (story_end 3).1) = 0) as -> by (vm_compute; reflexivity). lia.
Defined.

Lemma story_wf n : graph_wf (graph (story_end n).1).
Proof.
  generalize (story_run n). generalize (story_end n). intros [s effs] Hrun. simpl in *.
  induction Hrun as [|effs s1 draws ev effs' s2 Hrun IH Hf Hr].
  - split; [|done]. intros sid sh Hs. unfold graph in Hs. simpl in Hs.
    by rewrite fmap_empty, lookup_empty in Hs.
  - eapply graph_steps_wf; [by eapply Reduce_graph_steps|done].
Qed.

Definition exit_event : Event := EvFrameCommandExited_ (mkEvCommandExited "b0" 0).

Definition exit_effects : list Effect :=
  (default (New, []) (Reduce (letter_draws "c"%char) (story_end 2).1 exit_event)).2.

Lemma Reduce_refines_graph_witness :
  graph_steps (graph (story_end 2).1) [] ["b0"] (graph (story_end 3).1) /\
  graph_wf (graph (story_end 3).1).
Proof.
  destruct (Reduce_refines_graph (letter_draws "c"%char) (story_end 2).1 exit_event
    (story_end 3).1 exit_effects) as [Hsteps Hwf].
  - apply story_wf.
  - apply letter_draws_fresh. vm_compute. reflexivity.
  - vm_compute. reflexivity.
  - assert (spawned exit_effects = []) as Hs by (vm_compute; reflexivity).
    assert (unregistered exit_effects = ["b0"]) as Hu by (vm_compute; reflexivity).
    rewrite Hs, Hu in Hsteps. split; [exact Hsteps|exact Hwf].
Defined.

Definition demo_two : Session := default (demo_session "" []) (st_Sessions (story_end 2).1 !! "a0").

(** The demo session, ended. *)
Definition ended_state : State := (reduceStopSession demo_state 1 "r" "s1").1.

Definition ended_session : Session := default (demo_session "" []) (st_Sessions ended_state !! "s1").

(** Pushing a shell onto it is accepted. *)
Lemma push_revives_ended_witness :
  exists sess' effs, pushDriverInternal (letter_draws "p"%char) ended_state 0 "s1" "" "shell" zero_options "" 0 ""
      = inr (ended_state <| st_Sessions := <["s1" := sess']> (st_Sessions ended_state) |>, effs) /\
    Ended sess' = true /\ f_ID <$> last (ss_Frames sess') = Some "p0" /\ ss_HeadFrameID sess' = "p0".
Proof.
  assert (st_Sessions ended_state !! "s1" = Some ended_session) as Hs by (vm_compute; reflexivity).
  assert (Ended ended_session = true) as He by (vm_compute; reflexivity).
  pose proof (push_revives_ended (letter_draws "p"%char) 0 ended_state "s1" ended_session "" "shell"
    zero_options "" 0 "" Hs He) as Hpush. cbv zeta in Hpush.
  destruct (pushDriverInternal _ _ _ _ _ _ _ _ _ _) as [err|[open' effs]] eqn:Eo in Hpush.
  - exfalso. vm_compute in Eo. discriminate Eo.
  - destruct Hpush as (sess' & H1 & _ & H2 & H3 & H4). exists sess', effs. auto.
Defined.

Lemma findFrame_order_independent_witness :
  exists i, findFrame (story_end 2).1 "b0" = Some ("a0", demo_two, i) /\
    findFrameIndex demo_two "b0" = Some i.
Proof.
  apply (findFrame_order_independent canonical_range canonical_range (story_end 2).1 "b0").
  - apply story_wf.
  - vm_compute. reflexivity.
  - apply list_elem_of_In. vm_compute. auto.
Defined.

End GraphDemo.
