(* ===== verification/HostClients.v ===== *)
(** * host/state: surface subscriptions and the shutdown protocol

    What the reducer promises to connected clients over whole runs: every surface
    subscription that is started is stopped once, at most eight per connection are
    open, and a shutdown is a transaction that completes exactly once; and what
    happens to events while it is under way. *)

From S2P Require Import Prelude HostState HostFrames HostInput HostSession HostCapsule HostHandlers.
From S2P Require Import HostRepo HostReduce HostDriverFacts HostSteps HostInputRun HostFrames.

Section Clients.
Context `{GoMapRange} `{DriverSys} `{PayloadCodec}.
Implicit Types (s : State) (effs : list Effect) (rnd : nat -> string).

(** ** The operations that matter here *)

(** The part of the state the two protocols use. *)
Definition side s := (st_SurfaceSubs s, st_Lifecycle s, st_Shutdown s, st_NextShutdownID s).

Definition neutral (e : Effect) : bool :=
  match e with
  | EffSurfaceSubscribeStart _ _ _ _ _ | EffSurfaceSubscribeStop _ _ _
  | EffCommitShutdownSessions _ | EffReleaseFrames _ | EffCompleteShutdown _
  | EffTerminateRuntime => false
  | _ => true
  end.

Inductive client_op s : State * list Effect -> Prop :=
| op_neutral out : side out.1 = side s -> all_effects neutral out.2 -> client_op s out
| op_closed c : client_op s (reduceConnClosed s c)
| op_subscribe e : client_op s (reduceSurfaceSubscribe s e)
| op_unsubscribe e : client_op s (reduceSurfaceUnsubscribe s e)
| op_shutdown c r : client_op s (reduceShutdown s c r)
| op_saved id : client_op s (reduceShutdownSaveSucceeded s id)
| op_save_failed id err : client_op s (reduceShutdownSaveFailed s id err)
| op_cleaned e : client_op s (reduceShutdownCleanupFinished s e).

Lemma plain_neutral effs : all_effects plain effs -> all_effects neutral effs.
Proof. apply all_impl. by intros []. Qed.

Lemma ledger_neutral s out : ledger_only s out -> side out.1 = side s /\ all_effects neutral out.2.
Proof.
  intros [Hs He]. split; [apply (f_equal side Hs)|]. revert He. apply all_impl. by intros [].
Qed.

Lemma ledger_client s out : ledger_only s out -> client_op s out.
Proof. intros [Hs He]%ledger_neutral. by apply op_neutral. Qed.

Lemma evict_neutral s frameID kill disposition out :
  evictFrame s frameID kill disposition = Some out ->
  side out.1 = side s /\ all_effects neutral out.2.
Proof.
  assert (forall f k, all_effects neutral (frameTeardownEffects f k)) as Ht
    by (intros f [|]; repeat constructor).
  unfold evictFrame. destruct (findFrame s frameID) as [[[sid sess] idx]|]; [|done]. simpl.
  case_bool_decide; intros [= <-].
  - unfold evictRootFrame. cbv zeta. set (s1 := s <| st_Sessions := _ |>).
    destruct (cancel_session_only s1 sid) as [[K1 E1]%ledger_neutral _].
    destruct (cancelApprovalsForSession s1 sid) as [s2 e2].
    destruct (cancel_session_only s2 sid) as [_ [K2 E2]%ledger_neutral].
    destruct (cancelQuestionsForSession s2 sid) as [s3 e3]. simpl in *.
    split; [by rewrite K2, K1|]. effectly.
  - unfold evictChildFrame. destruct (removeFrameByIndex sess idx) as [sess1 removed]. cbv zeta.
    set (s1 := s <| st_Sessions := _ |>).
    destruct (cancel_frame_only s1 frameID) as [[K1 E1]%ledger_neutral _].
    destruct (cancelApprovalsForFrame s1 frameID) as [s2 e2].
    destruct (cancel_frame_only s2 frameID) as [_ [K2 E2]%ledger_neutral].
    destruct (cancelQuestionsForFrame s2 frameID) as [s3 e3]. cbn [fst snd] in *.
    split; [by rewrite K2, K1|]. apply all_app; [done|]. apply all_app; [apply Ht|]. effectly.
Qed.

Lemma repository_neutral s e :
  side (reduceRepository s e).1 = side s /\ all_effects neutral (reduceRepository s e).2.
Proof.
  destruct (reduceRepository_only s e) as [Hs He _].
  split; [apply (f_equal side Hs)|]. revert He. apply all_impl. by intros [].
Qed.

(** Every operation of the reducer is one of these. *)
Lemma primitive_client rnd n k s out : primitive rnd n k s out -> client_op s out.
Proof.
  intros Hp. destruct ledger_ops_only as (K1 & K2 & K3 & K4).
  destruct Hp as [n s s' effs [Hc _] He|n s sid project command options input c r out Hp
    |n s sid sess f c r Hs Hf|n s c r sid|n s f kill d out Hev| | | | | | | | | |n s c| | | | | |n s e| | | |];
    try (by constructor); eauto using ledger_client, subsystem_ops_only.
  - apply op_neutral; [apply (f_equal side Hc)|by apply plain_neutral].
  - apply push_outcome in Hp as (sess & frame & plan & _ & _ & ->).
    apply op_neutral; [done|cbn; effectly].
  - apply op_neutral; [done|effectly].
  - apply op_neutral; unfold reduceStopSession; destruct (st_Sessions s !! sid); try done;
      cbn; effectly.
  - by apply op_neutral; eapply evict_neutral.
  - apply ledger_client, expiry_only.
  - apply ledger_client, expiry_only.
  - apply op_neutral; unfold reduceConnOpened; destruct (_ <? _); try done; effectly.
  - apply op_neutral; [done|effectly].
  - apply op_neutral; [done|effectly].
  - by apply op_neutral; apply repository_neutral.
Qed.

(** ** Lifting a contract to runs *)

Section Lift.
Variable contract : State -> list Effect -> State -> Prop.
Hypothesis contract_nil : forall s, contract s [] s.
Hypothesis contract_app : forall s effs s1 effs1 s2,
  contract s effs s1 -> contract s1 effs1 s2 -> contract s (effs ++ effs1) s2.
Hypothesis contract_op : forall s out, client_op s out -> contract s out.2 out.1.
Context `{!PoliteDrivers}.

Lemma Reduce_lift rnd s ev out : Reduce rnd s ev = Some out -> contract s out.2 out.1.
Proof.
  intros Hr. destruct (Reduce_decomposes _ _ _ _ Hr) as [sess plan c r Hsh|out' Hp].
  - by apply contract_op, op_neutral; [done|effectly].
  - clear Hr. induction Hp as [n s|n m k s s1 effs1 s2 effs2 _ Hp _ IH]; [apply contract_nil|].
    eapply contract_app; [|exact IH].
    apply (contract_op s (s1, effs1)). by eapply primitive_client.
Qed.

Lemma run_lift s effs s' : host_run s effs s' -> contract s effs s'.
Proof.
  induction 1 as [|effs s1 draws ev effs' s2 _ IH Hr]; [apply contract_nil|].
  eapply contract_app; [exact IH|]. apply (Reduce_lift _ _ _ _ Hr).
Qed.
End Lift.

(** ** Surface subscriptions *)

Definition started effs : list (ConnID * SurfaceSubscription) :=
  omap (fun e => match e with
    | EffSurfaceSubscribeStart c sid sub _ _ => Some (c, mkSub sid sub) | _ => None end) effs.
Definition stopped effs : list (ConnID * SurfaceSubscription) :=
  omap (fun e => match e with
    | EffSurfaceSubscribeStop c sid sub => Some (c, mkSub sid sub) | _ => None end) effs.

Definition subscribed s (x : ConnID * SurfaceSubscription) : Z :=
  match st_SurfaceSubs s !! x.1 with
  | Some inner => if decide (is_Some (inner !! x.2)) then 1 else 0
  | None => 0
  end.

Definition surfaces_ok s : Prop :=
  forall c inner, st_SurfaceSubs s !! c = Some inner -> (1 <= size inner <= maxSurfaceSubs)%nat.

Definition surface_contract s effs s' : Prop :=
  (surfaces_ok s -> surfaces_ok s') /\
  forall x, subscribed s x + times x (started effs) = subscribed s' x + times x (stopped effs).

Lemma surface_contract_app s effs s1 effs1 s2 :
  surface_contract s effs s1 -> surface_contract s1 effs1 s2 ->
  surface_contract s (effs ++ effs1) s2.
Proof.
  intros [W1 B1] [W2 B2]. split; [auto|]. intros x. specialize (B1 x). specialize (B2 x).
  unfold started, stopped in *. rewrite !omap_app, !times_app. lia.
Qed.

(** An operation that does not touch the subscriptions. *)
Definition no_surface (e : Effect) : bool :=
  match e with
  | EffSurfaceSubscribeStart _ _ _ _ _ | EffSurfaceSubscribeStop _ _ _ => false
  | _ => true
  end.

Lemma surface_contract_same s effs s' :
  st_SurfaceSubs s' = st_SurfaceSubs s -> all_effects no_surface effs -> surface_contract s effs s'.
Proof.
  intros Hs He. unfold surface_contract. assert (started effs = [] /\ stopped effs = []) as [-> ->].
  { induction He as [|[] effs He _ [IH1 IH2]]; simplify_eq/=; auto. }
  unfold surfaces_ok, subscribed. by rewrite Hs.
Qed.

Lemma closed_stops c (inner : gmap SurfaceSubscription SurfaceGeometry) x :
  times x (stopped ((fun sub => EffSurfaceSubscribeStop c (sub_SessionID sub.1)
                                  (sub_SubscriberID sub.1)) <$> range inner))
  = if decide (x.1 = c /\ is_Some (inner !! x.2)) then 1 else 0.
Proof.
  assert (stopped ((fun sub => EffSurfaceSubscribeStop c (sub_SessionID sub.1)
            (sub_SubscriberID sub.1)) <$> range inner) = (fun k => (c, k)) <$> (range inner).*1) as ->.
  { unfold stopped. induction (range inner) as [|[[sid sub] g] l IH]; [done|]. csimpl. by rewrite IH. }
  assert (NoDup ((fun k => (c, k)) <$> (range inner).*1)) as Hnd.
  { apply NoDup_fmap_2; [by intros ?? [= ->]|]. apply NoDup_range_keys. }
  assert (x ∈ (fun k => (c, k)) <$> (range inner).*1 <-> x.1 = c /\ is_Some (inner !! x.2)) as Hin.
  { destruct x as [c' key]. rewrite list_elem_of_fmap. simpl. split.
    - intros (k & [= -> ->] & ([k' g] & -> & Hk)%list_elem_of_fmap).
      apply elem_of_range in Hk. simpl. eauto.
    - intros [-> [g Hg]]. exists key. split; [done|]. apply list_elem_of_fmap.
      exists (key, g). split; [done|]. by apply elem_of_range. }
  apply times_NoDup with (x := x) in Hnd. rewrite times_elem in Hin.
  pose proof (times_nonneg x ((fun k => (c, k)) <$> (range inner).*1)).
  case_decide as Hd; rewrite <- Hin in Hd; lia.
Qed.

Lemma connClosed_surfaces s c :
  surface_contract s (reduceConnClosed s c).2 (reduceConnClosed s c).1.
Proof.
  unfold reduceConnClosed. cbv zeta. set (s1 := if bool_decide _ then _ else _).
  assert (st_SurfaceSubs s1 = st_SurfaceSubs s) as Hs1 by (subst s1; by case_bool_decide).
  destruct (st_SurfaceSubs s1 !! c) as [inner|] eqn:Hin; [|by apply surface_contract_same; [|effectly]].
  rewrite Hs1 in Hin. split.
  - intros Hok c' inner'. simpl. rewrite Hs1. intros [_ ?]%lookup_delete_Some. eauto.
  - intros [c' key]. cbn [fst snd]. rewrite closed_stops. unfold subscribed. simpl. rewrite Hs1.
    assert (started ((fun sub => EffSurfaceSubscribeStop c (sub_SessionID sub.1)
              (sub_SubscriberID sub.1)) <$> range inner) = []) as ->
      by (unfold started; by induction (range inner)).
    rewrite times_nil. destruct (decide (c' = c)) as [->|Hne].
    + rewrite Hin, lookup_delete_eq. repeat case_decide; (lia || naive_solver).
    + rewrite lookup_delete_ne by done. rewrite (decide_False (P := c' = c /\ _)) by naive_solver. lia.
Qed.

Lemma subscribe_surfaces s e :
  surface_contract s (reduceSurfaceSubscribe s e).2 (reduceSurfaceSubscribe s e).1.
Proof.
  unfold reduceSurfaceSubscribe. cbv zeta.
  destruct (_ || _); [by apply surface_contract_same; [|effectly]|].
  destruct (ValidateSizeHint _ _); [by apply surface_contract_same; [|effectly]|].
  destruct (st_Sessions s !! _); [|by apply surface_contract_same; [|effectly]].
  destruct (bool_decide (headFrame _ = None)); [by apply surface_contract_same; [|effectly]|].
  set (existing := default ∅ (st_SurfaceSubs s !! ess_ConnID e)).
  set (key := mkSub (ess_SessionID e) (ess_SubscriberID e)).
  destruct (negb _ && _) eqn:Hcap; [by apply surface_contract_same; [|effectly]|].
  case_bool_decide as Hal; [by apply surface_contract_same; [|effectly]|].
  cbn [negb andb] in Hcap. apply Nat.leb_gt in Hcap.
  assert (existing !! key = None) as Hnew by (destruct (existing !! key); naive_solver).
  split.
  - intros Hok c inner. simpl. intros [[<- <-]|[_ ?]]%lookup_insert_Some; [|eauto].
    rewrite map_size_insert_None by done. lia.
  - intros [c k]. unfold subscribed. simpl. rewrite times_one, times_nil.
    destruct (decide (c = ess_ConnID e)) as [->|Hne].
    + rewrite lookup_insert_eq. unfold existing in *.
      destruct (decide (k = key)) as [->|Hk].
      * rewrite lookup_insert_eq, (decide_True (P := is_Some _)) by eauto.
        rewrite (decide_True (P := (ess_ConnID e, key) = _)) by done.
        destruct (st_SurfaceSubs s !! ess_ConnID e); simpl in *; rewrite ?Hnew; simpl; lia.
      * rewrite lookup_insert_ne by done. rewrite (decide_False (P := (_, key) = _)) by congruence.
        destruct (st_SurfaceSubs s !! ess_ConnID e); simpl; [lia|].
        rewrite lookup_empty, decide_False; [lia|]. by intros [? ?].
    + rewrite lookup_insert_ne by done. rewrite (decide_False (P := (_, key) = _)) by congruence. lia.
Qed.

Lemma unsubscribe_surfaces s e :
  surface_contract s (reduceSurfaceUnsubscribe s e).2 (reduceSurfaceUnsubscribe s e).1.
Proof.
  unfold reduceSurfaceUnsubscribe. cbv zeta.
  set (key := mkSub (esu_SessionID e) (esu_SubscriberID e)).
  destruct (st_SurfaceSubs s !! esu_ConnID e) as [inner|] eqn:Hin; simpl;
    [|by apply surface_contract_same; [|effectly]].
  case_bool_decide as Hk; [by apply surface_contract_same; [|effectly]|].
  assert (is_Some (inner !! key)) as Hsome by (destruct (inner !! key); naive_solver).
  split.
  - intros Hok c inner'. simpl. pose proof (Hok _ _ Hin) as Hsz.
    pose proof (map_size_delete_Some key inner Hsome). case_bool_decide.
    + intros [_ ?]%lookup_delete_Some. eauto.
    + intros [[<- <-]|[_ ?]]%lookup_insert_Some; [lia|eauto].
  - intros [c k]. cbn [fst snd].
    set (effs := [_; _]).
    assert (started effs = [] /\ stopped effs = [(esu_ConnID e, key)]) as [-> ->]
      by (subst effs; by case_bool_decide).
    rewrite times_nil, times_one. unfold subscribed. simpl.
    destruct (decide (c = esu_ConnID e)) as [->|Hne].
    + rewrite Hin. assert ((if decide (is_Some (inner !! k)) then 1 else 0) =
        (if decide (is_Some (delete key inner !! k)) then 1 else 0) + (if decide (key = k) then 1 else 0))
        as ->.
      { destruct (decide (key = k)) as [<-|Hk'].
        - rewrite lookup_delete_eq, (decide_True (P := is_Some (inner !! key))) by done.
          rewrite decide_False; [lia|]. by intros [? ?].
        - rewrite lookup_delete_ne by done. lia. }
      rewrite (decide_ext ((esu_ConnID e, key) = (esu_ConnID e, k)) (key = k)) by (naive_solver).
      case_bool_decide as Hsz; [rewrite lookup_delete_eq|rewrite lookup_insert_eq; lia].
      apply map_size_empty_inv in Hsz. rewrite Hsz, lookup_empty.
      rewrite (decide_False (P := is_Some None)) by (by intros [? ?]). lia.
    + rewrite decide_False by congruence.
      case_bool_decide; rewrite ?lookup_delete_ne, ?lookup_insert_ne by done; lia.
Qed.

Lemma client_surfaces s out : client_op s out -> surface_contract s out.2 out.1.
Proof.
  intros Hop. destruct Hop as [out Hs He|c|e|e|c r|id|id err|e];
    auto using connClosed_surfaces, subscribe_surfaces, unsubscribe_surfaces.
  - apply surface_contract_same; [by injection Hs|]. revert He. apply all_impl. by intros [].
  - unfold reduceShutdown. repeat case_match; (apply surface_contract_same; [done|cbn; effectly]).
  - unfold reduceShutdownSaveSucceeded. case_match; (apply surface_contract_same; [done|cbn; effectly]).
  - unfold reduceShutdownSaveFailed. case_match; (apply surface_contract_same; [done|cbn; effectly]).
  - unfold reduceShutdownCleanupFinished. case_match; [|apply surface_contract_same; [done|effectly]].
    destruct (ecf_Outcome e); (apply surface_contract_same; [done|cbn; effectly]).
Qed.

(** ** Shutdown transactions *)

Definition commits effs : nat :=
  length (omap (fun e => match e with EffCommitShutdownSessions id => Some id | _ => None end) effs).
Definition completions effs : nat :=
  length (omap (fun e => match e with EffCompleteShutdown r => Some r | _ => None end) effs).
Definition terminations effs : nat :=
  length (omap (fun e => match e with EffTerminateRuntime => Some tt | _ => None end) effs).

(** The three phases: running, a transaction under way, terminated. *)
Definition transaction_open s : nat := if st_Shutdown s is Some _ then 1 else 0.
Definition terminated s : nat :=
  match st_Lifecycle s, st_Shutdown s with LifecycleQuiescing, None => 1 | _, _ => 0 end.
Definition phase_ok s : Prop := st_Lifecycle s = LifecycleRunning -> st_Shutdown s = None.

Definition waiters s : list ShutdownWaiter := if st_Shutdown s is Some tx then tx_Waiters tx else [].

Definition answers_waiter (w : ShutdownWaiter) (e : Effect) : Prop :=
  match e with
  | EffSendError c r _ _ _ | EffSendResponseSync c r _ => c = wt_ConnID w /\ r = wt_ReqID w
  | _ => False
  end.

Definition shutdown_contract s effs s' : Prop :=
  phase_ok s ->
  phase_ok s' /\
  (transaction_open s + commits effs = transaction_open s' + completions effs)%nat /\
  (terminated s + terminations effs = terminated s')%nat /\
  (forall w, w ∈ waiters s -> w ∈ waiters s' \/ Exists (answers_waiter w) effs).

Lemma shutdown_contract_app s effs s1 effs1 s2 :
  shutdown_contract s effs s1 -> shutdown_contract s1 effs1 s2 ->
  shutdown_contract s (effs ++ effs1) s2.
Proof.
  intros C1 C2 Hok. destruct (C1 Hok) as (Hok1 & B1 & T1 & W1).
  destruct (C2 Hok1) as (Hok2 & B2 & T2 & W2).
  unfold commits, completions, terminations in *. rewrite !omap_app, !length_app.
  split_and!; [done|lia|lia|]. intros w Hw. rewrite Exists_app.
  destruct (W1 w Hw) as [Hw1|]; [|auto]. destruct (W2 w Hw1); auto.
Qed.

Definition no_shutdown (e : Effect) : bool :=
  match e with
  | EffCommitShutdownSessions _ | EffCompleteShutdown _ | EffTerminateRuntime => false
  | _ => true
  end.

Lemma no_shutdown_counts effs :
  all_effects no_shutdown effs -> commits effs = O /\ completions effs = O /\ terminations effs = O.
Proof.
  induction 1 as [|[] effs He _ (IH1 & IH2 & IH3)]; simplify_eq/=; auto.
Qed.

Lemma shutdown_contract_same s effs s' :
  st_Lifecycle s' = st_Lifecycle s -> st_Shutdown s' = st_Shutdown s ->
  all_effects no_shutdown effs -> shutdown_contract s effs s'.
Proof.
  intros Hl Hs (H1' & H2' & H3')%no_shutdown_counts Hok.
  unfold phase_ok, transaction_open, terminated, waiters in *. rewrite Hl, Hs, H1', H2', H3'.
  split_and!; [done|lia|lia|auto].
Qed.

Lemma shutdown_shutdowns s c r :
  shutdown_contract s (reduceShutdown s c r).2 (reduceShutdown s c r).1.
Proof.
  unfold reduceShutdown. destruct (st_Lifecycle s) eqn:Hl.
  - intros Hok. specialize (Hok Hl). unfold phase_ok, transaction_open, terminated, waiters.
    rewrite Hl, Hok. simpl. split_and!; [done|done|done|by intros w ?%elem_of_nil].
  - destruct (st_Shutdown s) as [tx|] eqn:Hs; [|by apply shutdown_contract_same; [| |effectly]].
    destruct (c =? 0); [by apply shutdown_contract_same; [| |effectly]|].
    intros Hok. unfold phase_ok, transaction_open, terminated, waiters. simpl. rewrite Hs, Hl.
    split_and!; [done|done|done|]. intros w Hw. left. simpl. apply elem_of_app. auto.
Qed.

Lemma currentShutdown_Some s id tx :
  currentShutdown s id = Some tx -> st_Lifecycle s = LifecycleQuiescing /\ st_Shutdown s = Some tx.
Proof.
  unfold currentShutdown. case_bool_decide; [|done]. destruct (st_Shutdown s); simpl; [|done].
  destruct (_ =? _); [|done]. intros [= ->]. done.
Qed.

Lemma replies_counts {A} (f : A -> Effect) l effs :
  (forall x, no_shutdown (f x) = true) ->
  commits ((f <$> l) ++ effs) = commits effs /\
  completions ((f <$> l) ++ effs) = completions effs /\
  terminations ((f <$> l) ++ effs) = terminations effs.
Proof.
  intros Hf. destruct (no_shutdown_counts (f <$> l)) as (C1 & C2 & C3); [by apply all_fmap|].
  unfold commits, completions, terminations in *. rewrite !omap_app, !length_app. lia.
Qed.

Lemma save_failed_shutdowns s id err :
  shutdown_contract s (reduceShutdownSaveFailed s id err).2 (reduceShutdownSaveFailed s id err).1.
Proof.
  unfold reduceShutdownSaveFailed.
  destruct (currentShutdown s id) as [tx|] eqn:Hc; [|by apply shutdown_contract_same; [| |effectly]].
  apply currentShutdown_Some in Hc as [Hl Hs]. intros _. cbn [fst snd].
  destruct (replies_counts (fun w => errResp (wt_ConnID w) (wt_ReqID w) ErrCodeInternal
    ("shutdown persistence failed: " +:+ err)) (tx_Waiters tx)
    [EffCompleteShutdown ShutdownCommitFailed]) as (-> & -> & ->); [done|].
  unfold phase_ok, transaction_open, terminated, waiters. rewrite Hl, Hs. simpl.
  split_and!; [done|done|done|]. intros w Hw. right. rewrite Exists_app. left.
  apply Exists_exists. eexists. split; [by apply list_elem_of_fmap_2|done].
Qed.

Lemma cleaned_shutdowns s e :
  shutdown_contract s (reduceShutdownCleanupFinished s e).2 (reduceShutdownCleanupFinished s e).1.
Proof.
  unfold reduceShutdownCleanupFinished. cbv zeta.
  destruct (currentShutdown s _) as [tx|] eqn:Hc; [|by apply shutdown_contract_same; [| |effectly]].
  apply currentShutdown_Some in Hc as [Hl Hs]. intros _. cbn [fst snd].
  set (result := match ecf_Outcome e with ShutdownCleanupCompleted => _ | _ => _ end).
  destruct (replies_counts (fun w => match result with ShutdownDeadlineExceeded =>
      errResp (wt_ConnID w) (wt_ReqID w) ErrCodeUnavailable "shutdown cleanup deadline exceeded"
    | _ => EffSendResponseSync (wt_ConnID w) (wt_ReqID w) BodyNil end) (tx_Waiters tx)
    [EffCompleteShutdown result; EffTerminateRuntime]) as (-> & -> & ->); [by destruct result|].
  unfold phase_ok, transaction_open, terminated, waiters. simpl. rewrite Hl, Hs.
  split_and!; [done|done|done|]. intros w Hw. right. rewrite Exists_app. left.
  apply Exists_exists. eexists. split; [by apply list_elem_of_fmap_2|]. by destruct result.
Qed.

Lemma client_shutdowns s out : client_op s out -> shutdown_contract s out.2 out.1.
Proof.
  intros Hop. destruct Hop as [out Hs He|c|e|e|c r|id|id err|e];
    auto using shutdown_shutdowns, save_failed_shutdowns, cleaned_shutdowns.
  - injection Hs as _ Hl Hsd _. apply shutdown_contract_same; [done..|].
    revert He. apply all_impl. by intros [].
  - unfold reduceConnClosed. cbv zeta. destruct (bool_decide _); destruct (_ !! c);
      (apply shutdown_contract_same; [done|done|cbn; effectly]).
  - unfold reduceSurfaceSubscribe. cbv zeta. repeat case_match;
      (apply shutdown_contract_same; [done|done|cbn; effectly]).
  - unfold reduceSurfaceUnsubscribe. cbv zeta. repeat case_match;
      (apply shutdown_contract_same; [done|done|cbn; effectly]).
  - unfold reduceShutdownSaveSucceeded. case_match;
      (apply shutdown_contract_same; [done|done|cbn; effectly]).
Qed.

Context `{!PoliteDrivers}.

(** Surface subscriptions are balanced and bounded.  Over every run from the
    initial state, a connection has at most eight open subscriptions, a connection
    without one is not listed, and every subscription of a connection has been
    started once more than it has been stopped exactly when it is open: closing the
    connection, unsubscribing and severing never stop a subscription twice. *)
Theorem surface_subscriptions_balanced effs s :
  host_run New effs s ->
  surfaces_ok s /\ forall x, times x (started effs) = subscribed s x + times x (stopped effs).
Proof.
  intros Hrun. destruct (run_lift surface_contract (fun s => surface_contract_same s [] s eq_refl (all_nil _))
    surface_contract_app client_surfaces _ _ _ Hrun) as [Hok Hb].
  split; [apply Hok; by intros ?? ?|]. intros x. specialize (Hb x).
  assert (subscribed New x = 0) as Hnew by done. lia.
Qed.

(** Shutdown is a transaction.  Over every run from the initial state, each
    shutdown commit the reducer asks for is completed exactly once or is the one
    transaction still open; a running host has none open; and the runtime is told to
    terminate once, when and only when the host has passed to its final state. *)
Theorem shutdown_completes_once effs s :
  host_run New effs s ->
  phase_ok s /\ commits effs = (transaction_open s + completions effs)%nat /\
  terminations effs = terminated s.
Proof.
  intros Hrun. destruct (run_lift shutdown_contract
    (fun s => shutdown_contract_same s [] s eq_refl eq_refl (all_nil _))
    shutdown_contract_app client_shutdowns _ _ _ Hrun) as (Hok & Hb & Ht & _); [done|].
  assert (transaction_open New = O) as Ho by done. assert (terminated New = O) as Htn by done.
  split_and!; [done|lia|lia].
Qed.

(** No client that asked for a shutdown is forgotten.  Whatever event follows, a
    waiting client goes on waiting in the transaction or is sent a reply. *)
Theorem shutdown_waiter_kept rnd s ev s' effs w :
  phase_ok s -> Reduce rnd s ev = Some (s', effs) -> w ∈ waiters s ->
  w ∈ waiters s' \/ Exists (answers_waiter w) effs.
Proof.
  intros Hok Hr Hw. pose proof (Reduce_lift shutdown_contract
    (fun s => shutdown_contract_same s [] s eq_refl eq_refl (all_nil _))
    shutdown_contract_app client_shutdowns _ _ _ _ Hr) as Hc.
  destruct (Hc Hok) as (_ & _ & _ & HW). by apply HW.
Qed.

End Clients.

Module ClientsDemo.
Import HostDemo InputDemo.

(** A session, a subscription to its terminal, the client going away, and a
    shutdown that completes. *)
Definition client_events : list Event :=
  [creates;
   EvCmdSurfaceSubscribe_ (mkEvSurfaceSubscribe 5 "a" "s1" "v1" 80 24);
   EvConnClosed 5;
   EvEvent_ (mkEvEvent 9 "q" EventShutdown "");
   EvShutdownSaveBarrierSucceeded 1;
   EvShutdownCleanupFinished_ (mkEvCleanup 1 ShutdownCleanupCompleted)].

Definition after (n : nat) : State * list Effect := default (New, []) (play New (take n client_events)).

Lemma after_run n : host_run New (after n).2 (after n).1.
Proof.
  unfold after. destruct (play New (take n client_events)) as [[s effs]|] eqn:Hp; simpl; [|constructor].
  apply (play_run New [] New _ _ _ (run_start New) Hp).
Qed.

Lemma surface_subscriptions_balanced_witness :
  times (5, mkSub "s1" "v1") (started (after 2).2) = 1 /\
  subscribed (after 2).1 (5, mkSub "s1" "v1") = 1 /\
  times (5, mkSub "s1" "v1") (started (after 3).2) = times (5, mkSub "s1" "v1") (stopped (after 3).2).
Proof.
  destruct (surface_subscriptions_balanced _ _ (after_run 2)) as [_ H2].
  destruct (surface_subscriptions_balanced _ _ (after_run 3)) as [_ H3].
  split; [rewrite H2; vm_compute; reflexivity|]. split; [vm_compute; reflexivity|].
  rewrite H3. assert (subscribed (after 3).1 (5, mkSub "s1" "v1") = 0) as -> by (vm_compute; reflexivity).
  lia.
Defined.

Lemma shutdown_completes_once_witness :
  commits (after 4).2 = (1 + completions (after 4).2)%nat /\ terminations (after 6).2 = 1%nat.
Proof.
  destruct (shutdown_completes_once _ _ (after_run 4)) as (_ & H4 & _).
  destruct (shutdown_completes_once _ _ (after_run 6)) as (_ & _ & H6).
  split; [exact H4|]. rewrite H6. vm_compute. reflexivity.
Defined.

Definition finish_event : Event :=
  EvShutdownCleanupFinished_ (mkEvCleanup 1 ShutdownCleanupCompleted).

Lemma shutdown_waiter_kept_witness :
  mkWaiter 9 "q" ∈ waiters (after 6).1 \/
  Exists (answers_waiter (mkWaiter 9 "q"))
    (default (New, []) (Reduce demo_draws (after 5).1 finish_event)).2.
Proof.
  apply (shutdown_waiter_kept demo_draws (after 5).1 finish_event (after 6).1
    (default (New, []) (Reduce demo_draws (after 5).1 finish_event)).2 (mkWaiter 9 "q")).
  - intros Hl. vm_compute in Hl. discriminate.
  - vm_compute. reflexivity.
  - apply list_elem_of_In. vm_compute. auto.
Defined.

End ClientsDemo.
