(* ===== verification/HostTyped.v ===== *)
(** * host/state: driver states are of the driver's type

    A frame keeps its driver state as an interface value, and the driver its command
    names asserts the concrete type back, in [Status] without a check.  Every operation of
    the reducer keeps the states of all frames within the type of their own driver. *)

From S2P Require Import Prelude HostState HostFrames HostInput HostSession HostCapsule HostHandlers.
From S2P Require Import HostRepo HostReduce HostDriverFacts HostSteps HostInputRun.

Section Typed.
Context `{GoMapRange} `{DriverSys} `{PayloadCodec} (own : string -> DriverState -> Prop).
Implicit Types (s : State) (sess : Session).

Definition well_typed s : Prop :=
  sessions_own own (st_Sessions s) /\ word_aliases (st_Aliases s).

(** [out] has no frame with a driver state that [s] does not vouch for. *)
Definition keeps_own s (s' : State) : Prop := well_typed s -> well_typed s'.

Lemma keeps_same s s' :
  st_Sessions s' = st_Sessions s -> st_Aliases s' = st_Aliases s -> keeps_own s s'.
Proof. unfold keeps_own, well_typed. by intros -> ->. Qed.

Lemma keeps_session s s' sid sess sess' :
  st_Sessions s !! sid = Some sess ->
  (frames_own own (ss_Frames sess) -> frames_own own (ss_Frames sess')) ->
  st_Sessions s' = <[sid := sess']> (st_Sessions s) -> st_Aliases s' = st_Aliases s ->
  keeps_own s s'.
Proof.
  intros Hs Hf Hs' Ha [Ho Hal]. split; [|by rewrite Ha]. rewrite Hs'.
  apply sessions_own_insert; [done|]. apply Hf. exact (Ho _ _ Hs).
Qed.

Lemma ledger_keeps s out : ledger_only s out -> keeps_own s out.1.
Proof.
  intros [Hs _]. apply keeps_same; [exact (f_equal st_Sessions Hs)|exact (f_equal st_Aliases Hs)].
Qed.

Lemma pushMRU_frames sess f : ss_Frames (pushMRU sess f) = ss_Frames sess.
Proof. unfold pushMRU. by case_bool_decide. Qed.

Lemma head_keeps s sid sess frameID :
  st_Sessions s !! sid = Some sess ->
  keeps_own s (s <| st_Sessions := <[sid := pushMRU sess (ss_HeadFrameID sess)
    <| ss_HeadFrameID := frameID |>]> (st_Sessions s) |>).
Proof. intros Hs. eapply keeps_session; [done| |done..]. simpl. by rewrite pushMRU_frames. Qed.

Lemma stop_keeps s c r sid : keeps_own s (reduceStopSession s c r sid).1.
Proof.
  unfold reduceStopSession. destruct (st_Sessions s !! sid) as [sess|] eqn:Hs; [|by apply keeps_same].
  eapply keeps_session; [done| |done..]. intros _. constructor.
Qed.

Lemma evictRoot_keeps s sid sess kill disposition :
  st_Sessions s !! sid = Some sess -> keeps_own s (evictRootFrame s sid sess kill disposition).1.
Proof.
  intros Hs. unfold evictRootFrame. cbv zeta. set (s1 := s <| st_Sessions := _ |>).
  assert (keeps_own s s1) as K0.
  { subst s1. case_bool_decide; [eapply keeps_session; [done| |done..]; intros _; constructor|].
    intros [Ho Ha]. split; [|done]. by apply map_Forall_delete. }
  clearbody s1. destruct (cancel_session_only s1 sid) as [K1%ledger_keeps _].
  destruct (cancelApprovalsForSession s1 sid) as [s2 e2].
  destruct (cancel_session_only s2 sid) as [_ K2%ledger_keeps].
  destruct (cancelQuestionsForSession s2 sid) as [s3 e3]. intros Hw. by apply K2, K1, K0.
Qed.

Lemma pruneMRU_frames sess : ss_Frames (pruneMRU sess) = ss_Frames sess.
Proof. unfold pruneMRU. by destruct (ss_MRUFrameIDs sess). Qed.

Lemma fallbackHead_frames sess : ss_Frames (fallbackHead sess) = ss_Frames sess.
Proof. unfold fallbackHead, popMRU. by destruct (first_existing _ _) as [[]|]. Qed.

Lemma evictChild_keeps s sid sess idx frameID kill :
  st_Sessions s !! sid = Some sess -> keeps_own s (evictChildFrame s sid sess idx frameID kill).1.
Proof.
  intros Hs. unfold evictChildFrame. cbn [removeFrameByIndex]. cbv zeta.
  set (sess1 := if bool_decide _ then fallbackHead _ else _). set (s1 := s <| st_Sessions := _ |>).
  assert (keeps_own s s1) as K0.
  { eapply (keeps_session s s1 sid sess sess1); [done| |done..]. intros Ho.
    assert (ss_Frames sess1 = take idx (ss_Frames sess) ++ drop (S idx) (ss_Frames sess)) as ->.
    { subst sess1. case_bool_decide; rewrite ?fallbackHead_frames; by rewrite pruneMRU_frames. }
    apply Forall_app. split; [by apply Forall_take|by apply Forall_drop]. }
  clearbody s1. destruct (cancel_frame_only s1 frameID) as [K1%ledger_keeps _].
  destruct (cancelApprovalsForFrame s1 frameID) as [s2 e2].
  destruct (cancel_frame_only s2 frameID) as [_ K2%ledger_keeps].
  destruct (cancelQuestionsForFrame s2 frameID) as [s3 e3]. intros Hw. by apply K2, K1, K0.
Qed.

Lemma evict_keeps s frameID kill disposition out :
  evictFrame s frameID kill disposition = Some out -> keeps_own s out.1.
Proof.
  unfold evictFrame. destruct (findFrame s frameID) as [[[sid sess] idx]|] eqn:Hf; [|done].
  apply findFrame_lookup in Hf as [Hs _]. simpl.
  case_bool_decide; intros [= <-]; [by apply evictRoot_keeps|by apply evictChild_keeps].
Qed.

(** A repository event commits a session without frames. *)
Lemma repository_keeps s e : keeps_own s (reduceRepository s e).1.
Proof.
  destruct (reduceRepository_only s e) as [Hr _ Hs].
  assert (st_Aliases (reduceRepository s e).1 = st_Aliases s) as Ha' by exact (f_equal st_Aliases Hr).
  destruct Hs as [Hs|(_ & p & Hs)]; [by apply keeps_same|].
  intros [Ho Ha]. split; [|by rewrite Ha']. rewrite Hs.
  apply sessions_own_insert; [done|constructor].
Qed.

Lemma bookkeeping_keeps s :
  (forall c, keeps_own s (reduceConnOpened s c).1) /\ (forall c, keeps_own s (reduceConnClosed s c).1) /\
  (forall e, keeps_own s (reduceSurfaceSubscribe s e).1) /\
  (forall e, keeps_own s (reduceSurfaceUnsubscribe s e).1) /\
  (forall c r, keeps_own s (reduceShutdown s c r).1).
Proof.
  split_and!; intros;
    unfold reduceConnOpened, reduceConnClosed, reduceSurfaceSubscribe, reduceSurfaceUnsubscribe,
      reduceShutdown; cbv zeta; repeat case_match; simplify_eq/=; by apply keeps_same.
Qed.

Lemma shutdown_keeps s :
  (forall id, keeps_own s (reduceShutdownSaveSucceeded s id).1) /\
  (forall id err, keeps_own s (reduceShutdownSaveFailed s id err).1) /\
  (forall e, keeps_own s (reduceShutdownCleanupFinished s e).1).
Proof.
  split_and!; intros;
    unfold reduceShutdownSaveSucceeded, reduceShutdownSaveFailed, reduceShutdownCleanupFinished;
    (destruct (currentShutdown _ _); [|by apply keeps_same]); by apply keeps_same.
Qed.

Hypothesis Hown : typed own.
Variable rnd : nat -> string.

Lemma push_keeps s n sid project command options input c r out :
  pushDriverInternal rnd s n sid project command options input c r = inr out -> keeps_own s out.1.
Proof.
  unfold pushDriverInternal. destruct (st_Sessions s !! sid) as [sess|] eqn:Hs; [|done]. cbv zeta.
  destruct (GetDriver _) as [drv|] eqn:Hd; [|done].
  destruct (prepareSessionDriver _ _ _ _ _ _) as [|[ds cl]] eqn:Hp; [done|].
  apply prepareSessionDriver_own with (own := own) in Hp; [|done..].
  set (ds' := match rootFrame sess with Some _ => _ | None => _ end).
  assert (own (resolveCreateCommand s command) ds') as Hds.
  { subst ds'. destruct (rootFrame sess); [by apply inheritStartDir_own|done]. }
  clearbody ds'. destruct (drv_PrepareLaunch _ _ _ _ _ _); [done|]. intros [= <-].
  eapply keeps_session; [done| |done..]. intros Ho. simpl. rewrite pushMRU_frames.
  apply Forall_app. split; [done|]. by constructor; [|constructor].
Qed.

Lemma primitive_keeps n k s out : primitive rnd n k s out -> keeps_own s out.1.
Proof.
  intros Hp. destruct (bookkeeping_keeps s) as (B1 & B2 & B3 & B4 & B5).
  destruct (shutdown_keeps s) as (L1 & L2 & L3). destruct ledger_ops_only as (K1 & K2 & K3 & K4).
  destruct Hp as [n s s' effs [Hc _ Ho] _| | | | | | | | | | | |n s now|n s now| | | | | | | | | | |];
    eauto using push_keeps, head_keeps, stop_keeps, evict_keeps, repository_keeps, ledger_keeps,
      subsystem_ops_only.
  - intros [Hs Ha]. split; [apply Ho; [apply Hown|done]|].
    assert (st_Aliases s' = st_Aliases s) as Ha' by exact (f_equal st_Aliases Hc). simpl. by rewrite Ha'.
  - apply ledger_keeps, expiry_only.
  - apply ledger_keeps, expiry_only.
  - by apply keeps_same.
  - by apply keeps_same.
Qed.

Lemma prims_keeps n s out : prims rnd n s out -> keeps_own s out.1.
Proof.
  induction 1 as [n s|n m k s s1 effs1 s2 effs2 _ Hp%primitive_keeps _ IH];
    [by apply keeps_same|].
  intros Hw. by apply IH, Hp.
Qed.

Lemma Reduce_keeps `{!PoliteDrivers} s ev out : Reduce rnd s ev = Some out -> keeps_own s out.1.
Proof.
  intros Hr. destruct (Reduce_decomposes _ _ _ _ Hr) as [sess plan c r _ Ho|out' Hp];
    [|by eapply prims_keeps].
  intros [Hs Ha]. split; [|done]. apply sessions_own_insert; [done|by apply Ho].
Qed.

End Typed.

(** A run keeps driver states well typed. *)
Lemma run_well_typed `{GoMapRange} `{DriverSys} `{PayloadCodec} `{!PoliteDrivers} own s effs s' :
  typed own -> host_run s effs s' -> well_typed own s -> well_typed own s'.
Proof.
  intros Ht Hr Hw. induction Hr as [|effs s1 draws ev effs' s2 _ IH Hr]; [done|].
  exact (Reduce_keeps own Ht draws _ _ _ Hr IH).
Qed.
