(* ===== verification/HostQuiescing.v ===== *)
(** * host/state: the admission boundary while the host shuts down

    While a shutdown transaction is under way [Reduce] answers from
    [reduceQuiescing].  Nothing that is being saved may change then, and nothing may
    be persisted or torn down beside the transaction; two consequences of how the
    boundary is written are stated as well. *)

From S2P Require Import Prelude HostState HostFrames HostInput HostSession HostCapsule HostHandlers.
From S2P Require Import HostRepo HostReduce HostDriverFacts HostSteps HostInputRun HostFrames.

Section Quiescing.
Context `{GoMapRange} `{DriverSys} `{PayloadCodec} (rnd : nat -> string).
Implicit Types (s : State) (effs : list Effect).

(** The state without what belongs to connections and to the transaction. *)
Definition at_rest s : State :=
  s <| st_Subscribers := ∅ |> <| st_SurfaceSubs := ∅ |> <| st_NextConnID := 0 |>
    <| st_Lifecycle := LifecycleQuiescing |> <| st_Shutdown := None |>.

(** Replies, the end of surface streams, the refresh a new subscriber gets, and the
    transaction itself; no snapshot, spawn, kill, job, or ledger effect. *)
Definition quiescent (e : Effect) : bool :=
  match e with
  | EffSendResponse _ _ _ | EffSendResponseSync _ _ _ | EffSendError _ _ _ _ _
  | EffBroadcastSessionsChanged | EffSurfaceSubscribeStop _ _ _ | EffReleaseFrames _
  | EffCompleteShutdown _ | EffTerminateRuntime => true
  | _ => false
  end.

Definition resting s (out : option (State * list Effect)) : Prop :=
  exists s' effs, out = Some (s', effs) /\ at_rest s' = at_rest s /\ all_effects quiescent effs.

Ltac resting_out := eexists _, _; split; [reflexivity|]; split; [done|cbn; effectly].

Lemma event_resting s e :
  st_Lifecycle s = LifecycleQuiescing ->
  ee_Event e = EventShutdown \/ ee_Event e = EventListSessions \/
  ee_Event e = EventListSessionMessages -> resting s (reduceEvent rnd s e).
Proof.
  intros Hl Hev. unfold reduceEvent.
  assert (forall {T} (zero : T) dec handler,
    (forall c r p, resting s (Some (handler s c r p))) ->
    resting s (Some (RegisterEvent zero dec handler s e))) as Hreg.
  { intros T zero dec handler Hh. unfold RegisterEvent. cbv zeta.
    case_bool_decide; [apply Hh|]. destruct (dec _); [resting_out|apply Hh]. }
  destruct Hev as [-> | [-> | ->]]; simpl; apply Hreg; intros.
  - unfold reduceShutdown. rewrite Hl. destruct (st_Shutdown s) eqn:?; [|resting_out].
    destruct (_ =? _); resting_out.
  - resting_out.
  - unfold reduceListSessionMessages. destruct (bool_decide _); [resting_out|].
    destruct (negb _); resting_out.
Qed.

(** A quiescing host holds still.  While a shutdown is under way every event
    but a repository event is answered without a panic, changes nothing beyond
    connections, subscriptions and the transaction itself (sessions, drivers, jobs,
    human input and preparations are as they were when the save began), and causes
    no snapshot, spawn, teardown or job. *)
Theorem quiescing_holds_still s ev :
  st_Lifecycle s = LifecycleQuiescing -> (forall e, ev <> EvRepository_ e) ->
  exists s' effs, Reduce rnd s ev = Some (s', effs) /\ at_rest s' = at_rest s /\
    all_effects quiescent effs.
Proof.
  intros Hl Hev. unfold Reduce. rewrite Hl. change (resting s (reduceQuiescing rnd s ev)).
  destruct ev; simpl; try resting_out; try (by destruct (Hev _ eq_refl)).
  - destruct (_ || _) eqn:He; [|resting_out]. apply event_resting; [done|].
    rewrite !orb_true_iff, !bool_decide_eq_true in He. tauto.
  - unfold reduceSurfaceReadText. destruct (negb _); resting_out.
  - unfold reduceSurfaceUnsubscribe. cbv zeta. destruct (bool_decide (_ = None)); [resting_out|].
    destruct (bool_decide (esu_ReqID e = "")); resting_out.
  - unfold reduceConnOpened. destruct (_ <? _); resting_out.
  - unfold reduceConnClosed. cbv zeta. destruct (bool_decide _); destruct (_ !! _); resting_out.
  - unfold reduceShutdownSaveSucceeded. destruct (currentShutdown _ _); resting_out.
  - unfold reduceShutdownSaveFailed. destruct (currentShutdown _ _); resting_out.
  - unfold reduceShutdownCleanupFinished. cbv zeta. destruct (currentShutdown _ _); [|resting_out].
    destruct (ecf_Outcome e); resting_out.
Qed.

(** A repository event panics a quiescing host.  Whatever the state and the
    event, [Reduce] does not return. *)
Theorem quiescing_repository_panics s e :
  st_Lifecycle s = LifecycleQuiescing -> Reduce rnd s (EvRepository_ e) = None.
Proof. intros Hl. unfold Reduce. by rewrite Hl. Qed.

(** A failed shutdown loses what arrived in between.  A capsule result that
    arrives while the host is quiescing is dropped; when the save then fails and the
    host runs again, the session is still marked as generating, its job is still in
    the table although the worker has delivered, and no tick starts another
    generation for it. *)
Theorem failed_shutdown_loses_capsule s tx j meta result err saveErr sess :
  st_Lifecycle s = LifecycleQuiescing -> st_Shutdown s = Some tx ->
  st_Jobs s !! j = Some meta -> is_Some (st_CapsuleGenerating s !! jm_SessionID meta) ->
  exists s', Reduce rnd s (EvJobResult j result err) = Some (s, []) /\
    fst <$> Reduce rnd s (EvShutdownSaveBarrierFailed (tx_ID tx) saveErr) = Some s' /\
    st_Lifecycle s' = LifecycleRunning /\ st_Jobs s' !! j = Some meta /\
    maybeEnqueueOneCapsule s' (jm_SessionID meta) sess = None.
Proof.
  intros Hl Hs Hj Hg. exists (s <| st_Lifecycle := LifecycleRunning |> <| st_Shutdown := None |>).
  unfold Reduce. rewrite Hl. simpl. unfold reduceShutdownSaveFailed, currentShutdown.
  rewrite bool_decide_true by done. rewrite Hs. simpl. rewrite Z.eqb_refl. simpl.
  split_and!; [done..|]. unfold maybeEnqueueOneCapsule. simpl. by rewrite bool_decide_true.
Qed.

End Quiescing.

Module QuiescingDemo.
Import HostDemo InputDemo.

(** The demo state during a shutdown, with a capsule being generated for its session. *)
Definition quiescing_state : State :=
  demo_state <| st_Lifecycle := LifecycleQuiescing |>
    <| st_Shutdown := Some (mkShutdownTx 1 [mkWaiter 9 "q"]) |>
    <| st_Jobs := {[4 := mkJobMeta "s1" "f1" 5000]} |>
    <| st_CapsuleGenerating := {["s1" := "digest"]} |>.

Lemma quiescing_holds_still_witness :
  exists s' effs, Reduce demo_draws quiescing_state (EvConnClosed 9) = Some (s', effs) /\
    at_rest s' = at_rest quiescing_state /\ all_effects quiescent effs.
Proof.
  apply (quiescing_holds_still demo_draws quiescing_state (EvConnClosed 9)).
  - reflexivity.
  - discriminate.
Defined.

Lemma quiescing_repository_panics_witness :
  Reduce demo_draws quiescing_state (EvRepository_ (mkEvRepository 0 "" "failed" "" "p1" ""
    (mkRepo "" "" "") "" 1 "" "" "" "" false false)) = None.
Proof. apply quiescing_repository_panics. reflexivity. Defined.

Definition capsule_result : JobResult :=
  ResultCapsule (mkCapsuleJobResult "o" "c" "n" [] [] [] [] "" "digest" 3).

Lemma failed_shutdown_loses_capsule_witness :
  exists s', Reduce demo_draws quiescing_state (EvJobResult 4 capsule_result None)
      = Some (quiescing_state, []) /\
    fst <$> Reduce demo_draws quiescing_state (EvShutdownSaveBarrierFailed 1 "disk full") = Some s' /\
    st_Lifecycle s' = LifecycleRunning /\ st_Jobs s' !! 4 = Some (mkJobMeta "s1" "f1" 5000) /\
    maybeEnqueueOneCapsule s' "s1" (demo_session "s1" ["f1"]) = None.
Proof.
  apply (failed_shutdown_loses_capsule demo_draws quiescing_state (mkShutdownTx 1 [mkWaiter 9 "q"]) 4
    (mkJobMeta "s1" "f1" 5000) capsule_result None "disk full" (demo_session "s1" ["f1"])).
  - reflexivity.
  - reflexivity.
  - vm_compute. reflexivity.
  - eexists. vm_compute. reflexivity.
Defined.

End QuiescingDemo.
