(* ===== verification/GoStrings.v ===== *)
(** * Go's strings and strconv packages

    The functions of [strings] and [strconv] that the host drivers and the command
    lexer use, on byte strings.  A Go string is a sequence of bytes; white space is
    Unicode's, so it is one to three bytes long in UTF-8. *)

From Stdlib Require Import String.
From S2P Require Import Prelude GoStd.

(** ** Concatenation *)

Lemma str_app_nil (b : string) : "" +:+ b = b.
Proof. done. Qed.

Lemma str_app_cons x (a b : string) : String x a +:+ b = String x (a +:+ b).
Proof. done. Qed.

Lemma str_app_assoc (a b c : string) : (a +:+ b) +:+ c = a +:+ (b +:+ c).
Proof. induction a as [|x a IH]; [done|]. by rewrite !str_app_cons, IH. Qed.

Lemma str_app_nil_r (a : string) : a +:+ "" = a.
Proof. induction a as [|x a IH]; [done|]. by rewrite str_app_cons, IH. Qed.

Lemma str_length_app (a b : string) :
  String.length (a +:+ b) = (String.length a + String.length b)%nat.
Proof. induction a as [|x a IH]; [done|]. rewrite str_app_cons. simpl. by rewrite IH. Qed.

Lemma ascii_app (a b : string) :
  list_ascii_of_string (a +:+ b) = list_ascii_of_string a ++ list_ascii_of_string b.
Proof. induction a as [|x a IH]; [done|]. rewrite str_app_cons. simpl. by rewrite IH. Qed.

(** ** Prefixes and substrings *)

Definition HasPrefix (s p : string) : bool := String.prefix p s.

Fixpoint drop_bytes (n : nat) (s : string) : string :=
  match n, s with
  | O, _ => s
  | S n, String _ s => drop_bytes n s
  | S _, EmptyString => EmptyString
  end.

Definition TrimPrefix (s p : string) : string :=
  if HasPrefix s p then drop_bytes (String.length p) s else s.

Fixpoint Contains (s sub : string) : bool :=
  HasPrefix s sub ||
  match s with
  | EmptyString => false
  | String _ s => Contains s sub
  end.

Definition HasSuffix (s p : string) : bool :=
  (String.length p <=? String.length s)%nat
  && bool_decide (drop_bytes (String.length s - String.length p) s = p).

(** [strings.ReplaceAll] of a single byte. *)
Fixpoint ReplaceByte (s : string) (old : ascii) (new : string) : string :=
  match s with
  | EmptyString => EmptyString
  | String c s => (if bool_decide (c = old) then new else String c EmptyString)
                  +:+ ReplaceByte s old new
  end.

Definition quote : ascii := ascii_of_nat 39.
Definition dquote : ascii := ascii_of_nat 34.
Definition backslash : ascii := ascii_of_nat 92.
Definition newline : ascii := ascii_of_nat 10.

(** ** White space *)

(** [unicode.IsSpace]. *)
Definition IsSpace (r : Z) : bool :=
  in_range 9 13 r || (r =? 32) || (r =? 0x85) || (r =? 0xa0) || (r =? 0x1680)
  || in_range 0x2000 0x200a r || (r =? 0x2028) || (r =? 0x2029) || (r =? 0x202f)
  || (r =? 0x205f) || (r =? 0x3000).

(** The UTF-8 encodings of the spaces: one, two or three bytes. *)
Definition space1 (a : ascii) : bool :=
  let a := byte_Z a in in_range 9 13 a || (a =? 32).

Definition space2 (a b : ascii) : bool :=
  (byte_Z a =? 0xc2) && ((byte_Z b =? 0x85) || (byte_Z b =? 0xa0)).

Definition space3 (a b c : ascii) : bool :=
  let '(a, b, c) := (byte_Z a, byte_Z b, byte_Z c) in
  ((a =? 0xe1) && (b =? 0x9a) && (c =? 0x80))
  || ((a =? 0xe2) && (b =? 0x80) && (in_range 0x80 0x8a c || in_range 0xa8 0xa9 c || (c =? 0xaf)))
  || ((a =? 0xe2) && (b =? 0x81) && (c =? 0x9f))
  || ((a =? 0xe3) && (b =? 0x80) && (c =? 0x80)).

(** Drops the leading spaces of a byte list; with [rev], of the reverse of one. *)
Fixpoint trim_bytes (rev : bool) (l : list ascii) : list ascii :=
  match l with
  | [] => []
  | a :: l1 =>
    if space1 a then trim_bytes rev l1
    else match l1 with
    | [] => l
    | b :: l2 =>
      if (if rev then space2 b a else space2 a b) then trim_bytes rev l2
      else match l2 with
      | [] => l
      | c :: l3 =>
        if (if rev then space3 c b a else space3 a b c) then trim_bytes rev l3 else l
      end
    end
  end.

Definition TrimSpace (s : string) : string :=
  string_of_list_ascii
    (reverse (trim_bytes true (reverse (trim_bytes false (list_ascii_of_string s))))).

(** [strings.Fields]: the maximal runs of bytes that are not white space. *)
Fixpoint fields_bytes (l cur : list ascii) : list (list ascii) :=
  let flush k := if decide (cur = []) then k else reverse cur :: k in
  match l with
  | [] => flush []
  | a :: l1 =>
    if space1 a then flush (fields_bytes l1 [])
    else match l1 with
    | b :: l2 =>
      if space2 a b then flush (fields_bytes l2 [])
      else match l2 with
      | c :: l3 =>
        if space3 a b c then flush (fields_bytes l3 []) else fields_bytes l1 (a :: cur)
      | [] => fields_bytes l1 (a :: cur)
      end
    | [] => fields_bytes l1 (a :: cur)
    end
  end.

Definition Fields (s : string) : list string :=
  string_of_list_ascii <$> fields_bytes (list_ascii_of_string s) [].

(** ** Numbers *)

Lemma in_range_iff lo hi b : in_range lo hi b = true <-> lo <= b <= hi.
Proof. unfold in_range. rewrite andb_true_iff, !Z.leb_le. done. Qed.


Definition digit_value (c : ascii) : option Z :=
  let z := byte_Z c in if in_range 48 57 z then Some (z - 48) else None.

Fixpoint digits_value (acc : Z) (l : list ascii) : option Z :=
  match l with
  | [] => Some acc
  | c :: l => d ← digit_value c; digits_value (10 * acc + d) l
  end.

Definition unsigned_value (l : list ascii) : option Z :=
  match l with [] => None | _ => digits_value 0 l end.

(** [strconv.Atoi]: an optional sign and decimal digits, within [int64]. *)
Definition Atoi (s : string) : option Z :=
  let v := match list_ascii_of_string s with
           | [] => None
           | c :: l => if byte_Z c =? 45 then Z.opp <$> unsigned_value l
                       else if byte_Z c =? 43 then unsigned_value l
                       else unsigned_value (c :: l)
           end in
  n ← v; if in_range min_int64 max_int64 n then Some n else None.

(** ** The space encodings are those of the space runes *)

Definition is_space_bytes (l : list ascii) : bool :=
  match l with
  | [a] => space1 a | [a; b] => space2 a b | [a; b; c] => space3 a b c | _ => false
  end.

(** U+3000 is the last space of Unicode. *)
Example space_encodings :
  forallb (fun r => Bool.eqb (IsSpace r) (is_space_bytes (Z_byte <$> encode_rune r)))
    (seqZ 0 0x3100) = true.
Proof. vm_compute. reflexivity. Qed.

Example TrimSpace_ex : TrimSpace (" 	a b　" +:+ of_bytes [0xc2; 0xa0]) = "a b".
Proof. vm_compute. reflexivity. Qed.

Example Fields_ex : Fields " codex  resume　x " = ["codex"; "resume"; "x"].
Proof. vm_compute. reflexivity. Qed.

Example Atoi_ex : Atoi "-17" = Some (-17) /\ Atoi "1x" = None /\ Atoi "9223372036854775808" = None.
Proof. vm_compute. auto. Qed.
