(* ===== verification/GoTime.v ===== *)
(** * Go's time package: RFC 3339

    [t.UTC().Format(time.RFC3339)] and [time.Parse(time.RFC3339, s)], which the
    drivers use to persist instants.  A [Time] counts nanoseconds from the zero time,
    0001-01-01T00:00:00 UTC. *)

From Stdlib Require Import String.
From S2P Require Import Prelude GoStd GoStrings.

(** ** The proleptic Gregorian calendar

    Years start on the first of March, so that the leap day is the last day of a
    year; an era is 400 years of 146097 days. *)

Definition era_days : Z := 146097.

(** Day of the era to year of the era, month and day.  The last century of an era
    and the last year of four have a day more. *)
Definition civil_of_doe (doe : Z) : Z * Z * Z :=
  let c := Z.min 3 (doe / 36524) in
  let doc := doe - 36524 * c in
  let q := doc / 1461 in
  let doq := doc - 1461 * q in
  let y := Z.min 3 (doq / 365) in
  let doy := doq - 365 * y in
  let mp := (5 * doy + 2) / 153 in
  let d := doy - (153 * mp + 2) / 5 + 1 in
  let m := if mp <? 10 then mp + 3 else mp - 9 in
  (100 * c + 4 * q + y + (if m <=? 2 then 1 else 0), m, d).

(** 0001-01-01 is day 306 of era 0. *)
Definition civil_of_days (days : Z) : Z * Z * Z :=
  let z := days + 306 in
  let '(y, m, d) := civil_of_doe (z mod era_days) in
  (y + 400 * (z / era_days), m, d).

(** Days from the zero time; the year is split at its March start. *)
Definition days_of_civil (y m d : Z) : Z :=
  let y' := y - (if m <=? 2 then 1 else 0) in
  let yoe := y' mod 400 in
  let doy := (153 * (if 2 <? m then m - 3 else m + 9) + 2) / 5 + d - 1 in
  (y' / 400) * era_days + (yoe * 365 + yoe / 4 - yoe / 100 + doy) - 306.

Definition isLeap (y : Z) : bool :=
  (y mod 4 =? 0) && (negb (y mod 100 =? 0) || (y mod 400 =? 0)).

Definition daysIn (m y : Z) : Z :=
  if (m =? 2) then (if isLeap y then 29 else 28)
  else if (m =? 4) || (m =? 6) || (m =? 9) || (m =? 11) then 30 else 31.

(** ** Format *)

Definition digit (z : Z) : ascii := Z_byte (48 + z).

Definition two_digits (z : Z) : list ascii := [digit (z / 10); digit (z mod 10)].

Definition year_digits (y : Z) : list ascii :=
  if in_range 0 9999 y
  then [digit (y / 1000); digit (y / 100 mod 10); digit (y / 10 mod 10); digit (y mod 10)]
  else list_ascii_of_string (show_int y).

Definition dash : ascii := Z_byte 45.
Definition colon : ascii := Z_byte 58.
Definition char_T : ascii := Z_byte 84.
Definition char_Z : ascii := Z_byte 90.

Definition day_seconds : Z := 86400.

Definition FormatRFC3339 (t : Time) : string :=
  let secs := t / Second in
  let '(y, m, d) := civil_of_days (secs / day_seconds) in
  let s := secs mod day_seconds in
  string_of_list_ascii
    (year_digits y ++ dash :: two_digits m ++ dash :: two_digits d ++ char_T ::
     two_digits (s / 3600) ++ colon :: two_digits (s / 60 mod 60) ++ colon ::
     two_digits (s mod 60) ++ [char_Z]).

(** ** Parse *)

Definition literal (c : ascii) (l : list ascii) : option (list ascii) :=
  match l with
  | x :: l => if bool_decide (x = c) then Some l else None
  | [] => None
  end.

(** [getnum(value, true)] *)
Definition getnum2 (l : list ascii) : option (Z * list ascii) :=
  match l with
  | a :: b :: l => x ← digit_value a; y ← digit_value b; Some (10 * x + y, l)
  | _ => None
  end.

(** [getnum(value, false)]: one digit is enough. *)
Definition getnum1 (l : list ascii) : option (Z * list ascii) :=
  match l with
  | a :: l =>
    x ← digit_value a;
    match l with
    | b :: l' => match digit_value b with
                 | Some y => Some (10 * x + y, l')
                 | None => Some (x, l)
                 end
    | [] => Some (x, l)
    end
  | [] => None
  end.

Definition getyear (l : list ascii) : option (Z * list ascii) :=
  match l with
  | a :: b :: c :: d :: l => y ← digits_value 0 [a; b; c; d]; Some (y, l)
  | _ => None
  end.

Fixpoint span_digits (l : list ascii) : list Z * list ascii :=
  match l with
  | [] => ([], [])
  | c :: l' => match digit_value c with
               | Some d => let '(ds, rest) := span_digits l' in (d :: ds, rest)
               | None => ([], l)
               end
  end.

(** [parseNanoseconds]: nine digits, the rest ignored. *)
Definition nanos (ds : list Z) : Z :=
  foldl (fun acc d => 10 * acc + d) 0 (take 9 (ds ++ replicate 9 0)).

(** A fraction after the seconds, introduced by a period or a comma. *)
Definition getfraction (l : list ascii) : Z * list ascii :=
  match l with
  | c :: (d :: _) as l' =>
    if (bool_decide (c = Z_byte 46) || bool_decide (c = Z_byte 44))
       && bool_decide (is_Some (digit_value d))
    then let '(ds, rest) := span_digits (tail l) in (nanos ds, rest) else (0, l)
  | _ => (0, l)
  end.

(** The zone, ["Z"] or a signed [hh:mm], as an offset in seconds; nothing follows. *)
Definition getzone (l : list ascii) : option Z :=
  match l with
  | [] => None
  | c :: l =>
    if bool_decide (c = char_Z) then (if bool_decide (l = []) then Some 0 else None)
    else
      '(hr, l) ← getnum2 l; l ← literal colon l; '(mm, l) ← getnum2 l;
      if (24 <? hr) || (60 <? mm) || negb (bool_decide (l = [])) then None
      else let off := (hr * 60 + mm) * 60 in
           if bool_decide (c = Z_byte 43) then Some off
           else if bool_decide (c = dash) then Some (- off) else None
  end.

Definition date (y m d hh mm ss nsec : Z) : Time :=
  ((days_of_civil y m d * day_seconds) + hh * 3600 + mm * 60 + ss) * Second + nsec.

Definition ParseRFC3339 (s : string) : option Time :=
  let l := list_ascii_of_string s in
  '(y, l) ← getyear l; l ← literal dash l;
  '(m, l) ← getnum2 l; l ← literal dash l;
  '(d, l) ← getnum2 l; l ← literal char_T l;
  '(hh, l) ← getnum1 l; l ← literal colon l;
  '(mm, l) ← getnum2 l; l ← literal colon l;
  '(ss, l) ← getnum2 l;
  let '(nsec, l) := getfraction l in
  off ← getzone l;
  if in_range 1 12 m && in_range 1 (daysIn m y) d && in_range 0 23 hh && in_range 0 59 mm
     && in_range 0 59 ss
  then Some (date y m d hh mm ss nsec - off * Second) else None.

(** ** The calendar is a bijection *)

Definition march_year (y m : Z) : Z := y - (if m <=? 2 then 1 else 0).

Definition day_of_year (m d : Z) : Z :=
  (153 * (if 2 <? m then m - 3 else m + 9) + 2) / 5 + d - 1.

Fixpoint all_from (p : Z -> bool) (n : nat) (z : Z) : bool :=
  match n with O => true | S n => p z && all_from p n (z + 1) end.

Lemma all_from_true p n : forall z x, all_from p n z = true -> z <= x < z + Z.of_nat n -> p x = true.
Proof.
  induction n as [|n IH]; intros z x; simpl; [lia|]. rewrite andb_true_iff. intros [Hz Hn] Hx.
  destruct (decide (x = z)) as [->|]; [done|]. apply (IH (z + 1)); [done|lia].
Qed.

(** A day of the year, 0 to 365 from the first of March; the last one is the leap day. *)
Definition doy_ok (doy : Z) : bool :=
  let mp := (5 * doy + 2) / 153 in
  let d := doy - (153 * mp + 2) / 5 + 1 in
  let m := if mp <? 10 then mp + 3 else mp - 9 in
  (day_of_year m d =? doy) && in_range 1 12 m
  && in_range 1 (if (doy =? 365) then 29 else daysIn m 1) d && implb (doy =? 365) (m =? 2).

Lemma year_checked : all_from doy_ok 366 0 = true.
Proof. vm_compute. reflexivity. Qed.

Lemma doy_ok_all doy : 0 <= doy <= 365 -> doy_ok doy = true.
Proof. intros Hd. eapply all_from_true; [apply year_checked|]. lia. Qed.

Lemma isLeap_iff y : isLeap y = true <-> exists k, y = 4 * k /\ (y mod 100 <> 0 \/ y mod 400 = 0).
Proof.
  unfold isLeap. rewrite andb_true_iff, orb_true_iff, negb_true_iff, !Z.eqb_eq, Z.eqb_neq.
  split.
  - intros [H4 Hc]. exists (y / 4). split; [|done]. pose proof (Z_div_mod_eq_full y 4). lia.
  - intros (k & -> & Hc). split; [|done]. by rewrite Z.mul_comm, Z_mod_mult.
Qed.

Lemma daysIn_common m y : daysIn m 1 <= daysIn m y.
Proof. unfold daysIn. change (isLeap 1) with false. repeat case_match; lia. Qed.

(** The quotients of a day of an era. *)
Lemma doe_quotients doe :
  0 <= doe < era_days ->
  let c := Z.min 3 (doe / 36524) in
  let q := (doe - 36524 * c) / 1461 in
  let y := Z.min 3 ((doe - 36524 * c - 1461 * q) / 365) in
  let doy := doe - 36524 * c - 1461 * q - 365 * y in
  0 <= c <= 3 /\ 0 <= q <= 24 /\ 0 <= y <= 3 /\ 0 <= doy <= 365 /\
  (doy = 365 -> y = 3 /\ (q < 24 \/ c = 3)).
Proof.
  intros Hd. unfold era_days in Hd. cbv zeta.
  pose proof (Z_div_mod_eq_full doe 36524). pose proof (Z.mod_pos_bound doe 36524 eq_refl).
  set (c := Z.min 3 (doe / 36524)). assert (0 <= c <= 3) by lia.
  assert (0 <= doe - 36524 * c <= 36524) by lia.
  assert (c < 3 -> doe - 36524 * c < 36524) by lia.
  set (doc := doe - 36524 * c) in *.
  pose proof (Z_div_mod_eq_full doc 1461). pose proof (Z.mod_pos_bound doc 1461 eq_refl).
  set (q := doc / 1461) in *. assert (0 <= q <= 24) by lia.
  set (doq := doc - 1461 * q). assert (0 <= doq <= 1460) by lia.
  pose proof (Z_div_mod_eq_full doq 365). pose proof (Z.mod_pos_bound doq 365 eq_refl). lia.
Qed.

Lemma civil_of_doe_spec doe :
  0 <= doe < era_days ->
  let '(y, m, d) := civil_of_doe doe in
  let yoe := march_year y m in
  0 <= yoe <= 399 /\ yoe * 365 + yoe / 4 - yoe / 100 + day_of_year m d = doe /\
  1 <= m <= 12 /\ 1 <= d <= daysIn m y.
Proof.
  intros Hd. pose proof (doe_quotients doe Hd) as Hq. unfold civil_of_doe. cbv zeta in *.
  set (c := Z.min 3 (doe / 36524)) in *. set (q := (doe - 36524 * c) / 1461) in *.
  set (y := Z.min 3 ((doe - 36524 * c - 1461 * q) / 365)) in *.
  set (doy := doe - 36524 * c - 1461 * q - 365 * y) in *.
  destruct Hq as (Hc & Hq & Hy & Hdoy & Hleap).
  pose proof (doy_ok_all doy Hdoy) as Hok. unfold doy_ok in Hok.
  set (mp := (5 * doy + 2) / 153) in *. set (m := if mp <? 10 then mp + 3 else mp - 9) in *.
  set (d := doy - (153 * mp + 2) / 5 + 1) in *.
  rewrite !andb_true_iff, !in_range_iff, Z.eqb_eq in Hok. destruct Hok as [[[Hdy Hm] Hdd] Hfeb].
  unfold march_year. replace (100 * c + 4 * q + y + _ - _) with (100 * c + 4 * q + y) by lia.
  assert ((100 * c + 4 * q + y) / 4 = 25 * c + q) as ->
    by (symmetry; apply (Z.div_unique_pos _ _ _ y); lia).
  assert ((100 * c + 4 * q + y) / 100 = c) as ->
    by (symmetry; apply (Z.div_unique_pos _ _ _ (4 * q + y)); lia).
  split_and!; try lia. destruct (Z.eqb_spec doy 365) as [H365|H365].
  - simpl in Hfeb. apply Z.eqb_eq in Hfeb. destruct (Hleap H365) as [-> Hlast].
    rewrite Hfeb. unfold daysIn. simpl. rewrite (proj2 (isLeap_iff _)); [lia|].
    exists (25 * c + q + 1). split; [lia|]. destruct Hlast as [Hq24| ->].
    + left. rewrite <- (Z.mod_unique_pos _ 100 c (4 * q + 4)); lia.
    + destruct (decide (q = 24)) as [->|]; [by right|left].
      rewrite <- (Z.mod_unique_pos _ 100 3 (4 * q + 4)); lia.
  - pose proof (daysIn_common m (100 * c + 4 * q + y + (if m <=? 2 then 1 else 0))). lia.
Qed.

Lemma daysIn_period m y k : daysIn m (y + 400 * k) = daysIn m y.
Proof.
  unfold daysIn, isLeap.
  replace (y + 400 * k) with (y + (100 * k) * 4) at 1 by lia.
  replace (y + 400 * k) with (y + (4 * k) * 100) at 1 by lia.
  replace (y + 400 * k) with (y + k * 400) by lia.
  by rewrite !Z_mod_plus_full.
Qed.

Lemma civil_of_days_spec days :
  let '(y, m, d) := civil_of_days days in
  days_of_civil y m d = days /\ 1 <= m <= 12 /\ 1 <= d <= daysIn m y.
Proof.
  unfold civil_of_days. pose proof (Z.mod_pos_bound (days + 306) era_days eq_refl) as Hr.
  pose proof (civil_of_doe_spec _ Hr) as Hok.
  pose proof (Z_div_mod_eq_full (days + 306) era_days) as Hz.
  destruct (civil_of_doe _) as [[y m] d]. destruct Hok as (Hy & Hdoe & Hm & Hd).
  split; [|by rewrite daysIn_period].
  unfold days_of_civil, march_year, day_of_year in *.
  replace (y + _ - _) with ((y - (if m <=? 2 then 1 else 0)) + (days + 306) / era_days * 400) by lia.
  rewrite Z_mod_plus_full, Z_div_plus_full, Z.mod_small, Z.div_small by lia. lia.
Qed.

(** ** Parse undoes Format, up to the second *)

Lemma digit_value_digit z : 0 <= z <= 9 -> digit_value (digit z) = Some z.
Proof.
  intros Hz. assert (z ∈ seqZ 0 10) as Hin by (apply elem_of_seqZ; lia).
  revert Hin. change (seqZ 0 10) with [0; 1; 2; 3; 4; 5; 6; 7; 8; 9].
  rewrite !elem_of_cons, elem_of_nil. intros H. by repeat destruct H as [->|H].
Qed.

Lemma digit_bounds n : 0 <= n <= 99 -> 0 <= n / 10 <= 9 /\ 0 <= n mod 10 <= 9.
Proof. intros Hn. pose proof (Z_div_mod_eq_full n 10). pose proof (Z.mod_pos_bound n 10 eq_refl). lia. Qed.

Lemma getnum2_two_digits n l : 0 <= n <= 99 -> getnum2 (two_digits n ++ l) = Some (n, l).
Proof.
  intros Hn. destruct (digit_bounds n Hn). simpl. rewrite !digit_value_digit by done. simpl.
  by rewrite <- Z_div_mod_eq_full.
Qed.

Lemma getnum1_two_digits n l : 0 <= n <= 99 -> getnum1 (two_digits n ++ l) = Some (n, l).
Proof.
  intros Hn. destruct (digit_bounds n Hn). simpl. rewrite !digit_value_digit by done. simpl.
  by rewrite <- Z_div_mod_eq_full.
Qed.

Lemma getyear_year_digits y l : 0 <= y <= 9999 -> getyear (year_digits y ++ l) = Some (y, l).
Proof.
  intros Hy. unfold year_digits. rewrite (proj2 (in_range_iff _ _ _)) by done.
  pose proof (Z_div_mod_eq_full y 10) as E1. pose proof (Z.mod_pos_bound y 10 eq_refl).
  pose proof (Z_div_mod_eq_full (y / 10) 10) as E2. pose proof (Z.mod_pos_bound (y / 10) 10 eq_refl).
  pose proof (Z_div_mod_eq_full (y / 100) 10) as E3. pose proof (Z.mod_pos_bound (y / 100) 10 eq_refl).
  rewrite Z.div_div in E2, E3 by lia. change (10 * 10) with 100 in E2. change (100 * 10) with 1000 in E3.
  cbn [app getyear digits_value]. rewrite !digit_value_digit by lia.
  cbn [mbind option_bind]. do 2 f_equal. lia.
Qed.

Lemma literal_cons c l : literal c (c :: l) = Some l.
Proof. unfold literal. by rewrite bool_decide_eq_true_2. Qed.

Lemma clock_of_secs s :
  0 <= s < day_seconds ->
  0 <= s / 3600 <= 23 /\ 0 <= s / 60 mod 60 <= 59 /\ 0 <= s mod 60 <= 59 /\
  s / 3600 * 3600 + s / 60 mod 60 * 60 + s mod 60 = s.
Proof.
  intros Hs. unfold day_seconds in Hs. pose proof (Z_div_mod_eq_full s 60).
  pose proof (Z.mod_pos_bound s 60 eq_refl). pose proof (Z_div_mod_eq_full (s / 60) 60) as E.
  pose proof (Z.mod_pos_bound (s / 60) 60 eq_refl). rewrite Z.div_div in E by lia.
  change (60 * 60) with 3600 in E. lia.
Qed.

(** The year of an instant, UTC. *)
Definition year_of (t : Time) : Z := (civil_of_days (t / Second / day_seconds)).1.1.

(** The instant of the last whole second. *)
Definition TruncateSecond (t : Time) : Time := t / Second * Second.

Lemma Parse_Format t :
  0 <= year_of t <= 9999 -> ParseRFC3339 (FormatRFC3339 t) = Some (TruncateSecond t).
Proof.
  unfold year_of, FormatRFC3339, ParseRFC3339, TruncateSecond. set (secs := t / Second).
  pose proof (civil_of_days_spec (secs / day_seconds)) as Hc.
  destruct (civil_of_days _) as [[y m] d]. cbn [fst]. intros Hy. destruct Hc as (Hdays & Hm & Hd).
  assert (daysIn m y <= 31) as H31 by (unfold daysIn; repeat case_match; lia).
  pose proof (Z.mod_pos_bound secs day_seconds eq_refl) as Hs.
  destruct (clock_of_secs _ Hs) as (Hh & Hmin & Hsec & Hclock).
  pose proof (Z_div_mod_eq_full secs day_seconds) as Hsecs.
  set (s := secs mod day_seconds) in *. rewrite list_ascii_of_string_of_list_ascii.
  rewrite getyear_year_digits by done. cbn [mbind option_bind].
  rewrite literal_cons. cbn [mbind option_bind]. rewrite getnum2_two_digits by lia. cbn [mbind option_bind].
  rewrite literal_cons. cbn [mbind option_bind]. rewrite getnum2_two_digits by lia. cbn [mbind option_bind].
  rewrite literal_cons. cbn [mbind option_bind]. rewrite getnum1_two_digits by lia. cbn [mbind option_bind].
  rewrite literal_cons. cbn [mbind option_bind]. rewrite getnum2_two_digits by lia. cbn [mbind option_bind].
  rewrite literal_cons. cbn [mbind option_bind]. rewrite getnum2_two_digits by lia. cbn [mbind option_bind].
  cbn [getfraction getzone]. rewrite !bool_decide_eq_true_2 by done. cbn [mbind option_bind].
  rewrite !(proj2 (in_range_iff _ _ _)) by lia. cbn [andb]. f_equal. unfold date. rewrite Hdays. nia.
Qed.

Example Format_ex :
  FormatRFC3339 (date 2026 2 28 23 59 58 999999999) = "2026-02-28T23:59:58Z" /\
  FormatRFC3339 0 = "0001-01-01T00:00:00Z" /\
  FormatRFC3339 (unixToInternal * Second) = "1970-01-01T00:00:00Z".
Proof. vm_compute. auto. Qed.

Example Parse_ex :
  ParseRFC3339 "1970-01-01T01:30:00.25+01:30" = Some (unixToInternal * Second + 250 * Millisecond) /\
  ParseRFC3339 "2023-02-29T00:00:00Z" = None.
Proof. vm_compute. auto. Qed.
