(* ===== verification/ShellArgs.v ===== *)
(** * platform/agentlaunch: the command lexer

    src/services/platform/agentlaunch/splitargs.go and joinargs.go.  [LexArgs] walks
    a command twice: [lexCookedArgs] computes the argument values, [lexRawSpans] the
    byte span of each argument, pairing the two by position.  The second pass indexes
    the result of the first and slices the command, both of which panic when out of
    range: a panic is [None] here. *)

From Stdlib Require Import String.
From S2P Require Import Prelude GoStd GoStrings.

Record ArgToken := mkArgToken { Raw : string; Value : string }.

Inductive LexMode := stateBare | stateSingle | stateDouble.

Inductive LexError := UnterminatedEscape | UnterminatedSingleQuote | UnterminatedDoubleQuote.

Definition lex_blank (c : ascii) : bool :=
  bool_decide (c = ascii_of_nat 32) || bool_decide (c = ascii_of_nat 9)
  || bool_decide (c = newline).

(** ** The first pass *)

(** The builder [cur] is kept in writing order. *)
Definition WriteByte (cur : string) (c : ascii) : string := cur +:+ String c EmptyString.

Fixpoint cook (command : string) (args : list string) (cur : string) (inToken : bool)
    (mode : LexMode) : LexError + list string :=
  match command with
  | EmptyString =>
    match mode with
    | stateSingle => inl UnterminatedSingleQuote
    | stateDouble => inl UnterminatedDoubleQuote
    | stateBare => inr (if inToken then args ++ [cur] else args)
    end
  | String c rest =>
    match mode with
    | stateSingle =>
      if bool_decide (c = quote) then cook rest args cur inToken stateBare
      else cook rest args (WriteByte cur c) inToken stateSingle
    | stateDouble =>
      if bool_decide (c = dquote) then cook rest args cur inToken stateBare
      else if bool_decide (c = backslash) then
        match rest with
        | EmptyString => inl UnterminatedEscape
        | String d rest => cook rest args (WriteByte cur d) inToken stateDouble
        end
      else cook rest args (WriteByte cur c) inToken stateDouble
    | stateBare =>
      if lex_blank c then
        if inToken then cook rest (args ++ [cur]) EmptyString false stateBare
        else cook rest args cur inToken stateBare
      else if bool_decide (c = quote) then cook rest args cur true stateSingle
      else if bool_decide (c = dquote) then cook rest args cur true stateDouble
      else if bool_decide (c = backslash) then
        match rest with
        | EmptyString => inl UnterminatedEscape
        | String d rest => cook rest args (WriteByte cur d) true stateBare
        end
      else cook rest args (WriteByte cur c) true stateBare
    end
  end.

Definition lexCookedArgs (command : string) : LexError + list string :=
  cook command [] EmptyString false stateBare.

(** ** The second pass *)

(** [s[i:j]], which panics unless [0 <= i <= j <= len(s)]. *)
Definition slice (s : string) (i j : Z) : option string :=
  if (0 <=? i) && (i <=? j) && (j <=? Z.of_nat (String.length s))
  then Some (String.substring (Z.to_nat i) (Z.to_nat (j - i)) s) else None.

(** [args[i]], which panics when out of range. *)
Definition index (args : list string) (i : Z) : option string :=
  if 0 <=? i then args !! Z.to_nat i else None.

Section Spans.
Variables (command : string) (args : list string).

Definition append_token (rawTokens : list ArgToken) (tokenStart i valueIdx : Z) :
    option (list ArgToken) :=
  raw ← slice command tokenStart i; value ← index args valueIdx;
  Some (rawTokens ++ [mkArgToken raw value]).

(** [rest] is [command[i:]]. *)
Fixpoint spans (rest : string) (i : Z) (rawTokens : list ArgToken) (inToken : bool)
    (mode : LexMode) (tokenStart valueIdx : Z) : option (list ArgToken) :=
  match rest with
  | EmptyString =>
    if inToken
    then append_token rawTokens tokenStart (Z.of_nat (String.length command)) valueIdx
    else Some rawTokens
  | String c rest =>
    let start := if inToken then tokenStart else i in
    match mode with
    | stateSingle =>
      spans rest (i + 1) rawTokens inToken
        (if bool_decide (c = quote) then stateBare else stateSingle) tokenStart valueIdx
    | stateDouble =>
      if bool_decide (c = dquote)
      then spans rest (i + 1) rawTokens inToken stateBare tokenStart valueIdx
      else if bool_decide (c = backslash) then
        match rest with
        | EmptyString => spans rest (i + 1) rawTokens inToken stateDouble tokenStart valueIdx
        | String _ rest => spans rest (i + 2) rawTokens inToken stateDouble tokenStart valueIdx
        end
      else spans rest (i + 1) rawTokens inToken stateDouble tokenStart valueIdx
    | stateBare =>
      if lex_blank c then
        if inToken then
          rawTokens ← append_token rawTokens tokenStart i valueIdx;
          spans rest (i + 1) rawTokens false stateBare (-1) (valueIdx + 1)
        else spans rest (i + 1) rawTokens inToken stateBare tokenStart valueIdx
      else if bool_decide (c = quote)
      then spans rest (i + 1) rawTokens true stateSingle start valueIdx
      else if bool_decide (c = dquote)
      then spans rest (i + 1) rawTokens true stateDouble start valueIdx
      else if bool_decide (c = backslash) then
        match rest with
        | EmptyString => spans rest (i + 1) rawTokens true stateBare start valueIdx
        | String _ rest => spans rest (i + 2) rawTokens true stateBare start valueIdx
        end
      else spans rest (i + 1) rawTokens true stateBare start valueIdx
    end
  end.

Definition lexRawSpans : option (list ArgToken) := spans command 0 [] false stateBare (-1) 0.

End Spans.

(** ** LexArgs and SplitArgs *)

Definition LexArgs (command : string) : option (LexError + list ArgToken) :=
  match lexCookedArgs command with
  | inl err => Some (inl err)
  | inr args => match lexRawSpans command args with
                | Some tokens => Some (inr tokens)
                | None => None
                end
  end.

Definition SplitArgs (command : string) : option (LexError + list string) :=
  match LexArgs command with
  | Some (inr tokens) => Some (inr (map Value tokens))
  | Some (inl err) => Some (inl err)
  | None => None
  end.

(** ** JoinArgs *)

Definition safe_punctuation : list ascii := list_ascii_of_string "@%_+=:,./-".

Definition safe_rune (r : Z) : bool :=
  in_range 97 122 r || in_range 65 90 r || in_range 48 57 r
  || existsb (fun c => byte_Z c =? r) safe_punctuation.

Definition isSafeArg (arg : string) : bool := forallb safe_rune (runes arg).

(** The four bytes that close a quote, add an escaped quote and open one again. *)
Definition escaped_quote : string :=
  string_of_list_ascii [quote; backslash; quote; quote].

Definition single (c : ascii) : string := String c EmptyString.

Definition quoteArg (arg : string) : string :=
  if bool_decide (arg = "") then single quote +:+ single quote
  else if isSafeArg arg then arg
  else single quote +:+ ReplaceByte arg quote escaped_quote +:+ single quote.

Definition JoinArgs (argv : list string) : string :=
  if bool_decide (argv = []) then "" else strings_Join (quoteArg <$> argv) " ".

(** ** An abstract lexer

    One pass, one byte at a time: what the two passes compute together. *)

Inductive AMode := Bare | Single | Double | BareEscape | DoubleEscape.

Record AState := mkA {
  a_mode : AMode; a_in : bool; a_cur : string; a_raw : string; a_done : list ArgToken }.

Definition start (done : list ArgToken) : AState := mkA Bare false "" "" done.

Definition astep (st : AState) (c : ascii) : AState :=
  let '(mkA mode inToken cur raw done) := st in
  let raw' := WriteByte raw c in
  match mode with
  | Single =>
    if bool_decide (c = quote) then mkA Bare inToken cur raw' done
    else mkA Single inToken (WriteByte cur c) raw' done
  | Double =>
    if bool_decide (c = dquote) then mkA Bare inToken cur raw' done
    else if bool_decide (c = backslash) then mkA DoubleEscape inToken cur raw' done
    else mkA Double inToken (WriteByte cur c) raw' done
  | DoubleEscape => mkA Double inToken (WriteByte cur c) raw' done
  | BareEscape => mkA Bare inToken (WriteByte cur c) raw' done
  | Bare =>
    if lex_blank c then
      if inToken then start (done ++ [mkArgToken raw cur]) else st
    else if bool_decide (c = quote) then mkA Single true cur raw' done
    else if bool_decide (c = dquote) then mkA Double true cur raw' done
    else if bool_decide (c = backslash) then mkA BareEscape true cur raw' done
    else mkA Bare true (WriteByte cur c) raw' done
  end.

Fixpoint arun (st : AState) (s : string) : AState :=
  match s with
  | EmptyString => st
  | String c s => arun (astep st c) s
  end.

Definition tokens_of (st : AState) : list ArgToken :=
  if a_in st then a_done st ++ [mkArgToken (a_raw st) (a_cur st)] else a_done st.

Definition finish (st : AState) : LexError + list ArgToken :=
  match a_mode st with
  | Bare => inr (tokens_of st)
  | Single => inl UnterminatedSingleQuote
  | Double => inl UnterminatedDoubleQuote
  | BareEscape | DoubleEscape => inl UnterminatedEscape
  end.

Definition lex (command : string) : LexError + list ArgToken := finish (arun (start []) command).

Definition values (r : LexError + list ArgToken) : LexError + list string :=
  match r with inl err => inl err | inr tokens => inr (map Value tokens) end.

(** ** The two passes implement it *)

Lemma WriteByte_app cur c s : WriteByte cur c +:+ s = cur +:+ String c s.
Proof. unfold WriteByte. by rewrite str_app_assoc, str_app_cons. Qed.

Lemma WriteByte_length cur c : String.length (WriteByte cur c) = S (String.length cur).
Proof. unfold WriteByte. rewrite str_length_app. simpl. lia. Qed.

Lemma arun_app st a b : arun st (a +:+ b) = arun (arun st a) b.
Proof. revert st. induction a as [|c a IH]; intros st; [done|]. apply IH. Qed.

Definition embed (mode : LexMode) : AMode :=
  match mode with stateBare => Bare | stateSingle => Single | stateDouble => Double end.

(** Induction on a command of which one or two bytes are consumed at a time. *)
Lemma string_ind2 (P : string -> Prop) :
  P "" -> (forall c s, P s -> (forall d s', s = String d s' -> P s') -> P (String c s)) ->
  forall s, P s.
Proof.
  intros H0 HS s. cut (P s /\ forall c s', s = String c s' -> P s'); [tauto|].
  induction s as [|c s [IH IH']]; split; [done|done| |].
  - by apply HS.
  - by intros c' s' [= _ ->].
Qed.

Ltac decide_bytes :=
  repeat match goal with
  | |- context [lex_blank ?c] => destruct (lex_blank c) eqn:?
  | |- context [bool_decide ?p] => destruct (bool_decide_reflect p); subst
  end.

Lemma cook_abs rest : forall args cur inToken mode raw done,
  args = map Value done ->
  cook rest args cur inToken mode
  = values (finish (arun (mkA (embed mode) inToken cur raw done) rest)).
Proof.
  induction rest as [|c rest IH IH2] using string_ind2;
    intros args cur inToken mode raw done ->; simpl.
  { destruct mode, inToken; unfold finish, tokens_of; simpl; by rewrite ?map_app. }
  destruct mode; simpl; decide_bytes; simpl;
    try (erewrite IH by done; reflexivity).
  - destruct inToken; simpl; [|erewrite IH by done; reflexivity].
    rewrite (IH _ _ _ _ "" (done ++ [mkArgToken raw cur])) by (by rewrite map_app). done.
  - destruct rest as [|d rest]; [done|]. simpl. by erewrite IH2 by done.
  - destruct rest as [|d rest]; [done|]. simpl. by erewrite IH2 by done.
Qed.

Lemma lexCookedArgs_abs command : lexCookedArgs command = values (lex command).
Proof. by apply cook_abs. Qed.

Lemma substring_exact (p t s : string) :
  String.substring (String.length p) (String.length t) (p +:+ t +:+ s) = t.
Proof.
  induction p as [|c p IH]; [|by rewrite str_app_cons].
  rewrite str_app_nil. simpl (String.length ""). induction t as [|c t IH].
  - by destruct s.
  - rewrite str_app_cons. simpl. by rewrite IH.
Qed.

Lemma slice_exact p t s :
  slice (p +:+ t +:+ s) (Z.of_nat (String.length p)) (Z.of_nat (String.length (p +:+ t))) = Some t.
Proof.
  unfold slice. rewrite !str_length_app.
  rewrite (proj2 (Z.leb_le _ _)), (proj2 (Z.leb_le _ _)), (proj2 (Z.leb_le _ _)) by lia. simpl.
  rewrite Nat2Z.id. replace (Z.to_nat _) with (String.length t) by lia.
  by rewrite substring_exact.
Qed.

(** Tokens are only ever added. *)
Lemma tokens_of_step st c : exists k, tokens_of (astep st c) = a_done st ++ k.
Proof.
  destruct st as [mode inToken cur raw done]. unfold tokens_of.
  destruct mode; simpl; decide_bytes; destruct inToken; simpl; eauto using app_nil_r.
  all: exists []; by rewrite app_nil_r.
Qed.

Lemma done_step st c : exists k, a_done (astep st c) = a_done st ++ k.
Proof.
  destruct st as [mode inToken cur raw done].
  destruct mode; simpl; decide_bytes; destruct inToken; simpl; eauto.
  all: exists []; by rewrite app_nil_r.
Qed.

Lemma tokens_of_arun s : forall st, exists k, tokens_of (arun st s) = a_done st ++ k.
Proof.
  induction s as [|c s IH]; intros st.
  - unfold tokens_of. simpl. destruct (a_in st); [eauto|]. exists []. by rewrite app_nil_r.
  - simpl. destruct (IH (astep st c)) as [k ->]. destruct (done_step st c) as [k' ->].
    rewrite <- app_assoc. eauto.
Qed.

Definition all_values (final : AState) : list string := map Value (tokens_of final).

Lemma append_token_spec command final p raw rest cur done k :
  command = p +:+ raw +:+ rest ->
  tokens_of final = done ++ [mkArgToken raw cur] ++ k ->
  append_token command (all_values final) done (Z.of_nat (String.length p))
    (Z.of_nat (String.length (p +:+ raw))) (Z.of_nat (length done))
  = Some (done ++ [mkArgToken raw cur]).
Proof.
  intros Hc Hf. unfold append_token. rewrite Hc, slice_exact. simpl.
  unfold index, all_values. rewrite (proj2 (Z.leb_le _ _)) by lia.
  rewrite Nat2Z.id, Hf, map_app, lookup_app_r by (by rewrite length_map).
  by rewrite length_map, Nat.sub_diag.
Qed.

(** Where the second pass is: [p] precedes the token under way, [raw] is what has
    been read of it, [rest] what is left of the command. *)
Record sync (command p : string) (i : Z) (inToken : bool) (mode : LexMode) (raw : string)
    (tokenStart : Z) (rest : string) : Prop := {
  sync_command : command = p +:+ raw +:+ rest;
  sync_i : i = Z.of_nat (String.length (p +:+ raw));
  sync_start : inToken = true -> tokenStart = Z.of_nat (String.length p);
  sync_idle : inToken = false -> raw = "" /\ mode = stateBare }.

Lemma sync_next command p i inToken mode raw tokenStart c rest mode' :
  sync command p i inToken mode raw tokenStart (String c rest) ->
  sync command p (i + 1) true mode' (WriteByte raw c) (if inToken then tokenStart else i) rest.
Proof.
  intros [Hc Hi Hs Hn]. split; [by rewrite WriteByte_app| | |done].
  - subst i. rewrite !str_length_app, WriteByte_length. lia.
  - intros _. destruct inToken; [by apply Hs|]. destruct Hn as [-> _]; [done|].
    by rewrite str_app_nil_r in Hi.
Qed.

Lemma sync_next2 command p i inToken mode raw tokenStart c d rest mode' :
  sync command p i inToken mode raw tokenStart (String c (String d rest)) ->
  sync command p (i + 2) true mode' (WriteByte (WriteByte raw c) d)
    (if inToken then tokenStart else i) rest.
Proof.
  intros Hs. replace (i + 2) with (i + 1 + 1) by lia.
  change (if inToken then tokenStart else i) with
    (if true then (if inToken then tokenStart else i) else i + 1).
  eapply (sync_next _ _ _ true mode). by eapply sync_next.
Qed.

Lemma sync_flush command p i inToken mode raw tokenStart c rest any :
  sync command p i inToken mode raw tokenStart (String c rest) ->
  sync command (p +:+ WriteByte raw c) (i + 1) false stateBare "" any rest.
Proof.
  intros [Hc Hi Hs Hn]. split; [|by rewrite str_app_nil_r, Hi, !str_length_app, WriteByte_length; lia|done|done].
  by rewrite str_app_nil, str_app_assoc, WriteByte_app.
Qed.

Lemma sync_token command p i mode raw tokenStart c rest done cur final :
  sync command p i true mode raw tokenStart (String c rest) ->
  arun (start (done ++ [mkArgToken raw cur])) rest = final ->
  append_token command (all_values final) done tokenStart i (Z.of_nat (length done))
  = Some (done ++ [mkArgToken raw cur]).
Proof.
  intros [Hc Hi Hs _] Hrun. rewrite Hs, Hi by done.
  destruct (tokens_of_arun rest (start (done ++ [mkArgToken raw cur]))) as [k Hk].
  eapply (append_token_spec _ _ p raw (String c rest) cur done k); [done|].
  rewrite <- Hrun, Hk. simpl. by rewrite <- app_assoc.
Qed.

Lemma spans_abs command rest : forall p i inToken mode cur raw done tokenStart final,
  sync command p i inToken mode raw tokenStart rest ->
  arun (mkA (embed mode) inToken cur raw done) rest = final -> a_mode final = Bare ->
  spans command (all_values final) rest i done inToken mode tokenStart
    (Z.of_nat (length done)) = Some (tokens_of final).
Proof.
  induction rest as [|c rest IH IH2] using string_ind2;
    intros p i inToken mode cur raw done tokenStart final Hsync Hrun Hm.
  { simpl in Hrun. subst final. simpl in Hm. destruct mode; try done.
    simpl. destruct inToken; [|done]. destruct Hsync as [Hc Hi Hs _]. rewrite Hs by done.
    rewrite Hc at 2. rewrite str_app_nil_r.
    by erewrite (append_token_spec _ _ p raw "" cur done []). }
  assert (mode = stateBare \/ inToken = true) as Hmode.
  { destruct inToken; [by right|left]. by apply Hsync. }
  revert Hrun. simpl. destruct mode; simpl; decide_bytes; simpl; intros Hrun.
  - destruct inToken.
    + erewrite sync_token by done. simpl.
      replace (Z.of_nat (length done) + 1) with
        (Z.of_nat (length (done ++ [mkArgToken raw cur]))) by (rewrite length_app; simpl; lia).
      eapply (IH _ _ _ stateBare); [by eapply sync_flush|done|done].
    + destruct (sync_idle _ _ _ _ _ _ _ _ Hsync) as [-> _]; [done|].
      eapply IH; [by eapply sync_flush|done|done].
  - eapply IH; [by eapply sync_next|done|done].
  - eapply IH; [by eapply sync_next|done|done].
  - destruct rest as [|d rest]; [simpl in Hrun; by subst final|].
    eapply (IH2 _ _ eq_refl); [by eapply sync_next2|done|done].
  - eapply IH; [by eapply sync_next|done|done].
  - destruct Hmode as [?| ->]; [done|]. eapply IH; [by eapply (sync_next _ _ _ true)|done|done].
  - destruct Hmode as [?| ->]; [done|]. eapply IH; [by eapply (sync_next _ _ _ true)|done|done].
  - destruct Hmode as [?| ->]; [done|]. eapply IH; [by eapply (sync_next _ _ _ true)|done|done].
  - destruct rest as [|d rest]; [simpl in Hrun; by subst final|].
    destruct Hmode as [?| ->]; [done|].
    eapply (IH2 _ _ eq_refl); [by eapply (sync_next2 _ _ _ true)|done|done].
  - destruct Hmode as [?| ->]; [done|]. eapply IH; [by eapply (sync_next _ _ _ true)|done|done].
Qed.

(** The second pass finds a value for every span, and no slice is out of range. *)
Lemma LexArgs_lex command : LexArgs command = Some (lex command).
Proof.
  unfold LexArgs. rewrite lexCookedArgs_abs. unfold lex.
  destruct (a_mode (arun (start []) command)) eqn:Hm;
    try (unfold finish; rewrite Hm; reflexivity).
  unfold finish. rewrite Hm. cbn [values].
  pose proof (spans_abs command command "" 0 false stateBare "" "" [] (-1)
    (arun (start []) command)) as Hs.
  unfold all_values in Hs. change (Z.of_nat (length [])) with 0 in Hs.
  unfold lexRawSpans. by rewrite Hs.
Qed.

(** ** Tokens lex to themselves *)

(** A raw text that reads as one argument, wherever a token may start. *)
Definition lexes_to (raw value : string) : Prop :=
  forall done, arun (start done) raw = mkA Bare true value raw done.

(** The lexer state without the tokens already read. *)
Definition with_done (st : AState) (done : list ArgToken) : AState :=
  mkA (a_mode st) (a_in st) (a_cur st) (a_raw st) done.

(** [gaps] and [tokens] alternate: the blanks before each token and its raw text. *)
Fixpoint weave (gaps : list string) (tokens : list ArgToken) : string :=
  match gaps, tokens with
  | g :: gaps, t :: tokens => g +:+ Raw t +:+ weave gaps tokens
  | _, _ => ""
  end.

Definition blanks (s : string) : Prop := Forall (fun c => lex_blank c = true) (list_ascii_of_string s).

(** What is read so far: whole tokens, a gap, and the token under way. *)
Record reads (pre : string) (st : AState) (gaps : list string) (gap : string) : Prop := {
  reads_text : pre = weave gaps (a_done st) +:+ gap +:+ a_raw st;
  reads_length : length gaps = length (a_done st);
  reads_blanks : Forall blanks (gap :: gaps);
  reads_apart : Forall (fun g => g <> "") (tail (gaps ++ [gap]));
  reads_idle : a_in st = false -> st = start (a_done st);
  reads_tokens : Forall (fun t => lexes_to (Raw t) (Value t)) (a_done st);
  reads_token : a_in st = true -> forall d, arun (start d) (a_raw st) = with_done st d }.

Lemma weave_snoc gaps tokens g t :
  length gaps = length tokens ->
  weave (gaps ++ [g]) (tokens ++ [t]) = weave gaps tokens +:+ g +:+ Raw t.
Proof.
  revert tokens. induction gaps as [|h gaps IH]; intros [|u tokens]; simpl; try done.
  - intros _. by rewrite str_app_nil, str_app_nil_r.
  - intros [= Hl]. by rewrite IH, !str_app_assoc.
Qed.

Lemma WriteByte_run d raw c : arun (start d) (WriteByte raw c) = astep (arun (start d) raw) c.
Proof. unfold WriteByte. by rewrite arun_app. Qed.

(** A byte that belongs to a token, the first one or a later one. *)
Definition in_token_byte (st : AState) (c : ascii) : bool :=
  match a_mode st with Bare => negb (lex_blank c) | _ => true end.

Lemma astep_in_token st c d :
  in_token_byte st c = true ->
  a_in st = true \/ a_mode st = Bare ->
  let st' := astep st c in
  a_in st' = true /\ a_raw st' = WriteByte (a_raw st) c /\ a_done st' = a_done st /\
  astep (with_done st d) c = with_done st' d.
Proof.
  destruct st as [mode inToken cur raw done]. unfold in_token_byte, with_done. simpl.
  intros Hb Hin. destruct mode; simpl; simpl in Hb, Hin;
    try rewrite (proj1 (negb_true_iff _) Hb); decide_bytes; simpl;
    repeat split; try done; naive_solver.
Qed.

Lemma reads_step pre st gaps gap c :
  reads pre st gaps gap -> exists gaps' gap', reads (WriteByte pre c) (astep st c) gaps' gap'.
Proof.
  intros [Ht Hl Hb Ha Hi Hd Hr]. destruct (in_token_byte st c) eqn:Hin.
  - exists gaps, gap.
    assert (a_in st = true \/ a_mode st = Bare) as Hor.
    { destruct (a_in st); [by left|right]. by rewrite Hi. }
    destruct (astep_in_token st c [] Hin Hor) as (Hin' & Hraw & Hdone & _).
    split; rewrite ?Hdone; try done.
    + rewrite Hraw, Ht. unfold WriteByte. by rewrite !str_app_assoc.
    + by rewrite Hin'.
    + intros _ d. rewrite Hraw, WriteByte_run.
      destruct (astep_in_token st c d Hin Hor) as (_ & _ & _ & <-). f_equal.
      destruct (a_in st) eqn:Hst; [by apply Hr|]. by rewrite Hi.
  - unfold in_token_byte in Hin. destruct st as [mode inToken cur raw done]. simpl in *.
    destruct mode; try done. apply negb_false_iff in Hin.
    assert (blanks (single c)) as Hc by (by repeat constructor).
    destruct inToken; rewrite Hin.
    + exists (gaps ++ [gap]), (single c). split; simpl; rewrite ?str_app_nil_r; try done.
      * rewrite weave_snoc by done. rewrite Ht. unfold WriteByte. simpl. by rewrite !str_app_assoc.
      * rewrite !length_app. simpl. lia.
      * constructor; [done|]. apply Forall_app. inversion_clear Hb. auto.
      * destruct gaps as [|g gaps]; simpl; [by constructor|].
        simpl in Ha. apply Forall_app. split; [done|]. by constructor.
      * apply Forall_app. split; [done|]. constructor; [|done]. intros d. by rewrite Hr.
    + exists gaps, (WriteByte gap c). inversion_clear Hb as [|? ? Hg Hgs].
      pose proof (Hi eq_refl) as Hst. unfold start in Hst. injection Hst as -> ->. split; simpl; try done.
      * rewrite Ht. unfold WriteByte. simpl. by rewrite !str_app_nil_r, !str_app_assoc.
      * constructor; [|done]. unfold blanks, WriteByte. rewrite ascii_app. by apply Forall_app.
      * destruct gaps as [|g gaps]; simpl in *; [done|].
        apply Forall_app in Ha as [Ha1 _]. apply Forall_app. split; [done|].
        constructor; [|done]. by destruct gap.
Qed.

Lemma reads_run s : forall pre st gaps gap,
  reads pre st gaps gap -> exists gaps' gap', reads (pre +:+ s) (arun st s) gaps' gap'.
Proof.
  induction s as [|c s IH]; intros pre st gaps gap Hr; [rewrite str_app_nil_r; eauto|].
  destruct (reads_step _ _ _ _ c Hr) as (gaps1 & gap1 & Hr1).
  rewrite <- WriteByte_app. by apply (IH _ _ _ _ Hr1).
Qed.

Lemma reads_start : reads "" (start []) [] "".
Proof. split; try done; repeat constructor. Qed.

Lemma lex_tokens command tokens :
  lex command = inr tokens -> exists gaps last,
    command = weave gaps tokens +:+ last /\ length gaps = length tokens /\
    Forall blanks (last :: gaps) /\ Forall (fun g => g <> "") (tail gaps) /\
    Forall (fun t => lexes_to (Raw t) (Value t)) tokens.
Proof.
  destruct (reads_run command "" (start []) [] "" reads_start)
    as (gaps & gap & [Ht Hl Hb Ha Hi Hd Hr]).
  rewrite str_app_nil in Ht. unfold lex. intros Hf. unfold finish, tokens_of in Hf.
  destruct (arun (start []) command) as [mode inToken cur raw done]. simpl in *.
  destruct mode; try done. injection Hf as <-. destruct inToken.
  - exists (gaps ++ [gap]), "". rewrite weave_snoc, !length_app by done. simpl.
    inversion_clear Hb.
    split_and!; [by rewrite str_app_nil_r|lia|constructor; [by constructor|apply Forall_app; auto]|done|].
    apply Forall_app. split; [done|]. constructor; [|done]. intros d. by rewrite Hr.
  - pose proof (Hi eq_refl) as Hst. unfold start in Hst. injection Hst as -> ->.
    exists gaps, gap. rewrite str_app_nil_r in Ht. split_and!; try done.
    destruct gaps; simpl in *; [done|]. by apply Forall_app in Ha as [Ha _].
Qed.

(** Joining raw texts with a blank lexes back to the tokens. *)
Lemma arun_join d tokens t :
  Forall (fun t => lexes_to (Raw t) (Value t)) (t :: tokens) ->
  let st := arun (start d) (strings_Join (map Raw (t :: tokens)) " ") in
  a_mode st = Bare /\ tokens_of st = d ++ t :: tokens.
Proof.
  revert d t. induction tokens as [|t' tokens IH]; intros d t Hall; inversion_clear Hall as [|? ? Ht Hts].
  - simpl. rewrite Ht. by destruct t.
  - change (strings_Join (map Raw (t :: t' :: tokens)) " ")
      with (Raw t +:+ " " +:+ strings_Join (map Raw (t' :: tokens)) " ").
    rewrite arun_app, Ht. change (arun ?st (" " +:+ ?s)) with (arun (astep st (ascii_of_nat 32)) s).
    cbn [astep lex_blank]. destruct (IH (d ++ [t]) t' Hts) as [Hm Htok].
    destruct t as [raw value]. simpl in *. rewrite <- app_assoc in Htok. done.
Qed.

Lemma lex_join tokens :
  Forall (fun t => lexes_to (Raw t) (Value t)) tokens ->
  lex (strings_Join (map Raw tokens) " ") = inr tokens.
Proof.
  destruct tokens as [|t tokens]; intros Hall; [done|].
  destruct (arun_join [] tokens t Hall) as [Hm Ht]. unfold lex, finish. by rewrite Hm, Ht.
Qed.

(** ** Quoting *)

Definition plain_byte (c : ascii) : bool :=
  negb (lex_blank c) && negb (bool_decide (c = quote)) && negb (bool_decide (c = dquote))
  && negb (bool_decide (c = backslash)).

Lemma arun_plain s : forall inToken cur raw d,
  Forall (fun c => plain_byte c = true) (list_ascii_of_string s) -> s <> "" \/ inToken = true ->
  arun (mkA Bare inToken cur raw d) s = mkA Bare true (cur +:+ s) (raw +:+ s) d.
Proof.
  induction s as [|c s IH]; intros inToken cur raw d Hs Hne.
  - destruct Hne as [?| ->]; [done|]. by rewrite !str_app_nil_r.
  - inversion_clear Hs as [|? ? Hc Hs']. unfold plain_byte in Hc.
    rewrite !andb_true_iff, !negb_true_iff in Hc. destruct Hc as [[[Hb Hq] Hd] Hbs].
    simpl. rewrite Hb, Hq, Hd, Hbs, IH by auto. by rewrite !WriteByte_app.
Qed.

Lemma arun_quoted s : forall cur raw d,
  arun (mkA Single true cur raw d) (ReplaceByte s quote escaped_quote)
  = mkA Single true (cur +:+ s) (raw +:+ ReplaceByte s quote escaped_quote) d.
Proof.
  induction s as [|c s IH]; intros cur raw d; simpl; [by rewrite !str_app_nil_r|].
  rewrite arun_app. destruct (bool_decide_reflect (c = quote)) as [->|Hc].
  - change (arun (mkA Single true cur raw d) escaped_quote) with
      (mkA Single true (WriteByte cur quote)
        (WriteByte (WriteByte (WriteByte (WriteByte raw quote) backslash) quote) quote) d).
    rewrite IH, !WriteByte_app. done.
  - simpl. rewrite bool_decide_eq_false_2, IH by done. by rewrite !WriteByte_app, str_app_cons.
Qed.

(** A safe argument is made of ASCII bytes: bytes of 0x80 and above decode to
    runes of 0x80 and above. *)
Lemma low_bits b k : k <= b < k + 16 -> k mod 16 = 0 -> b mod 16 = b - k.
Proof. intros Hb Hk. symmetry. apply (Z.mod_unique_pos _ _ (k / 16)); [lia|]. pose proof (Z_div_mod_eq_full k 16). lia. Qed.

Lemma decode_rune_high b0 rest :
  0x80 <= b0 -> 0x80 <= (decode_rune b0 rest).1.
Proof.
  intros Hb. unfold decode_rune. rewrite (proj2 (Z.ltb_ge _ _)) by lia.
  assert (0x80 <= (RuneError, rest).1) as Hbad by (simpl; unfold RuneError; lia).
  assert (forall b m, 0 < m -> 0 <= b mod m) as Hmod by (intros; by apply Z.mod_pos_bound).
  destruct (in_range 0xc2 0xdf b0) eqn:H2.
  { apply in_range_iff in H2. destruct rest as [|b1 r]; [done|]. case_match; [|done]. simpl.
    pose proof (Hmod b1 64 eq_refl). pose proof (Z_div_mod_eq_full b0 32).
    pose proof (Z.mod_pos_bound b0 32 eq_refl). lia. }
  destruct (in_range 0xe0 0xef b0) eqn:H3.
  { apply in_range_iff in H3. destruct rest as [|b1 [|b2 r]]; try done.
    destruct (in_range _ _ b1 && _) eqn:Hr; [|done]. apply andb_true_iff in Hr as [Hr _].
    apply in_range_iff in Hr. simpl. pose proof (Hmod b1 64 eq_refl). pose proof (Hmod b2 64 eq_refl).
    rewrite (low_bits b0 0xe0) by (lia || done). destruct (b0 =? 0xe0) eqn:He; [|lia].
    pose proof (Z_div_mod_eq_full b1 64). case_match; lia. }
  destruct (in_range 0xf0 0xf4 b0) eqn:H4; [|done].
  apply in_range_iff in H4. destruct rest as [|b1 [|b2 [|b3 r]]]; try done.
  destruct (in_range _ _ b1 && _ && _) eqn:Hr; [|done].
  apply andb_true_iff in Hr as [[Hr _]%andb_true_iff _]. apply in_range_iff in Hr. simpl.
  pose proof (Hmod b1 64 eq_refl). pose proof (Hmod b2 64 eq_refl). pose proof (Hmod b3 64 eq_refl).
  pose proof (Z_div_mod_eq_full b0 8). pose proof (Z.mod_pos_bound b0 8 eq_refl).
  pose proof (Z_div_mod_eq_full b1 64). pose proof (Z.mod_pos_bound b1 64 eq_refl).
  destruct (b0 =? 0xf0) eqn:He; [|lia]. case_match; lia.
Qed.

Lemma safe_rune_low r : safe_rune r = true -> 0 <= r < 0x80.
Proof.
  unfold safe_rune. rewrite !orb_true_iff, !in_range_iff, existsb_exists.
  intros [[[?|?]|?]|(c & Hc & Hr)]; [lia..|]. apply Z.eqb_eq in Hr. subst r.
  revert Hc. change (In c safe_punctuation -> 0 <= byte_Z c < 128). unfold safe_punctuation.
  simpl. intros Hc. repeat (destruct Hc as [<-|Hc]; [vm_compute; by split|]). done.
Qed.

Lemma decode_runes_safe l : forall fuel,
  (length l <= fuel)%nat -> forallb safe_rune (decode_runes fuel l) = true ->
  Forall (fun b => safe_rune b = true) l.
Proof.
  induction l as [|b l IH]; intros fuel Hf Hs; [by constructor|].
  destruct fuel as [|fuel]; [simpl in Hf; lia|]. simpl in Hs, Hf.
  destruct (Z.ltb_spec b 0x80) as [Hb|Hb].
  - assert (decode_rune b l = (b, l)) as Hd by (unfold decode_rune; by rewrite (proj2 (Z.ltb_lt _ _))).
    rewrite Hd in Hs. simpl in Hs. apply andb_true_iff in Hs as [Hr Hs].
    constructor; [done|]. apply (IH fuel); [lia|done].
  - pose proof (decode_rune_high b l Hb) as Hh. destruct (decode_rune b l) as [r rest].
    simpl in *. apply andb_true_iff in Hs as [Hr _]. apply safe_rune_low in Hr. lia.
Qed.

Lemma safe_byte_plain c : safe_rune (byte_Z c) = true -> plain_byte c = true.
Proof. by destruct c as [[] [] [] [] [] [] [] []]. Qed.

Lemma isSafeArg_bytes arg :
  isSafeArg arg = true -> Forall (fun c => safe_rune (byte_Z c) = true) (list_ascii_of_string arg).
Proof.
  intros Hs. unfold isSafeArg, runes in Hs. apply decode_runes_safe in Hs; [|lia].
  unfold bytes_of in Hs. by apply Forall_fmap in Hs.
Qed.

Lemma isSafeArg_plain arg :
  isSafeArg arg = true -> Forall (fun c => plain_byte c = true) (list_ascii_of_string arg).
Proof.
  intros Hs. eapply Forall_impl; [by apply isSafeArg_bytes|]. simpl. apply safe_byte_plain.
Qed.

Lemma quoteArg_lexes arg : lexes_to (quoteArg arg) arg.
Proof.
  intros d. unfold quoteArg. destruct (bool_decide_reflect (arg = "")) as [->|Hne]; [done|].
  destruct (isSafeArg arg) eqn:Hs.
  - unfold start. rewrite arun_plain; [done| |by left]. by apply isSafeArg_plain.
  - rewrite !arun_app. change (arun (start d) (single quote)) with (mkA Single true "" (single quote) d).
    rewrite arun_quoted. simpl. rewrite !str_app_nil. unfold WriteByte, single.
    by rewrite !str_app_assoc.
Qed.

Definition quoted (arg : string) : ArgToken := mkArgToken (quoteArg arg) arg.

Lemma JoinArgs_tokens argv : lex (JoinArgs argv) = inr (map quoted argv).
Proof.
  rewrite <- lex_join; [|apply Forall_forall; intros t Ht; apply list_elem_of_In, in_map_iff in Ht;
    destruct Ht as (arg & <- & _); apply quoteArg_lexes].
  unfold JoinArgs. rewrite map_map. destruct (bool_decide_reflect (argv = [])) as [->|]; [done|].
  done.
Qed.

(** ** The claims *)

(** The two passes of [LexArgs] agree.  It never panics; on success the raw
    texts, in order and with the blanks between them, are the command byte for byte,
    every gap between two arguments is non-empty, and each raw text read on its own
    is that one argument with the same value. *)
Theorem LexArgs_partitions command :
  exists r, LexArgs command = Some r /\
  forall tokens, r = inr tokens -> exists gaps last,
    command = weave gaps tokens +:+ last /\ length gaps = length tokens /\
    Forall blanks (last :: gaps) /\ Forall (fun g => g <> "") (tail gaps) /\
    Forall (fun t => LexArgs (Raw t) = Some (inr [t])) tokens.
Proof.
  exists (lex command). split; [apply LexArgs_lex|]. intros tokens Ht.
  destruct (lex_tokens _ _ Ht) as (gaps & last & Hc & Hl & Hb & Ha & Hts).
  exists gaps, last. split_and!; [done..|]. eapply Forall_impl; [exact Hts|].
  intros [raw value] Hlex. rewrite LexArgs_lex. unfold lex. by rewrite Hlex.
Qed.

(** C29: [SplitArgs] undoes [JoinArgs]: whatever bytes the arguments contain (blanks,
    quotes, backslashes, invalid UTF-8, nothing at all), the joined command splits
    back into exactly those arguments. *)
Theorem SplitArgs_JoinArgs argv : SplitArgs (JoinArgs argv) = Some (inr argv).
Proof.
  unfold SplitArgs. rewrite LexArgs_lex, JoinArgs_tokens, map_map. simpl. by rewrite map_id.
Qed.
