(* ===== verification/GoPath.v ===== *)
(** * Go's path/filepath, on Unix

    [filepath.Clean], [Join], [Dir], [Rel] and [IsAbs] as they act on the lexical components
    of a path, and the workspace-relative paths of tool_log_v2.go. *)

From Stdlib Require Import String.
From S2P Require Import Prelude GoStd GoStrings.

Definition slash : ascii := ascii_of_nat 47.

(** The components between slashes, empty ones included. *)
Fixpoint split_slash (l cur : list ascii) : list string :=
  match l with
  | [] => [string_of_list_ascii (reverse cur)]
  | c :: l => if bool_decide (c = slash) then string_of_list_ascii (reverse cur) :: split_slash l []
              else split_slash l (c :: cur)
  end.

Definition components (path : string) : list string := split_slash (list_ascii_of_string path) [].

Definition IsAbs (path : string) : bool := HasPrefix path "/".

(** One component after the cleaned ones, which are kept last first: [.] and empty
    components vanish, [..] removes a component, is dropped at the root and kept at
    the start of a relative path. *)
Definition clean_step (rooted : bool) (acc : list string) (c : string) : list string :=
  if bool_decide (c = "") || bool_decide (c = ".") then acc
  else if bool_decide (c = "..") then
    match acc with
    | [] => if rooted then [] else [".."]
    | top :: rest => if bool_decide (top = "..") then ".." :: acc else rest
    end
  else c :: acc.

Definition clean_components (path : string) : list string :=
  reverse (foldl (clean_step (IsAbs path)) [] (components path)).

Definition Clean (path : string) : string :=
  let body := strings_Join (clean_components path) "/" in
  if IsAbs path then "/" +:+ body else if bool_decide (body = "") then "." else body.

(** [Join] of the non-empty elements. *)
Definition Join (elem : list string) : string :=
  let elem := base.filter (fun e => e <> "") elem in
  if bool_decide (elem = []) then "" else Clean (strings_Join elem "/").

(** [Dir]: what comes before the last slash, cleaned. *)
Fixpoint drop_name (l : list ascii) : list ascii :=
  match l with
  | [] => []
  | c :: l' => if bool_decide (c = slash) then l else drop_name l'
  end.

Definition Dir (path : string) : string :=
  Clean (string_of_list_ascii (reverse (drop_name (reverse (list_ascii_of_string path))))).

Fixpoint strip_common (base targ : list string) : list string * list string :=
  match base, targ with
  | b :: base', t :: targ' => if bool_decide (b = t) then strip_common base' targ' else (base, targ)
  | _, _ => (base, targ)
  end.

(** [Rel]: the two paths are both rooted or both relative, and the base does not go
    up from where they part. *)
Definition Rel (basepath targpath : string) : option string :=
  if negb (Bool.eqb (IsAbs basepath) (IsAbs targpath)) then None
  else
    let '(b, t) := strip_common (clean_components basepath) (clean_components targpath) in
    match b with
    | [] => Some (if bool_decide (t = []) then "." else strings_Join t "/")
    | first :: _ => if bool_decide (first = "..") then None
                    else Some (strings_Join (((fun _ => "..") <$> b) ++ t) "/")
    end.

(** ** Workspace-relative paths (tool_log_v2.go) *)

Definition workspaceRelativePath (workspaceRoot absPath : string) : string :=
  let workspaceRoot := TrimSpace workspaceRoot in
  let absPath := TrimSpace absPath in
  if bool_decide (workspaceRoot = "") || bool_decide (absPath = "") then ""
  else
    let root := Clean workspaceRoot in
    let path := Clean absPath in
    let path := if IsAbs path then path else Clean (Join [root; path]) in
    match Rel root path with
    | None => ""
    | Some rel => if bool_decide (rel = "..") || HasPrefix rel "../" then "" else rel
    end.

Example Clean_ex :
  Clean "/a//b/./../c/" = "/a/c" /\ Clean "../../x/.." = "../.." /\ Clean "" = "." /\
  Clean "/.." = "/" /\ Clean "a/.." = ".".
Proof. vm_compute. auto. Qed.

Example Dir_ex : Dir "/a/b/c" = "/a/b" /\ Dir "/a" = "/" /\ Dir "a" = "." /\ Dir "/a/b/" = "/a/b".
Proof. vm_compute. auto. Qed.

Example Rel_ex :
  Rel "/a/b" "/a/b/c/d" = Some "c/d" /\ Rel "/a/b" "/a/c" = Some "../c" /\
  Rel "/a" "/a" = Some "." /\ Rel "a" "/a" = None /\ Rel "../x" "a" = None /\
  Rel "." "a/b" = Some "a/b" /\ Rel ".." "../.." = Some "..".
Proof. vm_compute. auto 10. Qed.

Example workspace_ex :
  workspaceRelativePath "/repo" "/repo/src/../main.go" = "main.go" /\
  workspaceRelativePath "/repo" "/repo/../etc/passwd" = "" /\
  workspaceRelativePath "/repo" "docs/a.md" = "docs/a.md".
Proof. vm_compute. auto. Qed.
