(* ===== verification/DriverTypes.v ===== *)
(** * host/driver: states, events and jobs of the built-in drivers

    The data of src/services/host/driver: the state every driver embeds, the state of
    each driver, the jobs they start and the results they get, and what they take from
    outside (hook payloads decoded from JSON, the JSON text of a tool-log record, the
    file system, the environment and Codex's SQLite database). *)

From Stdlib Require Import String.
From S2P Require Import Prelude HostState.

(** ** JSON values

    What [map[string]any] holds after [json.Unmarshal].  A nil and an empty map are
    read alike everywhere. *)

#[warnings="-register-all"] Inductive Any :=
| AnyNull
| AnyBool (b : bool)
| AnyNumber (text : string)
| AnyString (s : string)
| AnyArray (l : list Any)
| AnyObject (fields : list (string * Any)).

Definition AnyMap : Type := gmap string Any.

(** ** Status evidence (status_evidence.go) *)

Inductive StatusEvidenceSource :=
| StatusSourceProcess | StatusSourceHook | StatusSourceTerminal | StatusSourceProgress.

Record StatusObservation := mkObservation {
  so_Status : Status; so_ObservedAt : Time; so_Valid : bool }.

#[export] Instance eta_StatusObservation : Eta StatusObservation := fun r =>
  mkObservation (so_Status r) (so_ObservedAt r) (so_Valid r).

Record StatusEvidence := mkEvidence {
  se_Process : StatusObservation; se_Hook : StatusObservation; se_Terminal : StatusObservation;
  se_Progress : StatusObservation; se_TerminalActionRequired : StatusObservation }.

#[export] Instance eta_StatusEvidence : Eta StatusEvidence := fun r =>
  mkEvidence (se_Process r) (se_Hook r) (se_Terminal r) (se_Progress r)
    (se_TerminalActionRequired r).

Definition zero_observation : StatusObservation := mkObservation StatusRunning 0 false.

Definition zero_evidence : StatusEvidence :=
  mkEvidence zero_observation zero_observation zero_observation zero_observation zero_observation.

(** ** The common state (common_state.go) *)

Record CommonState := mkCommon {
  c_RoostSessionID : string; c_Project : string; c_StartDir : string; c_TranscriptPath : string;
  c_WorktreeName : string; c_Status : Status; c_StatusChangedAt : Time; c_Failed : bool;
  c_StatusEvidence : StatusEvidence; c_BranchTag : string; c_BranchBG : string;
  c_BranchFG : string; c_BranchTarget : string; c_BranchAt : Time; c_BranchIsWorktree : bool;
  c_BranchParentBranch : string; c_BranchInFlight : bool; c_LastPrompt : string;
  c_LastAssistantMessage : string; c_LastHookEvent : string; c_LastHookAt : Time;
  c_Summary : string; c_SummaryInFlight : bool; c_Title : string }.

#[export] Instance eta_CommonState : Eta CommonState := fun r =>
  mkCommon (c_RoostSessionID r) (c_Project r) (c_StartDir r) (c_TranscriptPath r)
    (c_WorktreeName r) (c_Status r) (c_StatusChangedAt r) (c_Failed r) (c_StatusEvidence r)
    (c_BranchTag r) (c_BranchBG r) (c_BranchFG r) (c_BranchTarget r) (c_BranchAt r)
    (c_BranchIsWorktree r) (c_BranchParentBranch r) (c_BranchInFlight r) (c_LastPrompt r)
    (c_LastAssistantMessage r) (c_LastHookEvent r) (c_LastHookAt r) (c_Summary r)
    (c_SummaryInFlight r) (c_Title r).

Definition zero_common : CommonState :=
  mkCommon "" "" "" "" "" StatusRunning 0 false zero_evidence "" "" "" "" 0 false "" false "" ""
    "" 0 "" false "".

(** ** Jobs (jobs.go) *)

Record SummaryTurn := mkTurn { Role : string; Text : string }.

Record BranchDetectResult := mkBranchResult {
  br_Branch : string; br_Background : string; br_Foreground : string; br_IsWorktree : bool;
  br_ParentBranch : string }.

Record TranscriptParseResult := mkTranscriptResult {
  tr_Title : string; tr_LastPrompt : string; tr_StatusLine : string; tr_CurrentTool : string;
  tr_Model : string; tr_Subagents : gmap string Z; tr_RecentTurns : list SummaryTurn;
  tr_PlanFile : string }.

Record CodexTranscriptParseResult := mkCodexTranscriptResult {
  xr_Title : string; xr_LastPrompt : string; xr_LastAssistantMessage : string;
  xr_StatusLine : string; xr_Model : string; xr_ModelSet : bool; xr_Effort : string;
  xr_EffortSet : bool; xr_RecentTurns : list SummaryTurn }.

Record GeminiTranscriptParseResult := mkGeminiTranscriptResult {
  gr_Title : string; gr_LastPrompt : string; gr_LastAssistantMessage : string;
  gr_StatusLine : string; gr_CurrentTool : string; gr_RecentTurns : list SummaryTurn }.

Inductive BuiltinJobInput :=
| SummaryCommandInput (Prompt : string)
| TranscriptParseInput (ClaudeUUID Path : string)
| CodexTranscriptParseInput (Path : string)
| GeminiTranscriptParseInput (Path : string)
| BranchDetectInput (WorkingDir : string).

Inductive BuiltinJobResult :=
| SummaryCommandResult (Summary : string)
| TranscriptParseResult_ (r : TranscriptParseResult)
| CodexTranscriptParseResult_ (r : CodexTranscriptParseResult)
| GeminiTranscriptParseResult_ (r : GeminiTranscriptParseResult)
| BranchDetectResult_ (r : BranchDetectResult).

(** ** Driver states *)

Record GenericState := mkGeneric {
  gn_Common : CommonState; gn_Name : string }.

#[export] Instance eta_GenericState : Eta GenericState := fun r =>
  mkGeneric (gn_Common r) (gn_Name r).

Record ShellState := mkShell {
  shl_Common : CommonState; shl_SawPromptEvent : bool; shl_LastExitCode : option Z }.

#[export] Instance eta_ShellState : Eta ShellState := fun r =>
  mkShell (shl_Common r) (shl_SawPromptEvent r) (shl_LastExitCode r).

Record AgyState := mkAgy {
  ag_Generic : GenericState; ag_ConversationID : string; ag_LastInvocation : Z;
  ag_HasInvocation : bool; ag_TerminationReason : string }.

#[export] Instance eta_AgyState : Eta AgyState := fun r =>
  mkAgy (ag_Generic r) (ag_ConversationID r) (ag_LastInvocation r) (ag_HasInvocation r)
    (ag_TerminationReason r).

Record GrokState := mkGrok {
  gk_Common : CommonState; gk_GrokSessionID : string; gk_ForkParentID : string;
  gk_Model : string; gk_Effort : string; gk_LastWindowTitle : string }.

#[export] Instance eta_GrokState : Eta GrokState := fun r =>
  mkGrok (gk_Common r) (gk_GrokSessionID r) (gk_ForkParentID r) (gk_Model r) (gk_Effort r)
    (gk_LastWindowTitle r).

Record pendingTool := mkPendingTool {
  pt_Name : string; pt_Input : AnyMap; pt_StartedAt : Time; pt_SawPrompt : bool;
  pt_PermMode : string }.

#[export] Instance eta_pendingTool : Eta pendingTool := fun r =>
  mkPendingTool (pt_Name r) (pt_Input r) (pt_StartedAt r) (pt_SawPrompt r) (pt_PermMode r).

Record ClaudeState := mkClaude {
  cs_Common : CommonState; cs_ClaudeSessionID : string; cs_Model : string; cs_Effort : string;
  cs_ModelSet : bool; cs_EffortSet : bool; cs_ModelAuthoritative : bool;
  cs_EffortAuthoritative : bool; cs_ForkParentID : string; cs_LastBridgeTS : Time;
  cs_StatusLine : string; cs_CurrentTool : string; cs_SubagentCounts : gmap string Z;
  cs_RecentTurns : list SummaryTurn; cs_PlanFile : string; cs_TranscriptInFlight : bool;
  cs_WatchedFile : string; cs_PendingTools : gmap string pendingTool; cs_ToolLogTurnCounter : Z;
  cs_ToolLogSubagentTurnID : string; cs_ToolLogSubagentSeq : Z; cs_LastWindowTitle : string }.

#[export] Instance eta_ClaudeState : Eta ClaudeState := fun r =>
  mkClaude (cs_Common r) (cs_ClaudeSessionID r) (cs_Model r) (cs_Effort r) (cs_ModelSet r)
    (cs_EffortSet r) (cs_ModelAuthoritative r) (cs_EffortAuthoritative r) (cs_ForkParentID r)
    (cs_LastBridgeTS r) (cs_StatusLine r) (cs_CurrentTool r) (cs_SubagentCounts r)
    (cs_RecentTurns r) (cs_PlanFile r) (cs_TranscriptInFlight r) (cs_WatchedFile r)
    (cs_PendingTools r) (cs_ToolLogTurnCounter r) (cs_ToolLogSubagentTurnID r)
    (cs_ToolLogSubagentSeq r) (cs_LastWindowTitle r).

Record codexPendingTool := mkCodexPendingTool {
  xp_Name : string; xp_Input : AnyMap; xp_StartedAt : Time }.

Record CodexState := mkCodex {
  xs_Common : CommonState; xs_ThreadID : string; xs_SessionID : string; xs_RolloutPath : string;
  xs_RequestedThreadID : string; xs_ObservedThreadID : string; xs_ResumePhase : string;
  xs_FailureReason : string; xs_Model : string; xs_Effort : string; xs_ModelSet : bool;
  xs_EffortSet : bool; xs_ModelAuthoritative : bool; xs_EffortAuthoritative : bool;
  xs_CurrentTool : string; xs_PendingApproval : bool; xs_TranscriptInFlight : bool;
  xs_WatchedFile : string; xs_StatusLine : string; xs_Preview : string;
  xs_DisplayFallback : string; xs_PlanSummary : string; xs_DiffSummary : string;
  xs_DiffPaths : list string; xs_RecentTurns : list SummaryTurn;
  xs_PendingTools : gmap string codexPendingTool; xs_ToolLogTurnID : string }.

#[export] Instance eta_CodexState : Eta CodexState := fun r =>
  mkCodex (xs_Common r) (xs_ThreadID r) (xs_SessionID r) (xs_RolloutPath r)
    (xs_RequestedThreadID r) (xs_ObservedThreadID r) (xs_ResumePhase r) (xs_FailureReason r)
    (xs_Model r) (xs_Effort r) (xs_ModelSet r) (xs_EffortSet r) (xs_ModelAuthoritative r)
    (xs_EffortAuthoritative r) (xs_CurrentTool r) (xs_PendingApproval r) (xs_TranscriptInFlight r)
    (xs_WatchedFile r) (xs_StatusLine r) (xs_Preview r) (xs_DisplayFallback r) (xs_PlanSummary r)
    (xs_DiffSummary r) (xs_DiffPaths r) (xs_RecentTurns r) (xs_PendingTools r)
    (xs_ToolLogTurnID r).

Record geminiPendingTool := mkGeminiPendingTool {
  gp_Name : string; gp_Input : AnyMap; gp_StartedAt : Time; gp_SawPrompt : bool }.

#[export] Instance eta_geminiPendingTool : Eta geminiPendingTool := fun r =>
  mkGeminiPendingTool (gp_Name r) (gp_Input r) (gp_StartedAt r) (gp_SawPrompt r).

Record GeminiState := mkGemini {
  gm_Common : CommonState; gm_GeminiSessionID : string; gm_CurrentTool : string;
  gm_TranscriptInFlight : bool; gm_WatchedFile : string; gm_StatusLine : string;
  gm_RecentTurns : list SummaryTurn; gm_PendingTools : gmap string geminiPendingTool;
  gm_LastWindowTitle : string }.

#[export] Instance eta_GeminiState : Eta GeminiState := fun r =>
  mkGemini (gm_Common r) (gm_GeminiSessionID r) (gm_CurrentTool r) (gm_TranscriptInFlight r)
    (gm_WatchedFile r) (gm_StatusLine r) (gm_RecentTurns r) (gm_PendingTools r)
    (gm_LastWindowTitle r).

(** The zero values, for a type assertion that fails. *)
Definition zero_generic : GenericState :=
  mkGeneric zero_common "".

Definition zero_shell : ShellState :=
  mkShell zero_common false None.

Definition zero_agy : AgyState :=
  mkAgy zero_generic "" 0 false "".

Definition zero_grok : GrokState :=
  mkGrok zero_common "" "" "" "" "".

Definition zero_claude : ClaudeState :=
  mkClaude zero_common "" "" "" false false false false "" 0 "" "" ∅ [] "" false "" ∅ 0 "" 0 "".

Definition zero_codex : CodexState :=
  mkCodex zero_common "" "" "" "" "" "" "" "" "" false false false false "" false false "" "" ""
    "" "" "" [] [] ∅ "".

Definition zero_gemini : GeminiState :=
  mkGemini zero_common "" "" false "" "" [] ∅ "".

(** A [state.DriverState] is one of them, or nil. *)
Inductive BuiltinState :=
| DSGeneric (s : GenericState) | DSShell (s : ShellState) | DSAgy (s : AgyState)
| DSGrok (s : GrokState) | DSClaude (s : ClaudeState) | DSCodex (s : CodexState)
| DSGemini (s : GeminiState).

#[export] Instance builtin_types : HostTypes :=
  {| DS := BuiltinState; DriverJobInput := BuiltinJobInput; DriverJobResult := BuiltinJobResult |}.

(** [EffStartJob{Input: ...}]: the job id is filled in by the reducer. *)
Definition startJob (input : BuiltinJobInput) : Effect := EffStartJob 0 (JobDriver input).

(** ** Hook payloads *)

(** [Effort] is the level of the decoded pointer. *)
Record HookPayload := mkHookPayload {
  hp_SessionID : string; hp_HookEventName : string; hp_Prompt : string;
  hp_TranscriptPath : string; hp_NotificationType : string; hp_ToolName : string;
  hp_ToolInput : AnyMap; hp_Source : string; hp_Model : string; hp_Effort : option string;
  hp_ModelSet : bool; hp_EffortSet : bool; hp_ToolUseID : string; hp_PermissionMode : string;
  hp_Error : string; hp_IsInterrupt : bool }.

#[export] Instance eta_HookPayload : Eta HookPayload := fun r =>
  mkHookPayload (hp_SessionID r) (hp_HookEventName r) (hp_Prompt r) (hp_TranscriptPath r)
    (hp_NotificationType r) (hp_ToolName r) (hp_ToolInput r) (hp_Source r) (hp_Model r)
    (hp_Effort r) (hp_ModelSet r) (hp_EffortSet r) (hp_ToolUseID r) (hp_PermissionMode r)
    (hp_Error r) (hp_IsInterrupt r).

Definition zero_hook : HookPayload :=
  mkHookPayload "" "" "" "" "" "" ∅ "" "" None false false "" "" "" false.

Record geminiHookPayload := mkGeminiHookPayload {
  ghp_SessionID : string; ghp_HookEventName : string; ghp_NotificationType : string;
  ghp_TranscriptPath : string; ghp_Source : string; ghp_Prompt : string; ghp_ToolName : string;
  ghp_ToolInput : AnyMap; ghp_ToolUseID : string; ghp_PermissionMode : string;
  ghp_PromptResponse : string; ghp_StopReason : string }.

#[export] Instance eta_geminiHookPayload : Eta geminiHookPayload := fun r =>
  mkGeminiHookPayload (ghp_SessionID r) (ghp_HookEventName r) (ghp_NotificationType r)
    (ghp_TranscriptPath r) (ghp_Source r) (ghp_Prompt r) (ghp_ToolName r) (ghp_ToolInput r)
    (ghp_ToolUseID r) (ghp_PermissionMode r) (ghp_PromptResponse r) (ghp_StopReason r).

Definition zero_gemini_hook : geminiHookPayload :=
  mkGeminiHookPayload "" "" "" "" "" "" "" ∅ "" "" "" "".

Record agyHookPayload := mkAgyHookPayload {
  ahp_ConversationID : string; ahp_InvocationNum : option Z; ahp_ExecutionNum : option Z;
  ahp_FullyIdle : bool; ahp_TerminationReason : string }.

(** ** Tool-log records (claude_tool_log.go, tool_log_v2.go) *)

Inductive fileEventKind :=
| fileEventNone | fileEventRead | fileEventCreate | fileEventEdit | fileEventDelete
| fileEventUnclassified.

Record toolLogEntry := mkToolLogEntry {
  te_SchemaVersion : Z; te_TS : Time; te_RoostSessionID : string; te_ClaudeSessionID : string;
  te_ToolUseID : string; te_ToolName : string; te_Kind : string; te_PermissionMode : string;
  te_DurationMs : Z; te_ToolInput : AnyMap; te_Error : string; te_TurnID : string;
  te_FileEventKind : fileEventKind; te_WorkspaceRelativePath : string; te_TurnComplete : bool;
  te_TurnFailure : bool }.

#[export] Instance eta_toolLogEntry : Eta toolLogEntry := fun r =>
  mkToolLogEntry (te_SchemaVersion r) (te_TS r) (te_RoostSessionID r) (te_ClaudeSessionID r)
    (te_ToolUseID r) (te_ToolName r) (te_Kind r) (te_PermissionMode r) (te_DurationMs r)
    (te_ToolInput r) (te_Error r) (te_TurnID r) (te_FileEventKind r) (te_WorkspaceRelativePath r)
    (te_TurnComplete r) (te_TurnFailure r).

Definition zero_entry : toolLogEntry :=
  mkToolLogEntry 0 0 "" "" "" "" "" "" 0 ∅ "" "" fileEventNone "" false false.

(** ** What the drivers take from outside *)

Inductive StatResult := StatOK (size : Z) | StatNotExist | StatFailed (err : string).

(** [json_*]: encoding/json on the payload types and on a tool-log record; [os_*]: the
    file system and the environment; [sqlite_query path select where value]: the
    column of the matching rows, at most two, of table [threads]; [fmt_q]: the verb
    [%q], in error texts; [operands_late]: whether a variable among the operands of a
    return statement is read after the calls beside it, which the language leaves open. *)
Class DriverEnv := {
  json_HookPayload : string -> HookPayload;
  json_geminiHookPayload : string -> geminiHookPayload;
  json_agyHookPayload : string -> option agyHookPayload;
  json_toolLogEntry : toolLogEntry -> option string;
  os_Stat : string -> StatResult;
  os_Getenv : string -> string;
  os_UserHomeDir : string + string;
  sqlite_query : string -> string -> string -> string -> string + list string;
  fmt_q : string -> string;
  operands_late : bool }.
