(* ===== verification/DriverCommon.v ===== *)
(** * host/driver: what the drivers share

    common_state.go, status_evidence.go, summary_job.go, summary_prompt.go,
    view_builder.go (the text helpers), worktree.go, flags.go and host/state/view/status.go:
    the methods of [CommonState], the resolution of the status from independent
    observations, the summary prompt, and the rewriting of launch commands. *)

From Stdlib Require Import String.
From S2P Require Import Prelude GoStd GoStrings GoTime ShellArgs HostState DriverTypes.

(** ** Status names (host/state/view/status.go) *)

Definition Status_String (s : Status) : string :=
  match s with
  | StatusRunning => "running" | StatusWaiting => "waiting" | StatusIdle => "idle"
  | StatusStopped => "stopped" | StatusPending => "pending"
  end.

Definition ParseStatus (name : string) : option Status :=
  if bool_decide (name = "running") then Some StatusRunning
  else if bool_decide (name = "waiting") then Some StatusWaiting
  else if bool_decide (name = "idle") then Some StatusIdle
  else if bool_decide (name = "stopped") then Some StatusStopped
  else if bool_decide (name = "pending") then Some StatusPending
  else None.

(** ** Resolving the status (status_evidence.go) *)

Definition statusPriority (s : Status) : Z :=
  match s with
  | StatusStopped => 5 | StatusPending => 4 | StatusRunning => 3 | StatusWaiting => 2
  | StatusIdle => 1
  end.

Definition setResolvedStatus (c : CommonState) (status : Status) (at_ : Time) : CommonState :=
  if bool_decide (c_Status c = status) then c
  else let c := c <| c_Status := status |> in
       if IsZero at_ then c else c <| c_StatusChangedAt := at_ |>.

(** One turn of the loop over the hook, terminal and progress observations. *)
Definition better (best observation : StatusObservation) : StatusObservation :=
  if negb (so_Valid observation) then best
  else if negb (so_Valid best) || Before (so_ObservedAt best) (so_ObservedAt observation)
       || ((so_ObservedAt observation =? so_ObservedAt best)
           && (statusPriority (so_Status best) <? statusPriority (so_Status observation)))
  then observation else best.

Definition ResolveStatus (c : CommonState) : CommonState :=
  let e := c_StatusEvidence c in
  if so_Valid (se_Process e) && bool_decide (so_Status (se_Process e) = StatusStopped)
  then setResolvedStatus c StatusStopped (so_ObservedAt (se_Process e))
  else if so_Valid (se_Hook e) && bool_decide (so_Status (se_Hook e) = StatusPending)
  then setResolvedStatus c StatusPending (so_ObservedAt (se_Hook e))
  else if so_Valid (se_TerminalActionRequired e)
  then setResolvedStatus c StatusPending (so_ObservedAt (se_TerminalActionRequired e))
  else
    let best := foldl better zero_observation [se_Hook e; se_Terminal e; se_Progress e] in
    if negb (so_Valid best) then c
    else setResolvedStatus c (so_Status best) (so_ObservedAt best).

Definition ObserveStatus (c : CommonState) (source : StatusEvidenceSource) (status : Status)
    (at_ : Time) : CommonState :=
  let at_ := if IsZero at_ then c_StatusChangedAt c else at_ in
  let observation := mkObservation status at_ true in
  let e := c_StatusEvidence c in
  let e := match source with
    | StatusSourceProcess => e <| se_Process := observation |>
    | StatusSourceHook => e <| se_Hook := observation |>
    | StatusSourceTerminal =>
      let e := e <| se_Terminal := observation |> in
      if bool_decide (status = StatusPending) then e <| se_TerminalActionRequired := observation |>
      else e <| se_TerminalActionRequired :=
                  se_TerminalActionRequired e <| so_Valid := false |> |>
    | StatusSourceProgress => e <| se_Progress := observation |>
    end in
  ResolveStatus (c <| c_StatusEvidence := e |>).

Definition progressStatus (progressState : Z) : Status :=
  if progressState =? 0 then StatusWaiting else StatusRunning.

(** ** Methods of the common state (common_state.go) *)

Definition commonBranchRefreshInterval : Duration := 30 * Second.

Definition ApplyWorktreeResolved (c : CommonState) (startDir name : string) : CommonState :=
  let c := c <| c_StartDir := startDir |> in
  if bool_decide (name = "") then c else c <| c_WorktreeName := name |>.

Definition ApplyCommandExited (c : CommonState) (exitCode : Z) (ts : Time) : CommonState :=
  let c := if exitCode =? 0 then c
           else ObserveStatus (c <| c_Failed := true |>) StatusSourceProcess StatusStopped ts in
  if IsZero ts then c else c <| c_StatusChangedAt := ts |>.

(** The Go method has a further parameter, [hasActiveSubagents], which it ignores. *)
Definition HandleTick (c : CommonState) (now : Time) (watched : bool) (project : string) :
    CommonState * list Effect :=
  let c := c <| c_Project := project |> in
  let c := if bool_decide (c_StartDir c = "") then c <| c_StartDir := project |> else c in
  if bool_decide (c_Status c = StatusIdle) || bool_decide (c_Status c = StatusStopped)
  then (c, [])
  else if watched then
    let target := if bool_decide (c_StartDir c = "") then project else c_StartDir c in
    if negb (bool_decide (target = "")) && negb (c_BranchInFlight c)
       && (negb (bool_decide (target = c_BranchTarget c))
           || (commonBranchRefreshInterval <=? Sub now (c_BranchAt c)))
    then (c <| c_BranchInFlight := true |> <| c_BranchTarget := target |>,
          [startJob (BranchDetectInput target)])
    else (c, [])
  else (c, []).

Definition ApplyBranchResult (c : CommonState) (r : BranchDetectResult) (err : option string)
    (now : Time) : CommonState :=
  let c := c <| c_BranchInFlight := false |> in
  if bool_decide (is_Some err) || bool_decide (br_Branch r = "") then c
  else c <| c_BranchTag := br_Branch r |> <| c_BranchBG := br_Background r |>
         <| c_BranchFG := br_Foreground r |> <| c_BranchAt := now |>
         <| c_BranchIsWorktree := br_IsWorktree r |>
         <| c_BranchParentBranch := br_ParentBranch r |>.

Record hookPreamble := mkPreamble {
  pre_SessionID : string; pre_HookEventName : string; pre_TranscriptPath : string }.

(** [None]: the hook is dropped. *)
Definition applyHookPreamble (c : CommonState) (p : hookPreamble) (ts : Time)
    (roostSessionID : string) : option CommonState :=
  if bool_decide (pre_SessionID p = "") then None
  else if negb (IsZero ts) && negb (Before (c_LastHookAt c) ts) then None
  else
    let c := c <| c_LastHookEvent := pre_HookEventName p |> in
    let c := if IsZero ts then c else c <| c_LastHookAt := ts |> in
    let c := if bool_decide (roostSessionID = "") then c
             else c <| c_RoostSessionID := roostSessionID |> in
    Some (if bool_decide (pre_TranscriptPath p = "") then c
          else c <| c_TranscriptPath := pre_TranscriptPath p |>).

Definition eventLogLine (name detail : string) : string :=
  if bool_decide (detail = "") then "[event:" +:+ name +:+ "]"
  else "[event:" +:+ name +:+ "] " +:+ detail.

Definition as_string (v : option Any) : string :=
  match v with Some (AnyString s) => s | _ => "" end.

Definition toolInputString (input : AnyMap) (key : string) : string := as_string (input !! key).

(** [parsePayload]: [decode] is what [json.Unmarshal] leaves in the struct. *)
Definition parsePayload {T} (zero : T) (decode : string -> T) (payload : string) : T :=
  if bool_decide (payload = "") then zero else decode payload.

(** ** Persistence (common_state.go) *)

Definition Bag : Type := gmap string string.

(** [bag[k]], "" when absent. *)
Definition bag_get (bag : Bag) (k : string) : string := default "" (bag !! k).

Definition put_string (k v : string) (out : Bag) : Bag :=
  if bool_decide (v = "") then out else <[k := v]> out.

Definition put_time (k : string) (t : Time) (out : Bag) : Bag :=
  if IsZero t then out else <[k := FormatRFC3339 t]> out.

Definition put_flag (k : string) (b : bool) (out : Bag) : Bag :=
  if b then <[k := "1"]> out else out.

Definition keyRoostSessionID := "roost_session_id".
Definition keyStartDir := "start_dir".
Definition keyTranscriptPath := "transcript_path".
Definition keyWorktreeName := "worktree_name".
Definition keyStatus := "status".
Definition keyStatusChangedAt := "status_changed_at".
Definition keyFailed := "failed".
Definition keyBranchTag := "branch_tag".
Definition keyBranchBG := "branch_bg".
Definition keyBranchFG := "branch_fg".
Definition keyBranchTarget := "branch_target".
Definition keyBranchAt := "branch_at".
Definition keyBranchIsWorktree := "branch_is_worktree".
Definition keyBranchParentBranch := "branch_parent_branch".
Definition keySummary := "summary".
Definition keyTitle := "title".
Definition keyLastPrompt := "last_prompt".
Definition keyLastAssistantMessage := "last_assistant_message".
Definition keyLastHookEvent := "last_hook_event".
Definition keyLastHookAt := "last_hook_at".

Definition PersistCommon (c : CommonState) (out : Bag) : Bag :=
  let out := put_string keyRoostSessionID (c_RoostSessionID c) out in
  let out := put_string keyStartDir (c_StartDir c) out in
  let out := put_string keyTranscriptPath (c_TranscriptPath c) out in
  let out := put_string keyWorktreeName (c_WorktreeName c) out in
  let out := <[keyStatus := Status_String (c_Status c)]> out in
  let out := put_time keyStatusChangedAt (c_StatusChangedAt c) out in
  let out := put_flag keyFailed (c_Failed c) out in
  let out := put_string keyBranchTag (c_BranchTag c) out in
  let out := put_string keyBranchBG (c_BranchBG c) out in
  let out := put_string keyBranchFG (c_BranchFG c) out in
  let out := put_string keyBranchTarget (c_BranchTarget c) out in
  let out := put_time keyBranchAt (c_BranchAt c) out in
  let out := put_flag keyBranchIsWorktree (c_BranchIsWorktree c) out in
  let out := put_string keyBranchParentBranch (c_BranchParentBranch c) out in
  let out := put_string keySummary (c_Summary c) out in
  let out := put_string keyTitle (c_Title c) out in
  let out := put_string keyLastPrompt (c_LastPrompt c) out in
  let out := put_string keyLastAssistantMessage (c_LastAssistantMessage c) out in
  let out := put_string keyLastHookEvent (c_LastHookEvent c) out in
  put_time keyLastHookAt (c_LastHookAt c) out.

(** [if v := bag[k]; v != ""] and the parse succeeds, the parsed time, else [old]. *)
Definition get_time (bag : Bag) (k : string) (old : Time) : Time :=
  if bool_decide (bag_get bag k = "") then old
  else default old (ParseRFC3339 (bag_get bag k)).

Definition get_flag (bag : Bag) (k : string) : bool := bool_decide (bag_get bag k = "1").

Definition RestoreCommon (c : CommonState) (bag : Bag) : CommonState :=
  if bool_decide (bag = ∅) then c else
  c <| c_RoostSessionID := bag_get bag keyRoostSessionID |>
    <| c_StartDir := bag_get bag keyStartDir |>
    <| c_TranscriptPath := bag_get bag keyTranscriptPath |>
    <| c_WorktreeName := bag_get bag keyWorktreeName |>
    <| c_Status := if bool_decide (bag_get bag keyStatus = "") then c_Status c
                   else default (c_Status c) (ParseStatus (bag_get bag keyStatus)) |>
    <| c_StatusChangedAt := get_time bag keyStatusChangedAt (c_StatusChangedAt c) |>
    <| c_Failed := get_flag bag keyFailed |>
    <| c_BranchTag := bag_get bag keyBranchTag |>
    <| c_BranchBG := bag_get bag keyBranchBG |>
    <| c_BranchFG := bag_get bag keyBranchFG |>
    <| c_BranchTarget := bag_get bag keyBranchTarget |>
    <| c_BranchAt := get_time bag keyBranchAt (c_BranchAt c) |>
    <| c_BranchIsWorktree := get_flag bag keyBranchIsWorktree |>
    <| c_BranchParentBranch := bag_get bag keyBranchParentBranch |>
    <| c_Summary := bag_get bag keySummary |>
    <| c_Title := bag_get bag keyTitle |>
    <| c_LastPrompt := bag_get bag keyLastPrompt |>
    <| c_LastAssistantMessage := bag_get bag keyLastAssistantMessage |>
    <| c_LastHookEvent := bag_get bag keyLastHookEvent |>
    <| c_LastHookAt := get_time bag keyLastHookAt (c_LastHookAt c) |>.

(** [firstPersistedValue] *)
Fixpoint firstPersistedValue (bag : Bag) (keys : list string) : string :=
  match keys with
  | [] => ""
  | key :: keys => if bool_decide (bag_get bag key = "") then firstPersistedValue bag keys
                   else bag_get bag key
  end.

(** ** Text helpers (view_builder.go, summary_prompt.go) *)

Fixpoint firstNonEmpty (candidates : list string) : string :=
  match candidates with
  | [] => ""
  | s :: rest => if bool_decide (s = "") then firstNonEmpty rest else s
  end.

(** [text[:max]] counts bytes. *)
Definition previewText (text : string) : string :=
  if (80 <? String.length text)%nat then String.substring 0 80 text +:+ "..." else text.

Definition is_eol (c : ascii) : bool :=
  bool_decide (c = newline) || bool_decide (c = ascii_of_nat 13).

(** [strings.FieldsFunc] on CR and LF. *)
Fixpoint split_lines (l cur : list ascii) : list (list ascii) :=
  match l with
  | [] => if decide (cur = []) then [] else [reverse cur]
  | c :: l =>
    if is_eol c then (if decide (cur = []) then split_lines l [] else reverse cur :: split_lines l [])
    else split_lines l (c :: cur)
  end.

Definition non_empty (s : string) : bool := negb (bool_decide (s = "")).

Definition collapseToSingleLine (s : string) : string :=
  if negb (existsb is_eol (list_ascii_of_string s)) then TrimSpace s
  else
    let fields := string_of_list_ascii <$> split_lines (list_ascii_of_string s) [] in
    strings_Join (base.filter (fun f => non_empty f = true) (TrimSpace <$> fields)) " ".

Definition previewSummary (preview : string) : string := previewText (collapseToSingleLine preview).

Definition resolveCardTitle (aiTitle summary : string) : string :=
  firstNonEmpty [aiTitle; collapseToSingleLine summary].

Definition resolveCardTitleWithDisplayFallback (aiTitle summary fallback : string) : string :=
  firstNonEmpty [aiTitle; collapseToSingleLine summary; previewSummary fallback].

Definition lastUserPromptPreview (text : string) : string :=
  let text := TrimSpace text in
  if (500 <? length (runes text))%nat then string_of_runes (take 500 (runes text)) +:+ "…" else text.

Definition clampGraphemes (s : string) (n : nat) : string :=
  if (n =? 0)%nat then ""
  else if (length (runes s) <=? n)%nat then s
  else string_of_runes (take n (runes s)) +:+ "…".

Definition tailClip (s : string) (max : nat) : string :=
  let r := runes s in
  if (length r <=? max)%nat then s else "…" +:+ string_of_runes (drop (length r - max) r).

(** ** The summary prompt (summary_prompt.go) *)

Definition summaryEntryTextCap : nat := 1500.
Definition summaryTotalCap : nat := Z.to_nat 12000.

Definition appendHookPromptTurn (turns : list SummaryTurn) (hookPrompt : string) :
    list SummaryTurn :=
  if bool_decide (hookPrompt = "") then turns
  else match last turns with
       | Some t => if bool_decide (Role t = "user") && bool_decide (Text t = hookPrompt)
                   then turns else turns ++ [mkTurn "user" hookPrompt]
       | None => turns ++ [mkTurn "user" hookPrompt]
       end.

(** The last [n] user turns, oldest first. *)
Definition userOnlyTurns (turns : list SummaryTurn) (n : nat) : list SummaryTurn :=
  reverse (take n (base.filter (fun t => Role t = "user") (reverse turns))).

Definition nl1 : string := String newline "".

Record Rendering := mkRendering { rd_blocks : list string; rd_cur : string; rd_prevRole : string }.

Definition flush (r : Rendering) : Rendering :=
  if bool_decide (rd_cur r = "") then r
  else mkRendering (rd_blocks r ++ [rd_cur r]) "" (rd_prevRole r).

Definition render_turn (r : Rendering) (t : SummaryTurn) : Rendering :=
  let r := if bool_decide (Role t = rd_prevRole r)
           then mkRendering (rd_blocks r) (rd_cur r +:+ nl1) (rd_prevRole r)
           else let r := flush r in
                mkRendering (rd_blocks r) (rd_cur r +:+ "[" +:+ Role t +:+ "]" +:+ nl1) (Role t) in
  mkRendering (rd_blocks r) (rd_cur r +:+ Text t +:+ nl1) (rd_prevRole r).

(** Drops the oldest blocks while the body is too long and more than one is left. *)
Fixpoint fit_blocks (blocks : list string) : string :=
  let body := strings_Join blocks nl1 in
  match blocks with
  | _ :: rest =>
    if negb (bool_decide (rest = [])) && (summaryTotalCap <? String.length body)%nat
    then fit_blocks rest else body
  | [] => body
  end.

Definition renderRecentTurns (turns : list SummaryTurn) : string :=
  let clipped := (fun t => mkTurn (Role t) (tailClip (Text t) summaryEntryTextCap)) <$> turns in
  fit_blocks (rd_blocks (flush (foldl render_turn (mkRendering [] "" "") clipped))).

Definition formatSummaryPrompt (prev : string) (turns : list SummaryTurn) : string :=
  "You are a session summarizer. From the user inputs and previous summary below, "
  +:+ "summarize the work or goal the user is driving in this AI coding session "
  +:+ "into a single concise line (about 25 characters). "
  +:+ "Use ONLY the user inputs below; never summarize assistant outputs, tool results, "
  +:+ "or any non-user content. "
  +:+ "Return only the body text, no headings, decoration, preamble, or quotes." +:+ nl1 +:+ nl1
  +:+ (if bool_decide (prev = "") then ""
       else "<previous_summary>" +:+ nl1 +:+ prev +:+ nl1 +:+ "</previous_summary>" +:+ nl1 +:+ nl1)
  +:+ "<user_inputs>" +:+ nl1 +:+ renderRecentTurns turns +:+ "</user_inputs>" +:+ nl1.

(** ** Summary jobs (summary_job.go) *)

Definition summaryDisplayCap : nat := 30.

Definition enqueueSummaryJob (effs : list Effect) (inFlight : bool) (prompt : string) :
    list Effect * bool :=
  if inFlight || bool_decide (TrimSpace prompt = "") then (effs, inFlight)
  else (effs ++ [startJob (SummaryCommandInput prompt)], true).

(** [None]: the result is not a summary. *)
Definition applySummaryJobResult (c : CommonState) (result : JobResult) (err : option string) :
    option CommonState :=
  match result with
  | ResultDriver (SummaryCommandResult summary) =>
    let c := c <| c_SummaryInFlight := false |> in
    Some (if bool_decide (is_Some err) || bool_decide (summary = "") then c
          else c <| c_Summary := clampGraphemes summary summaryDisplayCap |>)
  | _ => None
  end.

(** ** Rewriting launch commands (worktree.go, flags.go)

    [LexArgs] never panics ([LexArgs_lex]), so the panic case below is not reached. *)

Record worktreeRequest := mkWorktree { wt_Enabled : bool; wt_Name : string }.

Definition splitCommandTokens (command : string) : LexError + list ArgToken :=
  match LexArgs (TrimSpace command) with Some r => r | None => inl UnterminatedEscape end.

Definition splitCommandArgs (command : string) : LexError + list string :=
  match SplitArgs (TrimSpace command) with Some r => r | None => inl UnterminatedEscape end.

Definition joinCommandArgs (argv : list string) : string := TrimSpace (JoinArgs argv).
Definition joinCommandText (parts : list string) : string := TrimSpace (strings_Join parts " ").
Definition renderCommandArgs (args : list string) : string := TrimSpace (JoinArgs args).

Inductive FlagMatch := FlagExact | FlagValue (value : string).

(** The first of [flags] that [p] is, alone or with [=value]. *)
Fixpoint match_flag (flags : list string) (p : string) : option FlagMatch :=
  match flags with
  | [] => None
  | flag :: flags =>
    if bool_decide (p = flag) then Some FlagExact
    else if HasPrefix p (flag +:+ "=") then Some (FlagValue (TrimPrefix p (flag +:+ "=")))
    else match_flag flags p
  end.

Definition is_dashed (t : ArgToken) : bool := HasPrefix (Value t) "-".

Fixpoint worktree_loop (flags : list string) (parts : list ArgToken) (req : worktreeRequest) :
    worktreeRequest * list string :=
  match parts with
  | [] => (req, [])
  | t :: rest =>
    match match_flag flags (Value t) with
    | Some FlagExact =>
      match rest with
      | v :: rest' =>
        if is_dashed v then worktree_loop flags rest (mkWorktree true (wt_Name req))
        else worktree_loop flags rest' (mkWorktree true (Value v))
      | [] => (mkWorktree true (wt_Name req), [])
      end
    | Some (FlagValue v) => worktree_loop flags rest (mkWorktree true v)
    | None => let '(req, out) := worktree_loop flags rest req in (req, Raw t :: out)
    end
  end.

Definition parseWorktreeFlags (command : string) (flags : list string) :
    worktreeRequest * string :=
  match splitCommandTokens command with
  | inl _ => (mkWorktree false "", TrimSpace command)
  | inr parts => let '(req, out) := worktree_loop flags parts (mkWorktree false "") in
                 (req, joinCommandText out)
  end.

Definition resolveWorktreeRequest (command : string) (options : LaunchOptions)
    (flags : list string) : worktreeRequest * string :=
  let '(req, stripped) := parseWorktreeFlags command flags in
  (if lo_WorktreeEnabled options then mkWorktree true (wt_Name req) else req, TrimSpace stripped).

Definition appendFlagValue (command flag value : string) : string :=
  let command := TrimSpace command in
  let value := TrimSpace value in
  if bool_decide (command = "") || bool_decide (value = "") then command
  else match splitCommandTokens command with
       | inr tokens => joinCommandText ((Raw <$> tokens) ++ [renderCommandArgs [flag; value]])
       | inl _ => TrimSpace (command +:+ " " +:+ flag +:+ " " +:+ value)
       end.

(** [arg] is one of [flags], exactly, rather than [flag=value]. *)
Definition exact_flag (flags : list string) (arg : string) : bool := bool_decide (arg ∈ flags).

(** The loop of [replaceFlagValue] and, with no [rendered] text, of [stripFlagValues]:
    the first flag becomes [rendered], the others and their values go. *)
Fixpoint flag_loop (flags : list string) (rendered : option string) (tokens : list ArgToken) :
    list string * bool :=
  match tokens with
  | [] => ([], false)
  | t :: rest =>
    match match_flag flags (Value t) with
    | Some _ =>
      let rest' := match rest with
                   | v :: rest' => if exact_flag flags (Value t) && negb (is_dashed v)
                                   then flag_loop flags None rest' else flag_loop flags None rest
                   | [] => ([], false)
                   end in
      (from_option (fun r => [r]) [] rendered ++ rest'.1, true)
    | None => let '(out, replaced) := flag_loop flags rendered rest in (Raw t :: out, replaced)
    end
  end.

(** [flags] is never empty: its head is the flag written. *)
Definition replaceFlagValue (command : string) (flag : string) (aliases : list string)
    (value : string) : string :=
  let value := TrimSpace value in
  if bool_decide (value = "") then TrimSpace command
  else match splitCommandTokens command with
       | inr (t :: tokens) =>
         let rendered := renderCommandArgs [flag; value] in
         let '(out, replaced) := flag_loop (flag :: aliases) (Some rendered) (t :: tokens) in
         joinCommandText (if replaced then out else out ++ [rendered])
       | _ => appendFlagValue command flag value
       end.

Definition stripFlagValues (command : string) (flags : list string) : string :=
  match splitCommandTokens command with
  | inr (t :: tokens) => joinCommandText (flag_loop flags None (t :: tokens)).1
  | _ => TrimSpace command
  end.

Definition PreserveLaunchOptions (options : LaunchOptions) (worktreeEnabled : bool) :
    LaunchOptions := options <| lo_WorktreeEnabled := worktreeEnabled |>.

Definition CommonPrepareCreate (project command : string) (options : LaunchOptions)
    (flags : list string) : CreateLaunch :=
  let '(req, stripped) := resolveWorktreeRequest command options flags in
  mkCreateLaunch (TrimSpace stripped) project
    (mkLaunchOptions (wt_Enabled req) (lo_InitialInput options) (lo_Cols options)
       (lo_Rows options)).

Definition hasFlagToken (command flag : string) : bool :=
  match splitCommandArgs command with
  | inl _ => false
  | inr argv => existsb (fun p => bool_decide (p = flag) || HasPrefix p (flag +:+ "=")) argv
  end.

Definition stripFlagToken (command flag : string) : string :=
  match splitCommandArgs command with
  | inl _ => TrimSpace command
  | inr parts => joinCommandArgs (base.filter (fun p => p <> flag) parts)
  end.

Definition zero_stream : StreamLaunchOptions := mkStreamLaunchOptions false (mkResumeTarget "" "") "".

(** A [state.LaunchPlan] with the fields the drivers set. *)
Definition plan (command startDir : string) (options : LaunchOptions) (stdin : string) : LaunchPlan :=
  mkLaunchPlan command [] [] 0 startDir "" options LaunchSubsystemCLI zero_stream [] stdin.
