(* ===== verification/DriverToolLog.v ===== *)
(** * host/driver: tool-log records

    claude_tool_log.go (the helpers every driver uses) and tool_log_v2.go: shortening
    a tool's input for the log, classifying file operations, and the project slug. *)

From Stdlib Require Import String.
From S2P Require Import Prelude GoStd GoStrings GoPath HostState DriverTypes DriverCommon.

Definition toolLogSchemaVersion : Z := 2.

(** [strings.NewReplacer("/", "-", ".", "-")] *)
Definition projectDir (p : string) : string :=
  string_of_list_ascii
    ((fun c => if bool_decide (c = slash) || bool_decide (c = ascii_of_nat 46)
               then ascii_of_nat 45 else c) <$> list_ascii_of_string p).

Definition resolveProjectSlug (project : string) : string :=
  if bool_decide (project = "") then "" else projectDir project.

Definition truncValue (v : Any) : Any :=
  match v with
  | AnyString s =>
    if (200 <? length (runes s))%nat then AnyString (string_of_runes (take 200 (runes s)) +:+ "…")
    else v
  | _ => v
  end.

(** [AnyNull] is Go's nil. *)
Definition pickAndTrunc (input : AnyMap) (keys : list string) : AnyMap :=
  foldl (fun out k => match input !! k with
                      | None | Some AnyNull => out
                      | Some v => <[k := truncValue v]> out
                      end) ∅ keys.

Definition truncStrings (input : AnyMap) : AnyMap := truncValue <$> input.

Definition summariseToolInput (name : string) (input : AnyMap) : AnyMap :=
  if bool_decide (name = "Bash") then pickAndTrunc input ["command"; "description"]
  else if bool_decide (name ∈ ["Read"; "Write"; "Edit"; "Glob"])
  then pickAndTrunc input ["file_path"; "pattern"]
  else if bool_decide (name = "Grep") then pickAndTrunc input ["pattern"; "path"; "glob"]
  else if bool_decide (name = "Agent") then pickAndTrunc input ["description"; "subagent_type"]
  else truncStrings input.

Definition classifyClaudeTool (toolName : string) (toolInput : AnyMap) (workspaceRoot : string) :
    fileEventKind * string :=
  let p := toolInputString toolInput "file_path" in
  let path kind := if bool_decide (p = "") then (fileEventUnclassified, "")
                   else (kind, workspaceRelativePath workspaceRoot p) in
  if bool_decide (toolName = "Read") then path fileEventRead
  else if bool_decide (toolName = "Write") then path fileEventCreate
  else if bool_decide (toolName = "Edit") then path fileEventEdit
  else (fileEventUnclassified, "").

(** [m[k]] of a decoded object. *)
Fixpoint object_get (fields : list (string * Any)) (k : string) : option Any :=
  match fields with
  | [] => None
  | (k', v) :: fields => if bool_decide (k = k') then Some v else object_get fields k
  end.

Definition codexPatchChangeKind (v : option Any) : fileEventKind :=
  match v with
  | Some (AnyObject m) =>
    let ty := as_string (object_get m "type") in
    if bool_decide (ty = "add") then fileEventCreate
    else if bool_decide (ty = "update") then fileEventEdit
    else if bool_decide (ty = "delete") then fileEventDelete
    else fileEventUnclassified
  | _ => fileEventUnclassified
  end.

Definition classifyCodexPatch (toolInput : AnyMap) (workspaceRoot : string) :
    fileEventKind * string :=
  match toolInput !! "changes" with
  | Some (AnyArray (AnyObject change :: _)) =>
    let path := as_string (object_get change "path") in
    if bool_decide (path = "") then (fileEventUnclassified, "")
    else match codexPatchChangeKind (object_get change "kind") with
         | fileEventUnclassified => (fileEventUnclassified, "")
         | kind => (kind, workspaceRelativePath workspaceRoot path)
         end
  | Some (AnyArray (_ :: _)) => (fileEventUnclassified, "")
  | _ =>
    let p := firstNonEmpty [toolInputString toolInput "file_path"; toolInputString toolInput "path"] in
    if bool_decide (p = "") then (fileEventUnclassified, "")
    else (fileEventEdit, workspaceRelativePath workspaceRoot p)
  end.

Definition classifyCodexTool (toolName : string) (toolInput : AnyMap) (workspaceRoot : string) :
    fileEventKind * string :=
  if bool_decide (toolName ∈ ["read"; "read_file"; "Read"]) then
    let p := firstNonEmpty [toolInputString toolInput "file_path"; toolInputString toolInput "path"] in
    if bool_decide (p = "") then (fileEventUnclassified, "")
    else (fileEventRead, workspaceRelativePath workspaceRoot p)
  else if bool_decide (toolName ∈ ["apply_patch"; "file_change"])
  then classifyCodexPatch toolInput workspaceRoot
  else (fileEventUnclassified, "").

(** A JSON record of [kind] and [tool_name] when the encoder fails. *)
Definition buildToolLogLine `{DriverEnv} (entry : toolLogEntry) : string :=
  match json_toolLogEntry entry with
  | Some line => line
  | None =>
    let q := String dquote "" in
    "{" +:+ q +:+ "kind" +:+ q +:+ ":" +:+ q +:+ te_Kind entry +:+ q +:+ "," +:+ q +:+ "tool_name"
    +:+ q +:+ ":" +:+ q +:+ te_ToolName entry +:+ q +:+ "}"
  end.

(** [now.Sub(startedAt).Milliseconds()] when both are set. *)
Definition duration_ms (startedAt now : Time) : Z :=
  if IsZero startedAt || IsZero now then 0 else Z.quot (Sub now startedAt) Millisecond.

(** [strconv.Itoa] of a turn number, 1 when not positive. *)
Definition formatToolLogTurn (n : Z) : string := if n <=? 0 then "1" else show_int n.
