(* ===== verification/DriverBasic.v ===== *)
(** * host/driver: the generic, shell, agy and grok drivers

    generic.go, shell.go, agy.go, grok.go and platform/lib/grok/argv.go.  [Step] is
    given without the view it also returns. *)

From Stdlib Require Import String.
From S2P Require Import Prelude GoStd GoStrings GoTime ShellArgs HostState DriverTypes DriverCommon.

(** Type assertions. *)
Definition as_generic (s : DriverState) : option GenericState :=
  match s with Some (DSGeneric x) => Some x | _ => None end.
Definition as_shell (s : DriverState) : option ShellState :=
  match s with Some (DSShell x) => Some x | _ => None end.
Definition as_agy (s : DriverState) : option AgyState :=
  match s with Some (DSAgy x) => Some x | _ => None end.
Definition as_grok (s : DriverState) : option GrokState :=
  match s with Some (DSGrok x) => Some x | _ => None end.

Definition new_common (status : Status) (now : Time) : CommonState :=
  zero_common <| c_Status := status |> <| c_StatusChangedAt := now |>.

(** ** Generic (generic.go) *)

Module Generic.

Record GenericDriver := mkGenericDriver { name : string; displayName : string; threshold : Duration }.

Definition StartDir (s : DriverState) : string :=
  match as_generic s with Some gs => c_StartDir (gn_Common gs) | None => "" end.

Definition WithStartDir (s : DriverState) (dir : string) : DriverState :=
  match as_generic s with
  | Some gs => Some (DSGeneric (gs <| gn_Common := gn_Common gs <| c_StartDir := dir |> |>))
  | None => s
  end.

Definition NewState (d : GenericDriver) (now : Time) : GenericState :=
  mkGeneric (new_common StatusWaiting now) (name d).

Definition PrepareLaunch (s : DriverState) (project baseCommand : string) (options : LaunchOptions) :
    LaunchPlan :=
  let gs := default zero_generic (as_generic s) in
  let '(req, command) := resolveWorktreeRequest baseCommand options ["--worktree"] in
  let startDir := if bool_decide (c_StartDir (gn_Common gs) = "") then project
                  else c_StartDir (gn_Common gs) in
  plan (TrimSpace command) startDir (PreserveLaunchOptions options (wt_Enabled req))
    (lo_InitialInput options).

Definition PrepareCreate (s : DriverState) (project command : string) (options : LaunchOptions) :
    GenericState * CreateLaunch :=
  (default zero_generic (as_generic s),
   CommonPrepareCreate project command options ["--worktree"]).

(** A nil bag is an empty one. *)
Definition Persist (s : DriverState) : Bag :=
  match as_generic s with Some gs => PersistCommon (gn_Common gs) ∅ | None => ∅ end.

Definition Restore (d : GenericDriver) (bag : Bag) (now : Time) : GenericState :=
  let gs := mkGeneric (new_common StatusWaiting now) (name d) in
  if bool_decide (bag = ∅) then gs
  else gs <| gn_Common := RestoreCommon (gn_Common gs) bag |>.

Definition is_hook (ev : DriverEvent) : bool := match ev with DEvHook _ _ _ _ => true | _ => false end.

Definition branch_result (c : CommonState) (r : JobResult) (err : option string) (now : Time) :
    CommonState :=
  match r with
  | ResultDriver (BranchDetectResult_ r) => ApplyBranchResult c r err now
  | _ => c
  end.

Definition Step (d : GenericDriver) (prev : DriverState) (ctx : FrameContext) (ev : DriverEvent) :
    GenericState * list Effect :=
  let gs := default (NewState d 0) (as_generic prev) in
  let c := gn_Common gs in
  if negb (fc_IsRoot ctx) && negb (is_hook ev) then (gs, []) else
  match ev with
  | DEvTick now watched project _ _ =>
    if negb watched && negb (bool_decide (c_Status c = StatusRunning)) then (gs, [])
    else let '(c, effs) := HandleTick c now watched project in (gs <| gn_Common := c |>, effs)
  | DEvJobResult result err now =>
    match applySummaryJobResult c result err with
    | Some c => (gs <| gn_Common := c |>, [])
    | None => (gs <| gn_Common := branch_result c result err now |>, [])
    end
  | DEvFrameOsc _ TerminalSignalProgress _ _ progressState _ now =>
    (gs <| gn_Common := ObserveStatus c StatusSourceProgress (progressStatus progressState) now |>, [])
  | DEvWorktreeResolved startDir name =>
    (gs <| gn_Common := ApplyWorktreeResolved c startDir name |>, [])
  | DEvCommandExited code ts => (gs <| gn_Common := ApplyCommandExited c code ts |>, [])
  | _ => (gs, [])
  end.

End Generic.

(** ** Shell (shell.go) *)

Module Shell.

Definition keyShellSawPromptEvent := "shell_saw_prompt_event".
Definition keyShellLastExitCode := "shell_last_exit_code".

Definition StartDir (s : DriverState) : string :=
  match as_shell s with Some ss => c_StartDir (shl_Common ss) | None => "" end.

Definition WithStartDir (s : DriverState) (dir : string) : DriverState :=
  match as_shell s with
  | Some ss => Some (DSShell (ss <| shl_Common := shl_Common ss <| c_StartDir := dir |> |>))
  | None => s
  end.

Definition NewState (now : Time) : ShellState := mkShell (new_common StatusWaiting now) false None.

Definition PrepareLaunch (s : DriverState) (project baseCommand : string) (options : LaunchOptions) :
    LaunchPlan :=
  let ss := default zero_shell (as_shell s) in
  let '(req, command) := resolveWorktreeRequest baseCommand options ["--worktree"] in
  let startDir := if bool_decide (c_StartDir (shl_Common ss) = "") then project
                  else c_StartDir (shl_Common ss) in
  plan (TrimSpace command) startDir (PreserveLaunchOptions options (wt_Enabled req))
    (lo_InitialInput options).

Definition PrepareCreate (s : DriverState) (project command : string) (options : LaunchOptions) :
    ShellState * CreateLaunch :=
  (default zero_shell (as_shell s),
   CommonPrepareCreate project command options ["--worktree"]).

Definition Persist (s : DriverState) : Bag :=
  match as_shell s with
  | Some ss =>
    let out := PersistCommon (shl_Common ss) ∅ in
    let out := put_flag keyShellSawPromptEvent (shl_SawPromptEvent ss) out in
    match shl_LastExitCode ss with
    | Some code => <[keyShellLastExitCode := show_int code]> out
    | None => out
    end
  | None => ∅
  end.

Definition Restore (bag : Bag) (now : Time) : ShellState :=
  let ss := NewState now in
  if bool_decide (bag = ∅) then ss
  else
    ss <| shl_Common := RestoreCommon (shl_Common ss) bag |>
       <| shl_SawPromptEvent := get_flag bag keyShellSawPromptEvent |>
       <| shl_LastExitCode :=
            if bool_decide (bag_get bag keyShellLastExitCode = "") then None
            else Atoi (bag_get bag keyShellLastExitCode) |>.

Definition setShellStatus (ss : ShellState) (next : Status) (now : Time) : ShellState :=
  let c := shl_Common ss in
  if bool_decide (c_Status c = next) then ss
  else ss <| shl_Common := c <| c_Status := next |> <| c_StatusChangedAt := now |> |>.

Definition applyShellPromptEvent (ss : ShellState) (phase : PromptPhase) (exitCode : option Z)
    (now : Time) : ShellState :=
  let ss := ss <| shl_SawPromptEvent := true |> in
  match phase with
  | PromptPhaseInput => setShellStatus ss StatusWaiting now
  | PromptPhaseCommand => setShellStatus ss StatusRunning now
  | PromptPhaseComplete => setShellStatus (ss <| shl_LastExitCode := exitCode |>) StatusWaiting now
  | _ => ss
  end.

Definition applyJobResult (ss : ShellState) (result : JobResult) (err : option string) (now : Time) :
    ShellState :=
  match applySummaryJobResult (shl_Common ss) result err with
  | Some c => ss <| shl_Common := c |>
  | None => ss <| shl_Common := Generic.branch_result (shl_Common ss) result err now |>
  end.

Definition Step (prev : DriverState) (ctx : FrameContext) (ev : DriverEvent) :
    ShellState * list Effect :=
  let ss := default (NewState 0) (as_shell prev) in
  let c := shl_Common ss in
  if negb (fc_IsRoot ctx) && negb (Generic.is_hook ev) then (ss, []) else
  match ev with
  | DEvTick now watched project _ _ =>
    if negb watched && negb (bool_decide (c_Status c = StatusRunning)) then (ss, [])
    else let '(c, effs) := HandleTick c now watched project in (ss <| shl_Common := c |>, effs)
  | DEvJobResult result err now => (applyJobResult ss result err now, [])
  | DEvFramePrompt phase exitCode now => (applyShellPromptEvent ss phase exitCode now, [])
  | DEvWorktreeResolved startDir name =>
    (ss <| shl_Common := ApplyWorktreeResolved c startDir name |>, [])
  | DEvCommandExited code ts => (ss <| shl_Common := ApplyCommandExited c code ts |>, [])
  | _ => (ss, [])
  end.

End Shell.

(** ** Agy (agy.go) *)

Module Agy.

Definition AgyDriverName := "agy".
Definition generic : Generic.GenericDriver := Generic.mkGenericDriver AgyDriverName AgyDriverName 0.

Definition keyConversation := "agy_conversation_id".
Definition keyInvocation := "agy_invocation_num".
Definition keyTermination := "agy_termination_reason".

Definition common (s : AgyState) : CommonState := gn_Common (ag_Generic s).
Definition with_common (s : AgyState) (c : CommonState) : AgyState :=
  s <| ag_Generic := ag_Generic s <| gn_Common := c |> |>.

Definition StartDir (s : DriverState) : string :=
  match as_agy s with Some a => c_StartDir (common a) | None => "" end.

(** On another driver's state this is the zero [AgyState], not the state itself. *)
Definition WithStartDir (s : DriverState) (dir : string) : DriverState :=
  match as_agy s with
  | Some a => Some (DSAgy (with_common a (common a <| c_StartDir := dir |>)))
  | None => Some (DSAgy zero_agy)
  end.

Definition NewState (now : Time) : AgyState := mkAgy (Generic.NewState generic now) "" 0 false "".

Definition PrepareLaunch (s : DriverState) (project command : string) (options : LaunchOptions) :
    LaunchPlan :=
  Generic.PrepareLaunch (Some (DSGeneric (ag_Generic (default zero_agy (as_agy s))))) project command
    options.

Definition PrepareCreate (s : DriverState) (project command : string) (options : LaunchOptions) :
    AgyState * CreateLaunch :=
  let a := default zero_agy (as_agy s) in
  let '(next, launch) := Generic.PrepareCreate (Some (DSGeneric (ag_Generic a))) project command options in
  (a <| ag_Generic := next |>, launch).

Section Env.
Context `{DriverEnv}.

Definition observe (a : AgyState) (status : Status) (ts : Time) : AgyState :=
  with_common a (ObserveStatus (common a) StatusSourceHook status ts).

Definition applyAgyHook (a : AgyState) (event : string) (ts : Time) (payload : string) : AgyState :=
  match json_agyHookPayload payload with
  | None => a
  | Some p =>
    let a := if bool_decide (ahp_ConversationID p = "") then a
             else a <| ag_ConversationID := ahp_ConversationID p |> in
    let stale (n : Z) := ag_HasInvocation a && (n <? ag_LastInvocation a) in
    if bool_decide (event = "PreInvocation") then
      match ahp_InvocationNum p with
      | Some n => if stale n then a
                  else observe (a <| ag_LastInvocation := n |> <| ag_HasInvocation := true |>)
                         StatusRunning ts
      | None => observe a StatusRunning ts
      end
    else if bool_decide (event = "PostInvocation") || bool_decide (event = "PostToolUse")
    then observe a StatusRunning ts
    else if bool_decide (event = "Stop") then
      if from_option stale false (ahp_ExecutionNum p) then a
      else let a := a <| ag_TerminationReason := ahp_TerminationReason p |> in
           if ahp_FullyIdle p then observe a StatusWaiting ts else a
    else a
  end.

Definition Step (prev : DriverState) (ctx : FrameContext) (ev : DriverEvent) :
    AgyState * list Effect :=
  let a := default (NewState 0) (as_agy prev) in
  match ev with
  | DEvHook event ts _ payload => (applyAgyHook a event ts payload, [])
  | _ => let '(next, effects) := Generic.Step generic (Some (DSGeneric (ag_Generic a))) ctx ev in
         (a <| ag_Generic := next |>, effects)
  end.
End Env.

Definition Persist (s : DriverState) : Bag :=
  match as_agy s with
  | Some a =>
    let out := PersistCommon (common a) ∅ in
    let out := put_string keyConversation (ag_ConversationID a) out in
    let out := if ag_HasInvocation a then <[keyInvocation := show_int (ag_LastInvocation a)]> out
               else out in
    put_string keyTermination (ag_TerminationReason a) out
  | None => ∅
  end.

Definition Restore (bag : Bag) (now : Time) : AgyState :=
  let a := NewState now in
  let a := with_common a (RestoreCommon (common a) bag) in
  let a := a <| ag_ConversationID := bag_get bag keyConversation |>
             <| ag_TerminationReason := bag_get bag keyTermination |> in
  let raw := bag_get bag keyInvocation in
  if bool_decide (raw = "") then a
  else match Atoi raw with
       | Some n => a <| ag_LastInvocation := n |> <| ag_HasInvocation := true |>
       | None => a
       end.

End Agy.

(** ** Grok (grok.go, platform/lib/grok/argv.go) *)

Definition is_braille (r : Z) : bool := in_range 0x2800 0x28ff r.

Module Grok.

Definition DriverName := "grok".
Definition grokKeySessionID := "grok_session_id".
Definition grokKeyForkParentID := "grok_fork_parent_id".
Definition grokKeyModel := "grok_model".
Definition grokKeyEffort := "grok_effort".

Inductive Lifecycle := LifecycleFresh | LifecycleContinue | LifecycleResume | LifecycleFork.

Record CommandConfig := mkConfig { cfg_Model : string; cfg_Effort : string }.

Section Env.
Context `{DriverEnv}.

Definition lex_error_text (err : LexError) (command : string) : string :=
  match err with
  | UnterminatedEscape => "agentlaunch: unterminated escape in "
  | UnterminatedSingleQuote => "agentlaunch: unterminated single quote in "
  | UnterminatedDoubleQuote => "agentlaunch: unterminated double quote in "
  end +:+ fmt_q command.

Definition split (command : string) : string + list string :=
  match splitCommandArgs command with
  | inl err => inl (lex_error_text err (TrimSpace command))
  | inr argv => inr argv
  end.

(** The arguments after the program name. *)
Definition grok_args (command : string) : string + list string :=
  match split command with
  | inl err => inl err
  | inr (prog :: rest) =>
    if bool_decide (prog = DriverName) then inr rest
    else inl ("grok: unsupported command " +:+ fmt_q command)
  | inr [] => inl ("grok: unsupported command " +:+ fmt_q command)
  end.

Fixpoint parse_loop (argv : list string) (cfg : CommandConfig) : CommandConfig :=
  match argv with
  | [] => cfg
  | arg :: rest =>
    if bool_decide (arg = "-m") || bool_decide (arg = "--model") then
      match rest with
      | v :: rest' => parse_loop rest' (mkConfig v (cfg_Effort cfg))
      | [] => cfg
      end
    else if bool_decide (arg = "--effort") || bool_decide (arg = "--reasoning-effort") then
      match rest with
      | v :: rest' => parse_loop rest' (mkConfig (cfg_Model cfg) v)
      | [] => cfg
      end
    else
      let cfg := if HasPrefix arg "--model="
                 then mkConfig (TrimPrefix arg "--model=") (cfg_Effort cfg) else cfg in
      let cfg := if HasPrefix arg "--effort="
                 then mkConfig (cfg_Model cfg) (TrimPrefix arg "--effort=") else cfg in
      parse_loop rest cfg
  end.

Definition ParseCommand (command : string) : string + CommandConfig :=
  match grok_args command with
  | inl err => inl err
  | inr rest => inr (parse_loop rest (mkConfig "" ""))
  end.

Definition hasFlag (argv flags : list string) : bool :=
  existsb (fun arg =>
    existsb (fun flag => bool_decide (arg = flag) || HasPrefix arg (flag +:+ "=")) flags) argv.

Definition hasSessionFlag (argv : list string) : bool :=
  hasFlag argv ["--session-id"; "-s"] || hasFlag argv ["--resume"; "-r"]
  || hasFlag argv ["--continue"] || hasFlag argv ["--fork-session"].

Definition with_model_effort (argv : list string) (model effort : string) : list string :=
  let argv := if non_empty model && negb (hasFlag argv ["--model"; "-m"])
              then argv ++ ["--model"; model] else argv in
  if non_empty effort && negb (hasFlag argv ["--effort"; "--reasoning-effort"])
  then argv ++ ["--effort"; effort] else argv.

Definition lifecycle_args (lifecycle : Lifecycle) (sessionID : string) : list string :=
  match lifecycle with
  | LifecycleFresh => ["--session-id"; sessionID]
  | LifecycleContinue => ["--continue"]
  | LifecycleResume => ["--resume"; sessionID]
  | LifecycleFork => ["--resume"; sessionID; "--fork-session"]
  end.

Definition BuildCommand (command : string) (lifecycle : Lifecycle)
    (sessionID model effort : string) : string + string :=
  match grok_args command with
  | inl err => inl err
  | inr rest =>
    let argv := DriverName :: rest in
    if hasSessionFlag argv then inl "grok: command already contains a session lifecycle flag"
    else if match lifecycle with LifecycleContinue => false | _ => bool_decide (sessionID = "") end
    then inl "grok: session id required"
    else inr (JoinArgs (with_model_effort
                (argv ++ "--no-auto-update" :: lifecycle_args lifecycle sessionID) model effort))
  end.

Definition BuildForkCommand (command parentSessionID childSessionID model effort : string) :
    string + string :=
  if bool_decide (parentSessionID = "") || bool_decide (childSessionID = "")
  then inl "grok: parent and child session ids required for fork"
  else match grok_args command with
  | inl err => inl err
  | inr rest =>
    let argv := DriverName :: rest in
    if hasSessionFlag argv then inl "grok: command already contains a session lifecycle flag"
    else inr (JoinArgs (with_model_effort
                (argv ++ ["--no-auto-update"; "--resume"; parentSessionID; "--fork-session";
                          "--session-id"; childSessionID]) model effort))
  end.

Fixpoint strip_loop (args : list string) : list string :=
  match args with
  | [] => []
  | arg :: rest =>
    if bool_decide (arg ∈ ["--session-id"; "-s"; "--resume"; "-r"]) then
      match rest with _ :: rest' => strip_loop rest' | [] => [] end
    else if bool_decide (arg ∈ ["--continue"; "--fork-session"; "--no-auto-update"])
    then strip_loop rest else arg :: strip_loop rest
  end.

(** The error is dropped by both callers, with the empty command beside it. *)
Definition stripGrokLifecycle (command : string) : string :=
  match splitCommandArgs command with
  | inl _ => ""
  | inr args => joinCommandArgs (strip_loop args)
  end.

Definition grokUUID (id : SessionID) : string :=
  let raw := String.substring 0 32 (Sha256.hex id) in
  let s i n := String.substring i n raw in
  s 0%nat 8%nat +:+ "-" +:+ s 8%nat 4%nat +:+ "-4" +:+ s 13%nat 3%nat +:+ "-a" +:+ s 17%nat 3%nat
  +:+ "-" +:+ s 20%nat 12%nat.

Definition StartDir (s : DriverState) : string :=
  match as_grok s with Some gs => c_StartDir (gk_Common gs) | None => "" end.

Definition WithStartDir (s : DriverState) (dir : string) : DriverState :=
  match as_grok s with
  | Some gs => Some (DSGrok (gs <| gk_Common := gk_Common gs <| c_StartDir := dir |> |>))
  | None => s
  end.

Definition NewState (now : Time) : GrokState := mkGrok (new_common StatusIdle now) "" "" "" "" "".

Definition PrepareCreate (s : DriverState) (sessionID : SessionID) (project command : string)
    (options : LaunchOptions) : string + (GrokState * CreateLaunch) :=
  let gs := default zero_grok (as_grok s) in
  match ParseCommand command with
  | inl err => inl err
  | inr cfg =>
    let gs := gs <| gk_Model := cfg_Model cfg |> <| gk_Effort := cfg_Effort cfg |>
                 <| gk_GrokSessionID := grokUUID sessionID |> in
    let launch := CommonPrepareCreate project command options ["--worktree"] in
    match BuildCommand (cl_Command launch) LifecycleFresh (gk_GrokSessionID gs) (gk_Model gs)
            (gk_Effort gs) with
    | inl err => inl err
    | inr built => inr (gs, mkCreateLaunch built (cl_StartDir launch) (cl_Options launch))
    end
  end.

Definition PrepareLaunch (s : DriverState) (mode : LaunchMode) (project command : string)
    (options : LaunchOptions) : string + LaunchPlan :=
  let gs := default zero_grok (as_grok s) in
  let startDir := if bool_decide (c_StartDir (gk_Common gs) = "") then project
                  else c_StartDir (gk_Common gs) in
  let '(req, command) := resolveWorktreeRequest command options ["--worktree"] in
  let built :=
    match mode with
    | LaunchModeColdStart =>
      if bool_decide (gk_GrokSessionID gs = "") then inr command
      else BuildCommand (stripGrokLifecycle command) LifecycleResume (gk_GrokSessionID gs)
             (gk_Model gs) (gk_Effort gs)
    | LaunchModeCreate =>
      if bool_decide (gk_ForkParentID gs = "") then inr command
      else BuildForkCommand (stripGrokLifecycle command) (gk_ForkParentID gs)
             (gk_GrokSessionID gs) (gk_Model gs) (gk_Effort gs)
    | LaunchModeWarmStart => inr command
    end in
  match built with
  | inl err => inl err
  | inr command => inr (plan (TrimSpace command) startDir
                          (PreserveLaunchOptions options (wt_Enabled req)) (lo_InitialInput options))
  end.

Definition handleGrokTerminalSignal (gs : GrokState) (kind : TerminalSignalKind) (title : string)
    (progressState : Z) (now : Time) : GrokState :=
  let observe gs source status := gs <| gk_Common := ObserveStatus (gk_Common gs) source status now |> in
  match kind with
  | TerminalSignalProgress => observe gs StatusSourceProgress (progressStatus progressState)
  | TerminalSignalWindowTitle =>
    if bool_decide (title = gk_LastWindowTitle gs) then gs
    else
      let gs := gs <| gk_LastWindowTitle := title |> in
      if Contains title "Action Required" || Contains title "⚠" then gs
      else if existsb is_braille (runes title) then observe gs StatusSourceTerminal StatusRunning
      else if bool_decide (TrimSpace title = "grok") then observe gs StatusSourceTerminal StatusWaiting
      else gs
  | _ => gs
  end.

(** On a tick the returned state is read before or after [HandleTick] changes it. *)
Definition Step (prev : DriverState) (ctx : FrameContext) (ev : DriverEvent) :
    GrokState * list Effect :=
  let gs := default (NewState 0) (as_grok prev) in
  if negb (fc_IsRoot ctx) then (gs, []) else
  match ev with
  | DEvTick now watched project _ _ =>
    let gs := gs <| gk_Common := ResolveStatus (gk_Common gs) |> in
    let '(c, effs) := HandleTick (gk_Common gs) now watched project in
    (if operands_late then gs <| gk_Common := c |> else gs, effs)
  | DEvFrameOsc _ kind title _ progressState _ now =>
    (handleGrokTerminalSignal gs kind title progressState now, [])
  | DEvWorktreeResolved startDir name =>
    (gs <| gk_Common := ApplyWorktreeResolved (gk_Common gs) startDir name |>, [])
  | DEvCommandExited code ts =>
    (gs <| gk_Common := ApplyCommandExited (gk_Common gs) code ts |>, [])
  | _ => (gs, [])
  end.

Definition Persist (s : DriverState) : Bag :=
  match as_grok s with
  | Some gs =>
    let out := PersistCommon (gk_Common gs) ∅ in
    let out := put_string grokKeySessionID (gk_GrokSessionID gs) out in
    let out := put_string grokKeyForkParentID (gk_ForkParentID gs) out in
    let out := put_string grokKeyModel (gk_Model gs) out in
    put_string grokKeyEffort (gk_Effort gs) out
  | None => ∅
  end.

Definition Restore (bag : Bag) (now : Time) : GrokState :=
  let gs := NewState now in
  gs <| gk_Common := RestoreCommon (gk_Common gs) bag |>
     <| gk_GrokSessionID := bag_get bag grokKeySessionID |>
     <| gk_ForkParentID := bag_get bag grokKeyForkParentID |>
     <| gk_Model := bag_get bag grokKeyModel |>
     <| gk_Effort := bag_get bag grokKeyEffort |>.

Definition RecoverableOnColdStart (s : DriverState) : bool :=
  match as_grok s with Some gs => non_empty (gk_GrokSessionID gs) | None => false end.

Definition ForkCommand (s : DriverState) (base : string) : option string :=
  match as_grok s with
  | Some gs =>
    if bool_decide (gk_GrokSessionID gs = "") then None
    else match BuildCommand base LifecycleFork (gk_GrokSessionID gs) (gk_Model gs) (gk_Effort gs) with
         | inr command => Some command
         | inl _ => None
         end
  | None => None
  end.

Definition ForkChildState (parent : DriverState) (now : Time) : DriverState :=
  let child := NewState now in
  Some (DSGrok (match as_grok parent with
                | Some p => child <| gk_Model := gk_Model p |> <| gk_Effort := gk_Effort p |>
                                  <| gk_ForkParentID := gk_GrokSessionID p |>
                | None => child
                end)).

Definition WithForkSessionID (s : DriverState) (id : SessionID) : DriverState :=
  match as_grok s with
  | Some gs => Some (DSGrok (gs <| gk_GrokSessionID := grokUUID id |>))
  | None => s
  end.

End Env.
End Grok.
