(* ===== verification/DriverClaude.v ===== *)
(** * host/driver: the Claude driver

    claude.go, claude_event.go, claude_tick.go, claude_tool_log.go, claude_persist.go,
    claude_fork.go, claude_statusline.go, claude_worktree.go and
    platform/lib/claude/cli.  [Step] is given without the view it also returns.  The
    source updates [PendingTools] in place, so the map of the previous state changes
    too; the reducer drops that state, and the model has values. *)

From Stdlib Require Import String.
From S2P Require Import Prelude GoStd GoStrings GoTime GoPath ShellArgs HostState DriverTypes.
From S2P Require Import DriverCommon DriverToolLog DriverBasic.

Definition as_claude (s : DriverState) : option ClaudeState :=
  match s with Some (DSClaude x) => Some x | _ => None end.

(** [isAlphanumHyphen] *)
Definition isAlphanumHyphen (s : string) : bool :=
  forallb (fun c => in_range 97 122 c || in_range 65 90 c || in_range 48 57 c || (c =? 45) || (c =? 95))
    (runes s)
  && negb (bool_decide (s = "")).

(** ** platform/lib/claude/cli *)

Module ClaudeCLI.

Record CommandConfig := mkConfig { cfg_Model : string; cfg_Effort : string }.

Fixpoint parse_loop (argv : list string) (cfg : CommandConfig) : CommandConfig :=
  match argv with
  | [] => cfg
  | arg :: rest =>
    if bool_decide (arg = "--model") then
      match rest with
      | v :: rest' => parse_loop rest' (mkConfig v (cfg_Effort cfg))
      | [] => cfg
      end
    else if bool_decide (arg = "--effort") then
      match rest with
      | v :: rest' => parse_loop rest' (mkConfig (cfg_Model cfg) v)
      | [] => cfg
      end
    else if HasPrefix arg "--model="
    then parse_loop rest (mkConfig (TrimSpace (TrimPrefix arg "--model=")) (cfg_Effort cfg))
    else if HasPrefix arg "--effort="
    then parse_loop rest (mkConfig (cfg_Model cfg) (TrimSpace (TrimPrefix arg "--effort=")))
    else parse_loop rest cfg
  end.

(** [None]: an error, which every caller treats as no configuration. *)
Definition ParseCommand (argv : list string) : option CommandConfig :=
  match argv with
  | prog :: rest => if bool_decide (prog = "claude") then Some (parse_loop rest (mkConfig "" "")) else None
  | [] => None
  end.

Fixpoint strip_worktree (parts : list ArgToken) : list string :=
  match parts with
  | [] => []
  | p :: rest =>
    if bool_decide (Value p = "--worktree") then
      match rest with
      | v :: rest' => if is_dashed v then strip_worktree rest else strip_worktree rest'
      | [] => []
      end
    else if HasPrefix (Value p) "--worktree=" then strip_worktree rest
    else Raw p :: strip_worktree rest
  end.

Definition StripWorktreeFlag (command : string) : string :=
  match splitCommandTokens command with
  | inl _ => TrimSpace command
  | inr parts => TrimSpace (strings_Join (strip_worktree parts) " ")
  end.

Definition ResumeCommand (baseCommand sessionID : string) : string :=
  if bool_decide (sessionID = "") then baseCommand
  else StripWorktreeFlag baseCommand +:+ " --resume " +:+ sessionID.

Definition ForkCommand (baseCommand parentID : string) : string :=
  if bool_decide (parentID = "") then baseCommand
  else ResumeCommand baseCommand parentID +:+ " --fork-session".

End ClaudeCLI.

Module Claude.

Definition ClaudeDriverName := "claude".
Definition claudeKeyClaudeSessionID := "claude_session_id".
Definition claudeKeyModelAuthoritative := "claude_model_authoritative".
Definition claudeKeyEffortAuthoritative := "claude_effort_authoritative".
Definition claudeKeyModelSet := "claude_model_set".
Definition claudeKeyEffortSet := "claude_effort_set".
Definition claudeKeyForkParentID := "fork_parent_id".
Definition claudeKeyModel := "claude_model".
Definition claudeKeyEffort := "claude_effort".
Definition claudeLegacyKeyModel := "model".
Definition claudeLegacyKeyEffort := "effort".

Definition claudeManagedMCPTools : list string := ["agent_frames"].

(** [eventLogDir] and [showThinking] are read by the view only. *)
Record ClaudeDriver := mkClaudeDriver { home : string; pager : string }.

Definition with_common (cs : ClaudeState) (c : CommonState) : ClaudeState := cs <| cs_Common := c |>.

Definition StartDir (s : DriverState) : string :=
  match as_claude s with Some cs => c_StartDir (cs_Common cs) | None => "" end.

Definition WithStartDir (s : DriverState) (dir : string) : DriverState :=
  match as_claude s with
  | Some cs => Some (DSClaude (with_common cs (cs_Common cs <| c_StartDir := dir |>)))
  | None => s
  end.

Definition NewState (now : Time) : ClaudeState := zero_claude <| cs_Common := new_common StatusIdle now |>.

Definition resolveTranscriptPath (d : ClaudeDriver) (cs : ClaudeState) : string :=
  let c := cs_Common cs in
  if non_empty (c_TranscriptPath c) then c_TranscriptPath c
  else if bool_decide (home d = "") || bool_decide (cs_ClaudeSessionID cs = "")
          || bool_decide (c_StartDir c = "") then ""
  else Join [home d; ".claude"; "projects"; projectDir (c_StartDir c);
             cs_ClaudeSessionID cs +:+ ".jsonl"].

(** ** Launching (claude.go, claude_worktree.go) *)

(** The session's value for a flag replaces the command's, or removes the flag when it
    has been cleared. *)
Definition impose (set : bool) (value : string) (flag command : string) : string :=
  if negb set then command
  else if bool_decide (value = "") then stripFlagValues command [flag]
  else replaceFlagValue command flag [] value.

Definition resolveLaunchCommand (cs : ClaudeState) (baseCommand : string) (options : LaunchOptions) :
    ClaudeState * string * worktreeRequest :=
  let '(req, command) := resolveWorktreeRequest baseCommand options ["--worktree"] in
  let command := TrimSpace command in
  match SplitArgs command with
  | Some (inr argv) =>
    match ClaudeCLI.ParseCommand argv with
    | Some cfg =>
      let cs := if negb (cs_ModelSet cs) && non_empty (ClaudeCLI.cfg_Model cfg)
                then cs <| cs_Model := ClaudeCLI.cfg_Model cfg |> <| cs_ModelSet := true |> else cs in
      let cs := if negb (cs_EffortSet cs) && non_empty (ClaudeCLI.cfg_Effort cfg)
                then cs <| cs_Effort := ClaudeCLI.cfg_Effort cfg |> <| cs_EffortSet := true |> else cs in
      let command := impose (cs_ModelSet cs) (cs_Model cs) "--model" command in
      let command := impose (cs_EffortSet cs) (cs_Effort cs) "--effort" command in
      (cs, command, req)
    | None => (cs, command, req)
    end
  | _ => (cs, command, req)
  end.

Definition claude_plan (command startDir : string) (options : LaunchOptions) (stdin : string) :
    LaunchPlan :=
  plan command startDir options stdin <| lp_ManagedMCPTools := claudeManagedMCPTools |>.

Section Env.
Context `{GoMapRange} `{DriverEnv} (d : ClaudeDriver).

Definition PrepareLaunch (s : DriverState) (mode : LaunchMode) (project baseCommand : string)
    (options : LaunchOptions) : string + LaunchPlan :=
  let cs := default zero_claude (as_claude s) in
  let cs := if non_empty (cs_Model cs) then cs <| cs_ModelSet := true |> else cs in
  let cs := if non_empty (cs_Effort cs) then cs <| cs_EffortSet := true |> else cs in
  let startDir := if non_empty (c_StartDir (cs_Common cs)) then c_StartDir (cs_Common cs) else project in
  let '(cs, command, req) := resolveLaunchCommand cs baseCommand options in
  let stdin := lo_InitialInput options in
  let cold := match mode with LaunchModeColdStart => true | _ => false end in
  if negb cold || bool_decide (cs_ClaudeSessionID cs = "") then
    if cold && non_empty (cs_ForkParentID cs) && isAlphanumHyphen (cs_ForkParentID cs)
    then inr (claude_plan (ClaudeCLI.ForkCommand command (cs_ForkParentID cs)) startDir
                (PreserveLaunchOptions options (wt_Enabled req)) stdin)
    else inr (claude_plan command startDir (PreserveLaunchOptions options (wt_Enabled req)) stdin)
  else if Contains command "--resume" || negb (isAlphanumHyphen (cs_ClaudeSessionID cs))
  then inr (claude_plan command startDir options stdin)
  else
    let path := resolveTranscriptPath d cs in
    if bool_decide (path = "") then inr (claude_plan command startDir options stdin)
    else match os_Stat path with
         | StatNotExist => inr (claude_plan command startDir options stdin)
         | StatFailed err => inl err
         | StatOK _ => inr (claude_plan (command +:+ " --resume " +:+ cs_ClaudeSessionID cs) startDir
                              options stdin)
         end.

Definition PrepareCreate (s : DriverState) (project command : string) (options : LaunchOptions) :
    ClaudeState * CreateLaunch :=
  let cs := default zero_claude (as_claude s) in
  let cs := match splitCommandArgs command with
            | inr argv => match ClaudeCLI.ParseCommand argv with
                          | Some cfg => cs <| cs_Model := ClaudeCLI.cfg_Model cfg |>
                                           <| cs_Effort := ClaudeCLI.cfg_Effort cfg |>
                          | None => cs
                          end
            | inl _ => cs
            end in
  (cs, CommonPrepareCreate project command options ["--worktree"]).

(** ** Forking (claude_fork.go) *)

Definition ForkCommand (s : DriverState) (baseCommand : string) : option string :=
  match as_claude s with
  | Some cs => if bool_decide (cs_ClaudeSessionID cs = "") || negb (isAlphanumHyphen (cs_ClaudeSessionID cs))
               then None else Some (ClaudeCLI.ForkCommand baseCommand (cs_ClaudeSessionID cs))
  | None => None
  end.

Definition ForkChildState (parent : DriverState) (now : Time) : DriverState :=
  let cs := NewState now in
  Some (DSClaude (match as_claude parent with
                  | Some p => if bool_decide (cs_ClaudeSessionID p = "") then cs
                              else cs <| cs_ForkParentID := cs_ClaudeSessionID p |>
                  | None => cs
                  end)).

(** ** Hooks (claude_event.go) *)

Definition deriveHookState (hp : HookPayload) : string :=
  let name := hp_HookEventName hp in
  if bool_decide (name ∈ ["UserPromptSubmit"; "PreToolUse"; "PostToolUse"]) then "running"
  else if bool_decide (name = "Stop") then "waiting"
  else if bool_decide (name = "StopFailure") then "stopped"
  else if bool_decide (name = "SessionEnd") then "stopped"
  else if bool_decide (name = "SessionStart") then "idle"
  else if bool_decide (name = "Notification") then
    if bool_decide (hp_NotificationType hp ∈ ["permission_prompt"; "elicitation_dialog"]) then "pending"
    else if bool_decide (hp_NotificationType hp = "idle_prompt") then "waiting" else ""
  else "".

Definition parseHookPayload (payload : string) : HookPayload :=
  parsePayload zero_hook json_HookPayload payload.

Definition observeClaudeHookStatus (c : CommonState) (ts : Time) (payload : string) : CommonState :=
  let hp := parseHookPayload payload in
  if bool_decide (hp_ToolName hp = "Agent") then c
  else
    let st := deriveHookState hp in
    if bool_decide (st = "running") then ObserveStatus c StatusSourceHook StatusRunning ts
    else if bool_decide (st = "waiting") then ObserveStatus c StatusSourceHook StatusWaiting ts
    else if bool_decide (st = "idle") then ObserveStatus c StatusSourceHook StatusIdle ts
    else if bool_decide (st = "stopped") then ObserveStatus c StatusSourceHook StatusStopped ts
    else if bool_decide (st = "pending") then ObserveStatus c StatusSourceHook StatusPending ts
    else c.

Definition hook_detail (hp : HookPayload) : string :=
  let name := hp_HookEventName hp in
  if bool_decide (name ∈ ["PreToolUse"; "PostToolUse"; "PostToolUseFailure"]) then
    let tool := hp_ToolName hp in
    if bool_decide (tool = "") then ""
    else if bool_decide (tool = "Bash") then
      let cmd := toolInputString (hp_ToolInput hp) "command" in
      if bool_decide (cmd = "") then tool else tool +:+ " " +:+ previewText cmd
    else if bool_decide (tool ∈ ["Read"; "Write"; "Edit"; "Glob"]) then
      let fp := toolInputString (hp_ToolInput hp) "file_path" in
      let p := toolInputString (hp_ToolInput hp) "pattern" in
      if non_empty fp then tool +:+ " " +:+ fp
      else if non_empty p then tool +:+ " " +:+ p else tool
    else tool
  else if bool_decide (name = "Notification") then hp_NotificationType hp
  else if bool_decide (name = "SessionStart") then hp_Source hp
  else "".

Definition formatHookLog (hp : HookPayload) : string :=
  if bool_decide (hp_HookEventName hp = "") then ""
  else eventLogLine (hp_HookEventName hp) (hook_detail hp).

(** [EffEventLogAppend{Line: ...}]: the frame is filled in by the reducer. *)
Definition hookLogEffects (hp : HookPayload) : list Effect :=
  let line := formatHookLog hp in
  if bool_decide (line = "") then [] else [EffEventLogAppend "" line].

Definition absorbIdentityFromHP (cs : ClaudeState) (hp : HookPayload) : ClaudeState :=
  let cs :=
    if bool_decide (hp_SessionID hp = "") then cs
    else if non_empty (cs_ForkParentID cs) && bool_decide (hp_SessionID hp = cs_ForkParentID cs) then cs
    else cs <| cs_ClaudeSessionID := hp_SessionID hp |> <| cs_ForkParentID := "" |> in
  let cs := if bool_decide (hp_TranscriptPath hp = "") then cs
            else with_common cs (cs_Common cs <| c_TranscriptPath := hp_TranscriptPath hp |>) in
  let cs := if hp_ModelSet hp
            then cs <| cs_Model := hp_Model hp |> <| cs_ModelSet := true |>
                    <| cs_ModelAuthoritative := true |> else cs in
  if hp_EffortSet hp
  then cs <| cs_Effort := from_option TrimSpace "" (hp_Effort hp) |> <| cs_EffortSet := true |>
          <| cs_EffortAuthoritative := true |>
  else cs.

Definition watch (path : string) : Effect := EffWatchFile "" path "transcript".

(** [if !cs.TranscriptInFlight { ...; EffStartJob{TranscriptParseInput{...}} }] *)
Definition parseTranscript (cs : ClaudeState) (path : string) : ClaudeState * list Effect :=
  if cs_TranscriptInFlight cs then (cs, [])
  else (cs <| cs_TranscriptInFlight := true |>,
        [startJob (TranscriptParseInput (cs_ClaudeSessionID cs) path)]).

(** ... and only when a path is known. *)
Definition parseKnownTranscript (cs : ClaudeState) : ClaudeState * list Effect :=
  let path := resolveTranscriptPath d cs in
  if bool_decide (path = "") then (cs, []) else parseTranscript cs path.

Definition resetClaudeToolLogTurns (cs : ClaudeState) : ClaudeState :=
  cs <| cs_ToolLogTurnCounter := 1 |> <| cs_ToolLogSubagentTurnID := "" |>
     <| cs_ToolLogSubagentSeq := 0 |>.

Definition set_status (cs : ClaudeState) (status : Status) (at_ : Time) : ClaudeState :=
  with_common cs (cs_Common cs <| c_Status := status |> <| c_StatusChangedAt := at_ |>).

Definition handleSessionStart (cs : ClaudeState) (ctx : FrameContext) (hp : HookPayload) (now : Time) :
    ClaudeState * list Effect :=
  let cs := resetClaudeToolLogTurns (absorbIdentityFromHP cs hp) in
  let now := if IsZero now then c_StatusChangedAt (cs_Common cs) else now in
  let cs := set_status cs StatusIdle now in
  let path := resolveTranscriptPath d cs in
  let '(cs, effs) :=
    if bool_decide (path = "") || bool_decide (cs_WatchedFile cs = path) then (cs, [])
    else let '(cs, job) := parseTranscript (cs <| cs_WatchedFile := path |>) path in
         (cs, watch path :: job) in
  let effs := effs ++ hookLogEffects hp in
  let target := c_StartDir (cs_Common cs) in
  if fc_IsRoot ctx && non_empty target && negb (c_BranchInFlight (cs_Common cs))
  then (with_common cs (cs_Common cs <| c_BranchInFlight := true |> <| c_BranchTarget := target |>),
        effs ++ [startJob (BranchDetectInput target)])
  else (cs, effs).

Definition handleStateChange (cs : ClaudeState) (hp : HookPayload) (statusStr : string) (now : Time) :
    ClaudeState * list Effect :=
  let cs := absorbIdentityFromHP cs hp in
  let now := if IsZero now then c_StatusChangedAt (cs_Common cs) else now in
  let cs := match ParseStatus statusStr with
            | Some status => set_status cs status now
            | None => cs
            end in
  let '(cs, job) := parseKnownTranscript cs in
  (cs, hookLogEffects hp ++ job).

(** The first assignment to [StatusChangedAt] is overwritten by the second. *)
Definition handleUserPromptSubmit (cs : ClaudeState) (hp : HookPayload) (now : Time) :
    ClaudeState * list Effect :=
  let cs := absorbIdentityFromHP cs hp in
  let cs := set_status cs StatusRunning now in
  let cs := if bool_decide (hp_Prompt hp = "") then cs
            else with_common cs (cs_Common cs <| c_LastPrompt := hp_Prompt hp |>) in
  let turns := userOnlyTurns (appendHookPromptTurn (cs_RecentTurns cs) (hp_Prompt hp)) 2 in
  let prompt := formatSummaryPrompt (c_Summary (cs_Common cs)) turns in
  let '(effs, inFlight) :=
    enqueueSummaryJob (hookLogEffects hp) (c_SummaryInFlight (cs_Common cs)) prompt in
  let cs := with_common cs (cs_Common cs <| c_SummaryInFlight := inFlight |>) in
  let '(cs, job) := parseKnownTranscript cs in
  (cs, effs ++ job).

(** [firstRune]: the first rune, 0 when there is none. *)
Definition firstRune (s : string) : Z := default 0 (head (runes s)).

Definition handleWindowTitle (cs : ClaudeState) (title : string) (now : Time) : ClaudeState :=
  if bool_decide (title = cs_LastWindowTitle cs) then cs
  else
    let cs := cs <| cs_LastWindowTitle := title |> in
    let r := firstRune title in
    if r =? 0x2733
    then with_common cs (ObserveStatus (cs_Common cs) StatusSourceTerminal StatusWaiting now)
    else if is_braille r
    then with_common cs (ObserveStatus (cs_Common cs) StatusSourceTerminal StatusRunning now)
    else cs.

(** ** The tool log (claude_tool_log.go) *)

Definition claudeToolLogWorkspace (cs : ClaudeState) : string :=
  if non_empty (c_Project (cs_Common cs)) then c_Project (cs_Common cs) else c_StartDir (cs_Common cs).

Definition claudeToolLogTurnID (cs : ClaudeState) : string :=
  if non_empty (cs_ToolLogSubagentTurnID cs) then cs_ToolLogSubagentTurnID cs
  else formatToolLogTurn (cs_ToolLogTurnCounter cs).

(** The pending tool's entry and the state without it. *)
Definition emitToolLog (cs : ClaudeState) (hp : HookPayload) (now : Time) (kindOverride : string) :
    ClaudeState * list Effect :=
  let id := hp_ToolUseID hp in
  let kind_or k := if bool_decide (kindOverride = "") then k else kindOverride in
  let '(cs, kind, durationMs, toolInput) :=
    if bool_decide (id = "") then (cs, kind_or "auto", 0, hp_ToolInput hp)
    else match cs_PendingTools cs !! id with
         | Some entry =>
           (cs <| cs_PendingTools := delete id (cs_PendingTools cs) |>,
            kind_or (if pt_SawPrompt entry then "approved" else "auto"),
            duration_ms (pt_StartedAt entry) now, pt_Input entry)
         | None => (cs, kind_or "orphan", 0, hp_ToolInput hp)
         end in
  let slug := resolveProjectSlug (c_Project (cs_Common cs)) in
  if bool_decide (slug = "") then (cs, [])
  else
    let '(fileKind, relPath) :=
      classifyClaudeTool (hp_ToolName hp) toolInput (claudeToolLogWorkspace cs) in
    let line := buildToolLogLine (mkToolLogEntry toolLogSchemaVersion now
      (c_RoostSessionID (cs_Common cs)) (cs_ClaudeSessionID cs) id (hp_ToolName hp) kind
      (hp_PermissionMode hp) durationMs (summariseToolInput (hp_ToolName hp) toolInput) (hp_Error hp)
      (claudeToolLogTurnID cs) fileKind relPath false false) in
    (cs, [EffToolLogAppend ClaudeDriverName slug line]).

(** The oldest pending tool without a prompt; among equals, the first visited. *)
Definition oldest_unprompted (tools : gmap string pendingTool) : string :=
  (foldl (fun acc kp =>
     let '(oldestID, oldestTS) := acc in let '(id, p) := kp in
     if negb (pt_SawPrompt p) && (bool_decide (oldestID = "") || Before (pt_StartedAt p) oldestTS)
     then (id, pt_StartedAt p) else acc) ("", 0) (range tools)).1.

Definition handleToolLog (cs : ClaudeState) (hp : HookPayload) (now : Time) :
    ClaudeState * list Effect :=
  let name := hp_HookEventName hp in
  if bool_decide (name = "PreToolUse") then
    if bool_decide (hp_ToolUseID hp = "") || bool_decide (hp_ToolName hp = "") then (cs, [])
    else (cs <| cs_PendingTools :=
                  <[hp_ToolUseID hp := mkPendingTool (hp_ToolName hp) (hp_ToolInput hp) now false
                                         (hp_PermissionMode hp)]> (cs_PendingTools cs) |>, [])
  else if bool_decide (name = "Notification") then
    if negb (bool_decide (hp_NotificationType hp = "permission_prompt")) then (cs, [])
    else
      let oldestID := oldest_unprompted (cs_PendingTools cs) in
      if bool_decide (oldestID = "") then (cs, [])
      else (cs <| cs_PendingTools :=
                    alter (fun p => p <| pt_SawPrompt := true |>) oldestID (cs_PendingTools cs) |>, [])
  else if bool_decide (name = "PostToolUse") then emitToolLog cs hp now ""
  else if bool_decide (name = "PostToolUseFailure")
  then emitToolLog cs hp now (if hp_IsInterrupt hp then "denied" else "failed")
  else (cs, []).

Definition emitClaudeTurnBoundary (cs : ClaudeState) (now : Time) (failure : bool) :
    ClaudeState * list Effect :=
  let slug := resolveProjectSlug (c_Project (cs_Common cs)) in
  let next := cs <| cs_ToolLogTurnCounter := wrap64 (cs_ToolLogTurnCounter cs + 1) |> in
  if bool_decide (slug = "") then (next, [])
  else
    let line := buildToolLogLine (zero_entry <| te_SchemaVersion := toolLogSchemaVersion |>
      <| te_TS := now |> <| te_RoostSessionID := c_RoostSessionID (cs_Common cs) |>
      <| te_ClaudeSessionID := cs_ClaudeSessionID cs |> <| te_TurnID := claudeToolLogTurnID cs |>
      <| te_TurnComplete := true |> <| te_TurnFailure := failure |>) in
    (next, [EffToolLogAppend ClaudeDriverName slug line]).

Definition handleClaudeSubagentStart (cs : ClaudeState) : ClaudeState :=
  let seq := wrap64 (cs_ToolLogSubagentSeq cs + 1) in
  cs <| cs_ToolLogSubagentSeq := seq |>
     <| cs_ToolLogSubagentTurnID := formatToolLogTurn (cs_ToolLogTurnCounter cs) +:+ ".sub-"
                                    +:+ formatToolLogTurn seq |>.

Definition handleClaudeSubagentStop (cs : ClaudeState) : ClaudeState :=
  cs <| cs_ToolLogSubagentTurnID := "" |>.

(** ** handleHook *)

Definition stale (cs : ClaudeState) (ts : Time) : bool :=
  negb (IsZero ts) && negb (Before (cs_LastBridgeTS cs) ts).

Definition stamp (cs : ClaudeState) (ts : Time) : ClaudeState :=
  if IsZero ts then cs else cs <| cs_LastBridgeTS := ts |>.

(** The hooks of a root frame after SessionStart, in order. *)
Definition handleRootHook (cs : ClaudeState) (hp : HookPayload) (ts : Time) :
    ClaudeState * list Effect :=
  let name := hp_HookEventName hp in
  if bool_decide (name = "UserPromptSubmit") then handleUserPromptSubmit cs hp ts
  else if bool_decide (hp_ToolName hp = "Agent") then (cs, hookLogEffects hp)
  else if bool_decide (name = "SubagentStart") then (handleClaudeSubagentStart cs, hookLogEffects hp)
  else if bool_decide (name = "SubagentStop") then (handleClaudeSubagentStop cs, hookLogEffects hp)
  else
    let '(cs, toolLogEffs) := handleToolLog cs hp ts in
    let cs := if bool_decide (name = "SessionEnd") then cs <| cs_PendingTools := ∅ |> else cs in
    let status := deriveHookState hp in
    if bool_decide (status = "") then (cs, hookLogEffects hp ++ toolLogEffs)
    else
      let '(next, effs) := handleStateChange cs hp status ts in
      let '(next, boundaryEffs) :=
        if bool_decide (name = "Stop") then emitClaudeTurnBoundary next ts false
        else if bool_decide (name = "StopFailure") then emitClaudeTurnBoundary next ts true
        else (next, []) in
      (next, effs ++ boundaryEffs ++ toolLogEffs).

Definition handleHook (cs : ClaudeState) (ctx : FrameContext) (ts : Time) (roostSessionID payload : string) :
    ClaudeState * list Effect :=
  let hp := parseHookPayload payload in
  if bool_decide (hp_SessionID hp = "") then (cs, [])
  else
    let cs := if bool_decide (roostSessionID = "") then cs
              else with_common cs (cs_Common cs <| c_RoostSessionID := roostSessionID |>) in
    if negb (fc_IsRoot ctx) then
      if stale cs ts then (cs, [])
      else (stamp (cs <| cs_ClaudeSessionID := hp_SessionID hp |>) ts, [])
    else if bool_decide (hp_HookEventName hp = "SessionStart") then
      handleSessionStart (cs <| cs_LastBridgeTS := ts |> <| cs_PendingTools := ∅ |>) ctx hp ts
    else if stale cs ts then (cs, [])
    else handleRootHook (stamp cs ts) hp ts.

(** ** Ticks, files and jobs (claude_tick.go) *)

Definition handleTranscriptChanged (cs : ClaudeState) (eventPath : string) : ClaudeState * list Effect :=
  let path := if non_empty (c_TranscriptPath (cs_Common cs)) then c_TranscriptPath (cs_Common cs)
              else eventPath in
  if bool_decide (path = "") then (cs, [])
  else
    let '(cs, effs) := if bool_decide (cs_WatchedFile cs = path) then (cs, [])
                       else (cs <| cs_WatchedFile := path |>, [watch path]) in
    let '(cs, job) := parseTranscript cs path in
    (cs, effs ++ job).

Definition applyTranscript (cs : ClaudeState) (r : TranscriptParseResult) : ClaudeState :=
  let c := cs_Common cs in
  let c := if bool_decide (tr_Title r = "") then c else c <| c_Title := tr_Title r |> in
  let c := if bool_decide (tr_LastPrompt r = "") then c else c <| c_LastPrompt := tr_LastPrompt r |> in
  let cs := with_common cs c in
  let cs := if non_empty (tr_Model r) && negb (cs_ModelAuthoritative cs)
            then cs <| cs_Model := tr_Model r |> <| cs_ModelSet := true |> else cs in
  cs <| cs_StatusLine := tr_StatusLine r |> <| cs_CurrentTool := tr_CurrentTool r |>
     <| cs_SubagentCounts := tr_Subagents r |> <| cs_RecentTurns := tr_RecentTurns r |>
     <| cs_PlanFile := tr_PlanFile r |>.

Definition handleJobResult (cs : ClaudeState) (result : JobResult) (err : option string) (now : Time) :
    ClaudeState :=
  match applySummaryJobResult (cs_Common cs) result err with
  | Some c => with_common cs c
  | None =>
    match result with
    | ResultDriver (TranscriptParseResult_ r) =>
      let cs := cs <| cs_TranscriptInFlight := false |> in
      if bool_decide (is_Some err) then cs else applyTranscript cs r
    | ResultDriver (BranchDetectResult_ r) => with_common cs (ApplyBranchResult (cs_Common cs) r err now)
    | _ => cs
    end
  end.

(** [shellQuote]: a quote becomes quote, double quote, quote, double quote, quote. *)
Definition shellQuote (s : string) : string :=
  single quote
  +:+ ReplaceByte s quote (string_of_list_ascii [quote; dquote; quote; dquote; quote])
  +:+ single quote.

Definition handleStatusLineClick (cs : ClaudeState) (range_ : string) : list Effect :=
  if negb (bool_decide (range_ = "plan")) || bool_decide (cs_PlanFile cs = "") then []
  else [EffPushDriver "" (pager d +:+ " " +:+ shellQuote (cs_PlanFile cs))].

(** ** Step *)

Definition Step (prev : DriverState) (ctx : FrameContext) (ev : DriverEvent) : ClaudeState * list Effect :=
  let cs := default (NewState 0) (as_claude prev) in
  let c := cs_Common cs in
  if negb (fc_IsRoot ctx) && negb (Generic.is_hook ev) then (cs, []) else
  match ev with
  | DEvHook _ ts roostSessionID payload =>
    let '(next, effs) := handleHook cs ctx ts roostSessionID payload in
    (if fc_IsRoot ctx then with_common next (observeClaudeHookStatus (cs_Common next) ts payload)
     else next, effs)
  | DEvTick now watched project _ _ =>
    let '(c, effs) := HandleTick c now watched project in
    (with_common cs (ResolveStatus c), effs)
  | DEvFileChanged path => handleTranscriptChanged cs path
  | DEvJobResult result err now => (handleJobResult cs result err now, [])
  | DEvFrameOsc _ kind title _ progressState _ now =>
    match kind with
    | TerminalSignalProgress =>
      (with_common cs (ObserveStatus c StatusSourceProgress (progressStatus progressState) now), [])
    | _ => (handleWindowTitle cs title now, [])
    end
  | DEvStatusLineClick range_ _ => (cs, handleStatusLineClick cs range_)
  | DEvWorktreeResolved startDir name => (with_common cs (ApplyWorktreeResolved c startDir name), [])
  | DEvCommandExited code ts => (with_common cs (ApplyCommandExited c code ts), [])
  | _ => (cs, [])
  end.

Definition WarmStartRecover (s : DriverState) (now : Time) : ClaudeState * list Effect :=
  let cs := default (NewState now) (as_claude s) in
  let path := resolveTranscriptPath d cs in
  if bool_decide (path = "") then (cs, [])
  else
    let cs := if bool_decide (c_TranscriptPath (cs_Common cs) = "")
              then with_common cs (cs_Common cs <| c_TranscriptPath := path |>) else cs in
    let '(cs, effs) := if bool_decide (cs_WatchedFile cs = path) then (cs, [])
                       else (cs <| cs_WatchedFile := path |>, [watch path]) in
    let '(cs, job) := parseTranscript cs path in
    (cs, effs ++ job).

End Env.

(** ** Persistence (claude_persist.go) *)

Definition Persist (s : DriverState) : Bag :=
  match as_claude s with
  | Some cs =>
    let out := PersistCommon (cs_Common cs) ∅ in
    let out := put_string claudeKeyClaudeSessionID (cs_ClaudeSessionID cs) out in
    let out := put_string claudeKeyModel (cs_Model cs) out in
    let out := put_string claudeKeyEffort (cs_Effort cs) out in
    let out := put_flag claudeKeyModelSet (cs_ModelSet cs) out in
    let out := put_flag claudeKeyEffortSet (cs_EffortSet cs) out in
    let out := put_flag claudeKeyModelAuthoritative (cs_ModelAuthoritative cs) out in
    let out := put_flag claudeKeyEffortAuthoritative (cs_EffortAuthoritative cs) out in
    put_string claudeKeyForkParentID (cs_ForkParentID cs) out
  | None => ∅
  end.

Definition Restore (bag : Bag) (now : Time) : ClaudeState :=
  let cs := NewState now in
  if bool_decide (bag = ∅) then cs
  else
    let model := firstPersistedValue bag [claudeKeyModel; claudeLegacyKeyModel] in
    let effort := firstPersistedValue bag [claudeKeyEffort; claudeLegacyKeyEffort] in
    cs <| cs_Common := RestoreCommon (cs_Common cs) bag |>
       <| cs_ClaudeSessionID := bag_get bag claudeKeyClaudeSessionID |>
       <| cs_Model := model |> <| cs_Effort := effort |>
       <| cs_ModelSet := get_flag bag claudeKeyModelSet || non_empty model |>
       <| cs_EffortSet := get_flag bag claudeKeyEffortSet || non_empty effort |>
       <| cs_ModelAuthoritative := get_flag bag claudeKeyModelAuthoritative |>
       <| cs_EffortAuthoritative := get_flag bag claudeKeyEffortAuthoritative |>
       <| cs_ForkParentID := bag_get bag claudeKeyForkParentID |>.

Definition CapsuleTurns (s : DriverState) : list CapsuleTurn :=
  match as_claude s with
  | Some cs => (fun t => mkCapsuleTurn (Role t) (Text t)) <$> cs_RecentTurns cs
  | None => []
  end.

End Claude.
