(* ===== verification/DriverGemini.v ===== *)
(** * host/driver: the Gemini driver

    gemini.go, gemini_event.go, gemini_persist.go and gemini_worktree.go.  [Step] is
    given without the view it also returns. *)

From Stdlib Require Import String.
From S2P Require Import Prelude GoStd GoStrings GoTime GoPath ShellArgs HostState DriverTypes.
From S2P Require Import DriverCommon DriverToolLog DriverBasic DriverClaude.

Definition as_gemini (s : DriverState) : option GeminiState :=
  match s with Some (DSGemini x) => Some x | _ => None end.

(** [statusTime] (codex_event.go) *)
Definition statusTime (ts fallback : Time) : Time := if IsZero ts then fallback else ts.

Module Gemini.

Definition GeminiDriverName := "gemini".
Definition geminiKeyGeminiSessionID := "gemini_session_id".

Definition with_common (gs : GeminiState) (c : CommonState) : GeminiState := gs <| gm_Common := c |>.

Definition StartDir (s : DriverState) : string :=
  match as_gemini s with Some gs => c_StartDir (gm_Common gs) | None => "" end.

Definition WithStartDir (s : DriverState) (dir : string) : DriverState :=
  match as_gemini s with
  | Some gs => Some (DSGemini (with_common gs (gm_Common gs <| c_StartDir := dir |>)))
  | None => s
  end.

Definition NewState (now : Time) : GeminiState := zero_gemini <| gm_Common := new_common StatusIdle now |>.

Definition PrepareLaunch (s : DriverState) (mode : LaunchMode) (project baseCommand : string)
    (options : LaunchOptions) : LaunchPlan :=
  let gs := default zero_gemini (as_gemini s) in
  let startDir := if non_empty (c_StartDir (gm_Common gs)) then c_StartDir (gm_Common gs) else project in
  let '(req, command) := resolveWorktreeRequest baseCommand options ["--worktree"; "--workspace"] in
  let command := TrimSpace command in
  let cold := match mode with LaunchModeColdStart => true | _ => false end in
  let id := gm_GeminiSessionID gs in
  if negb cold || bool_decide (id = "") || negb (isAlphanumHyphen id)
  then plan command startDir (PreserveLaunchOptions options (wt_Enabled req)) (lo_InitialInput options)
  else if Contains command "--resume" || Contains command " -r"
  then plan command startDir options (lo_InitialInput options)
  else plan (command +:+ " --resume " +:+ id) startDir options (lo_InitialInput options).

Definition PrepareCreate (s : DriverState) (project command : string) (options : LaunchOptions) :
    GeminiState * CreateLaunch :=
  (default zero_gemini (as_gemini s),
   CommonPrepareCreate project command options ["--worktree"; "--workspace"]).

Definition watchGeminiTranscript (gs : GeminiState) : GeminiState * list Effect :=
  let path := c_TranscriptPath (gm_Common gs) in
  if bool_decide (path = "") || bool_decide (gm_WatchedFile gs = path) then (gs, [])
  else (gs <| gm_WatchedFile := path |>, [EffWatchFile "" path "transcript"]).

Definition startGeminiTranscriptParse (gs : GeminiState) : GeminiState * list Effect :=
  let path := c_TranscriptPath (gm_Common gs) in
  if gm_TranscriptInFlight gs || bool_decide (path = "") then (gs, [])
  else (gs <| gm_TranscriptInFlight := true |>, [startJob (GeminiTranscriptParseInput path)]).

(** ** Hooks *)

Section Env.
Context `{GoMapRange} `{DriverEnv}.

Definition parseGeminiHookPayload (payload : string) : geminiHookPayload :=
  parsePayload zero_gemini_hook json_geminiHookPayload payload.

Definition observeGeminiHookStatus (c : CommonState) (ts : Time) (payload : string) : CommonState :=
  let hp := parseGeminiHookPayload payload in
  let name := ghp_HookEventName hp in
  if bool_decide (name = "SessionStart") then ObserveStatus c StatusSourceHook StatusIdle ts
  else if bool_decide (name ∈ ["BeforeAgent"; "BeforeTool"; "AfterTool"])
  then ObserveStatus c StatusSourceHook StatusRunning ts
  else if bool_decide (name = "AfterAgent") then ObserveStatus c StatusSourceHook StatusWaiting ts
  else if bool_decide (name = "SessionEnd") then ObserveStatus c StatusSourceHook StatusStopped ts
  else if bool_decide (name = "Notification") && bool_decide (ghp_NotificationType hp = "ToolPermission")
  then ObserveStatus c StatusSourceHook StatusPending ts
  else c.

Definition quoted_field (label text : string) : string :=
  label +:+ "=" +:+ String dquote "" +:+ previewText text +:+ String dquote "".

Definition hook_detail (hp : geminiHookPayload) : string :=
  let name := ghp_HookEventName hp in
  if bool_decide (name = "SessionStart") then ghp_Source hp
  else if bool_decide (name = "BeforeAgent") then
    if bool_decide (ghp_Prompt hp = "") then "" else quoted_field "prompt" (ghp_Prompt hp)
  else if bool_decide (name ∈ ["BeforeTool"; "AfterTool"]) then
    let detail := TrimSpace (ghp_ToolName hp) in
    let cmd := toolInputString (ghp_ToolInput hp) "command" in
    let path := toolInputString (ghp_ToolInput hp) "file_path" in
    if non_empty cmd then TrimSpace (detail +:+ " " +:+ quoted_field "cmd" cmd)
    else if non_empty path then TrimSpace (detail +:+ " " +:+ quoted_field "path" path)
    else detail
  else if bool_decide (name = "Notification") then ghp_NotificationType hp
  else if bool_decide (name = "AfterAgent") then
    strings_Join
      ((if bool_decide (ghp_StopReason hp = "") then [] else ["reason=" +:+ previewText (ghp_StopReason hp)])
       ++ (if bool_decide (ghp_PromptResponse hp = "") then []
           else [quoted_field "resp" (ghp_PromptResponse hp)])) " "
  else "".

Definition formatLog (hp : geminiHookPayload) : string :=
  eventLogLine (ghp_HookEventName hp) (hook_detail hp).

Definition handleWindowTitle (gs : GeminiState) (title : string) (now : Time) : GeminiState :=
  if bool_decide (title = gm_LastWindowTitle gs) then gs
  else
    let gs := gs <| gm_LastWindowTitle := title |> in
    let c := gm_Common gs in
    let observe status := with_common gs (ObserveStatus c StatusSourceTerminal status now) in
    if bool_decide (c_Status c = StatusIdle) || bool_decide (c_Status c = StatusStopped) then gs
    else if Contains title "✋" || Contains title "Action Required" then observe StatusPending
    else if Contains title "✦" then observe StatusRunning
    else if Contains title "⏲" then observe StatusRunning
    else if Contains title "◇" then observe StatusWaiting
    else gs.

Definition handleGeminiPendingTool (gs : GeminiState) (hp : geminiHookPayload) (now : Time) :
    GeminiState :=
  if bool_decide (ghp_ToolUseID hp = "") || bool_decide (ghp_ToolName hp = "") then gs
  else gs <| gm_PendingTools :=
               <[ghp_ToolUseID hp := mkGeminiPendingTool (ghp_ToolName hp) (ghp_ToolInput hp) now false]>
                 (gm_PendingTools gs) |>.

Definition markGeminiPermissionPrompt (gs : GeminiState) : GeminiState :=
  let oldestID := (foldl (fun acc kp =>
     let '(oldestID, oldestTS) := acc in let '(id, p) := kp in
     if gp_SawPrompt p then acc
     else if bool_decide (oldestID = "") || Before (gp_StartedAt p) oldestTS
     then (id, gp_StartedAt p) else acc) ("", 0) (range (gm_PendingTools gs))).1 in
  if bool_decide (oldestID = "") then gs
  else gs <| gm_PendingTools :=
               alter (fun p => p <| gp_SawPrompt := true |>) oldestID (gm_PendingTools gs) |>.

(** A record without schema version, turn or file classification. *)
Definition emitGeminiToolLog (gs : GeminiState) (hp : geminiHookPayload) (now : Time)
    (effs : list Effect) : GeminiState * list Effect :=
  let id := ghp_ToolUseID hp in
  let '(gs, kind, durationMs, toolInput) :=
    if bool_decide (id = "") then (gs, "auto", 0, ghp_ToolInput hp)
    else match gm_PendingTools gs !! id with
         | Some entry =>
           (gs <| gm_PendingTools := delete id (gm_PendingTools gs) |>,
            if gp_SawPrompt entry then "approved" else "auto",
            duration_ms (gp_StartedAt entry) now, gp_Input entry)
         | None => (gs, "orphan", 0, ghp_ToolInput hp)
         end in
  let c := gm_Common gs in
  let project := if bool_decide (c_Project c = "") then c_StartDir c else c_Project c in
  let slug := resolveProjectSlug project in
  if bool_decide (slug = "") || bool_decide (ghp_ToolName hp = "") then (gs, effs)
  else
    let line := buildToolLogLine (zero_entry <| te_TS := now |>
      <| te_RoostSessionID := c_RoostSessionID c |> <| te_ToolUseID := id |>
      <| te_ToolName := ghp_ToolName hp |> <| te_Kind := kind |>
      <| te_PermissionMode := ghp_PermissionMode hp |> <| te_DurationMs := durationMs |>
      <| te_ToolInput := summariseToolInput (ghp_ToolName hp) toolInput |>) in
    (gs, effs ++ [EffToolLogAppend GeminiDriverName slug line]).

Definition set_status (gs : GeminiState) (status : Status) (ts : Time) : GeminiState :=
  let c := gm_Common gs in
  with_common gs (c <| c_Status := status |>
                    <| c_StatusChangedAt := statusTime ts (c_StatusChangedAt c) |>).

Definition handleGeminiHookEvent (gs : GeminiState) (hp : geminiHookPayload) (ts : Time)
    (effs : list Effect) : GeminiState * list Effect :=
  let name := ghp_HookEventName hp in
  if bool_decide (name = "SessionStart") then
    let gs := gs <| gm_PendingTools := ∅ |> <| gm_CurrentTool := "" |> in
    let '(gs, job) := startGeminiTranscriptParse (set_status gs StatusIdle ts) in
    let effs := effs ++ job in
    let target := c_StartDir (gm_Common gs) in
    if non_empty target && negb (c_BranchInFlight (gm_Common gs))
    then (with_common gs (gm_Common gs <| c_BranchInFlight := true |> <| c_BranchTarget := target |>),
          effs ++ [startJob (BranchDetectInput target)])
    else (gs, effs)
  else if bool_decide (name = "BeforeAgent") then
    let gs := with_common gs (gm_Common gs <| c_LastPrompt := TrimSpace (ghp_Prompt hp) |>) in
    let gs := set_status gs StatusRunning ts in
    let turns := userOnlyTurns (appendHookPromptTurn (gm_RecentTurns gs) (ghp_Prompt hp)) 2 in
    let '(effs, inFlight) := enqueueSummaryJob effs (c_SummaryInFlight (gm_Common gs))
                               (formatSummaryPrompt (c_Summary (gm_Common gs)) turns) in
    (with_common gs (gm_Common gs <| c_SummaryInFlight := inFlight |>), effs)
  else if bool_decide (name = "BeforeTool") then
    let gs := gs <| gm_CurrentTool := TrimSpace (ghp_ToolName hp) |> in
    (handleGeminiPendingTool (set_status gs StatusRunning ts) hp ts, effs)
  else if bool_decide (name = "AfterTool") then
    emitGeminiToolLog (set_status gs StatusRunning ts) hp ts effs
  else if bool_decide (name = "AfterAgent") then
    let msg := TrimSpace (ghp_PromptResponse hp) in
    let gs := if bool_decide (msg = "") then gs
              else with_common gs (gm_Common gs <| c_LastAssistantMessage := msg |>) in
    let gs := gs <| gm_CurrentTool := "" |> <| gm_PendingTools := ∅ |> in
    let '(gs, job) := startGeminiTranscriptParse (set_status gs StatusWaiting ts) in
    (gs, effs ++ job)
  else if bool_decide (name = "Notification") then
    if bool_decide (ghp_NotificationType hp = "ToolPermission")
    then (set_status (markGeminiPermissionPrompt gs) StatusPending ts, effs) else (gs, effs)
  else if bool_decide (name = "SessionEnd") then
    (set_status (gs <| gm_CurrentTool := "" |> <| gm_PendingTools := ∅ |>) StatusStopped ts, effs)
  else (gs, effs).

Definition handleHook (gs : GeminiState) (ctx : FrameContext) (ts : Time) (roostSessionID payload : string) :
    GeminiState * list Effect :=
  let hp := parseGeminiHookPayload payload in
  let preamble := mkPreamble (ghp_SessionID hp) (ghp_HookEventName hp)
                    (if fc_IsRoot ctx then ghp_TranscriptPath hp else "") in
  match applyHookPreamble (gm_Common gs) preamble ts roostSessionID with
  | None => (gs, [])
  | Some c =>
    let gs := with_common gs c <| gm_GeminiSessionID := ghp_SessionID hp |> in
    if negb (fc_IsRoot ctx) then (gs, [])
    else
      let '(gs, effs) := watchGeminiTranscript gs in
      let '(gs, effs) := handleGeminiHookEvent gs hp ts effs in
      let line := TrimSpace (formatLog hp) in
      (gs, if bool_decide (line = "") then effs else effs ++ [EffEventLogAppend "" line])
  end.

Definition handleTranscriptChanged (gs : GeminiState) (path : string) : GeminiState * list Effect :=
  if non_empty (c_TranscriptPath (gm_Common gs)) && non_empty path
     && negb (bool_decide (c_TranscriptPath (gm_Common gs) = path)) then (gs, [])
  else
    let '(gs, effs) := watchGeminiTranscript gs in
    let '(gs, job) := startGeminiTranscriptParse gs in
    (gs, effs ++ job).

Definition applyTranscript (gs : GeminiState) (r : GeminiTranscriptParseResult) : GeminiState :=
  let c := gm_Common gs in
  let c := if bool_decide (gr_Title r = "") then c else c <| c_Title := gr_Title r |> in
  let c := if bool_decide (gr_LastPrompt r = "") then c else c <| c_LastPrompt := gr_LastPrompt r |> in
  let c := if bool_decide (gr_LastAssistantMessage r = "") then c
           else c <| c_LastAssistantMessage := gr_LastAssistantMessage r |> in
  with_common gs c <| gm_StatusLine := gr_StatusLine r |> <| gm_RecentTurns := gr_RecentTurns r |>
                   <| gm_CurrentTool := gr_CurrentTool r |>.

Definition handleJobResult (gs : GeminiState) (result : JobResult) (err : option string) (now : Time) :
    GeminiState :=
  match applySummaryJobResult (gm_Common gs) result err with
  | Some c => with_common gs c
  | None =>
    match result with
    | ResultDriver (GeminiTranscriptParseResult_ r) =>
      let gs := gs <| gm_TranscriptInFlight := false |> in
      if bool_decide (is_Some err) then gs else applyTranscript gs r
    | ResultDriver (BranchDetectResult_ r) => with_common gs (ApplyBranchResult (gm_Common gs) r err now)
    | _ => gs
    end
  end.

Definition Step (prev : DriverState) (ctx : FrameContext) (ev : DriverEvent) : GeminiState * list Effect :=
  let gs := default (NewState 0) (as_gemini prev) in
  let c := gm_Common gs in
  if negb (fc_IsRoot ctx) && negb (Generic.is_hook ev) then (gs, []) else
  match ev with
  | DEvHook _ ts roostSessionID payload =>
    let '(next, effs) := handleHook gs ctx ts roostSessionID payload in
    (if fc_IsRoot ctx then with_common next (observeGeminiHookStatus (gm_Common next) ts payload)
     else next, effs)
  | DEvTick now watched project _ _ =>
    let '(c, effs) := HandleTick c now watched project in
    (with_common gs (ResolveStatus c), effs)
  | DEvFrameOsc _ kind title _ progressState _ now =>
    match kind with
    | TerminalSignalProgress =>
      (with_common gs (ObserveStatus c StatusSourceProgress (progressStatus progressState) now), [])
    | _ => (handleWindowTitle gs title now, [])
    end
  | DEvFileChanged path => handleTranscriptChanged gs path
  | DEvJobResult result err now => (handleJobResult gs result err now, [])
  | DEvWorktreeResolved startDir name => (with_common gs (ApplyWorktreeResolved c startDir name), [])
  | DEvCommandExited code ts => (with_common gs (ApplyCommandExited c code ts), [])
  | _ => (gs, [])
  end.

End Env.

Definition WarmStartRecover (s : DriverState) (now : Time) : GeminiState * list Effect :=
  let gs := default (NewState now) (as_gemini s) in
  let '(gs, effs) := watchGeminiTranscript gs in
  let '(gs, job) := startGeminiTranscriptParse gs in
  (gs, effs ++ job).

(** ** Persistence *)

Definition Persist (s : DriverState) : Bag :=
  match as_gemini s with
  | Some gs => put_string geminiKeyGeminiSessionID (gm_GeminiSessionID gs) (PersistCommon (gm_Common gs) ∅)
  | None => ∅
  end.

Definition Restore (bag : Bag) (now : Time) : GeminiState :=
  let gs := NewState now in
  if bool_decide (bag = ∅) then gs
  else gs <| gm_Common := RestoreCommon (gm_Common gs) bag |>
          <| gm_GeminiSessionID := bag_get bag geminiKeyGeminiSessionID |>.

Definition CapsuleTurns (s : DriverState) : list CapsuleTurn :=
  match as_gemini s with
  | Some gs => (fun t => mkCapsuleTurn (Role t) (Text t)) <$> gm_RecentTurns gs
  | None => []
  end.

End Gemini.
