(* ===== verification/DriverCodex.v ===== *)
(** * host/driver: the Codex driver

    codex.go, codex_event.go, codex_persist.go, codex_resume.go, codex_tool_log.go,
    codex_worktree.go and platform/lib/codex/argv.go (ParseCommand).  [Step] is given
    without the view it also returns. *)

From Stdlib Require Import String.
From S2P Require Import Prelude GoStd GoStrings GoTime GoPath ShellArgs HostState DriverTypes.
From S2P Require Import DriverCommon DriverToolLog DriverBasic DriverClaude DriverGemini.

Definition as_codex (s : DriverState) : option CodexState :=
  match s with Some (DSCodex x) => Some x | _ => None end.

(** ** platform/lib/codex *)

Module CodexCLI.

Record CommandConfig := mkConfig {
  cfg_ConfigArgs : list string; cfg_Model : string; cfg_Effort : string;
  cfg_DangerouslyBypassPermissions : bool }.

#[export] Instance eta_CommandConfig : Eta CommandConfig := fun r =>
  mkConfig (cfg_ConfigArgs r) (cfg_Model r) (cfg_Effort r) (cfg_DangerouslyBypassPermissions r).

Fixpoint parse_loop (argv : list string) (cfg : CommandConfig) : CommandConfig :=
  match argv with
  | [] => cfg
  | arg :: rest =>
    if bool_decide (arg = "resume") then
      match rest with _ :: rest' => parse_loop rest' cfg | [] => cfg end
    else if bool_decide (arg = "-m") || bool_decide (arg = "--model") then
      match rest with v :: rest' => parse_loop rest' (cfg <| cfg_Model := v |>) | [] => cfg end
    else if bool_decide (arg = "--effort") then
      match rest with v :: rest' => parse_loop rest' (cfg <| cfg_Effort := v |>) | [] => cfg end
    else if bool_decide (arg = "--dangerously-bypass-approvals-and-sandbox")
    then parse_loop rest (cfg <| cfg_DangerouslyBypassPermissions := true |>)
    else if bool_decide (arg ∈ ["-c"; "--config"; "--enable"; "--disable"]) then
      match rest with
      | v :: rest' => parse_loop rest' (cfg <| cfg_ConfigArgs := cfg_ConfigArgs cfg ++ [arg; v] |>)
      | [] => cfg
      end
    else if HasPrefix arg "--model="
    then parse_loop rest (cfg <| cfg_Model := TrimSpace (TrimPrefix arg "--model=") |>)
    else if HasPrefix arg "--effort="
    then parse_loop rest (cfg <| cfg_Effort := TrimSpace (TrimPrefix arg "--effort=") |>)
    else if HasPrefix arg "--config=" || HasPrefix arg "--enable=" || HasPrefix arg "--disable="
    then parse_loop rest (cfg <| cfg_ConfigArgs := cfg_ConfigArgs cfg ++ [arg] |>)
    else parse_loop rest cfg
  end.

(** [None]: an error, which every caller treats as no configuration. *)
Definition ParseCommand (argv : list string) : option CommandConfig :=
  match argv with
  | prog :: rest =>
    if bool_decide (prog = "codex") then Some (parse_loop rest (mkConfig [] "" "" false)) else None
  | [] => None
  end.

End CodexCLI.

Module Codex.

Definition CodexDriverName := "codex".
Definition codexKeyThreadID := "thread_id".
Definition codexKeySessionID := "session_id".
Definition codexKeyRolloutPath := "rollout_path".
Definition codexKeyRequestedThreadID := "requested_thread_id".
Definition codexKeyObservedThreadID := "observed_thread_id".
Definition codexKeyResumePhase := "resume_phase".
Definition codexKeyPreview := "preview".
Definition codexKeyDisplayFallback := "display_fallback".
Definition codexKeyModel := "codex_model".
Definition codexKeyEffort := "codex_effort".
Definition codexKeyModelSet := "codex_model_set".
Definition codexKeyEffortSet := "codex_effort_set".
Definition codexKeyModelAuthoritative := "codex_model_authoritative".
Definition codexKeyEffortAuthoritative := "codex_effort_authoritative".
Definition codexLegacyKeyModel := "model".
Definition codexLegacyKeyEffort := "effort".

Definition with_common (cs : CodexState) (c : CommonState) : CodexState := cs <| xs_Common := c |>.

Definition StartDir (s : DriverState) : string :=
  match as_codex s with Some cs => c_StartDir (xs_Common cs) | None => "" end.

Definition WithStartDir (s : DriverState) (dir : string) : DriverState :=
  match as_codex s with
  | Some cs => Some (DSCodex (with_common cs (xs_Common cs <| c_StartDir := dir |>)))
  | None => s
  end.

Definition NewState (now : Time) : CodexState := zero_codex <| xs_Common := new_common StatusIdle now |>.

(** ** Resuming (codex_resume.go) *)

Definition codexStateDBName := "state_5.sqlite".

Definition setRolloutPath (cs : CodexState) (path : string) : CodexState :=
  let path := TrimSpace path in
  with_common (cs <| xs_RolloutPath := path |>) (xs_Common cs <| c_TranscriptPath := path |>).

Definition resolvedRolloutPath (cs : CodexState) : string :=
  let rolloutPath := TrimSpace (xs_RolloutPath cs) in
  if non_empty rolloutPath then rolloutPath else TrimSpace (c_TranscriptPath (xs_Common cs)).

Section Env.
Context `{DriverEnv}.

Definition usableRolloutPath (path : string) : string :=
  let path := TrimSpace path in
  if bool_decide (path = "") then ""
  else match os_Stat path with
       | StatOK size => if size =? 0 then "" else path
       | _ => ""
       end.

(** Errors of the lookups are only logged: [None]. *)
Definition codexHomeDir : option string :=
  let home := TrimSpace (os_Getenv "CODEX_HOME") in
  if non_empty home then Some home
  else match os_UserHomeDir with
       | inr home => Some (Join [home; ".codex"])
       | inl _ => None
       end.

Definition lookupCodexThreadValue (codexHome selectColumn whereColumn value : string) : option string :=
  let dbPath := Join [codexHome; codexStateDBName] in
  match os_Stat dbPath with
  | StatOK _ =>
    match sqlite_query dbPath selectColumn whereColumn value with
    | inr [row] => if bool_decide (TrimSpace row = "") then None else Some (TrimSpace row)
    | _ => None
    end
  | _ => None
  end.

Definition resolveCodexRolloutPath (threadID : string) : string :=
  match codexHomeDir with
  | Some codexHome =>
    match lookupCodexThreadValue codexHome "rollout_path" "id" threadID with
    | Some rolloutPath => usableRolloutPath rolloutPath
    | None => ""
    end
  | None => ""
  end.

Definition resolveCodexSessionID (rolloutPath persistedSessionID : string) : string :=
  if bool_decide (rolloutPath = "") || non_empty persistedSessionID then persistedSessionID
  else match codexHomeDir with
       | Some codexHome => default "" (lookupCodexThreadValue codexHome "id" "rollout_path" rolloutPath)
       | None => ""
       end.

(** The resume target and session id, nothing to resume, or an error. *)
Definition coldStartResumePlan (cs : CodexState) : string + option (ResumeTarget * string) :=
  let rawThreadID := TrimSpace (xs_ThreadID cs) in
  let sessionID := TrimSpace (xs_SessionID cs) in
  let rawRolloutPath := TrimSpace (resolvedRolloutPath cs) in
  let threadID := if isAlphanumHyphen rawThreadID then rawThreadID
                  else if isAlphanumHyphen sessionID then sessionID else "" in
  let rolloutPath := usableRolloutPath rawRolloutPath in
  let rolloutPath := if bool_decide (rolloutPath = "") && non_empty threadID
                     then resolveCodexRolloutPath threadID else rolloutPath in
  if bool_decide (threadID = "") && bool_decide (rawRolloutPath = "") then inr None
  else if non_empty rawThreadID && bool_decide (threadID = "") && bool_decide (rolloutPath = "")
  then inl ("codex cold-start resume requires a valid thread_id, got " +:+ fmt_q rawThreadID)
  else if bool_decide (rolloutPath = "")
  then inl ("codex cold-start resume requires a usable rollout_path for thread_id " +:+ fmt_q threadID)
  else inr (Some (mkResumeTarget threadID rolloutPath, resolveCodexSessionID rolloutPath sessionID)).

(** ** Launching (codex.go, codex_worktree.go) *)

Definition impose (set : bool) (value : string) (flag : string) (aliases : list string)
    (command : string) : string :=
  if negb set then command
  else if bool_decide (value = "") then stripFlagValues command (flag :: aliases)
  else replaceFlagValue command flag aliases value.

Definition resolveCodexModelEffort (cs : CodexState) (stripped : string) : CodexState * string :=
  match SplitArgs stripped with
  | Some (inr argv) =>
    match CodexCLI.ParseCommand argv with
    | Some cfg =>
      let cs := if negb (xs_ModelSet cs) && non_empty (CodexCLI.cfg_Model cfg)
                then cs <| xs_Model := CodexCLI.cfg_Model cfg |> <| xs_ModelSet := true |> else cs in
      let cs := if negb (xs_EffortSet cs) && non_empty (CodexCLI.cfg_Effort cfg)
                then cs <| xs_Effort := CodexCLI.cfg_Effort cfg |> <| xs_EffortSet := true |> else cs in
      let stripped := impose (xs_ModelSet cs) (xs_Model cs) "--model" ["-m"] stripped in
      (cs, impose (xs_EffortSet cs) (xs_Effort cs) "--effort" [] stripped)
    | None => (cs, stripped)
    end
  | _ => (cs, stripped)
  end.

Definition hasResumeToken (command : string) : bool := bool_decide ("resume" ∈ Fields command).

Definition stream_plan (command startDir : string) (options : LaunchOptions)
    (stream : StreamLaunchOptions) (stdin : string) : LaunchPlan :=
  plan command startDir options stdin <| lp_Subsystem := LaunchSubsystemStream |> <| lp_Stream := stream |>.

Definition PrepareLaunch (s : DriverState) (mode : LaunchMode) (project baseCommand : string)
    (options : LaunchOptions) : string + LaunchPlan :=
  let cs := default zero_codex (as_codex s) in
  let cs := if non_empty (xs_Model cs) then cs <| xs_ModelSet := true |> else cs in
  let cs := if non_empty (xs_Effort cs) then cs <| xs_EffortSet := true |> else cs in
  let startDir := if non_empty (c_StartDir (xs_Common cs)) then c_StartDir (xs_Common cs) else project in
  let '(req, stripped) := resolveWorktreeRequest baseCommand options ["--worktree"] in
  let stdin := lo_InitialInput options in
  if negb (bool_decide (head (Fields stripped) = Some CodexDriverName))
  then inr (plan (TrimSpace baseCommand) startDir options stdin)
  else
    let '(cs, stripped) := resolveCodexModelEffort cs stripped in
    let base := TrimSpace stripped in
    let bypass := match SplitArgs base with
                  | Some (inr argv) => from_option CodexCLI.cfg_DangerouslyBypassPermissions false
                                         (CodexCLI.ParseCommand argv)
                  | _ => false
                  end in
    let opts := PreserveLaunchOptions options (wt_Enabled req) in
    let fresh := mkStreamLaunchOptions bypass (mkResumeTarget "" "") "" in
    let cold := match mode with LaunchModeColdStart => true | _ => false end in
    if negb cold || hasResumeToken base then inr (stream_plan base startDir opts fresh stdin)
    else match coldStartResumePlan cs with
         | inl err => inl err
         | inr (Some (resume, sessionID)) =>
           inr (stream_plan base startDir opts (mkStreamLaunchOptions bypass resume sessionID) stdin)
         | inr None => inr (stream_plan base startDir opts fresh stdin)
         end.

Definition PrepareCreate (s : DriverState) (project command : string) (options : LaunchOptions) :
    CodexState * CreateLaunch :=
  let cs := default zero_codex (as_codex s) in
  let cs := match SplitArgs command with
            | Some (inr argv) =>
              match CodexCLI.ParseCommand argv with
              | Some cfg => cs <| xs_Model := CodexCLI.cfg_Model cfg |> <| xs_Effort := CodexCLI.cfg_Effort cfg |>
              | None => cs
              end
            | _ => cs
            end in
  (cs, CommonPrepareCreate project command options ["--worktree"]).

(** ** Events (codex_event.go, codex_tool_log.go) *)

Definition applyHookStatus (cs : CodexState) (status : Status) (ts : Time) : CodexState :=
  let c := xs_Common cs in
  with_common cs (c <| c_Status := status |>
                    <| c_StatusChangedAt := statusTime ts (c_StatusChangedAt c) |>).

Definition startCodexTranscriptParse (cs : CodexState) : CodexState * list Effect :=
  let path := c_TranscriptPath (xs_Common cs) in
  if xs_TranscriptInFlight cs || bool_decide (path = "") then (cs, [])
  else (cs <| xs_TranscriptInFlight := true |>, [startJob (CodexTranscriptParseInput path)]).

Definition watchCodexTranscript (cs : CodexState) : CodexState * list Effect :=
  let path := c_TranscriptPath (xs_Common cs) in
  if bool_decide (path = "") || bool_decide (xs_WatchedFile cs = path) then (cs, [])
  else (cs <| xs_WatchedFile := path |>, [EffWatchFile "" path "transcript"]).

Definition applySessionStart (cs : CodexState) (ctx : FrameContext) (now : Time) (effs : list Effect) :
    CodexState * list Effect :=
  let cs := cs <| xs_PendingTools := ∅ |> <| xs_CurrentTool := "" |> <| xs_PendingApproval := false |>
               <| xs_FailureReason := "" |> in
  let '(cs, job) := startCodexTranscriptParse (applyHookStatus cs StatusIdle now) in
  let effs := effs ++ job in
  let target := c_StartDir (xs_Common cs) in
  if fc_IsRoot ctx && non_empty target && negb (c_BranchInFlight (xs_Common cs))
  then (with_common cs (xs_Common cs <| c_BranchInFlight := true |> <| c_BranchTarget := target |>),
        effs ++ [startJob (BranchDetectInput target)])
  else (cs, effs).

Definition BootstrapSessionStart (s : DriverState) (ctx : FrameContext) (now : Time) :
    CodexState * list Effect :=
  let cs := default (NewState now) (as_codex s) in
  let '(cs, effs) := watchCodexTranscript cs in
  applySessionStart cs ctx now effs.

Definition appendSummaryTurn (turns : list SummaryTurn) (turn : SummaryTurn) : list SummaryTurn :=
  if bool_decide (TrimSpace (Role turn) = "") || bool_decide (TrimSpace (Text turn) = "") then turns
  else let out := turns ++ [mkTurn (TrimSpace (Role turn)) (TrimSpace (Text turn))] in
       drop (length out - 6) out.

Definition applyMetadataPrompt (cs : CodexState) (prompt : string) (now : Time) (effs : list Effect) :
    CodexState * list Effect :=
  if bool_decide (prompt = "") then (cs, effs)
  else
    let cs := with_common cs (xs_Common cs <| c_LastPrompt := prompt |>) in
    let cs := cs <| xs_RecentTurns := appendSummaryTurn (xs_RecentTurns cs) (mkTurn "user" prompt) |> in
    let cs := applyHookStatus cs StatusRunning now in
    let turns := userOnlyTurns (xs_RecentTurns cs) 2 in
    let '(effs, inFlight) := enqueueSummaryJob effs (c_SummaryInFlight (xs_Common cs))
                               (formatSummaryPrompt (c_Summary (xs_Common cs)) turns) in
    let cs := with_common cs (xs_Common cs <| c_SummaryInFlight := inFlight |>) in
    let '(cs, job) := startCodexTranscriptParse cs in
    (cs, effs ++ job).

Record codexMetadata := mkMetadata {
  md_TitleSet : bool; md_Title : string; md_Preview : string; md_Prompt : string;
  md_LastPrompt : string; md_Model : string; md_ModelSet : bool; md_Effort : string;
  md_EffortSet : bool; md_Authoritative : bool }.

Definition codexDisplayFallback (preview prompt : string) : string :=
  previewSummary (firstNonEmpty [preview; prompt]).

Definition applyCodexMetadata (cs : CodexState) (m : codexMetadata) : CodexState :=
  let cs := if md_TitleSet m then with_common cs (xs_Common cs <| c_Title := TrimSpace (md_Title m) |>)
            else cs in
  let preview := TrimSpace (md_Preview m) in
  let cs := if bool_decide (preview = "") then cs else cs <| xs_Preview := preview |> in
  let cs := if md_ModelSet m && (md_Authoritative m || negb (xs_ModelAuthoritative cs))
            then cs <| xs_Model := TrimSpace (md_Model m) |> <| xs_ModelSet := true |>
                    <| xs_ModelAuthoritative := md_Authoritative m || xs_ModelAuthoritative cs |>
            else cs in
  let cs := if md_EffortSet m && (md_Authoritative m || negb (xs_EffortAuthoritative cs))
            then cs <| xs_Effort := TrimSpace (md_Effort m) |> <| xs_EffortSet := true |>
                    <| xs_EffortAuthoritative := md_Authoritative m || xs_EffortAuthoritative cs |>
            else cs in
  cs <| xs_DisplayFallback := codexDisplayFallback (xs_Preview cs)
          (firstNonEmpty [md_Prompt m; md_LastPrompt m; c_LastPrompt (xs_Common cs)]) |>.

Definition applySubsystemMetadata (cs : CodexState) (p : SubsystemPayload) (now : Time)
    (effs : list Effect) : CodexState * list Effect :=
  let prompt := TrimSpace (sp_Prompt p) in
  let cs := applyCodexMetadata cs (mkMetadata (sp_TitleSet p) (sp_Title p) (sp_Preview p) prompt ""
    (sp_Model p) (sp_ModelSet p) (sp_Effort p) (sp_EffortSet p) true) in
  applyMetadataPrompt cs prompt now effs.

Definition subsystemToolInput (tool : SubsystemTool) : AnyMap :=
  let input := if bool_decide (tl_Command tool = "") then ∅
               else <["command" := AnyString (tl_Command tool)]> ∅ in
  if bool_decide (tl_Path tool = "") then input
  else <["file_path" := AnyString (tl_Path tool)]> input.

Definition subsystemTurnsToSummaryTurns (turns : list SubsystemTurn) : list SummaryTurn :=
  base.filter (fun t => Text t <> "" /\ Role t <> "")
    ((fun t => mkTurn (TrimSpace (tn_Role t)) (TrimSpace (tn_Text t))) <$> turns).

Definition handleSubsystemToolStarted (cs : CodexState) (p : SubsystemPayload) (now : Time) : CodexState :=
  match sp_Tool p with
  | Some tool =>
    if bool_decide (tl_ID tool = "") || bool_decide (tl_Name tool = "") then cs
    else cs <| xs_PendingTools :=
                 <[tl_ID tool := mkCodexPendingTool (tl_Name tool) (subsystemToolInput tool) now]>
                   (xs_PendingTools cs) |>
  | None => cs
  end.

Definition tool_log_project (cs : CodexState) : string :=
  let c := xs_Common cs in if bool_decide (c_Project c = "") then c_StartDir c else c_Project c.

Definition emitToolLog (cs : CodexState) (toolName toolUseID error : string) (evInput : AnyMap)
    (now : Time) (kind : string) (effs : list Effect) : CodexState * list Effect :=
  let '(cs, kind, durationMs, toolInput) :=
    if bool_decide (toolUseID = "") then (cs, kind, 0, evInput)
    else match xs_PendingTools cs !! toolUseID with
         | Some entry =>
           (cs <| xs_PendingTools := delete toolUseID (xs_PendingTools cs) |>, kind,
            duration_ms (xp_StartedAt entry) now, xp_Input entry)
         | None => (cs, if bool_decide (kind = "auto") then "orphan" else kind, 0, evInput)
         end in
  let slug := resolveProjectSlug (tool_log_project cs) in
  if bool_decide (slug = "") || bool_decide (toolName = "") then (cs, effs)
  else
    let '(fileKind, relPath) := classifyCodexTool toolName toolInput (tool_log_project cs) in
    let line := buildToolLogLine (mkToolLogEntry toolLogSchemaVersion now
      (c_RoostSessionID (xs_Common cs)) "" toolUseID toolName kind "" durationMs
      (summariseToolInput toolName toolInput) error (xs_ToolLogTurnID cs) fileKind relPath false false) in
    (cs, effs ++ [EffToolLogAppend CodexDriverName slug line]).

Definition handleSubsystemToolCompleted (cs : CodexState) (p : SubsystemPayload) (now : Time)
    (effs : list Effect) : CodexState * list Effect :=
  match sp_Tool p with
  | Some tool =>
    if bool_decide (tl_Name tool = "") then (cs, effs)
    else
      let kind := if bool_decide (tl_Error tool = "") then "auto"
                  else if tl_IsInterrupt tool then "denied" else "failed" in
      emitToolLog cs (tl_Name tool) (tl_ID tool) (tl_Error tool) (subsystemToolInput tool) now kind effs
  | None => (cs, effs)
  end.

Definition emitCodexTurnBoundary (cs : CodexState) (now : Time) (failure : bool) : list Effect :=
  if bool_decide (xs_ToolLogTurnID cs = "") then []
  else
    let slug := resolveProjectSlug (tool_log_project cs) in
    if bool_decide (slug = "") then []
    else
      let line := buildToolLogLine (zero_entry <| te_SchemaVersion := toolLogSchemaVersion |>
        <| te_TS := now |> <| te_RoostSessionID := c_RoostSessionID (xs_Common cs) |>
        <| te_TurnID := xs_ToolLogTurnID cs |> <| te_TurnComplete := true |>
        <| te_TurnFailure := failure |>) in
      [EffToolLogAppend CodexDriverName slug line].

Definition set_last_message (cs : CodexState) (msg : string) : CodexState :=
  let msg := TrimSpace msg in
  if bool_decide (msg = "") then cs
  else with_common cs (xs_Common cs <| c_LastAssistantMessage := msg |>).

(** On [SubsystemTurnCompleted] the effects passed in are replaced, not extended. *)
Definition applySubsystemKind (cs : CodexState) (ctx : FrameContext) (kind : SubsystemEventKind)
    (ts : Time) (p : SubsystemPayload) (effs : list Effect) : CodexState * list Effect :=
  match kind with
  | SubsystemSessionReady => applySessionStart (cs <| xs_ToolLogTurnID := "" |>) ctx ts effs
  | SubsystemFailed =>
    let cs := cs <| xs_PendingTools := ∅ |> <| xs_CurrentTool := "" |> <| xs_PendingApproval := false |>
                 <| xs_FailureReason := TrimSpace (sp_Error p) |> in
    (applyHookStatus cs StatusStopped ts, effs)
  | SubsystemPromptSubmitted => applyMetadataPrompt cs (TrimSpace (sp_Prompt p)) ts effs
  | SubsystemMetadataUpdated => applySubsystemMetadata cs p ts effs
  | SubsystemTurnStarted =>
    let cs := applyHookStatus cs StatusRunning ts in
    let turnID := TrimSpace (sp_TurnID p) in
    (if bool_decide (turnID = "") then cs else cs <| xs_ToolLogTurnID := turnID |>, effs)
  | SubsystemTurnCompleted =>
    let cs := cs <| xs_CurrentTool := "" |> <| xs_PendingTools := ∅ |> <| xs_PendingApproval := false |> in
    let cs := applyHookStatus (set_last_message cs (sp_LastAssistantMessage p)) StatusWaiting ts in
    (cs, emitCodexTurnBoundary cs ts false)
  | SubsystemToolStarted =>
    let cs := cs <| xs_PendingApproval := false |>
                 <| xs_CurrentTool := from_option (fun t => TrimSpace (tl_Name t)) "" (sp_Tool p) |> in
    (handleSubsystemToolStarted (applyHookStatus cs StatusRunning ts) p ts, effs)
  | SubsystemToolCompleted =>
    let cs := cs <| xs_CurrentTool := "" |> in
    handleSubsystemToolCompleted (applyHookStatus cs StatusRunning ts) p ts effs
  | SubsystemApprovalRequested =>
    (applyHookStatus (cs <| xs_PendingApproval := true |>) StatusPending ts, effs)
  | SubsystemApprovalResolved =>
    let denied := from_option sa_Denied false (sp_Approval p) in
    (applyHookStatus (cs <| xs_PendingApproval := false |>)
       (if denied then StatusWaiting else StatusRunning) ts, effs)
  | SubsystemPlanUpdated =>
    (from_option (fun pl => cs <| xs_PlanSummary := TrimSpace (pn_Summary pl) |>) cs (sp_Plan p), effs)
  | SubsystemDiffUpdated =>
    (from_option (fun df => cs <| xs_DiffSummary := TrimSpace (df_Summary df) |>
                               <| xs_DiffPaths := df_Paths df |>) cs (sp_Diff p), effs)
  | SubsystemMessageUpdated =>
    let cs := set_last_message cs (sp_LastAssistantMessage p) in
    (from_option (fun m => cs <| xs_RecentTurns := subsystemTurnsToSummaryTurns (mg_RecentTurns m) |>) cs
       (sp_Message p), effs)
  | SubsystemTitleUpdated => (with_common cs (xs_Common cs <| c_Title := TrimSpace (sp_Title p) |>), effs)
  | _ => (cs, effs)
  end.

Definition set_if (v : string) (f : CodexState -> CodexState) (cs : CodexState) : CodexState :=
  if bool_decide (v = "") then cs else f cs.

Definition handleSubsystem (cs : CodexState) (ctx : FrameContext) (kind : SubsystemEventKind) (ts : Time)
    (p : SubsystemPayload) : CodexState * list Effect :=
  let cs := set_if (sp_RequestedTargetID p) (fun cs => cs <| xs_RequestedThreadID := sp_RequestedTargetID p |>) cs in
  let cs := set_if (sp_ObservedTargetID p) (fun cs => cs <| xs_ObservedThreadID := sp_ObservedTargetID p |>) cs in
  let cs := set_if (sp_ResumePhase p) (fun cs => cs <| xs_ResumePhase := sp_ResumePhase p |>) cs in
  let cs := set_if (sp_ColdStartSessionID p) (fun cs => cs <| xs_SessionID := sp_ColdStartSessionID p |>) cs in
  let cs := set_if (sp_TargetID p) (fun cs => cs <| xs_ThreadID := sp_TargetID p |>) cs in
  if negb (fc_IsRoot ctx) then (cs, [])
  else
    let cs := set_if (sp_TranscriptPath p) (fun cs => setRolloutPath cs (sp_TranscriptPath p)) cs in
    let cs := set_if (sp_StatusLine p) (fun cs => cs <| xs_StatusLine := sp_StatusLine p |>) cs in
    let '(cs, effs) := watchCodexTranscript cs in
    let '(cs, effs) := applySubsystemKind cs ctx kind ts p effs in
    let '(cs, job) := startCodexTranscriptParse cs in
    (cs, effs ++ job).

Definition applyTranscript (cs : CodexState) (r : CodexTranscriptParseResult) : CodexState :=
  let cs := applyCodexMetadata cs (mkMetadata (non_empty (xr_Title r)) (xr_Title r) "" "" (xr_LastPrompt r)
    (xr_Model r) (xr_ModelSet r) (xr_Effort r) (xr_EffortSet r) false) in
  let cs := set_if (xr_LastPrompt r)
              (fun cs => with_common cs (xs_Common cs <| c_LastPrompt := xr_LastPrompt r |>)) cs in
  let cs := set_if (xr_LastAssistantMessage r)
              (fun cs => with_common cs (xs_Common cs <| c_LastAssistantMessage := xr_LastAssistantMessage r |>)) cs in
  let cs := cs <| xs_StatusLine := xr_StatusLine r |> <| xs_RecentTurns := xr_RecentTurns r |> in
  if bool_decide (c_Status (xs_Common cs) = StatusRunning) then cs else cs <| xs_CurrentTool := "" |>.

Definition handleJobResult (cs : CodexState) (result : JobResult) (err : option string) (now : Time) :
    CodexState :=
  match applySummaryJobResult (xs_Common cs) result err with
  | Some c => with_common cs c
  | None =>
    match result with
    | ResultDriver (CodexTranscriptParseResult_ r) =>
      let cs := cs <| xs_TranscriptInFlight := false |> in
      if bool_decide (is_Some err) then cs else applyTranscript cs r
    | ResultDriver (BranchDetectResult_ r) => with_common cs (ApplyBranchResult (xs_Common cs) r err now)
    | _ => cs
    end
  end.

Definition handleTranscriptChanged (cs : CodexState) (path : string) : CodexState * list Effect :=
  if non_empty (c_TranscriptPath (xs_Common cs)) && non_empty path
     && negb (bool_decide (c_TranscriptPath (xs_Common cs) = path)) then (cs, [])
  else
    let '(cs, effs) := watchCodexTranscript cs in
    let '(cs, job) := startCodexTranscriptParse cs in
    (cs, effs ++ job).

Definition is_subsystem (ev : DriverEvent) : bool :=
  match ev with DEvSubsystem _ _ _ _ => true | _ => false end.

Definition Step (prev : DriverState) (ctx : FrameContext) (ev : DriverEvent) : CodexState * list Effect :=
  let cs := default (NewState 0) (as_codex prev) in
  let c := xs_Common cs in
  if negb (fc_IsRoot ctx) && negb (is_subsystem ev) then (cs, []) else
  match ev with
  | DEvSubsystem _ kind ts payload => handleSubsystem cs ctx kind ts payload
  | DEvTick now watched project _ _ =>
    let '(c, effs) := HandleTick c now watched project in (with_common cs c, effs)
  | DEvFileChanged path => handleTranscriptChanged cs path
  | DEvJobResult result err now => (handleJobResult cs result err now, [])
  | DEvWorktreeResolved startDir name => (with_common cs (ApplyWorktreeResolved c startDir name), [])
  | DEvCommandExited code ts => (with_common cs (ApplyCommandExited c code ts), [])
  | _ => (cs, [])
  end.

Definition RecoverableOnColdStart (s : DriverState) : bool :=
  match as_codex s with
  | Some cs => non_empty (TrimSpace (resolvedRolloutPath cs))
               || isAlphanumHyphen (xs_ThreadID cs) || isAlphanumHyphen (xs_SessionID cs)
  | None => false
  end.

Definition WarmStartRecover (s : DriverState) (now : Time) : CodexState * list Effect :=
  let cs := default (NewState now) (as_codex s) in
  let '(cs, effs) := watchCodexTranscript cs in
  let '(cs, job) := startCodexTranscriptParse cs in
  (cs, effs ++ job).

End Env.

(** ** Persistence (codex_persist.go) *)

Definition Persist (s : DriverState) : Bag :=
  match as_codex s with
  | Some cs =>
    let out := PersistCommon (xs_Common cs) ∅ in
    let out := put_string codexKeyThreadID (xs_ThreadID cs) out in
    let out := put_string codexKeySessionID (xs_SessionID cs) out in
    let out := put_string codexKeyRolloutPath (xs_RolloutPath cs) out in
    let out := put_string codexKeyModel (xs_Model cs) out in
    let out := put_string codexKeyEffort (xs_Effort cs) out in
    let out := put_flag codexKeyModelSet (xs_ModelSet cs) out in
    let out := put_flag codexKeyEffortSet (xs_EffortSet cs) out in
    let out := put_flag codexKeyModelAuthoritative (xs_ModelAuthoritative cs) out in
    let out := put_flag codexKeyEffortAuthoritative (xs_EffortAuthoritative cs) out in
    let out := put_string codexKeyRequestedThreadID (xs_RequestedThreadID cs) out in
    let out := put_string codexKeyObservedThreadID (xs_ObservedThreadID cs) out in
    let out := put_string codexKeyResumePhase (xs_ResumePhase cs) out in
    let out := put_string codexKeyPreview (xs_Preview cs) out in
    put_string codexKeyDisplayFallback (xs_DisplayFallback cs) out
  | None => ∅
  end.

Definition Restore (bag : Bag) (now : Time) : CodexState :=
  let cs := NewState now in
  if bool_decide (bag = ∅) then cs
  else
    let c := RestoreCommon (xs_Common cs) bag in
    let model := firstPersistedValue bag [codexKeyModel; codexLegacyKeyModel] in
    let effort := firstPersistedValue bag [codexKeyEffort; codexLegacyKeyEffort] in
    let rollout := bag_get bag codexKeyRolloutPath in
    let rollout := if bool_decide (rollout = "") then c_TranscriptPath c else rollout in
    let preview := bag_get bag codexKeyPreview in
    let fallback := bag_get bag codexKeyDisplayFallback in
    cs <| xs_Common := if bool_decide (c_TranscriptPath c = "") then c <| c_TranscriptPath := rollout |>
                       else c |>
       <| xs_ThreadID := bag_get bag codexKeyThreadID |>
       <| xs_SessionID := bag_get bag codexKeySessionID |>
       <| xs_RolloutPath := rollout |>
       <| xs_Model := model |> <| xs_Effort := effort |>
       <| xs_ModelSet := get_flag bag codexKeyModelSet || non_empty model |>
       <| xs_EffortSet := get_flag bag codexKeyEffortSet || non_empty effort |>
       <| xs_ModelAuthoritative := get_flag bag codexKeyModelAuthoritative |>
       <| xs_EffortAuthoritative := get_flag bag codexKeyEffortAuthoritative |>
       <| xs_RequestedThreadID := bag_get bag codexKeyRequestedThreadID |>
       <| xs_ObservedThreadID := bag_get bag codexKeyObservedThreadID |>
       <| xs_ResumePhase := bag_get bag codexKeyResumePhase |>
       <| xs_Preview := preview |>
       <| xs_DisplayFallback := if bool_decide (fallback = "")
                                then codexDisplayFallback preview (c_LastPrompt c) else fallback |>.

Definition CapsuleTurns (s : DriverState) : list CapsuleTurn :=
  match as_codex s with
  | Some cs => (fun t => mkCapsuleTurn (Role t) (Text t)) <$> xs_RecentTurns cs
  | None => []
  end.

End Codex.
