(* ===== verification/DriverRegistry.v ===== *)
(** * host/driver: the registry

    register.go and the shell driver that cmd/server/coordinator.go registers: the
    built-in drivers as the reducer's [Driver] records, and the registry the reducer
    looks commands up in. *)

From Stdlib Require Import String.
From S2P Require Import Prelude GoStd GoStrings ShellArgs HostState DriverTypes DriverCommon DriverToolLog.
From S2P Require Import DriverBasic DriverClaude DriverGemini DriverCodex.

(** [SummarizeCommand], [EventLogDir] and the driver configurations do not reach the
    parts modelled here. *)
Record RegisterOptions := mkRegisterOptions {
  ro_Home : string; ro_IdleThreshold : Duration; ro_Pager : string; ro_ShellDisplayName : string }.

Definition lift {A} (f : A -> BuiltinState) (r : A * list Effect) : DriverState * list Effect :=
  (Some (f r.1), r.2).

Definition lift_create {A} (f : A -> BuiltinState) (r : A * CreateLaunch) :
    string + (DriverState * CreateLaunch) := inr (Some (f r.1), r.2).

(** [s.(X).Status]: the assertion panics on another driver's state, where the model
    has the zero status. *)
Definition status_of (c : option CommonState) : Status := from_option c_Status StatusRunning c.

Section Registry.
Context `{GoMapRange} `{DriverEnv} (opts : RegisterOptions).

Definition generic_driver (d : Generic.GenericDriver) : Driver := {|
  drv_Name := Generic.name d; drv_DisplayName := Generic.displayName d;
  drv_NewState := fun now => Some (DSGeneric (Generic.NewState d now));
  drv_Step := fun prev ctx ev => lift DSGeneric (Generic.Step d prev ctx ev);
  drv_Status := fun s => status_of (gn_Common <$> as_generic s);
  drv_Persist := Generic.Persist; drv_Restore := fun bag now => Some (DSGeneric (Generic.Restore d bag now));
  drv_PrepareLaunch := fun s _ project command o => inr (Generic.PrepareLaunch s project command o);
  drv_PrepareCreate := Some (fun s _ project command o =>
    lift_create DSGeneric (Generic.PrepareCreate s project command o));
  drv_Forkable := None; drv_WithForkSessionID := None; drv_BootstrapSessionStart := None;
  drv_StartDirAware := Some (Generic.StartDir, Generic.WithStartDir);
  drv_CapsuleTurns := None;
  drv_WarmStartRecover := None;
  drv_RecoverableOnColdStart := None |}.

Definition shell_driver : Driver := {|
  drv_Name := "shell"; drv_DisplayName := ro_ShellDisplayName opts;
  drv_NewState := fun now => Some (DSShell (Shell.NewState now));
  drv_Step := fun prev ctx ev => lift DSShell (Shell.Step prev ctx ev);
  drv_Status := fun s => status_of (shl_Common <$> as_shell s);
  drv_Persist := Shell.Persist; drv_Restore := fun bag now => Some (DSShell (Shell.Restore bag now));
  drv_PrepareLaunch := fun s _ project command o => inr (Shell.PrepareLaunch s project command o);
  drv_PrepareCreate := Some (fun s _ project command o =>
    lift_create DSShell (Shell.PrepareCreate s project command o));
  drv_Forkable := None; drv_WithForkSessionID := None; drv_BootstrapSessionStart := None;
  drv_StartDirAware := Some (Shell.StartDir, Shell.WithStartDir);
  drv_CapsuleTurns := None;
  drv_WarmStartRecover := None;
  drv_RecoverableOnColdStart := None |}.

Definition agy_driver : Driver := {|
  drv_Name := Agy.AgyDriverName; drv_DisplayName := Agy.AgyDriverName;
  drv_NewState := fun now => Some (DSAgy (Agy.NewState now));
  drv_Step := fun prev ctx ev => lift DSAgy (Agy.Step prev ctx ev);
  drv_Status := fun s => status_of (Agy.common <$> as_agy s);
  drv_Persist := Agy.Persist; drv_Restore := fun bag now => Some (DSAgy (Agy.Restore bag now));
  drv_PrepareLaunch := fun s _ project command o => inr (Agy.PrepareLaunch s project command o);
  drv_PrepareCreate := Some (fun s _ project command o =>
    lift_create DSAgy (Agy.PrepareCreate s project command o));
  drv_Forkable := None; drv_WithForkSessionID := None; drv_BootstrapSessionStart := None;
  drv_StartDirAware := Some (Agy.StartDir, Agy.WithStartDir);
  drv_CapsuleTurns := None;
  drv_WarmStartRecover := None;
  drv_RecoverableOnColdStart := None |}.

Definition grok_driver : Driver := {|
  drv_Name := Grok.DriverName; drv_DisplayName := Grok.DriverName;
  drv_NewState := fun now => Some (DSGrok (Grok.NewState now));
  drv_Step := fun prev ctx ev => lift DSGrok (Grok.Step prev ctx ev);
  drv_Status := fun s => status_of (gk_Common <$> as_grok s);
  drv_Persist := Grok.Persist; drv_Restore := fun bag now => Some (DSGrok (Grok.Restore bag now));
  drv_PrepareLaunch := Grok.PrepareLaunch;
  drv_PrepareCreate := Some (fun s sid project command o =>
    match Grok.PrepareCreate s sid project command o with
    | inl err => inl err
    | inr r => lift_create DSGrok r
    end);
  drv_Forkable := Some (Grok.ForkCommand, Grok.ForkChildState);
  drv_WithForkSessionID := Some Grok.WithForkSessionID; drv_BootstrapSessionStart := None;
  drv_StartDirAware := Some (Grok.StartDir, Grok.WithStartDir);
  drv_CapsuleTurns := None;
  drv_WarmStartRecover := None;
  drv_RecoverableOnColdStart := Some Grok.RecoverableOnColdStart |}.

Definition claude_config : Claude.ClaudeDriver := Claude.mkClaudeDriver (ro_Home opts) (ro_Pager opts).

Definition claude_driver : Driver := {|
  drv_Name := Claude.ClaudeDriverName; drv_DisplayName := Claude.ClaudeDriverName;
  drv_NewState := fun now => Some (DSClaude (Claude.NewState now));
  drv_Step := fun prev ctx ev => lift DSClaude (Claude.Step claude_config prev ctx ev);
  drv_Status := fun s => status_of (cs_Common <$> as_claude s);
  drv_Persist := Claude.Persist; drv_Restore := fun bag now => Some (DSClaude (Claude.Restore bag now));
  drv_PrepareLaunch := Claude.PrepareLaunch claude_config;
  drv_PrepareCreate := Some (fun s _ project command o =>
    lift_create DSClaude (Claude.PrepareCreate s project command o));
  drv_Forkable := Some (Claude.ForkCommand, Claude.ForkChildState);
  drv_WithForkSessionID := None; drv_BootstrapSessionStart := None;
  drv_StartDirAware := Some (Claude.StartDir, Claude.WithStartDir);
  drv_CapsuleTurns := Some Claude.CapsuleTurns;
  drv_WarmStartRecover := Some (fun s now => lift DSClaude (Claude.WarmStartRecover claude_config s now));
  drv_RecoverableOnColdStart := None |}.

Definition codex_driver : Driver := {|
  drv_Name := Codex.CodexDriverName; drv_DisplayName := Codex.CodexDriverName;
  drv_NewState := fun now => Some (DSCodex (Codex.NewState now));
  drv_Step := fun prev ctx ev => lift DSCodex (Codex.Step prev ctx ev);
  drv_Status := fun s => status_of (xs_Common <$> as_codex s);
  drv_Persist := Codex.Persist; drv_Restore := fun bag now => Some (DSCodex (Codex.Restore bag now));
  drv_PrepareLaunch := Codex.PrepareLaunch;
  drv_PrepareCreate := Some (fun s _ project command o =>
    lift_create DSCodex (Codex.PrepareCreate s project command o));
  drv_Forkable := None; drv_WithForkSessionID := None;
  drv_BootstrapSessionStart := Some (fun s ctx now => lift DSCodex (Codex.BootstrapSessionStart s ctx now));
  drv_StartDirAware := Some (Codex.StartDir, Codex.WithStartDir);
  drv_CapsuleTurns := Some Codex.CapsuleTurns;
  drv_WarmStartRecover := Some (fun s now => lift DSCodex (Codex.WarmStartRecover s now));
  drv_RecoverableOnColdStart := Some Codex.RecoverableOnColdStart |}.

Definition gemini_driver : Driver := {|
  drv_Name := Gemini.GeminiDriverName; drv_DisplayName := Gemini.GeminiDriverName;
  drv_NewState := fun now => Some (DSGemini (Gemini.NewState now));
  drv_Step := fun prev ctx ev => lift DSGemini (Gemini.Step prev ctx ev);
  drv_Status := fun s => status_of (gm_Common <$> as_gemini s);
  drv_Persist := Gemini.Persist; drv_Restore := fun bag now => Some (DSGemini (Gemini.Restore bag now));
  drv_PrepareLaunch := fun s mode project command o => inr (Gemini.PrepareLaunch s mode project command o);
  drv_PrepareCreate := Some (fun s _ project command o =>
    lift_create DSGemini (Gemini.PrepareCreate s project command o));
  drv_Forkable := None; drv_WithForkSessionID := None; drv_BootstrapSessionStart := None;
  drv_StartDirAware := Some (Gemini.StartDir, Gemini.WithStartDir);
  drv_CapsuleTurns := Some Gemini.CapsuleTurns;
  drv_WarmStartRecover := Some (fun s now => lift DSGemini (Gemini.WarmStartRecover s now));
  drv_RecoverableOnColdStart := None |}.

Definition builtinDrivers : list Driver :=
  [claude_driver; codex_driver; gemini_driver; grok_driver; agy_driver;
   generic_driver (Generic.mkGenericDriver "" "" (ro_IdleThreshold opts))].

(** [RegisterDefaults], and the shell driver. *)
Definition registered : list Driver := builtinDrivers ++ [shell_driver].

Definition fallback (command : string) : Driver :=
  let name := FirstToken command in
  generic_driver (Generic.mkGenericDriver name name (ro_IdleThreshold opts)).

#[local] Instance builtin_drivers : DriverSys := {|
  driverRegistry := list_to_map ((fun d => (drv_Name d, d)) <$> registered);
  defaultFactory := Some (fun command => Some (fallback command)) |}.

End Registry.

(** * host/driver: a concrete environment

    Parsers, files and a home directory under which witnesses run the drivers: a hook
    payload is read as the name of its event. *)

Module DriverDemo.

#[export] Instance demo_env : DriverEnv := {|
  json_HookPayload := fun p => zero_hook <| hp_SessionID := "claude-1" |> <| hp_HookEventName := p |>
                                         <| hp_Prompt := "do it" |>;
  json_geminiHookPayload := fun p => zero_gemini_hook <| ghp_SessionID := "gemini-1" |>
                                                      <| ghp_HookEventName := p |>;
  json_agyHookPayload := fun _ => None;
  json_toolLogEntry := fun _ => Some "{}";
  os_Stat := fun _ => StatOK 1;
  os_Getenv := fun _ => "";
  os_UserHomeDir := inr "/home/u";
  sqlite_query := fun _ _ _ _ => inr [];
  fmt_q := fun s => s;
  operands_late := true |}.

#[export] Instance demo_range : GoMapRange := canonical_range.

Definition demo_opts : RegisterOptions := mkRegisterOptions "/home/u" 0 "less" "bash".

Definition root : FrameContext := mkFrameContext "f1" "/work" "claude" zero_options 1000 true.
Definition child : FrameContext := mkFrameContext "f2" "/work" "claude" zero_options 1000 false.

End DriverDemo.
