(* ===== verification/DriverFacts.v ===== *)
(** * host/driver: what the built-in drivers emit

    Every effect of a built-in driver is of one of the kinds the reducer's theorems
    assume of drivers ([PoliteDrivers]), so those theorems hold of the host with its
    real drivers; and only the root frame of a session has effects at all. *)

From Stdlib Require Import String.
From S2P Require Import Prelude GoStd GoStrings ShellArgs HostState HostFrames HostDriverFacts.
From S2P Require Import DriverTypes DriverCommon DriverToolLog DriverBasic DriverClaude DriverGemini.
From S2P Require Import DriverCodex DriverRegistry.

Definition polite (l : list Effect) : Prop := Forall (fun e => driver_effect e = true) l.

Lemma polite_nil : polite [].
Proof. constructor. Qed.

Lemma polite_app l k : polite l -> polite k -> polite (l ++ k).
Proof. intros. by apply Forall_app. Qed.

Lemma polite_one e : driver_effect e = true -> polite [e].
Proof. by repeat constructor. Qed.

Lemma polite_cons e l : driver_effect e = true -> polite l -> polite (e :: l).
Proof. by constructor. Qed.

Create HintDb polite.
#[export] Hint Resolve polite_nil polite_app polite_one polite_cons : polite.

(** Splits the conditions of a handler and closes the leaves. *)
Ltac branch :=
  repeat match goal with
  | |- polite (snd (if ?b then _ else _)) => destruct b
  | |- polite (snd (match ?x with _ => _ end)) => destruct x
  | |- polite (if ?b then _ else _) => destruct b
  | |- polite (match ?x with _ => _ end) => destruct x
  | |- polite (snd (let '(_, _) := ?x in _)) => destruct x eqn:?
  end; simpl; auto with polite.

Lemma HandleTick_polite c now watched project : polite (HandleTick c now watched project).2.
Proof. unfold HandleTick. branch. Qed.

Lemma enqueueSummaryJob_polite effs inFlight prompt :
  polite effs -> polite (enqueueSummaryJob effs inFlight prompt).1.
Proof. unfold enqueueSummaryJob. intros. destruct (_ || _); simpl; auto with polite. Qed.

#[export] Hint Resolve HandleTick_polite enqueueSummaryJob_polite : polite.

Ltac pol := simpl; auto with polite.

Ltac name_pair :=
  match goal with
  | |- context [match ?x with (_, _) => _ end] =>
    let H := fresh "Hp" in assert (polite x.2) as H by auto with polite;
    destruct x as [? ?]; simpl in H
  end.

Section Polite.
Context `{GoMapRange} `{DriverEnv}.

Lemma Generic_polite d prev ctx ev : polite (Generic.Step d prev ctx ev).2.
Proof.
  unfold Generic.Step. destruct (_ && _); [pol|]. destruct ev; simpl; pol.
  - destruct (_ && _); [pol|]. by name_pair.
  - destruct (applySummaryJobResult _ _ _); pol.
  - destruct Kind; pol.
Qed.

Lemma Shell_polite prev ctx ev : polite (Shell.Step prev ctx ev).2.
Proof.
  unfold Shell.Step. destruct (_ && _); [pol|]. destruct ev; simpl; pol.
  destruct (_ && _); [pol|]. by name_pair.
Qed.

Lemma Agy_polite prev ctx ev : polite (Agy.Step prev ctx ev).2.
Proof.
  unfold Agy.Step. destruct ev; pol.
  all: match goal with |- context [Generic.Step ?d ?p ?c ?e] => pose proof (Generic_polite d p c e) as Hp;
    by destruct (Generic.Step d p c e) end.
Qed.

Lemma Grok_polite prev ctx ev : polite (Grok.Step prev ctx ev).2.
Proof.
  unfold Grok.Step. destruct (negb _); [pol|]. destruct ev; pol.
  by name_pair.
Qed.

Section ClaudePolite.
Variable d : Claude.ClaudeDriver.

Lemma hookLogEffects_polite hp : polite (Claude.hookLogEffects hp).
Proof. unfold Claude.hookLogEffects. destruct (bool_decide _); pol. Qed.

Lemma parseTranscript_polite cs path : polite (Claude.parseTranscript cs path).2.
Proof. unfold Claude.parseTranscript. destruct (cs_TranscriptInFlight cs); pol. Qed.

Lemma parseKnownTranscript_polite cs : polite (Claude.parseKnownTranscript d cs).2.
Proof. unfold Claude.parseKnownTranscript. destruct (bool_decide _); [pol|]. apply parseTranscript_polite. Qed.

#[local] Hint Resolve hookLogEffects_polite parseTranscript_polite parseKnownTranscript_polite : polite.

Lemma handleSessionStart_polite cs ctx hp now : polite (Claude.handleSessionStart d cs ctx hp now).2.
Proof.
  unfold Claude.handleSessionStart. cbv zeta. set (cs1 := Claude.set_status _ _ _). clearbody cs1.
  set (x := if _ || _ then _ else _). assert (polite x.2) as Hx.
  { unfold x. destruct (_ || _); [pol|]. name_pair. pol. }
  destruct x as [cs2 effs]. simpl in Hx. destruct (_ && _); simpl; pol.
Qed.

Lemma handleStateChange_polite cs hp st now : polite (Claude.handleStateChange d cs hp st now).2.
Proof. unfold Claude.handleStateChange. cbv zeta. name_pair. pol. Qed.

Lemma handleUserPromptSubmit_polite cs hp now : polite (Claude.handleUserPromptSubmit d cs hp now).2.
Proof.
  unfold Claude.handleUserPromptSubmit. cbv zeta.
  match goal with |- context [enqueueSummaryJob ?a ?b ?c] =>
    assert (polite (enqueueSummaryJob a b c).1) as He by pol;
    destruct (enqueueSummaryJob a b c) as [effs inFlight] end.
  name_pair. simpl in *. pol.
Qed.

Lemma emitToolLog_polite cs hp now k : polite (Claude.emitToolLog cs hp now k).2.
Proof.
  unfold Claude.emitToolLog. cbv zeta.
  match goal with |- context [match ?x with (_, _) => _ end] => destruct x as [[[cs' kind] ms] input] end.
  destruct (bool_decide _); [pol|]. destruct (classifyClaudeTool _ _ _). pol.
Qed.

Lemma handleToolLog_polite cs hp now : polite (Claude.handleToolLog cs hp now).2.
Proof.
  unfold Claude.handleToolLog. cbv zeta.
  repeat (destruct (bool_decide _ || bool_decide _) || destruct (negb _) || destruct (bool_decide _));
    simpl; auto using emitToolLog_polite with polite.
Qed.

Lemma emitClaudeTurnBoundary_polite cs now failure :
  polite (Claude.emitClaudeTurnBoundary cs now failure).2.
Proof. unfold Claude.emitClaudeTurnBoundary. destruct (bool_decide _); pol. Qed.

#[local] Hint Resolve handleSessionStart_polite handleStateChange_polite handleUserPromptSubmit_polite
  handleToolLog_polite emitClaudeTurnBoundary_polite : polite.

Lemma handleRootHook_polite cs hp ts : polite (Claude.handleRootHook d cs hp ts).2.
Proof.
  unfold Claude.handleRootHook. cbv zeta. do 4 (destruct (bool_decide _); [pol|]).
  name_pair. destruct (bool_decide (Claude.deriveHookState hp = "")); [pol|]. name_pair.
  match goal with |- context [match ?x with (_, _) => _ end] => assert (polite x.2) as Hb;
    [|destruct x as [? ?]; simpl in Hb] end.
  { repeat (destruct (bool_decide _)); pol. }
  simpl. pol.
Qed.

Lemma handleHook_polite cs ctx ts r p : polite (Claude.handleHook d cs ctx ts r p).2.
Proof.
  unfold Claude.handleHook. cbv zeta. destruct (bool_decide _); [pol|].
  destruct (negb _); [destruct (Claude.stale _ _); pol|].
  destruct (bool_decide _); [apply handleSessionStart_polite|].
  destruct (Claude.stale _ _); [pol|]. apply handleRootHook_polite.
Qed.

#[local] Hint Resolve handleHook_polite : polite.

Lemma Claude_polite prev ctx ev : polite (Claude.Step d prev ctx ev).2.
Proof.
  unfold Claude.Step. cbv zeta. destruct (_ && _); [pol|].
  destruct ev; simpl; pol.
  - by name_pair.
  - by name_pair.
  - unfold Claude.handleTranscriptChanged. cbv zeta. destruct (bool_decide (_ = "")); [pol|].
    destruct (bool_decide _); name_pair; pol.
  - destruct Kind; pol.
  - unfold Claude.handleStatusLineClick. destruct (_ || _); pol.
Qed.
End ClaudePolite.


Lemma watchGemini_polite gs : polite (Gemini.watchGeminiTranscript gs).2.
Proof. unfold Gemini.watchGeminiTranscript. cbv zeta. destruct (_ || _); pol. Qed.

Lemma startGemini_polite gs : polite (Gemini.startGeminiTranscriptParse gs).2.
Proof. unfold Gemini.startGeminiTranscriptParse. cbv zeta. destruct (_ || _); pol. Qed.

#[local] Hint Resolve watchGemini_polite startGemini_polite : polite.

Lemma emitGeminiToolLog_polite gs hp now effs :
  polite effs -> polite (Gemini.emitGeminiToolLog gs hp now effs).2.
Proof.
  intros He. unfold Gemini.emitGeminiToolLog. cbv zeta.
  match goal with |- context [match ?x with (_, _) => _ end] => destruct x as [[[gs' kind] ms] input] end.
  destruct (_ || _); pol.
Qed.

Lemma handleGeminiHookEvent_polite gs hp ts effs :
  polite effs -> polite (Gemini.handleGeminiHookEvent gs hp ts effs).2.
Proof.
  intros He. unfold Gemini.handleGeminiHookEvent. cbv zeta.
  destruct (bool_decide _). { name_pair. destruct (_ && _); pol. }
  destruct (bool_decide _).
  { match goal with |- context [enqueueSummaryJob ?a ?b ?c] =>
      assert (polite (enqueueSummaryJob a b c).1) as Hj by auto with polite;
      destruct (enqueueSummaryJob a b c) end. done. }
  destruct (bool_decide _); [done|]. destruct (bool_decide _); [by apply emitGeminiToolLog_polite|].
  destruct (bool_decide _). { name_pair. pol. }
  destruct (bool_decide _); [by destruct (bool_decide _)|]. by destruct (bool_decide _).
Qed.

Lemma Gemini_polite prev ctx ev : polite (Gemini.Step prev ctx ev).2.
Proof.
  unfold Gemini.Step. cbv zeta. destruct (_ && _); [pol|]. destruct ev; try (pol; done).
  - match goal with |- context [Gemini.handleHook ?a ?b ?c ?d ?e] =>
      assert (polite (Gemini.handleHook a b c d e).2) as Hh; [|by destruct (Gemini.handleHook a b c d e)] end.
    unfold Gemini.handleHook. cbv zeta. destruct (applyHookPreamble _ _ _ _) as [c|]; [|pol].
    destruct (negb _); [pol|]. name_pair.
    match goal with |- context [Gemini.handleGeminiHookEvent ?a ?b ?c ?e] =>
      pose proof (handleGeminiHookEvent_polite a b c e) as Hg;
      destruct (Gemini.handleGeminiHookEvent a b c e) end.
    simpl in *. destruct (bool_decide _); auto with polite.
  - by name_pair.
  - unfold Gemini.handleTranscriptChanged. destruct (_ && _); [pol|]. name_pair. name_pair. pol.
  - destruct Kind; pol.
Qed.

(** *** Codex *)

Lemma watchCodex_polite cs : polite (Codex.watchCodexTranscript cs).2.
Proof. unfold Codex.watchCodexTranscript. cbv zeta. destruct (_ || _); pol. Qed.

Lemma startCodex_polite cs : polite (Codex.startCodexTranscriptParse cs).2.
Proof. unfold Codex.startCodexTranscriptParse. cbv zeta. destruct (_ || _); pol. Qed.

#[local] Hint Resolve watchCodex_polite startCodex_polite : polite.

Lemma applySessionStart_polite cs ctx now effs :
  polite effs -> polite (Codex.applySessionStart cs ctx now effs).2.
Proof.
  intros He. unfold Codex.applySessionStart. cbv zeta. name_pair. destruct (_ && _); pol.
Qed.

Lemma applyMetadataPrompt_polite cs prompt now effs :
  polite effs -> polite (Codex.applyMetadataPrompt cs prompt now effs).2.
Proof.
  intros He. unfold Codex.applyMetadataPrompt. cbv zeta. destruct (bool_decide _); [done|].
  match goal with |- context [enqueueSummaryJob ?a ?b ?c] =>
    assert (polite (enqueueSummaryJob a b c).1) as Hj by auto with polite;
    destruct (enqueueSummaryJob a b c) end.
  name_pair. pol.
Qed.

Lemma codex_emitToolLog_polite cs a b c i now k effs :
  polite effs -> polite (Codex.emitToolLog cs a b c i now k effs).2.
Proof.
  intros He. unfold Codex.emitToolLog. cbv zeta.
  match goal with |- context [match ?x with (_, _) => _ end] => destruct x as [[[cs' kind] ms] input] end.
  destruct (_ || _); [done|]. destruct (classifyCodexTool _ _ _). pol.
Qed.

#[local] Hint Resolve applySessionStart_polite applyMetadataPrompt_polite codex_emitToolLog_polite : polite.

Lemma applySubsystemKind_polite cs ctx kind ts p effs :
  polite effs -> polite (Codex.applySubsystemKind cs ctx kind ts p effs).2.
Proof.
  intros He. unfold Codex.applySubsystemKind. cbv zeta. destruct kind; try (pol; done).
  - unfold Codex.emitCodexTurnBoundary. simpl. do 2 (destruct (bool_decide _); [pol|]). pol.
  - unfold Codex.handleSubsystemToolCompleted. destruct (sp_Tool p); [|done].
    destruct (bool_decide _); pol.
  - unfold Codex.applySubsystemMetadata. pol.
Qed.

Lemma Codex_polite prev ctx ev : polite (Codex.Step prev ctx ev).2.
Proof.
  unfold Codex.Step. cbv zeta. destruct (_ && _); [pol|]. destruct ev; try (pol; done).
  - unfold Codex.handleSubsystem. cbv zeta. destruct (negb _); [pol|]. name_pair.
    match goal with |- context [Codex.applySubsystemKind ?a ?b ?c ?d ?e ?f] =>
      pose proof (applySubsystemKind_polite a b c d e f) as Hg;
      destruct (Codex.applySubsystemKind a b c d e f) end.
    simpl in Hg. name_pair. pol.
  - by name_pair.
  - unfold Codex.handleTranscriptChanged. destruct (_ && _); [pol|]. name_pair. name_pair. pol.
Qed.

(** *** The registry *)

Variable opts : RegisterOptions.
#[local] Existing Instance builtin_drivers.

(** A property of the drivers that hold for the registered ones and for any generic one. *)
Lemma GetDriver_cases (P : Driver -> Prop) command drv :
  (forall d, d ∈ registered opts -> P d) -> (forall d, P (generic_driver d)) ->
  GetDriver (H := builtin_drivers opts) command = Some drv -> P drv.
Proof.
  intros Hr Hg. unfold GetDriver. destruct (driverRegistry !! _) as [d|] eqn:Hd.
  - intros [= <-]. apply Hr. apply elem_of_list_to_map_2 in Hd.
    apply list_elem_of_fmap in Hd as (d' & [= _ ->] & Hin). done.
  - intros [= <-]. apply Hg.
Qed.

Lemma registered_cases (P : Driver -> Prop) :
  P (claude_driver opts) -> P codex_driver -> P gemini_driver -> P grok_driver -> P agy_driver ->
  (forall d, P (generic_driver d)) -> P (shell_driver opts) ->
  forall command drv, GetDriver (H := builtin_drivers opts) command = Some drv -> P drv.
Proof.
  intros ??????? command drv. apply GetDriver_cases; [|done].
  intros d. unfold registered, builtinDrivers. rewrite elem_of_app, !elem_of_cons, elem_of_nil. naive_solver.
Qed.

#[export] Instance builtin_polite : PoliteDrivers (H := builtin_drivers opts).
Proof.
  split.
  - intros command drv ds ctx ev. revert command drv.
    apply (registered_cases (fun drv => polite (drv_Step drv ds ctx ev).2)); simpl.
    + apply Claude_polite.
    + apply Codex_polite.
    + apply Gemini_polite.
    + apply Grok_polite.
    + apply Agy_polite.
    + intros d. apply Generic_polite.
    + apply Shell_polite.
  - intros command drv bootstrap ds ctx now. revert command drv.
    apply (registered_cases (fun drv => drv_BootstrapSessionStart drv = Some bootstrap ->
      polite (bootstrap ds ctx now).2)); try done.
    intros [= <-]. simpl. unfold Codex.BootstrapSessionStart. name_pair. auto with polite.
Qed.

Lemma GetDriver_claude : GetDriver (H := builtin_drivers opts) "claude" = Some (claude_driver opts).
Proof.
  unfold GetDriver. cbn [driverRegistry builtin_drivers].
  change (FirstToken "claude") with (drv_Name (claude_driver opts)).
  unfold registered, builtinDrivers. rewrite fmap_app, fmap_cons. cbn [app list_to_map foldr].
  by rewrite lookup_insert_eq.
Qed.

(** *** Frames other than the root *)

Definition silent (step : DriverState -> FrameContext -> DriverEvent -> DriverState * list Effect) : Prop :=
  forall s ctx ev, fc_IsRoot ctx = false -> (step s ctx ev).2 = [].

Ltac silent_step H :=
  cbv zeta; rewrite H; cbn [negb andb];
  match goal with |- context [default ?a ?b] => generalize (default a b) end; intros st.

Lemma generic_silent d : silent (drv_Step (generic_driver d)).
Proof.
  intros s ctx ev Hr. cbn [drv_Step generic_driver lift snd]. unfold Generic.Step. silent_step Hr.
  destruct ev; reflexivity.
Qed.

Lemma agy_silent : silent (drv_Step agy_driver).
Proof.
  intros s ctx ev Hr. cbn [drv_Step agy_driver lift snd]. unfold Agy.Step. cbv zeta.
  generalize (default (Agy.NewState 0) (as_agy s)). intros a.
  pose proof (generic_silent Agy.generic (Some (DSGeneric (ag_Generic a))) ctx ev Hr) as Hg.
  cbn [drv_Step generic_driver lift snd] in Hg.
  destruct ev; try reflexivity; destruct (Generic.Step _ _ _ _); exact Hg.
Qed.

Lemma claude_silent : silent (drv_Step (claude_driver opts)).
Proof.
  intros s ctx ev Hr. cbn [drv_Step claude_driver lift snd]. unfold Claude.Step. silent_step Hr.
  destruct ev; try reflexivity. cbn [Generic.is_hook negb].
  unfold Claude.handleHook. cbv zeta. rewrite Hr. destruct (bool_decide _); [reflexivity|]. cbn [negb].
  destruct (Claude.stale _ _); reflexivity.
Qed.

Lemma gemini_silent : silent (drv_Step gemini_driver).
Proof.
  intros s ctx ev Hr. cbn [drv_Step gemini_driver lift snd]. unfold Gemini.Step. silent_step Hr.
  destruct ev; try reflexivity. cbn [Generic.is_hook negb].
  unfold Gemini.handleHook. cbv zeta. rewrite Hr. destruct (applyHookPreamble _ _ _ _); reflexivity.
Qed.

Lemma codex_silent : silent (drv_Step codex_driver).
Proof.
  intros s ctx ev Hr. cbn [drv_Step codex_driver lift snd]. unfold Codex.Step. silent_step Hr.
  destruct ev; try reflexivity. cbn [Codex.is_subsystem negb].
  unfold Codex.handleSubsystem. cbv zeta. rewrite Hr. reflexivity.
Qed.

Lemma shell_silent : silent (drv_Step (shell_driver opts)).
Proof.
  intros s ctx ev Hr. cbn [drv_Step shell_driver lift snd]. unfold Shell.Step. silent_step Hr.
  destruct ev; reflexivity.
Qed.

Lemma grok_silent : silent (drv_Step grok_driver).
Proof.
  intros s ctx ev Hr. cbn [drv_Step grok_driver lift snd]. unfold Grok.Step. silent_step Hr. reflexivity.
Qed.

Lemma builtin_silent command drv :
  GetDriver (H := builtin_drivers opts) command = Some drv -> silent (drv_Step drv).
Proof.
  revert command drv. apply (registered_cases (fun drv => silent (drv_Step drv)));
    auto using claude_silent, codex_silent, gemini_silent, grok_silent, agy_silent, generic_silent, shell_silent.
Qed.

(** What the built-in drivers may ask for.  Whatever command the registry is asked
    for, every effect of the driver it gives is a job, a log line, a file watch, a
    pushed frame, a notification or a snapshot request, never a change of the session
    graph or a reply; and only the root frame of a session has effects at all. *)
Theorem builtin_effects command drv s ctx ev :
  GetDriver (H := builtin_drivers opts) command = Some drv ->
  Forall (fun e => driver_effect e = true) (drv_Step drv s ctx ev).2 /\
  (fc_IsRoot ctx = false -> (drv_Step drv s ctx ev).2 = []).
Proof.
  intros Hd. split; [by apply (polite_step (H := builtin_drivers opts) command)|].
  by apply (builtin_silent command).
Qed.

End Polite.

Module FactsDemo.
Import DriverDemo.

(** A Claude session in its root frame and in another. *)
Lemma builtin_effects_witness :
  let start ctx := drv_Step (claude_driver demo_opts) None ctx (DEvHook "h" 5 "s1" "SessionStart") in
  (start root).2 <> [] /\ Forall (fun e => driver_effect e = true) (start root).2 /\ (start child).2 = [].
Proof.
  intros start. pose proof (GetDriver_claude demo_opts) as Hd. split.
  - intros Hn. apply (f_equal (@length _)) in Hn. vm_compute in Hn. discriminate.
  - destruct (builtin_effects demo_opts _ _ None root (DEvHook "h" 5 "s1" "SessionStart") Hd) as [Hp _].
    destruct (builtin_effects demo_opts _ _ None child (DEvHook "h" 5 "s1" "SessionStart") Hd) as [_ Hs].
    split; [exact Hp|exact (Hs eq_refl)].
Defined.

End FactsDemo.
