(* ===== verification/DriverJobs.v ===== *)
(** * host/driver: jobs in flight

    The drivers keep one flag per kind of job (summary, transcript, branch) so that a
    job is not started while another of its kind is running.  The flags are shown to
    do this over any run of any built-in driver. *)

From Stdlib Require Import String.
From S2P Require Import Prelude GoStd GoStrings ShellArgs HostState.
From S2P Require Import DriverTypes DriverCommon DriverToolLog DriverBasic DriverClaude DriverGemini.
From S2P Require Import DriverCodex DriverRegistry DriverFacts.

Inductive JobKind := KSummary | KTranscript | KBranch.

#[export] Instance JobKind_eq_dec : EqDecision JobKind.
Proof. solve_decision. Defined.

Definition kind_of_input (i : BuiltinJobInput) : JobKind :=
  match i with
  | SummaryCommandInput _ => KSummary
  | BranchDetectInput _ => KBranch
  | _ => KTranscript
  end.

Definition kind_of_result (r : BuiltinJobResult) : JobKind :=
  match r with
  | SummaryCommandResult _ => KSummary
  | BranchDetectResult_ _ => KBranch
  | _ => KTranscript
  end.

Definition starts (k : JobKind) (e : Effect) : bool :=
  match e with
  | EffStartJob _ (JobDriver i) => bool_decide (kind_of_input i = k)
  | _ => false
  end.

(** How many jobs of a kind the effects start. *)
Definition started (k : JobKind) (effs : list Effect) : Z :=
  Z.of_nat (length (base.filter (fun e => starts k e = true) effs)).

(** 1 when the event is the result of a job of the kind. *)
Definition returned (k : JobKind) (ev : DriverEvent) : Z :=
  match ev with
  | DEvJobResult (ResultDriver r) _ _ => if bool_decide (kind_of_result r = k) then 1 else 0
  | _ => 0
  end.

Lemma started_nil k : started k [] = 0.
Proof. done. Qed.

Lemma started_app k l1 l2 : started k (l1 ++ l2) = started k l1 + started k l2.
Proof. unfold started. rewrite filter_app, length_app. lia. Qed.

Lemma started_cons k e l : started k (e :: l) = (if starts k e then 1 else 0) + started k l.
Proof.
  unfold started. rewrite filter_cons. destruct (starts k e) eqn:He.
  - rewrite decide_True by done. simpl length. lia.
  - rewrite decide_False by done. lia.
Qed.

Lemma returned_nonneg k ev : 0 <= returned k ev.
Proof. unfold returned. repeat case_match; lia. Qed.

(** ** The flags *)

Class InFlight (S : Type) := in_flight : JobKind -> S -> bool.

#[export] Instance common_flags : InFlight CommonState := fun k c =>
  match k with
  | KSummary => c_SummaryInFlight c | KBranch => c_BranchInFlight c | KTranscript => false
  end.

#[export] Instance generic_flags : InFlight GenericState := fun k s => in_flight k (gn_Common s).
#[export] Instance shell_flags : InFlight ShellState := fun k s => in_flight k (shl_Common s).
#[export] Instance agy_flags : InFlight AgyState := fun k s => in_flight k (ag_Generic s).
#[export] Instance grok_flags : InFlight GrokState := fun k s => in_flight k (gk_Common s).
#[export] Instance claude_flags : InFlight ClaudeState := fun k s =>
  match k with KTranscript => cs_TranscriptInFlight s | _ => in_flight k (cs_Common s) end.
#[export] Instance codex_flags : InFlight CodexState := fun k s =>
  match k with KTranscript => xs_TranscriptInFlight s | _ => in_flight k (xs_Common s) end.
#[export] Instance gemini_flags : InFlight GeminiState := fun k s =>
  match k with KTranscript => gm_TranscriptInFlight s | _ => in_flight k (gm_Common s) end.

Definition flagZ {S} `{InFlight S} (k : JobKind) (s : S) : Z := if in_flight k s then 1 else 0.

(** A step pays for the jobs it starts by raising the flag, and lowers it by at most
    [paid]. *)
Definition balanced {S} `{InFlight S} (k : JobKind) (s : S) (r : S * list Effect) (paid : Z) : Prop :=
  started k r.2 + flagZ k s <= flagZ k r.1 + paid.

Lemma balanced_same {S} `{InFlight S} k (s s' : S) :
  in_flight k s' = in_flight k s -> balanced k s (s', []) 0.
Proof. unfold balanced, flagZ. simpl. intros ->. rewrite started_nil. lia. Qed.

Lemma quiet_effect {S} `{InFlight S} k (s s' : S) l :
  in_flight k s' = in_flight k s -> started k l = 0 -> balanced k s (s', l) 0.
Proof. unfold balanced, flagZ. simpl. intros -> ->. lia. Qed.

Lemma balanced_weaken {S} `{InFlight S} k (s : S) r paid :
  balanced k s r 0 -> 0 <= paid -> balanced k s r paid.
Proof. unfold balanced. lia. Qed.

(** A first step, then one whose effects come after (or before) the first's. *)
Lemma balanced_seq {S} `{InFlight S} k (s s1 s2 : S) l1 l2 l paid :
  balanced k s (s1, l1) 0 -> balanced k s1 (s2, l2) paid -> started k l = started k l1 + started k l2 ->
  balanced k s (s2, l) paid.
Proof. unfold balanced. simpl. lia. Qed.

(** ** The common state *)

Lemma setResolvedStatus_flags k c st t : in_flight k (setResolvedStatus c st t) = in_flight k c.
Proof. unfold setResolvedStatus. destruct (bool_decide _), (IsZero t); by destruct k. Qed.

Lemma ResolveStatus_flags k c : in_flight k (ResolveStatus c) = in_flight k c.
Proof.
  unfold ResolveStatus. cbv zeta.
  repeat match goal with |- context [if ?b then _ else _] => destruct b end;
    rewrite ?setResolvedStatus_flags; done.
Qed.

Lemma ObserveStatus_flags k c src st t : in_flight k (ObserveStatus c src st t) = in_flight k c.
Proof. unfold ObserveStatus. cbv zeta. rewrite ResolveStatus_flags. by destruct k. Qed.

Lemma ApplyCommandExited_flags k c code ts : in_flight k (ApplyCommandExited c code ts) = in_flight k c.
Proof.
  unfold ApplyCommandExited. cbv zeta.
  assert (forall c', in_flight k (c' <| c_StatusChangedAt := ts |>) = in_flight k c') as Hts
    by (intros; by destruct k).
  destruct (code =? 0), (IsZero ts); rewrite ?Hts, ?ObserveStatus_flags; by destruct k.
Qed.

Lemma ApplyWorktreeResolved_flags k c dir name : in_flight k (ApplyWorktreeResolved c dir name) = in_flight k c.
Proof. unfold ApplyWorktreeResolved. destruct (bool_decide _); by destruct k. Qed.

Lemma HandleTick_balanced k c now watched project : balanced k c (HandleTick c now watched project) 0.
Proof.
  unfold HandleTick. cbv zeta.
  set (c1 := if bool_decide _ then _ else _).
  assert (in_flight k c1 = in_flight k c) as H1 by (unfold c1; destruct (bool_decide _); by destruct k).
  clearbody c1. destruct (_ || _); [by apply balanced_same|].
  destruct watched; [|by apply balanced_same].
  destruct (_ && _) eqn:Hb; [|by apply balanced_same].
  apply andb_true_iff in Hb as [[_ Hb]%andb_true_iff _]. apply negb_true_iff in Hb.
  unfold balanced, flagZ. rewrite <- H1. cbn [fst snd]. rewrite started_cons, started_nil.
  unfold in_flight, common_flags. destruct k; simpl; rewrite ?Hb; repeat case_match; try lia; done.
Qed.

Lemma applySummaryJobResult_balanced k c result err c' :
  applySummaryJobResult c result err = Some c' -> forall now,
  balanced k c (c', []) (returned k (DEvJobResult result err now)).
Proof.
  unfold applySummaryJobResult. destruct result as [|[]]; try done. intros [= <-] now.
  unfold balanced, flagZ, in_flight, common_flags. simpl. rewrite started_nil.
  destruct (_ || _), k; simpl; repeat case_match; try lia; done.
Qed.

Lemma ApplyBranchResult_balanced k c r err now :
  balanced k c (ApplyBranchResult c r err now, []) (returned k (DEvJobResult (ResultDriver (BranchDetectResult_ r)) err now)).
Proof.
  unfold ApplyBranchResult, balanced, flagZ, in_flight, common_flags. cbv zeta. simpl.
  rewrite started_nil.
  destruct (_ || _), k; simpl; repeat case_match; try lia; done.
Qed.

Lemma branch_result_balanced k c result err now :
  applySummaryJobResult c result err = None ->
  balanced k c (Generic.branch_result c result err now, []) (returned k (DEvJobResult result err now)).
Proof.
  intros Hn. unfold Generic.branch_result.
  destruct result as [r|[]]; try done; try (apply balanced_weaken; [by apply balanced_same|apply returned_nonneg]).
  apply ApplyBranchResult_balanced.
Qed.

(** ** Drivers without transcripts *)

Ltac unchanged := apply balanced_weaken; [by apply balanced_same|apply returned_nonneg].

Section Jobs.
Context `{GoMapRange} `{DriverEnv}.

Lemma Generic_balanced k d prev ctx ev :
  balanced k (default (Generic.NewState d 0) (as_generic prev)) (Generic.Step d prev ctx ev) (returned k ev).
Proof.
  unfold Generic.Step. cbv zeta. set (gs := default _ _). clearbody gs.
  destruct (_ && _); [unchanged|].
  assert (forall c effs paid, balanced k (gn_Common gs) (c, effs) paid ->
    balanced k gs (gs <| gn_Common := c |>, effs) paid) as Hlift by done.
  destruct ev; try unchanged.
  - destruct (_ && _); [unchanged|].
    pose proof (HandleTick_balanced k (gn_Common gs) Now Watched Project) as Ht.
    destruct (HandleTick _ _ _ _). by apply Hlift.
  - destruct (applySummaryJobResult _ _ _) as [c|] eqn:Ha; apply Hlift.
    + by eapply applySummaryJobResult_balanced.
    + by apply branch_result_balanced.
  - destruct Kind; try unchanged. apply Hlift, balanced_same, ObserveStatus_flags.
  - apply Hlift, balanced_same, ApplyWorktreeResolved_flags.
  - apply Hlift, balanced_same, ApplyCommandExited_flags.
Qed.

Lemma Shell_balanced k prev ctx ev :
  balanced k (default (Shell.NewState 0) (as_shell prev)) (Shell.Step prev ctx ev) (returned k ev).
Proof.
  unfold Shell.Step. cbv zeta. set (ss := default _ _). clearbody ss.
  destruct (_ && _); [unchanged|].
  assert (forall c effs paid, balanced k (shl_Common ss) (c, effs) paid ->
    balanced k ss (ss <| shl_Common := c |>, effs) paid) as Hlift by done.
  destruct ev; try unchanged.
  - destruct (_ && _); [unchanged|].
    pose proof (HandleTick_balanced k (shl_Common ss) Now Watched Project) as Ht.
    destruct (HandleTick _ _ _ _). by apply Hlift.
  - unfold Shell.applyJobResult. destruct (applySummaryJobResult _ _ _) as [c|] eqn:Ha; apply Hlift.
    + by eapply applySummaryJobResult_balanced.
    + by apply branch_result_balanced.
  - apply balanced_weaken; [|apply returned_nonneg]. apply balanced_same.
    assert (forall x st t, in_flight k (Shell.setShellStatus x st t) = in_flight k x) as Hs.
    { intros x st t. unfold Shell.setShellStatus. cbv zeta. destruct (bool_decide _); by destruct k. }
    unfold Shell.applyShellPromptEvent. destruct Phase; rewrite ?Hs; done.
  - apply Hlift, balanced_same, ApplyWorktreeResolved_flags.
  - apply Hlift, balanced_same, ApplyCommandExited_flags.
Qed.

Lemma applyAgyHook_flags k a event ts payload :
  in_flight k (Agy.applyAgyHook a event ts payload) = in_flight k a.
Proof.
  assert (forall x st, in_flight k (Agy.observe x st ts) = in_flight k x) as Ho.
  { intros x st. apply ObserveStatus_flags. }
  unfold Agy.applyAgyHook. cbv zeta. destruct (json_agyHookPayload payload) as [p|]; [|done].
  set (a1 := if bool_decide (ahp_ConversationID p = "") then _ else _).
  assert (in_flight k a1 = in_flight k a) as <- by (unfold a1; by destruct (bool_decide _)).
  clearbody a1. destruct (bool_decide _).
  { destruct (ahp_InvocationNum p); [destruct (_ && _)|]; rewrite ?Ho; done. }
  destruct (_ || _); [apply Ho|]. destruct (bool_decide _); [|done].
  destruct (from_option _ _ _); [done|]. destruct (ahp_FullyIdle p); rewrite ?Ho; done.
Qed.

Lemma Agy_balanced k prev ctx ev :
  balanced k (default (Agy.NewState 0) (as_agy prev)) (Agy.Step prev ctx ev) (returned k ev).
Proof.
  unfold Agy.Step. cbv zeta. set (a := default _ _). clearbody a.
  assert (forall ev', let r := Generic.Step Agy.generic (Some (DSGeneric (ag_Generic a))) ctx ev' in
    balanced k a (let '(next, effects) := r in (a <| ag_Generic := next |>, effects)) (returned k ev'))
    as Hgen.
  { intros ev'. pose proof (Generic_balanced k Agy.generic (Some (DSGeneric (ag_Generic a))) ctx ev') as Hb.
    simpl in *. by destruct (Generic.Step _ _ _ _). }
  destruct ev; try apply Hgen. apply balanced_same, applyAgyHook_flags.
Qed.

Lemma handleGrokTerminalSignal_flags k gs kind title st now :
  in_flight k (Grok.handleGrokTerminalSignal gs kind title st now) = in_flight k gs.
Proof.
  unfold Grok.handleGrokTerminalSignal. cbv zeta.
  assert (forall x src status, in_flight k (x <| gk_Common := ObserveStatus (gk_Common x) src status now |>)
    = in_flight k x) as Ho by (intros; apply ObserveStatus_flags).
  destruct kind; try done; try (by rewrite Ho).
  destruct (bool_decide _); [done|]. destruct (_ || _); [done|].
  destruct (existsb _ _); [by rewrite Ho|]. destruct (bool_decide _); [by rewrite Ho|done].
Qed.

Lemma Grok_balanced k prev ctx ev : operands_late = true ->
  balanced k (default (Grok.NewState 0) (as_grok prev)) (Grok.Step prev ctx ev) (returned k ev).
Proof.
  intros Hlate. unfold Grok.Step. cbv zeta. rewrite Hlate. set (gs := default _ _). clearbody gs.
  destruct (negb _); [unchanged|]. destruct ev; try unchanged.
  - pose proof (HandleTick_balanced k (ResolveStatus (gk_Common gs)) Now Watched Project) as Ht.
    cbn [gk_Common]. unfold balanced, flagZ in *. rewrite ResolveStatus_flags in Ht.
    change (gk_Common (gs <| gk_Common := ResolveStatus (gk_Common gs) |>)) with (ResolveStatus (gk_Common gs)).
    by destruct (HandleTick _ _ _ _).
  - apply balanced_same, handleGrokTerminalSignal_flags.
  - apply balanced_same, ApplyWorktreeResolved_flags.
  - apply balanced_same, ApplyCommandExited_flags.
Qed.

(** ** Claude *)

Section ClaudeJobs.
Variables (d : Claude.ClaudeDriver) (k : JobKind).
Implicit Types (cs : ClaudeState).

Lemma claude_lift cs c effs paid :
  balanced k (cs_Common cs) (c, effs) paid -> balanced k cs (Claude.with_common cs c, effs) paid.
Proof. unfold balanced, flagZ, in_flight, claude_flags. destruct k; simpl; try done. case_match; lia. Qed.

Lemma claude_common_flags cs c :
  in_flight k c = in_flight k (cs_Common cs) -> in_flight k (Claude.with_common cs c) = in_flight k cs.
Proof. unfold in_flight at 3 4, claude_flags. by destruct k. Qed.

Lemma set_status_flags cs st t : in_flight k (Claude.set_status cs st t) = in_flight k cs.
Proof. by destruct k. Qed.

Lemma absorb_flags cs hp : in_flight k (Claude.absorbIdentityFromHP cs hp) = in_flight k cs.
Proof.
  unfold Claude.absorbIdentityFromHP. cbv zeta.
  repeat match goal with |- context [if ?b then _ else _] => destruct b end; by destruct k.
Qed.

Lemma parseTranscript_balanced cs path : balanced k cs (Claude.parseTranscript cs path) 0.
Proof.
  unfold Claude.parseTranscript, balanced, flagZ, in_flight, claude_flags.
  destruct (cs_TranscriptInFlight cs) eqn:Hf; cbn [fst snd]; rewrite ?started_cons, started_nil;
    destruct k; simpl; rewrite ?Hf; repeat case_match; try lia; done.
Qed.

Lemma parseKnownTranscript_balanced cs : balanced k cs (Claude.parseKnownTranscript d cs) 0.
Proof.
  unfold Claude.parseKnownTranscript. cbv zeta. destruct (bool_decide _); [by apply balanced_same|].
  apply parseTranscript_balanced.
Qed.

Lemma started_log hp : started k (Claude.hookLogEffects hp) = 0.
Proof. unfold Claude.hookLogEffects. destruct (bool_decide _); [done|]. by rewrite started_cons. Qed.

(** A new watch, then a parse. *)
Lemma watch_balanced cs path :
  balanced k cs (let '(cs, job) := Claude.parseTranscript (cs <| cs_WatchedFile := path |>) path in
                 (cs, Claude.watch path :: job)) 0.
Proof.
  set (cs1 := cs <| cs_WatchedFile := path |>).
  assert (in_flight k cs1 = in_flight k cs) as H1 by (by destruct k). clearbody cs1.
  pose proof (parseTranscript_balanced cs1 path) as Hp.
  destruct (Claude.parseTranscript cs1 path) as [cs2 job].
  eapply balanced_seq; [by apply (balanced_same k cs cs1)|exact Hp|]. by rewrite started_cons.
Qed.

(** Raising the branch flag pays for the branch job. *)
Lemma branch_job_balanced (c : CommonState) target :
  c_BranchInFlight c = false ->
  balanced k c (c <| c_BranchInFlight := true |> <| c_BranchTarget := target |>,
    [startJob (BranchDetectInput target)]) 0.
Proof.
  intros Hf. unfold balanced, flagZ, in_flight, common_flags. cbn [fst snd].
  rewrite started_cons, started_nil. destruct k; simpl; rewrite ?Hf; repeat case_match; try lia; done.
Qed.

Lemma enqueueSummaryJob_balanced (c : CommonState) effs prompt :
  let '(effs', inFlight) := enqueueSummaryJob effs (c_SummaryInFlight c) prompt in
  started k effs' + flagZ k c <= started k effs + flagZ k (c <| c_SummaryInFlight := inFlight |>).
Proof.
  unfold enqueueSummaryJob. destruct (_ || _) eqn:Hb.
  - unfold flagZ, in_flight, common_flags. destruct k; simpl; lia.
  - apply orb_false_iff in Hb as [Hf _]. rewrite started_app, started_cons, started_nil.
    unfold flagZ, in_flight, common_flags. destruct k; simpl; rewrite ?Hf; repeat case_match; try lia; done.
Qed.

Lemma handleSessionStart_balanced cs ctx hp now :
  balanced k cs (Claude.handleSessionStart d cs ctx hp now) 0.
Proof.
  unfold Claude.handleSessionStart. cbv zeta. set (cs1 := Claude.set_status _ _ _).
  assert (in_flight k cs1 = in_flight k cs) as H1.
  { unfold cs1. rewrite set_status_flags. rewrite <- (absorb_flags cs hp). by destruct k. }
  clearbody cs1. set (x := if _ || _ then _ else _).
  assert (balanced k cs1 x 0) as Hx.
  { unfold x. destruct (_ || _); [by apply balanced_same|].
    apply watch_balanced. }
  destruct x as [cs2 effs]. assert (balanced k cs (cs2, effs ++ Claude.hookLogEffects hp) 0) as H2.
  { unfold balanced in *. simpl in *. rewrite started_app, started_log.
    unfold flagZ at 1. rewrite <- H1. fold (flagZ k cs1). lia. }
  destruct (_ && _) eqn:Hb; [|done].
  apply andb_true_iff in Hb as [_ Hb]. apply negb_true_iff in Hb.
  eapply balanced_seq; [exact H2|apply claude_lift, branch_job_balanced, Hb|apply started_app].
Qed.

Lemma handleStateChange_balanced cs hp st now : balanced k cs (Claude.handleStateChange d cs hp st now) 0.
Proof.
  unfold Claude.handleStateChange. cbv zeta. set (cs1 := match ParseStatus st with Some _ => _ | None => _ end).
  assert (in_flight k cs1 = in_flight k cs) as H1.
  { unfold cs1. rewrite <- (absorb_flags cs hp). by destruct (ParseStatus st), k. }
  clearbody cs1. pose proof (parseKnownTranscript_balanced cs1) as Hp.
  destruct (Claude.parseKnownTranscript _ _) as [cs2 job].
  eapply balanced_seq; [by apply (balanced_same k cs cs1)|exact Hp|].
  rewrite started_app, started_log, started_nil. done.
Qed.

Lemma handleUserPromptSubmit_balanced cs hp now : balanced k cs (Claude.handleUserPromptSubmit d cs hp now) 0.
Proof.
  unfold Claude.handleUserPromptSubmit. cbv zeta.
  set (cs1 := if bool_decide (hp_Prompt hp = "") then _ else _).
  assert (in_flight k cs1 = in_flight k cs) as H1.
  { unfold cs1. rewrite <- (absorb_flags cs hp). by destruct (bool_decide _), k. }
  clearbody cs1. set (prompt := formatSummaryPrompt _ _). clearbody prompt.
  pose proof (enqueueSummaryJob_balanced (cs_Common cs1) (Claude.hookLogEffects hp) prompt) as He.
  destruct (enqueueSummaryJob _ _ _) as [effs inFlight]. rewrite started_log in He.
  set (c2 := cs_Common cs1 <| c_SummaryInFlight := inFlight |>) in *.
  pose proof (parseKnownTranscript_balanced (Claude.with_common cs1 c2)) as Hp.
  destruct (Claude.parseKnownTranscript _ _) as [cs2 job].
  eapply balanced_seq; [by apply (balanced_same k cs cs1)| |reflexivity].
  eapply balanced_seq; [apply (claude_lift cs1 c2 effs 0)|exact Hp|apply started_app].
  unfold balanced. cbn [fst snd]. lia.
Qed.

Lemma emitToolLog_quiet cs hp now o :
  in_flight k (Claude.emitToolLog cs hp now o).1 = in_flight k cs /\
  started k (Claude.emitToolLog cs hp now o).2 = 0.
Proof.
  unfold Claude.emitToolLog. cbv zeta.
  match goal with |- context [match ?x with (_, _) => _ end] => set (t := x) end.
  assert (in_flight k t.1.1.1 = in_flight k cs) as Ht.
  { unfold t. destruct (bool_decide _); [done|]. destruct (cs_PendingTools cs !! _); by destruct k. }
  destruct t as [[[cs' kind] ms] input]. simpl in Ht. destruct (bool_decide _); [done|].
  destruct (classifyClaudeTool _ _ _). simpl. by rewrite started_cons.
Qed.

Lemma handleToolLog_quiet cs hp now :
  in_flight k (Claude.handleToolLog cs hp now).1 = in_flight k cs /\
  started k (Claude.handleToolLog cs hp now).2 = 0.
Proof.
  unfold Claude.handleToolLog. cbv zeta.
  destruct (bool_decide _). { destruct (_ || _); split; by destruct k. }
  destruct (bool_decide _).
  { destruct (negb _); [done|]. destruct (bool_decide _); split; by destruct k. }
  destruct (bool_decide _); [apply emitToolLog_quiet|].
  destruct (bool_decide _); [apply emitToolLog_quiet|done].
Qed.

Lemma boundary_quiet cs now failure :
  in_flight k (Claude.emitClaudeTurnBoundary cs now failure).1 = in_flight k cs /\
  started k (Claude.emitClaudeTurnBoundary cs now failure).2 = 0.
Proof.
  unfold Claude.emitClaudeTurnBoundary. cbv zeta.
  destruct (bool_decide _); split; by destruct k.
Qed.

Lemma handleRootHook_balanced cs hp ts : balanced k cs (Claude.handleRootHook d cs hp ts) 0.
Proof.
  unfold Claude.handleRootHook. cbv zeta. destruct (bool_decide _); [apply handleUserPromptSubmit_balanced|].
  destruct (bool_decide _); [apply quiet_effect; [done|apply started_log]|].
  destruct (bool_decide _); [apply quiet_effect; [by destruct k|apply started_log]|].
  destruct (bool_decide _); [apply quiet_effect; [by destruct k|apply started_log]|].
  destruct (handleToolLog_quiet cs hp ts) as [Hf Hs].
  destruct (Claude.handleToolLog cs hp ts) as [cs1 tl]. simpl in Hf, Hs.
  set (cs2 := if bool_decide (hp_HookEventName hp = "SessionEnd") then _ else _).
  assert (in_flight k cs2 = in_flight k cs) as H2.
  { rewrite <- Hf. unfold cs2. by destruct (bool_decide _), k. }
  clearbody cs2. destruct (bool_decide _).
  { apply quiet_effect; [done|]. rewrite started_app, started_log. lia. }
  pose proof (handleStateChange_balanced cs2 hp (Claude.deriveHookState hp) ts) as Hc.
  destruct (Claude.handleStateChange _ _ _ _ _) as [next effs].
  match goal with |- context [match ?x with (_, _) => _ end] => set (t := x) end.
  assert (in_flight k t.1 = in_flight k next /\ started k t.2 = 0) as [Ht1 Ht2].
  { unfold t. repeat (destruct (bool_decide _); [apply boundary_quiet|]). done. }
  destruct t as [next' boundary]. simpl in Ht1, Ht2.
  eapply balanced_seq; [by apply (balanced_same k cs cs2)| |reflexivity].
  eapply balanced_seq; [exact Hc|by apply (balanced_same k next next')|].
  rewrite !started_app, started_nil. lia.
Qed.

Lemma handleHook_balanced cs ctx ts r p : balanced k cs (Claude.handleHook d cs ctx ts r p) 0.
Proof.
  unfold Claude.handleHook. cbv zeta. destruct (bool_decide _); [by apply balanced_same|].
  set (cs1 := if bool_decide (r = "") then _ else _).
  assert (in_flight k cs1 = in_flight k cs) as H1 by (unfold cs1; by destruct (bool_decide _), k).
  clearbody cs1. eapply balanced_seq; [by apply (balanced_same k cs cs1)| |reflexivity].
  assert (forall x, in_flight k (Claude.stamp x ts) = in_flight k x) as Hst.
  { intros x. unfold Claude.stamp. destruct (IsZero ts); by destruct k. }
  assert (forall r', balanced k cs1 r' 0 -> balanced k cs1 (r'.1, r'.2) 0) as Hr by (by intros []).
  apply Hr. destruct (negb _).
  { destruct (Claude.stale _ _); apply balanced_same; [done|]. rewrite Hst. by destruct k. }
  destruct (bool_decide _).
  { set (cs2 := cs1 <| cs_LastBridgeTS := ts |> <| cs_PendingTools := ∅ |>).
    pose proof (handleSessionStart_balanced cs2 ctx (Claude.parseHookPayload p) ts) as Hs.
    destruct (Claude.handleSessionStart _ _ _ _ _).
    eapply balanced_seq; [by apply (balanced_same k cs1 cs2); destruct k|exact Hs|by rewrite started_nil]. }
  destruct (Claude.stale _ _); [by apply balanced_same|].
  pose proof (handleRootHook_balanced (Claude.stamp cs1 ts) (Claude.parseHookPayload p) ts) as Hs.
  destruct (Claude.handleRootHook _ _ _ _).
  eapply balanced_seq; [by apply (balanced_same k cs1 (Claude.stamp cs1 ts))|exact Hs|by rewrite started_nil].
Qed.

Lemma observeClaudeHookStatus_flags c ts p :
  in_flight k (Claude.observeClaudeHookStatus c ts p) = in_flight k c.
Proof.
  unfold Claude.observeClaudeHookStatus. cbv zeta.
  repeat (destruct (bool_decide _); [done || apply ObserveStatus_flags|]). done.
Qed.

Lemma applyTranscript_flags cs r : in_flight k (Claude.applyTranscript cs r) = in_flight k cs.
Proof.
  unfold Claude.applyTranscript. cbv zeta.
  repeat match goal with |- context [if ?b then _ else _] => destruct b end; by destruct k.
Qed.

Lemma claude_job_balanced cs result err now :
  balanced k cs (Claude.handleJobResult cs result err now, []) (returned k (DEvJobResult result err now)).
Proof.
  unfold Claude.handleJobResult. destruct (applySummaryJobResult _ _ _) as [c|] eqn:Ha.
  { by eapply claude_lift, applySummaryJobResult_balanced. }
  destruct result as [r|[]]; try unchanged.
  - set (cs1 := if bool_decide _ then _ else _).
    assert (in_flight k cs1 = in_flight k (cs <| cs_TranscriptInFlight := false |>)) as H1
      by (unfold cs1; destruct (bool_decide _); [done|]; apply applyTranscript_flags).
    unfold balanced, flagZ. simpl (_.1). rewrite H1. unfold in_flight, claude_flags, common_flags. simpl.
    rewrite started_nil. destruct k; simpl; repeat case_match; try lia; done.
  - apply claude_lift, ApplyBranchResult_balanced.
Qed.

Lemma handleWindowTitle_flags cs title now : in_flight k (Claude.handleWindowTitle cs title now) = in_flight k cs.
Proof.
  unfold Claude.handleWindowTitle. cbv zeta.
  repeat match goal with |- context [if ?b then _ else _] => destruct b end; try (by destruct k).
  all: rewrite claude_common_flags; [by destruct k|apply ObserveStatus_flags].
Qed.

Lemma claude_file_balanced cs path : balanced k cs (Claude.handleTranscriptChanged cs path) 0.
Proof.
  unfold Claude.handleTranscriptChanged. cbv zeta. set (p := if non_empty _ then _ else _). clearbody p.
  destruct (bool_decide (p = "")); [by apply balanced_same|].
  destruct (bool_decide (cs_WatchedFile cs = p)).
  - pose proof (parseTranscript_balanced cs p) as Hp. by destruct (Claude.parseTranscript cs p).
  - pose proof (watch_balanced cs p) as Hp. by destruct (Claude.parseTranscript _ p).
Qed.

Lemma Claude_balanced prev ctx ev :
  balanced k (default (Claude.NewState 0) (as_claude prev)) (Claude.Step d prev ctx ev) (returned k ev).
Proof.
  unfold Claude.Step. cbv zeta. set (cs := default _ _). clearbody cs.
  destruct (_ && _); [unchanged|]. destruct ev; try unchanged.
  - pose proof (handleHook_balanced cs ctx Timestamp RoostSessionID Payload) as Hh.
    destruct (Claude.handleHook _ _ _ _ _ _) as [next effs].
    eapply balanced_seq; [exact Hh|apply balanced_same|by rewrite started_nil, Z.add_0_r].
    destruct (fc_IsRoot ctx); [|done]. apply claude_common_flags, observeClaudeHookStatus_flags.
  - pose proof (HandleTick_balanced k (cs_Common cs) Now Watched Project) as Ht.
    destruct (HandleTick _ _ _ _) as [c effs]. apply claude_lift. unfold balanced, flagZ in *.
    cbn [fst snd] in *. by rewrite ResolveStatus_flags.
  - apply claude_job_balanced.
  - apply claude_file_balanced.
  - destruct Kind; try (apply balanced_same, handleWindowTitle_flags).
    apply claude_lift, balanced_same, ObserveStatus_flags.
  - apply quiet_effect; [done|]. unfold Claude.handleStatusLineClick. destruct (_ || _); [done|].
    by rewrite started_cons.
  - apply claude_lift, balanced_same, ApplyWorktreeResolved_flags.
  - apply claude_lift, balanced_same, ApplyCommandExited_flags.
Qed.
End ClaudeJobs.

(** ** Effects passed in

    The handlers of Gemini and Codex extend a list of effects: what was started in it is
    counted among what is paid. *)

Lemma started_nonneg k l : 0 <= started k l.
Proof. induction l as [|e l IH]; [by rewrite started_nil|]. rewrite started_cons. case_match; lia. Qed.

Lemma balanced_keep {S} `{InFlight S} k (s s' : S) effs :
  in_flight k s' = in_flight k s -> balanced k s (s', effs) (started k effs).
Proof. unfold balanced, flagZ. simpl. intros ->. lia. Qed.

Lemma balanced_thread {S} `{InFlight S} k (s s1 s2 : S) l1 l2 paid :
  balanced k s (s1, l1) paid -> balanced k s1 (s2, l2) (started k l1) -> balanced k s (s2, l2) paid.
Proof. unfold balanced. simpl. lia. Qed.

Lemma balanced_append {S} `{InFlight S} k (s s' : S) effs l :
  balanced k s (s', l) 0 -> balanced k s (s', effs ++ l) (started k effs).
Proof. unfold balanced. simpl. rewrite started_app. lia. Qed.

Lemma balanced_flags {S} `{InFlight S} k (s s' : S) r paid :
  in_flight k s' = in_flight k s -> balanced k s' r paid -> balanced k s r paid.
Proof. unfold balanced, flagZ. by intros ->. Qed.

Ltac same_flags :=
  repeat match goal with |- context [if ?b then _ else _] => destruct b end;
  match goal with k : JobKind |- _ => by destruct k end.

(** ** Gemini *)

Section GeminiJobs.
Variable k : JobKind.
Implicit Types (gs : GeminiState).

Lemma gemini_lift gs c effs paid :
  balanced k (gm_Common gs) (c, effs) paid -> balanced k gs (Gemini.with_common gs c, effs) paid.
Proof. unfold balanced, flagZ, in_flight, gemini_flags. destruct k; simpl; try done. case_match; lia. Qed.

Lemma gemini_common_flags gs c :
  in_flight k c = in_flight k (gm_Common gs) -> in_flight k (Gemini.with_common gs c) = in_flight k gs.
Proof. unfold in_flight at 3 4, gemini_flags. by destruct k. Qed.

Lemma gemini_status_flags gs st t : in_flight k (Gemini.set_status gs st t) = in_flight k gs.
Proof. by destruct k. Qed.

Lemma gemini_watch_balanced gs : balanced k gs (Gemini.watchGeminiTranscript gs) 0.
Proof.
  unfold Gemini.watchGeminiTranscript. cbv zeta. destruct (_ || _); [by apply balanced_same|].
  apply quiet_effect; by destruct k.
Qed.

Lemma gemini_parse_balanced gs : balanced k gs (Gemini.startGeminiTranscriptParse gs) 0.
Proof.
  unfold Gemini.startGeminiTranscriptParse. cbv zeta. destruct (_ || _) eqn:Hb; [by apply balanced_same|].
  apply orb_false_iff in Hb as [Hf _]. unfold balanced, flagZ, in_flight, gemini_flags. cbn [fst snd].
  rewrite started_cons, started_nil. destruct k; simpl; rewrite ?Hf; repeat case_match; try lia; done.
Qed.

Lemma gemini_log_balanced gs hp now effs :
  balanced k gs (Gemini.emitGeminiToolLog gs hp now effs) (started k effs).
Proof.
  unfold Gemini.emitGeminiToolLog. cbv zeta.
  match goal with |- context [match ?x with (_, _) => _ end] => set (t := x) end.
  assert (in_flight k t.1.1.1 = in_flight k gs) as Ht.
  { unfold t. destruct (bool_decide _); [done|]. destruct (gm_PendingTools gs !! _); by destruct k. }
  destruct t as [[[gs' kind] ms] input]. simpl in Ht. destruct (_ || _); [by apply balanced_keep|].
  eapply balanced_flags; [exact Ht|]. by apply balanced_append, balanced_same.
Qed.

Lemma gemini_start_balanced gs effs :
  balanced k gs
    (let '(gs, job) := Gemini.startGeminiTranscriptParse gs in
     let effs := effs ++ job in
     let target := c_StartDir (gm_Common gs) in
     if non_empty target && negb (c_BranchInFlight (gm_Common gs))
     then (Gemini.with_common gs (gm_Common gs <| c_BranchInFlight := true |> <| c_BranchTarget := target |>),
           effs ++ [startJob (BranchDetectInput target)])
     else (gs, effs)) (started k effs).
Proof.
  pose proof (gemini_parse_balanced gs) as Hp.
  destruct (Gemini.startGeminiTranscriptParse gs) as [gs1 job]. cbv zeta.
  apply (balanced_append k gs gs1 effs) in Hp. destruct (_ && _) eqn:Hb; [|done].
  apply andb_true_iff in Hb as [_ Hb]. apply negb_true_iff in Hb.
  eapply balanced_thread; [exact Hp|]. by apply balanced_append, gemini_lift, branch_job_balanced.
Qed.

Lemma gemini_prompt_balanced gs effs prompt :
  balanced k gs
    (let '(effs, inFlight) := enqueueSummaryJob effs (c_SummaryInFlight (gm_Common gs)) prompt in
     (Gemini.with_common gs (gm_Common gs <| c_SummaryInFlight := inFlight |>), effs)) (started k effs).
Proof.
  pose proof (enqueueSummaryJob_balanced k (gm_Common gs) effs prompt) as He.
  destruct (enqueueSummaryJob _ _ _). apply gemini_lift. unfold balanced. cbn [fst snd]. lia.
Qed.

Lemma mark_flags gs : in_flight k (Gemini.markGeminiPermissionPrompt gs) = in_flight k gs.
Proof.
  unfold Gemini.markGeminiPermissionPrompt. cbv zeta. set (x := (foldl _ _ _).1). clearbody x.
  same_flags.
Qed.

Lemma gemini_event_balanced gs hp ts effs :
  balanced k gs (Gemini.handleGeminiHookEvent gs hp ts effs) (started k effs).
Proof.
  unfold Gemini.handleGeminiHookEvent. cbv zeta. destruct (bool_decide _).
  { set (gs1 := Gemini.set_status _ _ _).
    assert (in_flight k gs1 = in_flight k gs) as H1 by (by unfold gs1; destruct k). clearbody gs1.
    eapply balanced_flags; [exact H1|apply gemini_start_balanced]. }
  destruct (bool_decide _).
  { set (gs1 := Gemini.set_status _ _ _).
    assert (in_flight k gs1 = in_flight k gs) as H1 by (by unfold gs1; destruct k). clearbody gs1.
    eapply balanced_flags; [exact H1|apply gemini_prompt_balanced]. }
  destruct (bool_decide _).
  { apply balanced_keep. unfold Gemini.handleGeminiPendingTool. same_flags. }
  destruct (bool_decide _).
  { eapply balanced_flags; [|apply gemini_log_balanced]. apply gemini_status_flags. }
  destruct (bool_decide _).
  { set (gs1 := Gemini.set_status _ _ _).
    assert (in_flight k gs1 = in_flight k gs) as H1 by (unfold gs1; same_flags). clearbody gs1.
    pose proof (gemini_parse_balanced gs1) as Hp.
    destruct (Gemini.startGeminiTranscriptParse gs1). eapply balanced_flags; [exact H1|by apply balanced_append]. }
  destruct (bool_decide _).
  { apply balanced_keep || (destruct (bool_decide _); apply balanced_keep; [|done]).
    rewrite gemini_status_flags. apply mark_flags. }
  destruct (bool_decide _); apply balanced_keep; by destruct k.
Qed.

Lemma applyHookPreamble_flags c p ts r c' :
  applyHookPreamble c p ts r = Some c' -> in_flight k c' = in_flight k c.
Proof.
  unfold applyHookPreamble. cbv zeta. do 2 (destruct (_ : bool); [done|]).
  intros [= <-]. same_flags.
Qed.

Lemma gemini_hook_balanced gs ctx ts r p : balanced k gs (Gemini.handleHook gs ctx ts r p) 0.
Proof.
  unfold Gemini.handleHook. cbv zeta.
  destruct (applyHookPreamble _ _ _ _) as [c|] eqn:Hc; [|by apply balanced_same].
  apply applyHookPreamble_flags in Hc. set (gs1 := Gemini.with_common gs c <| gm_GeminiSessionID := _ |>).
  assert (in_flight k gs1 = in_flight k gs) as H1.
  { rewrite <- (gemini_common_flags gs c Hc). by unfold gs1; destruct k. }
  clearbody gs1. eapply balanced_flags; [exact H1|]. destruct (negb _); [by apply balanced_same|].
  pose proof (gemini_watch_balanced gs1) as Hw. destruct (Gemini.watchGeminiTranscript gs1) as [gs2 effs].
  pose proof (gemini_event_balanced gs2 (Gemini.parseGeminiHookPayload p) ts effs) as He.
  destruct (Gemini.handleGeminiHookEvent _ _ _ _) as [gs3 effs3].
  eapply balanced_thread; [eapply balanced_thread; [exact Hw|exact He]|].
  destruct (bool_decide _); [by apply balanced_keep|]. by apply balanced_append, balanced_same.
Qed.

Lemma gemini_observe_flags c ts p : in_flight k (Gemini.observeGeminiHookStatus c ts p) = in_flight k c.
Proof.
  unfold Gemini.observeGeminiHookStatus. cbv zeta.
  repeat match goal with |- context [if ?b then _ else _] => destruct b; [apply ObserveStatus_flags|] end. done.
Qed.

Lemma gemini_title_flags gs title now : in_flight k (Gemini.handleWindowTitle gs title now) = in_flight k gs.
Proof.
  unfold Gemini.handleWindowTitle. cbv zeta.
  repeat match goal with |- context [if ?b then _ else _] => destruct b end; try (by destruct k).
  all: rewrite gemini_common_flags; [by destruct k|apply ObserveStatus_flags].
Qed.

Lemma gemini_file_balanced gs path : balanced k gs (Gemini.handleTranscriptChanged gs path) 0.
Proof.
  unfold Gemini.handleTranscriptChanged. destruct (_ && _); [by apply balanced_same|].
  pose proof (gemini_watch_balanced gs) as Hw. destruct (Gemini.watchGeminiTranscript gs) as [gs1 effs].
  pose proof (gemini_parse_balanced gs1) as Hp. destruct (Gemini.startGeminiTranscriptParse gs1) as [gs2 job].
  eapply balanced_thread; [exact Hw|by apply balanced_append].
Qed.

Lemma gemini_job_balanced gs result err now :
  balanced k gs (Gemini.handleJobResult gs result err now, []) (returned k (DEvJobResult result err now)).
Proof.
  unfold Gemini.handleJobResult. destruct (applySummaryJobResult _ _ _) as [c|] eqn:Ha.
  { by eapply gemini_lift, applySummaryJobResult_balanced. }
  destruct result as [r|[]]; try unchanged.
  - set (gs1 := if bool_decide _ then _ else _).
    assert (in_flight k gs1 = in_flight k (gs <| gm_TranscriptInFlight := false |>)) as H1
      by (unfold gs1, Gemini.applyTranscript; same_flags).
    unfold balanced, flagZ. simpl (_.1). rewrite H1. unfold in_flight, gemini_flags, common_flags. simpl.
    rewrite started_nil. destruct k; simpl; repeat case_match; try lia; done.
  - apply gemini_lift, ApplyBranchResult_balanced.
Qed.

Lemma Gemini_balanced prev ctx ev :
  balanced k (default (Gemini.NewState 0) (as_gemini prev)) (Gemini.Step prev ctx ev) (returned k ev).
Proof.
  unfold Gemini.Step. cbv zeta. set (gs := default _ _). clearbody gs.
  destruct (_ && _); [unchanged|]. destruct ev; try unchanged.
  - pose proof (gemini_hook_balanced gs ctx Timestamp RoostSessionID Payload) as Hh.
    destruct (Gemini.handleHook _ _ _ _ _) as [next effs].
    eapply balanced_thread; [exact Hh|apply balanced_keep].
    destruct (fc_IsRoot ctx); [|done]. apply gemini_common_flags, gemini_observe_flags.
  - pose proof (HandleTick_balanced k (gm_Common gs) Now Watched Project) as Ht.
    destruct (HandleTick _ _ _ _) as [c effs]. apply gemini_lift. unfold balanced, flagZ in *.
    cbn [fst snd] in *. by rewrite ResolveStatus_flags.
  - apply gemini_job_balanced.
  - apply gemini_file_balanced.
  - destruct Kind; try (apply balanced_same, gemini_title_flags).
    apply gemini_lift, balanced_same, ObserveStatus_flags.
  - apply gemini_lift, balanced_same, ApplyWorktreeResolved_flags.
  - apply gemini_lift, balanced_same, ApplyCommandExited_flags.
Qed.

End GeminiJobs.

(** ** Codex *)

Section CodexJobs.
Variable k : JobKind.
Implicit Types (cs : CodexState).

Lemma codex_lift cs c effs paid :
  balanced k (xs_Common cs) (c, effs) paid -> balanced k cs (Codex.with_common cs c, effs) paid.
Proof. unfold balanced, flagZ, in_flight, codex_flags. destruct k; simpl; try done. case_match; lia. Qed.

Lemma codex_status_flags cs st t : in_flight k (Codex.applyHookStatus cs st t) = in_flight k cs.
Proof. by destruct k. Qed.

Lemma codex_watch_balanced cs : balanced k cs (Codex.watchCodexTranscript cs) 0.
Proof.
  unfold Codex.watchCodexTranscript. cbv zeta. destruct (_ || _); [by apply balanced_same|].
  apply quiet_effect; by destruct k.
Qed.

Lemma codex_parse_balanced cs : balanced k cs (Codex.startCodexTranscriptParse cs) 0.
Proof.
  unfold Codex.startCodexTranscriptParse. cbv zeta. destruct (_ || _) eqn:Hb; [by apply balanced_same|].
  apply orb_false_iff in Hb as [Hf _]. unfold balanced, flagZ, in_flight, codex_flags. cbn [fst snd].
  rewrite started_cons, started_nil. destruct k; simpl; rewrite ?Hf; repeat case_match; try lia; done.
Qed.

Lemma codex_then_parse cs cs1 effs paid :
  balanced k cs (cs1, effs) paid ->
  balanced k cs (let '(cs, job) := Codex.startCodexTranscriptParse cs1 in (cs, effs ++ job)) paid.
Proof.
  intros H1. pose proof (codex_parse_balanced cs1) as Hp.
  destruct (Codex.startCodexTranscriptParse cs1). eapply balanced_thread; [exact H1|by apply balanced_append].
Qed.

Lemma codex_start_balanced cs ctx now effs :
  balanced k cs (Codex.applySessionStart cs ctx now effs) (started k effs).
Proof.
  unfold Codex.applySessionStart. cbv zeta. set (cs1 := Codex.applyHookStatus _ _ _).
  assert (in_flight k cs1 = in_flight k cs) as H1 by (by unfold cs1; destruct k). clearbody cs1.
  pose proof (codex_then_parse cs cs1 effs _ (balanced_keep k cs cs1 effs H1)) as Hp.
  destruct (Codex.startCodexTranscriptParse cs1) as [cs2 job]. destruct (_ && _) eqn:Hb; [|done].
  apply andb_true_iff in Hb as [_ Hb]. apply negb_true_iff in Hb.
  eapply balanced_thread; [exact Hp|]. by apply balanced_append, codex_lift, branch_job_balanced.
Qed.

Lemma codex_prompt_balanced cs prompt now effs :
  balanced k cs (Codex.applyMetadataPrompt cs prompt now effs) (started k effs).
Proof.
  unfold Codex.applyMetadataPrompt. cbv zeta. destruct (bool_decide _); [by apply balanced_keep|].
  set (cs1 := Codex.applyHookStatus _ _ _).
  assert (in_flight k cs1 = in_flight k cs) as H1 by (by unfold cs1; destruct k). clearbody cs1.
  eapply balanced_flags; [exact H1|]. set (pr := formatSummaryPrompt _ _). clearbody pr.
  pose proof (enqueueSummaryJob_balanced k (xs_Common cs1) effs pr) as He.
  destruct (enqueueSummaryJob _ _ _) as [effs2 inFlight].
  apply codex_then_parse, codex_lift. unfold balanced. cbn [fst snd]. lia.
Qed.

Lemma codex_metadata_flags cs m : in_flight k (Codex.applyCodexMetadata cs m) = in_flight k cs.
Proof. unfold Codex.applyCodexMetadata. cbv zeta. same_flags. Qed.

Lemma codex_log_balanced cs name id err input now kind effs :
  balanced k cs (Codex.emitToolLog cs name id err input now kind effs) (started k effs).
Proof.
  unfold Codex.emitToolLog. cbv zeta.
  match goal with |- context [match ?x with (_, _) => _ end] => set (t := x) end.
  assert (in_flight k t.1.1.1 = in_flight k cs) as Ht.
  { unfold t. destruct (bool_decide _); [done|]. destruct (xs_PendingTools cs !! _); by destruct k. }
  destruct t as [[[cs' kind'] ms] input']. simpl in Ht. destruct (_ || _); [by apply balanced_keep|].
  destruct (classifyCodexTool _ _ _). eapply balanced_flags; [exact Ht|]. by apply balanced_append, balanced_same.
Qed.

Lemma codex_message_flags cs msg : in_flight k (Codex.set_last_message cs msg) = in_flight k cs.
Proof. unfold Codex.set_last_message. cbv zeta. same_flags. Qed.

Lemma codex_boundary_quiet cs ts failure : started k (Codex.emitCodexTurnBoundary cs ts failure) = 0.
Proof. unfold Codex.emitCodexTurnBoundary. cbv zeta. do 2 (destruct (bool_decide _); [done|]). by destruct k. Qed.

Lemma codex_kind_balanced cs ctx kind ts p effs :
  balanced k cs (Codex.applySubsystemKind cs ctx kind ts p effs) (started k effs).
Proof.
  unfold Codex.applySubsystemKind. cbv zeta. destruct kind; try (apply balanced_keep; by destruct k).
  - eapply balanced_flags; [|apply codex_start_balanced]. by destruct k.
  - apply codex_prompt_balanced.
  - apply balanced_keep. same_flags.
  - apply balanced_weaken; [|apply started_nonneg].
    apply quiet_effect; [|apply codex_boundary_quiet].
    rewrite codex_status_flags, codex_message_flags. by destruct k.
  - apply balanced_keep. unfold Codex.handleSubsystemToolStarted. destruct (sp_Tool p); same_flags.
  - set (cs1 := Codex.applyHookStatus _ _ _).
    assert (in_flight k cs1 = in_flight k cs) as H1 by (by unfold cs1; destruct k). clearbody cs1.
    eapply balanced_flags; [exact H1|]. unfold Codex.handleSubsystemToolCompleted.
    destruct (sp_Tool p); [|by apply balanced_keep]. cbv zeta.
    destruct (bool_decide _); [by apply balanced_keep|apply codex_log_balanced].
  - apply balanced_keep. destruct (sp_Plan p); by destruct k.
  - apply balanced_keep. destruct (sp_Diff p); by destruct k.
  - apply balanced_keep. rewrite <- (codex_message_flags cs (sp_LastAssistantMessage p)).
    destruct (sp_Message p); by destruct k.
  - eapply balanced_flags; [|apply codex_prompt_balanced]. apply codex_metadata_flags.
Qed.

Lemma set_if_flags v (f : CodexState -> CodexState) cs :
  (forall x, in_flight k (f x) = in_flight k x) -> in_flight k (Codex.set_if v f cs) = in_flight k cs.
Proof. intros Hf. unfold Codex.set_if. by destruct (bool_decide _). Qed.

Lemma codex_subsystem_balanced cs ctx kind ts p : balanced k cs (Codex.handleSubsystem cs ctx kind ts p) 0.
Proof.
  unfold Codex.handleSubsystem. cbv zeta.
  match goal with |- balanced _ _ (if _ then (?x, _) else _) _ => set (cs1 := x) end.
  assert (in_flight k cs1 = in_flight k cs) as H1.
  { unfold cs1. rewrite !set_if_flags; try done; intros x; by destruct k. }
  clearbody cs1. eapply balanced_flags; [exact H1|]. destruct (negb _); [by apply balanced_same|].
  set (cs2 := Codex.set_if (sp_StatusLine p) _ _).
  assert (in_flight k cs2 = in_flight k cs1) as H2.
  { unfold cs2. rewrite !set_if_flags; try done; intros x; by destruct k. }
  clearbody cs2. eapply balanced_flags; [exact H2|].
  pose proof (codex_watch_balanced cs2) as Hw. destruct (Codex.watchCodexTranscript cs2) as [cs3 effs].
  pose proof (codex_kind_balanced cs3 ctx kind ts p effs) as He.
  destruct (Codex.applySubsystemKind _ _ _ _ _ _) as [cs4 effs4].
  apply codex_then_parse. by eapply balanced_thread.
Qed.

Lemma codex_transcript_flags cs r : in_flight k (Codex.applyTranscript cs r) = in_flight k cs.
Proof.
  unfold Codex.applyTranscript. cbv zeta. set (cs1 := Codex.set_if (xr_LastAssistantMessage r) _ _).
  assert (in_flight k cs1 = in_flight k cs) as <-.
  { unfold cs1. rewrite !set_if_flags; [apply codex_metadata_flags| |]; intros x; by destruct k. }
  clearbody cs1. same_flags.
Qed.

Lemma codex_job_balanced cs result err now :
  balanced k cs (Codex.handleJobResult cs result err now, []) (returned k (DEvJobResult result err now)).
Proof.
  unfold Codex.handleJobResult. destruct (applySummaryJobResult _ _ _) as [c|] eqn:Ha.
  { by eapply codex_lift, applySummaryJobResult_balanced. }
  destruct result as [r|[]]; try unchanged.
  - set (cs1 := if bool_decide _ then _ else _).
    assert (in_flight k cs1 = in_flight k (cs <| xs_TranscriptInFlight := false |>)) as H1
      by (unfold cs1; destruct (bool_decide _); [done|]; apply codex_transcript_flags).
    unfold balanced, flagZ. simpl (_.1). rewrite H1. unfold in_flight, codex_flags, common_flags. simpl.
    rewrite started_nil. destruct k; simpl; repeat case_match; try lia; done.
  - apply codex_lift, ApplyBranchResult_balanced.
Qed.

Lemma Codex_balanced prev ctx ev :
  balanced k (default (Codex.NewState 0) (as_codex prev)) (Codex.Step prev ctx ev) (returned k ev).
Proof.
  unfold Codex.Step. cbv zeta. set (cs := default _ _). clearbody cs.
  destruct (_ && _); [unchanged|]. destruct ev; try unchanged.
  - apply codex_subsystem_balanced.
  - pose proof (HandleTick_balanced k (xs_Common cs) Now Watched Project) as Ht.
    destruct (HandleTick _ _ _ _) as [c effs]. by apply codex_lift.
  - apply codex_job_balanced.
  - unfold Codex.handleTranscriptChanged. destruct (_ && _); [unchanged|].
    pose proof (codex_watch_balanced cs) as Hw. destruct (Codex.watchCodexTranscript cs) as [cs1 effs].
    by apply codex_then_parse.
  - apply codex_lift, balanced_same, ApplyWorktreeResolved_flags.
  - apply codex_lift, balanced_same, ApplyCommandExited_flags.
Qed.

End CodexJobs.


(** ** Runs *)

Variable opts : RegisterOptions.

(** The driver's part of a run of the host: its state after a list of events, each in
    the frame context of its time, and all the effects. *)
Fixpoint steps (drv : Driver) (s : DriverState) (evs : list (FrameContext * DriverEvent)) :
    DriverState * list Effect :=
  match evs with
  | [] => (s, [])
  | (ctx, ev) :: evs =>
    let '(s1, effs) := drv_Step drv s ctx ev in
    let '(s2, rest) := steps drv s1 evs in (s2, effs ++ rest)
  end.

Definition all_returned (k : JobKind) (evs : list (FrameContext * DriverEvent)) : Z :=
  foldr (fun ce n => returned k ce.2 + n) 0 evs.

Definition bounded_jobs (drv : Driver) : Prop := forall k s evs,
  started k (steps drv s evs).2 <= 1 + all_returned k evs.

Lemma flagZ_bounds {S} `{InFlight S} k (s : S) : 0 <= flagZ k s <= 1.
Proof. unfold flagZ. destruct (in_flight k s); lia. Qed.

(** A driver whose steps balance, on states it recognises as its own. *)
Lemma steps_bounded {A} `{InFlight A} (drv : Driver) (wrap : A -> BuiltinState)
    (own : DriverState -> A) (step : DriverState -> FrameContext -> DriverEvent -> A * list Effect) :
  (forall a, own (Some (wrap a)) = a) ->
  (forall s ctx ev, drv_Step drv s ctx ev = lift wrap (step s ctx ev)) ->
  (forall k s ctx ev, balanced k (own s) (step s ctx ev) (returned k ev)) -> bounded_jobs drv.
Proof.
  intros Hown Hstep Hbal k s evs.
  cut (started k (steps drv s evs).2 + flagZ k (own s) <= 1 + all_returned k evs).
  { pose proof (flagZ_bounds k (own s)). lia. }
  revert s. induction evs as [|[ctx ev] evs IH]; intros s; simpl.
  - rewrite started_nil. pose proof (flagZ_bounds k (own s)). lia.
  - rewrite Hstep. unfold lift. pose proof (Hbal k s ctx ev) as Hb. unfold balanced in Hb.
    destruct (step s ctx ev) as [a effs]. cbn [fst snd] in *. specialize (IH (Some (wrap a))).
    rewrite Hown in IH. destruct (steps drv (Some (wrap a)) evs) as [s2 rest]. cbn [fst snd] in *.
    rewrite started_app. lia.
Qed.

Ltac by_step wrap new as_own step :=
  apply (steps_bounded _ wrap (fun s => default new (as_own s)) step); [done|done|]; intros k s ctx ev.

(** C6: One job of a kind at a time.  For the driver of any command, from any state and
    over any run of events in any frame contexts, the summary jobs started are at most
    one more than the summary results that came back; the same holds of transcript jobs
    and of branch jobs.  For the Grok driver this needs that the state in the return
    statement of its Step is read after the tick's handler beside it has run, which Go
    leaves open ([operands_late]; without it every tick starts another branch job, see
    [grok_early_operands]); the other drivers need no condition. *)
Theorem one_job_in_flight command drv k s evs :
  GetDriver (H := builtin_drivers opts) command = Some drv ->
  (drv_Name drv = Grok.DriverName -> operands_late = true) ->
  started k (steps drv s evs).2 <= 1 + all_returned k evs.
Proof.
  intros Hd Hg. cut (bounded_jobs drv); [intros Hb; apply Hb|]. clear k s evs. revert command drv Hd Hg.
  apply (registered_cases opts (fun drv => (drv_Name drv = Grok.DriverName -> operands_late = true) -> _)).
  - intros _. by_step DSClaude (Claude.NewState 0) as_claude (Claude.Step (claude_config opts)). apply Claude_balanced.
  - intros _. by_step DSCodex (Codex.NewState 0) as_codex (Codex.Step). apply Codex_balanced.
  - intros _. by_step DSGemini (Gemini.NewState 0) as_gemini (Gemini.Step). apply Gemini_balanced.
  - intros Hl. by_step DSGrok (Grok.NewState 0) as_grok (Grok.Step). by apply Grok_balanced, Hl.
  - intros _. by_step DSAgy (Agy.NewState 0) as_agy (Agy.Step). apply Agy_balanced.
  - intros d _. by_step DSGeneric (Generic.NewState d 0) as_generic (Generic.Step d). apply Generic_balanced.
  - intros _. by_step DSShell (Shell.NewState 0) as_shell (Shell.Step). apply Shell_balanced.
Qed.

End Jobs.

Module JobsDemo.
Import DriverDemo.

Definition demo_events : list (FrameContext * DriverEvent) :=
  [(root, DEvTick 4 true "/work" 0 0); (root, DEvHook "h" 5 "s1" "SessionStart");
   (root, DEvHook "h" 6 "s1" "UserPromptSubmit"); (root, DEvHook "h" 7 "s1" "UserPromptSubmit");
   (root, DEvTick 8 true "/work" 0 0); (root, DEvFileChanged "/t")].

(** Two prompts, ticks and a file change start one job of each kind, and no result. *)
Lemma one_job_in_flight_witness :
  started KSummary (steps (claude_driver demo_opts) None demo_events).2 = 1 /\
  started KTranscript (steps (claude_driver demo_opts) None demo_events).2 = 1 /\
  started KBranch (steps (claude_driver demo_opts) None demo_events).2 <= 1.
Proof.
  split; [vm_compute; reflexivity|]. split; [vm_compute; reflexivity|].
  apply (one_job_in_flight demo_opts "claude" (claude_driver demo_opts) KBranch None demo_events);
    [apply GetDriver_claude|discriminate].
Defined.

End JobsDemo.
