(* ===== verification/DriverPersist.v ===== *)
(** * host/driver: persistence

    What a restart keeps: for every built-in driver, restoring what a state persisted
    gives the state back with its volatile fields reset, its times truncated to whole
    seconds, and the normalisations the restore functions make. *)

From Stdlib Require Import String.
From stdpp Require Import pretty.
From S2P Require Import Prelude GoStd GoStrings GoTime ShellArgs HostState DriverTypes DriverCommon.
From S2P Require Import DriverToolLog DriverBasic DriverClaude DriverGemini DriverCodex.

(** ** Printed integers are parsed back *)

Lemma digit_value_pretty d : (d < 10)%N -> digit_value (pretty_N_char d) = Some (Z.of_N d).
Proof.
  intros Hd. assert (d ∈ (N.of_nat <$> seq 0 10)) as Hin.
  { apply list_elem_of_fmap. exists (N.to_nat d). rewrite elem_of_seq. lia. }
  assert (Forall (fun d => digit_value (pretty_N_char d) = Some (Z.of_N d)) (N.of_nat <$> seq 0 10)) as Ha
    by (by repeat constructor).
  rewrite Forall_forall in Ha. by apply Ha.
Qed.

Lemma digits_value_go n s :
  digits_value 0 (list_ascii_of_string (pretty_N_go n s)) = digits_value (Z.of_N n) (list_ascii_of_string s).
Proof.
  revert s. induction (N.lt_wf_0 n) as [n _ IH]. intros s.
  destruct (decide (n = 0%N)) as [->|Hn]; [by rewrite pretty_N_go_0|].
  rewrite pretty_N_go_step by lia. rewrite IH by (apply N.div_lt; lia). simpl.
  rewrite digit_value_pretty by (apply N.mod_lt; lia). simpl. f_equal.
  rewrite (N.div_mod n 10) at 3 by lia. lia.
Qed.

Lemma digits_value_pos p : digits_value 0 (list_ascii_of_string (pretty (Npos p))) = Some (Zpos p).
Proof. change (pretty (Npos p)) with (pretty_N_go (Npos p) ""). by rewrite digits_value_go. Qed.

Lemma unsigned_digits l n : n <> 0 -> digits_value 0 l = Some n -> unsigned_value l = Some n.
Proof. destruct l; [|done]. simpl. congruence. Qed.

Lemma digits_head acc c l n :
  digits_value acc (c :: l) = Some n -> (byte_Z c =? 45) = false /\ (byte_Z c =? 43) = false.
Proof.
  simpl. unfold digit_value. destruct (in_range 48 57 (byte_Z c)) eqn:Hr; [|done].
  apply in_range_iff in Hr. intros _. split; apply Z.eqb_neq; lia.
Qed.

Lemma Atoi_show n : min_int64 <= n <= max_int64 -> Atoi (show_int n) = Some n.
Proof.
  intros Hn. assert (in_range min_int64 max_int64 n = true) as Hr by (by apply in_range_iff).
  unfold Atoi, show_int. destruct n as [|p|p]; [done| |].
  - change (pretty (Z.pos p)) with (pretty (Npos p)). pose proof (digits_value_pos p) as Hd.
    destruct (list_ascii_of_string _) as [|c l]; [done|]. destruct (digits_head _ _ _ _ Hd) as [-> ->].
    rewrite (unsigned_digits _ (Zpos p)) by done. simpl. by rewrite Hr.
  - change (pretty (Z.neg p)) with (String "-"%char (pretty (Npos p))). simpl.
    rewrite (unsigned_digits _ (Zpos p)) by (done || apply digits_value_pos). simpl.
    change (- Z.pos p) with (Z.neg p). by rewrite Hr.
Qed.

Lemma show_int_ne n : show_int n <> "".
Proof.
  unfold show_int. destruct n as [|p|p]; [done| |done]. change (pretty (Z.pos p)) with (pretty (Npos p)).
  intros Hp. pose proof (digits_value_pos p) as Hd. rewrite Hp in Hd. done.
Qed.

(** ** Bags *)

(** The value under a key: the shape of every [put]. *)
Definition put (k : string) (o : option string) (out : Bag) : Bag :=
  match o with Some v => <[k := v]> out | None => out end.

Definition some_string (v : string) : option string := if bool_decide (v = "") then None else Some v.
Definition some_time (t : Time) : option string := if IsZero t then None else Some (FormatRFC3339 t).
Definition some_flag (b : bool) : option string := if b then Some "1" else None.

Lemma put_string_put k v out : put_string k v out = put k (some_string v) out.
Proof. unfold put_string, some_string. by destruct (bool_decide _). Qed.

Lemma put_time_put k t out : put_time k t out = put k (some_time t) out.
Proof. unfold put_time, some_time. by destruct (IsZero t). Qed.

Lemma put_flag_put k b out : put_flag k b out = put k (some_flag b) out.
Proof. by destruct b. Qed.

Definition puts (l : list (string * option string)) (out : Bag) : Bag :=
  foldl (fun out kv => put kv.1 kv.2 out) out l.

(** The last value given for a key. *)
Fixpoint last_put (k : string) (l : list (string * option string)) (old : string) : string :=
  match l with
  | [] => old
  | (k', o) :: l => last_put k l (if String.eqb k' k then default old o else old)
  end.

Lemma bag_get_puts l out k : bag_get (puts l out) k = last_put k l (bag_get out k).
Proof.
  revert out. induction l as [|[k' [v|]] l IH]; intros out; simpl; [done|rewrite IH..]; f_equal.
  - unfold bag_get, put, Bag. simpl. destruct (String.eqb_spec k' k) as [->|Hk].
    + by rewrite lookup_insert_eq.
    + by rewrite lookup_insert_ne.
  - by destruct (String.eqb k' k).
Qed.

Lemma puts_app l1 l2 out : puts (l1 ++ l2) out = puts l2 (puts l1 out).
Proof. apply foldl_app. Qed.

Lemma bag_get_empty k : bag_get ∅ k = "".
Proof. done. Qed.

Lemma some_string_default v : default "" (some_string v) = v.
Proof. unfold some_string. by case_bool_decide. Qed.

Lemma some_flag_get b : bool_decide (default "" (some_flag b) = "1") = b.
Proof. by destruct b. Qed.

Lemma Status_roundtrip s : ParseStatus (Status_String s) = Some s.
Proof. by destruct s. Qed.

(** ** Times *)

Definition time_ok (t : Time) : Prop := 0 <= year_of t <= 9999.

(** A zero time is not written: the restored state keeps what it had. *)
Definition restored_time (old t : Time) : Time := if IsZero t then old else TruncateSecond t.

Lemma FormatRFC3339_ne t : time_ok t -> FormatRFC3339 t <> "".
Proof. intros Hy He. pose proof (Parse_Format t Hy) as Hp. by rewrite He in Hp. Qed.

Lemma time_roundtrip t old : time_ok t ->
  (if bool_decide (default "" (some_time t) = "") then old
   else default old (ParseRFC3339 (default "" (some_time t)))) = restored_time old t.
Proof.
  intros Hy. unfold some_time, restored_time. destruct (IsZero t); [done|]. simpl.
  rewrite bool_decide_eq_false_2 by (by apply FormatRFC3339_ne). by rewrite Parse_Format.
Qed.

(** ** The common state *)

Definition common_entries (c : CommonState) : list (string * option string) :=
  [(keyRoostSessionID, some_string (c_RoostSessionID c)); (keyStartDir, some_string (c_StartDir c));
   (keyTranscriptPath, some_string (c_TranscriptPath c)); (keyWorktreeName, some_string (c_WorktreeName c));
   (keyStatus, Some (Status_String (c_Status c))); (keyStatusChangedAt, some_time (c_StatusChangedAt c));
   (keyFailed, some_flag (c_Failed c)); (keyBranchTag, some_string (c_BranchTag c));
   (keyBranchBG, some_string (c_BranchBG c)); (keyBranchFG, some_string (c_BranchFG c));
   (keyBranchTarget, some_string (c_BranchTarget c)); (keyBranchAt, some_time (c_BranchAt c));
   (keyBranchIsWorktree, some_flag (c_BranchIsWorktree c));
   (keyBranchParentBranch, some_string (c_BranchParentBranch c)); (keySummary, some_string (c_Summary c));
   (keyTitle, some_string (c_Title c)); (keyLastPrompt, some_string (c_LastPrompt c));
   (keyLastAssistantMessage, some_string (c_LastAssistantMessage c));
   (keyLastHookEvent, some_string (c_LastHookEvent c)); (keyLastHookAt, some_time (c_LastHookAt c))].

Lemma PersistCommon_puts c out : PersistCommon c out = puts (common_entries c) out.
Proof. unfold PersistCommon. cbv zeta. by rewrite !put_string_put, !put_time_put, !put_flag_put. Qed.

(** What the common state keeps across a restart at [now]. *)
Definition durable_common (now : Time) (c : CommonState) : CommonState :=
  c <| c_Project := "" |> <| c_StatusEvidence := zero_evidence |>
    <| c_BranchInFlight := false |> <| c_SummaryInFlight := false |>
    <| c_StatusChangedAt := restored_time now (c_StatusChangedAt c) |>
    <| c_BranchAt := restored_time 0 (c_BranchAt c) |>
    <| c_LastHookAt := restored_time 0 (c_LastHookAt c) |>.

Definition common_ok (c : CommonState) : Prop :=
  time_ok (c_StatusChangedAt c) /\ time_ok (c_BranchAt c) /\ time_ok (c_LastHookAt c).

(** Keys of the drivers' own. *)
Definition own_entries (l : list (string * option string)) : bool :=
  forallb (fun kv => forallb (fun kv' => negb (String.eqb kv.1 kv'.1)) (common_entries zero_common)) l.

Lemma last_put_app k l1 l2 old : last_put k (l1 ++ l2) old = last_put k l2 (last_put k l1 old).
Proof. revert old. induction l1 as [|[k' o] l1 IH]; intros old; simpl; [done|]. apply IH. Qed.

Lemma last_put_other k l old : forallb (fun kv => negb (String.eqb kv.1 k)) l = true -> last_put k l old = old.
Proof.
  revert old. induction l as [|[k' o] l IH]; intros old Hl; simpl in *; [done|].
  apply andb_true_iff in Hl as [Hk Hl]. apply negb_true_iff in Hk. rewrite Hk. by apply IH.
Qed.

Lemma own_entries_common k l old :
  own_entries l = true -> k ∈ (common_entries zero_common).*1 -> last_put k l old = old.
Proof.
  intros Hl Hk. apply last_put_other. apply list_elem_of_fmap in Hk as (kv' & -> & Hk).
  unfold own_entries in Hl. rewrite forallb_forall in Hl |- *. intros kv Hkv.
  specialize (Hl kv Hkv). rewrite forallb_forall in Hl. apply Hl. by apply list_elem_of_In.
Qed.

Lemma puts_nonempty c l : own_entries l = true -> puts (common_entries c ++ l) ∅ <> ∅.
Proof.
  intros Hl He. assert (bag_get (puts (common_entries c ++ l) ∅) keyStatus = Status_String (c_Status c)) as Hs.
  { rewrite bag_get_puts, last_put_app, own_entries_common; [done..|]. apply (bool_decide_unpack _). by vm_compute. }
  rewrite He, bag_get_empty in Hs. by destruct (c_Status c).
Qed.

Lemma RestoreCommon_puts c l status now :
  common_ok c -> own_entries l = true ->
  RestoreCommon (new_common status now) (puts (common_entries c ++ l) ∅) = durable_common now c.
Proof.
  intros (H1 & H2 & H3) Hl. unfold RestoreCommon.
  rewrite bool_decide_eq_false_2 by (by apply puts_nonempty). set (bag := puts _ _).
  assert (forall k, k ∈ (common_entries zero_common).*1 -> bag_get bag k = last_put k (common_entries c) "") as Hg.
  { intros k Hk. unfold bag. rewrite bag_get_puts, bag_get_empty, last_put_app. by apply own_entries_common. }
  clearbody bag. unfold get_time, get_flag. rewrite !Hg by (apply (bool_decide_unpack _); by vm_compute).
  unfold common_entries. cbn -[some_string some_time some_flag Status_String ParseRFC3339 bool_decide].
  rewrite !some_string_default, !some_flag_get.
  rewrite !time_roundtrip by done. rewrite Status_roundtrip.
  destruct c; unfold durable_common; simpl. by destruct c_Status.
Qed.

(** A key of the driver's own. *)
Lemma own_get c l k :
  forallb (fun kv => negb (String.eqb kv.1 k)) (common_entries zero_common) = true ->
  bag_get (puts (common_entries c ++ l) ∅) k = last_put k l "".
Proof.
  intros Hk. rewrite bag_get_puts, bag_get_empty, last_put_app. f_equal. by apply last_put_other.
Qed.

(** ** The drivers *)

Definition some_int (b : bool) (n : Z) : option string := if b then Some (show_int n) else None.

Definition claude_entries (cs : ClaudeState) : list (string * option string) :=
  [(Claude.claudeKeyClaudeSessionID, some_string (cs_ClaudeSessionID cs));
   (Claude.claudeKeyModel, some_string (cs_Model cs)); (Claude.claudeKeyEffort, some_string (cs_Effort cs));
   (Claude.claudeKeyModelSet, some_flag (cs_ModelSet cs)); (Claude.claudeKeyEffortSet, some_flag (cs_EffortSet cs));
   (Claude.claudeKeyModelAuthoritative, some_flag (cs_ModelAuthoritative cs));
   (Claude.claudeKeyEffortAuthoritative, some_flag (cs_EffortAuthoritative cs));
   (Claude.claudeKeyForkParentID, some_string (cs_ForkParentID cs))].

Definition codex_entries (cs : CodexState) : list (string * option string) :=
  [(Codex.codexKeyThreadID, some_string (xs_ThreadID cs)); (Codex.codexKeySessionID, some_string (xs_SessionID cs));
   (Codex.codexKeyRolloutPath, some_string (xs_RolloutPath cs)); (Codex.codexKeyModel, some_string (xs_Model cs));
   (Codex.codexKeyEffort, some_string (xs_Effort cs)); (Codex.codexKeyModelSet, some_flag (xs_ModelSet cs));
   (Codex.codexKeyEffortSet, some_flag (xs_EffortSet cs));
   (Codex.codexKeyModelAuthoritative, some_flag (xs_ModelAuthoritative cs));
   (Codex.codexKeyEffortAuthoritative, some_flag (xs_EffortAuthoritative cs));
   (Codex.codexKeyRequestedThreadID, some_string (xs_RequestedThreadID cs));
   (Codex.codexKeyObservedThreadID, some_string (xs_ObservedThreadID cs));
   (Codex.codexKeyResumePhase, some_string (xs_ResumePhase cs));
   (Codex.codexKeyPreview, some_string (xs_Preview cs));
   (Codex.codexKeyDisplayFallback, some_string (xs_DisplayFallback cs))].

Definition own_of (s : BuiltinState) : list (string * option string) :=
  match s with
  | DSGeneric _ => []
  | DSShell ss =>
    [(Shell.keyShellSawPromptEvent, some_flag (shl_SawPromptEvent ss));
     (Shell.keyShellLastExitCode, show_int <$> shl_LastExitCode ss)]
  | DSAgy a =>
    [(Agy.keyConversation, some_string (ag_ConversationID a));
     (Agy.keyInvocation, some_int (ag_HasInvocation a) (ag_LastInvocation a));
     (Agy.keyTermination, some_string (ag_TerminationReason a))]
  | DSGrok gs =>
    [(Grok.grokKeySessionID, some_string (gk_GrokSessionID gs));
     (Grok.grokKeyForkParentID, some_string (gk_ForkParentID gs));
     (Grok.grokKeyModel, some_string (gk_Model gs)); (Grok.grokKeyEffort, some_string (gk_Effort gs))]
  | DSClaude cs => claude_entries cs
  | DSCodex cs => codex_entries cs
  | DSGemini gs => [(Gemini.geminiKeyGeminiSessionID, some_string (gm_GeminiSessionID gs))]
  end.

Definition common_of (s : BuiltinState) : CommonState :=
  match s with
  | DSGeneric s => gn_Common s | DSShell s => shl_Common s | DSAgy s => Agy.common s
  | DSGrok s => gk_Common s | DSClaude s => cs_Common s | DSCodex s => xs_Common s
  | DSGemini s => gm_Common s
  end.

(** [Driver.Persist] of the state's driver. *)
Definition persist (s : BuiltinState) : Bag :=
  match s with
  | DSGeneric _ => Generic.Persist (Some s) | DSShell _ => Shell.Persist (Some s)
  | DSAgy _ => Agy.Persist (Some s) | DSGrok _ => Grok.Persist (Some s)
  | DSClaude _ => Claude.Persist (Some s) | DSCodex _ => Codex.Persist (Some s)
  | DSGemini _ => Gemini.Persist (Some s)
  end.

(** [Driver.Restore] of the driver of [s]; [d] is the generic driver's configuration. *)
Definition restore (d : Generic.GenericDriver) (s : BuiltinState) (bag : Bag) (now : Time) : BuiltinState :=
  match s with
  | DSGeneric _ => DSGeneric (Generic.Restore d bag now) | DSShell _ => DSShell (Shell.Restore bag now)
  | DSAgy _ => DSAgy (Agy.Restore bag now) | DSGrok _ => DSGrok (Grok.Restore bag now)
  | DSClaude _ => DSClaude (Claude.Restore bag now) | DSCodex _ => DSCodex (Codex.Restore bag now)
  | DSGemini _ => DSGemini (Gemini.Restore bag now)
  end.

Lemma persist_puts s : persist s = puts (common_entries (common_of s) ++ own_of s) ∅.
Proof.
  rewrite puts_app, <- PersistCommon_puts.
  destruct s as [s|s|s|s|s|s|s]; simpl; unfold puts, Shell.Persist, Agy.Persist, Grok.Persist,
    Claude.Persist, Codex.Persist, Gemini.Persist; simpl;
    rewrite ?put_string_put, ?put_flag_put; try done.
  - by destruct (shl_LastExitCode s).
  - unfold some_int. by destruct (ag_HasInvocation s).
Qed.

(** What a state keeps across a restart at [now]; every other field is that of a new
    state. *)
Definition durable (d : Generic.GenericDriver) (now : Time) (s : BuiltinState) : BuiltinState :=
  let c := durable_common now (common_of s) in
  match s with
  | DSGeneric _ => DSGeneric (mkGeneric c (Generic.name d))
  | DSShell ss => DSShell (mkShell c (shl_SawPromptEvent ss) (shl_LastExitCode ss))
  | DSAgy a => DSAgy (mkAgy (mkGeneric c (Generic.name Agy.generic)) (ag_ConversationID a)
      (if ag_HasInvocation a then ag_LastInvocation a else 0) (ag_HasInvocation a) (ag_TerminationReason a))
  | DSGrok gs => DSGrok (mkGrok c (gk_GrokSessionID gs) (gk_ForkParentID gs) (gk_Model gs) (gk_Effort gs) "")
  | DSClaude cs => DSClaude (zero_claude <| cs_Common := c |>
      <| cs_ClaudeSessionID := cs_ClaudeSessionID cs |> <| cs_Model := cs_Model cs |>
      <| cs_Effort := cs_Effort cs |> <| cs_ModelSet := cs_ModelSet cs || non_empty (cs_Model cs) |>
      <| cs_EffortSet := cs_EffortSet cs || non_empty (cs_Effort cs) |>
      <| cs_ModelAuthoritative := cs_ModelAuthoritative cs |>
      <| cs_EffortAuthoritative := cs_EffortAuthoritative cs |> <| cs_ForkParentID := cs_ForkParentID cs |>)
  | DSCodex cs =>
    let transcript := c_TranscriptPath (xs_Common cs) in
    let rollout := if bool_decide (xs_RolloutPath cs = "") then transcript else xs_RolloutPath cs in
    DSCodex (zero_codex
      <| xs_Common := if bool_decide (transcript = "") then c <| c_TranscriptPath := rollout |> else c |>
      <| xs_ThreadID := xs_ThreadID cs |> <| xs_SessionID := xs_SessionID cs |> <| xs_RolloutPath := rollout |>
      <| xs_Model := xs_Model cs |> <| xs_Effort := xs_Effort cs |>
      <| xs_ModelSet := xs_ModelSet cs || non_empty (xs_Model cs) |>
      <| xs_EffortSet := xs_EffortSet cs || non_empty (xs_Effort cs) |>
      <| xs_ModelAuthoritative := xs_ModelAuthoritative cs |>
      <| xs_EffortAuthoritative := xs_EffortAuthoritative cs |>
      <| xs_RequestedThreadID := xs_RequestedThreadID cs |> <| xs_ObservedThreadID := xs_ObservedThreadID cs |>
      <| xs_ResumePhase := xs_ResumePhase cs |> <| xs_Preview := xs_Preview cs |>
      <| xs_DisplayFallback :=
           if bool_decide (xs_DisplayFallback cs = "")
           then Codex.codexDisplayFallback (xs_Preview cs) (c_LastPrompt (xs_Common cs))
           else xs_DisplayFallback cs |>)
  | DSGemini gs => DSGemini (zero_gemini <| gm_Common := c |> <| gm_GeminiSessionID := gm_GeminiSessionID gs |>)
  end.

Definition int64_ok (n : Z) : Prop := min_int64 <= n <= max_int64.

(** The times have a year of four digits, the integers are int64 as in the code. *)
Definition persistable (s : BuiltinState) : Prop :=
  common_ok (common_of s) /\
  match s with
  | DSShell ss => forall n, shl_LastExitCode ss = Some n -> int64_ok n
  | DSAgy a => int64_ok (ag_LastInvocation a)
  | _ => True
  end.

Lemma own_of_own s : own_entries (own_of s) = true.
Proof. by destruct s. Qed.

Lemma int_roundtrip (o : option Z) : (forall n, o = Some n -> int64_ok n) ->
  (if bool_decide (default "" (show_int <$> o) = "") then None
   else Atoi (default "" (show_int <$> o))) = o.
Proof.
  intros Ho. destruct o as [n|]; [|done]. simpl. rewrite bool_decide_eq_false_2 by apply show_int_ne.
  by apply Atoi_show, Ho.
Qed.

Lemma restore_common s status now : persistable s ->
  RestoreCommon (new_common status now) (persist s) = durable_common now (common_of s).
Proof. intros [Hc _]. rewrite persist_puts. apply RestoreCommon_puts; [done|apply own_of_own]. Qed.

Lemma persist_ne s : persist s <> ∅.
Proof. rewrite persist_puts. apply puts_nonempty, own_of_own. Qed.

Lemma persist_get s k :
  forallb (fun kv => negb (String.eqb kv.1 k)) (common_entries zero_common) = true ->
  bag_get (persist s) k = last_put k (own_of s) "".
Proof. rewrite persist_puts. apply own_get. Qed.

Lemma firstPersisted_legacy s k legacy :
  bag_get (persist s) legacy = "" -> firstPersistedValue (persist s) [k; legacy] = bag_get (persist s) k.
Proof. intros Hl. simpl. rewrite Hl. by case_bool_decide. Qed.

Ltac own_keys :=
  unfold get_flag; rewrite ?firstPersisted_legacy by (by rewrite persist_get by done);
  rewrite ?persist_get by done;
  unfold own_of, claude_entries, codex_entries;
  cbn -[some_string some_flag some_int durable_common bool_decide Atoi show_int non_empty
        Codex.codexDisplayFallback];
  rewrite ?some_string_default, ?some_flag_get.

Ltac restoring s :=
  rewrite ?bool_decide_eq_false_2 by apply persist_ne;
  match goal with |- context [RestoreCommon ?c (persist s)] =>
    let st := eval cbv in (c_Status c) in change c with (new_common st (c_StatusChangedAt c)) end;
  rewrite restore_common by done; own_keys.

Lemma restore_shell ss d now : persistable (DSShell ss) ->
  restore d (DSShell ss) (persist (DSShell ss)) now = durable d now (DSShell ss).
Proof.
  intros Hp. unfold restore, durable, Shell.Restore. cbv zeta. restoring (DSShell ss).
  pose proof (int_roundtrip (shl_LastExitCode ss) (proj2 Hp)) as Hi. f_equal. f_equal.
  by destruct (shl_LastExitCode ss).
Qed.

Lemma restore_agy a d now : persistable (DSAgy a) ->
  restore d (DSAgy a) (persist (DSAgy a)) now = durable d now (DSAgy a).
Proof.
  intros Hp. unfold restore, durable, Agy.Restore. cbv zeta. restoring (DSAgy a).
  unfold some_int. destruct (ag_HasInvocation a); [|done]. simpl.
  rewrite bool_decide_eq_false_2 by apply show_int_ne. by rewrite Atoi_show by apply Hp.
Qed.

Lemma restore_codex cs d now : persistable (DSCodex cs) ->
  restore d (DSCodex cs) (persist (DSCodex cs)) now = durable d now (DSCodex cs).
Proof.
  intros Hp. unfold restore, durable, Codex.Restore. cbv zeta. restoring (DSCodex cs).
  done.
Qed.

Lemma restore_durable d now s : persistable s -> restore d s (persist s) now = durable d now s.
Proof.
  intros Hp. destruct s as [s|s|s|s|s|s|s].
  - unfold restore, durable, Generic.Restore. cbv zeta. by restoring (DSGeneric s).
  - by apply restore_shell.
  - by apply restore_agy.
  - unfold restore, durable, Grok.Restore. cbv zeta. by restoring (DSGrok s).
  - unfold restore, durable, Claude.Restore. cbv zeta. by restoring (DSClaude s).
  - by apply restore_codex.
  - unfold restore, durable, Gemini.Restore. cbv zeta. by restoring (DSGemini s).
Qed.

(** C19: A restart keeps what it should: for every built-in driver and every state whose
    times have a four-digit year, [Restore] of what [Persist] wrote gives the state back
    with exactly the volatile fields reset (the project, the status evidence, the jobs in
    flight, the transcript and tool bookkeeping), times truncated to seconds, a set model
    or effort marked as set, and codex's rollout path and display fallback filled in. *)
Theorem restore_persist d now s : persistable s -> restore d s (persist s) now = durable d now s.
Proof. apply restore_durable. Qed.

(** A Claude session and a Codex session whose transcript path is only in the rollout. *)
Lemma restore_persist_witness :
  let c := new_common StatusPending (2000000000 * Second + 5) <| c_Title := "t" |> in
  let cs := zero_claude <| cs_Common := c |> <| cs_ClaudeSessionID := "s1" |> <| cs_Model := "m" |> in
  let xs := zero_codex <| xs_Common := c |> <| xs_RolloutPath := "/r" |> in
  let d := Generic.mkGenericDriver "x" "x" 0 in
  let c' := new_common StatusPending (2000000000 * Second) <| c_Title := "t" |> in
  restore d (DSClaude cs) (persist (DSClaude cs)) 7 =
    DSClaude (zero_claude <| cs_Common := c' |> <| cs_ClaudeSessionID := "s1" |> <| cs_Model := "m" |>
                          <| cs_ModelSet := true |>) /\
  restore d (DSCodex xs) (persist (DSCodex xs)) 7 =
    DSCodex (zero_codex <| xs_Common := c' <| c_TranscriptPath := "/r" |> |> <| xs_RolloutPath := "/r" |>).
Proof.
  intros c cs xs d c'. assert (common_ok c) as Hc by (vm_compute; intuition congruence).
  split.
  - rewrite (restore_persist d 7 (DSClaude cs)) by (by split). vm_compute. reflexivity.
  - rewrite (restore_persist d 7 (DSCodex xs)) by (by split). vm_compute. reflexivity.
Defined.
