(* ===== verification/DriverStatus.v ===== *)
(** * host/driver: status evidence

    status_evidence.go resolves a session's status from what the process, the hooks,
    the terminal title and the terminal progress last said.  The resolution is
    characterised as a relation on the evidence, and shown not to depend on the order
    in which the sources were heard. *)

From S2P Require Import Prelude GoStd GoStrings HostState DriverTypes DriverCommon.

(** ** The specification *)

Definition process_stopped (e : StatusEvidence) : Prop :=
  so_Valid (se_Process e) = true /\ so_Status (se_Process e) = StatusStopped.

Definition action_required (e : StatusEvidence) : Prop :=
  (so_Valid (se_Hook e) = true /\ so_Status (se_Hook e) = StatusPending) \/
  so_Valid (se_TerminalActionRequired e) = true.

(** The observations that compete when neither holds. *)
Definition candidates (e : StatusEvidence) : list StatusObservation :=
  base.filter (fun o => so_Valid o = true) [se_Hook e; se_Terminal e; se_Progress e].

(** [o] is not newer than [o'], and at the same time does not have a higher priority. *)
Definition beaten (o o' : StatusObservation) : Prop :=
  so_ObservedAt o < so_ObservedAt o' \/
  (so_ObservedAt o = so_ObservedAt o' /\ statusPriority (so_Status o) <= statusPriority (so_Status o')).

Definition winner (e : StatusEvidence) (o : StatusObservation) : Prop :=
  o ∈ candidates e /\ forall o', o' ∈ candidates e -> beaten o' o.

Inductive resolved (e : StatusEvidence) (before : Status) : Status -> Prop :=
| resolved_stopped : process_stopped e -> resolved e before StatusStopped
| resolved_pending : ~ process_stopped e -> action_required e -> resolved e before StatusPending
| resolved_winner o : ~ process_stopped e -> ~ action_required e -> winner e o ->
    resolved e before (so_Status o)
| resolved_silent : ~ process_stopped e -> ~ action_required e -> candidates e = [] ->
    resolved e before before.

Lemma statusPriority_inj s s' : statusPriority s = statusPriority s' -> s = s'.
Proof. by destruct s, s'. Qed.

Lemma winner_unique e o o' : winner e o -> winner e o' -> so_Status o = so_Status o'.
Proof.
  intros [Ho Hm] [Ho' Hm']. apply statusPriority_inj. specialize (Hm _ Ho'). specialize (Hm' _ Ho).
  unfold beaten in *. lia.
Qed.

Lemma resolved_unique e before s s' : resolved e before s -> resolved e before s' -> s = s'.
Proof.
  intros [] []; try done; try (by eapply winner_unique); exfalso;
    match goal with Hw : winner _ _, Hc : candidates _ = [] |- _ =>
      destruct Hw as [Hw _]; rewrite Hc in Hw; by apply elem_of_nil in Hw end.
Qed.

(** ** The loop *)

Lemma beaten_refl o : beaten o o.
Proof. unfold beaten. lia. Qed.

Lemma beaten_trans o o' o'' : beaten o o' -> beaten o' o'' -> beaten o o''.
Proof. unfold beaten. lia. Qed.

(** A valid accumulator stays valid, is one of the observations, and beats them all. *)
Lemma better_fold l best :
  let r := foldl better best l in
  let valid := base.filter (fun o => so_Valid o = true) (best :: l) in
  (valid = [] -> so_Valid r = false) /\
  (valid <> [] -> r ∈ valid /\ forall o, o ∈ valid -> beaten o r).
Proof.
  revert best. induction l as [|o l IH]; intros best; simpl.
  - rewrite filter_cons, filter_nil. destruct (so_Valid best) eqn:Hb; simpl; split; intros H; try done.
    split; [by apply list_elem_of_singleton|]. intros o ->%list_elem_of_singleton. apply beaten_refl.
  - specialize (IH (better best o)). simpl in IH. revert IH.
    set (r := foldl better (better best o) l). clearbody r. unfold better.
    rewrite !filter_cons. destruct (so_Valid o) eqn:Ho; simpl; [|by destruct (so_Valid best) eqn:Hb; rewrite ?Hb].
    destruct (so_Valid best) eqn:Hb; simpl; [|rewrite Ho; done].
    destruct (Before _ _ || _) eqn:Hc.
    + rewrite Ho. intros [_ IH]. specialize (IH ltac:(done)) as [IH1 IH2]. split; [done|]. intros _.
      split; [set_solver|]. intros x [->|Hx]%elem_of_cons; [|by apply IH2].
      apply (beaten_trans _ o); [|apply IH2; set_solver].
      unfold beaten, Before in *. destruct (_ <? _) eqn:H1; simpl in Hc; lia.
    + rewrite Hb. intros [_ IH]. specialize (IH ltac:(done)) as [IH1 IH2]. split; [done|]. intros _.
      split; [set_solver|]. intros x Hx. apply elem_of_cons in Hx as [->|Hx]; [apply IH2; set_solver|].
      apply elem_of_cons in Hx as [->|Hx]; [|apply IH2; set_solver].
      apply (beaten_trans _ best); [|apply IH2; set_solver].
      unfold beaten, Before in *. destruct (_ <? _) eqn:H1; simpl in Hc; lia.
Qed.

Lemma setResolvedStatus_status c s t : c_Status (setResolvedStatus c s t) = s.
Proof. unfold setResolvedStatus. case_bool_decide; [done|]. by destruct (IsZero t). Qed.

Lemma ResolveStatus_resolved c : resolved (c_StatusEvidence c) (c_Status c) (c_Status (ResolveStatus c)).
Proof.
  unfold ResolveStatus. cbv zeta. set (e := c_StatusEvidence c).
  destruct (so_Valid (se_Process e) && _) eqn:Hp.
  { apply andb_true_iff in Hp as [Hv Hs%bool_decide_eq_true]. rewrite setResolvedStatus_status.
    by apply resolved_stopped. }
  assert (~ process_stopped e) as Hn.
  { intros [Hv Hs]. by rewrite Hv, bool_decide_eq_true_2 in Hp. }
  destruct (so_Valid (se_Hook e) && _) eqn:Hh.
  { apply andb_true_iff in Hh as [Hv Hs%bool_decide_eq_true]. rewrite setResolvedStatus_status.
    apply resolved_pending; [done|by left]. }
  destruct (so_Valid (se_TerminalActionRequired e)) eqn:Ht.
  { rewrite setResolvedStatus_status. apply resolved_pending; [done|by right]. }
  assert (~ action_required e) as Ha.
  { intros [[Hv Hs]|Hv]; [|congruence]. by rewrite Hv, bool_decide_eq_true_2 in Hh. }
  destruct (better_fold [se_Hook e; se_Terminal e; se_Progress e] zero_observation) as [H0 H1].
  set (best := foldl _ _ _) in *. clearbody best. rewrite filter_cons_False in H0, H1 by done.
  fold (candidates e) in H0, H1. destruct (candidates e) as [|o l] eqn:Hc.
  - rewrite (H0 eq_refl). simpl. by apply resolved_silent.
  - destruct (H1 ltac:(done)) as [Hin Hm]. assert (so_Valid best = true) as Hv.
    { rewrite <- Hc in Hin. by apply list_elem_of_filter in Hin as [? _]. }
    rewrite Hv. simpl. rewrite setResolvedStatus_status. apply resolved_winner; [done..|].
    split; rewrite Hc; [done|]. apply Hm.
Qed.

(** ** The order of observations *)

(** The evidence after a source reported [st] at [t]. *)
Definition observed (source : StatusEvidenceSource) (st : Status) (t : Time) (e : StatusEvidence) :
    StatusEvidence :=
  let o := mkObservation st t true in
  match source with
  | StatusSourceProcess => e <| se_Process := o |>
  | StatusSourceHook => e <| se_Hook := o |>
  | StatusSourceTerminal =>
    e <| se_Terminal := o |>
      <| se_TerminalActionRequired :=
           if bool_decide (st = StatusPending) then o
           else se_TerminalActionRequired e <| so_Valid := false |> |>
  | StatusSourceProgress => e <| se_Progress := o |>
  end.

Lemma ObserveStatus_observed c source st t : t <> 0 ->
  ObserveStatus c source st t =
  ResolveStatus (c <| c_StatusEvidence := observed source st t (c_StatusEvidence c) |>).
Proof.
  intros Ht. unfold ObserveStatus, IsZero. rewrite (proj2 (Z.eqb_neq _ _) Ht).
  destruct source; try done. by unfold observed; case_bool_decide.
Qed.

Lemma ResolveStatus_evidence c : c_StatusEvidence (ResolveStatus c) = c_StatusEvidence c.
Proof.
  assert (forall s t, c_StatusEvidence (setResolvedStatus c s t) = c_StatusEvidence c) as Hs.
  { intros s t. unfold setResolvedStatus. case_bool_decide; [done|]. by destruct (IsZero t). }
  unfold ResolveStatus. cbv zeta. repeat case_match; auto.
Qed.

Lemma observed_comm s1 st1 t1 s2 st2 t2 e : s1 <> s2 ->
  observed s2 st2 t2 (observed s1 st1 t1 e) = observed s1 st1 t1 (observed s2 st2 t2 e).
Proof. by destruct s1, s2. Qed.

Lemma observed_candidates source st t e :
  source <> StatusSourceProcess -> candidates (observed source st t e) <> [].
Proof.
  intros Hs Hc. assert (mkObservation st t true ∈ candidates (observed source st t e)) as Hin.
  { apply list_elem_of_filter. split; [done|]. destruct source; [done|..]; simpl; set_solver. }
  rewrite Hc in Hin. by apply elem_of_nil in Hin.
Qed.

(** Once a competing source has spoken, the status shown before no longer matters. *)
Lemma resolved_forgets e b b' s s' :
  candidates e <> [] -> resolved e b s -> resolved e b' s' -> s = s'.
Proof. intros Hc [] []; try done. by eapply winner_unique. Qed.

Lemma ObserveStatus_twice c s1 st1 t1 s2 st2 t2 : t1 <> 0 -> t2 <> 0 -> exists b,
  resolved (observed s2 st2 t2 (observed s1 st1 t1 (c_StatusEvidence c))) b
           (c_Status (ObserveStatus (ObserveStatus c s1 st1 t1) s2 st2 t2)).
Proof.
  intros H1 H2. rewrite (ObserveStatus_observed _ s2), (ObserveStatus_observed _ s1) by done.
  rewrite ResolveStatus_evidence. eexists. exact (ResolveStatus_resolved (_ <| c_StatusEvidence := _ |>)).
Qed.

(** What two different sources say may be heard in either order. *)
Lemma observations_commute c s1 st1 t1 s2 st2 t2 : s1 <> s2 -> t1 <> 0 -> t2 <> 0 ->
  c_Status (ObserveStatus (ObserveStatus c s1 st1 t1) s2 st2 t2) =
  c_Status (ObserveStatus (ObserveStatus c s2 st2 t2) s1 st1 t1).
Proof.
  intros Hs H1 H2.
  destruct (ObserveStatus_twice c s1 st1 t1 s2 st2 t2 H1 H2) as [b Hb].
  destruct (ObserveStatus_twice c s2 st2 t2 s1 st1 t1 H2 H1) as [b' Hb'].
  rewrite (observed_comm s2 _ _ s1) in Hb' by done. revert Hb Hb'. apply resolved_forgets.
  destruct s2; [|by apply observed_candidates..].
  rewrite observed_comm by done. by apply observed_candidates.
Qed.

(** C30: The status a session shows is the one the evidence calls for: [ResolveStatus]
    sets [s] exactly when [s] is Stopped because the process was seen to stop, else
    Pending because a hook or the terminal asks for the user, else the status of the
    newest valid observation of hook, terminal and progress, the one of highest priority
    among equally new ones, else, without any, the status it had. *)
Theorem ResolveStatus_spec c s :
  c_Status (ResolveStatus c) = s <-> resolved (c_StatusEvidence c) (c_Status c) s.
Proof.
  split; [intros <-; apply ResolveStatus_resolved|]. intros Hs.
  eapply resolved_unique; [apply ResolveStatus_resolved|exact Hs].
Qed.
