(* ===== verification/DriverFlags.v ===== *)
(** * host/driver: rewriting the flags of a launch command

    worktree.go and flags.go edit a command as text, keeping the raw spelling of the
    arguments they do not touch.  What the program started from that text sees is its
    argument vector: here the text edits are shown to be the intended edits of the
    argument vector. *)

From Stdlib Require Import String.
From S2P Require Import Prelude GoStd GoStrings ShellArgs HostState DriverTypes DriverCommon.

(** ** Texts that trimming leaves alone *)

Lemma trim_bytes_suffix rev l : exists p, l = p ++ trim_bytes rev l.
Proof.
  remember (length l) as n eqn:Hn. revert l Hn. induction (lt_wf n) as [n _ IH]. intros l ->.
  destruct l as [|a l1]; [by exists []|]. simpl. destruct (space1 a).
  { destruct (IH (length l1)) with (l := l1) as [p Hp]; [simpl; lia|done|]. exists (a :: p). by rewrite Hp at 1. }
  destruct l1 as [|b l2]; [by exists []|]. destruct (if rev then space2 b a else space2 a b).
  { destruct (IH (length l2)) with (l := l2) as [p Hp]; [simpl; lia|done|]. exists (a :: b :: p). by rewrite Hp at 1. }
  destruct l2 as [|c l3]; [by exists []|]. destruct (if rev then space3 c b a else space3 a b c).
  { destruct (IH (length l3)) with (l := l3) as [p Hp]; [simpl; lia|done|]. exists (a :: b :: c :: p). by rewrite Hp at 1. }
  by exists [].
Qed.

Lemma trim_bytes_length rev l : (length (trim_bytes rev l) <= length l)%nat.
Proof. destruct (trim_bytes_suffix rev l) as [p Hp]. rewrite Hp at 2. rewrite length_app. lia. Qed.

Lemma trim_bytes_same rev l : length (trim_bytes rev l) = length l -> trim_bytes rev l = l.
Proof.
  intros Hl. destruct (trim_bytes_suffix rev l) as [p Hp]. rewrite Hp in Hl at 2. rewrite length_app in Hl.
  destruct p; [done|simpl in Hl; lia].
Qed.

(** No space at the front ([rev]: of the reverse, at the back). *)
Definition firm (rev : bool) (l : list ascii) : Prop := l <> [] /\ trim_bytes rev l = l.

Definition solid (s : string) : Prop :=
  firm false (list_ascii_of_string s) /\ firm true (reverse (list_ascii_of_string s)).

Lemma TrimSpace_solid s : solid s -> TrimSpace s = s.
Proof.
  intros [[_ Hf] [_ Hb]]. unfold TrimSpace. rewrite Hf, Hb, reverse_involutive.
  apply string_of_list_ascii_of_string.
Qed.

Lemma solid_TrimSpace s : s <> "" -> TrimSpace s = s -> solid s.
Proof.
  intros Hne Ht. unfold TrimSpace in Ht. set (l := list_ascii_of_string s) in *.
  apply (f_equal list_ascii_of_string) in Ht. rewrite list_ascii_of_string_of_list_ascii in Ht. fold l in Ht.
  pose proof (trim_bytes_length false l) as H1.
  pose proof (trim_bytes_length true (reverse (trim_bytes false l))) as H2.
  pose proof (f_equal length Ht) as H3. rewrite !length_reverse in *.
  assert (trim_bytes false l = l) as Hl by (apply trim_bytes_same; lia).
  assert (l <> []) as Hnil.
  { intros Hnil. apply Hne. rewrite <- (string_of_list_ascii_of_string s). fold l. by rewrite Hnil. }
  split; split; [done|done| |]; fold l.
  - intros Hr. apply Hnil. rewrite <- (reverse_involutive l), Hr. done.
  - apply trim_bytes_same. rewrite Hl in *. rewrite length_reverse. lia.
Qed.

(** The bytes that are not part of a space of two or three bytes: the ASCII ones. *)
Definition ascii_byte (c : ascii) : Prop := byte_Z c < 0x80.

Lemma space2_ascii a b : ascii_byte a \/ ascii_byte b -> space2 a b = false.
Proof. unfold ascii_byte, space2. intros Hb. destruct (Z.eqb_spec (byte_Z a) 0xc2), (Z.eqb_spec (byte_Z b) 0x85),
  (Z.eqb_spec (byte_Z b) 0xa0); simpl; lia. Qed.

Lemma space3_ascii a b c : ascii_byte a \/ ascii_byte b \/ ascii_byte c -> space3 a b c = false.
Proof.
  unfold ascii_byte, space3, in_range. intros Hb.
  destruct (Z.eqb_spec (byte_Z a) 0xe1), (Z.eqb_spec (byte_Z a) 0xe2), (Z.eqb_spec (byte_Z a) 0xe3),
    (Z.eqb_spec (byte_Z b) 0x9a), (Z.eqb_spec (byte_Z b) 0x80), (Z.eqb_spec (byte_Z b) 0x81); simpl; lia.
Qed.

Lemma firm_cons rev a l : ascii_byte a -> space1 a = false -> firm rev (a :: l).
Proof.
  intros Ha H1. split; [done|]. simpl. rewrite H1. destruct l as [|b l2]; [done|].
  assert ((if rev then space2 b a else space2 a b) = false) as -> by (destruct rev; apply space2_ascii; auto).
  destruct l2 as [|c l3]; [done|].
  assert ((if rev then space3 c b a else space3 a b c) = false) as -> by (destruct rev; apply space3_ascii; auto).
  done.
Qed.

(** A firm text stays firm when an ASCII byte and anything else follow. *)
Lemma firm_app rev l x k : firm rev l -> ascii_byte x -> firm rev (l ++ x :: k).
Proof.
  intros [Hne Ht] Hx. destruct l as [|a l1]; [done|]. split; [done|]. simpl in *.
  destruct (space1 a) eqn:H1.
  { pose proof (trim_bytes_length rev l1) as Hl. rewrite Ht in Hl. simpl in Hl. lia. }
  assert (forall p, (if rev then space2 x p else space2 p x) = false) as X2
    by (intros p; destruct rev; apply space2_ascii; auto).
  assert (forall p q, (if rev then space3 x p q else space3 q p x) = false) as X3
    by (intros p q; destruct rev; apply space3_ascii; auto).
  assert (forall p q, (if rev then space3 q x p else space3 p x q) = false) as Y3
    by (intros p q; destruct rev; apply space3_ascii; auto).
  destruct l1 as [|b l2]; simpl in *.
  { rewrite X2. destruct k as [|c k]; [done|]. by rewrite Y3. }
  destruct (if rev then space2 b a else space2 a b).
  { pose proof (trim_bytes_length rev l2) as Hl. rewrite Ht in Hl. simpl in Hl. lia. }
  destruct l2 as [|c l3]; simpl in *; [by rewrite X3|].
  destruct (if rev then space3 c b a else space3 a b c); [|done].
  pose proof (trim_bytes_length rev l3) as Hl. rewrite Ht in Hl. simpl in Hl. lia.
Qed.

(** Solid words joined with blanks. *)
Lemma solid_join words : words <> [] -> Forall solid words -> solid (strings_Join words " ").
Proof.
  intros Hne Hw. induction Hw as [|w words [Hf Hb] Hw IH]; [done|]. destruct words as [|w' words].
  { by split. }
  specialize (IH ltac:(done)) as [IHf IHb].
  change (strings_Join (w :: w' :: words) " ") with (w +:+ " " +:+ strings_Join (w' :: words) " ").
  set (rest := strings_Join _ _) in *. unfold solid. rewrite !ascii_app. simpl (list_ascii_of_string " ").
  split; [by apply firm_app|]. rewrite !reverse_app, <- app_assoc. simpl. by apply firm_app.
Qed.

(** ** Quoted arguments are solid *)

Lemma solid_bytes a l z : list_ascii_of_string z = a :: l ->
  Forall (fun c => ascii_byte c /\ space1 c = false) (a :: l) -> solid z.
Proof.
  intros Hz Hl. unfold solid. rewrite Hz. split.
  - apply Forall_cons in Hl as [[Ha H1] _]. by apply firm_cons.
  - apply Forall_reverse in Hl. destruct (reverse (a :: l)) as [|x k] eqn:Hr.
    { apply (f_equal length) in Hr. by rewrite length_reverse in Hr. }
    apply Forall_cons in Hl as [[Ha H1] _]. by apply firm_cons.
Qed.

Lemma safe_byte c : safe_rune (byte_Z c) = true -> ascii_byte c /\ space1 c = false.
Proof.
  intros Hs. pose proof (safe_rune_low _ Hs) as Hl. split; [unfold ascii_byte; lia|].
  by destruct c as [[] [] [] [] [] [] [] []].
Qed.

Lemma quoteArg_solid arg : solid (quoteArg arg).
Proof.
  unfold quoteArg. destruct (bool_decide_reflect (arg = "")) as [->|Hne].
  { eapply solid_bytes; [done|]. by repeat constructor. }
  destruct (isSafeArg arg) eqn:Hs.
  - pose proof (isSafeArg_bytes arg Hs) as Hb. destruct arg as [|a arg]; [done|]. eapply solid_bytes; [done|].
    eapply Forall_impl; [exact Hb|]. intros c. apply safe_byte.
  - unfold solid. rewrite !ascii_app. change (list_ascii_of_string (single quote)) with [quote]. split.
    + by apply firm_cons.
    + rewrite !reverse_app. simpl. by apply firm_cons.
Qed.

(** ** What a program reads from its arguments *)

Section Flags.
Variable flags : list string.

(** The values given to the flags, in order: [flag value], [flag=value], or "" when
    nothing or another flag follows. *)
Fixpoint settings (argv : list string) : list string :=
  match argv with
  | [] => []
  | p :: rest =>
    match match_flag flags p with
    | Some m =>
      if exact_flag flags p then
        match rest with
        | v :: rest' => if HasPrefix v "-" then "" :: settings rest else v :: settings rest'
        | [] => [""]
        end
      else (match m with FlagValue v => v | FlagExact => "" end) :: settings rest
    | None => settings rest
    end
  end.

(** The other arguments. *)
Fixpoint others (argv : list string) : list string :=
  match argv with
  | [] => []
  | p :: rest =>
    if bool_decide (is_Some (match_flag flags p)) then
      if exact_flag flags p then
        match rest with
        | v :: rest' => if HasPrefix v "-" then others rest else others rest'
        | [] => []
        end
      else others rest
    else p :: others rest
  end.

(** ** The edit of the tokens *)

(** [flag_loop] with tokens instead of their text. *)
Fixpoint edit (new : list ArgToken) (tokens : list ArgToken) : list ArgToken * bool :=
  match tokens with
  | [] => ([], false)
  | t :: rest =>
    match match_flag flags (Value t) with
    | Some _ =>
      let rest' := match rest with
                   | v :: rest' => if exact_flag flags (Value t) && negb (is_dashed v)
                                   then edit [] rest' else edit [] rest
                   | [] => ([], false)
                   end in
      (new ++ rest'.1, true)
    | None => let '(out, replaced) := edit new rest in (t :: out, replaced)
    end
  end.

Lemma settings_none p rest : match_flag flags p = None -> settings (p :: rest) = settings rest.
Proof. simpl. by intros ->. Qed.

Lemma others_none p rest : match_flag flags p = None -> others (p :: rest) = p :: others rest.
Proof. simpl. by intros ->. Qed.

(** What is left after a flag. *)
Definition after (t : ArgToken) (rest : list ArgToken) : list ArgToken :=
  match rest with
  | v :: rest' => if exact_flag flags (Value t) && negb (is_dashed v) then rest' else rest
  | [] => []
  end.

Lemma edit_flag new t rest m :
  match_flag flags (Value t) = Some m -> edit new (t :: rest) = (new ++ (edit [] (after t rest)).1, true).
Proof. simpl. intros ->. destruct rest as [|v rest]; [done|]. unfold after. by destruct (_ && _). Qed.

Lemma edit_other new t rest :
  match_flag flags (Value t) = None -> edit new (t :: rest) = (t :: (edit new rest).1, (edit new rest).2).
Proof. simpl. intros ->. by destruct (edit new rest). Qed.

Lemma others_flag t rest m :
  match_flag flags (Value t) = Some m -> others (Value <$> t :: rest) = others (Value <$> after t rest).
Proof.
  intros Hm. destruct rest as [|v rest]; simpl; rewrite Hm; simpl; [by destruct (exact_flag _ _)|].
  unfold is_dashed. destruct (exact_flag flags (Value t)); simpl; [|done].
  by destruct (HasPrefix (Value v) "-").
Qed.

(** Without new tokens the flags and their values are gone. *)
Lemma edit_strip tokens :
  settings (Value <$> (edit [] tokens).1) = [] /\
  others (Value <$> (edit [] tokens).1) = others (Value <$> tokens).
Proof.
  remember (length tokens) as n eqn:Hn. revert tokens Hn. induction (lt_wf n) as [n _ IH]. intros tokens ->.
  destruct tokens as [|t rest]; [done|]. destruct (match_flag flags (Value t)) as [m|] eqn:Hm.
  - rewrite (edit_flag _ _ _ m Hm), (others_flag _ _ m Hm). simpl. eapply IH; [|reflexivity].
    unfold after. destruct rest as [|v rest]; simpl; [lia|]. destruct (_ && _); simpl; lia.
  - rewrite edit_other by done. cbn [fst]. rewrite !fmap_cons, settings_none, !others_none by done.
    destruct (IH (length rest)) with (tokens := rest) as [-> ->]; [simpl; lia|done|done].
Qed.

(** With a flag and its value as new tokens, they are its only setting. *)
Lemma edit_replace tokens new flag value :
  Value <$> new = [flag; value] -> match_flag flags flag = Some FlagExact -> exact_flag flags flag = true ->
  HasPrefix value "-" = false ->
  let out := if (edit new tokens).2 then (edit new tokens).1 else (edit new tokens).1 ++ new in
  settings (Value <$> out) = [value] /\ others (Value <$> out) = others (Value <$> tokens).
Proof.
  intros Hnew Hf He Hv. cbv zeta.
  assert (forall out, settings (Value <$> (new ++ out)) = value :: settings (Value <$> out) /\
                      others (Value <$> (new ++ out)) = others (Value <$> out)) as Hn.
  { intros out. rewrite fmap_app, Hnew. simpl. by rewrite Hf, He, Hv. }
  induction tokens as [|t rest IH].
  - simpl. destruct (Hn []) as [Hs Ho]. rewrite app_nil_r in *. by rewrite Hs, Ho.
  - destruct (match_flag flags (Value t)) as [m|] eqn:Hm.
    + rewrite (edit_flag _ _ _ m Hm), (others_flag _ _ m Hm). cbn [fst snd].
      destruct (Hn (edit [] (after t rest)).1) as [-> ->]. by destruct (edit_strip (after t rest)) as [-> ->].
    + rewrite edit_other by done. cbn [fst snd].
      assert (forall (b : bool) l, (if b then t :: l else (t :: l) ++ new) = t :: if b then l else l ++ new) as ->
        by (by intros []).
      rewrite !fmap_cons, settings_none, !others_none by done. by destruct IH as [-> ->].
Qed.

End Flags.

(** ** The edit of the text *)

Definition sturdy (t : ArgToken) : Prop := lexes_to (Raw t) (Value t) /\ solid (Raw t).

Lemma quoted_sturdy arg : sturdy (quoted arg).
Proof. split; [apply quoteArg_lexes|apply quoteArg_solid]. Qed.

Lemma lexes_ne raw value : lexes_to raw value -> raw <> "".
Proof. intros Hl ->. specialize (Hl []). done. Qed.

Lemma split_sturdy command tokens :
  splitCommandTokens command = inr tokens -> Forall (fun t => TrimSpace (Raw t) = Raw t) tokens ->
  Forall sturdy tokens.
Proof.
  unfold splitCommandTokens. rewrite LexArgs_lex. intros Hl Ht.
  destruct (lex_tokens _ _ Hl) as (gaps & l & _ & _ & _ & _ & Hall).
  apply Forall_forall. intros t Hin. rewrite Forall_forall in Hall, Ht. specialize (Hall t Hin).
  split; [done|]. apply solid_TrimSpace; [by eapply lexes_ne|by apply Ht].
Qed.

(** The text of sturdy tokens is read back as they are. *)
Lemma split_join tokens : Forall sturdy tokens ->
  splitCommandArgs (joinCommandText (Raw <$> tokens)) = inr (Value <$> tokens).
Proof.
  intros Ht. unfold splitCommandArgs, joinCommandText, SplitArgs.
  assert (TrimSpace (strings_Join (Raw <$> tokens) " ") = strings_Join (Raw <$> tokens) " ") as Hs.
  { destruct (decide (tokens = [])) as [->|Hne]; [done|]. apply TrimSpace_solid, solid_join.
    - by destruct tokens.
    - apply Forall_fmap. eapply Forall_impl; [exact Ht|]. by intros t []. }
  rewrite !Hs, LexArgs_lex. change (Raw <$> tokens) with (map Raw tokens). rewrite (lex_join tokens); [done|].
  eapply Forall_impl; [exact Ht|]. by intros t [].
Qed.

(** Pieces of text that are joined arguments themselves. *)
Definition pieces (out raws : list string) : Prop := exists groups,
  out = (fun g => strings_Join g " ") <$> groups /\ raws = concat groups /\ Forall (fun g => g <> []) groups.

Lemma join_app l k : l <> [] -> k <> [] ->
  strings_Join (l ++ k) " " = strings_Join l " " +:+ " " +:+ strings_Join k " ".
Proof.
  intros Hl Hk. induction l as [|x l IH]; [done|]. destruct l as [|y l]; [by destruct k|].
  cbn [app strings_Join] in *. rewrite IH by done. by rewrite !str_app_assoc.
Qed.

Lemma join_pieces out raws : pieces out raws -> strings_Join out " " = strings_Join raws " ".
Proof.
  intros (groups & -> & -> & Hg). induction Hg as [|g groups Hne Hg IH]; [done|].
  destruct groups as [|g' groups]; [simpl; by rewrite app_nil_r|].
  cbn [concat]. rewrite join_app; [|done|].
  - rewrite fmap_cons. cbn [concat] in IH. rewrite <- IH. done.
  - apply Forall_cons in Hg as [Hne' _]. cbn [concat]. by destruct g'.
Qed.

Lemma pieces_nil : pieces [] [].
Proof. by exists []. Qed.

Lemma pieces_app out1 raws1 out2 raws2 :
  pieces out1 raws1 -> pieces out2 raws2 -> pieces (out1 ++ out2) (raws1 ++ raws2).
Proof.
  intros (g1 & -> & -> & H1) (g2 & -> & -> & H2). exists (g1 ++ g2).
  by rewrite fmap_app, concat_app, Forall_app.
Qed.

Lemma pieces_one raws : raws <> [] -> pieces [strings_Join raws " "] raws.
Proof. intros Hne. exists [raws]. simpl. rewrite app_nil_r. by repeat constructor. Qed.

Lemma flag_loop_flag flags rendered t rest m : match_flag flags (Value t) = Some m ->
  flag_loop flags rendered (t :: rest) =
  (from_option (fun r => [r]) [] rendered ++ (flag_loop flags None (after flags t rest)).1, true).
Proof. simpl. intros ->. destruct rest as [|v rest]; [done|]. unfold after. by destruct (_ && _). Qed.

Lemma flag_loop_other flags rendered t rest : match_flag flags (Value t) = None ->
  flag_loop flags rendered (t :: rest) =
  (Raw t :: (flag_loop flags rendered rest).1, (flag_loop flags rendered rest).2).
Proof. simpl. intros ->. by destruct (flag_loop flags rendered rest). Qed.

(** The loop on the text does the edit. *)
Lemma flag_loop_edit flags tokens : forall rendered new,
  pieces (from_option (fun r => [r]) [] rendered) (Raw <$> new) ->
  pieces (flag_loop flags rendered tokens).1 (Raw <$> (edit flags new tokens).1) /\
  (flag_loop flags rendered tokens).2 = (edit flags new tokens).2.
Proof.
  remember (length tokens) as n eqn:Hn. revert tokens Hn. induction (lt_wf n) as [n _ IH].
  intros tokens -> rendered new Hnew. destruct tokens as [|t rest]; [split; [apply pieces_nil|done]|].
  destruct (match_flag flags (Value t)) as [m|] eqn:Hm.
  - rewrite (flag_loop_flag _ _ _ _ m Hm), (edit_flag _ _ _ _ m Hm). cbn [fst snd]. split; [|done].
    rewrite fmap_app. apply pieces_app; [done|]. eapply IH; [|reflexivity|apply pieces_nil].
    unfold after. destruct rest as [|v rest]; simpl; [lia|]. destruct (_ && _); simpl; lia.
  - rewrite flag_loop_other, edit_other by done. cbn [fst snd].
    destruct (IH (length rest)) with (tokens := rest) (rendered := rendered) (new := new) as [Hp ->];
      [simpl; lia|done|done|]. split; [|done].
    apply (pieces_app [Raw t] [Raw t]); [by apply (pieces_one [Raw t])|done].
Qed.

Lemma edit_sturdy flags new tokens :
  Forall sturdy new -> Forall sturdy tokens -> Forall sturdy (edit flags new tokens).1.
Proof.
  remember (length tokens) as n eqn:Hn. revert new tokens Hn. induction (lt_wf n) as [n _ IH].
  intros new tokens -> Hnew Ht. destruct tokens as [|t rest]; [done|].
  apply Forall_cons in Ht as [Ht Hrest]. destruct (match_flag flags (Value t)) as [m|] eqn:Hm.
  - rewrite (edit_flag _ _ _ _ m Hm). cbn [fst]. apply Forall_app. split; [done|].
    assert (length (after flags t rest) <= length rest)%nat as Hl
      by (unfold after; destruct rest; [done|]; destruct (_ && _); simpl; lia).
    eapply IH; [|reflexivity|by constructor|]; [simpl; lia|].
    unfold after. destruct rest as [|v rest]; [done|]. destruct (_ && _); [|done]. by apply Forall_cons in Hrest as [].
  - rewrite edit_other by done. cbn [fst]. constructor; [done|]. eapply IH; [|reflexivity|done|done]. simpl. lia.
Qed.

Definition flag_tokens (flag value : string) : list ArgToken := [quoted flag; quoted value].

Lemma rendered_text flag value :
  renderCommandArgs [flag; value] = strings_Join (Raw <$> flag_tokens flag value) " ".
Proof.
  unfold renderCommandArgs. change (JoinArgs [flag; value]) with (strings_Join [quoteArg flag; quoteArg value] " ").
  apply TrimSpace_solid, solid_join; [done|]. repeat constructor; apply quoteArg_solid.
Qed.

Lemma rendered_pieces flag value : pieces [renderCommandArgs [flag; value]] (Raw <$> flag_tokens flag value).
Proof. rewrite rendered_text. by apply pieces_one. Qed.

Lemma flag_tokens_sturdy flag value : Forall sturdy (flag_tokens flag value).
Proof. repeat constructor; apply quoted_sturdy. Qed.

Lemma pieces_split out tokens : pieces out (Raw <$> tokens) -> Forall sturdy tokens ->
  splitCommandArgs (joinCommandText out) = inr (Value <$> tokens).
Proof. intros Hp Ht. unfold joinCommandText. rewrite (join_pieces _ _ Hp). by apply split_join. Qed.

Section Claim.
Variables (command : string) (tokens : list ArgToken).
Hypothesis Hsplit : splitCommandTokens command = inr tokens.
Hypothesis Hne : tokens <> [].
Hypothesis Htrim : Forall (fun t => TrimSpace (Raw t) = Raw t) tokens.

Lemma stripFlagValues_argv flags :
  splitCommandArgs (stripFlagValues command flags) = inr (Value <$> (edit flags [] tokens).1).
Proof.
  unfold stripFlagValues. rewrite Hsplit. destruct tokens as [|t0 ts] eqn:Ht; [done|]. rewrite <- Ht in *.
  pose proof (split_sturdy _ _ Hsplit Htrim) as Hs.
  apply pieces_split; [|by apply edit_sturdy]. by apply flag_loop_edit, pieces_nil.
Qed.

Lemma replaceFlagValue_argv flag aliases value : TrimSpace value <> "" ->
  let r := edit (flag :: aliases) (flag_tokens flag (TrimSpace value)) tokens in
  splitCommandArgs (replaceFlagValue command flag aliases value) =
  inr (Value <$> if r.2 then r.1 else r.1 ++ flag_tokens flag (TrimSpace value)).
Proof.
  intros Hv. cbv zeta. unfold replaceFlagValue. rewrite bool_decide_eq_false_2 by done. rewrite Hsplit.
  destruct tokens as [|t0 ts] eqn:Ht; [done|]. rewrite <- Ht in *.
  pose proof (split_sturdy _ _ Hsplit Htrim) as Hs.
  pose proof (edit_sturdy (flag :: aliases) _ tokens (flag_tokens_sturdy flag (TrimSpace value)) Hs) as He.
  destruct (flag_loop_edit (flag :: aliases) tokens (Some (renderCommandArgs [flag; TrimSpace value]))
    (flag_tokens flag (TrimSpace value)) (rendered_pieces _ _)) as [Hp Hr].
  destruct (flag_loop _ _ _) as [out replaced]. cbn [fst snd] in Hp, Hr. subst replaced.
  destruct (edit _ _ _) as [toks []]; cbn [fst snd] in *.
  - by apply pieces_split.
  - apply pieces_split; [|apply Forall_app; split; [done|apply flag_tokens_sturdy]].
    rewrite fmap_app. apply pieces_app; [done|apply rendered_pieces].
Qed.

End Claim.

(** C28: Editing flags as text edits the argument vector.  For a command that lexes to
    tokens, at least one and none whose raw text begins or ends with (escaped) white space
    (with one the edit can break the command, see [strip_escaped_blank]): after
    [stripFlagValues] the program started gets the same other arguments and no setting
    of the flags; after [replaceFlagValue] with a value that is not blank and does not
    look like a flag it gets the same other arguments and exactly one setting, the
    trimmed value. *)
Theorem flag_edits_argv command tokens flag aliases value :
  splitCommandTokens command = inr tokens -> tokens <> [] ->
  Forall (fun t => TrimSpace (Raw t) = Raw t) tokens ->
  let flags := flag :: aliases in
  (exists argv, splitCommandArgs (stripFlagValues command flags) = inr argv /\
     settings flags argv = [] /\ others flags argv = others flags (Value <$> tokens)) /\
  (TrimSpace value <> "" -> HasPrefix (TrimSpace value) "-" = false ->
   exists argv, splitCommandArgs (replaceFlagValue command flag aliases value) = inr argv /\
     settings flags argv = [TrimSpace value] /\ others flags argv = others flags (Value <$> tokens)).
Proof.
  intros Hsplit Hne Htrim flags. split.
  - eexists. split; [by apply (stripFlagValues_argv command tokens)|]. apply edit_strip.
  - intros Hv Hd. eexists. split; [by apply (replaceFlagValue_argv command tokens)|].
    apply (edit_replace flags tokens _ flag); [done| |by apply bool_decide_eq_true_2, list_elem_of_here|done].
    simpl. by rewrite bool_decide_eq_true_2.
Qed.

Lemma flag_edits_argv_witness :
  splitCommandArgs (replaceFlagValue "claude -m a 'x y' --model=b" "--model" ["-m"] " opus 4 ")
    = inr ["claude"; "--model"; "opus 4"; "x y"] /\
  exists argv,
    splitCommandArgs (replaceFlagValue "claude -m a 'x y' --model=b" "--model" ["-m"] " opus 4 ") = inr argv /\
    settings ["--model"; "-m"] argv = ["opus 4"] /\ others ["--model"; "-m"] argv = ["claude"; "x y"].
Proof.
  split; [vm_compute; reflexivity|].
  destruct (flag_edits_argv "claude -m a 'x y' --model=b"
    [mkArgToken "claude" "claude"; mkArgToken "-m" "-m"; mkArgToken "a" "a"; mkArgToken "'x y'" "x y";
     mkArgToken "--model=b" "--model=b"] "--model" ["-m"] " opus 4 ") as [_ Hr].
  - vm_compute. reflexivity.
  - done.
  - repeat constructor; vm_compute; reflexivity.
  - destruct Hr as (argv & H1 & H2 & H3); [vm_compute; discriminate|vm_compute; reflexivity|].
    exists argv. split; [exact H1|]. split; [exact H2|]. rewrite H3. vm_compute. reflexivity.
Defined.
