(* ===== verification/DriverChoice.v ===== *)
(** * host/driver: the model and effort of a session

    Claude and Codex sessions learn their model and effort from the agent itself (hooks,
    subsystem metadata: authoritative) and from transcripts.  Over any run an
    authoritative choice stays authoritative and is only ever replaced by another
    authoritative report. *)

From Stdlib Require Import String.
From S2P Require Import Prelude GoStd GoStrings ShellArgs HostState.
From S2P Require Import DriverTypes DriverCommon DriverToolLog DriverBasic DriverClaude DriverGemini.
From S2P Require Import DriverCodex DriverRegistry DriverFacts DriverJobs.

(** A value and whether the agent itself reported it. *)
Record Choice := mkChoice { ch_value : string; ch_authoritative : bool }.

Inductive Setting := Model | Effort.

Definition claude_choice (w : Setting) (cs : ClaudeState) : Choice :=
  match w with
  | Model => mkChoice (cs_Model cs) (cs_ModelAuthoritative cs)
  | Effort => mkChoice (cs_Effort cs) (cs_EffortAuthoritative cs)
  end.

Definition codex_choice (w : Setting) (cs : CodexState) : Choice :=
  match w with
  | Model => mkChoice (xs_Model cs) (xs_ModelAuthoritative cs)
  | Effort => mkChoice (xs_Effort cs) (xs_EffortAuthoritative cs)
  end.

Section Choices.
Context `{GoMapRange} `{DriverEnv}.

(** ** Authoritative reports *)

Definition hook_report (w : Setting) (hp : HookPayload) : option string :=
  match w with
  | Model => if hp_ModelSet hp then Some (hp_Model hp) else None
  | Effort => if hp_EffortSet hp then Some (from_option TrimSpace "" (hp_Effort hp)) else None
  end.

Definition payload_report (w : Setting) (p : SubsystemPayload) : option string :=
  match w with
  | Model => if sp_ModelSet p then Some (TrimSpace (sp_Model p)) else None
  | Effort => if sp_EffortSet p then Some (TrimSpace (sp_Effort p)) else None
  end.

Definition report (w : Setting) (ev : DriverEvent) : option string :=
  match ev with
  | DEvHook _ _ _ payload => hook_report w (Claude.parseHookPayload payload)
  | DEvSubsystem _ SubsystemMetadataUpdated _ p => payload_report w p
  | _ => None
  end.

(** The choice stays as it is, or becomes the reported value. *)
Definition upheld (r : option string) (ch ch' : Choice) : Prop :=
  ch_authoritative ch = true ->
  ch_authoritative ch' = true /\ (ch_value ch' = ch_value ch \/ r = Some (ch_value ch')).

Lemma upheld_same r ch ch' : ch' = ch -> upheld r ch ch'.
Proof. intros -> Ha. auto. Qed.

Lemma upheld_eq r ch ch1 ch' : ch1 = ch -> upheld r ch1 ch' -> upheld r ch ch'.
Proof. by intros ->. Qed.

(** ** Claude *)

Section ClaudeChoice.
Variables (d : Claude.ClaudeDriver) (w : Setting).
Implicit Types (cs : ClaudeState).

Lemma absorb_upheld cs hp :
  upheld (hook_report w hp) (claude_choice w cs) (claude_choice w (Claude.absorbIdentityFromHP cs hp)).
Proof.
  unfold Claude.absorbIdentityFromHP. cbv zeta. set (cs1 := if bool_decide (hp_TranscriptPath hp = "") then _ else _).
  assert (claude_choice w cs1 = claude_choice w cs) as <-.
  { unfold cs1. repeat match goal with |- context [if ?b then _ else _] => destruct b end; by destruct w. }
  clearbody cs1. intros Ha. destruct w; simpl in *; destruct (hp_ModelSet hp), (hp_EffortSet hp); simpl; auto.
Qed.

Lemma claude_parse_choice cs path :
  claude_choice w (Claude.parseTranscript cs path).1 = claude_choice w cs.
Proof. unfold Claude.parseTranscript. destruct (cs_TranscriptInFlight cs); by destruct w. Qed.

Lemma claude_known_choice cs : claude_choice w (Claude.parseKnownTranscript d cs).1 = claude_choice w cs.
Proof.
  unfold Claude.parseKnownTranscript. cbv zeta. destruct (bool_decide _); [done|apply claude_parse_choice].
Qed.

Lemma claude_start_choice cs ctx hp now :
  claude_choice w (Claude.handleSessionStart d cs ctx hp now).1 =
  claude_choice w (Claude.absorbIdentityFromHP cs hp).
Proof.
  unfold Claude.handleSessionStart. cbv zeta. set (cs1 := Claude.set_status _ _ _).
  assert (claude_choice w cs1 = claude_choice w (Claude.absorbIdentityFromHP cs hp)) as <- by (by destruct w).
  clearbody cs1. set (x := if _ || _ then _ else _).
  assert (claude_choice w x.1 = claude_choice w cs1) as <-.
  { unfold x. destruct (_ || _); [done|].
    pose proof (claude_parse_choice (cs1 <| cs_WatchedFile := Claude.resolveTranscriptPath d cs1 |>)
      (Claude.resolveTranscriptPath d cs1)) as Hp. destruct (Claude.parseTranscript _ _). etrans; [exact Hp|]. by destruct w. }
  destruct x as [cs2 effs]. destruct (_ && _); by destruct w.
Qed.

Lemma claude_state_choice cs hp st now :
  claude_choice w (Claude.handleStateChange d cs hp st now).1 =
  claude_choice w (Claude.absorbIdentityFromHP cs hp).
Proof.
  unfold Claude.handleStateChange. cbv zeta. set (cs1 := match ParseStatus st with Some _ => _ | None => _ end).
  assert (claude_choice w cs1 = claude_choice w (Claude.absorbIdentityFromHP cs hp)) as <-
    by (unfold cs1; destruct (ParseStatus st); by destruct w).
  clearbody cs1. pose proof (claude_known_choice cs1) as Hk. by destruct (Claude.parseKnownTranscript _ _).
Qed.

Lemma claude_prompt_choice cs hp now :
  claude_choice w (Claude.handleUserPromptSubmit d cs hp now).1 =
  claude_choice w (Claude.absorbIdentityFromHP cs hp).
Proof.
  unfold Claude.handleUserPromptSubmit. cbv zeta. set (cs1 := if bool_decide (hp_Prompt hp = "") then _ else _).
  assert (claude_choice w cs1 = claude_choice w (Claude.absorbIdentityFromHP cs hp)) as <-
    by (unfold cs1; destruct (bool_decide _); by destruct w).
  clearbody cs1. destruct (enqueueSummaryJob _ _ _) as [effs inFlight].
  set (cs2 := Claude.with_common _ _). transitivity (claude_choice w cs2); [|by destruct w].
  pose proof (claude_known_choice cs2) as Hk. by destruct (Claude.parseKnownTranscript _ _).
Qed.

Lemma claude_log_choice cs hp now : claude_choice w (Claude.handleToolLog cs hp now).1 = claude_choice w cs.
Proof.
  assert (forall o, claude_choice w (Claude.emitToolLog cs hp now o).1 = claude_choice w cs) as He.
  { intros o. unfold Claude.emitToolLog. cbv zeta.
    match goal with |- context [match ?x with (_, _) => _ end] => set (t := x) end.
    assert (claude_choice w t.1.1.1 = claude_choice w cs) as Ht.
    { unfold t. destruct (bool_decide _); [done|]. destruct (cs_PendingTools cs !! _); by destruct w. }
    destruct t as [[[cs' kind] ms] input]. destruct (bool_decide _); [done|]. by destruct (classifyClaudeTool _ _ _). }
  unfold Claude.handleToolLog. cbv zeta.
  destruct (bool_decide _). { destruct (_ || _); by destruct w. }
  destruct (bool_decide _). { destruct (negb _); [done|]. destruct (bool_decide _); by destruct w. }
  destruct (bool_decide _); [apply He|]. destruct (bool_decide _); [apply He|done].
Qed.

Lemma claude_boundary_choice cs now failure :
  claude_choice w (Claude.emitClaudeTurnBoundary cs now failure).1 = claude_choice w cs.
Proof. unfold Claude.emitClaudeTurnBoundary. cbv zeta. destruct (bool_decide _); by destruct w. Qed.

Lemma claude_root_upheld cs hp ts :
  upheld (hook_report w hp) (claude_choice w cs) (claude_choice w (Claude.handleRootHook d cs hp ts).1).
Proof.
  unfold Claude.handleRootHook. cbv zeta.
  destruct (bool_decide _); [rewrite claude_prompt_choice; apply absorb_upheld|].
  do 3 (destruct (bool_decide _); [apply upheld_same; by destruct w|]).
  pose proof (claude_log_choice cs hp ts) as Hl. destruct (Claude.handleToolLog cs hp ts) as [cs1 tl].
  set (cs2 := if bool_decide (hp_HookEventName hp = "SessionEnd") then _ else _).
  assert (claude_choice w cs2 = claude_choice w cs) as H2.
  { rewrite <- Hl. unfold cs2. destruct (bool_decide _); by destruct w. }
  clearbody cs2. eapply upheld_eq; [exact H2|]. destruct (bool_decide _); [by apply upheld_same|].
  pose proof (claude_state_choice cs2 hp (Claude.deriveHookState hp) ts) as Hs.
  destruct (Claude.handleStateChange _ _ _ _ _) as [next effs].
  match goal with |- context [match ?x with (_, _) => _ end] => set (t := x) end.
  assert (claude_choice w t.1 = claude_choice w next) as Ht.
  { unfold t. repeat (destruct (bool_decide _); [apply claude_boundary_choice|]). done. }
  destruct t. cbn [fst] in *. rewrite Ht, Hs. apply absorb_upheld.
Qed.

Lemma claude_hook_upheld cs ctx ts r p :
  upheld (hook_report w (Claude.parseHookPayload p)) (claude_choice w cs)
    (claude_choice w (Claude.handleHook d cs ctx ts r p).1).
Proof.
  unfold Claude.handleHook. cbv zeta. destruct (bool_decide _); [by apply upheld_same|].
  set (cs1 := if bool_decide (r = "") then _ else _).
  assert (claude_choice w cs1 = claude_choice w cs) as H1 by (unfold cs1; destruct (bool_decide _); by destruct w).
  clearbody cs1. eapply upheld_eq; [exact H1|].
  assert (forall x, claude_choice w (Claude.stamp x ts) = claude_choice w x) as Hst.
  { intros x. unfold Claude.stamp. destruct (IsZero ts); by destruct w. }
  destruct (negb _).
  { destruct (Claude.stale _ _); apply upheld_same; [done|]. cbn [fst]. rewrite Hst. by destruct w. }
  destruct (bool_decide _).
  { rewrite claude_start_choice. eapply upheld_eq; [|apply absorb_upheld]. by destruct w. }
  destruct (Claude.stale _ _); [by apply upheld_same|].
  eapply upheld_eq; [apply (Hst cs1)|]. apply claude_root_upheld.
Qed.

Lemma claude_step_upheld cs ctx ev :
  upheld (report w ev) (claude_choice w cs) (claude_choice w (Claude.Step d (Some (DSClaude cs)) ctx ev).1).
Proof.
  unfold Claude.Step. cbv zeta. cbn [as_claude default from_option id]. simpl default.
  destruct (_ && _); [by apply upheld_same|].
  destruct ev; try (apply upheld_same; by destruct w).
  - pose proof (claude_hook_upheld cs ctx Timestamp RoostSessionID Payload) as Hh.
    destruct (Claude.handleHook _ _ _ _ _ _) as [next effs]. cbn [fst] in *.
    assert (forall c, claude_choice w (Claude.with_common next c) = claude_choice w next) as Hc by (by destruct w).
    destruct (fc_IsRoot ctx); [rewrite Hc|]; exact Hh.
  - destruct (HandleTick _ _ _ _). apply upheld_same. by destruct w.
  - unfold Claude.handleJobResult. destruct (applySummaryJobResult _ _ _); [apply upheld_same; by destruct w|].
    destruct Result as [r|[]]; try (apply upheld_same; by destruct w).
    unfold Claude.applyTranscript. destruct (bool_decide (is_Some Err)); [apply upheld_same; by destruct w|].
    cbv zeta. intros Ha. cbn [fst]. destruct w; simpl in *.
    + rewrite Ha, andb_false_r. simpl. auto.
    + destruct (_ && _); simpl; auto.
  - unfold Claude.handleTranscriptChanged. cbv zeta. set (p := if non_empty _ then _ else _). clearbody p.
    destruct (bool_decide (p = "")); [by apply upheld_same|]. apply upheld_same.
    set (x := if bool_decide (cs_WatchedFile cs = p) then _ else _).
    assert (claude_choice w x.1 = claude_choice w cs) as <- by (unfold x; destruct (bool_decide _); by destruct w).
    destruct x as [cs1 effs]. pose proof (claude_parse_choice cs1 p) as Hp. by destruct (Claude.parseTranscript cs1 p).
  - destruct Kind; apply upheld_same; cbn [fst]; unfold Claude.handleWindowTitle; cbv zeta;
      repeat match goal with |- context [if ?b then _ else _] => destruct b end; by destruct w.
Qed.

End ClaudeChoice.

(** ** Codex *)

Section CodexChoice.
Variable w : Setting.
Implicit Types (cs : CodexState).

Ltac same_choice :=
  repeat match goal with |- context [if ?b then _ else _] => destruct b end; by destruct w.

Lemma codex_parse_choice cs : codex_choice w (Codex.startCodexTranscriptParse cs).1 = codex_choice w cs.
Proof. unfold Codex.startCodexTranscriptParse. cbv zeta. same_choice. Qed.

Lemma codex_watch_choice cs : codex_choice w (Codex.watchCodexTranscript cs).1 = codex_choice w cs.
Proof. unfold Codex.watchCodexTranscript. cbv zeta. same_choice. Qed.

Lemma codex_status_choice cs st ts : codex_choice w (Codex.applyHookStatus cs st ts) = codex_choice w cs.
Proof. by destruct w. Qed.

Lemma codex_start_choice cs ctx now effs :
  codex_choice w (Codex.applySessionStart cs ctx now effs).1 = codex_choice w cs.
Proof.
  unfold Codex.applySessionStart. cbv zeta. set (cs1 := Codex.applyHookStatus _ _ _).
  assert (codex_choice w cs1 = codex_choice w cs) as <- by (by destruct w). clearbody cs1.
  rewrite <- (codex_parse_choice cs1). destruct (Codex.startCodexTranscriptParse cs1). same_choice.
Qed.

Lemma codex_prompt_choice cs prompt now effs :
  codex_choice w (Codex.applyMetadataPrompt cs prompt now effs).1 = codex_choice w cs.
Proof.
  unfold Codex.applyMetadataPrompt. cbv zeta. destruct (bool_decide _); [done|].
  destruct (enqueueSummaryJob _ _ _) as [effs2 inFlight]. set (cs1 := Codex.with_common _ _).
  assert (codex_choice w cs1 = codex_choice w cs) as <- by (by destruct w). clearbody cs1.
  pose proof (codex_parse_choice cs1) as Hp. by destruct (Codex.startCodexTranscriptParse cs1).
Qed.

Lemma codex_log_choice cs name id err input now kind effs :
  codex_choice w (Codex.emitToolLog cs name id err input now kind effs).1 = codex_choice w cs.
Proof.
  unfold Codex.emitToolLog. cbv zeta.
  match goal with |- context [match ?x with (_, _) => _ end] => set (t := x) end.
  assert (codex_choice w t.1.1.1 = codex_choice w cs) as <-.
  { unfold t. destruct (bool_decide _); [done|]. destruct (xs_PendingTools cs !! _); by destruct w. }
  destruct t as [[[cs' kind'] ms] input']. destruct (_ || _); [done|]. by destruct (classifyCodexTool _ _ _).
Qed.

(** Metadata from the agent, then from a transcript. *)
Lemma metadata_upheld cs m : Codex.md_Authoritative m = true ->
  upheld (match w with
          | Model => if Codex.md_ModelSet m then Some (TrimSpace (Codex.md_Model m)) else None
          | Effort => if Codex.md_EffortSet m then Some (TrimSpace (Codex.md_Effort m)) else None
          end) (codex_choice w cs) (codex_choice w (Codex.applyCodexMetadata cs m)).
Proof.
  intros Hm. unfold Codex.applyCodexMetadata. rewrite Hm. cbv zeta. simpl orb. rewrite !andb_true_r.
  set (cs1 := if bool_decide (TrimSpace (Codex.md_Preview m) = "") then _ else _).
  assert (codex_choice w cs1 = codex_choice w cs) as <- by (unfold cs1; same_choice).
  clearbody cs1. intros Ha. destruct w; simpl in *; destruct (Codex.md_ModelSet m), (Codex.md_EffortSet m);
    simpl in *; rewrite ?Ha; auto.
Qed.

Lemma transcript_upheld cs m : Codex.md_Authoritative m = false ->
  upheld None (codex_choice w cs) (codex_choice w (Codex.applyCodexMetadata cs m)).
Proof.
  intros Hm. unfold Codex.applyCodexMetadata. rewrite Hm. cbv zeta. simpl orb.
  set (cs1 := if bool_decide (TrimSpace (Codex.md_Preview m) = "") then _ else _).
  assert (codex_choice w cs1 = codex_choice w cs) as <- by (unfold cs1; same_choice).
  clearbody cs1. intros Ha. destruct w; simpl in *.
  - rewrite Ha, andb_false_r. destruct (_ && _); simpl; auto.
  - destruct (Codex.md_ModelSet m && _); simpl; rewrite Ha, andb_false_r; simpl; auto.
Qed.

Lemma codex_message_choice cs msg : codex_choice w (Codex.set_last_message cs msg) = codex_choice w cs.
Proof. unfold Codex.set_last_message. cbv zeta. same_choice. Qed.

Lemma codex_kind_upheld cs ctx sub kind ts p effs :
  upheld (report w (DEvSubsystem sub kind ts p)) (codex_choice w cs)
    (codex_choice w (Codex.applySubsystemKind cs ctx kind ts p effs).1).
Proof.
  unfold Codex.applySubsystemKind. cbv zeta. destruct kind; try (apply upheld_same; by destruct w).
  - apply upheld_same. rewrite codex_start_choice. by destruct w.
  - apply upheld_same, codex_prompt_choice.
  - apply upheld_same. same_choice.
  - apply upheld_same. cbn [fst]. rewrite codex_status_choice, codex_message_choice. by destruct w.
  - apply upheld_same. unfold Codex.handleSubsystemToolStarted. destruct (sp_Tool p); same_choice.
  - apply upheld_same. unfold Codex.handleSubsystemToolCompleted. destruct (sp_Tool p); [|by destruct w].
    cbv zeta. destruct (bool_decide _); [by destruct w|]. rewrite codex_log_choice. by destruct w.
  - apply upheld_same. destruct (sp_Plan p); by destruct w.
  - apply upheld_same. destruct (sp_Diff p); by destruct w.
  - apply upheld_same. rewrite <- (codex_message_choice cs (sp_LastAssistantMessage p)).
    destruct (sp_Message p); by destruct w.
  - unfold Codex.applySubsystemMetadata. cbv zeta. rewrite codex_prompt_choice.
    by apply (metadata_upheld cs (Codex.mkMetadata _ _ _ _ _ _ _ _ _ _)).
Qed.

Lemma set_if_choice v (f : CodexState -> CodexState) cs :
  (forall x, codex_choice w (f x) = codex_choice w x) -> codex_choice w (Codex.set_if v f cs) = codex_choice w cs.
Proof. intros Hf. unfold Codex.set_if. by destruct (bool_decide _). Qed.

Lemma codex_subsystem_upheld cs ctx fid kind ts p :
  upheld (report w (DEvSubsystem fid kind ts p)) (codex_choice w cs)
    (codex_choice w (Codex.handleSubsystem cs ctx kind ts p).1).
Proof.
  unfold Codex.handleSubsystem. cbv zeta.
  match goal with |- upheld _ _ (codex_choice _ (fst (if _ then (?x, _) else _))) => set (cs1 := x) end.
  assert (codex_choice w cs1 = codex_choice w cs) as <-.
  { unfold cs1. rewrite !set_if_choice; try done; intros x; by destruct w. }
  clearbody cs1. destruct (negb _); [by apply upheld_same|].
  set (cs2 := Codex.set_if (sp_StatusLine p) _ _).
  assert (codex_choice w cs2 = codex_choice w cs1) as <-.
  { unfold cs2. rewrite !set_if_choice; try done; intros x; by destruct w. }
  clearbody cs2. rewrite <- (codex_watch_choice cs2). destruct (Codex.watchCodexTranscript cs2) as [cs3 effs].
  pose proof (codex_kind_upheld cs3 ctx fid kind ts p effs) as Hk.
  destruct (Codex.applySubsystemKind _ _ _ _ _ _) as [cs4 effs4].
  pose proof (codex_parse_choice cs4) as Hp. destruct (Codex.startCodexTranscriptParse cs4).
  cbn [fst] in *. by rewrite Hp.
Qed.

Lemma codex_transcript_upheld cs r :
  upheld None (codex_choice w cs) (codex_choice w (Codex.applyTranscript cs r)).
Proof.
  unfold Codex.applyTranscript. cbv zeta. set (cs1 := Codex.set_if (xr_LastAssistantMessage r) _ _).
  assert (forall x : CodexState, codex_choice w
    (if bool_decide (c_Status (xs_Common (x <| xs_StatusLine := xr_StatusLine r |>
       <| xs_RecentTurns := xr_RecentTurns r |>)) = StatusRunning)
     then x <| xs_StatusLine := xr_StatusLine r |> <| xs_RecentTurns := xr_RecentTurns r |>
     else x <| xs_StatusLine := xr_StatusLine r |> <| xs_RecentTurns := xr_RecentTurns r |>
            <| xs_CurrentTool := "" |>) = codex_choice w x) as -> by (intros x; same_choice).
  unfold cs1. rewrite !set_if_choice; [by apply transcript_upheld| |]; intros x; by destruct w.
Qed.

Lemma codex_step_upheld cs ctx ev :
  upheld (report w ev) (codex_choice w cs) (codex_choice w (Codex.Step (Some (DSCodex cs)) ctx ev).1).
Proof.
  unfold Codex.Step. cbv zeta. simpl default. destruct (_ && _); [by apply upheld_same|].
  destruct ev; try (apply upheld_same; by destruct w).
  - apply codex_subsystem_upheld.
  - destruct (HandleTick _ _ _ _). apply upheld_same. by destruct w.
  - unfold Codex.handleJobResult. destruct (applySummaryJobResult _ _ _); [apply upheld_same; by destruct w|].
    destruct Result as [r|[]]; try (apply upheld_same; by destruct w). cbn [fst].
    destruct (bool_decide (is_Some Err)); [apply upheld_same; by destruct w|].
    eapply upheld_eq; [|apply codex_transcript_upheld]. by destruct w.
  - unfold Codex.handleTranscriptChanged. destruct (_ && _); [by apply upheld_same|]. apply upheld_same.
    rewrite <- (codex_watch_choice cs). destruct (Codex.watchCodexTranscript cs) as [cs1 effs].
    pose proof (codex_parse_choice cs1) as Hp. by destruct (Codex.startCodexTranscriptParse cs1).
Qed.

End CodexChoice.

(** ** Runs *)

Variable opts : RegisterOptions.

(** The choice a Claude or Codex state holds. *)
Definition choice (w : Setting) (s : DriverState) : Choice :=
  match s with
  | Some (DSClaude cs) => claude_choice w cs
  | Some (DSCodex cs) => codex_choice w cs
  | _ => mkChoice "" false
  end.

(** The state is one of the driver's own. *)
Definition owns (drv : Driver) (s : DriverState) : Prop :=
  (drv = claude_driver opts /\ exists cs, s = Some (DSClaude cs)) \/
  (drv = codex_driver /\ exists cs, s = Some (DSCodex cs)).

Lemma step_upheld w drv s ctx ev : owns drv s ->
  owns drv (drv_Step drv s ctx ev).1 /\
  upheld (report w ev) (choice w s) (choice w (drv_Step drv s ctx ev).1).
Proof.
  intros [[-> [cs ->]]|[-> [cs ->]]]; (split; [|simpl]).
  - left. split; [done|]. by eexists.
  - apply claude_step_upheld.
  - right. split; [done|]. by eexists.
  - apply codex_step_upheld.
Qed.

Definition reports (w : Setting) (evs : list (FrameContext * DriverEvent)) : list string :=
  omap (fun ce => report w ce.2) evs.

Lemma steps_choice w drv evs : forall s, owns drv s -> ch_authoritative (choice w s) = true ->
  let s' := (steps drv s evs).1 in
  owns drv s' /\ ch_authoritative (choice w s') = true /\
  ch_value (choice w s') ∈ ch_value (choice w s) :: reports w evs.
Proof.
  induction evs as [|[ctx ev] evs IH]; intros s Ho Ha; cbv zeta.
  { split; [done|]. split; [done|]. apply list_elem_of_here. }
  cbn [steps]. destruct (step_upheld w drv s ctx ev Ho) as [Ho1 Hu]. specialize (Hu Ha) as [Ha1 Hv].
  destruct (drv_Step drv s ctx ev) as [s1 effs]. cbn [fst] in *. specialize (IH s1 Ho1 Ha1). cbv zeta in IH.
  destruct (steps drv s1 evs) as [s2 rest]. cbn [fst] in *. destruct IH as (Ho2 & Ha2 & Hin).
  split; [done|]. split; [done|]. unfold reports in *. simpl.
  apply elem_of_cons in Hin as [->|Hin]; [|by destruct (report w ev); rewrite ?elem_of_cons; auto].
  destruct Hv as [-> | ->]; rewrite ?elem_of_cons; auto.
Qed.

(** C31: A model or effort the agent itself reported is never lost to a guess.  Over any
    run of the Claude or Codex driver from a state whose choice is authoritative, the
    choice is authoritative at the end, and its value is the one it started with or one
    an authoritative report of the run gave: transcripts, prompts and all other events
    leave it alone. *)
Theorem authoritative_choice w drv s evs :
  owns drv s -> ch_authoritative (choice w s) = true ->
  let s' := (steps drv s evs).1 in
  ch_authoritative (choice w s') = true /\ ch_value (choice w s') ∈ ch_value (choice w s) :: reports w evs.
Proof. intros Ho Ha. by destruct (steps_choice w drv evs s Ho Ha) as (_ & ? & ?). Qed.

End Choices.

Module ChoiceDemo.
Import DriverDemo.

(** A transcript names another model, then the agent does. *)
Definition demo_result : CodexTranscriptParseResult :=
  mkCodexTranscriptResult "" "" "" "" "guess" true "" false [].

Definition demo_payload : SubsystemPayload := zero_payload <| sp_Model := "gpt-2" |> <| sp_ModelSet := true |>.

Definition demo_start : DriverState :=
  Some (DSCodex (zero_codex <| xs_Model := "gpt-1" |> <| xs_ModelAuthoritative := true |>)).

Lemma authoritative_choice_witness :
  let guessed := [(root, DEvJobResult (ResultDriver (CodexTranscriptParseResult_ demo_result)) None 5)] in
  let told := [(root, DEvSubsystem SubsystemStream SubsystemMetadataUpdated 6 demo_payload)] in
  ch_value (choice Model (steps codex_driver demo_start guessed).1) ∈ ["gpt-1"] /\
  ch_value (choice Model (steps codex_driver demo_start (guessed ++ told)).1) = "gpt-2".
Proof.
  intros guessed told. split; [|vm_compute; reflexivity].
  apply (authoritative_choice demo_opts Model codex_driver demo_start guessed); [|reflexivity].
  right. split; [reflexivity|]. by eexists.
Defined.

End ChoiceDemo.
