(* ===== verification/HostBuiltin.v ===== *)
(** * The host with its built-in drivers

    The reducer's theorems hold of any drivers that emit what drivers may; here they are
    stated of the host as it ships, with the registry of host/driver. *)

From Stdlib Require Import String.
From S2P Require Import Prelude GoStd HostState HostFrames HostInput HostSession HostCapsule HostHandlers.
From S2P Require Import HostRepo HostReduce HostDriverFacts HostSteps HostGraph HostInputRun HostGraphRun.
From S2P Require Import GoStrings ShellArgs DriverTypes DriverCommon DriverBasic DriverClaude DriverGemini.
From S2P Require Import DriverCodex DriverRegistry DriverFacts.

Section Shipped.
Context `{GoMapRange} `{DriverEnv} `{PayloadCodec} (opts : RegisterOptions).

(** C8: The host as it ships keeps its session graph.  With the built-in drivers, the
    generic fallback and any environment of theirs, every run from the initial state
    keeps the graph well formed, and every frame spawned is in the graph or was
    unregistered, exactly once. *)
Theorem builtin_host_graph effs s :
  fresh_run (H0 := builtin_drivers opts) New effs s ->
  graph_wf (graph s) /\
  forall frameID, times frameID (spawned effs) = times frameID (unregistered effs) + live frameID (graph s).
Proof. apply fresh_run_graph. Qed.

End Shipped.

Module BuiltinDemo.
Import DriverDemo.

#[local] Existing Instance builtin_drivers.

#[export] Instance demo_codec : PayloadCodec :=
  {| decode_unit := fun _ => inr tt;
     decode_create := fun p => inr (mkCreateParams "/work" p zero_options);
     decode_push := fun p => inr (mkPushParams p "" "codex --model gpt" zero_options "");
     decode_session := fun p => inr p; decode_set_head := fun p => inr (mkSetHeadParams "a0" p);
     decode_messages := fun p => inr (mkMessagesParams p "");
     decode_repo_create := fun _ => inl "unexpected"; decode_preparation := fun p => inr p;
     decode_flag := fun p => inr (mkFlagParams p true) |}.

(** A Claude session is created, a Codex frame pushed, and the Codex process ends. *)
Definition demo_story : list (Ascii.ascii * Event) :=
  [("a"%char, EvEvent_ (mkEvEvent 2 "c" EventCreateSession "claude --model opus"));
   ("b"%char, EvEvent_ (mkEvEvent 3 "p" EventPushDriver "a0"));
   ("c"%char, EvFrameCommandExited_ (mkEvCommandExited "b0" 0))].

Definition builtin_story_end (n : nat) : State * list Effect :=
  default (New, []) (tell (H0 := builtin_drivers demo_opts) New (take n demo_story)).

Lemma builtin_story_run n : fresh_run (H0 := builtin_drivers demo_opts) New (builtin_story_end n).2 (builtin_story_end n).1.
Proof.
  unfold builtin_story_end. destruct (tell New (take n demo_story)) as [[s effs]|] eqn:Ht; simpl; [|constructor].
  apply (tell_run New [] New _ _ _ (fresh_start New) Ht).
Qed.

Lemma builtin_host_graph_witness :
  graph_wf (graph (builtin_story_end 3).1) /\
  times "b0" (spawned (builtin_story_end 2).2) = 1 /\
  times "b0" (unregistered (builtin_story_end 3).2) = times "b0" (spawned (builtin_story_end 3).2) /\
  live "a1" (graph (builtin_story_end 3).1) = 1.
Proof.
  destruct (builtin_host_graph demo_opts _ _ (builtin_story_run 3)) as [Hwf Hbooks].
  split; [exact Hwf|]. split; [vm_compute; reflexivity|]. split; [|vm_compute; reflexivity].
  rewrite (Hbooks "b0").
  assert (live "b0" (graph (builtin_story_end 3).1) = 0) as -> by (vm_compute; reflexivity). lia.
Defined.

End BuiltinDemo.
