(* ===== verification/DriverFindings.v ===== *)
(** * host/driver: places where the drivers do not do what they mean to

    Each is shown on the definitions: a transcript that is never watched, a command that
    no longer lexes after a flag was removed, a fork's parent id taken for its own, and
    a branch job at every tick. *)

From Stdlib Require Import String.
From S2P Require Import Prelude GoStd GoStrings ShellArgs HostState.
From S2P Require Import DriverTypes DriverCommon DriverToolLog DriverBasic DriverClaude DriverGemini.
From S2P Require Import DriverCodex DriverRegistry DriverFacts DriverJobs.

Section Codex.
Context `{DriverEnv}.

Definition watches (e : Effect) : bool := match e with EffWatchFile _ _ _ => true | _ => false end.

Lemma set_if_watched v (f : CodexState -> CodexState) cs :
  (forall x, xs_WatchedFile (f x) = xs_WatchedFile x) ->
  xs_WatchedFile (Codex.set_if v f cs) = xs_WatchedFile cs.
Proof. intros Hf. unfold Codex.set_if. by destruct (bool_decide _). Qed.

(** The state on which the events of a root frame work: the path and the old watch. *)
Lemma codex_prepared cs p path : sp_TranscriptPath p <> "" -> TrimSpace (sp_TranscriptPath p) = path ->
  exists cs', xs_WatchedFile cs' = xs_WatchedFile cs /\ c_TranscriptPath (xs_Common cs') = path /\
  forall ctx kind ts, fc_IsRoot ctx = true ->
  Codex.handleSubsystem cs ctx kind ts p =
    (let '(cs, effs) := Codex.watchCodexTranscript cs' in
     let '(cs, effs) := Codex.applySubsystemKind cs ctx kind ts p effs in
     let '(cs, job) := Codex.startCodexTranscriptParse cs in (cs, effs ++ job)).
Proof.
  intros Hp Hpath. unfold Codex.handleSubsystem. cbv zeta.
  set (cs1 := Codex.set_if (sp_TargetID p) _ _).
  assert (xs_WatchedFile cs1 = xs_WatchedFile cs) as H1 by (unfold cs1; by rewrite !set_if_watched).
  clearbody cs1. set (cs2 := Codex.set_if (sp_TranscriptPath p) _ cs1).
  assert (c_TranscriptPath (xs_Common cs2) = path /\ xs_WatchedFile cs2 = xs_WatchedFile cs1) as [H2 H3].
  { unfold cs2, Codex.set_if. by rewrite bool_decide_eq_false_2. }
  clearbody cs2. eexists. split; [|split; [|by intros ctx kind ts ->]].
  - rewrite set_if_watched by done. congruence.
  - unfold Codex.set_if. by destruct (bool_decide _).
Qed.

Lemma turn_completed_effects cs ctx ts p path :
  fc_IsRoot ctx = true -> TrimSpace (sp_TranscriptPath p) = path -> path <> "" -> xs_WatchedFile cs <> path ->
  exists cs' effs, Codex.handleSubsystem cs ctx SubsystemTurnCompleted ts p = (cs', effs) /\
    xs_WatchedFile cs' = path /\ c_TranscriptPath (xs_Common cs') = path /\
    Forall (fun e => watches e = false) effs.
Proof.
  intros Hr Hpath Hne Hw.
  destruct (codex_prepared cs p path) as (cs1 & Hw1 & Hc1 & Hh); [|done|].
  { intros He. apply Hne. by rewrite <- Hpath, He. }
  rewrite Hh by done. unfold Codex.watchCodexTranscript. rewrite Hc1, Hw1.
  rewrite (bool_decide_eq_false_2 (path = "")), (bool_decide_eq_false_2 (xs_WatchedFile cs = path)) by done.
  cbn [orb Codex.applySubsystemKind]. set (cs2 := Codex.applyHookStatus _ _ _).
  assert (xs_WatchedFile cs2 = path /\ c_TranscriptPath (xs_Common cs2) = path) as [H2 H3].
  { unfold cs2, Codex.set_last_message. cbv zeta. by destruct (bool_decide _). }
  assert (Forall (fun e => watches e = false) (Codex.emitCodexTurnBoundary cs2 ts false)) as Hb.
  { unfold Codex.emitCodexTurnBoundary. cbv zeta. do 2 (destruct (bool_decide _); [constructor|]).
    by repeat constructor. }
  clearbody cs2. unfold Codex.startCodexTranscriptParse. cbv zeta.
  destruct (_ || _); eexists _, _; (split; [reflexivity|]); (split; [done|]); (split; [done|]);
    apply Forall_app; (split; [done|by repeat constructor]).
Qed.

(** A transcript that is never watched.  When a completed turn brings a transcript
    path that is not yet watched, the Codex driver records the file as watched but the
    request to watch it is among the effects the turn boundary replaces: none is sent,
    and no later event sends one for that path. *)
Theorem codex_turn_completed_loses_watch cs ctx sub ts p path :
  fc_IsRoot ctx = true -> TrimSpace (sp_TranscriptPath p) = path -> path <> "" -> xs_WatchedFile cs <> path ->
  let r := Codex.Step (Some (DSCodex cs)) ctx (DEvSubsystem sub SubsystemTurnCompleted ts p) in
  xs_WatchedFile r.1 = path /\ Forall (fun e => watches e = false) r.2 /\
  Codex.watchCodexTranscript r.1 = (r.1, []).
Proof.
  intros Hr Hpath Hne Hw. cbv zeta. unfold Codex.Step. cbv zeta. rewrite Hr. cbn [negb andb]. simpl default.
  destruct (turn_completed_effects cs ctx ts p path Hr Hpath Hne Hw) as (cs' & effs & -> & H1 & H2 & H3).
  cbn [fst snd]. split; [done|]. split; [done|]. unfold Codex.watchCodexTranscript. rewrite H1, H2.
  by rewrite (bool_decide_eq_true_2 (path = path)), orb_true_r.
Qed.

End Codex.

Module FindingsDemo.
Import DriverDemo.

Lemma codex_turn_completed_loses_watch_witness :
  let p := zero_payload <| sp_TranscriptPath := "/rollout.jsonl" |> in
  let r := Codex.Step (Some (DSCodex zero_codex)) root
             (DEvSubsystem SubsystemStream SubsystemTurnCompleted 5 p) in
  let ready := Codex.Step (Some (DSCodex zero_codex)) root
             (DEvSubsystem SubsystemStream SubsystemSessionReady 5 p) in
  Forall (fun e => watches e = false) r.2 /\ existsb watches ready.2 = true.
Proof.
  intros p r ready. split; [|vm_compute; reflexivity].
  destruct (codex_turn_completed_loses_watch zero_codex root SubsystemStream 5 p "/rollout.jsonl") as (_ & Hn & _);
    [reflexivity|vm_compute; reflexivity|discriminate|discriminate|exact Hn].
Defined.

(** An argument that ends in an escaped blank loses the blank, and the command no longer
    lexes, when the flag after it is removed. *)
Example strip_escaped_blank :
  let command := "vim a\  --worktree" in
  splitCommandArgs command = inr ["vim"; "a "; "--worktree"] /\
  parseWorktreeFlags command ["--worktree"] = (mkWorktree true "", "vim a\") /\
  splitCommandArgs "vim a\" = inl UnterminatedEscape.
Proof. vm_compute. auto. Qed.

(** In a frame that is not the root, a hook with the parent's session id becomes the
    fork's own session id. *)
Example fork_takes_parent_id :
  let forked := zero_claude <| cs_ForkParentID := "claude-1" |> in
  cs_ClaudeSessionID (Claude.Step (claude_config demo_opts) (Some (DSClaude forked)) root
    (DEvHook "h" 5 "s1" "UserPromptSubmit")).1 = "" /\
  cs_ClaudeSessionID (Claude.Step (claude_config demo_opts) (Some (DSClaude forked)) child
    (DEvHook "h" 5 "s1" "UserPromptSubmit")).1 = "claude-1".
Proof. split; vm_compute; reflexivity. Qed.

(** If the operands of Grok's tick are read before the call, its in-flight flag is lost. *)
Definition early_env : DriverEnv := {|
  json_HookPayload := json_HookPayload; json_geminiHookPayload := json_geminiHookPayload;
  json_agyHookPayload := json_agyHookPayload; json_toolLogEntry := json_toolLogEntry; os_Stat := os_Stat;
  os_Getenv := os_Getenv; os_UserHomeDir := os_UserHomeDir; sqlite_query := sqlite_query; fmt_q := fmt_q;
  operands_late := false |}.

Example grok_early_operands :
  let running := Some (DSGrok (zero_grok <| gk_Common := new_common StatusRunning 1 <| c_StartDir := "/w" |> |>)) in
  let ticks := (fun n => (root, DEvTick (Z.of_nat n) true "/w" 0 0)) <$> seq 1 5 in
  started KBranch (steps (grok_driver (H0 := early_env)) running ticks).2 = 5 /\
  started KBranch (steps (grok_driver (H0 := demo_env)) running ticks).2 = 1.
Proof. split; vm_compute; reflexivity. Qed.

End FindingsDemo.
