(* ===== verification/Termvt.v ===== *)
(** * platform/termvt: a terminal session and its subscribers

    session_actor.go, session.go, event.go and manager.go: a program runs in a pty; its
    output goes through a terminal emulator and out to any number of subscribers.  One
    goroutine owns the state and serves, one at a time, chunks of output and commands, so
    an operation of the model is what that goroutine does between two receives.  The
    emulator is x/vt's and the pty is the kernel's: a class and the outcomes of calls. *)

From Stdlib Require Import String.
From S2P Require Import Prelude GoStd GoStrings HostFrames.

(** ** Events *)

Inductive EventKind := EventOutput | EventControl | EventExit.

Record Control := mkControl { ct_Kind : string; ct_Code : Z; ct_Data : string }.

Record Event := mkEvent { tv_Kind : EventKind; tv_Data : string; tv_Ctl : Control }.

Definition no_control : Control := mkControl "" 0 "".
Definition output (data : string) : Event := mkEvent EventOutput data no_control.
Definition control (c : Control) : Event := mkEvent EventControl "" c.
Definition exit_event : Event := mkEvent EventExit "" no_control.

(** A Go channel of events and the goroutine that reads it: what is buffered, whether it
    is closed, and all that was ever sent, which the program does not keep. *)
Record Channel := mkChannel { ch_buf : list Event; ch_closed : bool; ch_sent : list Event }.

Definition subBuffer : nat := 256.

(** What the emulator calls back while it parses: the title, the bell, an OSC sequence. *)
Inductive Callback := OnTitle (t : string) | OnBell | OnOsc (code : Z) (data : string).

(** x/vt. *)
Class Emulator := {
  emulator : Type;
  em_Write : emulator -> string -> emulator * list Callback;
  em_Resize : emulator -> Z -> Z -> emulator;
  em_Render : emulator -> string;
  em_ReattachSnapshot : emulator -> string + string }.

(** ** Sizes and texts *)

Definition clampDim (d def : Z) : Z :=
  if d <=? 0 then def else if MaxDim <? d then MaxDim else d.

Definition normalizeSize (cols rows : Z) : Z * Z := (clampDim cols 80, clampDim rows 24).

Fixpoint after_byte (c : ascii) (s : string) : option string :=
  match s with
  | EmptyString => None
  | String x rest => if decide (x = c) then Some rest else after_byte c rest
  end.

Definition oscText (data : string) : string := default data (after_byte ";"%char data).

(** registerOSC: the sequences that become controls. *)
Definition on_callback (cb : Callback) : list Control :=
  match cb with
  | OnTitle t => [mkControl "title" 0 t]
  | OnBell => [mkControl "bell" 0 ""]
  | OnOsc code data =>
    if code =? 9 then [mkControl "osc" 9 (oscText data)]
    else if code =? 133 then [mkControl "prompt" 133 (oscText data)]
    else []
  end.

Definition withTerm (environ env : list string) : list string :=
  let env := match env with [] => environ | _ => env end in
  if existsb (fun e => HasPrefix e "TERM=") env then env else env ++ ["TERM=xterm-256color"].

(** The error of cmd.Wait: none, an exit status, another error. *)
Inductive WaitResult := WaitOK | WaitExit (code : Z) | WaitOther.

Definition exitCodeFromWait (err : WaitResult) : Z :=
  match err with WaitOK => 0 | WaitExit code => code | WaitOther => -1 end.

(** strings.Split at one byte. *)
Fixpoint split_byte (c : ascii) (s : string) : list string :=
  match s with
  | EmptyString => [""]
  | String x rest =>
    if decide (x = c) then "" :: split_byte c rest
    else match split_byte c rest with
         | field :: fields => String x field :: fields
         | [] => [String x ""]
         end
  end.

Definition newline : ascii := "010"%char.

(** [clean] is ansi.Strip of the rendered screen. *)
Definition stripSGRTail (clean : string) (n : Z) : string :=
  if n <=? 0 then ""
  else
    let lines := split_byte newline clean in
    strings_Join (if n <? Z.of_nat (length lines) then drop (length lines - Z.to_nat n) lines else lines) (String newline "").

Section Termvt.
Context `{GoMapRange} {EM : Emulator}.

(** ** The actor's state *)

(** [ls_subs] names the channels by their place in [se_chans]. *)
Record loopState := mkLoop {
  ls_em : emulator; ls_subs : gmap Z nat; ls_nextID : Z; ls_cols : Z; ls_rows : Z;
  ls_unusable : option string }.

#[export] Instance eta_Loop : Eta loopState := fun ls =>
  mkLoop (ls_em ls) (ls_subs ls) (ls_nextID ls) (ls_cols ls) (ls_rows ls) (ls_unusable ls).

(** [se_exit] is set when the process was reaped, [se_done] when the actor has ended. *)
Record Session := mkTermSession {
  se_loop : loopState; se_chans : list Channel; se_exit : option Z; se_done : bool }.

#[export] Instance eta_TermSession : Eta Session := fun s =>
  mkTermSession (se_loop s) (se_chans s) (se_exit s) (se_done s).

Implicit Types (s : Session) (ev : Event).

Definition startSession (em : emulator) (cols rows : Z) : Session :=
  mkTermSession (mkLoop em ∅ 0 cols rows None) [] None false.

Definition NewSessionWithDeps (em : emulator) (cols rows : Z) : Session :=
  let '(cols, rows) := normalizeSize cols rows in startSession em cols rows.

Definition ExitCode s : Z * bool := (default 0 (se_exit s), bool_decide (is_Some (se_exit s))).

(** Operations that would panic give [None]: a send on a closed channel, the close of a
    closed one. *)
Definition close_chan (ch : Channel) : option Channel :=
  if ch_closed ch then None else Some (mkChannel (ch_buf ch) true (ch_sent ch)).

Definition drop_sub s (id : Z) (ref : nat) (ch : Channel) : option Session :=
  ch' ← close_chan ch;
  Some (s <| se_chans := <[ref := ch']> (se_chans s) |>
          <| se_loop := se_loop s <| ls_subs := delete id (ls_subs (se_loop s)) |> |>).

(** One turn of fanout's loop: a full buffer disconnects the subscriber. *)
Definition deliver (ev : Event) (acc : option Session) (sub : Z * nat) : option Session :=
  s ← acc;
  ch ← se_chans s !! sub.2;
  if ch_closed ch then None
  else if bool_decide (length (ch_buf ch) < subBuffer)%nat then
    Some (s <| se_chans := <[sub.2 := mkChannel (ch_buf ch ++ [ev]) false (ch_sent ch ++ [ev])]> (se_chans s) |>)
  else drop_sub s sub.1 sub.2 ch.

Definition fanout s ev : option Session :=
  foldl (deliver ev) (Some s) (range (ls_subs (se_loop s))).

Definition fanout_all s (evs : list Event) : option Session :=
  foldl (fun acc ev => s ← acc; fanout s ev) (Some s) evs.

(** ** What the actor serves *)

Definition chunk_events (cbs : list Callback) (chunk : string) : list Event :=
  (control <$> (cbs ≫= on_callback)) ++ [output chunk].

Definition processChunk s (chunk : string) : option Session :=
  let '(em, cbs) := em_Write (ls_em (se_loop s)) chunk in
  fanout_all (s <| se_loop := se_loop s <| ls_em := em |> |>) (chunk_events cbs chunk).

Definition close_sub (acc : option Session) (sub : Z * nat) : option Session :=
  s ← acc; ch ← se_chans s !! sub.2; drop_sub s sub.1 sub.2 ch.

Definition handleExit s (wait : WaitResult) : option Session :=
  s ← fanout (s <| se_exit := Some (exitCodeFromWait wait) |>) exit_event;
  s ← foldl close_sub (Some s) (range (ls_subs (se_loop s)));
  Some (s <| se_done := true |>).

Definition resize s (cols rows : Z) : Session :=
  let '(cols, rows) := normalizeSize cols rows in
  s <| se_loop := se_loop s <| ls_em := em_Resize (ls_em (se_loop s)) cols rows |>
                            <| ls_cols := cols |> <| ls_rows := rows |> |>.

(** The snapshot and the channel of a new subscriber; the result is the error, or the id
    and the channel. *)
Definition register s : Session * (string + Z * nat) :=
  match em_ReattachSnapshot (ls_em (se_loop s)) with
  | inl err => (s <| se_loop := se_loop s <| ls_unusable := Some err |> |>, inl err)
  | inr snapshot =>
    let id := ls_nextID (se_loop s) + 1 in
    let ref := length (se_chans s) in
    let ch := mkChannel [output snapshot] false [output snapshot] in
    (s <| se_chans := se_chans s ++ [ch] |>
       <| se_loop := se_loop s <| ls_nextID := id |>
                               <| ls_subs := <[id := ref]> (ls_subs (se_loop s)) |> |>,
     inr (id, ref))
  end.

(** subscribeCmd.run; [sizeErr] is the error of the pty's SetSize. *)
Definition subscribe s (size : option (Z * Z)) (sizeErr : option string) :
    Session * (string + Z * nat) :=
  match size, sizeErr with
  | Some _, Some err => (s, inl err)
  | Some (cols, rows), None => register (resize s cols rows)
  | None, _ => register s
  end.

Definition unsubscribe s (id : Z) : option Session :=
  match ls_subs (se_loop s) !! id with
  | Some ref => ch ← se_chans s !! ref; drop_sub s id ref ch
  | None => Some s
  end.

Definition resizeCmd s (cols rows : Z) (sizeErr : option string) : Session * option string :=
  match sizeErr with Some err => (s, Some err) | None => (resize s cols rows, None) end.

Definition Snapshot s : string := if se_done s then "" else em_Render (ls_em (se_loop s)).
Definition Size s : Z * Z := if se_done s then (0, 0) else (ls_cols (se_loop s), ls_rows (se_loop s)).

(** What mainLoop receives, and the reader of a channel. *)
Inductive Turn :=
| Chunk (data : string)
| Eof (wait : WaitResult)
| DoSubscribe (size : option (Z * Z)) (sizeErr : option string) (wait : WaitResult)
| DoUnsubscribe (id : Z)
| DoResize (cols rows : Z) (sizeErr : option string)
| Receive (ref : nat).

(** A command that leaves the session unusable ends it. *)
Definition after_command s (wait : WaitResult) : option Session :=
  if bool_decide (ls_unusable (se_loop s) = None) then Some s else handleExit s wait.

Definition receive s (ref : nat) : Session :=
  match se_chans s !! ref with
  | Some (mkChannel (ev :: buf) closed sent) =>
    s <| se_chans := <[ref := mkChannel buf closed sent]> (se_chans s) |>
  | _ => s
  end.

(** One turn; once the actor has ended, calls return and only readers go on. *)
Definition turn s (t : Turn) : option Session :=
  match t with
  | Receive ref => Some (receive s ref)
  | _ =>
    if se_done s then Some s
    else match t with
         | Chunk data => processChunk s data
         | Eof wait => handleExit s wait
         | DoSubscribe size sizeErr wait => after_command (subscribe s size sizeErr).1 wait
         | DoUnsubscribe id => unsubscribe s id
         | DoResize cols rows sizeErr => Some (resizeCmd s cols rows sizeErr).1
         | Receive _ => Some s
         end
  end.

(** The events a turn fans out. *)
Definition published s (t : Turn) : list Event :=
  if se_done s then []
  else match t with
       | Chunk data => chunk_events (em_Write (ls_em (se_loop s)) data).2 data
       | Eof _ => [exit_event]
       | DoSubscribe size sizeErr _ =>
         if bool_decide (ls_unusable (se_loop (subscribe s size sizeErr).1) = None) then [] else [exit_event]
       | _ => []
       end.

Fixpoint turns s (ts : list Turn) : option (Session * list Event) :=
  match ts with
  | [] => Some (s, [])
  | t :: ts =>
    s1 ← turn s t;
    '(s2, evs) ← turns s1 ts;
    Some (s2, published s t ++ evs)
  end.

End Termvt.
