(* ===== verification/TermvtFacts.v ===== *)
(** * platform/termvt: what a subscriber sees

    A subscriber gets a snapshot and then every event in the order it was published, with
    none left out, until it is disconnected; the actor never sends on a closed channel nor
    closes one twice. *)

From Stdlib Require Import String.
From S2P Require Import Prelude GoStd GoStrings HostFrames Termvt.

Section Facts.
Context `{GoMapRange} {EM : Emulator}.
Implicit Types (s : Session) (ev : Event) (ch : Channel).

Abbreviation subs s := (ls_subs (se_loop s)).

(** Open channels and registered subscribers are the same. *)
Record wf s : Prop := {
  wf_sub id ref : subs s !! id = Some ref -> 1 <= id <= ls_nextID (se_loop s) /\
    exists ch, se_chans s !! ref = Some ch /\ ch_closed ch = false;
  wf_inj i j ref : subs s !! i = Some ref -> subs s !! j = Some ref -> i = j;
  wf_open ref ch : se_chans s !! ref = Some ch -> ch_closed ch = false -> exists id, subs s !! id = Some ref;
  wf_buf ref ch : se_chans s !! ref = Some ch ->
    (length (ch_buf ch) <= subBuffer)%nat /\ ch_buf ch `suffix_of` ch_sent ch;
  wf_next : 0 <= ls_nextID (se_loop s);
  wf_done : se_done s = true -> subs s = ∅ }.

(** What a step on one subscriber leaves as it was. *)
Record touched s s' (id : Z) (ref : nat) ch' : Prop := {
  to_chans : se_chans s' = <[ref := ch']> (se_chans s);
  to_subs : subs s' = (if ch_closed ch' then delete id (subs s) else subs s);
  to_next : ls_nextID (se_loop s') = ls_nextID (se_loop s);
  to_done : se_done s' = se_done s }.

Definition good_chan ch : Prop := (length (ch_buf ch) <= subBuffer)%nat /\ ch_buf ch `suffix_of` ch_sent ch.

Lemma touched_wf s s' id ref ch' :
  wf s -> subs s !! id = Some ref -> touched s s' id ref ch' -> good_chan ch' -> wf s'.
Proof.
  intros Hwf Hid [Hc Hs Hn Hd] Hg.
  assert (is_Some (se_chans s !! ref)) as [ch0 Hch0] by (apply (wf_sub _ Hwf) in Hid as (_ & ch & -> & _); done).
  assert (forall i r, subs s' !! i = Some r -> subs s !! i = Some r /\ (ch_closed ch' = true -> i <> id)) as Hsub.
  { intros i r. rewrite Hs. destruct (ch_closed ch'); [|done]. by intros [? ?]%lookup_delete_Some. }
  split.
  - intros i r [Hi Hne]%Hsub. destruct (wf_sub _ Hwf _ _ Hi) as (Hr & ch & Hch & Hop). rewrite Hn. split; [done|].
    rewrite Hc. destruct (decide (r = ref)) as [->|Hrr].
    + exists ch'. rewrite list_lookup_insert_eq by (by apply lookup_lt_Some in Hch0). split; [done|].
      destruct (ch_closed ch') eqn:Hcl; [|done]. destruct (Hne eq_refl). by apply (wf_inj _ Hwf i id ref).
    + exists ch. by rewrite list_lookup_insert_ne.
  - intros i j r [Hi _]%Hsub [Hj _]%Hsub. by apply (wf_inj _ Hwf i j r).
  - intros r ch. rewrite Hc. intros [(<- & <- & _) | [Hne Hch]]%list_lookup_insert_Some Hop.
    + exists id. by rewrite Hs, Hop.
    + destruct (wf_open _ Hwf _ _ Hch Hop) as [i Hi]. exists i. rewrite Hs. destruct (ch_closed ch'); [|done].
      rewrite lookup_delete_ne; [done|]. intros ->. congruence.
  - intros r ch. rewrite Hc. intros [(<- & <- & _) | [Hne Hch]]%list_lookup_insert_Some; [done|].
    by apply (wf_buf _ Hwf r).
  - rewrite Hn. apply Hwf.
  - rewrite Hd, Hs. intros Hdone. rewrite (wf_done _ Hwf Hdone). by destruct (ch_closed ch'); rewrite ?delete_empty.
Qed.

(** ** One event to one subscriber *)

Lemma suffix_app_both {A} (l1 l2 k : list A) : l1 `suffix_of` l2 -> l1 ++ k `suffix_of` l2 ++ k.
Proof. intros [p ->]. exists p. by rewrite (assoc_L (++)). Qed.

Lemma deliver_one ev s id ref : wf s -> subs s !! id = Some ref ->
  exists s' ch ch', deliver ev (Some s) (id, ref) = Some s' /\ se_chans s !! ref = Some ch /\
    touched s s' id ref ch' /\ good_chan ch' /\
    (ch_closed ch' = false /\ ch_sent ch' = ch_sent ch ++ [ev] \/ ch_closed ch' = true /\ ch_sent ch' = ch_sent ch).
Proof.
  intros Hwf Hid. destruct (wf_sub _ Hwf _ _ Hid) as (_ & ch & Hch & Hop).
  destruct (wf_buf _ Hwf _ _ Hch) as [Hlen Hsuf].
  unfold deliver. simpl. rewrite Hch. simpl. rewrite Hop. case_bool_decide as Hroom.
  - eexists _, ch, (mkChannel (ch_buf ch ++ [ev]) false (ch_sent ch ++ [ev])). split_and!; [done..| | |by left].
    + by split.
    + split; simpl; [rewrite length_app; simpl; lia|by apply suffix_app_both].
  - unfold drop_sub, close_chan. simpl. rewrite Hop. simpl. eexists _, ch, (mkChannel (ch_buf ch) true (ch_sent ch)).
    split_and!; [done..| |done|by right]. by split.
Qed.

Lemma close_one s id ref : wf s -> subs s !! id = Some ref ->
  exists s' ch ch', close_sub (Some s) (id, ref) = Some s' /\ se_chans s !! ref = Some ch /\
    touched s s' id ref ch' /\ good_chan ch' /\ ch_closed ch' = true /\ ch_sent ch' = ch_sent ch.
Proof.
  intros Hwf Hid. destruct (wf_sub _ Hwf _ _ Hid) as (_ & ch & Hch & Hop).
  pose proof (wf_buf _ Hwf _ _ Hch). unfold close_sub, drop_sub, close_chan. simpl. rewrite Hch. simpl. rewrite Hop. simpl.
  eexists _, ch, (mkChannel (ch_buf ch) true (ch_sent ch)). split_and!; [done..| |done|done|done]. by split.
Qed.

(** ** All subscribers *)

(** [P] holds of the channels before and after the turns over the subscribers [l]. *)
Definition swept (P : Channel -> Channel -> Prop) s s' (l : list (Z * nat)) : Prop :=
  wf s' /\ se_done s' = se_done s /\ ls_nextID (se_loop s') = ls_nextID (se_loop s) /\
  length (se_chans s') = length (se_chans s) /\
  (forall id, is_Some (subs s' !! id) -> subs s' !! id = subs s !! id) /\
  forall ref ch, se_chans s !! ref = Some ch ->
    exists ch', se_chans s' !! ref = Some ch' /\ if decide (ref ∈ l.*2) then P ch ch' else ch' = ch.

Lemma sweep (f : option Session -> Z * nat -> option Session) (P : Channel -> Channel -> Prop) :
  (forall s id ref, wf s -> subs s !! id = Some ref ->
     exists s' ch ch', f (Some s) (id, ref) = Some s' /\ se_chans s !! ref = Some ch /\
       touched s s' id ref ch' /\ good_chan ch' /\ P ch ch') ->
  forall l s, wf s -> NoDup l.*1 -> (forall id ref, (id, ref) ∈ l -> subs s !! id = Some ref) ->
  exists s', foldl f (Some s) l = Some s' /\ swept P s s' l.
Proof.
  intros Hf l. induction l as [|[id ref] l IH]; intros s Hwf Hnd Hin; simpl.
  { exists s. split; [done|]. split_and!; [done..|]. intros ref ch Hch. by exists ch. }
  apply NoDup_cons in Hnd as [Hnew Hnd]. assert (subs s !! id = Some ref) as Hid by (apply Hin; set_solver).
  destruct (Hf s id ref Hwf Hid) as (s1 & ch & ch1 & -> & Hch & Ht & Hg & HP).
  pose proof (touched_wf _ _ _ _ _ Hwf Hid Ht Hg) as Hwf1. destruct Ht as [Hc Hs Hn Hd].
  assert (ref ∉ l.*2) as Hout.
  { intros ([id' ref'] & Heq & Hl)%list_elem_of_fmap. simpl in Heq. subst ref'.
    assert (subs s !! id' = Some ref) as Hid' by (apply Hin; set_solver).
    rewrite (wf_inj _ Hwf id id' ref Hid Hid') in Hnew. apply Hnew. apply list_elem_of_fmap. by exists (id', ref). }
  destruct (IH s1 Hwf1 Hnd) as (s' & Hs' & Hwf' & Hd' & Hn' & Hlen & Hsub & Hchs).
  { intros i r Hl. rewrite Hs. rewrite <- (Hin i r) by set_solver. destruct (ch_closed ch1); [|done].
    apply lookup_delete_ne. intros ->. apply Hnew, list_elem_of_fmap. by exists (i, r). }
  exists s'. split; [done|]. split_and!; [done|congruence|congruence| | |].
  - by rewrite Hlen, Hc, length_insert.
  - intros i Hi. rewrite (Hsub i Hi), Hs. rewrite (Hsub i Hi), Hs in Hi. destruct (ch_closed ch1); [|done].
    destruct Hi as [r Hr]. apply lookup_delete_Some in Hr as [Hne Hr]. by rewrite lookup_delete_ne.
  - intros r c Hr. simpl. destruct (decide (r = ref)) as [->|Hne].
    + destruct (Hchs ref ch1) as (c' & Hc' & Hrest).
      { rewrite Hc. apply list_lookup_insert_eq. by apply lookup_lt_Some in Hch. }
      exists c'. split; [done|]. rewrite decide_True by set_solver. rewrite decide_False in Hrest by done.
      simplify_eq. done.
    + destruct (Hchs r c) as (c' & Hc' & Hrest); [by rewrite Hc, list_lookup_insert_ne|].
      exists c'. split; [done|]. destruct (decide (r ∈ l.*2)); [rewrite decide_True by set_solver|rewrite decide_False by set_solver]; done.
Qed.

(** ** Streams *)

(** What [evs], published from [s] to [s'], added to each channel: a prefix, and all of
    them if it is still open. *)
Definition streams s s' (evs : list Event) : Prop :=
  forall ref ch, se_chans s !! ref = Some ch ->
    exists ch' n, se_chans s' !! ref = Some ch' /\ ch_sent ch' = ch_sent ch ++ take n evs /\
      (ch_closed ch = true -> ch_closed ch' = true /\ n = 0%nat) /\
      (ch_closed ch' = false -> (length evs <= n)%nat).

Lemma streams_trans s1 s2 s3 evs1 evs2 :
  streams s1 s2 evs1 -> streams s2 s3 evs2 -> streams s1 s3 (evs1 ++ evs2).
Proof.
  intros H12 H23 ref ch1 Hch1. destruct (H12 ref ch1 Hch1) as (ch2 & n1 & Hch2 & Hs1 & Hc1 & Ho1).
  destruct (H23 ref ch2 Hch2) as (ch3 & n2 & Hch3 & Hs2 & Hc2 & Ho2).
  destruct (ch_closed ch2) eqn:Hcl2.
  - destruct (Hc2 eq_refl) as [Hcl3 ->]. exists ch3, (n1 `min` length evs1)%nat.
    split_and!; [done| | |by rewrite Hcl3].
    + rewrite Hs2, Hs1, take_0, app_nil_r, take_app_le by lia. f_equal.
      by rewrite <- take_take, (take_ge evs1 (length evs1)) by lia.
    + intros Hcl1. destruct (Hc1 Hcl1) as [_ ->]. done.
  - specialize (Ho1 eq_refl). exists ch3, (length evs1 + n2)%nat. split_and!; [done| | |].
    + rewrite Hs2, Hs1, take_ge by done. rewrite take_app_add. by rewrite (assoc_L (++)).
    + intros Hcl1. by destruct (Hc1 Hcl1).
    + intros Hcl3. rewrite length_app. specialize (Ho2 Hcl3). lia.
Qed.

Lemma streams_chans s s' : se_chans s' = se_chans s -> streams s s' [].
Proof.
  intros Hc ref ch Hch. exists ch, 0%nat. rewrite Hc, app_nil_r. split_and!; [done..|simpl; lia].
Qed.

(** [wf] looks at the subscribers and the channels only. *)
Lemma wf_ext s s' : se_chans s' = se_chans s -> subs s' = subs s ->
  ls_nextID (se_loop s') = ls_nextID (se_loop s) -> se_done s' = se_done s -> wf s -> wf s'.
Proof.
  intros Hc Hs Hn Hd [W1 W2 W3 W4 W5 W6]. split; rewrite ?Hc, ?Hs, ?Hn, ?Hd; done.
Qed.

Lemma range_subs s id ref : (id, ref) ∈ range (subs s) -> subs s !! id = Some ref.
Proof. apply elem_of_range. Qed.

Lemma unregistered_closed s ref ch :
  wf s -> se_chans s !! ref = Some ch -> ref ∉ (range (subs s)).*2 -> ch_closed ch = true.
Proof.
  intros Hwf Hch Hout. destruct (ch_closed ch) eqn:Hcl; [done|].
  destruct (wf_open _ Hwf _ _ Hch Hcl) as [id Hid]. destruct Hout.
  apply list_elem_of_fmap. exists (id, ref). split; [done|by apply elem_of_range].
Qed.

Lemma registered_open s ref ch :
  wf s -> se_chans s !! ref = Some ch -> ref ∈ (range (subs s)).*2 -> ch_closed ch = false.
Proof.
  intros Hwf Hch ([id r] & -> & Hin%range_subs)%list_elem_of_fmap. simpl in *.
  apply (wf_sub _ Hwf) in Hin as (_ & ch' & Hch' & Hop). congruence.
Qed.

Lemma fanout_ok s ev : wf s ->
  exists s', fanout s ev = Some s' /\ wf s' /\ se_done s' = se_done s /\ streams s s' [ev].
Proof.
  intros Hwf. destruct (sweep (deliver ev) (fun ch ch' =>
    ch_closed ch' = false /\ ch_sent ch' = ch_sent ch ++ [ev] \/ ch_closed ch' = true /\ ch_sent ch' = ch_sent ch)
    (deliver_one ev) (range (subs s)) s Hwf (NoDup_range_keys _) (range_subs s))
    as (s' & Hs' & Hwf' & Hd & _ & _ & _ & Hch).
  exists s'. split_and!; [done..|]. intros ref ch Hc. destruct (Hch ref ch Hc) as (ch' & Hc' & HP).
  case_decide as Hin.
  - pose proof (registered_open s ref ch Hwf Hc Hin) as Hop.
    destruct HP as [[Ho Hs] | [Ho Hs]]; [exists ch', 1%nat|exists ch', 0%nat]; rewrite Hs, ?Hop, ?Ho, ?app_nil_r;
      split_and!; simpl; done || lia.
  - subst ch'. exists ch, 0%nat. rewrite app_nil_r. split_and!; [done..|].
    by rewrite (unregistered_closed s ref ch Hwf Hc Hin).
Qed.

Lemma fanout_all_ok s evs : wf s ->
  exists s', fanout_all s evs = Some s' /\ wf s' /\ se_done s' = se_done s /\ streams s s' evs.
Proof.
  revert s. induction evs as [|ev evs IH]; intros s Hwf.
  - exists s. split_and!; [done..|]. by apply streams_chans.
  - destruct (fanout_ok s ev Hwf) as (s1 & H1 & Hwf1 & Hd1 & Hst1).
    destruct (IH s1 Hwf1) as (s2 & H2 & Hwf2 & Hd2 & Hst2). exists s2. split_and!; [|done|congruence|].
    + unfold fanout_all in *. simpl. by rewrite H1.
    + by apply (streams_trans _ _ _ [ev] evs Hst1).
Qed.

Lemma processChunk_ok s data : wf s -> exists s', processChunk s data = Some s' /\ wf s' /\
  streams s s' (chunk_events (em_Write (ls_em (se_loop s)) data).2 data).
Proof.
  intros Hwf. unfold processChunk. destruct (em_Write _ _) as [em cbs]. cbn [snd].
  destruct (fanout_all_ok (s <| se_loop := se_loop s <| ls_em := em |> |>) (chunk_events cbs data))
    as (s' & Hs' & Hwf' & _ & Hst); [by apply (wf_ext s)|].
  exists s'. split_and!; [exact Hs'|exact Hwf'|exact Hst].
Qed.

Lemma handleExit_ok s wait : wf s -> exists s', handleExit s wait = Some s' /\ wf s' /\ streams s s' [exit_event].
Proof.
  intros Hwf. unfold handleExit.
  destruct (fanout_ok (s <| se_exit := Some (exitCodeFromWait wait) |>) exit_event) as (s1 & -> & Hwf1 & _ & Hst1);
    [by apply (wf_ext s)|]. simpl.
  destruct (sweep close_sub (fun ch ch' => ch_closed ch' = true /\ ch_sent ch' = ch_sent ch)
    close_one (range (subs s1)) s1 Hwf1 (NoDup_range_keys _) (range_subs s1))
    as (s2 & -> & Hwf2 & _ & _ & Hlen & _ & Hch). simpl.
  assert (forall ref ch2, se_chans s2 !! ref = Some ch2 -> ch_closed ch2 = true) as Hall.
  { intros ref ch2 Hc2. destruct (lookup_lt_is_Some_2 (se_chans s1) ref) as [ch1 Hc1];
      [rewrite <- Hlen; by apply lookup_lt_Some in Hc2|].
    destruct (Hch ref ch1 Hc1) as (ch2' & Hc2' & HP). rewrite Hc2 in Hc2'. injection Hc2' as <-.
    case_decide as Hin; [by apply HP|]. rewrite HP. by apply (unregistered_closed s1 ref). }
  eexists. split_and!; [done| |].
  - destruct Hwf2 as [W1 W2 W3 W4 W5 W6]. split; simpl; try done. intros _.
    apply map_empty. intros id. destruct (subs s2 !! id) as [ref|] eqn:Hid; [|done].
    destruct (W1 id ref Hid) as (_ & ch & Hc & Hop). by rewrite (Hall ref ch Hc) in Hop.
  - rewrite <- (app_nil_r [exit_event]). eapply streams_trans; [exact Hst1|].
    intros ref ch Hc. destruct (Hch ref ch Hc) as (ch' & Hc' & HP). exists ch', 0%nat.
    assert (ch_sent ch' = ch_sent ch) as -> by (case_decide; [by apply HP|by subst]).
    rewrite app_nil_r. split_and!; [done..| |simpl; lia]. intros _. split; [by eapply Hall|done].
Qed.

Lemma unsubscribe_ok s id : wf s -> exists s', unsubscribe s id = Some s' /\ wf s' /\ streams s s' [].
Proof.
  intros Hwf. unfold unsubscribe. destruct (subs s !! id) as [ref|] eqn:Hid.
  - destruct (close_one s id ref Hwf Hid) as (s' & ch & ch' & Hs & Hch & Ht & Hg & Hcl & Hsent).
    exists s'. split_and!; [exact Hs|by eapply touched_wf|]. intros r c Hr. destruct Ht as [Hc _ _ _]. rewrite Hc.
    destruct (decide (r = ref)) as [->|Hne].
    + exists ch', 0%nat. rewrite list_lookup_insert_eq by (by apply lookup_lt_Some in Hch).
      rewrite Hch in Hr. injection Hr as <-. rewrite app_nil_r. split_and!; [done..|by rewrite Hcl].
    + exists c, 0%nat. rewrite list_lookup_insert_ne, app_nil_r by done. split_and!; [done..|simpl; lia].
  - exists s. split_and!; [done..|]. by apply streams_chans.
Qed.

Lemma resize_same s cols rows :
  se_chans (resize s cols rows) = se_chans s /\ subs (resize s cols rows) = subs s /\
  ls_nextID (se_loop (resize s cols rows)) = ls_nextID (se_loop s) /\
  se_done (resize s cols rows) = se_done s.
Proof. done. Qed.

(** A new channel does not disturb the others. *)
Lemma new_sub_ok s s' (ch : Channel) : wf s -> se_done s = false -> ch_closed ch = false -> good_chan ch ->
  se_chans s' = se_chans s ++ [ch] -> ls_nextID (se_loop s') = ls_nextID (se_loop s) + 1 ->
  subs s' = <[ls_nextID (se_loop s) + 1 := length (se_chans s)]> (subs s) -> se_done s' = false ->
  wf s' /\ streams s s' [].
Proof.
  intros Hwf Hd0 Hop Hg Hc Hn Hs Hd.
  assert (forall id ref, subs s !! id = Some ref -> (ref < length (se_chans s))%nat) as Hlt.
  { intros id ref Hid. destruct (wf_sub _ Hwf _ _ Hid) as (_ & c & Hc' & _). by apply lookup_lt_Some in Hc'. }
  pose proof (wf_next _ Hwf) as Hnext. split; [split|].
  - intros id ref. rewrite Hs, Hn, Hc. intros [[<- <-] | [Hne Hid]]%lookup_insert_Some.
    + split; [lia|]. exists ch. by rewrite list_lookup_middle.
    + destruct (wf_sub _ Hwf _ _ Hid) as (Hr & c & Hc' & Hcl). split; [lia|]. exists c. by rewrite (lookup_app_l_Some _ _ _ _ Hc').
  - intros i j ref. rewrite Hs.
    intros [[<- <-] | [Hi Hi']]%lookup_insert_Some [[<- Hj'] | [Hj Hj']]%lookup_insert_Some; [done| | |].
    + apply Hlt in Hj'. lia.
    + apply Hlt in Hi'. lia.
    + by apply (wf_inj _ Hwf i j ref).
  - intros ref c. rewrite Hc, Hs. intros [Hr | [Hge Hr]]%lookup_app_Some Hcl.
    + destruct (wf_open _ Hwf _ _ Hr Hcl) as [id Hid]. exists id. rewrite lookup_insert_ne; [done|].
      intros <-. apply (wf_sub _ Hwf) in Hid as [? _]. lia.
    + apply list_lookup_singleton_Some in Hr as [Hr _]. exists (ls_nextID (se_loop s) + 1).
      rewrite lookup_insert_eq. f_equal. lia.
  - intros ref c. rewrite Hc. intros [Hr | [_ Hr]]%lookup_app_Some; [by apply (wf_buf _ Hwf ref)|].
    apply list_lookup_singleton_Some in Hr as [_ <-]. done.
  - rewrite Hn. lia.
  - by rewrite Hd.
  - intros ref c Hr. exists c, 0%nat. rewrite Hc, app_nil_r, (lookup_app_l_Some _ _ _ _ Hr).
    split_and!; [done..|simpl; lia].
Qed.

Lemma register_ok s : wf s -> se_done s = false -> wf (register s).1 /\ streams s (register s).1 [].
Proof.
  intros Hwf Hd. unfold register. destruct (em_ReattachSnapshot _) as [err|snapshot].
  - split; [by apply (wf_ext s)|by apply streams_chans].
  - eapply (new_sub_ok s _ (mkChannel [output snapshot] false [output snapshot])); try done.
    split; simpl; [unfold subBuffer; lia|done].
Qed.

Lemma subscribe_ok s size sizeErr : wf s -> se_done s = false ->
  wf (subscribe s size sizeErr).1 /\ streams s (subscribe s size sizeErr).1 [].
Proof.
  intros Hwf Hd. unfold subscribe. destruct size as [[cols rows]|]; [destruct sizeErr as [err|]|].
  - split; [done|by apply streams_chans].
  - apply (register_ok (resize s cols rows)); [by apply (wf_ext s)|done].
  - by apply register_ok.
Qed.

Lemma receive_ok s ref : wf s -> wf (receive s ref) /\ streams s (receive s ref) [].
Proof.
  intros Hwf. unfold receive. destruct (se_chans s !! ref) as [[[|ev buf] cl sent]|] eqn:Hch;
    [by split; [|apply streams_chans]| |by split; [|apply streams_chans]].
  destruct (wf_buf _ Hwf _ _ Hch) as [Hlen [pre Hpre]]. simpl in *.
  assert (forall r c, <[ref := mkChannel buf cl sent]> (se_chans s) !! r = Some c ->
    exists c0, se_chans s !! r = Some c0 /\ ch_closed c = ch_closed c0 /\ ch_sent c = ch_sent c0) as Hold.
  { intros r c [(<- & <- & _) | [_ Hr]]%list_lookup_insert_Some; [by eexists|by exists c]. }
  assert (forall r c0, se_chans s !! r = Some c0 -> exists c, <[ref := mkChannel buf cl sent]> (se_chans s) !! r = Some c /\
    ch_closed c = ch_closed c0 /\ ch_sent c = ch_sent c0) as Hnew.
  { intros r c0 Hr. destruct (decide (r = ref)) as [->|Hne].
    - eexists. rewrite list_lookup_insert_eq by (by apply lookup_lt_Some in Hr). by simplify_eq.
    - exists c0. by rewrite list_lookup_insert_ne. }
  split; [split; simpl; [| |intros r c Hr Hcl|intros r c Hr|apply Hwf|apply Hwf]|].
  - intros id r Hid. destruct (wf_sub _ Hwf _ _ Hid) as (Hr & c0 & Hc0 & Hcl). split; [done|].
    destruct (Hnew r c0 Hc0) as (c & Hc & Heq & _). exists c. by rewrite Heq.
  - apply Hwf.
  - destruct (Hold r c Hr) as (c0 & Hc0 & Heq & _). apply (wf_open _ Hwf r c0 Hc0). congruence.
  - apply list_lookup_insert_Some in Hr as [(<- & <- & _) | [_ Hr]]; [|by apply (wf_buf _ Hwf r)]. simpl.
    split; [lia|]. rewrite Hpre. exists (pre ++ [ev]). by rewrite <- (assoc_L (++)).
  - intros r c0 Hr. destruct (Hnew r c0 Hr) as (c & Hc & Hcl & Hs). exists c, 0%nat.
    rewrite Hs, Hcl, app_nil_r. split_and!; [done..|simpl; lia].
Qed.

Lemma turn_ok s t : wf s -> exists s', turn s t = Some s' /\ wf s' /\ streams s s' (published s t).
Proof.
  intros Hwf. unfold turn, published. destruct (se_done s) eqn:Hd.
  { destruct t as [data|wait|size err wait|id|cols rows err|ref];
      [eexists; split_and!; [done..|by apply streams_chans]..|].
    destruct (receive_ok s ref Hwf). by eexists. }
  destruct t as [data|wait|size err wait|id|cols rows err|ref].
  - by apply processChunk_ok.
  - by apply handleExit_ok.
  - destruct (subscribe_ok s size err Hwf Hd) as [Hwf1 Hst1]. unfold after_command.
    case_bool_decide; [by eexists|]. destruct (handleExit_ok _ wait Hwf1) as (s' & Hs' & Hwf' & Hst').
    exists s'. split_and!; [done..|]. by apply (streams_trans _ _ _ [] [exit_event] Hst1).
  - by apply unsubscribe_ok.
  - eexists. split; [done|]. destruct err; simpl; (split; [by apply (wf_ext s)|by apply streams_chans]).
  - destruct (receive_ok s ref Hwf). by eexists.
Qed.

Lemma turns_ok ts s : wf s -> exists s' evs, turns s ts = Some (s', evs) /\ wf s' /\ streams s s' evs.
Proof.
  revert s. induction ts as [|t ts IH]; intros s Hwf; simpl.
  - exists s, []. split_and!; [done..|]. by apply streams_chans.
  - destruct (turn_ok s t Hwf) as (s1 & -> & Hwf1 & Hst1). simpl.
    destruct (IH s1 Hwf1) as (s2 & evs & -> & Hwf2 & Hst2). exists s2, (published s t ++ evs).
    split_and!; [done..|]. by eapply streams_trans.
Qed.

Lemma new_session_wf em cols rows : wf (NewSessionWithDeps em cols rows).
Proof.
  by split.
Qed.

Lemma subscribe_registers s size sizeErr s' id ref : subscribe s size sizeErr = (s', inr (id, ref)) ->
  exists snapshot, em_ReattachSnapshot (ls_em (se_loop s')) = inr snapshot /\
    se_chans s' !! ref = Some (mkChannel [output snapshot] false [output snapshot]).
Proof.
  assert (forall s0, register s0 = (s', inr (id, ref)) ->
    exists snapshot, em_ReattachSnapshot (ls_em (se_loop s')) = inr snapshot /\
      se_chans s' !! ref = Some (mkChannel [output snapshot] false [output snapshot])) as Hreg.
  { intros s0. unfold register. destruct (em_ReattachSnapshot _) as [err|snapshot] eqn:He; [done|].
    intros [= <- <- <-]. exists snapshot. split; [done|]. simpl. by rewrite list_lookup_middle. }
  unfold subscribe. destruct size as [[cols rows]|]; [destruct sizeErr|]; [done|apply Hreg..].
Qed.

(** C22: Whatever a terminal session serves, it never sends on a closed channel nor
    closes one twice; and a subscriber's channel carries a snapshot of the screen and then
    the events published since, in order and with none left out: a prefix of them once it
    is disconnected, all of them while it is not.  At most 256 of them wait in it. *)
Theorem subscriber_stream em cols rows ts1 s1 evs1 size sizeErr s2 id ref ts2 :
  turns (NewSessionWithDeps em cols rows) ts1 = Some (s1, evs1) -> se_done s1 = false ->
  subscribe s1 size sizeErr = (s2, inr (id, ref)) ->
  exists s3 evs ch n snapshot,
    turns s2 ts2 = Some (s3, evs) /\ se_chans s3 !! ref = Some ch /\
    em_ReattachSnapshot (ls_em (se_loop s2)) = inr snapshot /\
    ch_sent ch = output snapshot :: take n evs /\
    (ch_closed ch = false -> take n evs = evs) /\
    ch_buf ch `suffix_of` ch_sent ch /\ (length (ch_buf ch) <= subBuffer)%nat.
Proof.
  intros H1 Hd Hsub. destruct (turns_ok ts1 _ (new_session_wf em cols rows)) as (s1' & evs1' & H1' & Hwf1 & _).
  rewrite H1 in H1'. injection H1' as <- <-.
  pose proof (subscribe_ok s1 size sizeErr Hwf1 Hd) as [Hwf2 _]. rewrite Hsub in Hwf2.
  destruct (subscribe_registers _ _ _ _ _ _ Hsub) as (snapshot & Hsnap & Hch).
  destruct (turns_ok ts2 s2 Hwf2) as (s3 & evs & H3 & Hwf3 & Hst).
  destruct (Hst ref _ Hch) as (ch & n & Hch3 & Hsent & _ & Hopen).
  exists s3, evs, ch, n, snapshot. destruct (wf_buf _ Hwf3 _ _ Hch3) as [Hlen Hsuf].
  split_and!; [done..| |done|done]. intros Hcl. by apply take_ge, Hopen.
Qed.

End Facts.

(** ** A session with a trivial emulator *)

Module TermvtDemo.

#[local] Existing Instance canonical_range.

#[local] Instance screen : Emulator := {|
  emulator := string;
  em_Write := fun em data => (em +:+ data, if bool_decide (data = "bell") then [OnBell] else []);
  em_Resize := fun em _ _ => em;
  em_Render := fun em => em;
  em_ReattachSnapshot := fun em => inr em |}.

Definition blank : emulator := "".
Definition before : list Turn := [Chunk "hello"].
Definition after : list Turn := [Chunk "bell"; Receive 0; Chunk "more"; Eof WaitOK].

Definition started : Session := default (NewSessionWithDeps blank 80 24) (fst <$> turns (NewSessionWithDeps blank 80 24) before).
Definition attached : Session := (subscribe started (Some (100, 30)) None).1.

Lemma subscriber_stream_witness :
  exists s3 evs ch n, turns attached after = Some (s3, evs) /\ se_chans s3 !! 0%nat = Some ch /\
    ch_sent ch = output "hello" :: take n evs.
Proof.
  destruct (subscriber_stream blank 80 24 before started [output "hello"] (Some (100, 30)) None attached 1 0%nat after)
    as (s3 & evs & ch & n & snapshot & H1 & H2 & H3 & H4 & _).
  - vm_compute. reflexivity.
  - vm_compute. reflexivity.
  - vm_compute. reflexivity.
  - exists s3, evs, ch, n. split; [exact H1|]. split; [exact H2|]. rewrite H4. injection H3 as <-. reflexivity.
Defined.

End TermvtDemo.
