(* ===== verification/RuntimeStore.v ===== *)
(** * host/runtime: the store of frame messages

    frame_messaging_store.go and the snapshot records of backends.go: how the messages
    of a session are written to the journal and the session snapshot, read back,
    cleaned of frames that are gone, and summarised. *)

From Stdlib Require Import String.
From S2P Require Import Prelude GoStd GoStrings GoTime ShellArgs HostState HostHandlers.

(** ** Snapshot records (backends.go) *)

Record FrameReplySnapshot := mkReplySnapshot {
  rs_ID : string; rs_SourceFrameID : string; rs_Body : string; rs_FinalAnswer : string;
  rs_CreatedAt : string; rs_Resolution : string; rs_Confidence : string;
  rs_FinalAnswerPreview : string }.

Record FrameMessageSnapshot := mkMessageSnapshot {
  sm_ID : string; sm_SourceFrameID : string; sm_TargetFrameID : string; sm_Topic : string;
  sm_Body : string; sm_Priority : string; sm_CreatedAt : string; sm_Read : bool;
  sm_ReplyStatus : string; sm_DeliveryStatus : string; sm_Reply : option FrameReplySnapshot }.

(** The summary has the fields of the state's. *)
Record SessionFrameMessagingSnapshot := mkMessagingSnapshot {
  sn_Summary : FrameMessagingSummary; sn_Messages : list FrameMessageSnapshot }.

Record frameMessagingJournalRecord := mkJournalRecord {
  jr_Kind : string; jr_Timestamp : string; jr_Message : option FrameMessageSnapshot;
  jr_MessageID : string; jr_MessageIDs : list string; jr_Reply : option FrameReplySnapshot }.

Record frameMessagingAuditRecord := mkAuditRecord {
  au_Timestamp : string; au_ToolName : string; au_SessionID : string;
  au_SourceFrameID : string; au_TargetFrameID : string; au_MessageID : string;
  au_Decision : string; au_Reason : string; au_BodyHash : string }.

#[export] Instance eta_Audit : Eta frameMessagingAuditRecord := fun r =>
  mkAuditRecord (au_Timestamp r) (au_ToolName r) (au_SessionID r) (au_SourceFrameID r)
    (au_TargetFrameID r) (au_MessageID r) (au_Decision r) (au_Reason r) (au_BodyHash r).

#[export] Instance FrameReplySnapshot_eq_dec : EqDecision FrameReplySnapshot.
Proof. solve_decision. Defined.

#[export] Instance FrameMessageSnapshot_eq_dec : EqDecision FrameMessageSnapshot.
Proof. solve_decision. Defined.

#[export] Instance journalRecord_eq_dec : EqDecision frameMessagingJournalRecord.
Proof. solve_decision. Defined.

Definition frameMessagingKindSent := "message_sent".
Definition frameMessagingKindReply := "message_reply".
Definition frameMessagingKindRead := "message_read".
Definition frameMessagingAuditAllow := "allow".
Definition frameMessagingAuditReject := "reject".

(** ** Conversions *)

(** [t, _ := time.Parse(time.RFC3339, s)]: the zero time on an error. *)
Definition parsed_time (s : string) : Time := default 0 (ParseRFC3339 s).

Definition snapshotToFrameReply (r : FrameReplySnapshot) : FrameReply :=
  mkFrameReply (rs_ID r) (rs_SourceFrameID r) (rs_Body r) (rs_FinalAnswer r)
    (parsed_time (rs_CreatedAt r)) (rs_Resolution r) (rs_Confidence r) (rs_FinalAnswerPreview r).

Definition snapshotToFrameMessage (m : FrameMessageSnapshot) : FrameMessage :=
  mkFrameMessage (sm_ID m) (sm_SourceFrameID m) (sm_TargetFrameID m) (sm_Topic m) (sm_Body m)
    (sm_Priority m) (parsed_time (sm_CreatedAt m)) (sm_Read m) (sm_ReplyStatus m)
    (sm_DeliveryStatus m) (snapshotToFrameReply <$> sm_Reply m).

Definition frameReplyToSnapshot (r : FrameReply) : FrameReplySnapshot :=
  mkReplySnapshot (fr_ID r) (fr_SourceFrameID r) (fr_Body r) (fr_FinalAnswer r)
    (FormatRFC3339 (fr_CreatedAt r)) (fr_Resolution r) (fr_Confidence r) (fr_FinalAnswerPreview r).

Definition frameMessageToSnapshot (m : FrameMessage) : FrameMessageSnapshot :=
  mkMessageSnapshot (fm_ID m) (fm_SourceFrameID m) (fm_TargetFrameID m) (fm_Topic m) (fm_Body m)
    (fm_Priority m) (FormatRFC3339 (fm_CreatedAt m)) (fm_Read m) (fm_ReplyStatus m)
    (fm_DeliveryStatus m) (frameReplyToSnapshot <$> fm_Reply m).

(** ** Previews and the summary *)

(** proto_bridge.go *)
Definition stateMessagePreview (body : string) : string :=
  let body := strings_Join (Fields body) " " in
  if (length (runes body) <=? 120)%nat then body
  else string_of_runes (take 117 (runes body)) +:+ "...".

Module Messaging.

(** The first value that is not blank. *)
Fixpoint firstNonEmpty (values : list string) : string :=
  match values with
  | [] => ""
  | v :: rest => if bool_decide (TrimSpace v = "") then firstNonEmpty rest else v
  end.

End Messaging.

Definition summarize (summary : FrameMessagingSummary) (msg : FrameMessage) : FrameMessagingSummary :=
  let s := if fm_Read msg then summary
           else summary <| su_UnreadCount := su_UnreadCount summary + 1 |> in
  let s := if bool_decide (is_Some (fm_Reply msg)) then s
           else s <| su_PendingDeliveryCount := su_PendingDeliveryCount s + 1 |> in
  let body := stateMessagePreview (fm_Body msg) in
  let s := if bool_decide (body = "") then s else s <| su_LatestMessagePreview := body |> in
  let s := match fm_Reply msg with
           | Some reply =>
             let preview := stateMessagePreview
               (Messaging.firstNonEmpty [fr_FinalAnswer reply; fr_Body reply]) in
             if bool_decide (preview = "") then s else s <| su_LatestReplyPreview := preview |>
           | None => s
           end in
  if negb (bool_decide (fm_ReplyStatus msg = "")) then s <| su_LastDeliveryStatus := fm_ReplyStatus msg |>
  else if negb (bool_decide (fm_DeliveryStatus msg = "")) then
    s <| su_LastDeliveryStatus := fm_DeliveryStatus msg |>
  else s.

Definition zero_summary : FrameMessagingSummary := mkSummary 0 "" "" 0 "".

Definition computeFrameMessagingSummary (messages : list FrameMessage) : FrameMessagingSummary :=
  foldl summarize zero_summary messages.

(** ** Frames *)

Section Frames.
Context {HT : HostTypes}.

(** The lexer never panics ([LexArgs_partitions] of ShellArgs.v), so [None] does not
    arise. *)
Definition isAgentFrame (frame : SessionFrame) : bool :=
  match SplitArgs (f_Command frame) with
  | Some (inr (arg0 :: _)) => bool_decide (arg0 = "claude") || bool_decide (arg0 = "codex")
  | _ => bool_decide (f_Command frame = "claude") || bool_decide (f_Command frame = "codex")
  end.

Definition liveFrameSet (frames : list SessionFrame) : gset FrameID :=
  list_to_set (f_ID <$> frames).

End Frames.

(** The frames a message names are all live. *)
Definition message_live (liveFrames : gset FrameID) (msg : FrameMessage) : bool :=
  bool_decide (fm_SourceFrameID msg ∈ liveFrames) && bool_decide (fm_TargetFrameID msg ∈ liveFrames)
  && match fm_Reply msg with
     | Some reply => bool_decide (fr_SourceFrameID reply ∈ liveFrames)
     | None => true
     end.

Definition sanitizeFrameMessaging (msgs : SessionFrameMessaging) (liveFrames : gset FrameID) :
    SessionFrameMessaging :=
  let messages := filter (fun m => message_live liveFrames m = true) (ms_Messages msgs) in
  mkMessaging (computeFrameMessagingSummary messages) messages.

(** ** The journal *)

Definition findFrameMessageIndex (messages : list FrameMessage) (id : string) : option nat :=
  find_message id messages.

(** What a message that is already there keeps when its record is replayed. *)
Definition preserve (preserved msg : FrameMessage) : FrameMessage :=
  let msg := if fm_Read preserved then msg <| fm_Read := true |> else msg in
  let msg := if bool_decide (is_Some (fm_Reply preserved)) then msg <| fm_Reply := fm_Reply preserved |> else msg in
  let msg := if bool_decide (fm_ReplyStatus preserved = "") then msg
             else msg <| fm_ReplyStatus := fm_ReplyStatus preserved |> in
  if bool_decide (fm_DeliveryStatus preserved = "") then msg
  else msg <| fm_DeliveryStatus := fm_DeliveryStatus preserved |>.

Definition applyFrameMessagingSent (out : list FrameMessage) (rec : frameMessagingJournalRecord) :
    list FrameMessage :=
  match jr_Message rec with
  | None => out
  | Some snap =>
    let msg := snapshotToFrameMessage snap in
    match findFrameMessageIndex out (fm_ID msg) with
    | Some idx => alter (fun preserved => preserve preserved msg) idx out
    | None => out ++ [msg]
    end
  end.

Definition replied (reply : FrameReply) (msg : FrameMessage) : FrameMessage :=
  msg <| fm_Reply := Some reply |>
      <| fm_ReplyStatus := if bool_decide (fr_Resolution reply = "") then "replied"
                           else fr_Resolution reply |>
      <| fm_DeliveryStatus := "replied" |>.

Definition applyFrameMessagingReply (out : list FrameMessage) (rec : frameMessagingJournalRecord) :
    list FrameMessage :=
  match jr_Reply rec with
  | None => out
  | Some snap =>
    if bool_decide (jr_MessageID rec = "") then out
    else match findFrameMessageIndex out (jr_MessageID rec) with
         | Some idx => alter (replied (snapshotToFrameReply snap)) idx out
         | None => out
         end
  end.

Definition mark_read (ids : list string) (msg : FrameMessage) : FrameMessage :=
  if bool_decide (fm_ID msg ∈ ids) then msg <| fm_Read := true |> else msg.

Definition applyFrameMessagingRead (out : list FrameMessage) (rec : frameMessagingJournalRecord) :
    list FrameMessage :=
  let ids := if bool_decide (jr_MessageIDs rec = []) && negb (bool_decide (jr_MessageID rec = ""))
             then [jr_MessageID rec] else jr_MessageIDs rec in
  let readSet := filter (fun id => id <> "") ids in
  mark_read readSet <$> out.

Definition applyFrameMessagingJournalRecord (out : list FrameMessage)
    (rec : frameMessagingJournalRecord) : list FrameMessage :=
  if bool_decide (jr_Kind rec = frameMessagingKindSent) then applyFrameMessagingSent out rec
  else if bool_decide (jr_Kind rec = frameMessagingKindReply) then applyFrameMessagingReply out rec
  else if bool_decide (jr_Kind rec = frameMessagingKindRead) then applyFrameMessagingRead out rec
  else out.

(** encoding/json on a record: the text of a line and what it parses to. *)
Class JournalCodec := {
  encode_record : frameMessagingJournalRecord -> string;
  decode_record : string -> option frameMessagingJournalRecord }.

(** A journal file, by lines. *)
Inductive JournalFile := NoFile | Unreadable | Lines (lines : list string).

(** The scanner's buffer, which has to hold a line and its newline. *)
Definition scanner_limit : Z := 2 ^ 20.

Definition scan_line {JC : JournalCodec} (line : string) : option frameMessagingJournalRecord :=
  if Z.of_nat (String.length line) + 1 <=? scanner_limit then decode_record line else None.

(** [None] is an error: a file that cannot be read, a line that is too long or is not a
    record.  [base] and the result are pointers in Go. *)
Definition loadFrameMessagingFromJournal {JC : JournalCodec} (file : JournalFile)
    (base : option SessionFrameMessaging) : option (option SessionFrameMessaging) :=
  match file with
  | NoFile => Some base
  | Unreadable => None
  | Lines lines =>
    records ← mapM scan_line lines;
    let out := from_option ms_Messages [] base in
    let out := foldl applyFrameMessagingJournalRecord out records in
    Some (Some (mkMessaging (computeFrameMessagingSummary out) out))
  end.

(** ** Identifiers and hashes *)

Definition UnixNano (t : Time) : Z := wrap64 (t - unixToInternal * Second).

Definition allocFrameMessageID (prefix : string) (now : Time) : string :=
  prefix +:+ "-" +:+ show_int (UnixNano now).

Definition frameMessagingBodyHash (parts : list string) : string :=
  Sha256.hex (strings_Join ((fun part => part +:+ String "000"%char "") <$>
                            filter (fun part => part <> "") parts) "").
