(* ===== verification/RuntimeSnapshot.v ===== *)
(** * host/runtime: session snapshots

    [snapshotSessions] of interpret.go, [FilePersist] of persist.go, and the loading of
    bootstrap.go: what the daemon writes to disk for every session and what it makes of
    it when it starts again. *)

From Stdlib Require Import String.
From S2P Require Import Prelude GoStd GoTime HostState HostFrames HostHandlers RuntimeStore.

(** ** Snapshot records (backends.go) *)

Record SessionFrameSnapshot := mkFrameSnapshot {
  fs_ID : string; fs_SubsystemID : string; fs_TargetID : string; fs_Project : string;
  fs_Command : string; fs_LaunchOptions : LaunchOptions; fs_CreatedAt : string;
  fs_Driver : string; fs_DriverState : gmap string string }.

Record ResumeCapsuleSnapshot := mkCapsuleSnapshot {
  cp_Objective : string; cp_CurrentState : string; cp_NextAction : string;
  cp_Unresolved : list string; cp_Changed : list string; cp_Verified : list string;
  cp_Remaining : list string; cp_Attention : string; cp_GeneratedAt : string;
  cp_SourceDigest : string; cp_SourceTurns : Z; cp_FlaggedWrong : bool;
  cp_FlaggedAt : string; cp_LastError : string; cp_LastErrorAt : string }.

Record SessionSnapshot := mkSessionSnapshot {
  sp_ID : string; sp_Project : string; sp_CreatedAt : string;
  sp_Frames : list SessionFrameSnapshot; sp_HeadFrameID : string; sp_MRUFrameIDs : list string;
  sp_FrameMessaging : option SessionFrameMessagingSnapshot; sp_FrameGeneration : Z;
  sp_ResumeCapsule : option ResumeCapsuleSnapshot }.

#[export] Instance eta_SessionSnapshot : Eta SessionSnapshot := fun r =>
  mkSessionSnapshot (sp_ID r) (sp_Project r) (sp_CreatedAt r) (sp_Frames r) (sp_HeadFrameID r)
    (sp_MRUFrameIDs r) (sp_FrameMessaging r) (sp_FrameGeneration r) (sp_ResumeCapsule r).

(** ** Writing (interpret.go, bootstrap.go) *)

(** An absent time is left out of the JSON, which reads back as the empty string. *)
Definition optional_time (t : Time) : string := if IsZero t then "" else FormatRFC3339 t.

Definition snapshotResumeCapsule (c : ResumeCapsule) : ResumeCapsuleSnapshot :=
  mkCapsuleSnapshot (rc_Objective c) (rc_CurrentState c) (rc_NextAction c) (rc_Unresolved c)
    (rc_Changed c) (rc_Verified c) (rc_Remaining c) (rc_Attention c)
    (FormatRFC3339 (rc_GeneratedAt c)) (rc_SourceDigest c) (rc_SourceTurns c) (rc_FlaggedWrong c)
    (optional_time (rc_FlaggedAt c)) (rc_LastError c) (optional_time (rc_LastErrorAt c)).

(** The loop spells out [frameMessageToSnapshot]. *)
Definition snapshotFrameMessaging (m : SessionFrameMessaging) : SessionFrameMessagingSnapshot :=
  mkMessagingSnapshot (ms_Summary m) (frameMessageToSnapshot <$> ms_Messages m).

Section Host.
Context `{GoMapRange} {HT : HostTypes} {DSYS : DriverSys}.

Definition snapshotFrame (frame : SessionFrame) : SessionFrameSnapshot :=
  let drv := GetDriver (f_Command frame) in
  mkFrameSnapshot (f_ID frame) (f_SubsystemID frame) (f_TargetID frame) (f_Project frame)
    (f_Command frame) (f_LaunchOptions frame <| lo_InitialInput := "" |>)
    (FormatRFC3339 (f_CreatedAt frame)) (from_option drv_Name "" drv)
    (from_option (fun d => drv_Persist d (f_Driver frame)) ∅ drv).

Definition snapshotSession (sess : Session) : SessionSnapshot :=
  mkSessionSnapshot (ss_ID sess) (ss_Project sess) (FormatRFC3339 (ss_CreatedAt sess))
    (snapshotFrame <$> ss_Frames sess) (ss_HeadFrameID sess) (ss_MRUFrameIDs sess)
    (snapshotFrameMessaging <$> ss_FrameMessaging sess) (ss_FrameGeneration sess)
    (snapshotResumeCapsule <$> ss_ResumeCapsule sess).

Definition snapshotSessions (s : State) : list SessionSnapshot :=
  omap (fun kv => if Ended kv.2 then None else Some (snapshotSession kv.2)) (range (st_Sessions s)).

(** ** The files (persist.go)

    A file per session, by session id.  [legacy] is the head a file of an older version
    names under its former tag. *)
Record SessionFile := mkSessionFile { sf_Snapshot : SessionSnapshot; sf_ActiveFrameID : string }.

Definition writeOne (files : gmap string SessionFile) (snap : SessionSnapshot) : gmap string SessionFile :=
  <[sp_ID snap := mkSessionFile snap ""]> files.

(** [written] is the number of files written before an error of the file system; the
    call succeeds when it is the number of sessions. *)
Definition Save (files : gmap string SessionFile) (sessions : list SessionSnapshot) (written : nat) :
    gmap string SessionFile * bool :=
  (foldl writeOne files (take written sessions), bool_decide (length sessions <= written)%nat).

Definition Delete (files : gmap string SessionFile) (id : string) : gmap string SessionFile :=
  if bool_decide (id = "") then files else delete id files.

(** The files in the order of the directory, which [LoadSnapshot] does not depend on. *)
Definition Load (files : gmap string SessionFile) : list SessionSnapshot :=
  (fun kf : string * SessionFile =>
     let snap := sf_Snapshot kf.2 in
     if bool_decide (sp_HeadFrameID snap = "") then snap <| sp_HeadFrameID := sf_ActiveFrameID kf.2 |>
     else snap) <$> map_to_list files.

(** ** Reading (bootstrap.go) *)

(** The loop of [restoreFrameMessaging] spells out [snapshotToFrameMessage]. *)
Definition restoreFrameMessaging (snap : SessionFrameMessagingSnapshot) (liveFrames : gset FrameID) :
    SessionFrameMessaging :=
  sanitizeFrameMessaging
    (mkMessaging (sn_Summary snap) (snapshotToFrameMessage <$> sn_Messages snap)) liveFrames.

Definition restoreResumeCapsule (c : ResumeCapsuleSnapshot) : option ResumeCapsule :=
  generatedAt ← ParseRFC3339 (cp_GeneratedAt c);
  if IsZero generatedAt then None
  else Some (mkCapsule (cp_Objective c) (cp_CurrentState c) (cp_NextAction c) (cp_Unresolved c)
    (cp_Changed c) (cp_Verified c) (cp_Remaining c) (cp_Attention c) generatedAt
    (cp_SourceDigest c) (cp_SourceTurns c) (cp_FlaggedWrong c) (parsed_time (cp_FlaggedAt c))
    (cp_LastError c) (parsed_time (cp_LastErrorAt c))).

(** bootstrap_coldstart.go *)
Definition coldStartRecoverable (drv : Driver) (s : DriverState) : bool :=
  match drv_RecoverableOnColdStart drv with
  | Some recoverable => bool_decide (is_Some s) && recoverable s
  | None => false
  end.

Definition skipColdStartSpawn (frame : SessionFrame) : bool :=
  match GetDriver (f_Command frame) with
  | Some drv => bool_decide (is_Some (f_Driver frame))
                && bool_decide (drv_Status drv (f_Driver frame) = StatusStopped)
                && negb (coldStartRecoverable drv (f_Driver frame))
  | None => false
  end.

Definition or_else (s fallback : string) : string := if bool_decide (s = "") then fallback else s.

Definition status_restored (coldStart : bool) (bag : gmap string string) : gmap string string :=
  if coldStart && bool_decide (bag !! "status" = Some "running") then <["status" := "waiting"]> bag
  else bag.

Definition restoreFrame (snap : SessionFrameSnapshot) (createdAt : Time) (driverState : DriverState) :
    SessionFrame :=
  let frameCreatedAt := parsed_time (fs_CreatedAt snap) in
  mkFrame (fs_ID snap) (or_else (fs_SubsystemID snap) (fs_ID snap))
    (or_else (fs_TargetID snap) (fs_ID snap)) (fs_Project snap) (fs_Command snap)
    (fs_LaunchOptions snap) (if IsZero frameCreatedAt then createdAt else frameCreatedAt) driverState.

(** The loop over the frames: it stops at a frame without a driver and leaves out the
    frames a cold start cannot bring back. *)
Fixpoint restoreFrames (snaps : list SessionFrameSnapshot) (coldStart : bool) (now createdAt : Time) :
    list SessionFrame :=
  match snaps with
  | [] => []
  | snap :: rest =>
    match GetDriver (fs_Command snap) with
    | None => []
    | Some drv =>
      let driverState := drv_Restore drv (status_restored coldStart (fs_DriverState snap)) now in
      if coldStart && bool_decide (drv_Status drv driverState = StatusStopped)
         && negb (coldStartRecoverable drv driverState)
      then restoreFrames rest coldStart now createdAt
      else restoreFrame snap createdAt driverState :: restoreFrames rest coldStart now createdAt
    end
  end.

Definition restoreSession (snap : SessionSnapshot) (coldStart : bool) (now : Time) : option Session :=
  let createdAt := parsed_time (sp_CreatedAt snap) in
  let createdAt := if IsZero createdAt then now else createdAt in
  let frames := restoreFrames (sp_Frames snap) coldStart now createdAt in
  root ← head frames;
  Some (mkSession (sp_ID snap) (sp_Project snap) createdAt frames
    (or_else (sp_HeadFrameID snap) (from_option f_ID "" (last frames))) (sp_MRUFrameIDs snap)
    (f_Command root) (f_LaunchOptions root) (f_Driver root)
    ((fun m => restoreFrameMessaging m (liveFrameSet frames)) <$> sp_FrameMessaging snap)
    (sp_FrameGeneration snap) (sp_ResumeCapsule snap ≫= restoreResumeCapsule) None).

(** [restoreFrameMessagingStores] replays the journals over the sessions loaded. *)
Definition restoreFrameMessagingStores {JC : JournalCodec} (journals : SessionID -> JournalFile)
    (sessions : gmap SessionID Session) : gmap SessionID Session :=
  map_imap (fun sessionID sess =>
    Some match loadFrameMessagingFromJournal (journals sessionID) (ss_FrameMessaging sess) with
         | Some (Some msgs) =>
           sess <| ss_FrameMessaging :=
             Some (sanitizeFrameMessaging msgs (liveFrameSet (ss_Frames sess))) |>
         | _ => sess
         end) sessions.

Definition loadSessions (coldStart : bool) (now : Time) (sessions : gmap SessionID Session)
    (snaps : list SessionSnapshot) : gmap SessionID Session :=
  foldl (fun sessions snap =>
    match restoreSession snap coldStart now with
    | Some sess => <[ss_ID sess := sess]> sessions
    | None => sessions
    end) sessions snaps.

Definition LoadSnapshot {JC : JournalCodec} (coldStart : bool) (now : Time)
    (journals : SessionID -> JournalFile) (files : gmap string SessionFile) (s : State) : State :=
  let sessions := loadSessions coldStart now (st_Sessions s) (Load files) in
  s <| st_Sessions := restoreFrameMessagingStores journals sessions |>.

(** ** Warm start *)

Definition address (frameID eff_frameID : FrameID) : FrameID := or_else eff_frameID frameID.

(** What the driver asks for on a warm start is addressed to its frame; a job gets an
    id and an entry in the table. *)
Definition bootstrapSessionEffect (s : State) (sessID : SessionID) (frameID : FrameID) (now : Time)
    (eff : Effect) : State * Effect :=
  match eff with
  | EffStartJob _ input =>
    let jobID := st_NextJobID s + 1 in
    (s <| st_NextJobID := jobID |>
       <| st_Jobs := <[jobID := mkJobMeta sessID frameID now]> (st_Jobs s) |>, EffStartJob jobID input)
  | EffEventLogAppend id line => (s, EffEventLogAppend (address frameID id) line)
  | EffWatchFile id path kind => (s, EffWatchFile (address frameID id) path kind)
  | EffUnwatchFile id => (s, EffUnwatchFile (address frameID id))
  | _ => (s, eff)
  end.

Fixpoint bootstrapSessionEffects (s : State) (sessID : SessionID) (frameID : FrameID) (now : Time)
    (effs : list Effect) : State * list Effect :=
  match effs with
  | [] => (s, [])
  | eff :: rest =>
    let '(s, eff) := bootstrapSessionEffect s sessID frameID now eff in
    let '(s, rest) := bootstrapSessionEffects s sessID frameID now rest in
    (s, eff :: rest)
  end.

(** The driver of frame [i] recovers.  The flag says whether there was something to
    save; the copy of the root's driver state in the session is not updated. *)
Definition recoverFrame (acc : State * list Effect * bool) (sessID : SessionID) (now : Time) (i : nat) :
    State * list Effect * bool :=
  let '(s, out, changed) := acc in
  match (sess ← st_Sessions s !! sessID; frame ← ss_Frames sess !! i;
         drv ← GetDriver (f_Command frame); recover ← drv_WarmStartRecover drv;
         Some (sess, frame, recover)) with
  | None => acc
  | Some (sess, frame, recover) =>
    let '(next, effs) := recover (f_Driver frame) now in
    let sess := sess <| ss_Frames := alter (fun f => f <| f_Driver := next |>) i (ss_Frames sess) |> in
    let s := s <| st_Sessions := <[sessID := sess]> (st_Sessions s) |> in
    let '(s, effs) := bootstrapSessionEffects s sessID (f_ID frame) now effs in
    (s, out ++ effs, true)
  end.

(** The state, the effects executed, and whether the sessions are saved. *)
Definition RecoverWarmStartSessions (s : State) (now : Time) : State * list Effect * bool :=
  foldl (fun acc kv => foldl (fun acc i => recoverFrame acc kv.1 now i) acc
                         (seq 0 (length (ss_Frames kv.2))))
    (s, [], false) (range (st_Sessions s)).

End Host.
