(* ===== verification/RuntimeRestart.v ===== *)
(** * host/runtime: what a restart keeps

    The daemon saves its sessions and a later process loads them.  [durable_session] says
    what is left of a session after that: times to the second, the durable part of
    every driver's state, no one-shot input, the messages of frames that are there. *)

From Stdlib Require Import String.
From S2P Require Import Prelude GoStd GoTime HostState HostFrames HostHandlers HostDriverFacts HostGraph.
From S2P Require Import RuntimeStore RuntimeSnapshot.

(** ** Times *)

(** The years RFC 3339 can write. *)
Definition storable_time (t : Time) : Prop := 0 <= year_of t <= 9999.

#[export] Instance storable_time_dec t : Decision (storable_time t).
Proof. unfold storable_time. apply _. Defined.

Lemma parsed_format t : storable_time t -> parsed_time (FormatRFC3339 t) = TruncateSecond t.
Proof. intros Ht. unfold parsed_time. by rewrite Parse_Format. Qed.

Lemma parsed_optional t : storable_time t -> parsed_time (optional_time t) = TruncateSecond t.
Proof.
  intros Ht. unfold optional_time, IsZero. destruct (t =? 0) eqn:Hz; [|by apply parsed_format].
  apply Z.eqb_eq in Hz as ->. reflexivity.
Qed.

(** ** Messages and capsules *)

Definition durable_reply (r : FrameReply) : FrameReply :=
  mkFrameReply (fr_ID r) (fr_SourceFrameID r) (fr_Body r) (fr_FinalAnswer r)
    (TruncateSecond (fr_CreatedAt r)) (fr_Resolution r) (fr_Confidence r) (fr_FinalAnswerPreview r).

Definition durable_message (m : FrameMessage) : FrameMessage :=
  m <| fm_CreatedAt := TruncateSecond (fm_CreatedAt m) |> <| fm_Reply := durable_reply <$> fm_Reply m |>.

Definition storable_message (m : FrameMessage) : Prop :=
  storable_time (fm_CreatedAt m) /\ forall r, fm_Reply m = Some r -> storable_time (fr_CreatedAt r).

Lemma reply_roundtrip r :
  storable_time (fr_CreatedAt r) -> snapshotToFrameReply (frameReplyToSnapshot r) = durable_reply r.
Proof. intros Ht. unfold snapshotToFrameReply. simpl. by rewrite parsed_format. Qed.

Lemma message_roundtrip m :
  storable_message m -> snapshotToFrameMessage (frameMessageToSnapshot m) = durable_message m.
Proof.
  intros [Ht Hr]. unfold snapshotToFrameMessage, durable_message. simpl. rewrite parsed_format by done.
  f_equal. destruct (fm_Reply m) as [r|]; [|done]. simpl. by rewrite reply_roundtrip by auto.
Qed.

Lemma messages_roundtrip l : Forall storable_message l ->
  snapshotToFrameMessage <$> (frameMessageToSnapshot <$> l) = durable_message <$> l.
Proof. induction 1; [done|]. rewrite !fmap_cons. f_equal; [by apply message_roundtrip|done]. Qed.

Definition durable_capsule (c : ResumeCapsule) : option ResumeCapsule :=
  if IsZero (TruncateSecond (rc_GeneratedAt c)) then None
  else Some (c <| rc_GeneratedAt := TruncateSecond (rc_GeneratedAt c) |>
               <| rc_FlaggedAt := TruncateSecond (rc_FlaggedAt c) |>
               <| rc_LastErrorAt := TruncateSecond (rc_LastErrorAt c) |>).

Definition storable_capsule (c : ResumeCapsule) : Prop :=
  storable_time (rc_GeneratedAt c) /\ storable_time (rc_FlaggedAt c) /\ storable_time (rc_LastErrorAt c).

Lemma capsule_roundtrip c :
  storable_capsule c -> restoreResumeCapsule (snapshotResumeCapsule c) = durable_capsule c.
Proof.
  intros (Hg & Hf & He). unfold restoreResumeCapsule, durable_capsule. simpl.
  rewrite Parse_Format by done. simpl. rewrite !parsed_optional by done. done.
Qed.

(** ** Storing by key *)

Lemma foldl_upsert {A V} (key : V -> string) (r : A -> option V) (l : list A) (m : gmap string V) id v :
  NoDup (key <$> omap r l) ->
  foldl (fun m a => match r a with Some v => <[key v := v]> m | None => m end) m l !! id = Some v <->
  (v ∈ omap r l /\ key v = id) \/ (~ (id ∈ (key <$> omap r l)) /\ m !! id = Some v).
Proof.
  revert m. induction l as [|a l IH]; intros m Hn; simpl.
  { set_solver. }
  simpl in Hn. destruct (r a) as [b|]; simpl in *; [|by apply IH].
  apply NoDup_cons in Hn as [Hb Hn]. rewrite (IH _ Hn).
  destruct (decide (key b = id)) as [<-|Hne].
  - rewrite lookup_insert_eq. split; [|set_solver].
    intros [[Hv Hk]|[_ [= <-]]]; [|set_solver]. exfalso. apply Hb. rewrite <- Hk. by apply list_elem_of_fmap_2.
  - rewrite lookup_insert_ne by done. set_solver.
Qed.

Lemma NoDup_omap_keys {A V} (key : V -> string) (key' : A -> string) (r : A -> option V) (l : list A) :
  NoDup (key' <$> l) -> (forall a v, a ∈ l -> r a = Some v -> key v = key' a) ->
  NoDup (key <$> omap r l).
Proof.
  induction l as [|a l IH]; intros Hn Hk; simpl; [constructor|].
  simpl in Hn. apply NoDup_cons in Hn as [Ha Hn]. specialize (IH Hn ltac:(set_solver)).
  destruct (r a) as [v|] eqn:Hr; simpl; [|done]. apply NoDup_cons. split; [|done].
  intros (w & Hw & (b & Hb & Hrb)%list_elem_of_omap)%list_elem_of_fmap. apply Ha.
  rewrite <- (Hk a v), Hw, (Hk b w) by set_solver. by apply list_elem_of_fmap_2.
Qed.

(** ** Sessions *)

(** What the drivers promise: [Restore] undoes [Persist] up to what the driver calls
    durable, for the states that are its own. *)
Class DurableDrivers {HT : HostTypes} {DSYS : DriverSys} := {
  durable_state : string -> Time -> DriverState -> DriverState;
  storable_state : string -> DriverState -> Prop;
  restore_persisted command drv ds now :
    GetDriver command = Some drv -> storable_state command ds ->
    drv_Restore drv (drv_Persist drv ds) now = durable_state command now ds }.

Section Restart.
Context `{GoMapRange} {HT : HostTypes} {DSYS : DriverSys} {DD : DurableDrivers} {JC : JournalCodec}.
Implicit Types (s : State) (sess : Session) (now : Time).

Definition durable_frame now (createdAt : Time) (f : SessionFrame) : SessionFrame :=
  let t := TruncateSecond (f_CreatedAt f) in
  mkFrame (f_ID f) (or_else (f_SubsystemID f) (f_ID f)) (or_else (f_TargetID f) (f_ID f)) (f_Project f)
    (f_Command f) (f_LaunchOptions f <| lo_InitialInput := "" |>) (if IsZero t then createdAt else t)
    (durable_state (f_Command f) now (f_Driver f)).

Definition durable_messaging (liveFrames : gset FrameID) (m : SessionFrameMessaging) :
    SessionFrameMessaging :=
  sanitizeFrameMessaging (mkMessaging (ms_Summary m) (durable_message <$> ms_Messages m)) liveFrames.

(** [None] when there is no frame to come back to. *)
Definition durable_session now sess : option Session :=
  let t := TruncateSecond (ss_CreatedAt sess) in
  let createdAt := if IsZero t then now else t in
  let frames := durable_frame now createdAt <$> ss_Frames sess in
  root ← head frames;
  Some (mkSession (ss_ID sess) (ss_Project sess) createdAt frames
    (or_else (ss_HeadFrameID sess) (from_option f_ID "" (last frames))) (ss_MRUFrameIDs sess)
    (f_Command root) (f_LaunchOptions root) (f_Driver root)
    (durable_messaging (liveFrameSet frames) <$> ss_FrameMessaging sess) (ss_FrameGeneration sess)
    (ss_ResumeCapsule sess ≫= durable_capsule) None).

Record storable_session sess : Prop := {
  st_time : storable_time (ss_CreatedAt sess);
  st_frames : forall f, f ∈ ss_Frames sess ->
    storable_time (f_CreatedAt f) /\ is_Some (GetDriver (f_Command f)) /\
    storable_state (f_Command f) (f_Driver f);
  st_messages : forall m, ss_FrameMessaging sess = Some m -> Forall storable_message (ms_Messages m);
  st_capsule : forall c, ss_ResumeCapsule sess = Some c -> storable_capsule c }.

Lemma frames_roundtrip now createdAt (frames : list SessionFrame) :
  (forall f, f ∈ frames -> storable_time (f_CreatedAt f) /\ is_Some (GetDriver (f_Command f)) /\
                     storable_state (f_Command f) (f_Driver f)) ->
  restoreFrames (snapshotFrame <$> frames) false now createdAt = durable_frame now createdAt <$> frames.
Proof.
  induction frames as [|f frames IH]; intros Hall; simpl; [done|].
  destruct (Hall f ltac:(set_solver)) as (Ht & [drv Hd] & Hs). rewrite Hd. simpl. f_equal.
  - unfold restoreFrame, durable_frame. simpl. rewrite parsed_format by done. f_equal.
    by apply restore_persisted.
  - apply IH. intros f' Hf'. apply Hall. set_solver.
Qed.

(** A warm start reads back what is durable of the session. *)
Lemma session_roundtrip now sess : storable_session sess ->
  restoreSession (snapshotSession sess) false now = durable_session now sess.
Proof.
  intros [Ht Hf Hm Hc]. unfold restoreSession, durable_session. simpl.
  rewrite parsed_format, frames_roundtrip by done.
  destruct (head _) as [root|] eqn:Hroot; [|done]. simpl. do 2 f_equal.
  - destruct (ss_FrameMessaging sess) as [m|]; [|done]. simpl. f_equal.
    unfold restoreFrameMessaging, durable_messaging. simpl. by rewrite messages_roundtrip by auto.
  - destruct (ss_ResumeCapsule sess) as [c|]; [|done]. simpl. by rewrite capsule_roundtrip by auto.
Qed.

(** ** The whole host *)

(** The sessions of [s] that are saved, by what is durable of them. *)
Definition durable_sessions now s : gmap SessionID Session :=
  omap (fun sess => if Ended sess then None else durable_session now sess) (st_Sessions s).

(** No file is left of a session that is gone. *)
Definition files_current s (files : gmap string SessionFile) : Prop :=
  forall id, is_Some (files !! id) -> exists sess, st_Sessions s !! id = Some sess /\ Ended sess = false.

Definition keyed s : Prop := forall sid sess, st_Sessions s !! sid = Some sess -> ss_ID sess = sid.

Lemma elem_of_snapshots s snap :
  snap ∈ snapshotSessions s <->
  exists sid sess, st_Sessions s !! sid = Some sess /\ Ended sess = false /\ snap = snapshotSession sess.
Proof.
  unfold snapshotSessions. rewrite list_elem_of_omap. split.
  - intros ([sid sess] & Hin%elem_of_range & Hs). simpl in Hs. destruct (Ended sess) eqn:He; [done|].
    injection Hs as <-. by exists sid, sess.
  - intros (sid & sess & Hs & He & ->). exists (sid, sess). rewrite elem_of_range. simpl. by rewrite He.
Qed.

Lemma NoDup_snapshots s : keyed s -> NoDup (sp_ID <$> snapshotSessions s).
Proof.
  intros Hk. apply (NoDup_omap_keys _ fst); [apply NoDup_range_keys|].
  intros [sid sess] snap Hin%elem_of_range Hs. simpl in *. destruct (Ended sess); [done|].
  injection Hs as <-. by apply Hk.
Qed.

(** The files after a save that reached every session. *)
Lemma saved_files s files id file : keyed s -> files_current s files ->
  (Save files (snapshotSessions s) (length (snapshotSessions s))).1 !! id = Some file <->
  exists sess, st_Sessions s !! id = Some sess /\ Ended sess = false /\
               file = mkSessionFile (snapshotSession sess) "".
Proof.
  intros Hk Hc. simpl. rewrite take_ge by done.
  pose proof (foldl_upsert (fun f => sp_ID (sf_Snapshot f)) (fun snap => Some (mkSessionFile snap ""))
    (snapshotSessions s) files id file) as Hu. cbn beta iota in Hu.
  assert (forall l : list SessionSnapshot, omap (fun snap => Some (mkSessionFile snap "")) l =
            (fun snap => mkSessionFile snap "") <$> l) as Ho by (induction l as [|a l IHl]; [done|]; simpl; f_equal; exact IHl).
  rewrite Ho, <- list_fmap_compose in Hu. rewrite Hu by (by apply NoDup_snapshots). clear Hu Ho.
  split.
  - intros [[Hin Hid]|[Hn Hf]].
    + apply list_elem_of_fmap in Hin as (snap & -> & (sid & sess & Hs & He & ->)%elem_of_snapshots).
      exists sess. simpl in Hid. rewrite (Hk _ _ Hs) in Hid. by subst.
    + destruct (Hc id) as (sess & Hs & He); [by eexists|]. exfalso. apply Hn.
      apply list_elem_of_fmap. exists (snapshotSession sess). split; [by rewrite <- (Hk _ _ Hs)|].
      apply elem_of_snapshots. by exists id, sess.
  - intros (sess & Hs & He & ->). left. split; [|by apply Hk].
    apply (list_elem_of_fmap_2 (fun snap => mkSessionFile snap "")). apply elem_of_snapshots. by exists id, sess.
Qed.

(** Every file read is a session's snapshot: there is no legacy head to take over. *)
Lemma saved_load s files : keyed s -> files_current s files ->
  let saved := (Save files (snapshotSessions s) (length (snapshotSessions s))).1 in
  NoDup (sp_ID <$> Load saved) /\
  forall snap, snap ∈ Load saved <->
    exists sid sess, st_Sessions s !! sid = Some sess /\ Ended sess = false /\ snap = snapshotSession sess.
Proof.
  intros Hk Hc saved. assert (forall id file, (id, file) ∈ map_to_list saved <->
    exists sess, st_Sessions s !! id = Some sess /\ Ended sess = false /\
                 file = mkSessionFile (snapshotSession sess) "") as Hf.
  { intros id file. rewrite elem_of_map_to_list. by apply saved_files. }
  assert (Load saved = (fun kf => sf_Snapshot kf.2) <$> map_to_list saved) as ->.
  { apply list_fmap_ext. intros i [id file] (sess & _ & _ & ->)%list_elem_of_lookup_2%Hf. simpl.
    case_bool_decide as Hh; [|done]. unfold snapshotSession in *. simpl in Hh. by rewrite Hh. }
  split.
  - rewrite <- list_fmap_compose. erewrite list_fmap_ext; [apply NoDup_fst_map_to_list|].
    intros i [id file] (sess & Hs & _ & ->)%list_elem_of_lookup_2%Hf. simpl. by apply Hk.
  - intros snap. rewrite list_elem_of_fmap. split.
    + intros ([id file] & -> & (sess & Hs & He & ->)%Hf). by exists id, sess.
    + intros (sid & sess & Hs & He & ->). exists (sid, mkSessionFile (snapshotSession sess) "").
      split; [done|]. apply Hf. by exists sess.
Qed.

Lemma durable_session_id now sess sess' : durable_session now sess = Some sess' -> ss_ID sess' = ss_ID sess.
Proof. unfold durable_session. cbv zeta. destruct (head _); [|done]. by intros [= <-]. Qed.

(** The sessions a warm start loads, before the journals are replayed. *)
Lemma loaded_sessions s files now : keyed s -> files_current s files ->
  (forall sid sess, st_Sessions s !! sid = Some sess -> Ended sess = false -> storable_session sess) ->
  loadSessions false now ∅ (Load (Save files (snapshotSessions s) (length (snapshotSessions s))).1)
  = durable_sessions now s.
Proof.
  intros Hk Hc Hst. destruct (saved_load s files Hk Hc) as [Hn Hin]. simpl in Hn, Hin.
  set (l := Load _) in *. clearbody l. apply map_eq. intros sid. apply option_eq. intros sess'.
  assert (forall snap sess', snap ∈ l -> restoreSession snap false now = Some sess' ->
    exists sid sess, st_Sessions s !! sid = Some sess /\ Ended sess = false /\ sp_ID snap = sid /\
                     ss_ID sess' = sid /\ durable_session now sess = Some sess') as Hr.
  { intros snap sess1 (sid1 & sess & Hs & He & ->)%Hin Hr. rewrite session_roundtrip in Hr by eauto.
    exists sid1, sess. pose proof (durable_session_id _ _ _ Hr). split_and!; try done; [by apply Hk|].
    rewrite <- (Hk _ _ Hs). done. }
  unfold loadSessions. rewrite (foldl_upsert ss_ID (fun snap => restoreSession snap false now)).
  2: { apply (NoDup_omap_keys _ sp_ID); [done|]. intros snap sess1 Hl Hs.
       destruct (Hr _ _ Hl Hs) as (? & ? & _ & _ & <- & ? & _). done. }
  unfold durable_sessions. rewrite lookup_omap, lookup_empty, list_elem_of_omap. split.
  - intros [[(snap & Hl & Hs) Hid]|[_ [=]]].
    destruct (Hr _ _ Hl Hs) as (sid' & sess & Hs' & He & _ & <- & Hd). subst sid. rewrite Hs'. simpl. by rewrite He.
  - destruct (st_Sessions s !! sid) as [sess|] eqn:Hs; [|done]. simpl.
    destruct (Ended sess) eqn:He; [done|]. intros Hd. left. split.
    + exists (snapshotSession sess). split; [apply Hin; eauto|]. by rewrite session_roundtrip by eauto.
    + rewrite (durable_session_id _ _ _ Hd). by apply Hk.
Qed.

(** ** The graph after a restart *)

Lemma live_submap G G' f : G' ⊆ G -> live f G' <= live f G.
Proof.
  revert G. induction G' as [|sid sh G' Hs IH] using map_ind; intros G Hsub.
  { pose proof (live_nonneg f G). unfold live at 1. by rewrite map_sum_empty. }
  assert (G !! sid = Some sh) as Hg by (eapply lookup_weaken; [apply lookup_insert_eq|done]).
  rewrite live_insert, (live_delete f G sid sh Hg), (delete_id _ _ Hs).
  assert (G' ⊆ delete sid G) as Hd; [|specialize (IH _ Hd); lia].
  apply map_subseteq_spec. intros k v Hk. rewrite lookup_delete_ne by (intros ->; congruence).
  eapply lookup_weaken; [|done]. rewrite lookup_insert_ne by (intros ->; congruence). done.
Qed.

Lemma graph_wf_submap G G' : G' ⊆ G -> graph_wf G -> graph_wf G'.
Proof.
  intros Hsub [Hsh Hu]. split.
  - intros sid sh Hs. apply Hsh. by eapply lookup_weaken.
  - intros f. etrans; [by apply live_submap|done].
Qed.

(** What is durable has the shape the session had. *)
Lemma durable_shape now sid sess sess' : shape_wf sid (shape sess) -> Ended sess = false ->
  durable_session now sess = Some sess' -> shape sess' = shape sess.
Proof.
  intros [_ Hne Hh _] He. unfold durable_session. cbv zeta.
  destruct (ss_Frames sess) as [|f0 frames] eqn:Hf; [done|]. simpl. intros [= <-].
  unfold shape in *. simpl in *. rewrite Hf in *. simpl in *. rewrite <- list_fmap_compose. f_equal.
  - unfold or_else. case_bool_decide as Hz; [|done]. destruct Hh as [[? _]|Hh]; [done|]. by rewrite Hz in Hh.
  - unfold Ended in He. apply bool_decide_eq_false in He. by apply eq_None_not_Some in He.
Qed.

Lemma sanitize_idem m liveFrames :
  sanitizeFrameMessaging (sanitizeFrameMessaging m liveFrames) liveFrames = sanitizeFrameMessaging m liveFrames.
Proof. unfold sanitizeFrameMessaging. simpl. by rewrite list_filter_filter_l by done. Qed.

Lemma durable_messages_live now sess sess' m : durable_session now sess = Some sess' ->
  ss_FrameMessaging sess' = Some m -> sanitizeFrameMessaging m (liveFrameSet (ss_Frames sess')) = m.
Proof.
  unfold durable_session. cbv zeta. destruct (head _) as [root|]; [|done]. intros [= <-]. simpl.
  destruct (ss_FrameMessaging sess) as [m0|]; [|done]. simpl. intros [= <-]. apply sanitize_idem.
Qed.

(** Journals change no shapes. *)
Lemma replay_shape journals (sessions : gmap SessionID Session) :
  shape <$> restoreFrameMessagingStores journals sessions = shape <$> sessions.
Proof.
  apply map_eq. intros sid. unfold restoreFrameMessagingStores. rewrite !lookup_fmap, map_lookup_imap.
  destruct (sessions !! sid) as [sess|]; [|done]. simpl.
  by destruct (loadFrameMessagingFromJournal _ _) as [[m|]|].
Qed.

(** C9: A restart keeps the sessions.  When the files are those of live sessions and a
    save reaches every session, a process that starts warm and has no journals loads,
    under their ids, exactly the sessions that had not ended and have a frame, each with
    what is durable of it; and the graph of sessions and frames is well formed again,
    whatever the journals hold. *)
Theorem restart_keeps_sessions s files now :
  graph_wf (graph s) -> files_current s files ->
  (forall sid sess, st_Sessions s !! sid = Some sess -> Ended sess = false -> storable_session sess) ->
  let saved := (Save files (snapshotSessions s) (length (snapshotSessions s))).1 in
  st_Sessions (LoadSnapshot false now (fun _ => NoFile) saved New) = durable_sessions now s /\
  forall journals, graph_wf (graph (LoadSnapshot false now journals saved New)).
Proof.
  intros Hwf Hc Hst saved. assert (keyed s) as Hk.
  { intros sid sess Hs. apply (gw_shape _ Hwf sid (shape sess)). unfold graph. by rewrite lookup_fmap, Hs. }
  assert (forall journals, st_Sessions (LoadSnapshot false now journals saved New)
            = restoreFrameMessagingStores journals (durable_sessions now s)) as Hl.
  { intros journals. unfold LoadSnapshot. simpl. f_equal. by apply loaded_sessions. }
  assert (forall sid sess', durable_sessions now s !! sid = Some sess' -> exists sess,
    st_Sessions s !! sid = Some sess /\ Ended sess = false /\ durable_session now sess = Some sess') as Hd.
  { intros sid sess'. unfold durable_sessions. rewrite lookup_omap. destruct (st_Sessions s !! sid) as [sess|]; [|done].
    simpl. destruct (Ended sess) eqn:He; [done|]. eauto. }
  split.
  - rewrite Hl. apply map_eq. intros sid. unfold restoreFrameMessagingStores. rewrite map_lookup_imap.
    destruct (durable_sessions now s !! sid) as [sess'|] eqn:Hs; [|done]. simpl. f_equal.
    destruct (Hd _ _ Hs) as (sess & _ & _ & Hds). destruct (ss_FrameMessaging sess') as [m|] eqn:Hm; [|done].
    rewrite (durable_messages_live _ _ _ _ Hds Hm), <- Hm. by destruct sess'.
  - intros journals. unfold graph at 1. rewrite Hl, replay_shape. apply (graph_wf_submap (graph s)); [|done].
    apply map_subseteq_spec. intros sid sh. rewrite lookup_fmap. intros (sess' & Hs & ->)%fmap_Some.
    destruct (Hd _ _ Hs) as (sess & Hs' & He & Hds). unfold graph. rewrite lookup_fmap, Hs'. simpl.
    f_equal. symmetry. eapply durable_shape; [|done..]. apply (gw_shape _ Hwf). unfold graph.
    by rewrite lookup_fmap, Hs'.
Qed.

End Restart.
