(* ===== verification/RuntimeMessaging.v ===== *)
(** * host/runtime: frame messaging

    frame_messaging_runtime.go and frame_messaging_thread.go: agents in the frames of a
    session list each other, send messages, read them and reply.  Every operation runs
    on the event loop; it decides, writes the journal, and only then commits the new
    state and saves the sessions. *)

From Stdlib Require Import String.
From S2P Require Import Prelude GoStd GoStrings GoTime ShellArgs HostState HostFrames HostHandlers.
From S2P Require Import RuntimeStore RuntimeSnapshot.

(** ** Wire records (proto/response.go) *)

Record ErrorBody := mkErrorBody { eb_Code : string; eb_Message : string }.

Record SessionMessageReply := mkWireReply {
  wr_ID : string; wr_SourceFrameID : string; wr_Body : string; wr_BodyPreview : string;
  wr_FinalAnswer : string; wr_CreatedAt : string; wr_Resolution : string; wr_Confidence : string;
  wr_FinalAnswerPreview : string }.

Record SessionMessage := mkWireMessage {
  wm_ID : string; wm_SourceFrameID : string; wm_TargetFrameID : string; wm_Topic : string;
  wm_Priority : string; wm_Body : string; wm_BodyPreview : string; wm_CreatedAt : string;
  wm_Read : bool; wm_ReplyStatus : string; wm_DeliveryStatus : string;
  wm_FinalAnswerPreview : string; wm_Reply : option SessionMessageReply }.

Record FrameRef := mkFrameRef {
  ref_SessionID : string; ref_FrameID : string; ref_Command : string; ref_Project : string;
  ref_Sendable : bool }.

Record RespFrameRead := mkRespRead { rr_SessionID : string; rr_Messages : list SessionMessage }.
Record RespFrameSend := mkRespSend { rsd_SessionID : string; rsd_Message : SessionMessage }.
Record RespFrameReply := mkRespReply {
  rrp_SessionID : string; rrp_MessageID : string; rrp_Reply : SessionMessageReply }.

Definition replyToProto (r : FrameReply) : SessionMessageReply :=
  mkWireReply (fr_ID r) (fr_SourceFrameID r) (fr_Body r) (stateMessagePreview (fr_Body r))
    (fr_FinalAnswer r) (FormatRFC3339 (fr_CreatedAt r)) (fr_Resolution r) (fr_Confidence r)
    (fr_FinalAnswerPreview r).

Definition messageToProto (msg : FrameMessage) : SessionMessage :=
  let status :=
    if negb (bool_decide (fm_ReplyStatus msg = "")) then fm_ReplyStatus msg
    else match fm_Reply msg with
         | Some r => if bool_decide (fr_Resolution r = "") then "replied" else fr_Resolution r
         | None => "pending"
         end in
  mkWireMessage (fm_ID msg) (fm_SourceFrameID msg) (fm_TargetFrameID msg) (fm_Topic msg)
    (fm_Priority msg) (fm_Body msg) (stateMessagePreview (fm_Body msg))
    (FormatRFC3339 (fm_CreatedAt msg)) (fm_Read msg) status (fm_DeliveryStatus msg)
    (from_option fr_FinalAnswerPreview "" (fm_Reply msg)) (replyToProto <$> fm_Reply msg).

(** ** The runtime's part *)

(** How the append of a line ends: written with its newline; not begun, as the directory
    or the file could not be opened; or cut short by an error after [n] bytes, which stay
    in the file. *)
Inductive AppendOutcome := Appended | OpenFailed (err : string) | WriteFailed (err : string) (n : nat).

(** What an operation meets outside: the readings of the clock, what becomes of its line
    in the journal, and how many of the sessions are saved before an error. *)
Record Outside := mkOutside {
  out_now : nat -> Time; out_append : AppendOutcome; out_saved : nat }.

#[export] Instance eta_Outside : Eta Outside := fun o => mkOutside (out_now o) (out_append o) (out_saved o).

(** A file of lines: those that end in a newline, and what comes after the last one. *)
Record Journal := mkJournal { jo_lines : list string; jo_rest : string }.

(** What the scanner gives of it. *)
Definition scanned (j : Journal) : list string :=
  jo_lines j ++ if bool_decide (jo_rest j = "") then [] else [jo_rest j].

(** The file, if it exists, and the error; [line] is the encoded record.  The file is
    created when it is opened, and a line goes after whatever is there. *)
Definition appendJSONL (outcome : AppendOutcome) (file : option Journal) (line : string) :
    option Journal * option string :=
  let j := default (mkJournal [] "") file in
  match outcome with
  | Appended => (Some (mkJournal (jo_lines j ++ [jo_rest j +:+ line]) ""), None)
  | OpenFailed err => (file, Some err)
  | WriteFailed err n => (Some (mkJournal (jo_lines j) (jo_rest j +:+ String.substring 0 n line)), Some err)
  end.

Section Messaging.
Context `{GoMapRange} {HT : HostTypes} {DSYS : DriverSys} {JC : JournalCodec}.
Implicit Types (s : State) (sess : Session).

(** The journals and audit logs under the data directory, by session, and the files of
    the sessions. *)
Record MessagingRuntime := mkRuntime {
  rt_State : State;
  rt_Journals : gmap SessionID Journal;
  rt_Audits : gmap SessionID (list frameMessagingAuditRecord);
  rt_Files : gmap string SessionFile }.

#[export] Instance eta_Runtime : Eta MessagingRuntime := fun r =>
  mkRuntime (rt_State r) (rt_Journals r) (rt_Audits r) (rt_Files r).

Implicit Types r : MessagingRuntime.

Definition append {A} (m : gmap SessionID (list A)) (sid : SessionID) (x : A) : gmap SessionID (list A) :=
  <[sid := default [] (m !! sid) ++ [x]]> m.

(** The daemon runs with a data directory. *)
Definition appendFrameMessagingRecord (out : Outside) r (sessionID : SessionID)
    (record : frameMessagingJournalRecord) : MessagingRuntime * option string :=
  let '(file, err) := appendJSONL (out_append out) (rt_Journals r !! sessionID) (encode_record record) in
  (r <| rt_Journals := partial_alter (fun _ => file) sessionID (rt_Journals r) |>, err).

(** Errors of the audit log are ignored. *)
Definition appendFrameMessagingAudit r (sessionID : SessionID) (record : frameMessagingAuditRecord) :
    MessagingRuntime := r <| rt_Audits := append (rt_Audits r) sessionID record |>.

Definition persistSessions (out : Outside) r : MessagingRuntime :=
  r <| rt_Files := (Save (rt_Files r) (snapshotSessions (rt_State r)) (out_saved out)).1 |>.

Definition commitFrameMessagingSession (out : Outside) r (sessionID : SessionID) sess : MessagingRuntime :=
  let s := rt_State r <| st_Sessions := <[sessionID := sess]> (st_Sessions (rt_State r)) |> in
  persistSessions out (r <| rt_State := s |>).

Definition deleteFrameMessagingSession r (sessionID : SessionID) : MessagingRuntime :=
  r <| rt_Journals := delete sessionID (rt_Journals r) |> <| rt_Audits := delete sessionID (rt_Audits r) |>.

(** ** Frames *)

Definition frameByID sess (frameID : FrameID) : option SessionFrame :=
  List.find (fun frame => bool_decide (f_ID frame = frameID)) (ss_Frames sess).

Definition frameSessionForSource s (frameID : FrameID) : ErrorBody + (SessionID * Session) :=
  match range_find (fun sid sess => frame ← frameByID sess frameID; Some (sid, sess, frame))
          (st_Sessions s) with
  | Some (sid, sess, frame) =>
    if isAgentFrame frame then inr (sid, sess)
    else inl (mkErrorBody ErrCodeUnsupported "frame messaging is limited to managed agent frames")
  | None => inl (mkErrorBody ErrCodeNotFound "source frame not found")
  end.

Definition findFrameSession s (frameID : FrameID) : option (SessionID * SessionFrame) :=
  range_find (fun sid sess => frame ← frameByID sess frameID; Some (sid, frame)) (st_Sessions s).

(** ** List *)

Definition frameMessagingList r (source : FrameID) : ErrorBody + list FrameRef :=
  match frameSessionForSource (rt_State r) source with
  | inl err => inl err
  | inr (sessionID, sess) =>
    inr ((fun frame => mkFrameRef sessionID (f_ID frame) (f_Command frame) (f_Project frame)
                         (negb (bool_decide (f_ID frame = source))))
         <$> filter (fun frame => isAgentFrame frame = true) (ss_Frames sess))
  end.

(** ** Read *)

(** The message is between the reader and somebody, and the peer if one is named. *)
Definition concerns (source peer : FrameID) (msg : FrameMessage) : bool :=
  (bool_decide (fm_SourceFrameID msg = source) || bool_decide (fm_TargetFrameID msg = source))
  && (bool_decide (peer = "") || bool_decide (fm_SourceFrameID msg = peer)
      || bool_decide (fm_TargetFrameID msg = peer)).

Definition newly (source peer : FrameID) (msg : FrameMessage) : bool :=
  concerns source peer msg && bool_decide (fm_TargetFrameID msg = source) && negb (fm_Read msg).

Definition readRecord (now : Time) (ids : list string) : frameMessagingJournalRecord :=
  mkJournalRecord frameMessagingKindRead (FormatRFC3339 now) None "" ids None.

Definition readAudit (now : Time) (sessionID : SessionID) (source peer : FrameID) : frameMessagingAuditRecord :=
  mkAuditRecord (FormatRFC3339 now) "agent_frames.read" sessionID source peer "" frameMessagingAuditAllow "" "".

(** The indexes the loop collects are those of the messages [newly] selects. *)
Definition frameMessagingRead (out : Outside) r (source peerFrameID : FrameID) :
    MessagingRuntime * (ErrorBody + RespFrameRead) :=
  match frameSessionForSource (rt_State r) source with
  | inl err => (r, inl err)
  | inr (sessionID, sess) =>
    if negb (bool_decide (peerFrameID = ""))
       && negb (from_option isAgentFrame false (frameByID sess peerFrameID))
    then (r, inl (mkErrorBody ErrCodeNotFound "peer frame not found"))
    else
      match ss_FrameMessaging sess with
      | None => (r, inr (mkRespRead sessionID []))
      | Some fm =>
        let respond r messages :=
          (appendFrameMessagingAudit r sessionID (readAudit (out_now out 1) sessionID source peerFrameID),
           inr (mkRespRead sessionID
                  (messageToProto <$> filter (fun m => concerns source peerFrameID m = true) messages))) in
        let readIDs := fm_ID <$> filter (fun m => newly source peerFrameID m = true) (ms_Messages fm) in
        if bool_decide (readIDs = []) then respond r (ms_Messages fm)
        else
          match appendFrameMessagingRecord out r sessionID (readRecord (out_now out 0) readIDs) with
          | (r, Some err) => (r, inl (mkErrorBody ErrCodeInternal err))
          | (r, None) =>
            let messages := (fun m => if newly source peerFrameID m then m <| fm_Read := true |> else m)
                            <$> ms_Messages fm in
            let next := mkMessaging (computeFrameMessagingSummary messages) messages in
            let r := commitFrameMessagingSession out r sessionID
                       (sess <| ss_FrameMessaging := Some next |>) in
            respond r messages
          end
      end
  end.

(** ** Send *)

Definition newMessage (out : Outside) (source target : FrameID) (topic body priority : string) : FrameMessage :=
  mkFrameMessage (allocFrameMessageID "msg" (out_now out 1)) source target topic body priority
    (out_now out 2) false "pending" "pending" None.

Definition sentRecord (msg : FrameMessage) : frameMessagingJournalRecord :=
  mkJournalRecord frameMessagingKindSent (FormatRFC3339 (fm_CreatedAt msg))
    (Some (frameMessageToSnapshot msg)) "" [] None.

Definition frameMessagingSend (out : Outside) r (source targetFrameID : FrameID)
    (topic body priority : string) : MessagingRuntime * (ErrorBody + RespFrameSend) :=
  match frameSessionForSource (rt_State r) source with
  | inl err => (r, inl err)
  | inr (sessionID, sess) =>
    let audit decision reason :=
      mkAuditRecord (FormatRFC3339 (out_now out 0)) "agent_frames.send_message" sessionID source
        targetFrameID "" decision reason (frameMessagingBodyHash [body]) in
    let reject reason code message :=
      (appendFrameMessagingAudit r sessionID (audit frameMessagingAuditReject reason),
       inl (mkErrorBody code message)) in
    if bool_decide (TrimSpace body = "") then reject "empty_body" ErrCodeInvalidArgument "body required"
    else
      match frameByID sess targetFrameID with
      | None =>
        match findFrameSession (rt_State r) targetFrameID with
        | Some (otherSessionID, _) =>
          if negb (bool_decide (otherSessionID = sessionID)) then
            reject "cross_session_target" ErrCodeInvalidArgument "target must be in the same session"
          else reject "target_not_found" ErrCodeNotFound "target frame not found"
        | None => reject "target_not_found" ErrCodeNotFound "target frame not found"
        end
      | Some target =>
        if bool_decide (targetFrameID = source) then
          reject "self_target" ErrCodeInvalidArgument "self-target is not allowed"
        else if negb (isAgentFrame target) then
          reject "target_not_agent_frame" ErrCodeUnsupported "target must be a managed agent frame"
        else
          let msg := newMessage out source targetFrameID topic body priority in
          let messages := from_option ms_Messages [] (ss_FrameMessaging sess) ++ [msg] in
          let next := mkMessaging (computeFrameMessagingSummary messages) messages in
          match appendFrameMessagingRecord out r sessionID (sentRecord msg) with
          | (r, Some err) => (r, inl (mkErrorBody ErrCodeInternal err))
          | (r, None) =>
            let r := appendFrameMessagingAudit r sessionID (audit frameMessagingAuditAllow "") in
            let r := commitFrameMessagingSession out r sessionID
                       (sess <| ss_FrameMessaging := Some next |>) in
            (r, inr (mkRespSend sessionID (messageToProto msg)))
          end
      end
  end.

(** ** Reply *)

Definition newReply (out : Outside) (source : FrameID) (body finalAnswer resolution confidence : string) :
    FrameReply :=
  mkFrameReply (allocFrameMessageID "reply" (out_now out 1)) source body finalAnswer (out_now out 2)
    resolution (Messaging.firstNonEmpty [confidence; "high"])
    (stateMessagePreview (Messaging.firstNonEmpty [finalAnswer; body])).

Definition replyRecord (messageID : string) (reply : FrameReply) : frameMessagingJournalRecord :=
  mkJournalRecord frameMessagingKindReply (FormatRFC3339 (fr_CreatedAt reply)) None messageID []
    (Some (frameReplyToSnapshot reply)).

(** The message with its reply, as the operation sets it. *)
Definition answered (reply : FrameReply) (msg : FrameMessage) : FrameMessage :=
  msg <| fm_Reply := Some reply |>
      <| fm_ReplyStatus := Messaging.firstNonEmpty [fr_Resolution reply; "replied"] |>
      <| fm_DeliveryStatus := "replied" |>.

(** The reason a reply is refused, with its error. *)
Definition rejectInvalidFrameReply (msg : FrameMessage) (body finalAnswer resolution : string) :
    option (string * ErrorBody) :=
  if bool_decide (is_Some (fm_Reply msg)) then
    Some ("reply_already_exists", mkErrorBody ErrCodeInvalidArgument "message already has a reply")
  else if bool_decide (TrimSpace body = "") && bool_decide (TrimSpace finalAnswer = "")
          && bool_decide (TrimSpace resolution = "") then
    Some ("empty_reply",
          mkErrorBody ErrCodeInvalidArgument "reply body, final answer, or resolution required")
  else None.

Definition frameMessagingReply (out : Outside) r (source : FrameID)
    (messageID body finalAnswer resolution confidence : string) :
    MessagingRuntime * (ErrorBody + RespFrameReply) :=
  match frameSessionForSource (rt_State r) source with
  | inl err => (r, inl err)
  | inr (sessionID, sess) =>
    let audit target decision reason :=
      mkAuditRecord (FormatRFC3339 (out_now out 0)) "agent_frames.reply" sessionID source target
        messageID decision reason (frameMessagingBodyHash [body; finalAnswer]) in
    let reject target reason err :=
      (appendFrameMessagingAudit r sessionID (audit target frameMessagingAuditReject reason), inl err) in
    let not_found := reject "" "message_not_found" (mkErrorBody ErrCodeNotFound "message not found") in
    match ss_FrameMessaging sess with
    | None => not_found
    | Some fm =>
      match (found ← find_message messageID (ms_Messages fm);
             msg ← ms_Messages fm !! found; Some (found, msg)) with
      | None => not_found
      | Some (found, msg) =>
        let target := fm_SourceFrameID msg in
        if negb (bool_decide (fm_TargetFrameID msg = source)) then
          reject target "not_message_target"
            (mkErrorBody ErrCodeInvalidArgument "only the target frame may reply")
        else
          match rejectInvalidFrameReply msg body finalAnswer resolution with
          | Some (reason, err) => reject target reason err
          | None =>
            let reply := newReply out source body finalAnswer resolution confidence in
            let messages := alter (answered reply) found (ms_Messages fm) in
            let next := mkMessaging (computeFrameMessagingSummary messages) messages in
            match appendFrameMessagingRecord out r sessionID (replyRecord messageID reply) with
            | (r, Some err) => (r, inl (mkErrorBody ErrCodeInternal err))
            | (r, None) =>
              let r := appendFrameMessagingAudit r sessionID (audit target frameMessagingAuditAllow "") in
              let r := commitFrameMessagingSession out r sessionID
                         (sess <| ss_FrameMessaging := Some next |>) in
              (r, inr (mkRespReply sessionID messageID (replyToProto reply)))
            end
          end
      end
    end
  end.

(** ** Reading in the web client

    [reduceReadSessionMessages] of the reducer, and what interpret.go makes of the two
    effects that concern the stores. *)

Definition executeMessaging (out : Outside) r (eff : Effect) : MessagingRuntime :=
  match eff with
  | EffPersistSnapshot => persistSessions out r
  | EffFrameMessagingPersistRead sid ids =>
    if bool_decide (ids = []) then r
    else (appendFrameMessagingRecord out r sid (readRecord (out_now out 0) ids)).1
  | _ => r
  end.

Definition readSessionMessages (out : Outside) r (connID : ConnID) (reqID : string) (sid : SessionID)
    (lastReadMessageID : string) : MessagingRuntime :=
  let '(s, effs) := reduceReadSessionMessages (rt_State r) connID reqID sid lastReadMessageID in
  foldl (executeMessaging out) (r <| rt_State := s |>) effs.

(** ** Requests by thread (frame_messaging_thread.go)

    [find] is the lookup of the stream subsystem, absent when there is none. *)

Definition frameIDForThread (find : option (SessionID -> string -> option FrameID))
    (sessionID : SessionID) (threadID : string) : ErrorBody + FrameID :=
  if bool_decide (TrimSpace sessionID = "") then
    inl (mkErrorBody ErrCodeInvalidArgument "session id required")
  else
    let threadID := TrimSpace threadID in
    if bool_decide (threadID = "") then inl (mkErrorBody ErrCodeInvalidArgument "thread id required")
    else match find with
         | None => inl (mkErrorBody ErrCodeInternal "stream subsystem unavailable")
         | Some find =>
           match find sessionID threadID with
           | Some frameID =>
             if bool_decide (frameID = "") then
               inl (mkErrorBody ErrCodeNotFound "thread not bound to a frame")
             else inr frameID
           | None => inl (mkErrorBody ErrCodeNotFound "thread not bound to a frame")
           end
         end.

Definition frameMessagingListByThread find r sessionID threadID : ErrorBody + list FrameRef :=
  match frameIDForThread find sessionID threadID with
  | inl err => inl err
  | inr frameID => frameMessagingList r frameID
  end.

Definition frameMessagingReadByThread find out r sessionID threadID (peer : FrameID) :
    MessagingRuntime * (ErrorBody + RespFrameRead) :=
  match frameIDForThread find sessionID threadID with
  | inl err => (r, inl err)
  | inr frameID => frameMessagingRead out r frameID peer
  end.

Definition frameMessagingSendByThread find out r sessionID threadID (target : FrameID)
    (topic body priority : string) : MessagingRuntime * (ErrorBody + RespFrameSend) :=
  match frameIDForThread find sessionID threadID with
  | inl err => (r, inl err)
  | inr frameID => frameMessagingSend out r frameID target topic body priority
  end.

Definition frameMessagingReplyByThread find out r sessionID threadID
    (messageID body finalAnswer resolution confidence : string) :
    MessagingRuntime * (ErrorBody + RespFrameReply) :=
  match frameIDForThread find sessionID threadID with
  | inl err => (r, inl err)
  | inr frameID => frameMessagingReply out r frameID messageID body finalAnswer resolution confidence
  end.

End Messaging.
