(* ===== verification/RuntimeJournal.v ===== *)
(** * host/runtime: the journal of frame messages

    Replaying records over messages: which records a list of messages has absorbed, how
    a replay behaves over a list from which the messages of dead frames were dropped,
    and the order in which messages grow. *)

From Stdlib Require Import String.
From S2P Require Import Prelude GoStd GoStrings GoTime HostState HostHandlers RuntimeStore RuntimeRestart.

Abbreviation messages := (list FrameMessage).

(** ** Updating the message with an id *)

Definition upd (id : string) (f : FrameMessage -> FrameMessage) (l : messages) : messages :=
  (fun m => if bool_decide (fm_ID m = id) then f m else m) <$> l.

Lemma find_message_None id l : find_message id l = None <-> id ∉ fm_ID <$> l.
Proof.
  induction l as [|m l IH]; simpl; [set_solver|]. case_decide as Hm; [set_solver|].
  destruct (find_message id l); simpl in *; set_solver.
Qed.

Lemma upd_absent id f l : id ∉ fm_ID <$> l -> upd id f l = l.
Proof.
  intros Hid. induction l as [|m l IH]; [done|]. unfold upd in *. rewrite fmap_cons in *. simpl.
  rewrite bool_decide_eq_false_2 by set_solver. f_equal. apply IH. set_solver.
Qed.

(** The first message with the id is the only one. *)
Lemma alter_upd id f l i :
  NoDup (fm_ID <$> l) -> find_message id l = Some i -> alter f i l = upd id f l.
Proof.
  revert i. induction l as [|m l IH]; intros i Hn; cbn [find_message]; [done|].
  rewrite fmap_cons in Hn. apply NoDup_cons in Hn as [Hm Hn].
  unfold upd. rewrite fmap_cons. fold (upd id f l). case_decide as Hid.
  - intros [= <-]. rewrite bool_decide_eq_true_2 by done. simpl. f_equal. subst id. by rewrite upd_absent.
  - rewrite bool_decide_eq_false_2 by done. destruct (find_message id l) as [j|]; [|done].
    intros [= <-]. simpl. f_equal. by apply IH.
Qed.

Lemma upd_ids id f l : (forall m, fm_ID (f m) = fm_ID m) -> fm_ID <$> upd id f l = fm_ID <$> l.
Proof.
  intros Hf. unfold upd. rewrite <- list_fmap_compose. apply list_fmap_ext. intros i m _. simpl.
  by case_bool_decide.
Qed.

Lemma elem_of_upd id f l m' :
  m' ∈ upd id f l <-> exists m, m ∈ l /\ m' = if bool_decide (fm_ID m = id) then f m else m.
Proof. unfold upd. rewrite list_elem_of_fmap. naive_solver. Qed.

Lemma filter_upd (P : FrameMessage -> Prop) `{!forall m, Decision (P m)} id f l :
  (forall m, m ∈ l -> fm_ID m = id -> P (f m) <-> P m) ->
  filter P (upd id f l) = upd id f (filter P l).
Proof.
  intros Hf. induction l as [|m l IH]; [done|]. unfold upd in *. rewrite fmap_cons.
  specialize (IH ltac:(set_solver)). rewrite !filter_cons. specialize (Hf m ltac:(set_solver)).
  case_bool_decide as Hm; [specialize (Hf Hm)|];
    repeat case_decide; rewrite ?fmap_cons, ?IH; try tauto;
    by rewrite ?(bool_decide_eq_true_2 _ Hm), ?(bool_decide_eq_false_2 _ Hm).
Qed.

Lemma upd_same id f l : (forall m, m ∈ l -> fm_ID m = id -> f m = m) -> upd id f l = l.
Proof.
  intros Hf. unfold upd. rewrite <- (list_fmap_id l) at 2. apply list_fmap_ext. intros i m Hm.
  case_bool_decide; [|done]. apply Hf; [by eapply list_elem_of_lookup_2|done].
Qed.

(** ** Messages of a store *)

(** A reply comes from the target. *)
Definition reply_from_target (m : FrameMessage) : Prop :=
  forall r, fm_Reply m = Some r -> fr_SourceFrameID r = fm_TargetFrameID m.

Record message_wf (m : FrameMessage) : Prop := {
  mw_id : fm_ID m <> "";
  mw_self : fm_SourceFrameID m <> fm_TargetFrameID m;
  mw_status : fm_ReplyStatus m <> "" /\ fm_DeliveryStatus m <> "";
  mw_reply : reply_from_target m;
  mw_storable : storable_message m }.

Record messages_wf (l : messages) : Prop := {
  mws_ids : NoDup (fm_ID <$> l);
  mws_all : Forall message_wf l }.

Lemma durable_ids (l : messages) : fm_ID <$> (durable_message <$> l) = fm_ID <$> l.
Proof. rewrite <- list_fmap_compose. by apply list_fmap_ext. Qed.

Lemma durable_reply_from_target m : reply_from_target m -> reply_from_target (durable_message m).
Proof. intros Hm r (r0 & Hr & ->)%fmap_Some. simpl. by apply Hm. Qed.

Lemma message_live_frames L m : reply_from_target m ->
  message_live L m = true <-> fm_SourceFrameID m ∈ L /\ fm_TargetFrameID m ∈ L.
Proof.
  intros Hm. unfold message_live. rewrite !andb_true_iff, !bool_decide_eq_true.
  destruct (fm_Reply m) as [r|] eqn:Hr; [|tauto]. rewrite bool_decide_eq_true, (Hm r Hr). tauto.
Qed.

(** ** Growing messages *)

(** What may happen to a message: it is read, it is answered once. *)
Record grows (m m' : FrameMessage) : Prop := {
  gr_id : fm_ID m' = fm_ID m;
  gr_source : fm_SourceFrameID m' = fm_SourceFrameID m;
  gr_target : fm_TargetFrameID m' = fm_TargetFrameID m;
  gr_topic : fm_Topic m' = fm_Topic m;
  gr_body : fm_Body m' = fm_Body m;
  gr_priority : fm_Priority m' = fm_Priority m;
  gr_created : fm_CreatedAt m' = fm_CreatedAt m;
  gr_read : fm_Read m = true -> fm_Read m' = true;
  gr_status : fm_ReplyStatus m' <> "" /\ fm_DeliveryStatus m' <> "";
  gr_reply : forall r, fm_Reply m = Some r ->
    fm_Reply m' = Some r /\ fm_ReplyStatus m' = fm_ReplyStatus m /\
    fm_DeliveryStatus m' = fm_DeliveryStatus m }.

(** Every message of [Y] has grown into one of [Y'] and the others are new. *)
Definition extends (Y Y' : messages) : Prop :=
  (forall m, m ∈ Y -> exists m', m' ∈ Y' /\ grows m m') /\
  (forall m', m' ∈ Y' -> (exists m, m ∈ Y /\ grows m m') \/ fm_ID m' ∉ fm_ID <$> Y).

(** [m0] is the message of a record, which is written unread and unanswered; [m] is what
    the store has made of it. *)
Record holds (m0 m : FrameMessage) : Prop := {
  ho_unread : fm_Read m0 = false;
  ho_unanswered : fm_Reply m0 = None;
  ho_grows : grows m0 m }.

Definition read_ids (rec : frameMessagingJournalRecord) : list string :=
  filter (fun id => id <> "")
    (if bool_decide (jr_MessageIDs rec = []) && negb (bool_decide (jr_MessageID rec = ""))
     then [jr_MessageID rec] else jr_MessageIDs rec).

(** The record is one of the journal and its effect is in the messages. *)
Inductive absorbed (Y : messages) (rec : frameMessagingJournalRecord) : Prop :=
| absorbed_sent snap m :
    jr_Kind rec = frameMessagingKindSent -> jr_Message rec = Some snap ->
    m ∈ Y -> holds (snapshotToFrameMessage snap) m -> absorbed Y rec
| absorbed_reply snap m :
    jr_Kind rec = frameMessagingKindReply -> jr_Reply rec = Some snap -> jr_MessageID rec <> "" ->
    m ∈ Y -> fm_ID m = jr_MessageID rec -> replied (snapshotToFrameReply snap) m = m -> absorbed Y rec
| absorbed_read :
    jr_Kind rec = frameMessagingKindRead ->
    (forall id, id ∈ read_ids rec -> id ∈ fm_ID <$> Y) ->
    (forall m, m ∈ Y -> fm_ID m ∈ read_ids rec -> fm_Read m = true) -> absorbed Y rec.

Lemma preserve_holds m0 m : holds m0 m -> preserve m m0 = m.
Proof.
  intros [Hr Hn [Hid Hs Ht Ho Hb Hp Hc _ [H1 H2] _]]. unfold preserve.
  rewrite !(bool_decide_eq_false_2 (_ = "")) by done.
  destruct m0, m. simpl in *. subst. destruct fm_Read0; by destruct fm_Reply0.
Qed.

Lemma preserve_fields p m : fm_ID (preserve p m) = fm_ID m /\
  fm_SourceFrameID (preserve p m) = fm_SourceFrameID m /\
  fm_TargetFrameID (preserve p m) = fm_TargetFrameID m /\
  fm_Reply (preserve p m) = if bool_decide (is_Some (fm_Reply p)) then fm_Reply p else fm_Reply m.
Proof. unfold preserve. repeat case_match; done. Qed.

(** ** Replaying over grown messages *)

Lemma grows_trans m m' m'' : grows m m' -> grows m' m'' -> grows m m''.
Proof.
  intros [] []. split; try congruence; [auto..|]. intros r Hr.
  edestruct gr_reply0 as (H1 & H2 & H3); [done|]. edestruct gr_reply1 as (H4 & H5 & H6); [done|].
  split_and!; congruence.
Qed.

Lemma holds_grows m0 m m' : holds m0 m -> grows m m' -> holds m0 m'.
Proof. intros [] ?. split; [done..|]. by eapply grows_trans. Qed.

Lemma replied_grows r m m' : replied r m = m -> grows m m' -> replied r m' = m'.
Proof.
  intros Hr Hg. assert (fm_Reply m = Some r) as Hm by (rewrite <- Hr; done).
  destruct (gr_reply _ _ Hg _ Hm) as (H1 & H2 & H3). unfold replied in *.
  destruct m, m'. simpl in *. simplify_eq/=. congruence.
Qed.

Lemma absorbed_extends Y Y' rec : extends Y Y' -> absorbed Y rec -> absorbed Y' rec.
Proof.
  intros [Hg Hn] [snap m Hk Hm Hin Hh|snap m Hk Hr Hid Hin Hm Hrep|Hk Hids Hread].
  - destruct (Hg _ Hin) as (m' & Hin' & Hgr). eapply absorbed_sent; eauto using holds_grows.
  - destruct (Hg _ Hin) as (m' & Hin' & Hgr).
    eapply absorbed_reply; eauto using replied_grows. by rewrite (gr_id _ _ Hgr).
  - apply absorbed_read; [done|..].
    + intros id (m & -> & Hin)%Hids%list_elem_of_fmap. destruct (Hg _ Hin) as (m' & Hin' & Hgr).
      rewrite <- (gr_id _ _ Hgr). by apply list_elem_of_fmap_2.
    + intros m' Hin' Hid. destruct (Hn _ Hin') as [(m & Hin & Hgr)|Hnew]; [|by apply Hids in Hid].
      apply (gr_read _ _ Hgr), Hread; [done|]. by rewrite <- (gr_id _ _ Hgr).
Qed.

(** ** Replaying over a list without the messages of dead frames *)

(** [X] has the live messages of [Y], in their order, and perhaps dead ones of [Y]. *)
Record covers (L : gset FrameID) (X Y : messages) : Prop := {
  cv_live : filter (fun m => message_live L m = true) X = filter (fun m => message_live L m = true) Y;
  cv_ids : NoDup (fm_ID <$> X);
  cv_replies : forall x, x ∈ X -> reply_from_target x;
  cv_frames : forall x, x ∈ X -> exists y, y ∈ Y /\ fm_ID y = fm_ID x /\
    fm_SourceFrameID y = fm_SourceFrameID x /\ fm_TargetFrameID y = fm_TargetFrameID x }.

Lemma unique_id Y y y' : NoDup (fm_ID <$> Y) -> y ∈ Y -> y' ∈ Y -> fm_ID y = fm_ID y' -> y = y'.
Proof.
  intros Hn [i Hi]%list_elem_of_lookup [j Hj]%list_elem_of_lookup Hid.
  assert (i = j) as ->; [|congruence]. eapply NoDup_lookup; [done|..]; rewrite list_lookup_fmap.
  - by rewrite Hi.
  - by rewrite Hj, Hid.
Qed.

(** An update of one message that keeps its id and its frames. *)
Record faithful (f : FrameMessage -> FrameMessage) (m : FrameMessage) : Prop := {
  fa_id : fm_ID (f m) = fm_ID m;
  fa_source : fm_SourceFrameID (f m) = fm_SourceFrameID m;
  fa_target : fm_TargetFrameID (f m) = fm_TargetFrameID m;
  fa_reply : reply_from_target (f m) }.

Lemma filter_faithful L f (l : messages) :
  (forall m, m ∈ l -> reply_from_target m /\ faithful f m) ->
  filter (fun m => message_live L m = true) (f <$> l) = f <$> filter (fun m => message_live L m = true) l.
Proof.
  induction l as [|m l IH]; intros Hall; [done|]. specialize (IH ltac:(set_solver)).
  destruct (Hall m ltac:(set_solver)) as [Hm [_ Hs Ht Hr]]. rewrite fmap_cons, !filter_cons, IH.
  assert (message_live L (f m) = true <-> message_live L m = true) as Heq.
  { rewrite !message_live_frames by done. by rewrite Hs, Ht. }
  repeat case_decide; tauto || done.
Qed.

Lemma covers_fmap L f X Y : covers L X Y -> (forall y, y ∈ Y -> reply_from_target y) ->
  (forall m, m ∈ X \/ m ∈ Y -> faithful f m) -> covers L (f <$> X) (f <$> Y).
Proof.
  intros [Hl Hn Hr Hf] HY Hall. split.
  - rewrite !filter_faithful by naive_solver. by rewrite Hl.
  - rewrite <- list_fmap_compose. erewrite list_fmap_ext; [exact Hn|].
    intros i m Hm%list_elem_of_lookup_2. simpl. by destruct (Hall m (or_introl Hm)).
  - intros x' (x & -> & Hx)%list_elem_of_fmap. by destruct (Hall x (or_introl Hx)).
  - intros x' (x & -> & Hx)%list_elem_of_fmap. destruct (Hf x Hx) as (y & Hy & Hid & Hs & Ht).
    exists (f y). split; [by apply list_elem_of_fmap_2|].
    destruct (Hall x (or_introl Hx)), (Hall y (or_intror Hy)). split_and!; congruence.
Qed.

Lemma covers_upd L id f X Y : covers L X Y -> (forall y, y ∈ Y -> reply_from_target y) ->
  (forall m, m ∈ X \/ m ∈ Y -> fm_ID m = id -> faithful f m) -> covers L (upd id f X) (upd id f Y).
Proof.
  intros Hc HY Hall. apply covers_fmap; [done..|]. intros m Hm. destruct (decide (fm_ID m = id)) as [Hid|Hid].
  - destruct (Hall m Hm Hid). split; simpl; by rewrite bool_decide_eq_true_2.
  - split; simpl; rewrite bool_decide_eq_false_2 by done; try done.
    destruct Hm as [Hm|Hm]; [by apply (cv_replies _ _ _ Hc)|by apply HY].
Qed.

Lemma covers_append L X Y m : covers L X Y -> fm_ID m ∉ fm_ID <$> Y -> reply_from_target m ->
  covers L (X ++ [m]) (Y ++ [m]).
Proof.
  intros [Hl Hn Hr Hf] Hm Hrm. split.
  - by rewrite !filter_app, Hl.
  - rewrite fmap_app. apply NoDup_app. split_and!; [done| |apply NoDup_singleton].
    intros id (x & -> & Hx)%list_elem_of_fmap Hid%list_elem_of_singleton. apply Hm.
    destruct (Hf x Hx) as (y & Hy & Hyid & _). rewrite <- Hid, <- Hyid. by apply list_elem_of_fmap_2.
  - intros x [Hx | ->%list_elem_of_singleton]%elem_of_app; auto.
  - intros x [Hx | ->%list_elem_of_singleton]%elem_of_app.
    + destruct (Hf x Hx) as (y & Hy & ?). exists y. split; [set_solver|done].
    + exists m. split; [set_solver|done].
Qed.

(** A dead message of [Y] that [X] does not have comes back from the journal. *)
Lemma covers_back L X Y m0 m : covers L X Y -> m ∈ Y -> reply_from_target m -> holds m0 m ->
  fm_ID m0 ∉ fm_ID <$> X -> covers L (X ++ [m0]) Y.
Proof.
  intros [Hl Hn Hr Hf] Hm Hrm [_ Hn0 [Hid Hs Ht _ _ _ _ _ _ _]] Hx.
  assert (reply_from_target m0) as Hr0 by (intros r; by rewrite Hn0). split.
  - rewrite filter_app, Hl, filter_cons, filter_nil. case_decide as Hlive; [|by rewrite app_nil_r].
    exfalso. apply Hx. rewrite <- Hid. apply list_elem_of_fmap_2.
    assert (m ∈ filter (fun m => message_live L m = true) X) as Hin; [|by apply list_elem_of_filter in Hin as [_ ?]].
    rewrite Hl. apply list_elem_of_filter. split; [|done]. apply message_live_frames in Hlive; [|done].
    apply message_live_frames; [done|]. by rewrite Hs, Ht.
  - rewrite fmap_app. apply NoDup_app. split_and!; [done|set_solver|apply NoDup_singleton].
  - intros x [Hx' | ->%list_elem_of_singleton]%elem_of_app; auto.
  - intros x [Hx' | ->%list_elem_of_singleton]%elem_of_app; [auto|]. by exists m.
Qed.

(** ** Replaying absorbed records *)

(** Two messages with an id, one of [X] and one of [Y]: the same frames. *)
Lemma covers_frames L X Y x y : covers L X Y -> NoDup (fm_ID <$> Y) -> x ∈ X \/ x ∈ Y -> y ∈ Y ->
  fm_ID x = fm_ID y -> fm_SourceFrameID x = fm_SourceFrameID y /\ fm_TargetFrameID x = fm_TargetFrameID y.
Proof.
  intros Hc Hn [Hx|Hx] Hy Hid.
  - destruct (cv_frames _ _ _ Hc x Hx) as (y' & Hy' & Hid' & <- & <-).
    by rewrite (unique_id Y y' y) by congruence.
  - by rewrite (unique_id Y x y).
Qed.

Lemma covers_sent L X Y m0 m : covers L X Y -> messages_wf Y -> m ∈ Y -> holds m0 m ->
  covers L (match findFrameMessageIndex X (fm_ID m0) with
            | Some idx => alter (fun preserved => preserve preserved m0) idx X
            | None => X ++ [m0]
            end) Y.
Proof.
  intros Hc HY Hm Hh. assert (forall y, y ∈ Y -> reply_from_target y) as HrY.
  { intros y Hy. by apply (proj1 (Forall_forall _ _) (mws_all _ HY) y Hy). }
  pose proof (gr_id _ _ (ho_grows _ _ Hh)) as Hid. unfold findFrameMessageIndex.
  destruct (find_message (fm_ID m0) X) as [i|] eqn:Hf.
  - rewrite (alter_upd _ _ _ _ (cv_ids _ _ _ Hc) Hf).
    rewrite <- (upd_same (fm_ID m0) (fun p => preserve p m0) Y).
    2: { intros y Hy Hyid. rewrite (unique_id Y y m) by first [apply HY | congruence].
         by apply preserve_holds. }
    apply covers_upd; [done..|]. intros x Hx Hxid.
    destruct (covers_frames L X Y x m Hc (mws_ids _ HY) Hx Hm ltac:(congruence)) as [Hs Ht].
    pose proof (gr_source _ _ (ho_grows _ _ Hh)). pose proof (gr_target _ _ (ho_grows _ _ Hh)).
    destruct (preserve_fields x m0) as (P1 & P2 & P3 & P4).
    split; try congruence. intros r. rewrite P3, P4, (ho_unanswered _ _ Hh). case_bool_decide; [|done].
    intros Hr. destruct Hx as [Hx|Hx]; [rewrite (cv_replies _ _ _ Hc x Hx r Hr)|rewrite (HrY x Hx r Hr)]; congruence.
  - apply find_message_None in Hf. eapply covers_back; eauto.
Qed.

Lemma covers_replied L X Y id r m : covers L X Y -> messages_wf Y -> m ∈ Y -> fm_ID m = id ->
  fr_SourceFrameID r = fm_TargetFrameID m ->
  covers L (match findFrameMessageIndex X id with Some idx => alter (replied r) idx X | None => X end)
    (upd id (replied r) Y).
Proof.
  intros Hc HY Hm Hid Hr. assert (covers L (upd id (replied r) X) (upd id (replied r) Y)) as Hu.
  { apply covers_upd; [done|..].
    - intros y Hy. by apply (proj1 (Forall_forall _ _) (mws_all _ HY) y Hy).
    - intros x Hx Hxid. split; [done..|]. intros r' [= <-]. simpl. rewrite Hr.
      by destruct (covers_frames L X Y x m Hc (mws_ids _ HY) Hx Hm ltac:(congruence)). }
  unfold findFrameMessageIndex. destruct (find_message id X) as [i|] eqn:Hf.
  - by rewrite (alter_upd _ _ _ _ (cv_ids _ _ _ Hc) Hf).
  - apply find_message_None in Hf. by rewrite upd_absent in Hu.
Qed.

Lemma covers_read L X Y ids : covers L X Y -> messages_wf Y ->
  covers L (mark_read ids <$> X) (mark_read ids <$> Y).
Proof.
  intros Hc HY. assert (forall y, y ∈ Y -> reply_from_target y) as HrY.
  { intros y Hy. by apply (proj1 (Forall_forall _ _) (mws_all _ HY) y Hy). }
  apply covers_fmap; [done..|]. intros m Hm. unfold mark_read.
  destruct Hm as [Hm|Hm]; [pose proof (cv_replies _ _ _ Hc m Hm) as Hr|pose proof (HrY m Hm) as Hr];
    split; by case_bool_decide.
Qed.

Lemma mark_read_same (ids : list string) (Y : messages) :
  (forall m, m ∈ Y -> fm_ID m ∈ ids -> fm_Read m = true) -> mark_read ids <$> Y = Y.
Proof.
  intros Hall. rewrite <- (list_fmap_id Y) at 2. apply list_fmap_ext. intros i m Hm%list_elem_of_lookup_2.
  unfold mark_read. case_bool_decide as Hid; [|done]. specialize (Hall m Hm Hid). destruct m. simpl in *. by subst.
Qed.

(** A record whose effect is in [Y] leaves a cover of [Y] one. *)
Lemma covers_absorbed L X Y rec : covers L X Y -> messages_wf Y -> absorbed Y rec ->
  covers L (applyFrameMessagingJournalRecord X rec) Y.
Proof.
  intros Hc HY Ha. unfold applyFrameMessagingJournalRecord.
  destruct Ha as [snap m Hk Hm Hin Hh|snap m Hk Hr Hid Hin Hm Hrep|Hk Hids Hread]; rewrite Hk; simpl.
  - unfold applyFrameMessagingSent. rewrite Hm. by eapply covers_sent.
  - unfold applyFrameMessagingReply. rewrite Hr, bool_decide_eq_false_2 by done.
    rewrite <- (upd_same (jr_MessageID rec) (replied (snapshotToFrameReply snap)) Y).
    2: { intros y Hy Hyid. by rewrite (unique_id Y y m) by first [apply HY | congruence]. }
    eapply covers_replied; [done..|]. apply (proj1 (Forall_forall _ _) (mws_all _ HY) m Hin).
    rewrite <- Hrep. done.
  - unfold applyFrameMessagingRead. fold (read_ids rec). rewrite <- (mark_read_same (read_ids rec) Y) by done.
    by apply covers_read.
Qed.

Lemma covers_replay L X Y recs : covers L X Y -> messages_wf Y -> Forall (absorbed Y) recs ->
  covers L (foldl applyFrameMessagingJournalRecord X recs) Y.
Proof.
  intros Hc HY Hr. revert X Hc. induction Hr as [|rec recs Ha Hr IH]; intros X Hc; simpl; [done|].
  apply IH. by apply covers_absorbed.
Qed.
