(* ===== verification/RuntimeRecovery.v ===== *)
(** * host/runtime: frame messages survive a crash

    Over any run of the messaging operations, at any point, the snapshot last saved and
    the journal written so far give back the messages of every session. *)

From Stdlib Require Import String.
From S2P Require Import Prelude GoStd GoStrings GoTime ShellArgs HostState HostFrames HostHandlers.
From S2P Require Import RuntimeStore RuntimeSnapshot RuntimeRestart RuntimeMessaging RuntimeJournal.

Lemma filter_all {A} (P : A -> Prop) `{!forall x, Decision (P x)} (l : list A) :
  (forall x, x ∈ l -> P x) -> filter P l = l.
Proof.
  induction l as [|x l IH]; intros Hall; [done|]. rewrite filter_cons_True by set_solver.
  f_equal. apply IH. set_solver.
Qed.

(** ** Durable messages *)

Lemma year_of_truncate t : year_of (TruncateSecond t) = year_of t.
Proof. unfold year_of, TruncateSecond. by rewrite Z.div_mul. Qed.

Lemma storable_truncate t : storable_time t -> storable_time (TruncateSecond t).
Proof. unfold storable_time. by rewrite year_of_truncate. Qed.

Lemma durable_message_wf m : message_wf m -> message_wf (durable_message m).
Proof.
  intros [Hid Hself Hst Hr [Ht Hrt]]. split; [done..| |].
  - by apply durable_reply_from_target.
  - split; [by apply storable_truncate|]. intros r (r0 & Hr0 & ->)%fmap_Some.
    by apply storable_truncate, Hrt.
Qed.

Lemma durable_wf l : messages_wf l -> messages_wf (durable_message <$> l).
Proof.
  intros [Hn Hall]. split; [by rewrite durable_ids|]. apply Forall_fmap.
  eapply Forall_impl; [done|]. apply durable_message_wf.
Qed.

Lemma durable_mark_read ids (l : messages) :
  durable_message <$> (mark_read ids <$> l) = mark_read ids <$> (durable_message <$> l).
Proof.
  rewrite <- !list_fmap_compose. apply list_fmap_ext. intros i m _. simpl. unfold mark_read. simpl.
  by case_bool_decide.
Qed.

(** ** What is on disk for a session *)

Section Codec.
Context {JC : JournalCodec}.

(** The record is read back as it was written: it fits the scanner's buffer, and
    encoding/json gives the record back. *)
Definition journaled (rec : frameMessagingJournalRecord) : Prop :=
  scan_line (encode_record rec) = Some rec.

(** [lines] is the journal, [base] what the snapshot holds, [live] the messages in memory. *)
Record recoverable (lines : list string) (base live : messages) : Prop := {
  rv_wf : messages_wf live;
  rv_records : exists recs, mapM scan_line lines = Some recs /\
    Forall (absorbed (durable_message <$> live)) recs /\
    forall L, covers L (foldl applyFrameMessagingJournalRecord
                          (filter (fun m => message_live L m = true) base) recs)
                       (durable_message <$> live) }.

Lemma recoverable_start : recoverable [] [] [].
Proof.
  split; [split; [constructor|done]|]. exists []. split_and!; [done..|]. intros L.
  split; [done|constructor|by intros x Hx%elem_of_nil..].
Qed.

Lemma recoverable_append lines base live live' rec :
  recoverable lines base live -> messages_wf live' -> journaled rec ->
  extends (durable_message <$> live) (durable_message <$> live') ->
  absorbed (durable_message <$> live') rec ->
  (forall L X, covers L X (durable_message <$> live) ->
     covers L (applyFrameMessagingJournalRecord X rec) (durable_message <$> live')) ->
  recoverable (lines ++ [encode_record rec]) base live'.
Proof.
  intros [Hwf (recs & Hl & Ha & Hc)] Hwf' Hj He Hrec Hcov. split; [done|].
  exists (recs ++ [rec]). split_and!.
  - apply mapM_Some in Hl. apply mapM_Some, Forall2_app; [done|]. by repeat constructor.
  - apply Forall_app. split; [|by constructor].
    eapply Forall_impl; [done|]. intros rec'. by apply absorbed_extends.
  - intros L. rewrite foldl_app. simpl. by apply Hcov.
Qed.

Lemma covers_filter L Y : messages_wf Y -> covers L (filter (fun m => message_live L m = true) Y) Y.
Proof.
  intros [Hn Hall]. split.
  - by rewrite list_filter_filter_l.
  - eapply sublist_NoDup; [exact Hn|]. apply fmap_sublist, sublist_filter.
  - intros x [_ Hx]%list_elem_of_filter. by apply (proj1 (Forall_forall _ _) Hall x Hx).
  - intros x [_ Hx]%list_elem_of_filter. by exists x.
Qed.

(** A snapshot taken now, also of changes the journal has not got. *)
Lemma recoverable_saved lines base live live' :
  recoverable lines base live -> messages_wf live' ->
  extends (durable_message <$> live) (durable_message <$> live') ->
  recoverable lines (snapshotToFrameMessage <$> (frameMessageToSnapshot <$> live')) live'.
Proof.
  intros [Hwf (recs & Hl & Ha & Hc)] Hwf' He. split; [done|]. exists recs.
  assert (Forall (absorbed (durable_message <$> live')) recs) as Ha'.
  { eapply Forall_impl; [done|]. intros rec'. by apply absorbed_extends. }
  split_and!; [done..|]. intros L. rewrite messages_roundtrip.
  - apply covers_replay; [|by apply durable_wf|done]. apply covers_filter. by apply durable_wf.
  - eapply Forall_impl; [exact (mws_all _ Hwf')|]. by intros m [].
Qed.

(** ** The operations on messages *)

Lemma grows_refl m : message_wf m -> grows m m.
Proof. intros []. by split. Qed.

Lemma extends_refl Y : messages_wf Y -> extends Y Y.
Proof.
  intros [_ Hall]. split; intros m Hm; [exists m|left; exists m]; (split; [done|]);
    by apply grows_refl, (proj1 (Forall_forall _ _) Hall).
Qed.

Lemma recoverable_send lines base live msg :
  recoverable lines base live -> message_wf msg -> fm_ID msg ∉ fm_ID <$> live ->
  fm_Read msg = false -> fm_Reply msg = None -> journaled (sentRecord msg) ->
  recoverable (lines ++ [encode_record (sentRecord msg)]) base (live ++ [msg]).
Proof.
  intros Hrv Hm Hid Hr Hn Hj. pose proof (rv_wf _ _ _ Hrv) as Hwf.
  assert (snapshotToFrameMessage (frameMessageToSnapshot msg) = durable_message msg) as Hs
    by apply message_roundtrip, Hm.
  assert (holds (durable_message msg) (durable_message msg)) as Hh.
  { split; [done|simpl; by rewrite Hn|]. by apply grows_refl, durable_message_wf. }
  apply (recoverable_append _ _ live); [done| |done|..].
  - destruct Hwf as [Hn' Hall]. split.
    + rewrite fmap_app. apply NoDup_app. split_and!; [done|set_solver|apply NoDup_singleton].
    + apply Forall_app. split; [done|]. by apply Forall_singleton.
  - rewrite fmap_app. destruct (extends_refl _ (durable_wf _ Hwf)) as [H1 H2]. split.
    + intros m Hin. destruct (H1 m Hin) as (m' & Hin' & Hg). exists m'. split; [set_solver|done].
    + intros m' [Hin | ->%list_elem_of_singleton]%elem_of_app; [by apply H2|]. right. by rewrite durable_ids.
  - apply (absorbed_sent _ _ (frameMessageToSnapshot msg) (durable_message msg)); [done..| |by rewrite Hs].
    rewrite fmap_app. set_solver.
  - intros L X Hc. unfold applyFrameMessagingJournalRecord. simpl. unfold applyFrameMessagingSent. simpl.
    rewrite Hs. unfold findFrameMessageIndex.
    assert (fm_ID (durable_message msg) ∉ fm_ID <$> (durable_message <$> live)) as Hnew by by rewrite durable_ids.
    destruct (find_message _ X) as [i|] eqn:Hf.
    { exfalso. assert (find_message (fm_ID msg) X = None); [|simpl in *; congruence].
      apply find_message_None. intros (x & Hx & Hin)%list_elem_of_fmap.
      destruct (cv_frames _ _ _ Hc x Hin) as (y & Hy & Hid' & _). apply Hnew. simpl. rewrite Hx, <- Hid'.
      by apply list_elem_of_fmap_2. }
    rewrite fmap_app. apply covers_append; [done..|]. apply durable_message_wf, Hm.
Qed.

(** The operation's message and the journal's: a resolution is empty or says something. *)
Lemma answered_replied reply m :
  (fr_Resolution reply = "" \/ TrimSpace (fr_Resolution reply) <> "") ->
  durable_message (answered reply m) = replied (durable_reply reply) (durable_message m).
Proof.
  intros Hr. unfold answered, replied, durable_message. simpl. unfold Messaging.firstNonEmpty.
  destruct Hr as [Hr|Hr].
  - rewrite Hr. rewrite (bool_decide_eq_true_2 ("" = "")), (bool_decide_eq_true_2 (TrimSpace "" = "")) by done. done.
  - rewrite (bool_decide_eq_false_2 _ Hr), bool_decide_eq_false_2; [done|]. intros He. by rewrite He in Hr.
Qed.

Lemma durable_upd id f g (l : messages) : (forall m, durable_message (f m) = g (durable_message m)) ->
  durable_message <$> upd id f l = upd id g (durable_message <$> l).
Proof.
  intros Hf. unfold upd. rewrite <- !list_fmap_compose. apply list_fmap_ext. intros i m _. simpl.
  by case_bool_decide.
Qed.

(** Growing in place. *)
Lemma extends_fmap f (Y : messages) : (forall m, m ∈ Y -> grows m (f m)) -> extends Y (f <$> Y).
Proof.
  intros Hf. split.
  - intros m Hm. exists (f m). split; [by apply list_elem_of_fmap_2|by apply Hf].
  - intros m' (m & -> & Hm)%list_elem_of_fmap. left. exists m. auto.
Qed.

Lemma grows_replied r m : message_wf m -> fm_Reply m = None -> grows m (replied r m).
Proof.
  intros [] Hn. split; try done.
  - simpl. split; [|done]. by case_bool_decide.
  - intros r'. by rewrite Hn.
Qed.

Lemma find_message_id id l i m : find_message id l = Some i -> l !! i = Some m -> fm_ID m = id.
Proof.
  revert i. induction l as [|x l IH]; intros i; simpl; [done|]. case_decide as Hx.
  - intros [= <-]. by intros [= <-].
  - destruct (find_message id l) as [j|]; [|done]. intros [= <-]. simpl. by apply IH.
Qed.

Lemma answered_wf live id msg reply :
  messages_wf live -> msg ∈ live -> (forall m, m ∈ live -> fm_ID m = id -> m = msg) ->
  fr_SourceFrameID reply = fm_TargetFrameID msg -> storable_time (fr_CreatedAt reply) ->
  messages_wf (upd id (answered reply) live).
Proof.
  intros [Hn Hall] Hin Huniq Hsrc Ht. split; [by rewrite upd_ids|]. apply Forall_forall.
  intros m' (m & Hm & ->)%elem_of_upd. pose proof (proj1 (Forall_forall _ _) Hall m Hm) as Hw.
  case_bool_decide as Hmid; [|done]. destruct Hw as [H1 H2 H3 H4 [H5 H6]]. split; [done..| | |].
  - split; [|done]. cbn [answered fm_ReplyStatus]. unfold answered. simpl.
    case_bool_decide as Hb; [done|]. intros He. by rewrite He in Hb.
  - intros r [= <-]. by rewrite (Huniq m Hm Hmid).
  - split; [done|]. by intros r [= <-].
Qed.

Lemma recoverable_reply lines base live i id msg reply :
  recoverable lines base live -> find_message id live = Some i -> live !! i = Some msg ->
  id <> "" -> fm_Reply msg = None -> fr_SourceFrameID reply = fm_TargetFrameID msg ->
  storable_time (fr_CreatedAt reply) ->
  (fr_Resolution reply = "" \/ TrimSpace (fr_Resolution reply) <> "") ->
  journaled (replyRecord id reply) ->
  recoverable (lines ++ [encode_record (replyRecord id reply)]) base (alter (answered reply) i live).
Proof.
  intros Hrv Hf Hi Hid Hn Hsrc Ht Hres Hj. pose proof (rv_wf _ _ _ Hrv) as Hwf.
  assert (msg ∈ live) as Hin by by eapply list_elem_of_lookup_2.
  assert (fm_ID msg = id) as Hmid by (by eapply find_message_id).
  assert (forall m, m ∈ live -> fm_ID m = id -> m = msg) as Huniq.
  { intros m Hm Hmid'. eapply unique_id; [apply Hwf|done..|congruence]. }
  rewrite (alter_upd id) by (apply Hwf || done).
  assert (forall m, durable_message (answered reply m) = replied (durable_reply reply) (durable_message m)) as Ha
    by (intros m; by apply answered_replied).
  apply (recoverable_append _ _ live); [done| |done|..]; rewrite ?(durable_upd _ _ _ _ Ha).
  - by apply (answered_wf _ _ msg).
  - apply extends_fmap. intros m' (m & -> & Hm)%list_elem_of_fmap. simpl. case_bool_decide as Hmid'.
    + rewrite (Huniq m Hm Hmid'). apply grows_replied; [|simpl; by rewrite Hn].
      apply durable_message_wf. by apply (proj1 (Forall_forall _ _) (mws_all _ Hwf)).
    + apply grows_refl, durable_message_wf. by apply (proj1 (Forall_forall _ _) (mws_all _ Hwf)).
  - eapply (absorbed_reply _ _ (frameReplyToSnapshot reply) (replied (durable_reply reply) (durable_message msg)));
      [done..| |done|simpl; by rewrite reply_roundtrip].
    apply elem_of_upd. exists (durable_message msg). split; [by apply list_elem_of_fmap_2|].
    by rewrite bool_decide_eq_true_2.
  - intros L X Hc. unfold applyFrameMessagingJournalRecord. simpl. unfold applyFrameMessagingReply. simpl.
    rewrite bool_decide_eq_false_2, reply_roundtrip by done.
    eapply (covers_replied _ _ _ _ _ (durable_message msg)); [done|by apply durable_wf| |done..].
    by apply list_elem_of_fmap_2.
Qed.

(** ** Reading *)

Lemma elem_of_filter_ids (P : FrameMessage -> Prop) `{!forall m, Decision (P m)} (l : messages) m :
  NoDup (fm_ID <$> l) -> m ∈ l -> fm_ID m ∈ fm_ID <$> filter P l <-> P m.
Proof.
  intros Hn Hm. rewrite list_elem_of_fmap. split.
  - intros (m' & Hid & [HP Hm']%list_elem_of_filter). by rewrite (unique_id l m m').
  - intros HP. exists m. split; [done|]. by apply list_elem_of_filter.
Qed.

Definition set_read (m : FrameMessage) : FrameMessage := m <| fm_Read := true |>.

(** What [frameMessagingRead] does is what the record says. *)
Lemma mark_read_filter (P : FrameMessage -> bool) (l : messages) : NoDup (fm_ID <$> l) ->
  mark_read (fm_ID <$> filter (fun m => P m = true) l) <$> l =
  (fun m => if P m then set_read m else m) <$> l.
Proof.
  intros Hn. apply list_fmap_ext. intros i m Hm%list_elem_of_lookup_2. unfold mark_read.
  case_bool_decide as Hid; rewrite elem_of_filter_ids in Hid by done; by destruct (P m).
Qed.

Lemma newly_read_through (t d : messages) :
  newly_read (t ++ d) ((set_read <$> t) ++ d) = fm_ID <$> filter (fun m => fm_Read m = false) t.
Proof.
  unfold newly_read. induction t as [|m t IH]; simpl.
  - induction d as [|m d IH]; simpl; [done|]. by destruct (fm_Read m).
  - rewrite filter_cons. destruct (fm_Read m) eqn:Hm; simpl; [apply IH|]. f_equal. apply IH.
Qed.

(** What [markSessionMessagesReadThroughID] does is what the record says. *)
Lemma mark_read_through (t d : messages) : NoDup (fm_ID <$> t ++ d) ->
  mark_read (newly_read (t ++ d) ((set_read <$> t) ++ d)) <$> (t ++ d) = (set_read <$> t) ++ d.
Proof.
  intros Hn. rewrite newly_read_through.
  rewrite fmap_app. rewrite fmap_app in Hn. apply NoDup_app in Hn as (Ht & Htd & _). f_equal.
  - apply list_fmap_ext. intros i m Hm%list_elem_of_lookup_2. unfold mark_read, set_read.
    case_bool_decide as Hid; rewrite elem_of_filter_ids in Hid by done; [done|].
    destruct m as [? ? ? ? ? ? ? [] ? ? ?]; simpl in *; [done|by destruct Hid].
  - rewrite <- (list_fmap_id d) at 2. apply list_fmap_ext. intros i m Hm%list_elem_of_lookup_2.
    unfold mark_read. rewrite bool_decide_eq_false_2; [done|].
    intros (m' & Hid & [_ Hm']%list_elem_of_filter)%list_elem_of_fmap.
    apply (Htd (fm_ID m)); [rewrite Hid|]; by apply list_elem_of_fmap_2.
Qed.

Lemma mark_read_ids ids (l : messages) : fm_ID <$> (mark_read ids <$> l) = fm_ID <$> l.
Proof.
  rewrite <- list_fmap_compose. apply list_fmap_ext. intros i m _. simpl. unfold mark_read.
  by case_bool_decide.
Qed.

Lemma read_wf ids live : messages_wf live -> messages_wf (mark_read ids <$> live).
Proof.
  intros [Hn Hall]. split; [by rewrite mark_read_ids|]. apply Forall_fmap. eapply Forall_impl; [done|]. intros m [] . simpl. unfold mark_read.
    case_bool_decide; by split.
Qed.

Lemma read_extends ids Y : messages_wf Y -> extends Y (mark_read ids <$> Y).
Proof.
  intros [_ Hall]. apply extends_fmap. intros m Hm.
  pose proof (grows_refl m (proj1 (Forall_forall _ _) Hall m Hm)) as [].
  unfold mark_read. case_bool_decide; by split.
Qed.

Lemma recoverable_read lines base live ids now :
  recoverable lines base live -> (forall id, id ∈ ids -> id ∈ fm_ID <$> live) -> ids <> [] ->
  journaled (readRecord now ids) ->
  recoverable (lines ++ [encode_record (readRecord now ids)]) base (mark_read ids <$> live).
Proof.
  intros Hrv Hids Hne Hj. pose proof (rv_wf _ _ _ Hrv) as Hwf.
  assert (read_ids (readRecord now ids) = ids) as Hr.
  { unfold read_ids. simpl. rewrite bool_decide_eq_false_2 by done. simpl. apply filter_all.
    intros id Hid. destruct (proj1 (list_elem_of_fmap _ _ _) (Hids id Hid)) as (m & -> & Hm).
    by apply (proj1 (Forall_forall _ _) (mws_all _ Hwf) m Hm). }
  apply (recoverable_append _ _ live); [done|by apply read_wf|done|..]; rewrite ?durable_mark_read.
  - apply read_extends. by apply durable_wf.
  - apply absorbed_read; [done|..]; rewrite Hr.
    + intros id Hid. rewrite mark_read_ids, durable_ids. by apply Hids.
    + intros m' (m & -> & Hm)%list_elem_of_fmap. unfold mark_read. by case_bool_decide.
  - intros L X Hc. unfold applyFrameMessagingJournalRecord. simpl. unfold applyFrameMessagingRead.
    fold (read_ids (readRecord now ids)). rewrite Hr. apply covers_read; [done|by apply durable_wf].
Qed.

End Codec.
