(* ===== verification/RuntimeMessagingRun.v ===== *)
(** * host/runtime: runs of frame messaging

    The messaging operations as steps of the runtime, next to everything else that goes
    on in it, and the invariant of the runs: the stores of every session are
    recoverable (RuntimeRecovery.v) and its summary is up to date. *)

From Stdlib Require Import String.
From S2P Require Import Prelude GoStd GoStrings GoTime ShellArgs HostState HostFrames HostHandlers.
From S2P Require Import HostDriverFacts HostGraph RuntimeStore RuntimeSnapshot RuntimeRestart RuntimeMessaging RuntimeJournal RuntimeRecovery.
From S2P Require Import HostFrames.

(** ** Summaries *)

Lemma summarize_unread a u m :
  summarize (a <| su_UnreadCount := u |>) m =
  summarize a (set_read m) <| su_UnreadCount := if fm_Read m then u else u + 1 |>.
Proof.
  unfold summarize, set_read. cbn -[stateMessagePreview Messaging.firstNonEmpty bool_decide].
  destruct (fm_Read m); destruct (bool_decide (is_Some _)); destruct (bool_decide (stateMessagePreview _ = ""));
    destruct (fm_Reply m) as [q|]; try destruct (bool_decide (stateMessagePreview _ = ""));
    destruct (bool_decide (fm_ReplyStatus m = "")); destruct (bool_decide (fm_DeliveryStatus m = "")); done.
Qed.

Lemma unread_count_cons m l : unread_count (m :: l) = (if fm_Read m then 0 else 1) + unread_count l.
Proof.
  unfold unread_count. rewrite filter_cons. destruct (fm_Read m) eqn:Hm; [by rewrite decide_False by congruence|].
  rewrite decide_True by done. simpl. lia.
Qed.

Lemma summary_unread a u l :
  foldl summarize (a <| su_UnreadCount := u |>) l =
  foldl summarize a (set_read <$> l) <| su_UnreadCount := u + unread_count l |>.
Proof.
  revert a u. induction l as [|m l IH]; intros a u.
  - unfold unread_count. rewrite filter_nil. simpl. by rewrite Z.add_0_r.
  - rewrite fmap_cons. cbn [foldl]. rewrite summarize_unread, IH, unread_count_cons.
    assert (u + ((if fm_Read m then 0 else 1) + unread_count l) =
            (if fm_Read m then u else u + 1) + unread_count l) as -> by (destruct (fm_Read m); lia). done.
Qed.

(** Only the number of unread messages depends on what was read. *)
Lemma computeSummary_read l :
  computeFrameMessagingSummary l =
  computeFrameMessagingSummary (set_read <$> l) <| su_UnreadCount := unread_count l |>.
Proof. unfold computeFrameMessagingSummary. apply (summary_unread zero_summary 0). Qed.

Section Run.
Context `{GoMapRange} {HT : HostTypes} {DSYS : DriverSys} {JC : JournalCodec}.
Implicit Types (r : MessagingRuntime) (sess : Session).

Definition messages_of sess : messages := from_option ms_Messages [] (ss_FrameMessaging sess).
Definition lines_of r (sid : SessionID) : list string := from_option jo_lines [] (rt_Journals r !! sid).

Definition file_messages (file : SessionFile) : messages :=
  from_option (fun m => snapshotToFrameMessage <$> sn_Messages m) [] (sp_FrameMessaging (sf_Snapshot file)).

Definition base_of r (sid : SessionID) : messages := from_option file_messages [] (rt_Files r !! sid).

Definition summary_ok sess : Prop :=
  forall fm, ss_FrameMessaging sess = Some fm -> ms_Summary fm = computeFrameMessagingSummary (ms_Messages fm).

(** The invariant. *)
Record stores_ok r : Prop := {
  so_keyed : keyed (rt_State r);
  so_files : forall id file, rt_Files r !! id = Some file -> sp_ID (sf_Snapshot file) = id;
  so_whole : forall sid j, rt_Journals r !! sid = Some j -> jo_rest j = "";
  so_sessions : forall sid sess, st_Sessions (rt_State r) !! sid = Some sess -> Ended sess = false ->
    recoverable (lines_of r sid) (base_of r sid) (messages_of sess) /\ summary_ok sess }.

(** ** Saving *)

Lemma writeOne_lookup (l : list SessionSnapshot) files id :
  (foldl writeOne files l !! id = files !! id /\ id ∉ sp_ID <$> l) \/
  exists snap, snap ∈ l /\ sp_ID snap = id /\ foldl writeOne files l !! id = Some (mkSessionFile snap "").
Proof.
  induction l as [|snap l IH] using rev_ind; simpl; [left; set_solver|].
  rewrite foldl_snoc, fmap_app. unfold writeOne at 1 3. destruct (decide (sp_ID snap = id)) as [<-|Hne].
  - right. exists snap. rewrite lookup_insert_eq. set_solver.
  - rewrite lookup_insert_ne by done. destruct IH as [[IH1 IH2]|(snap' & Hin & Hid & IH)]; [left|right].
    + set_solver.
    + exists snap'. set_solver.
Qed.

Lemma base_saved sess :
  file_messages (mkSessionFile (snapshotSession sess) "") =
  snapshotToFrameMessage <$> (frameMessageToSnapshot <$> messages_of sess).
Proof. unfold file_messages, messages_of. simpl. by destruct (ss_FrameMessaging sess). Qed.

(** What a save makes of the file of a live session. *)
Lemma persist_base out r sid sess :
  keyed (rt_State r) -> st_Sessions (rt_State r) !! sid = Some sess -> Ended sess = false ->
  let saved := snapshotToFrameMessage <$> (frameMessageToSnapshot <$> messages_of sess) in
  (base_of (persistSessions out r) sid = base_of r sid \/ base_of (persistSessions out r) sid = saved) /\
  ((length (snapshotSessions (rt_State r)) <= out_saved out)%nat -> base_of (persistSessions out r) sid = saved).
Proof.
  intros Hk Hs He saved. unfold base_of. simpl.
  destruct (writeOne_lookup (take (out_saved out) (snapshotSessions (rt_State r))) (rt_Files r) sid)
    as [[-> Hn]|(snap & Hin & Hid & ->)].
  - split; [by left|]. intros Hle. exfalso. apply Hn. rewrite take_ge by done.
    apply list_elem_of_fmap. exists (snapshotSession sess). split; [by rewrite <- (Hk _ _ Hs)|].
    apply elem_of_snapshots. by exists sid, sess.
  - assert (snap ∈ snapshotSessions (rt_State r)) as Hi.
    { rewrite <- (take_drop (out_saved out) (snapshotSessions _)). by apply elem_of_app; left. }
    apply elem_of_snapshots in Hi as (sid' & sess' & Hs' & He' & ->). simpl in Hid.
    rewrite (Hk _ _ Hs') in Hid. subst sid'. assert (sess' = sess) as -> by congruence.
    simpl. rewrite base_saved. auto.
Qed.

Lemma persist_files out r :
  (forall id file, rt_Files r !! id = Some file -> sp_ID (sf_Snapshot file) = id) ->
  forall id file, rt_Files (persistSessions out r) !! id = Some file -> sp_ID (sf_Snapshot file) = id.
Proof.
  intros Hf id file. simpl.
  destruct (writeOne_lookup (take (out_saved out) (snapshotSessions (rt_State r))) (rt_Files r) id)
    as [[-> _]|(snap & _ & Hid & ->)]; [apply Hf|]. by intros [= <-].
Qed.

Lemma persist_ok out r : stores_ok r -> stores_ok (persistSessions out r).
Proof.
  intros [Hk Hf Hw Hs]. split; [done|by apply persist_files|done|]. intros sid sess Hs' He.
  destruct (Hs sid sess Hs' He) as [Hr Hsum]. split; [|done].
  destruct (persist_base out r sid sess Hk Hs' He) as [[-> | ->] _]; [done|].
  eapply recoverable_saved; [done|apply Hr|apply extends_refl, durable_wf, Hr].
Qed.

(** ** Replacing the messages of a session *)

Definition set_messaging sess (fm : SessionFrameMessaging) : Session := sess <| ss_FrameMessaging := Some fm |>.

Definition put_session r (sid : SessionID) sess : MessagingRuntime :=
  r <| rt_State := rt_State r <| st_Sessions := <[sid := sess]> (st_Sessions (rt_State r)) |> |>.

Lemma put_ok r r' sid sess fm :
  stores_ok r -> st_Sessions (rt_State r) !! sid = Some sess ->
  rt_State r' = rt_State (put_session r sid (set_messaging sess fm)) -> rt_Files r' = rt_Files r ->
  (forall sid j, rt_Journals r' !! sid = Some j -> jo_rest j = "") ->
  (forall sid', sid' <> sid -> lines_of r' sid' = lines_of r sid') ->
  (Ended sess = false -> recoverable (lines_of r' sid) (base_of r sid) (ms_Messages fm) /\
     ms_Summary fm = computeFrameMessagingSummary (ms_Messages fm)) -> stores_ok r'.
Proof.
  intros [Hk Hf Hw Hs] Hsess Hst Hfs Hw' Hl Hrec. split.
  - rewrite Hst. intros sid' sess'. simpl. destruct (decide (sid = sid')) as [<-|Hne].
    + rewrite lookup_insert_eq. intros [= <-]. by apply (Hk sid sess).
    + rewrite lookup_insert_ne by done. apply Hk.
  - by rewrite Hfs.
  - done.
  - rewrite Hst. intros sid' sess'. simpl. destruct (decide (sid = sid')) as [<-|Hne].
    + rewrite lookup_insert_eq. intros [= <-] He. unfold base_of. rewrite Hfs. destruct (Hrec He) as [Hrv Hsum].
      split; [done|]. by intros fm' [= <-].
    + rewrite lookup_insert_ne by done. intros Hs' He. unfold base_of. rewrite Hfs, Hl by done.
      by apply Hs.
Qed.

(** A record is journaled, and its effect committed. *)
Lemma commit_ok out r r' sid sess fm rec :
  stores_ok r -> st_Sessions (rt_State r) !! sid = Some sess ->
  rt_State r' = rt_State r -> rt_Files r' = rt_Files r ->
  rt_Journals r' = <[sid := mkJournal (lines_of r sid ++ [encode_record rec]) ""]> (rt_Journals r) ->
  (Ended sess = false ->
     recoverable (lines_of r sid ++ [encode_record rec]) (base_of r sid) (ms_Messages fm) /\
     ms_Summary fm = computeFrameMessagingSummary (ms_Messages fm)) ->
  stores_ok (commitFrameMessagingSession out r' sid (set_messaging sess fm)).
Proof.
  intros Hok Hs Hst Hf Hj Hrec. unfold commitFrameMessagingSession. apply persist_ok.
  eapply (put_ok r _ sid sess fm); [done|done|simpl; by rewrite Hst|done|..].
  - intros sid' j. simpl. rewrite Hj, lookup_insert_Some. intros [[_ <-]|[_ Hj']]; [done|].
    by apply (so_whole _ Hok sid').
  - intros sid' Hne. unfold lines_of. simpl. by rewrite Hj, lookup_insert_ne.
  - intros He. unfold lines_of at 1. simpl. rewrite Hj, lookup_insert_eq. by apply Hrec.
Qed.

(** An append that fails leaves no part of its line. *)
Definition untorn (out : Outside) : Prop := forall err n, out_append out = WriteFailed err n -> n = O.

Lemma append_failed out r sid rec r' err :
  stores_ok r -> untorn out -> appendFrameMessagingRecord out r sid rec = (r', Some err) ->
  rt_State r' = rt_State r /\ rt_Files r' = rt_Files r /\
  (forall sid, lines_of r' sid = lines_of r sid) /\
  (forall sid j, rt_Journals r' !! sid = Some j -> jo_rest j = "").
Proof.
  intros [_ _ Hw _] Hu. unfold appendFrameMessagingRecord, appendJSONL.
  destruct (out_append out) as [|e|e n] eqn:Ho; intros [= <- <-]; simpl.
  - rewrite partial_alter_self. by unfold lines_of.
  - rewrite (Hu _ _ Ho). split; [done|]. split; [done|]. unfold lines_of. simpl.
    assert (forall line, String.substring 0 0 line = "") as Hz by (by intros []).
    rewrite Hz, str_app_nil_r. split.
    + intros sid'. destruct (decide (sid = sid')) as [<-|Hne]; [|by rewrite lookup_partial_alter_ne].
      rewrite lookup_partial_alter_eq. by destruct (rt_Journals r !! sid).
    + intros sid' j. destruct (decide (sid = sid')) as [<-|Hne]; [|rewrite lookup_partial_alter_ne by done; apply Hw].
      rewrite lookup_partial_alter_eq. intros [= <-]. simpl.
      destruct (rt_Journals r !! sid) as [j|] eqn:Hj; [by apply (Hw sid)|done].
Qed.

Lemma append_failed_ok out r sid rec r' err :
  stores_ok r -> untorn out -> appendFrameMessagingRecord out r sid rec = (r', Some err) -> stores_ok r'.
Proof.
  intros Hok Hu Ha. destruct (append_failed _ _ _ _ _ _ Hok Hu Ha) as (Hst & Hf & Hl & Hw).
  destruct Hok as [Hk Hfs _ Hs]. split; [by rewrite Hst|by rewrite Hf|done|].
  intros sid' sess. unfold base_of. rewrite Hst, Hf, Hl. apply Hs.
Qed.

Lemma appended_journal r sid line : stores_ok r ->
  appendJSONL Appended (rt_Journals r !! sid) line = (Some (mkJournal (lines_of r sid ++ [line]) ""), None).
Proof.
  intros [_ _ Hw _]. unfold appendJSONL, lines_of.
  destruct (rt_Journals r !! sid) as [j|] eqn:Hj; simpl; [|done]. by rewrite (Hw _ _ Hj).
Qed.

Lemma append_None out r sid rec r' :
  appendFrameMessagingRecord out r sid rec = (r', None) -> out_append out = Appended.
Proof. unfold appendFrameMessagingRecord, appendJSONL. by destruct (out_append out). Qed.

Lemma append_done out r sid rec r' :
  stores_ok r -> appendFrameMessagingRecord out r sid rec = (r', None) ->
  r' = r <| rt_Journals := <[sid := mkJournal (lines_of r sid ++ [encode_record rec]) ""]> (rt_Journals r) |>.
Proof.
  intros Hok Ha. pose proof (append_None _ _ _ _ _ Ha) as Ho. unfold appendFrameMessagingRecord in Ha.
  rewrite Ho, appended_journal in Ha by done. by injection Ha as <-.
Qed.

Lemma audit_ok r sid a : stores_ok r -> stores_ok (appendFrameMessagingAudit r sid a).
Proof. intros [Hk Hf Hw Hs]. by split. Qed.

Lemma source_session s frameID sid sess :
  frameSessionForSource s frameID = inr (sid, sess) ->
  st_Sessions s !! sid = Some sess /\ exists frame, frameByID sess frameID = Some frame.
Proof.
  unfold frameSessionForSource. destruct (range_find _ _) as [[[sid' sess'] frame]|] eqn:Hf; [|done].
  destruct (isAgentFrame frame); [|done]. intros [= <- <-].
  apply range_find_Some in Hf as (k & v & Hk & Hv). destruct (frameByID v frameID) as [f|] eqn:Hfr; [|done].
  simplify_eq/=. eauto.
Qed.

(** ** The operations keep the invariant *)

(** Every reading of the clock can be written. *)
Definition timely (out : Outside) : Prop := forall n, storable_time (out_now out n).

(** The id drawn from the clock is not taken in any session. *)
Definition fresh_id r (out : Outside) : Prop :=
  forall sid sess, st_Sessions (rt_State r) !! sid = Some sess ->
    allocFrameMessageID "msg" (out_now out 1) ∉ fm_ID <$> messages_of sess.

Lemma newMessage_wf out source target topic body priority :
  timely out -> source <> target -> message_wf (newMessage out source target topic body priority).
Proof. intros Ht Hne. split; try done. split; [apply Ht|done]. Qed.

Lemma send_ok out r source target topic body priority :
  stores_ok r -> untorn out -> timely out -> fresh_id r out ->
  journaled (sentRecord (newMessage out source target topic body priority)) ->
  stores_ok (frameMessagingSend out r source target topic body priority).1.
Proof.
  intros Hok Hu Ht Hfresh Hj. unfold frameMessagingSend.
  destruct (frameSessionForSource _ _) as [|[sid sess]] eqn:Hsrc; [done|]. cbv zeta.
  apply source_session in Hsrc as [Hs _]. case_bool_decide; [by apply audit_ok|].
  destruct (frameByID sess target) as [tframe|].
  2: { destruct (findFrameSession _ _) as [[other _]|]; [destruct (negb _)|]; by apply audit_ok. }
  case_bool_decide as Hself; [by apply audit_ok|]. destruct (negb (isAgentFrame _)); [by apply audit_ok|].
  destruct (appendFrameMessagingRecord _ _ _ _) as [r1 [err|]] eqn:Ha; [by eapply append_failed_ok|].
  apply append_done in Ha as ->; [|done]. simpl.
  eapply (commit_ok _ r); try done. intros He. split; [|done].
  destruct (so_sessions _ Hok sid sess Hs He) as [Hrv _].
  apply recoverable_send; try done; [|by apply Hfresh with sid]. apply newMessage_wf; [done|congruence].
Qed.

Lemma reply_ok out r source messageID body finalAnswer resolution confidence :
  stores_ok r -> untorn out -> timely out -> (resolution = "" \/ TrimSpace resolution <> "") ->
  journaled (replyRecord messageID (newReply out source body finalAnswer resolution confidence)) ->
  stores_ok (frameMessagingReply out r source messageID body finalAnswer resolution confidence).1.
Proof.
  intros Hok Hu Ht Hres Hj. unfold frameMessagingReply.
  destruct (frameSessionForSource _ _) as [|[sid sess]] eqn:Hsrc; [done|]. cbv zeta.
  apply source_session in Hsrc as [Hs _]. destruct (ss_FrameMessaging sess) as [fm|] eqn:Hfm; [|by apply audit_ok].
  destruct (_ ≫= _) as [[found msg]|] eqn:Hfound; [|by apply audit_ok].
  destruct (find_message messageID (ms_Messages fm)) as [i|] eqn:Hf; [|done].
  simpl in Hfound. destruct (ms_Messages fm !! i) as [m|] eqn:Hi; [|done]. simplify_eq/=.
  case_bool_decide as Htgt; simpl; [|by apply audit_ok].
  destruct (rejectInvalidFrameReply _ _ _ _) as [[reason err]|] eqn:Hrej; [by apply audit_ok|].
  destruct (appendFrameMessagingRecord _ _ _ _) as [r1 [err|]] eqn:Ha; [by eapply append_failed_ok|].
  apply append_done in Ha as ->; [|done]. simpl.
  eapply (commit_ok _ r); try done. intros He. split; [|done].
  destruct (so_sessions _ Hok sid sess Hs He) as [Hrv _].
  unfold messages_of in Hrv. rewrite Hfm in Hrv. simpl in Hrv.
  eapply recoverable_reply; try done; [| |apply Ht].
  - rewrite <- (find_message_id _ _ _ _ Hf Hi).
    apply (proj1 (Forall_forall _ _) (mws_all _ (rv_wf _ _ _ Hrv))). by eapply list_elem_of_lookup_2.
  - unfold rejectInvalidFrameReply in Hrej. case_bool_decide as Hsome; [done|]. by apply eq_None_not_Some.
Qed.

(** The ids [frameMessagingRead] journals. *)
Definition newly_ids (source peer : FrameID) (l : messages) : list string :=
  fm_ID <$> filter (fun m => newly source peer m = true) l.

Lemma read_ok out r source peer :
  stores_ok r -> untorn out ->
  (forall sid sess, frameSessionForSource (rt_State r) source = inr (sid, sess) ->
     journaled (readRecord (out_now out 0) (newly_ids source peer (messages_of sess)))) ->
  stores_ok (frameMessagingRead out r source peer).1.
Proof.
  intros Hok Hu Hj. unfold frameMessagingRead.
  destruct (frameSessionForSource _ _) as [|[sid sess]] eqn:Hsrc; [done|]. specialize (Hj _ _ eq_refl).
  apply source_session in Hsrc as [Hs _]. destruct (_ && _); [done|].
  destruct (ss_FrameMessaging sess) as [fm|] eqn:Hfm; [|done]. cbv zeta.
  case_bool_decide as Hids; [by apply audit_ok|].
  destruct (appendFrameMessagingRecord _ _ _ _) as [r1 [err|]] eqn:Ha; [by eapply append_failed_ok|].
  apply append_done in Ha as ->; [|done]. simpl. apply audit_ok.
  eapply (commit_ok _ r); try done. intros He. split; [|done].
  destruct (so_sessions _ Hok sid sess Hs He) as [Hrv _].
  unfold messages_of in Hrv, Hj. rewrite Hfm in Hrv, Hj. simpl in *.
  rewrite <- mark_read_filter by apply Hrv. apply recoverable_read; try done.
  intros id (m & -> & [_ Hm]%list_elem_of_filter)%list_elem_of_fmap. by apply list_elem_of_fmap_2.
Qed.
(** The client's read: the reducer's change, then the save, then the journal. *)
Lemma markRead_marks fm last next : NoDup (fm_ID <$> ms_Messages fm) ->
  ms_Summary fm = computeFrameMessagingSummary (ms_Messages fm) ->
  markSessionMessagesReadThroughID fm last = Some next ->
  ms_Messages next = mark_read (newly_read (ms_Messages fm) (ms_Messages next)) <$> ms_Messages fm /\
  ms_Summary next = computeFrameMessagingSummary (ms_Messages next) /\
  forall id, id ∈ newly_read (ms_Messages fm) (ms_Messages next) -> id ∈ fm_ID <$> ms_Messages fm.
Proof.
  intros Hn Hsum. unfold markSessionMessagesReadThroughID. case_bool_decide; [done|].
  destruct (find_message last (ms_Messages fm)) as [b|]; [|done]. simpl. cbv zeta.
  destruct (_ && _); [done|]. intros [= <-]. cbn [ms_Messages ms_Summary].
  change (fun m => m <| fm_Read := true |>) with set_read.
  set (l := ms_Messages fm) in *. set (t := take (S b) l). set (d := drop (S b) l).
  assert (l = t ++ d) as Hl by (symmetry; apply take_drop). rewrite Hl in Hn.
  split_and!.
  - rewrite Hl at 1 2. by rewrite mark_read_through.
  - rewrite Hsum, computeSummary_read, (computeSummary_read (_ ++ _)), Hl.
    rewrite !fmap_app, <- list_fmap_compose. done.
  - intros id. rewrite Hl at 1. rewrite newly_read_through.
    intros (m & -> & [_ Hm]%list_elem_of_filter)%list_elem_of_fmap.
    apply list_elem_of_fmap_2. rewrite Hl. set_solver.
Qed.

(** A change the journal did not get is safe when the save reached the session. *)
Lemma save_put_ok out r sid sess fm :
  stores_ok r -> st_Sessions (rt_State r) !! sid = Some sess ->
  (length (snapshotSessions (rt_State (put_session r sid (set_messaging sess fm)))) <= out_saved out)%nat ->
  (Ended sess = false -> messages_wf (ms_Messages fm) /\
     extends (durable_message <$> messages_of sess) (durable_message <$> ms_Messages fm) /\
     ms_Summary fm = computeFrameMessagingSummary (ms_Messages fm)) ->
  stores_ok (persistSessions out (put_session r sid (set_messaging sess fm))).
Proof.
  intros [Hk Hf Hw Hss] Hs Hle Hgood. set (r1 := put_session _ _ _) in *.
  assert (keyed (rt_State r1)) as Hk1.
  { intros sid' sess'. simpl. destruct (decide (sid = sid')) as [<-|Hne].
    - rewrite lookup_insert_eq. intros [= <-]. by apply (Hk sid sess).
    - rewrite lookup_insert_ne by done. apply Hk. }
  split; [done|by apply persist_files|done|]. intros sid' sess' Hs' Hend.
  destruct (persist_base out r1 sid' sess' Hk1 Hs' Hend) as [Hb Hfull]. specialize (Hfull Hle).
  rewrite Hfull. simpl in Hs'. destruct (decide (sid = sid')) as [<-|Hne].
  - rewrite lookup_insert_eq in Hs'. injection Hs' as <-. destruct (Hgood Hend) as (Hwf & He & Hsum).
    split; [|by intros fm' [= <-]]. destruct (Hss sid sess Hs Hend) as [Hrv _]. by eapply recoverable_saved.
  - rewrite lookup_insert_ne in Hs' by done. destruct (Hss sid' sess' Hs' Hend) as [Hrv Hsum'].
    split; [|done]. eapply recoverable_saved; [done|apply Hrv|apply extends_refl, durable_wf, Hrv].
Qed.

Lemma web_ok out r connID reqID sid last :
  stores_ok r -> untorn out ->
  (forall ids, EffFrameMessagingPersistRead sid ids
                 ∈ (reduceReadSessionMessages (rt_State r) connID reqID sid last).2 ->
     journaled (readRecord (out_now out 0) ids)) ->
  (out_append out = Appended \/ (length (snapshotSessions
     (reduceReadSessionMessages (rt_State r) connID reqID sid last).1) <= out_saved out)%nat) ->
  stores_ok (readSessionMessages out r connID reqID sid last).
Proof.
  intros Hok Hu Hj Hw. unfold readSessionMessages, reduceReadSessionMessages in *.
  case_bool_decide; [by destruct r|]. destruct (st_Sessions (rt_State r) !! sid) as [sess|] eqn:Hs; [|by destruct r].
  destruct (ss_FrameMessaging sess) as [fm|] eqn:Hfm; [|by destruct r].
  destruct (markSessionMessagesReadThroughID fm last) as [next|] eqn:Hm; [|by destruct r].
  cbv zeta in *. set (ids := newly_read (ms_Messages fm) (ms_Messages next)) in *. cbn [fst snd] in *.
  change (sess <| ss_FrameMessaging := Some next |>) with (set_messaging sess next) in *.
  assert (Ended sess = false -> recoverable (lines_of r sid) (base_of r sid) (ms_Messages fm) /\
    ms_Messages next = mark_read ids <$> ms_Messages fm /\
    ms_Summary next = computeFrameMessagingSummary (ms_Messages next) /\
    forall id, id ∈ ids -> id ∈ fm_ID <$> ms_Messages fm) as Hgood.
  { intros He. destruct (so_sessions _ Hok sid sess Hs He) as [Hrv Hsum]. specialize (Hsum fm Hfm).
    unfold messages_of in Hrv. rewrite Hfm in Hrv. split; [done|].
    by apply (markRead_marks fm last); [apply Hrv|..]. }
  case_bool_decide as Hl; simpl.
  - apply persist_ok. eapply (put_ok r _ sid sess next); try done; [apply (so_whole _ Hok)|]. intros He.
    destruct (Hgood He) as (Hrv & Hmsgs & Hsum & _). split; [|done].
    rewrite Hmsgs. apply nil_length_inv in Hl. rewrite Hl, mark_read_same; [done|set_solver].
  - rewrite bool_decide_eq_false_2 by (by intros Hn; rewrite Hn in Hl).
    destruct (appendFrameMessagingRecord _ _ _ _) as [r1 err] eqn:Ha.
    destruct err as [err|].
    + destruct Hw as [Hw|Hw]; [unfold appendFrameMessagingRecord in Ha; by rewrite Hw in Ha|].
      eapply append_failed_ok; [|done|exact Ha]. apply save_put_ok; [done..|]. intros He.
      destruct (Hgood He) as (Hrv & Hmsgs & Hsum & _). unfold messages_of. rewrite Hfm, Hmsgs. simpl.
      rewrite durable_mark_read. split_and!; [by apply read_wf, Hrv| |by rewrite <- Hmsgs].
      apply read_extends, durable_wf, Hrv.
    + pose proof (append_None _ _ _ _ _ Ha) as Ho. unfold appendFrameMessagingRecord in Ha.
      change (rt_Journals (persistSessions _ _)) with (rt_Journals r) in Ha.
      rewrite Ho, appended_journal in Ha by done. injection Ha as <-.
      change (stores_ok (commitFrameMessagingSession out (r <| rt_Journals := <[sid := mkJournal
        (lines_of r sid ++ [encode_record (readRecord (out_now out 0) ids)]) ""]> (rt_Journals r) |>)
        sid (set_messaging sess next))).
      eapply (commit_ok _ r); try done. intros He. destruct (Hgood He) as (Hrv & Hmsgs & Hsum & Hin).
      split; [|done]. rewrite Hmsgs. apply recoverable_read; [done..| |].
      * intros Hn. by rewrite Hn in Hl.
      * apply Hj. set_solver.
Qed.

(** ** Runs *)

(** Everything else the runtime does leaves the messages of live sessions alone; a
    session that is new has none, and nothing on disk. *)
Definition kept r (s' : State) : Prop :=
  keyed s' /\
  forall sid sess', st_Sessions s' !! sid = Some sess' -> Ended sess' = false ->
    (exists sess, st_Sessions (rt_State r) !! sid = Some sess /\ Ended sess = false /\
       ss_FrameMessaging sess' = ss_FrameMessaging sess) \/
    (st_Sessions (rt_State r) !! sid = None /\ rt_Journals r !! sid = None /\ rt_Files r !! sid = None /\
     ss_FrameMessaging sess' = None).

(** A step: an operation, with the conditions under which its record is read back as it
    was written; a save; anything else; the removal of a session that is over. *)
Inductive msg_step r : MessagingRuntime -> Prop :=
| step_send out source target topic body priority :
    untorn out -> timely out -> fresh_id r out ->
    journaled (sentRecord (newMessage out source target topic body priority)) ->
    msg_step r (frameMessagingSend out r source target topic body priority).1
| step_reply out source messageID body finalAnswer resolution confidence :
    untorn out -> timely out -> (resolution = "" \/ TrimSpace resolution <> "") ->
    journaled (replyRecord messageID (newReply out source body finalAnswer resolution confidence)) ->
    msg_step r (frameMessagingReply out r source messageID body finalAnswer resolution confidence).1
| step_read out source peer :
    untorn out ->
    (forall sid sess, frameSessionForSource (rt_State r) source = inr (sid, sess) ->
       journaled (readRecord (out_now out 0) (newly_ids source peer (messages_of sess)))) ->
    msg_step r (frameMessagingRead out r source peer).1
| step_web out connID reqID sid last :
    untorn out ->
    (forall ids, EffFrameMessagingPersistRead sid ids
                   ∈ (reduceReadSessionMessages (rt_State r) connID reqID sid last).2 ->
       journaled (readRecord (out_now out 0) ids)) ->
    (out_append out = Appended \/ (length (snapshotSessions
       (reduceReadSessionMessages (rt_State r) connID reqID sid last).1) <= out_saved out)%nat) ->
    msg_step r (readSessionMessages out r connID reqID sid last)
| step_save out : msg_step r (persistSessions out r)
| step_other s' : kept r s' -> msg_step r (r <| rt_State := s' |>)
| step_forget sid :
    (forall sess, st_Sessions (rt_State r) !! sid = Some sess -> Ended sess = true) ->
    msg_step r (deleteFrameMessagingSession r sid <| rt_Files := Delete (rt_Files r) sid |>).

Inductive msg_run r0 : MessagingRuntime -> Prop :=
| run_start : msg_run r0 r0
| run_step r r' : msg_run r0 r -> msg_step r r' -> msg_run r0 r'.

(** A runtime that has no messages yet. *)
Record no_messages r : Prop := {
  nm_keyed : keyed (rt_State r);
  nm_sessions : forall sid sess, st_Sessions (rt_State r) !! sid = Some sess -> ss_FrameMessaging sess = None;
  nm_journals : rt_Journals r = ∅;
  nm_files : rt_Files r = ∅ }.

Lemma no_messages_ok r : no_messages r -> stores_ok r.
Proof.
  intros [Hk Hs Hj Hf]. split; [done|by rewrite Hf|by rewrite Hj|]. intros sid sess Hsess He.
  unfold lines_of, base_of, messages_of, summary_ok. rewrite Hj, Hf, (Hs _ _ Hsess), !lookup_empty. simpl.
  split; [apply recoverable_start|done].
Qed.

Lemma other_ok r s' : stores_ok r -> kept r s' -> stores_ok (r <| rt_State := s' |>).
Proof.
  intros [Hk Hf Hw Hs] [Hk' Hkept]. split; [done..|]. intros sid sess' Hs' He.
  destruct (Hkept sid sess' Hs' He) as [(sess & Hsess & He' & Hm)|(_ & Hj & Hfile & Hm)].
  - destruct (Hs sid sess Hsess He') as [Hrv Hsum]. unfold messages_of, summary_ok. by rewrite Hm.
  - unfold lines_of, base_of, messages_of, summary_ok. simpl. rewrite Hj, Hfile, Hm. simpl.
    split; [apply recoverable_start|done].
Qed.

Lemma forget_ok r sid : stores_ok r ->
  (forall sess, st_Sessions (rt_State r) !! sid = Some sess -> Ended sess = true) ->
  stores_ok (deleteFrameMessagingSession r sid <| rt_Files := Delete (rt_Files r) sid |>).
Proof.
  intros [Hk Hf Hw Hs] Hend. split; [done|..].
  - intros id file. simpl. unfold Delete. case_bool_decide; [apply Hf|].
    intros [_ Hfile]%lookup_delete_Some. by apply Hf.
  - intros id j. simpl. intros [_ Hj]%lookup_delete_Some. by apply (Hw id).
  - intros sid' sess Hsess He. destruct (decide (sid = sid')) as [<-|Hne].
    { by rewrite (Hend _ Hsess) in He. }
    unfold lines_of, base_of. simpl. rewrite lookup_delete_ne by done.
    assert (Delete (rt_Files r) sid !! sid' = rt_Files r !! sid') as ->
      by (unfold Delete; case_bool_decide; [done|by rewrite lookup_delete_ne]).
    by apply Hs.
Qed.

Lemma run_ok r0 r : no_messages r0 -> msg_run r0 r -> stores_ok r.
Proof.
  intros H0 Hrun. induction Hrun as [|r r' Hrun IH Hstep]; [by apply no_messages_ok|].
  destruct Hstep; eauto using send_ok, reply_ok, read_ok, web_ok, persist_ok, other_ok, forget_ok.
Qed.

(** ** After a crash *)

Definition journal_file r (sid : SessionID) : JournalFile :=
  match rt_Journals r !! sid with Some j => Lines (scanned j) | None => NoFile end.

Lemma foldl_insert_elem {A V} (key : V -> string) (f : A -> option V) (l : list A) (m : gmap string V) id v :
  foldl (fun m a => match f a with Some v => <[key v := v]> m | None => m end) m l !! id = Some v ->
  m !! id = Some v \/ exists a, a ∈ l /\ f a = Some v /\ key v = id.
Proof.
  revert m. induction l as [|a l IH]; intros m; simpl; [by left|]. intros [Hm|(b & Hb & Hf)]%IH.
  - destruct (f a) as [w|] eqn:Hw; [|by left]. apply lookup_insert_Some in Hm as [[<- ->]|[_ Hm]]; [|by left].
    right. exists a. set_solver.
  - right. exists b. set_solver.
Qed.

(** A session that is loaded comes from its file. *)
Lemma loaded_from_file coldStart now r sid sess1 :
  (forall id file, rt_Files r !! id = Some file -> sp_ID (sf_Snapshot file) = id) ->
  loadSessions coldStart now ∅ (Load (rt_Files r)) !! sid = Some sess1 ->
  messages_of sess1 = filter (fun m => message_live (liveFrameSet (ss_Frames sess1)) m = true) (base_of r sid) /\
  summary_ok sess1.
Proof.
  intros Hk [Hm|(snap & Hin & Hr & Hid)]%foldl_insert_elem; [by rewrite lookup_empty in Hm|].
  unfold Load in Hin. apply list_elem_of_fmap in Hin as ([id file] & -> & Hfile%elem_of_map_to_list).
  simpl in Hr. set (snap := if bool_decide _ then _ else _) in Hr.
  assert (sp_ID snap = id) as Hsid by (subst snap; case_bool_decide; apply (Hk _ _ Hfile)).
  assert (sp_FrameMessaging snap = sp_FrameMessaging (sf_Snapshot file)) as Hfm
    by (subst snap; by case_bool_decide).
  clearbody snap. unfold restoreSession in Hr. cbv zeta in Hr.
  destruct (head _) as [root|]; [|done]. simpl in Hr. injection Hr as <-. simpl in Hid.
  assert (id = sid) as -> by congruence.
  unfold messages_of, summary_ok, base_of, file_messages. rewrite Hfile. simpl. rewrite Hfm.
  destruct (sp_FrameMessaging (sf_Snapshot file)) as [m|]; simpl; [|done].
  split; [done|]. by intros fm [= <-].
Qed.

(** C3: Frame messages survive a crash.  Take any run of the messaging operations, with
    journal appends and saves that may fail, interleaved with anything else that leaves
    the messages alone, and stop it anywhere.  A session that had not ended and is
    loaded again, cold or warm, has all its messages, in their order, with their replies
    and read marks and the times to the second, except those of frames that did not
    come back; and its summary is that of its messages.

    The run ([msg_step]) meets these conditions.  An append that fails
    leaves no part of its line in the journal ([untorn]: otherwise the whole journal is
    refused, see [torn_line_loses_journal]).  A line is read back as the record that was
    written, for which it has to fit in the scanner's 1 MiB ([journaled], see
    [oversize_line_loses_journal]).  The resolution of a reply is empty or has a character
    that is not white space ([blank_resolution_replays_otherwise]).  Clock readings have a
    year that RFC 3339 can write, and the id a send draws from the clock is not taken.  A
    read in the web client gets its journal line or a save that reaches every session. *)
Theorem messages_survive_crash r0 r coldStart now sid sess sess' :
  no_messages r0 -> msg_run r0 r ->
  st_Sessions (rt_State r) !! sid = Some sess -> Ended sess = false ->
  st_Sessions (LoadSnapshot coldStart now (journal_file r) (rt_Files r) New) !! sid = Some sess' ->
  messages_of sess' = filter (fun m => message_live (liveFrameSet (ss_Frames sess')) m = true)
                        (durable_message <$> messages_of sess) /\
  summary_ok sess'.
Proof.
  intros H0 Hrun Hs He. apply run_ok in Hrun as [Hk Hf Hw Hss]; [|done].
  destruct (Hss sid sess Hs He) as [[_ (recs & Hl & _ & Hc)] _].
  unfold LoadSnapshot. simpl. unfold restoreFrameMessagingStores. rewrite map_lookup_imap.
  destruct (loadSessions _ _ _ _ !! sid) as [sess1|] eqn:Hload; [|done]. simpl.
  apply loaded_from_file in Hload as [Hm1 Hsum1]; [|done]. intros [= <-].
  unfold journal_file, lines_of in *. destruct (rt_Journals r !! sid) as [j|] eqn:Hj; simpl in *.
  - unfold scanned. rewrite (Hw _ _ Hj), bool_decide_eq_true_2, app_nil_r, Hl by done. simpl. unfold messages_of at 1, summary_ok. simpl.
    fold (messages_of sess1). rewrite Hm1. split; [apply Hc|]. by intros fm [= <-].
  - injection Hl as <-. simpl in Hc. specialize (Hc (liveFrameSet (ss_Frames sess1))).
    rewrite <- Hm1 in Hc. apply cv_live in Hc. destruct (ss_FrameMessaging sess1) as [m|] eqn:Hm.
    + unfold messages_of at 1, summary_ok. simpl. unfold messages_of in Hc at 1. rewrite Hm in Hc. simpl in Hc.
      split; [exact Hc|]. by intros fm [= <-].
    + split; [|done]. rewrite <- Hc, Hm1. symmetry. by apply list_filter_filter_l.
Qed.

End Run.

(** * host/runtime: frame messaging on concrete inputs

    Two agents exchange a message and its reply; the save after the reply fails, and the
    daemon is started again.  Three further stories show where the journal does not give
    back what was in memory. *)

Module MessagingDemo.
Import HostDemo.

#[local] Instance agents : DriverSys :=
  {| driverRegistry := {["claude" := shell_driver; "codex" := shell_driver]}; defaultFactory := None |}.

(** The clock of the [k]-th operation; [saved] sessions reach the disk. *)
Definition at_ (k : Z) (saved : nat) : Outside :=
  mkOutside (fun _ => (2000000000 + k) * Second + 5) Appended saved.

Definition frame (id command : string) : SessionFrame :=
  mkFrame id id id "/work" command zero_options (2000000000 * Second) (Some "new").

Definition session : Session :=
  mkSession "s" "/work" (2000000000 * Second) [frame "a" "claude"; frame "b" "codex"] "a" [] "claude"
    zero_options (Some "new") None 0 None None.

Definition start : MessagingRuntime := mkRuntime (New <| st_Sessions := {["s" := session]} |>) ∅ ∅ ∅.

Definition question : FrameMessage := newMessage (at_ 1 9) "a" "b" "review" "is it done?" "".
Definition answer (resolution : string) : FrameReply := newReply (at_ 2 0) "b" "" "yes" resolution "".

(** A codec that knows the records of the story. *)
Definition table (resolution : string) : JournalCodec := {|
  encode_record := fun rec => if decide (rec = sentRecord question) then "1" else "2";
  decode_record := fun line =>
    if decide (line = "1") then Some (sentRecord question)
    else Some (replyRecord (fm_ID question) (answer resolution)) |}.

Definition asked (resolution : string) : MessagingRuntime :=
  (frameMessagingSend (JC := table resolution) (at_ 1 9) start "a" "b" "review" "is it done?" "").1.

Definition answered_ (resolution : string) : MessagingRuntime :=
  (frameMessagingReply (JC := table resolution) (at_ 2 0) (asked resolution) "b" (fm_ID question) "" "yes"
     resolution "").1.

(** The reply is only in the journal, the message also in the snapshot. *)
Definition restarted (resolution : string) : Session :=
  default session (st_Sessions (LoadSnapshot (JC := table resolution) true 7
    (journal_file (answered_ resolution)) (rt_Files (answered_ resolution)) New) !! "s").

Lemma start_sessions sid sess : st_Sessions (rt_State start) !! sid = Some sess -> sid = "s" /\ sess = session.
Proof.
  change (st_Sessions (rt_State start)) with ({["s" := session]} : gmap SessionID Session).
  by intros [<- <-]%lookup_singleton_Some.
Qed.

Lemma messages_survive_crash_witness :
  messages_of (restarted "") = [durable_message (answered (answer "") question)] /\
  summary_ok (restarted "").
Proof.
  assert (msg_run (JC := table "") start (answered_ "")) as Hrun.
  { apply (run_step _ (asked "")); [apply (run_step _ start); [constructor|]|].
    - apply step_send; [done|by intros n; vm_compute| |by vm_compute].
      intros sid sess [-> ->]%start_sessions. apply not_elem_of_nil.
    - apply step_reply; [done|by intros n; vm_compute|by left|by vm_compute]. }
  destruct (messages_survive_crash (JC := table "") start (answered_ "") true 7 "s"
    (default session (st_Sessions (rt_State (answered_ "")) !! "s")) (restarted "")) as [Hm Hs].
  - split; [by intros sid sess [-> ->]%start_sessions|
            by intros sid sess [-> ->]%start_sessions|done|done].
  - exact Hrun.
  - vm_compute. reflexivity.
  - vm_compute. reflexivity.
  - vm_compute. reflexivity.
  - split; [|exact Hs]. rewrite Hm. vm_compute. reflexivity.
Defined.

(** A reply whose resolution is a blank: in memory the message is [replied], since
    [firstNonEmpty] trims; replaying the journal takes the blank as it is. *)
Example blank_resolution_replays_otherwise :
  (fm_ReplyStatus <$> messages_of (default session (st_Sessions (rt_State (answered_ " ")) !! "s"))) = ["replied"] /\
  (fm_ReplyStatus <$> messages_of (restarted " ")) = [" "].
Proof. split; vm_compute; reflexivity. Qed.

(** One line longer than the scanner's buffer, and no record of the journal is used. *)
Lemma oversize_line_loses_journal lines long base : scanner_limit <= Z.of_nat (String.length long) ->
  long ∈ lines -> loadFrameMessagingFromJournal (JC := table "") (Lines lines) base = None.
Proof.
  intros Hlong Hin. unfold loadFrameMessagingFromJournal.
  assert (mapM (scan_line (JC := table "")) lines = None) as ->; [|done].
  apply mapM_None. apply Exists_exists. exists long. split; [done|].
  unfold scan_line. destruct (Z.leb_spec (Z.of_nat (String.length long) + 1) scanner_limit); [lia|done].
Qed.

(** A line cut short.  The session is saved without messages, a message is sent that only
    the journal gets, and the disk is full for the next one: after a restart neither is
    there, while the first was acknowledged. *)
#[local] Instance one_line : JournalCodec := {|
  encode_record := fun _ => "line";
  decode_record := fun line => if decide (line = "line") then Some (sentRecord (newMessage (at_ 1 0) "a" "b" "" "x" ""))
                               else None |}.

Definition sent_once : MessagingRuntime :=
  (frameMessagingSend (at_ 1 0) (persistSessions (at_ 0 9) start) "a" "b" "" "x" "").1.

Definition torn : MessagingRuntime :=
  (frameMessagingSend (at_ 2 0 <| out_append := WriteFailed "no space left on device" 2 |>)
     sent_once "a" "b" "" "y" "").1.

Definition loaded (r : MessagingRuntime) : option Session :=
  st_Sessions (LoadSnapshot true 7 (journal_file r) (rt_Files r) New) !! "s".

Example torn_line_loses_journal :
  (length ∘ messages_of <$> loaded sent_once = Some 1%nat) /\
  (length ∘ messages_of <$> st_Sessions (rt_State torn) !! "s" = Some 1%nat) /\
  (length ∘ messages_of <$> loaded torn = Some 0%nat).
Proof. split_and!; vm_compute; reflexivity. Qed.

End MessagingDemo.
