(* ===== verification/RuntimeBuiltin.v ===== *)
(** * The built-in drivers across a restart

    The drivers of host/driver keep the promise RuntimeRestart.v asks of drivers, so the
    daemon as it ships comes back with its sessions. *)

From Stdlib Require Import String.
From S2P Require Import Prelude GoStd GoStrings ShellArgs GoTime HostState HostFrames HostHandlers HostDriverFacts.
From S2P Require Import HostGraph DriverTypes DriverCommon DriverBasic DriverClaude DriverGemini DriverCodex.
From S2P Require Import DriverRegistry DriverFacts DriverPersist RuntimeStore RuntimeSnapshot RuntimeRestart.

Section Builtin.
Context `{GoMapRange} `{DriverEnv} (opts : RegisterOptions).

#[local] Instance shipped : DriverSys := builtin_drivers opts.

(** The states a driver works on. *)
Inductive drives : Driver -> BuiltinState -> Prop :=
| drives_generic d gs : drives (generic_driver d) (DSGeneric gs)
| drives_shell ss : drives (shell_driver opts) (DSShell ss)
| drives_agy a : drives agy_driver (DSAgy a)
| drives_grok gs : drives grok_driver (DSGrok gs)
| drives_claude cs : drives (claude_driver opts) (DSClaude cs)
| drives_codex cs : drives codex_driver (DSCodex cs)
| drives_gemini gs : drives gemini_driver (DSGemini gs).

(** [durable] reads no more of the generic driver than its name. *)
Definition named (drv : Driver) : Generic.GenericDriver := Generic.mkGenericDriver (drv_Name drv) "" 0.

Lemma restore_driven drv s now : drives drv s -> persistable s ->
  drv_Restore drv (drv_Persist drv (Some s)) now = Some (durable (named drv) now s).
Proof.
  intros Hd Hp. pose proof (restore_durable (named drv) now s Hp) as Hr.
  destruct Hd; simpl in *; f_equal; exact Hr.
Qed.

Definition builtin_durable_state (command : string) (now : Time) (ds : DriverState) : DriverState :=
  s ← ds; drv ← GetDriver command; Some (durable (named drv) now s).

Definition builtin_storable (command : string) (ds : DriverState) : Prop :=
  exists drv s, GetDriver command = Some drv /\ ds = Some s /\ drives drv s /\ persistable s.

Lemma builtin_restores command drv ds now :
  GetDriver command = Some drv -> builtin_storable command ds ->
  drv_Restore drv (drv_Persist drv ds) now = builtin_durable_state command now ds.
Proof.
  intros Hd (drv' & s & Hd' & -> & Hdr & Hp). unfold builtin_durable_state. rewrite Hd. simpl.
  assert (drv' = drv) as -> by congruence. by apply restore_driven.
Qed.

Definition builtin_durable : DurableDrivers :=
  {| durable_state := builtin_durable_state; storable_state := builtin_storable;
     restore_persisted := builtin_restores |}.

End Builtin.

(** ** A Claude session saved and loaded *)

Module RestartDemo.
Import DriverDemo.

#[local] Instance demo_sys : DriverSys := builtin_drivers demo_opts.
#[local] Instance demo_durable : DurableDrivers := builtin_durable demo_opts.
#[local] Instance no_codec : JournalCodec := {| encode_record := fun _ => ""; decode_record := fun _ => None |}.

Definition claude : ClaudeState :=
  zero_claude <| cs_Common := new_common StatusRunning (2000000000 * Second + 5) |> <| cs_ClaudeSessionID := "c1" |>.

Definition session : Session :=
  mkSession "s" "/work" (2000000000 * Second) [mkFrame "f" "" "f" "/work" "claude" zero_options
    (2000000000 * Second + 7) (Some (DSClaude claude))] "f" [] "claude" zero_options
    (Some (DSClaude claude)) None 3 None None.

Definition state : State := New <| st_Sessions := {["s" := session]} |>.

Lemma state_wf : graph_wf (graph state).
Proof.
  unfold graph, state. simpl. rewrite map_fmap_singleton. split.
  - intros sid sh [<- <-]%lookup_singleton_Some. split; simpl; [done|set_solver|right; set_solver|].
    split_and!; [constructor|simpl; lia|set_solver].
  - intros f. unfold live. rewrite <- (insert_empty (M := gmap SessionID)).
    rewrite map_sum_insert_new, map_sum_empty by done. unfold shape. simpl. unfold times.
    rewrite filter_cons, filter_nil. case_decide; simpl; lia.
Qed.

Lemma restart_keeps_sessions_witness :
  let saved := (Save ∅ (snapshotSessions state) (length (snapshotSessions state))).1 in
  graph_wf (graph state) /\
  st_Sessions (LoadSnapshot false 9 (fun _ => NoFile) saved New) = durable_sessions 9 state /\
  (ss_FrameGeneration <$> st_Sessions (LoadSnapshot false 9 (fun _ => NoFile) saved New) !! "s") = Some 3.
Proof.
  intros saved. destruct (restart_keeps_sessions state ∅ 9) as [Hs _].
  - apply state_wf.
  - intros id [f Hf]. by rewrite lookup_empty in Hf.
  - intros sid sess Hs _. unfold state in Hs. simpl in Hs. apply lookup_singleton_Some in Hs as [<- <-]. split; [by vm_compute| | |done].
    + intros f ->%list_elem_of_singleton. split; [by vm_compute|].
      assert (GetDriver "claude" = Some (claude_driver demo_opts)) as Hd by apply GetDriver_claude.
      cbn [f_Command f_Driver]. rewrite Hd. split; [by eexists|].
      exists (claude_driver demo_opts), (DSClaude claude). split_and!; [exact Hd|reflexivity|constructor|].
      split; [|exact I]. vm_compute. intuition congruence.
    + done.
  - split; [apply state_wf|]. split; [exact Hs|].
    etrans; [exact (f_equal (fun m => ss_FrameGeneration <$> m !! "s") Hs)|].
    unfold durable_sessions, state. cbn [st_Sessions set_field]. rewrite lookup_omap, lookup_singleton_eq.
    reflexivity.
Defined.

End RestartDemo.
