(* ===== verification/RuntimeTyped.v ===== *)
(** * The built-in drivers and the types of their states

    From the moment a snapshot is loaded, through the warm-start recovery and every event
    the reducer handles, the state a frame carries is one of the driver its command
    names: the assertions in the drivers' [Status] methods never panic. *)

From Stdlib Require Import String Ascii.
From S2P Require Import Prelude GoStd GoStrings ShellArgs GoTime HostState HostFrames HostHandlers HostReduce.
From S2P Require Import HostDriverFacts HostInputRun HostTyped DriverTypes DriverCommon DriverBasic DriverClaude.
From S2P Require Import DriverGemini DriverCodex DriverRegistry DriverFacts HostBuiltin RuntimeStore RuntimeSnapshot.
From S2P Require Import RuntimeBuiltin.

(** ** The first word of a command *)

(** [s] is the word [w], alone or followed by a blank. *)
Definition leads (w s : string) : Prop := exists r, s = w +:+ r /\ FirstToken r = "".

Lemma FirstToken_leads s : leads (FirstToken s) s.
Proof.
  induction s as [|c s (r & Hs & Hr)]; simpl; [by exists ""|]. destruct (_ || _) eqn:Hb.
  - exists (String c s). split; [done|]. simpl. by rewrite Hb.
  - exists r. rewrite str_app_cons. by rewrite <- Hs.
Qed.

Lemma leads_FirstToken w s : FirstToken w = w -> leads w s -> FirstToken s = w.
Proof.
  intros Hw (r & -> & Hr). induction w as [|c w IH]; [done|]. rewrite str_app_cons. simpl in *.
  destruct (_ || _); [done|]. injection Hw as Hw. by rewrite IH.
Qed.

(** Bytes no white space sequence contains. *)
Definition letter (c : ascii) : bool := in_range 97 122 (byte_Z c).

Lemma trim_front_letter c l : letter c = true -> trim_bytes false (c :: l) = c :: l.
Proof.
  unfold letter. rewrite in_range_iff. intros Hc.
  assert (space1 c = false) as H1.
  { unfold space1. apply orb_false_iff. rewrite <- not_true_iff_false, in_range_iff. lia. }
  assert (forall a, space2 c a = false) as H2.
  { intros a. unfold space2. rewrite (proj2 (Z.eqb_neq _ _)) by lia. done. }
  assert (forall a b, space3 c a b = false) as H3.
  { intros a b. unfold space3. by rewrite !(proj2 (Z.eqb_neq (byte_Z c) _)) by lia. }
  simpl. rewrite H1. destruct l as [|a [|b l]]; [done|..]; rewrite H2; [done|]. by rewrite H3.
Qed.

(** Trimming from the back stops at a letter. *)
Lemma trim_back_letter l c m : letter c = true ->
  exists k, trim_bytes true (l ++ c :: m) = drop k l ++ c :: m.
Proof.
  unfold letter. rewrite in_range_iff. intros Hc.
  assert (space1 c = false) as H1.
  { unfold space1. apply orb_false_iff. rewrite <- not_true_iff_false, in_range_iff. lia. }
  assert (forall a, space2 a c = false /\ space2 c a = false) as H2.
  { intros a. unfold space2. rewrite !(proj2 (Z.eqb_neq (byte_Z c) _)) by lia. by rewrite andb_false_r. }
  assert (forall a b, space3 a b c = false /\ space3 a c b = false /\ space3 c a b = false) as H3.
  { intros a b. unfold space3.
    rewrite !(proj2 (Z.eqb_neq (byte_Z c) _)) by lia.
    assert (in_range 0x80 0x8a (byte_Z c) = false) as -> by (rewrite <- not_true_iff_false, in_range_iff; lia).
    assert (in_range 0xa8 0xa9 (byte_Z c) = false) as -> by (rewrite <- not_true_iff_false, in_range_iff; lia).
    by rewrite !andb_false_r. }
  assert (trim_bytes true (c :: m) = c :: m) as H0.
  { simpl. rewrite H1. destruct m as [|a [|b m]]; [done|..]; destruct (H2 a) as [-> _]; [done|].
    by destruct (H3 b a) as [-> _]. }
  assert (forall n l, (length l <= n)%nat -> exists k, trim_bytes true (l ++ c :: m) = drop k l ++ c :: m) as Hn;
    [|by apply (Hn (length l))].
  clear l. induction n as [|n IH]; intros [|a l] Hl; simpl in Hl; try lia; [by exists O..|].
  cbn [app trim_bytes]. destruct (space1 a).
  { destruct (IH l) as [k ->]; [lia|]. by exists (S k). }
  destruct l as [|b l]; cbn [app].
  { destruct (H2 a) as [_ ->]. exists O. destruct m as [|x m]; [done|]. by destruct (H3 x a) as (_ & -> & _). }
  destruct (space2 b a).
  { destruct (IH l) as [k ->]; [simpl in Hl; lia|]. by exists (S (S k)). }
  destruct l as [|d l]; cbn [app].
  { destruct (H3 b a) as (_ & _ & ->). by exists O. }
  destruct (space3 d b a); [|by exists O].
  destruct (IH l) as [k ->]; [simpl in Hl; lia|]. by exists (S (S (S k))).
Qed.

Lemma string_bytes_app l m : string_of_list_ascii (l ++ m) = string_of_list_ascii l +:+ string_of_list_ascii m.
Proof. induction l as [|c l IH]; [done|]. simpl. by rewrite IH. Qed.

Lemma FirstToken_take l k :
  FirstToken (string_of_list_ascii l) = "" -> FirstToken (string_of_list_ascii (take k l)) = "".
Proof. destruct l as [|c l], k; simpl; try done. by destruct (_ || _). Qed.

(** Trimming keeps the first word of a command that starts with it. *)
Lemma TrimSpace_leads w s :
  Forall (fun c => letter c = true) (list_ascii_of_string w) -> w <> "" ->
  leads w s -> leads w (TrimSpace s).
Proof.
  intros Hw Hne (r & -> & Hr). unfold TrimSpace. rewrite ascii_app.
  destruct (list_ascii_of_string w) as [|c l] eqn:Hl; [by destruct w|].
  apply List.Forall_cons_iff in Hw as [Hc Hw0]. cbn [app]. rewrite trim_front_letter by done.
  assert (exists l0 d, c :: l = l0 ++ [d] /\ letter d = true) as (l0 & d & Hsplit & Hd).
  { destruct (exists_last (l := c :: l)) as (l0 & d & Hs); [done|]. exists l0, d. split; [done|].
    assert (Forall (fun c => letter c = true) (c :: l)) as Hall by (by constructor).
    rewrite Hs in Hall. apply Forall_app in Hall as [_ Hd]. by inversion Hd. }
  change (c :: l ++ list_ascii_of_string r) with ((c :: l) ++ list_ascii_of_string r).
  rewrite Hsplit, reverse_app, reverse_snoc.
  destruct (trim_back_letter (reverse (list_ascii_of_string r)) d (reverse l0) Hd) as [k Hk].
  rewrite Hk.
  rewrite reverse_app, reverse_cons, reverse_involutive, <- Hsplit, string_bytes_app.
  exists (string_of_list_ascii (reverse (drop k (reverse (list_ascii_of_string r))))). split.
  - by rewrite <- Hl, string_of_list_ascii_of_string.
  - rewrite reverse_drop, reverse_involutive. apply FirstToken_take. by rewrite string_of_list_ascii_of_string.
Qed.

(** The lexer's first token is the first word, when that is made of letters. *)
Lemma lex_leads w s tokens :
  Forall (fun c => letter c = true) (list_ascii_of_string w) -> w <> "" -> leads w s ->
  lex s = inr tokens -> exists rest, tokens = mkArgToken w w :: rest.
Proof.
  intros Hw Hne (r & -> & Hr). unfold lex. rewrite arun_app. unfold start at 1.
  rewrite (arun_plain w); [|eapply Forall_impl; [exact Hw|]; intros c Hc|by left].
  - rewrite !str_app_nil. destruct r as [|c r]; [intros [= <-]; by eexists|].
    simpl in Hr. destruct (_ || _) eqn:Hb in Hr; [|done]. cbn [arun].
    assert (astep (mkA Bare true w w []) c = start [mkArgToken w w]) as ->.
    { simpl. apply orb_true_iff in Hb as [->%bool_decide_eq_true | ->%bool_decide_eq_true]; done. }
    destruct (tokens_of_arun r (start [mkArgToken w w])) as [k Hk]. unfold finish.
    destruct (a_mode _); intros [= <-]; [|done..]. rewrite Hk. by exists k.
  - unfold letter in Hc. apply safe_byte_plain. unfold safe_rune. by rewrite Hc.
Qed.

Lemma join_leads w l : leads w (strings_Join (w :: l) " ").
Proof.
  destruct l as [|x l]; [exists ""; by rewrite str_app_nil_r|].
  exists (" " +:+ strings_Join (x :: l) " "). done.
Qed.

Lemma leads_app w s t : leads w s -> FirstToken t = "" -> leads w (s +:+ t).
Proof.
  intros (r & -> & Hr) Ht. exists (r +:+ t). split; [by rewrite str_app_assoc|].
  destruct r as [|c r]; [done|]. simpl in *. by destruct (_ || _).
Qed.

(** A command with a blank is more than one word. *)
Lemma blank_words s t : FirstToken (s +:+ String " " t) <> s +:+ String " " t.
Proof.
  induction s as [|c s IH]; [done|]. rewrite str_app_cons. simpl. destruct (_ || _); [done|].
  intros [= Heq]. by apply IH.
Qed.

(** *** Fork commands *)

Section Forks.
Context `{DriverEnv}.

Lemma letters_claude : Forall (fun c => letter c = true) (list_ascii_of_string "claude").
Proof. repeat constructor. Qed.

Lemma claude_fork_leads base id :
  leads "claude" base -> id <> "" ->
  leads "claude" (ClaudeCLI.ForkCommand base id) /\
  FirstToken (ClaudeCLI.ForkCommand base id) <> ClaudeCLI.ForkCommand base id.
Proof.
  intros Hb Hid. unfold ClaudeCLI.ForkCommand, ClaudeCLI.ResumeCommand. rewrite !bool_decide_false by done.
  rewrite !str_app_assoc. split; [|apply blank_words].
  apply leads_app; [|done]. unfold ClaudeCLI.StripWorktreeFlag, splitCommandTokens.
  pose proof (TrimSpace_leads "claude" base letters_claude ltac:(done) Hb) as Ht.
  rewrite LexArgs_lex. destruct (lex (TrimSpace base)) as [err|tokens] eqn:Hl; [done|].
  apply (lex_leads "claude") in Hl as [rest ->]; [|apply letters_claude|done|done].
  apply TrimSpace_leads; [apply letters_claude|done|]. apply join_leads.
Qed.

Lemma with_model_effort_cons x y argv model effort :
  exists rest, Grok.with_model_effort (x :: y :: argv) model effort = x :: y :: rest.
Proof. unfold Grok.with_model_effort. cbv zeta. repeat destruct (_ && _); by eexists. Qed.

Lemma grok_fork_leads base id model effort fork :
  Grok.BuildCommand base Grok.LifecycleFork id model effort = inr fork ->
  leads "grok" fork /\ FirstToken fork <> fork.
Proof.
  unfold Grok.BuildCommand. destruct (Grok.grok_args base) as [|args]; [done|]. cbv zeta.
  destruct (Grok.hasSessionFlag _); [done|]. destruct (bool_decide _); [done|].
  assert (exists y argv, (Grok.DriverName :: args) ++ "--no-auto-update" :: Grok.lifecycle_args Grok.LifecycleFork id
    = Grok.DriverName :: y :: argv) as (y & argv & ->) by (destruct args; simpl; by eexists _, _).
  destruct (with_model_effort_cons Grok.DriverName y argv model effort) as [rest ->].
  intros [= <-]. unfold JoinArgs. rewrite bool_decide_false, fmap_cons by done.
  change (quoteArg Grok.DriverName) with "grok". split; [apply join_leads|]. rewrite fmap_cons.
  apply (blank_words "grok").
Qed.

End Forks.

(** ** The drivers' states *)

Section Typed.
Context `{GoMapRange} `{DriverEnv} (opts : RegisterOptions).

#[local] Instance shipped_drivers : DriverSys := builtin_drivers opts.

(** [ds] is a state of the driver of [command]. *)
Definition driven (command : string) (ds : DriverState) : Prop :=
  exists drv st, GetDriver command = Some drv /\ ds = Some st /\ drives opts drv st.

(** An operation of the driver that returns a state of its own. *)
Lemma driven_by (op : Driver -> DriverState) :
  (exists st, op (claude_driver opts) = Some (DSClaude st)) ->
  (exists st, op codex_driver = Some (DSCodex st)) ->
  (exists st, op gemini_driver = Some (DSGemini st)) ->
  (exists st, op grok_driver = Some (DSGrok st)) ->
  (exists st, op agy_driver = Some (DSAgy st)) ->
  (forall d, exists st, op (generic_driver d) = Some (DSGeneric st)) ->
  (exists st, op (shell_driver opts) = Some (DSShell st)) ->
  forall command drv, GetDriver command = Some drv -> driven command (op drv).
Proof.
  intros H1 H2 H3 H4 H5 H6 H7 command drv Hd. exists drv.
  assert (exists st, op drv = Some st /\ drives opts drv st) as (st & ? & ?); [|by eauto].
  revert command drv Hd. apply registered_cases;
    (intros d || idtac); [destruct H1|destruct H2|destruct H3|destruct H4|destruct H5|destruct (H6 d)|destruct H7];
    eexists; (split; [eassumption|constructor]).
Qed.

Ltac by_own := intros; eexists; reflexivity.

Lemma driven_stable : stable driven.
Proof.
  split.
  - intros command drv now. revert command drv.
    apply (driven_by (fun drv => drv_NewState drv now)); by_own.
  - intros command drv ds ctx ev Hd _. revert command drv Hd.
    apply (driven_by (fun drv => (drv_Step drv ds ctx ev).1)); by_own.
  - intros command drv boot ds ctx now Hd Hb _.
    assert (driven command (match drv_BootstrapSessionStart drv with
      | Some boot => (boot ds ctx now).1 | None => drv_NewState drv now end)) as Ho; [|by rewrite Hb in Ho].
    clear Hb. revert command drv Hd.
    apply (driven_by (fun drv => match drv_BootstrapSessionStart drv with
      | Some boot => (boot ds ctx now).1 | None => drv_NewState drv now end)); by_own.
Qed.

Lemma driven_inv command drv ds :
  GetDriver command = Some drv -> driven command ds -> exists st, ds = Some st /\ drives opts drv st.
Proof. intros Hd (drv' & st & Hd' & -> & Hdr). assert (drv' = drv) as -> by congruence. eauto. Qed.

Lemma driven_create command drv prepare ds sid project o ds' cl :
  GetDriver command = Some drv -> drv_PrepareCreate drv = Some prepare ->
  prepare ds sid project command o = inr (ds', cl) -> driven command ds'.
Proof.
  intros Hd Hp Hout.
  set (op := fun drv => match drv_PrepareCreate drv with
    | Some prepare => match prepare ds sid project command o with
                      | inr (ds', _) => ds' | inl _ => drv_NewState drv 0 end
    | None => drv_NewState drv 0 end).
  assert (driven command (op drv)) as Ho; [|unfold op in Ho; by rewrite Hp, Hout in Ho].
  apply (driven_by op); try exact Hd; try by_own.
  unfold op. cbn [grok_driver drv_PrepareCreate].
  destruct (Grok.PrepareCreate ds sid project command o) as [|[st' cl']]; by_own.
Qed.

Lemma driven_start_dir command drv aware ds dir :
  GetDriver command = Some drv -> drv_StartDirAware drv = Some aware -> driven command ds ->
  driven command (aware.2 ds dir).
Proof.
  intros Hd Ha Ho. destruct (driven_inv _ _ _ Hd Ho) as (st & -> & Hdr).
  destruct Hdr; injection Ha as <-; eexists _, _; (split; [exact Hd|split; [reflexivity|constructor]]).
Qed.

Lemma driven_fork_id command drv setter ds id :
  GetDriver command = Some drv -> drv_WithForkSessionID drv = Some setter -> driven command ds ->
  driven command (setter ds id).
Proof.
  intros Hd Ha Ho. destruct (driven_inv _ _ _ Hd Ho) as (st & -> & Hdr).
  destruct Hdr; try discriminate Ha. injection Ha as <-.
  eexists _, _; (split; [exact Hd|split; [reflexivity|constructor]]).
Qed.

(** A driver that can fork is registered under the first word of the command. *)
Lemma forkable_registered command drv fork :
  GetDriver command = Some drv -> drv_Forkable drv = Some fork ->
  driverRegistry !! FirstToken command = Some drv /\ drv_Name drv = FirstToken command /\
  (drv = claude_driver opts \/ drv = grok_driver).
Proof.
  intros Hd Hf. unfold GetDriver in Hd. destruct (driverRegistry !! FirstToken command) as [d|] eqn:Hr.
  - injection Hd as ->. split; [done|]. apply elem_of_list_to_map_2 in Hr.
    apply list_elem_of_fmap in Hr as (d' & [= Hn ->] & Hin). split; [done|].
    revert Hin. unfold registered, builtinDrivers. rewrite elem_of_app, !elem_of_cons.
    intros [[->|[->|[->|[->|[->|[->|[]%elem_of_nil]]]]]]|[->|[]%elem_of_nil]]; auto; discriminate Hf.
  - injection Hd as <-. discriminate Hf.
Qed.

Lemma driven_fork command drv ForkCommand ForkChildState ds fork now :
  GetDriver command = Some drv -> drv_Forkable drv = Some (ForkCommand, ForkChildState) ->
  ForkCommand ds command = Some fork ->
  driven command (ForkChildState ds now) /\ GetDriver fork = Some drv /\ FirstToken fork <> fork.
Proof.
  intros Hd Hf Hc. destruct (forkable_registered _ _ _ Hd Hf) as (Hr & Hn & Hcase).
  assert (leads (drv_Name drv) fork /\ FirstToken fork <> fork /\ FirstToken (drv_Name drv) = drv_Name drv)
    as (Hl & Hw & Hname).
  { pose proof (FirstToken_leads command) as Hlead. rewrite <- Hn in Hlead.
    destruct Hcase as [-> | ->]; injection Hf as <- <-.
    - unfold Claude.ForkCommand in Hc. destruct (as_claude ds) as [cs|]; [|done].
      destruct (_ || _) eqn:Hb; [done|]. injection Hc as <-. apply orb_false_iff in Hb as [Hid _].
      apply bool_decide_eq_false in Hid. destruct (claude_fork_leads command _ Hlead Hid). done.
    - unfold Grok.ForkCommand in Hc. destruct (as_grok ds) as [gs|]; [|done].
      destruct (bool_decide _); [done|]. destruct (Grok.BuildCommand _ _ _ _ _) eqn:Hb; [done|].
      injection Hc as <-. apply grok_fork_leads in Hb as [? ?]. done. }
  split; [|split; [|done]].
  - exists drv. destruct Hcase as [-> | ->]; injection Hf as <- <-; eexists;
      (split; [exact Hd|split; [reflexivity|constructor]]).
  - unfold GetDriver. rewrite (leads_FirstToken _ _ Hname Hl), Hn, Hr. done.
Qed.

Lemma driven_typed : typed driven.
Proof.
  split; eauto using driven_stable, driven_create, driven_start_dir, driven_fork_id, driven_fork.
Qed.

(** *** Loading and recovering *)

Context `{JC : JournalCodec}.

Lemma restoreFrames_driven snaps coldStart now createdAt :
  frames_own driven (restoreFrames snaps coldStart now createdAt).
Proof.
  induction snaps as [|snap snaps IH]; [constructor|]. cbn [restoreFrames].
  destruct (GetDriver (fs_Command snap)) as [drv|] eqn:Hd; [|constructor]. cbv zeta.
  destruct (_ && _ && _); [done|]. constructor; [|done].
  set (bag := status_restored coldStart (fs_DriverState snap)). unfold restoreFrame. cbn [f_Command f_Driver].
  apply (driven_by (fun drv => drv_Restore drv bag now)); try exact Hd; by_own.
Qed.

Lemma LoadSnapshot_driven coldStart now journals files s :
  sessions_own driven (st_Sessions s) ->
  sessions_own driven (st_Sessions (LoadSnapshot coldStart now journals files s)).
Proof.
  intros Hs sid sess. unfold LoadSnapshot. cbn [st_Sessions set_field].
  set (loaded := loadSessions _ _ _ _).
  assert (sessions_own driven loaded) as Hl.
  { subst loaded. unfold loadSessions. revert Hs. generalize (st_Sessions s) as m. generalize (Load files) as l.
    induction l as [|snap l IH]; intros m Hm; [done|]. cbn [foldl]. apply IH.
    destruct (restoreSession snap coldStart now) as [sess'|] eqn:Hr; [|done].
    apply sessions_own_insert; [done|]. unfold restoreSession in Hr.
    apply bind_Some in Hr as (root & _ & [= <-]). apply restoreFrames_driven. }
  clearbody loaded. unfold restoreFrameMessagingStores. rewrite map_lookup_imap.
  intros (sess' & Hl' & [= <-])%bind_Some. pose proof (Hl _ _ Hl') as Hf.
  destruct (loadFrameMessagingFromJournal _ _) as [[]|]; exact Hf.
Qed.

Lemma bootstrapSessionEffects_sessions s sid frameID now effs :
  let s' := (bootstrapSessionEffects s sid frameID now effs).1 in
  st_Sessions s' = st_Sessions s /\ st_Aliases s' = st_Aliases s.
Proof.
  revert s. induction effs as [|eff effs IH]; intros s; [done|]. cbn [bootstrapSessionEffects].
  assert (st_Sessions (bootstrapSessionEffect s sid frameID now eff).1 = st_Sessions s /\
    st_Aliases (bootstrapSessionEffect s sid frameID now eff).1 = st_Aliases s) as [H1 H2] by (by destruct eff).
  destruct (bootstrapSessionEffect s sid frameID now eff) as [s1 e1]. destruct (IH s1) as [H3 H4].
  destruct (bootstrapSessionEffects s1 sid frameID now effs) as [s2 e2]. cbn [fst] in *. by rewrite H3, H4.
Qed.

Lemma driven_recover command drv recover ds now :
  GetDriver command = Some drv -> drv_WarmStartRecover drv = Some recover ->
  driven command (recover ds now).1.
Proof.
  intros Hd Hr. set (op := fun drv => match drv_WarmStartRecover drv with
    | Some recover => (recover ds now).1 | None => drv_NewState drv now end).
  assert (driven command (op drv)) as Ho; [|unfold op in Ho; by rewrite Hr in Ho].
  apply (driven_by op); try exact Hd; by_own.
Qed.

Lemma recoverFrame_keeps acc sid now i :
  keeps_own driven acc.1.1 (recoverFrame acc sid now i).1.1.
Proof.
  destruct acc as [[s out] changed]. unfold recoverFrame.
  destruct (st_Sessions s !! sid) as [sess|] eqn:Hs; [|by apply keeps_same]. cbn [mbind option_bind].
  destruct (ss_Frames sess !! i) as [frame|] eqn:Hf; [|by apply keeps_same]. cbn [mbind option_bind].
  destruct (GetDriver (f_Command frame)) as [drv|] eqn:Hd; [|by apply keeps_same]. cbn [mbind option_bind].
  destruct (drv_WarmStartRecover drv) as [recover|] eqn:Hr; [|by apply keeps_same]. cbn [mbind option_bind].
  pose proof (driven_recover _ _ _ (f_Driver frame) now Hd Hr) as Ho.
  destruct (recover (f_Driver frame) now) as [next effs].
  match goal with |- context [bootstrapSessionEffects ?s1 _ _ _ _] => set (s1' := s1) end.
  destruct (bootstrapSessionEffects_sessions s1' sid (f_ID frame) now effs) as [H1 H2].
  destruct (bootstrapSessionEffects s1' sid (f_ID frame) now effs) as [s2 effs2]. cbn [fst] in H1, H2 |- *.
  eapply (keeps_session driven s s2 sid sess); [done| |by rewrite H1|by rewrite H2].
  intros Hown. apply (setFrameDriver_own driven sess i frame next); done.
Qed.

Lemma Recover_keeps s now : keeps_own driven s (RecoverWarmStartSessions s now).1.1.
Proof.
  unfold RecoverWarmStartSessions. intros Hw. generalize (range (st_Sessions s)) as l.
  assert (forall l acc, well_typed driven acc.1.1 -> well_typed driven (foldl (fun acc kv =>
    foldl (fun acc i => recoverFrame acc kv.1 now i) acc (seq 0 (length (ss_Frames kv.2)))) acc l).1.1) as Hl;
    [|intros l; by apply Hl].
  induction l as [|kv l IH]; intros acc Hacc; [done|]. cbn [foldl]. apply IH.
  generalize (seq 0 (length (ss_Frames kv.2))) as ids. intros ids. revert acc Hacc.
  induction ids as [|i ids IHi]; intros acc Hacc; [done|]. cbn [foldl]. apply IHi.
  by apply recoverFrame_keeps.
Qed.

Context `{PayloadCodec}.

(** C24: driver states are well typed.  A daemon loads its sessions from the snapshots on
    disk, lets the drivers recover them on a warm start, and handles any sequence of
    events.  Every frame of every state it reaches carries a state of the type of the
    driver its command names, so that the unchecked type assertions of the built-in
    drivers ([s.(ClaudeState)] in [Status]) cannot panic.  Aliases are assumed to be single
    words, as the shell aliases they are read from are. *)
Theorem driver_states_typed coldStart now journals files base start effs s sid sess f :
  st_Sessions base = ∅ -> word_aliases (st_Aliases base) ->
  (start = LoadSnapshot coldStart now journals files base \/
   start = (RecoverWarmStartSessions (LoadSnapshot coldStart now journals files base) now).1.1) ->
  host_run start effs s -> st_Sessions s !! sid = Some sess -> f ∈ ss_Frames sess ->
  driven (f_Command f) (f_Driver f).
Proof.
  intros Hb Ha Hstart Hrun Hs Hf.
  assert (well_typed driven (LoadSnapshot coldStart now journals files base)) as Hw.
  { split; [|exact Ha]. apply LoadSnapshot_driven. rewrite Hb. apply map_Forall_empty. }
  assert (well_typed driven start) as Hw0 by (destruct Hstart as [-> | ->]; [done|by apply Recover_keeps]).
  destruct (run_well_typed driven _ _ _ driven_typed Hrun Hw0) as [Ho _].
  exact (proj1 (Forall_forall _ _) (Ho _ _ Hs) f Hf).
Qed.

End Typed.

(** ** A Claude session loaded from its file, and a client that connects *)

Module TypedDemo.
Import DriverDemo BuiltinDemo.

#[local] Instance demo_sys : DriverSys := builtin_drivers demo_opts.
#[local] Instance no_codec : JournalCodec := {| encode_record := fun _ => ""; decode_record := fun _ => None |}.

Definition snapshot : SessionSnapshot :=
  mkSessionSnapshot "s" "/work" "" [mkFrameSnapshot "f" "" "" "/work" "claude --verbose" zero_options "" "claude" ∅]
    "f" [] None 0 None.

Definition started : State :=
  LoadSnapshot false 9 (fun _ => NoFile) {["s" := mkSessionFile snapshot ""]} New.

Definition frame : SessionFrame :=
  restoreFrame (mkFrameSnapshot "f" "" "" "/work" "claude --verbose" zero_options "" "claude" ∅) 9
    (drv_Restore (claude_driver demo_opts) ∅ 9).

Lemma claude_verbose : GetDriver "claude --verbose" = Some (claude_driver demo_opts).
Proof. rewrite <- (GetDriver_claude demo_opts). reflexivity. Qed.

Lemma started_frames : ss_Frames <$> st_Sessions started !! "s" = Some [frame].
Proof.
  unfold started, LoadSnapshot. cbn [st_Sessions set_field]. unfold restoreFrameMessagingStores.
  rewrite map_lookup_imap. unfold Load. rewrite map_to_list_singleton. cbn [fmap list_fmap snd sf_Snapshot].
  unfold loadSessions. cbn [foldl]. unfold restoreSession.
  assert (forall b now, restoreFrames (sp_Frames snapshot) false now b =
    [restoreFrame (mkFrameSnapshot "f" "" "" "/work" "claude --verbose" zero_options "" "claude" ∅) b
       (drv_Restore (claude_driver demo_opts) ∅ now)]) as Hr.
  { intros b now. cbn [restoreFrames sp_Frames snapshot fs_Command]. by rewrite claude_verbose. }
  cbv zeta. rewrite bool_decide_false by done. rewrite Hr. cbn [head mbind option_bind].
  cbn [ss_ID sp_ID snapshot]. rewrite lookup_insert_eq. reflexivity.
Qed.

Lemma driver_states_typed_witness :
  let connected := (reduceConnOpened started 7).1 in
  host_run started [] connected /\ (ss_Frames <$> st_Sessions connected !! "s" = Some [frame]) /\
  driven demo_opts "claude --verbose" (f_Driver frame).
Proof.
  intros connected.
  assert (host_run started [] connected) as Hrun.
  { change (@nil Effect) with (@nil Effect ++ []). by eapply run_event with (draws := fun _ => "") (ev := EvConnOpened 7); [constructor|]. }
  assert (ss_Frames <$> st_Sessions connected !! "s" = Some [frame]) as Hf by apply started_frames.
  split; [done|]. split; [done|]. destruct (st_Sessions connected !! "s") as [sess|] eqn:Hs; [|done].
  injection Hf as Hf.
  apply (driver_states_typed demo_opts false 9 (fun _ => NoFile) {["s" := mkSessionFile snapshot ""]} New
    started [] connected "s" sess frame); [done| |by left|done..|].
  - intros name [v Hv]. change (st_Aliases New) with (∅ : gmap string string) in Hv. by rewrite lookup_empty in Hv.
  - rewrite Hf. by apply list_elem_of_singleton.
Defined.
End TypedDemo.
