(* ===== verification/RuntimeLifecycle.v ===== *)
(** * host/runtime: the terminal lifecycle

    terminal_lifecycle_actor.go and terminal_lifecycle_runtime.go: a browser states which
    terminal it wants, one revision after the other; the event loop admits a revision,
    binds the connection's subscription to the session, starts the workers that carry it
    out, and gives the revision its outcome.  Handlers are functions on the loop's state;
    what they send, and the goroutines they start, come out as a list of effects. *)

From Stdlib Require Import String.
From S2P Require Import Prelude GoStd GoStrings GoTime HostState HostFrames RuntimeMessaging.

(** ** Records (proto/lifecycle.go) *)

Record PublicCorrelation := mkCorrelation {
  pc_ClientInstanceID : string; pc_ConnectionGeneration : Z; pc_ClientRevision : Z }.

#[export] Instance correlation_eq_dec : EqDecision PublicCorrelation.
Proof. solve_decision. Defined.

Inductive RevisionOutcomeKind :=
| RevisionAccepted | RevisionWaiting | RevisionApplied | RevisionRejected
| RevisionSuperseded | RevisionReleased | RevisionDegraded | RevisionNoOutput.

#[export] Instance outcome_kind_eq_dec : EqDecision RevisionOutcomeKind.
Proof. solve_decision. Defined.

Record RevisionOutcome := mkOutcome {
  ro_Correlation : PublicCorrelation; ro_Status : RevisionOutcomeKind;
  ro_OutputSeq : Z; ro_FinalSeq : Z; ro_Reason : string }.

Record CmdLifecycleDesired := mkDesired {
  cd_Correlation : PublicCorrelation; cd_SessionID : string; cd_SubscriberID : string;
  cd_Cols : Z; cd_Rows : Z; cd_Desired : bool }.

#[export] Instance eta_Desired : Eta CmdLifecycleDesired := fun c =>
  mkDesired (cd_Correlation c) (cd_SessionID c) (cd_SubscriberID c) (cd_Cols c) (cd_Rows c)
    (cd_Desired c).

(** ** The actor *)

Record TerminalLifecycleActor := mkActor {
  la_current : gmap string RevisionOutcome; la_latest : gmap string Z; la_order : list string }.

#[export] Instance eta_Actor : Eta TerminalLifecycleActor := fun a =>
  mkActor (la_current a) (la_latest a) (la_order a).

Definition lifecycleRecordLimit : nat := 24.

Definition NewTerminalLifecycleActor : TerminalLifecycleActor := mkActor ∅ ∅ [].

Definition correlationKey (c : PublicCorrelation) : string :=
  pc_ClientInstanceID c +:+ "/" +:+ show_int (pc_ConnectionGeneration c)
    +:+ "/" +:+ show_int (pc_ClientRevision c).

Definition correlationBaseKey (c : PublicCorrelation) : string :=
  pc_ClientInstanceID c +:+ "/" +:+ show_int (pc_ConnectionGeneration c).

Definition isTerminalOutcome (status : RevisionOutcomeKind) : bool :=
  match status with
  | RevisionApplied | RevisionRejected | RevisionSuperseded | RevisionReleased
  | RevisionDegraded | RevisionNoOutput => true
  | _ => false
  end.

Section Actor.
Implicit Types (a : TerminalLifecycleActor) (c : PublicCorrelation).

Definition plain (c : PublicCorrelation) (status : RevisionOutcomeKind) (reason : string) : RevisionOutcome :=
  mkOutcome c status 0 0 reason.

(** The record that is entered, and the oldest one that makes room for it. *)
Definition record a c (out : RevisionOutcome) : TerminalLifecycleActor :=
  let current := <[correlationKey c := out]> (la_current a) in
  let order := la_order a ++ [correlationKey c] in
  let latest := <[correlationBaseKey c := pc_ClientRevision c]> (la_latest a) in
  if bool_decide (lifecycleRecordLimit < length order)%nat then
    match order with
    | oldest :: rest => mkActor (delete oldest current) latest rest
    | [] => mkActor current latest order
    end
  else mkActor current latest order.

Definition Admit a c : TerminalLifecycleActor * RevisionOutcome :=
  let fresh := let out := plain c RevisionAccepted "" in (record a c out, out) in
  match la_latest a !! correlationBaseKey c with
  | Some latest =>
    if pc_ClientRevision c <? latest then (a, plain c RevisionRejected "stale_revision")
    else if latest =? pc_ClientRevision c then
      match la_current a !! correlationKey c with
      | Some current => (a, current)
      | None => (a, plain c RevisionRejected "record_evicted")
      end
    else fresh
  | None => fresh
  end.

Definition isCurrent a c : bool :=
  bool_decide (la_latest a !! correlationBaseKey c = Some (pc_ClientRevision c)) &&
  bool_decide (is_Some (la_current a !! correlationKey c)).

(** The outcome is returned where the second result in Go is true. *)
Definition MarkWaiting a c : TerminalLifecycleActor * option RevisionOutcome :=
  if negb (isCurrent a c) then (a, None)
  else match la_current a !! correlationKey c with
       | Some current =>
         if isTerminalOutcome (ro_Status current) then (a, None)
         else let out := plain c RevisionWaiting "" in
              (a <| la_current := <[correlationKey c := out]> (la_current a) |>, Some out)
       | None => (a, None)
       end.

Definition Lookup a c : option RevisionOutcome := la_current a !! correlationKey c.

Inductive CompleteError := Nonterminal (status : RevisionOutcomeKind) | StaleRevision | NotAdmitted | AlreadyAssigned.

Definition Complete a c (status : RevisionOutcomeKind) (outputSeq finalSeq : Z) (reason : string) :
    TerminalLifecycleActor * (CompleteError + RevisionOutcome) :=
  if negb (isTerminalOutcome status) then (a, inl (Nonterminal status))
  else if negb (bool_decide (la_latest a !! correlationBaseKey c = Some (pc_ClientRevision c)))
  then (a, inl StaleRevision)
  else match la_current a !! correlationKey c with
       | None => (a, inl NotAdmitted)
       | Some previous =>
         if isTerminalOutcome (ro_Status previous) then (a, inl AlreadyAssigned)
         else let out := mkOutcome c status outputSeq finalSeq reason in
              (a <| la_current := <[correlationKey c := out]> (la_current a) |>, inr out)
       end.

End Actor.

(** ** The loop's part *)

Record lifecycleBinding := mkBinding {
  lb_connID : ConnID; lb_sessionID : SessionID; lb_subscriberID : string;
  lb_correlation : PublicCorrelation }.

Definition lifecycleBindingKey (connID : ConnID) (c : PublicCorrelation) : string :=
  show_int connID +:+ "/" +:+ pc_ClientInstanceID c +:+ "/" +:+ show_int (pc_ConnectionGeneration c).

(** The fields of the runtime the lifecycle uses: [lr_relay] says whether there is a
    terminal relay, [lr_conns] are the open connections. *)
Record LifecycleRuntime := mkLifecycle {
  lr_actor : TerminalLifecycleActor; lr_bindings : gmap string lifecycleBinding;
  lr_relay : bool; lr_conns : gset ConnID }.

#[export] Instance eta_Lifecycle : Eta LifecycleRuntime := fun r =>
  mkLifecycle (lr_actor r) (lr_bindings r) (lr_relay r) (lr_conns r).

(** What a handler sends, asks of the relay, or starts. *)
Inductive LifecycleEffect :=
| EmitOutcome (out : RevisionOutcome)
| SendResponse (connID : ConnID) (reqID : string)
| SendError (connID : ConnID) (reqID : string) (err : ErrorBody)
| RelayUnsubscribe (connID : ConnID) (sessionID : SessionID) (subscriberID : string)
| GoEffect (connID : ConnID) (cmd : CmdLifecycleDesired) (frameID : string)
| GoDeadline (connID : ConnID) (c : PublicCorrelation)
| GoExpiry (connID : ConnID) (c : PublicCorrelation).

(** The events of the lifecycle lane, and the end of a connection. *)
Inductive LifecycleEvent :=
| LifecycleDesired (connID : ConnID) (reqID : string) (cmd : CmdLifecycleDesired)
| LifecycleEffectResult (connID : ConnID) (cmd : CmdLifecycleDesired) (err : option string)
| LifecycleDeadline (connID : ConnID) (c : PublicCorrelation)
| LifecycleExpiry (connID : ConnID) (c : PublicCorrelation)
| ConnClose (connID : ConnID).

Section Lifecycle.
Context `{GoMapRange} {HT : HostTypes}.
Implicit Types (s : State) (r : LifecycleRuntime) (c : PublicCorrelation).

Definition sendLifecycleResponse r (connID : ConnID) (reqID : string) : list LifecycleEffect :=
  if decide (connID ∈ lr_conns r) then [SendResponse connID reqID] else [].

Definition sendLifecycleError r (connID : ConnID) (reqID code message : string) : list LifecycleEffect :=
  if decide (connID ∈ lr_conns r) then [SendError connID reqID (mkErrorBody code message)] else [].

(** r.terminalRelay.UnsubscribeOwned, when there is a relay. *)
Definition relayUnsubscribe r (b : lifecycleBinding) : list LifecycleEffect :=
  if lr_relay r then [RelayUnsubscribe (lb_connID b) (lb_sessionID b) (lb_subscriberID b)] else [].

(** The frame the terminal is to show; [inl] is the answer to a bad request. *)
Definition desiredFrame s (cmd : CmdLifecycleDesired) : ErrorBody + string :=
  let c := cd_Correlation cmd in
  if bool_decide (pc_ClientInstanceID c = "") || (pc_ConnectionGeneration c =? 0)
     || (pc_ClientRevision c =? 0) || bool_decide (cd_SessionID cmd = "")
  then inl (mkErrorBody "invalid_argument" "lifecycle desired requires public correlation and session")
  else if negb (cd_Desired cmd) then inr ""
  else if (cd_Cols cmd =? 0) || (cd_Rows cmd =? 0)
  then inl (mkErrorBody "invalid_argument" "lifecycle desired requires non-zero geometry")
  else if negb (bool_decide (SizeHintRejectReason (cd_Cols cmd) (cd_Rows cmd) = ""))
  then inl (mkErrorBody "invalid_argument" (SizeHintRejectReason (cd_Cols cmd) (cd_Rows cmd)))
  else match st_Sessions s !! cd_SessionID cmd with
       | None => inl (mkErrorBody "not_found" ("session not found: " +:+ cd_SessionID cmd))
       | Some sess =>
         match headFrame sess with
         | None => inl (mkErrorBody "frame-not-ready" ("frame-not-ready: " +:+ cd_SessionID cmd))
         | Some frame => inr (f_ID frame)
         end
       end.

(** The binding of the key once the revision is admitted: an older one goes first, and
    its subscription with it unless the new revision keeps it. *)
Definition rebind r (connID : ConnID) (cmd : CmdLifecycleDesired) :
    gmap string lifecycleBinding * list LifecycleEffect :=
  let c := cd_Correlation cmd in
  let key := lifecycleBindingKey connID c in
  let '(bindings, effs) :=
    match lr_bindings r !! key with
    | Some old =>
      if pc_ClientRevision (lb_correlation old) <? pc_ClientRevision c then
        (delete key (lr_bindings r),
         if negb (bool_decide (lb_sessionID old = cd_SessionID cmd))
            || negb (bool_decide (lb_subscriberID old = cd_SubscriberID cmd))
         then relayUnsubscribe r old else [])
      else (lr_bindings r, [])
    | None => (lr_bindings r, [])
    end in
  (if cd_Desired cmd
   then <[key := mkBinding connID (cd_SessionID cmd) (cd_SubscriberID cmd) c]> bindings
   else delete key bindings, effs).

(** The subscriber of a request that names none. *)
Definition with_subscriber (connID : ConnID) (cmd : CmdLifecycleDesired) : CmdLifecycleDesired :=
  if bool_decide (cd_SubscriberID cmd = "")
  then cmd <| cd_SubscriberID := "lifecycle-" +:+ show_int connID |> else cmd.

Definition handleLifecycleDesired s r (connID : ConnID) (reqID : string) (cmd : CmdLifecycleDesired) :
    LifecycleRuntime * list LifecycleEffect :=
  match desiredFrame s cmd with
  | inl e => (r, sendLifecycleError r connID reqID (eb_Code e) (eb_Message e))
  | inr frameID =>
    let c := cd_Correlation cmd in
    let cmd := with_subscriber connID cmd in
    let key := lifecycleBindingKey connID c in
    if cd_Desired cmd && bool_decide (lr_bindings r !! key = None)
       && bool_decide (8 <= size (lr_bindings r))%nat
    then (r, sendLifecycleError r connID reqID "resource_exhausted" "lifecycle owner cap (8) exceeded")
    else
      let alreadyAdmitted := bool_decide (is_Some (Lookup (lr_actor r) c)) in
      let '(a, out) := Admit (lr_actor r) c in
      if bool_decide (ro_Status out = RevisionRejected) || alreadyAdmitted then
        (r <| lr_actor := a |>, EmitOutcome out :: sendLifecycleResponse r connID reqID)
      else
        let '(a, waiting) := MarkWaiting a c in
        let '(bindings, effs) := rebind r connID cmd in
        (r <| lr_actor := a |> <| lr_bindings := bindings |>,
         EmitOutcome out :: from_option (fun w => [EmitOutcome w]) [] waiting
           ++ sendLifecycleResponse r connID reqID ++ effs
           ++ [GoEffect connID cmd frameID; GoDeadline connID c]
           ++ (if cd_Desired cmd then [GoExpiry connID c] else []))
  end.

Definition lifecycleReason (err : option string) : string := default "" err.

(** Completing a revision, and telling its outcome if it had none. *)
Definition complete r c (status : RevisionOutcomeKind) (reason : string) :
    LifecycleRuntime * list LifecycleEffect :=
  match Complete (lr_actor r) c status 0 0 reason with
  | (a, inr out) => (r <| lr_actor := a |>, [EmitOutcome out])
  | (a, inl _) => (r <| lr_actor := a |>, [])
  end.

Definition handleLifecycleEffectResult r (cmd : CmdLifecycleDesired) (err : option string) :
    LifecycleRuntime * list LifecycleEffect :=
  let status := if cd_Desired cmd then RevisionApplied else RevisionReleased in
  let status := if bool_decide (err = None) then status else RevisionDegraded in
  complete r (cd_Correlation cmd) status (lifecycleReason err).

Definition handleLifecycleDeadline r c : LifecycleRuntime * list LifecycleEffect :=
  complete r c RevisionDegraded "apply_deadline_exceeded".

Definition handleLifecycleExpiry r (connID : ConnID) c : LifecycleRuntime * list LifecycleEffect :=
  let key := lifecycleBindingKey connID c in
  match lr_bindings r !! key with
  | None => (r, [])
  | Some binding =>
    if negb (pc_ClientRevision (lb_correlation binding) =? pc_ClientRevision c) then (r, [])
    else
      let '(r', effs) := complete (r <| lr_bindings := delete key (lr_bindings r) |>) c RevisionReleased "lease_expired" in
      (r', relayUnsubscribe r binding ++ effs)
  end.

Definition releaseLifecycleBindings r (connID : ConnID) : LifecycleRuntime * list LifecycleEffect :=
  (r <| lr_bindings := filter (fun kb => lb_connID kb.2 <> connID) (lr_bindings r) |>,
   b ← snd <$> filter (fun kb => lb_connID kb.2 = connID) (range (lr_bindings r));
   relayUnsubscribe r b).

(** handleConnClose, up to the event it dispatches to the reducer. *)
Definition handleConnClose r (connID : ConnID) : LifecycleRuntime * list LifecycleEffect :=
  let '(r, effs) := releaseLifecycleBindings r connID in
  (r <| lr_conns := lr_conns r ∖ {[connID]} |>, effs).

Definition dispatchLifecycle s r (ev : LifecycleEvent) : LifecycleRuntime * list LifecycleEffect :=
  match ev with
  | LifecycleDesired connID reqID cmd => handleLifecycleDesired s r connID reqID cmd
  | LifecycleEffectResult _ cmd err => handleLifecycleEffectResult r cmd err
  | LifecycleDeadline _ c => handleLifecycleDeadline r c
  | LifecycleExpiry connID c => handleLifecycleExpiry r connID c
  | ConnClose connID => handleConnClose r connID
  end.

(** The lane, from one event to the next; the reducer's state is what it is then. *)
Fixpoint runLifecycle r (evs : list (State * LifecycleEvent)) : LifecycleRuntime * list LifecycleEffect :=
  match evs with
  | [] => (r, [])
  | (s, ev) :: rest =>
    let '(r1, effs) := dispatchLifecycle s r ev in
    let '(r2, more) := runLifecycle r1 rest in
    (r2, effs ++ more)
  end.

Definition outcomes (effs : list LifecycleEffect) : list RevisionOutcome :=
  omap (fun e => match e with EmitOutcome out => Some out | _ => None end) effs.

End Lifecycle.
