(* ===== verification/RuntimeLifecycleFacts.v ===== *)
(** * host/runtime: outcomes of the terminal lifecycle

    Keys name correlations; a revision's outcome only moves forward and is final once it
    is terminal, whatever the order in which requests, workers and timers reach the loop;
    the tables keep their caps. *)

From Stdlib Require Import String.
From stdpp Require Import pretty.
From S2P Require Import Prelude GoStd GoStrings GoTime HostState HostFrames RuntimeLifecycle.
From S2P Require Import RuntimeMessaging.

(** ** Keys *)

Abbreviation slash := "/"%char.

Lemma digit_char_slash n : pretty_N_char n <> slash.
Proof. unfold pretty_N_char. by repeat (case_match; try done). Qed.

Lemma pretty_N_slash n s :
  slash ∉ String.list_ascii_of_string s -> slash ∉ String.list_ascii_of_string (pretty_N_go n s).
Proof.
  revert s. induction (N.lt_wf_0 n) as [n _ IH]. intros s Hs.
  destruct (decide (n = 0%N)) as [->|Hn]; [by rewrite pretty_N_go_0|].
  rewrite pretty_N_go_step by lia. apply IH; [apply N.div_lt; lia|]. simpl.
  rewrite not_elem_of_cons. split; [|done]. intros He. by apply (digit_char_slash (n `mod` 10)).
Qed.

Lemma show_int_slash n : slash ∉ String.list_ascii_of_string (show_int n).
Proof.
  unfold show_int. destruct n as [|p|p].
  - change (slash ∉ ["0"%char]). set_solver.
  - change (pretty (Z.pos p)) with (pretty_N_go (Npos p) ""). apply pretty_N_slash. set_solver.
  - change (pretty (Z.neg p)) with (String "-"%char (pretty_N_go (Npos p) "")). simpl.
    rewrite not_elem_of_cons. split; [done|]. apply pretty_N_slash. set_solver.
Qed.

Lemma show_int_inj n m : show_int n = show_int m -> n = m.
Proof. apply (inj pretty). Qed.

(** The text before and after the last occurrence of a character. *)
Lemma split_last {A} (x : A) (l1 l2 d1 d2 : list A) :
  x ∉ d1 -> x ∉ d2 -> l1 ++ x :: d1 = l2 ++ x :: d2 -> l1 = l2 /\ d1 = d2.
Proof.
  intros H1 H2. revert l2. induction l1 as [|a l1 IH]; intros [|b l2]; simpl.
  - by intros [= ->].
  - intros [= -> ->]. set_solver.
  - intros [= -> <-]. set_solver.
  - intros [= -> Hl]. destruct (IH l2 Hl) as [-> ->]. done.
Qed.

Lemma split_last_slash s1 s2 d1 d2 :
  slash ∉ String.list_ascii_of_string d1 -> slash ∉ String.list_ascii_of_string d2 ->
  s1 +:+ "/" +:+ d1 = s2 +:+ "/" +:+ d2 -> s1 = s2 /\ d1 = d2.
Proof.
  intros H1 H2 He. apply (f_equal String.list_ascii_of_string) in He.
  rewrite !ascii_app in He. simpl in He. apply split_last in He as [He1 He2]; [|done..].
  apply (f_equal string_of_list_ascii) in He1, He2.
  by rewrite !string_of_list_ascii_of_string in He1, He2.
Qed.

Lemma correlationBaseKey_inj c1 c2 :
  correlationBaseKey c1 = correlationBaseKey c2 ->
  pc_ClientInstanceID c1 = pc_ClientInstanceID c2 /\ pc_ConnectionGeneration c1 = pc_ConnectionGeneration c2.
Proof. by intros [-> ->%show_int_inj]%split_last_slash; [|apply show_int_slash..]. Qed.

Lemma correlationKey_split c :
  correlationKey c = correlationBaseKey c +:+ "/" +:+ show_int (pc_ClientRevision c).
Proof. unfold correlationKey, correlationBaseKey. by rewrite !str_app_assoc. Qed.

Lemma correlationKey_base c1 c2 :
  correlationKey c1 = correlationKey c2 ->
  correlationBaseKey c1 = correlationBaseKey c2 /\ pc_ClientRevision c1 = pc_ClientRevision c2.
Proof.
  rewrite !correlationKey_split. by intros [-> ->%show_int_inj]%split_last_slash; [|apply show_int_slash..].
Qed.

#[export] Instance correlationKey_inj : Inj (=) (=) correlationKey.
Proof.
  intros c1 c2 [[Hi Hg]%correlationBaseKey_inj Hr]%correlationKey_base.
  destruct c1, c2. simpl in *. by subst.
Qed.

(** ** The actor's invariant *)

Section ActorFacts.
Implicit Types (a : TerminalLifecycleActor) (c : PublicCorrelation) (o : RevisionOutcome).

(** [c] is a revision the actor has seen, and one it will not record again. *)
Definition known a c : Prop :=
  exists l, la_latest a !! correlationBaseKey c = Some l /\ pc_ClientRevision c <= l.

Definition dead a c : Prop :=
  exists l, la_latest a !! correlationBaseKey c = Some l /\
    (pc_ClientRevision c < l \/ pc_ClientRevision c = l /\ la_current a !! correlationKey c = None).

(** What the runtime has the actor record; a refusal is told and not recorded. *)
Definition recordable (status : RevisionOutcomeKind) : Prop :=
  status ∈ [RevisionAccepted; RevisionWaiting; RevisionApplied; RevisionReleased; RevisionDegraded].

Lemma recordable_refusal status : recordable status -> status <> RevisionRejected.
Proof. by intros H ->; unfold recordable in H; set_solver. Qed.

Record actor_wf a : Prop := {
  wf_current k o : la_current a !! k = Some o ->
    k = correlationKey (ro_Correlation o) /\ known a (ro_Correlation o) /\ recordable (ro_Status o);
  wf_order k : k ∈ la_order a <-> is_Some (la_current a !! k);
  wf_nodup : NoDup (la_order a);
  wf_limit : (length (la_order a) <= lifecycleRecordLimit)%nat }.

(** How far an outcome is. *)
Definition rank o : nat :=
  if isTerminalOutcome (ro_Status o) then 2 else if decide (ro_Status o = RevisionWaiting) then 1 else 0.

(** [o2] may be told after [o1]: unless it refuses the request, the revision was not
    refused before, it does not go back, and a terminal outcome stays the same. *)
Definition follows o1 o2 : Prop :=
  ro_Status o2 <> RevisionRejected ->
  ro_Status o1 <> RevisionRejected /\ (rank o1 <= rank o2)%nat /\
  (isTerminalOutcome (ro_Status o1) = true -> o2 = o1).

Lemma follows_refl o : follows o o.
Proof. by intros H. Qed.

Lemma follows_trans o1 o2 o3 : follows o1 o2 -> follows o2 o3 -> follows o1 o3.
Proof.
  intros H12 H23 H3. destruct (H23 H3) as (H2 & Hr & Ht). destruct (H12 H2) as (H1 & Hr' & Ht').
  split_and!; [done|lia|]. intros Hterm. rewrite Ht; [by apply Ht'|]. by rewrite Ht'.
Qed.

(** What a transition of the actor may do to a revision. *)
Record moves a a' : Prop := {
  mv_known c : known a c -> known a' c;
  mv_dead c : dead a c -> dead a' c;
  mv_current c o' : known a c -> la_current a' !! correlationKey c = Some o' ->
    exists o, la_current a !! correlationKey c = Some o /\ follows o o' }.

Lemma moves_refl a : moves a a.
Proof. split; [done..|]. intros c o' _ Ho. exists o'. split; [done|apply follows_refl]. Qed.

Lemma moves_trans a1 a2 a3 : moves a1 a2 -> moves a2 a3 -> moves a1 a3.
Proof.
  intros [K1 D1 C1] [K2 D2 C2]. split; [by auto..|]. intros c o' Hk H3.
  destruct (C2 c o' (K1 c Hk) H3) as (o2 & H2 & Hf). destruct (C1 c o2 Hk H2) as (o1 & H1 & Hf').
  exists o1. split; [done|by eapply follows_trans].
Qed.

(** [o] is told at [a]. *)
Definition told a o : Prop :=
  if decide (ro_Status o = RevisionRejected) then dead a (ro_Correlation o)
  else la_current a !! correlationKey (ro_Correlation o) = Some o /\
       la_latest a !! correlationBaseKey (ro_Correlation o) = Some (pc_ClientRevision (ro_Correlation o)).

(** The outcomes told so far, seen from [a]. *)
Definition logged a o : Prop :=
  if decide (ro_Status o = RevisionRejected) then dead a (ro_Correlation o)
  else known a (ro_Correlation o) /\
       forall o', la_current a !! correlationKey (ro_Correlation o) = Some o' -> follows o o'.

Lemma logged_moves a a' o : moves a a' -> logged a o -> logged a' o.
Proof.
  intros [K D C]. unfold logged. case_decide; [by auto|]. intros [Hk Hf].
  split; [by auto|]. intros o' Ho. destruct (C _ _ Hk Ho) as (o1 & H1 & Hf1).
  eapply follows_trans; [by apply Hf|done].
Qed.

Lemma told_logged a o : told a o -> logged a o.
Proof.
  unfold told, logged. case_decide; [done|]. intros [Hc Hl]. split.
  - eexists. split; [done|lia].
  - intros o' Ho. simplify_eq. apply follows_refl.
Qed.

Lemma logged_told a o1 o2 :
  logged a o1 -> told a o2 -> ro_Correlation o1 = ro_Correlation o2 -> follows o1 o2.
Proof.
  unfold logged, told. intros H1 H2 Hc Hr. rewrite Hc in H1. rewrite decide_False in H2 by done.
  destruct H2 as [H2 Hl]. case_decide.
  - destruct H1 as (l & Hl' & [Hlt | [_ Hn]]); simplify_eq; lia.
  - destruct H1 as [_ Hf]. by apply (Hf o2).
Qed.

(** *** A new revision *)

Definition newer a c : Prop := forall l, la_latest a !! correlationBaseKey c = Some l -> l < pc_ClientRevision c.

Lemma newer_absent a c : actor_wf a -> newer a c -> la_current a !! correlationKey c = None.
Proof.
  intros Hwf Hn. destruct (la_current a !! correlationKey c) as [o|] eqn:Ho; [|done].
  apply (wf_current _ Hwf) in Ho as (<-%(inj correlationKey) & (l & Hl & Hle) & _).
  apply Hn in Hl. lia.
Qed.

(** The table after a record is entered, and the key that left. *)
Lemma record_table a c o : actor_wf a -> newer a c ->
  la_latest (record a c o) = <[correlationBaseKey c := pc_ClientRevision c]> (la_latest a) /\
  exists gone, la_current (record a c o) = filter (fun kv => kv.1 ∉ gone) (<[correlationKey c := o]> (la_current a)) /\
    gone ++ la_order (record a c o) = la_order a ++ [correlationKey c] /\
    (correlationKey c ∉ gone) /\ (length (la_order (record a c o)) <= lifecycleRecordLimit)%nat.
Proof.
  intros Hwf Hn. pose proof (newer_absent a c Hwf Hn) as Hc.
  assert (correlationKey c ∉ la_order a) as Hout by (rewrite (wf_order _ Hwf), Hc; by intros [? ?]).
  pose proof (wf_limit _ Hwf) as Hlim. unfold record. case_bool_decide as Hlen.
  - destruct (la_order a) as [|oldest rest] eqn:Ho; simpl in *; [unfold lifecycleRecordLimit in Hlen; lia|].
    split; [done|]. exists [oldest]. split_and!; simpl; [|done|set_solver|rewrite length_app; simpl; lia].
    apply map_eq. intros k. rewrite map_lookup_filter. simpl. destruct (decide (k = oldest)) as [->|Hk].
    + rewrite lookup_delete_eq. destruct (_ !! oldest); simpl; [|done].
      case_guard; [|done]. set_solver.
    + rewrite lookup_delete_ne by done. destruct (_ !! k); simpl; [|done].
      case_guard; [done|]. set_solver.
  - split; [done|]. exists []. split_and!; simpl; [|done|set_solver|lia].
    symmetry. apply map_filter_id. set_solver.
Qed.

Lemma known_record a c o c' : actor_wf a -> newer a c -> known a c' -> known (record a c o) c'.
Proof.
  intros Hwf Hn (l & Hl & Hle). destruct (record_table a c o Hwf Hn) as (Hlat & _). unfold known. rewrite Hlat.
  destruct (decide (correlationBaseKey c = correlationBaseKey c')) as [He|He].
  - exists (pc_ClientRevision c). rewrite He, lookup_insert_eq. split; [done|].
    rewrite <- He in Hl. apply Hn in Hl. lia.
  - exists l. by rewrite lookup_insert_ne.
Qed.

Lemma record_wf a c o : actor_wf a -> newer a c -> ro_Correlation o = c -> recordable (ro_Status o) ->
  actor_wf (record a c o).
Proof.
  intros Hwf Hn Hc Hs. destruct (record_table a c o Hwf Hn) as (Hlat & gone & Hcur & Hord & Hk & Hlen).
  assert (NoDup (gone ++ la_order (record a c o))) as Hnd.
  { rewrite Hord. apply NoDup_app. split_and!; [apply Hwf| |apply NoDup_singleton].
    intros k Hin Hin'. apply list_elem_of_singleton in Hin' as ->. apply (wf_order _ Hwf) in Hin.
    rewrite newer_absent in Hin by done. by destruct Hin. }
  apply NoDup_app in Hnd as (_ & Hdis & Hnd). split; [| |done|done].
  - intros k o' Ho. rewrite Hcur in Ho. apply map_lookup_filter_Some in Ho as [Ho _].
    apply lookup_insert_Some in Ho as [[<- <-] | [_ Ho]].
    + rewrite Hc. split_and!; [done| |done]. exists (pc_ClientRevision c). rewrite Hlat, lookup_insert_eq.
      split; [done|lia].
    + apply (wf_current _ Hwf) in Ho as (-> & Hkn & Hr). split_and!; [done| |done]. by apply known_record.
  - intros k. rewrite Hcur. split.
    + intros Hin. assert (k ∈ la_order a ++ [correlationKey c]) as Hk' by (rewrite <- Hord; set_solver).
      assert (k ∉ gone) as Hg by (intros Hg; by apply (Hdis k)).
      apply elem_of_app in Hk' as [Hk'%(wf_order _ Hwf) | ->%list_elem_of_singleton].
      * destruct (decide (k = correlationKey c)) as [->|Hne].
        { exists o. apply map_lookup_filter_Some. by rewrite lookup_insert_eq. }
        destruct Hk' as [o' Ho']. exists o'. apply map_lookup_filter_Some. by rewrite lookup_insert_ne.
      * exists o. apply map_lookup_filter_Some. by rewrite lookup_insert_eq.
    + intros [o' [Ho Hg]%map_lookup_filter_Some]. simpl in Hg.
      assert (k ∈ gone ++ la_order (record a c o)) as Hin; [|set_solver]. rewrite Hord.
      apply lookup_insert_Some in Ho as [[<- _] | [_ Ho]]; [set_solver|].
      apply elem_of_app. left. apply (wf_order _ Hwf). by exists o'.
Qed.

Lemma record_moves a c o : actor_wf a -> newer a c -> moves a (record a c o).
Proof.
  intros Hwf Hn. destruct (record_table a c o Hwf Hn) as (Hlat & gone & Hcur & _ & _ & _). split.
  - intros c'. by apply known_record.
  - intros c' (l & Hl & Hd). unfold dead. rewrite Hlat.
    destruct (decide (correlationBaseKey c = correlationBaseKey c')) as [He|He].
    + exists (pc_ClientRevision c). rewrite He, lookup_insert_eq. split; [done|]. left.
      rewrite <- He in Hl. apply Hn in Hl. lia.
    + exists l. rewrite lookup_insert_ne by done. split; [done|]. destruct Hd as [Hlt | [Hr Hnone]]; [by left|].
      right. split; [done|]. rewrite Hcur, map_lookup_filter, lookup_insert_ne, Hnone; [done|].
      by intros [? ?]%correlationKey_base.
  - intros c' o' (l & Hl & Hle) Ho. rewrite Hcur in Ho. apply map_lookup_filter_Some in Ho as [Ho _].
    apply lookup_insert_Some in Ho as [[[He Hr]%correlationKey_base _] | [_ Ho]].
    + rewrite <- He in Hl. apply Hn in Hl. lia.
    + exists o'. split; [done|apply follows_refl].
Qed.

Lemma record_told a c o : actor_wf a -> newer a c -> ro_Correlation o = c -> recordable (ro_Status o) ->
  told (record a c o) o.
Proof.
  intros Hwf Hn <- Hs. destruct (record_table a _ o Hwf Hn) as (Hlat & gone & Hcur & _ & Hg & _).
  unfold told. rewrite decide_False by (by apply recordable_refusal). rewrite Hlat, lookup_insert_eq. split; [|done].
  rewrite Hcur. apply map_lookup_filter_Some. by rewrite lookup_insert_eq.
Qed.

(** *** A recorded revision *)

Lemma update_ok a c o o' : actor_wf a ->
  la_latest a !! correlationBaseKey c = Some (pc_ClientRevision c) ->
  la_current a !! correlationKey c = Some o -> isTerminalOutcome (ro_Status o) = false ->
  ro_Correlation o' = c -> recordable (ro_Status o') -> (rank o <= rank o')%nat ->
  let a' := a <| la_current := <[correlationKey c := o']> (la_current a) |> in
  actor_wf a' /\ moves a a' /\ told a' o'.
Proof.
  intros Hwf Hl Ho Hterm Hc Hs Hr a'. split_and!.
  - split; simpl; [| |apply Hwf..].
    + intros k o1 [[<- <-] | [_ Ho1]]%lookup_insert_Some; [|by apply Hwf].
      rewrite Hc. split_and!; [done| |done]. eexists. split; [done|lia].
    + intros k. rewrite (wf_order _ Hwf), lookup_insert_is_Some'. split; [by right|].
      intros [<- | Hk]; [by exists o|done].
  - split; [done| |].
    + intros c' (l & Hl' & Hd). exists l. split; [done|]. destruct Hd as [Hlt | [Hre Hnone]]; [by left|right].
      split; [done|]. simpl. rewrite lookup_insert_ne; [done|]. intros He. rewrite He in Ho. congruence.
    + intros c' o1 _ Ho1. simpl in Ho1.
      apply lookup_insert_Some in Ho1 as [[<-%(inj correlationKey) <-] | [_ Ho1]].
      * exists o. split; [done|]. intros _. split_and!; [|done|by rewrite Hterm].
        apply (wf_current _ Hwf) in Ho as (_ & _ & ?). by apply recordable_refusal.
      * exists o1. split; [done|apply follows_refl].
  - unfold told. rewrite decide_False, Hc by (by apply recordable_refusal). simpl. by rewrite lookup_insert_eq.
Qed.

(** *** The operations *)

Lemma Admit_ok a c a' o : actor_wf a -> Admit a c = (a', o) -> actor_wf a' /\ moves a a' /\ told a' o.
Proof.
  intros Hwf. unfold Admit, told.
  assert (newer a c -> (record a c (plain c RevisionAccepted ""), plain c RevisionAccepted "") = (a', o) ->
    actor_wf a' /\ moves a a' /\ told a' o) as Hfresh.
  { intros Hn [= <- <-]. assert (recordable RevisionAccepted) by (unfold recordable; set_solver).
    split_and!; [by apply record_wf|by apply record_moves|by apply record_told]. }
  destruct (la_latest a !! correlationBaseKey c) as [l|] eqn:Hl;
    [|apply Hfresh; by intros l' ?; simplify_eq].
  destruct (Z.ltb_spec (pc_ClientRevision c) l).
  { intros [= <- <-]. split_and!; [done|apply moves_refl|]. exists l. split; [done|by left]. }
  destruct (Z.eqb_spec l (pc_ClientRevision c)) as [He|He].
  - destruct (la_current a !! correlationKey c) as [o1|] eqn:Ho; intros [= <- <-].
    + destruct (wf_current _ Hwf _ _ Ho) as (<-%(inj correlationKey) & _ & Hs).
      split_and!; [done|apply moves_refl|]. rewrite decide_False by (by apply recordable_refusal).
      by rewrite Hl, He.
    + split_and!; [done|apply moves_refl|]. exists l. split; [done|]. by right.
  - apply Hfresh. intros l' ?. simplify_eq. lia.
Qed.

Lemma MarkWaiting_ok a c a' w : actor_wf a -> MarkWaiting a c = (a', w) ->
  actor_wf a' /\ moves a a' /\ forall o, w = Some o -> told a' o.
Proof.
  intros Hwf. assert ((a, None) = (a', w) -> actor_wf a' /\ moves a a' /\ forall o, w = Some o -> told a' o) as Hno.
  { intros [= <- <-]. split_and!; [done|apply moves_refl|done]. }
  unfold MarkWaiting, isCurrent. case_bool_decide as Hl; [|done]. case_bool_decide as Hc; [|done]. simpl.
  destruct (la_current a !! correlationKey c) as [o|] eqn:Ho; [|done].
  destruct (isTerminalOutcome (ro_Status o)) eqn:Ht; [done|]. intros [= <- <-].
  destruct (update_ok a c o (plain c RevisionWaiting "") Hwf Hl Ho Ht) as (H1 & H2 & H3);
    [done|unfold recordable; set_solver| |].
  - unfold rank. rewrite Ht. simpl. case_decide; lia.
  - split_and!; [done..|]. by intros o' [= <-].
Qed.

Lemma Complete_ok a c status q f reason a' res : actor_wf a -> recordable status ->
  Complete a c status q f reason = (a', res) ->
  actor_wf a' /\ moves a a' /\ forall o, res = inr o -> told a' o.
Proof.
  intros Hwf Hs. unfold Complete. destruct (isTerminalOutcome status) eqn:Hst; simpl;
    [|intros [= <- <-]; split_and!; [done|apply moves_refl|done]].
  case_bool_decide as Hl; simpl; [|intros [= <- <-]; split_and!; [done|apply moves_refl|done]].
  destruct (la_current a !! correlationKey c) as [o|] eqn:Ho;
    [|intros [= <- <-]; split_and!; [done|apply moves_refl|done]].
  destruct (isTerminalOutcome (ro_Status o)) eqn:Ht; intros [= <- <-];
    [split_and!; [done|apply moves_refl|done]|].
  destruct (update_ok a c o (mkOutcome c status q f reason) Hwf Hl Ho Ht) as (H1 & H2 & H3); [done..| |].
  - unfold rank. rewrite Ht. simpl. rewrite Hst. case_decide; lia.
  - split_and!; [done..|]. by intros o' [= <-].
Qed.

End ActorFacts.

(** ** What the lane tells *)

(** From [a] to [a'], telling [outs]. *)
Inductive speaks : TerminalLifecycleActor -> list RevisionOutcome -> TerminalLifecycleActor -> Prop :=
| speaks_end a : actor_wf a -> speaks a [] a
| speaks_move a a1 outs a2 : moves a a1 -> actor_wf a1 -> speaks a1 outs a2 -> speaks a outs a2
| speaks_tell a o outs a2 : actor_wf a -> told a o -> speaks a outs a2 -> speaks a (o :: outs) a2.

Lemma speaks_wf a outs a' : speaks a outs a' -> actor_wf a'.
Proof. by induction 1. Qed.

Lemma speaks_app a1 outs1 a2 outs2 a3 :
  speaks a1 outs1 a2 -> speaks a2 outs2 a3 -> speaks a1 (outs1 ++ outs2) a3.
Proof. induction 1; simpl; eauto using speaks. Qed.

Lemma speaks_logged a outs a' o1 o2 :
  speaks a outs a' -> logged a o1 -> o2 ∈ outs -> ro_Correlation o1 = ro_Correlation o2 -> follows o1 o2.
Proof.
  induction 1 as [|a a1 outs a2 Hm _ _ IH|a o outs a2 _ Ht _ IH]; intros Hlog Hin Hc.
  - by apply not_elem_of_nil in Hin.
  - apply IH; [by eapply logged_moves|done..].
  - apply elem_of_cons in Hin as [->|Hin]; [by eapply logged_told|by apply IH].
Qed.

Lemma speaks_ordered a outs a' l1 o1 l2 o2 l3 :
  speaks a outs a' -> outs = l1 ++ o1 :: l2 ++ o2 :: l3 -> ro_Correlation o1 = ro_Correlation o2 -> follows o1 o2.
Proof.
  intros Hs. revert l1. induction Hs as [|a a1 outs a2 Hm _ _ IH|a o outs a2 _ Ht Hs IH]; intros l1 Heq Hc.
  - by destruct l1.
  - by eapply IH.
  - destruct l1 as [|x l1]; simplify_eq/=; [|by eapply IH].
    eapply speaks_logged; [done|by apply told_logged|set_solver|done].
Qed.

Lemma speaks_dead a outs a' c : speaks a outs a' -> dead a c -> dead a' c.
Proof. induction 1 as [|a a1 outs a2 [_ D _] _ _ IH|]; auto. Qed.

Lemma speaks_refused a outs a' o :
  speaks a outs a' -> o ∈ outs -> ro_Status o = RevisionRejected -> dead a' (ro_Correlation o).
Proof.
  induction 1 as [| |a o' outs a2 _ Ht Hs IH]; [by intros ?%not_elem_of_nil|auto|].
  intros [->|Hin]%elem_of_cons Hr; [|auto]. eapply speaks_dead; [done|].
  unfold told in Ht. by rewrite decide_True in Ht.
Qed.

Section LaneFacts.
Context `{GoMapRange} {HT : HostTypes}.
Implicit Types (s : State) (r : LifecycleRuntime) (c : PublicCorrelation).

Lemma outcomes_app effs1 effs2 : outcomes (effs1 ++ effs2) = outcomes effs1 ++ outcomes effs2.
Proof. apply omap_app. Qed.

Definition silent (effs : list LifecycleEffect) : Prop := outcomes effs = [].

Lemma silent_response r connID reqID : silent (sendLifecycleResponse r connID reqID).
Proof. unfold sendLifecycleResponse. by case_decide. Qed.

Lemma silent_error r connID reqID code message : silent (sendLifecycleError r connID reqID code message).
Proof. unfold sendLifecycleError. by case_decide. Qed.

Lemma silent_unsubscribe r b : silent (relayUnsubscribe r b).
Proof. unfold relayUnsubscribe. by destruct (lr_relay r). Qed.

Lemma silent_rebind r connID cmd : silent (rebind r connID cmd).2.
Proof.
  unfold rebind. destruct (lr_bindings r !! _) as [old|]; [|done].
  destruct (_ <? _); [|done]. simpl. case_match; [apply silent_unsubscribe|done].
Qed.

Lemma silent_bind {A} (f : A -> list LifecycleEffect) l : (forall x, silent (f x)) -> silent (l ≫= f).
Proof.
  intros Hf. induction l as [|x l IH]; [done|]. unfold silent in *. simpl. rewrite outcomes_app, Hf. done.
Qed.

Lemma complete_speaks r c status reason r' effs : recordable status -> actor_wf (lr_actor r) ->
  complete r c status reason = (r', effs) -> speaks (lr_actor r) (outcomes effs) (lr_actor r').
Proof.
  intros Hs Hwf. unfold complete. destruct (Complete _ _ _ _ _ _) as [a [e|o]] eqn:Hc; intros [= <- <-];
    apply Complete_ok in Hc as (Hwf' & Hm & Ht); try done; simpl.
  - eapply speaks_move; [done..|by apply speaks_end].
  - eapply speaks_move; [done..|]. apply speaks_tell; [done|by apply Ht|by apply speaks_end].
Qed.

Lemma desired_speaks s r connID reqID cmd r' effs : actor_wf (lr_actor r) ->
  handleLifecycleDesired s r connID reqID cmd = (r', effs) ->
  speaks (lr_actor r) (outcomes effs) (lr_actor r').
Proof.
  intros Hwf. unfold handleLifecycleDesired. destruct (desiredFrame s cmd) as [e|frameID].
  { intros [= <- <-]. rewrite silent_error. by apply speaks_end. }
  case_match. { intros [= <- <-]. rewrite silent_error. by apply speaks_end. }
  destruct (Admit _ _) as [a out] eqn:Ha. apply Admit_ok in Ha as (Hwf1 & Hm1 & Ht1); [|done].
  case_match.
  { intros [= <- <-]. simpl. rewrite silent_response. eapply speaks_move; [done..|].
    apply speaks_tell; [done..|by apply speaks_end]. }
  destruct (MarkWaiting _ _) as [a' w] eqn:Hw. apply MarkWaiting_ok in Hw as (Hwf2 & Hm2 & Ht2); [|done].
  pose proof (silent_rebind r connID (with_subscriber connID cmd)) as Hsil.
  destruct (rebind _ _ _) as [bs es]. intros [= <- <-]. cbn [outcomes omap list_omap].
  fold outcomes. rewrite !outcomes_app, silent_response. simpl in Hsil. rewrite Hsil. simpl.
  assert (outcomes (if cd_Desired (with_subscriber connID cmd) then [GoExpiry connID (cd_Correlation cmd)] else []) = [])
    as -> by (by case_match). rewrite app_nil_r.
  eapply speaks_move; [done..|]. apply speaks_tell; [done..|].
  eapply speaks_move; [done..|]. destruct w as [w|]; simpl; [|by apply speaks_end].
  apply speaks_tell; [done|by apply Ht2|by apply speaks_end].
Qed.

Lemma dispatch_speaks s r ev r' effs : actor_wf (lr_actor r) ->
  dispatchLifecycle s r ev = (r', effs) -> speaks (lr_actor r) (outcomes effs) (lr_actor r').
Proof.
  intros Hwf. destruct ev as [connID reqID cmd|connID cmd err|connID c|connID c|connID]; simpl.
  - by apply desired_speaks.
  - apply complete_speaks; [|done]. unfold recordable. repeat case_match; set_solver.
  - apply complete_speaks; [unfold recordable; set_solver|done].
  - unfold handleLifecycleExpiry. destruct (lr_bindings r !! _) as [b|];
      [|intros [= <- <-]; by apply speaks_end].
    case_match; [intros [= <- <-]; by apply speaks_end|].
    destruct (complete _ _ _ _) as [r1 effs1] eqn:Hc. intros [= <- <-].
    rewrite outcomes_app, silent_unsubscribe. apply complete_speaks in Hc; [done|unfold recordable; set_solver|done].
  - unfold handleConnClose, releaseLifecycleBindings. intros [= <- <-]. simpl.
    rewrite silent_bind by (intros b; apply silent_unsubscribe). by apply speaks_end.
Qed.

Lemma run_speaks r evs r' effs : actor_wf (lr_actor r) ->
  runLifecycle r evs = (r', effs) -> speaks (lr_actor r) (outcomes effs) (lr_actor r').
Proof.
  revert r r' effs. induction evs as [|[s ev] evs IH]; intros r r' effs Hwf; simpl.
  - intros [= <- <-]. by apply speaks_end.
  - destruct (dispatchLifecycle s r ev) as [r1 effs1] eqn:Hd. destruct (runLifecycle r1 evs) as [r2 effs2] eqn:Hr.
    intros [= <- <-]. apply dispatch_speaks in Hd; [|done]. rewrite outcomes_app.
    eapply speaks_app; [done|]. apply IH; [by eapply speaks_wf|done].
Qed.

Lemma new_wf : actor_wf NewTerminalLifecycleActor.
Proof. split; simpl; [done| |constructor|lia]. intros k. rewrite lookup_empty, is_Some_alt. set_solver. Qed.

(** C11: Whatever requests, worker results, timers and closed connections reach the
    lifecycle lane, and in whatever order: of two outcomes told for one revision the later
    one either is a refusal, told because a newer revision of that client connection was
    requested or the record of this one was evicted (and then the revision is dead for
    good: no outcome but a refusal is told of it any more); or it is no step back in
    accepted, waiting, terminal, comes after no refusal, and is the same outcome if the
    earlier one was terminal.  So a terminal outcome can only be followed by itself or by
    such a refusal. *)
Theorem lifecycle_outcome_final r0 evs r effs l1 o1 l2 o2 l3 :
  lr_actor r0 = NewTerminalLifecycleActor -> runLifecycle r0 evs = (r, effs) ->
  outcomes effs = l1 ++ o1 :: l2 ++ o2 :: l3 -> ro_Correlation o1 = ro_Correlation o2 ->
  (ro_Status o2 = RevisionRejected /\ dead (lr_actor r) (ro_Correlation o2) /\
   (forall o3, o3 ∈ l3 -> ro_Correlation o3 = ro_Correlation o2 -> ro_Status o3 = RevisionRejected)) \/
  (ro_Status o2 <> RevisionRejected /\ ro_Status o1 <> RevisionRejected /\ (rank o1 <= rank o2)%nat /\
   (isTerminalOutcome (ro_Status o1) = true -> o2 = o1)).
Proof.
  intros H0 Hr Hl Hc. apply run_speaks in Hr; [|rewrite H0; apply new_wf].
  destruct (decide (ro_Status o2 = RevisionRejected)) as [He|He].
  - left. split; [done|]. split; [eapply speaks_refused; [done|rewrite Hl; set_solver|done]|].
    intros o3 (l4 & l5 & ->)%list_elem_of_split Hc3. destruct (decide (ro_Status o3 = RevisionRejected)); [done|].
    destruct (speaks_ordered _ _ _ (l1 ++ o1 :: l2) o2 l4 o3 l5 Hr) as [Hn _]; try done.
    by rewrite Hl, <- app_assoc.
  - right. split; [done|]. by apply (speaks_ordered _ _ _ l1 o1 l2 o2 l3 Hr).
Qed.

(** ** The caps *)

Record caps r : Prop := {
  cp_bindings : (size (lr_bindings r) <= 8)%nat;
  cp_actor : actor_wf (lr_actor r) }.

Lemma complete_bindings r c status reason : lr_bindings (complete r c status reason).1 = lr_bindings r.
Proof. unfold complete. by destruct (Complete _ _ _ _ _ _) as [a [e|o]]. Qed.

Lemma size_delete_le {A} (m : gmap string A) k : (size (delete k m) <= size m)%nat.
Proof. apply map_subseteq_size, delete_subseteq. Qed.

Lemma rebind_cap r connID cmd :
  (size (lr_bindings r) <= 8)%nat ->
  (cd_Desired cmd && bool_decide (lr_bindings r !! lifecycleBindingKey connID (cd_Correlation cmd) = None)
   && bool_decide (8 <= size (lr_bindings r))%nat = false) ->
  (size (rebind r connID cmd).1 <= 8)%nat.
Proof.
  intros Hcap Hfree. unfold rebind. set (key := lifecycleBindingKey connID (cd_Correlation cmd)) in *.
  destruct (cd_Desired cmd) eqn:Hd; simpl in *.
  - destruct (lr_bindings r !! key) as [old|] eqn:Hk; simpl in *.
    + destruct (_ <? _); simpl; rewrite map_size_insert; [|by rewrite Hk].
      rewrite lookup_delete_eq, map_size_delete, Hk. simpl. lia.
    + apply bool_decide_eq_false in Hfree. rewrite map_size_insert, Hk. lia.
  - pose proof (size_delete_le (lr_bindings r) key). pose proof (size_delete_le (delete key (lr_bindings r)) key).
    destruct (lr_bindings r !! key) as [old|]; [destruct (_ <? _)|]; simpl; lia.
Qed.

Lemma with_subscriber_correlation connID cmd :
  cd_Correlation (with_subscriber connID cmd) = cd_Correlation cmd.
Proof. unfold with_subscriber. by case_bool_decide. Qed.

Lemma dispatch_caps s r ev : caps r -> caps (dispatchLifecycle s r ev).1.
Proof.
  intros [Hb Ha]. destruct (dispatchLifecycle s r ev) as [r' effs] eqn:Hd. simpl.
  split; [|by eapply speaks_wf, dispatch_speaks]. destruct ev as [connID reqID cmd|connID cmd err|connID c|connID c|connID]; simpl in Hd.
  - unfold handleLifecycleDesired in Hd. destruct (desiredFrame s cmd); [by simplify_eq|].
    destruct (_ && _ && _) eqn:Hfree; [by simplify_eq|]. destruct (Admit _ _) as [a out].
    destruct (_ || _); [by simplify_eq|].
    destruct (MarkWaiting _ _). destruct (rebind _ _ _) as [bs es] eqn:Hreb. simplify_eq. simpl.
    pose proof (rebind_cap r connID (with_subscriber connID cmd) Hb) as Hcap. rewrite Hreb in Hcap. apply Hcap.
    by rewrite with_subscriber_correlation.
  - apply (f_equal fst) in Hd. simpl in Hd. subst. unfold handleLifecycleEffectResult. by rewrite complete_bindings.
  - apply (f_equal fst) in Hd. simpl in Hd. subst. unfold handleLifecycleDeadline. by rewrite complete_bindings.
  - unfold handleLifecycleExpiry in Hd. destruct (lr_bindings r !! _); [|by simplify_eq].
    case_match; [by simplify_eq|]. destruct (complete _ _ _ _) as [r1 es] eqn:Hc. simplify_eq.
    apply (f_equal (fun p => lr_bindings p.1)) in Hc. rewrite complete_bindings in Hc. simpl in Hc. rewrite <- Hc.
    pose proof (size_delete_le (lr_bindings r) (lifecycleBindingKey connID c)). lia.
  - unfold handleConnClose, releaseLifecycleBindings in Hd. simplify_eq. simpl.
    etrans; [|done]. apply map_subseteq_size, map_filter_subseteq.
Qed.

Lemma run_caps r evs : caps r -> caps (runLifecycle r evs).1.
Proof.
  revert r. induction evs as [|[s ev] evs IH]; intros r Hr; [done|]. simpl.
  pose proof (dispatch_caps s r ev Hr) as Hd. destruct (dispatchLifecycle s r ev) as [r1 effs].
  specialize (IH r1 Hd). by destruct (runLifecycle r1 evs).
Qed.

Lemma actor_size a : actor_wf a -> (size (la_current a) <= lifecycleRecordLimit)%nat.
Proof.
  intros Ha. rewrite <- size_dom. etrans; [|apply (wf_limit _ Ha)].
  assert (dom (la_current a) = list_to_set (C := gset string) (la_order a)) as ->.
  { apply set_eq. intros k. by rewrite elem_of_dom, elem_of_list_to_set, (wf_order _ Ha). }
  by rewrite size_list_to_set by apply Ha.
Qed.

(** Whatever reaches the lifecycle lane, at most eight subscriptions are bound and
    at most 24 outcomes are recorded. *)
Theorem lifecycle_bounded r0 evs :
  lr_actor r0 = NewTerminalLifecycleActor -> lr_bindings r0 = ∅ ->
  (size (lr_bindings (runLifecycle r0 evs).1) <= 8)%nat /\
  (size (la_current (lr_actor (runLifecycle r0 evs).1)) <= lifecycleRecordLimit)%nat.
Proof.
  intros Ha Hb. destruct (run_caps r0 evs) as [Hcap Hwf].
  - split; [rewrite Hb, map_size_empty; lia|rewrite Ha; apply new_wf].
  - split; [done|by apply actor_size].
Qed.

(** ** The deadline *)

(** [c] has its outcome, or a newer revision or the record limit has taken its place. *)
Definition settled a c : Prop :=
  exists l, la_latest a !! correlationBaseKey c = Some l /\
    (pc_ClientRevision c < l \/
     pc_ClientRevision c = l /\
     forall o, la_current a !! correlationKey c = Some o -> isTerminalOutcome (ro_Status o) = true).

Lemma settled_moves a a' c : actor_wf a' -> moves a a' -> settled a c -> settled a' c.
Proof.
  intros Hwf [K D C] (l & Hl & Hs).
  assert (known a c) as Hk by (exists l; split; [done|lia]). destruct (K c Hk) as (l' & Hl' & Hle).
  exists l'. split; [done|]. destruct (decide (pc_ClientRevision c = l')) as [He|]; [right|left; lia].
  split; [done|]. intros o' Ho'. destruct (C c o' Hk Ho') as (o & Ho & Hf).
  destruct Hs as [Hlt | [_ Ht]].
  - destruct (D c) as (l2 & Hl2 & [? | [_ Hn]]); [exists l; split; [done|by left]|simplify_eq; lia|congruence].
  - destruct (wf_current _ Hwf _ _ Ho') as (_ & _ & Hr%recordable_refusal).
    destruct (Hf Hr) as (_ & _ & Heq). rewrite (Heq (Ht o Ho)). by apply Ht.
Qed.

Lemma settled_speaks a outs a' c : speaks a outs a' -> settled a c -> settled a' c.
Proof.
  induction 1 as [|a a1 outs a2 Hm Hwf _ IH|a o outs a2 _ _ _ IH]; intros Hc; [done| |by apply IH].
  apply IH. by eapply settled_moves.
Qed.

Lemma logged_known a o : logged a o -> known a (ro_Correlation o).
Proof. unfold logged. case_decide; [|by intros [? _]]. intros (l & Hl & Hd). exists l. split; [done|lia]. Qed.

Lemma speaks_known a outs a' o : speaks a outs a' -> o ∈ outs -> known a' (ro_Correlation o).
Proof.
  assert (forall a outs a' o, speaks a outs a' -> logged a o -> known a' (ro_Correlation o)) as Hstay.
  { clear. intros a outs a' o. induction 1 as [|a a1 outs a2 Hm _ _ IH|a o' outs a2 _ _ _ IH]; intros Hl.
    - by apply logged_known.
    - apply IH. by eapply logged_moves.
    - by apply IH. }
  induction 1 as [|a a1 outs a2 Hm _ _ IH|a o' outs a2 _ Ht Hs IH]; intros Hin.
  - by apply not_elem_of_nil in Hin.
  - by apply IH.
  - apply elem_of_cons in Hin as [->|Hin]; [|by apply IH]. by eapply Hstay, told_logged.
Qed.

(** Completing a revision settles it. *)
Lemma complete_settles r c status reason : isTerminalOutcome status = true -> known (lr_actor r) c ->
  settled (lr_actor (complete r c status reason).1) c.
Proof.
  intros Ht (l & Hl & Hle). unfold complete, Complete. rewrite Ht. simpl.
  case_bool_decide as Hb; simpl;
    [|exists l; split; [done|]; left; destruct (decide (pc_ClientRevision c = l)); [congruence|lia]].
  destruct (la_current (lr_actor r) !! correlationKey c) as [o|] eqn:Ho; simpl.
  - destruct (isTerminalOutcome (ro_Status o)) eqn:Hto; simpl; eexists; (split; [done|]); right;
      (split; [done|]); intros o'; simpl; [by rewrite Ho; intros [= <-]|]. rewrite lookup_insert_eq. by intros [= <-].
  - eexists. split; [done|]. right. split; [done|]. intros o'. by rewrite Ho.
Qed.

Lemma settled_silent r c status reason : settled (lr_actor r) c -> silent (complete r c status reason).2.
Proof.
  intros (l & Hl & Hs). unfold complete, Complete. destruct (isTerminalOutcome status); [|done]. simpl.
  case_bool_decide as Hb; [|done]. simpl. destruct Hs as [Hlt | [_ Ht]]; [simplify_eq; lia|].
  destruct (la_current (lr_actor r) !! correlationKey c) as [o|]; [|done]. by rewrite (Ht o).
Qed.

Lemma runLifecycle_app r evs1 evs2 :
  runLifecycle r (evs1 ++ evs2) =
  let '(r1, effs1) := runLifecycle r evs1 in
  let '(r2, effs2) := runLifecycle r1 evs2 in (r2, effs1 ++ effs2).
Proof.
  revert r. induction evs1 as [|[s ev] evs1 IH]; intros r; simpl.
  - by destruct (runLifecycle r evs2).
  - destruct (dispatchLifecycle s r ev) as [r1 effs1]. rewrite IH.
    destruct (runLifecycle r1 evs1) as [r2 effs2], (runLifecycle r2 evs2) as [r3 effs3]. by rewrite (assoc_L (++)).
Qed.

(** C33: No revision is left waiting by a worker that does not return: once the deadline
    of a revision that was answered has passed, it has a terminal outcome, unless a newer
    revision of the same client or the record limit has taken its place; it stays so, and
    a lease that expires later tells nothing. *)
Theorem lifecycle_deadline_settles r0 evs1 o s connID evs2 connID' :
  lr_actor r0 = NewTerminalLifecycleActor -> o ∈ outcomes (runLifecycle r0 evs1).2 ->
  let c := ro_Correlation o in
  let r := (runLifecycle r0 (evs1 ++ (s, LifecycleDeadline connID c) :: evs2)).1 in
  settled (lr_actor r) c /\ outcomes (handleLifecycleExpiry r connID' c).2 = [].
Proof.
  intros H0 Ho c r. assert (settled (lr_actor r) c) as Hs.
  { subst r. rewrite runLifecycle_app. destruct (runLifecycle r0 evs1) as [r1 effs1] eqn:H1.
    apply run_speaks in H1; [|rewrite H0; apply new_wf]. pose proof (speaks_known _ _ _ _ H1 Ho) as Hk.
    simpl. destruct (handleLifecycleDeadline r1 c) as [r2 effs2] eqn:H2.
    destruct (runLifecycle r2 evs2) as [r3 effs3] eqn:H3. simpl.
    pose proof (complete_settles r1 c RevisionDegraded "apply_deadline_exceeded" eq_refl Hk) as Hset.
    assert (speaks (lr_actor r1) (outcomes effs2) (lr_actor r2)) as Hsp.
    { apply (dispatch_speaks s r1 (LifecycleDeadline connID c)); [by eapply speaks_wf|done]. }
    unfold handleLifecycleDeadline in H2. rewrite H2 in Hset.
    eapply settled_speaks; [|exact Hset]. eapply run_speaks; [by eapply speaks_wf|done]. }
  split; [done|]. unfold handleLifecycleExpiry. destruct (lr_bindings r !! _) as [b|]; [|done].
  case_match; [done|].
  match goal with |- context [complete ?r' _ ?status ?reason] =>
    pose proof (settled_silent r' c status reason Hs) as Hsil end.
  destruct (complete _ _ _ _) as [r' effs]. simpl in *. by rewrite outcomes_app, silent_unsubscribe.
Qed.

Lemma speaks_statuses a outs a' o :
  speaks a outs a' -> o ∈ outs -> recordable (ro_Status o) \/ ro_Status o = RevisionRejected.
Proof.
  induction 1 as [|a a1 outs a2 _ _ _ IH|a o' outs a2 Hwf Ht _ IH]; intros Hin.
  - by apply not_elem_of_nil in Hin.
  - by apply IH.
  - apply elem_of_cons in Hin as [->|Hin]; [|by apply IH]. unfold told in Ht.
    case_decide; [by right|left]. destruct Ht as [Ht _]. by apply (wf_current _ Hwf) in Ht as (_ & _ & ?).
Qed.

(** No outcome that is told is [superseded] or [no_output]. *)
Lemma lifecycle_statuses r0 evs o :
  lr_actor r0 = NewTerminalLifecycleActor -> o ∈ outcomes (runLifecycle r0 evs).2 ->
  recordable (ro_Status o) \/ ro_Status o = RevisionRejected.
Proof.
  intros H0. destruct (runLifecycle r0 evs) as [r effs] eqn:Hr. simpl.
  apply run_speaks in Hr; [|rewrite H0; apply new_wf]. by eapply speaks_statuses.
Qed.

End LaneFacts.

(** * host/runtime: the terminal lifecycle on concrete inputs *)

Module LifecycleDemo.
Import HostDemo.

Definition frame : SessionFrame :=
  mkFrame "f" "f" "f" "/work" "claude" zero_options 5 (Some "new").

Definition host : State :=
  New <| st_Sessions := {["s" := mkSession "s" "/work" 5 [frame] "f" [] "claude" zero_options (Some "new")
                                   None 0 None None]} |>.

(** Revision [n] of the browser on connection 3. *)
Definition rev (n : Z) : PublicCorrelation := mkCorrelation "browser" 1 n.
Definition want (n : Z) : CmdLifecycleDesired := mkDesired (rev n) "s" "" 80 24 true.
Definition event (ev : LifecycleEvent) : State * LifecycleEvent := (host, ev).

Definition start : LifecycleRuntime := mkLifecycle NewTerminalLifecycleActor ∅ true {[3]}.

(** A revision that its worker applies; its deadline and its lease come later. *)
Definition applied : list (State * LifecycleEvent) :=
  [event (LifecycleDesired 3 "r1" (want 1)); event (LifecycleEffectResult 3 (want 1) None)].

Lemma lifecycle_outcome_final_witness :
  ro_Status <$> outcomes (runLifecycle start (applied ++ [event (LifecycleDesired 3 "r1" (want 1))])).2
    = [RevisionAccepted; RevisionWaiting; RevisionApplied; RevisionApplied] /\
  forall o1 o2, [o1; o2] = drop 2 (outcomes (runLifecycle start (applied ++ [event (LifecycleDesired 3 "r1" (want 1))])).2) ->
    (rank o1 <= rank o2)%nat.
Proof.
  split; [vm_compute; reflexivity|]. intros o1 o2 Heq.
  destruct (lifecycle_outcome_final start (applied ++ [event (LifecycleDesired 3 "r1" (want 1))])
    (runLifecycle start (applied ++ [event (LifecycleDesired 3 "r1" (want 1))])).1
    (runLifecycle start (applied ++ [event (LifecycleDesired 3 "r1" (want 1))])).2
    [plain (rev 1) RevisionAccepted ""; plain (rev 1) RevisionWaiting ""] o1 [] o2 []) as [(Hd & _)|(_ & _ & Hr & _)].
  - reflexivity.
  - vm_compute. reflexivity.
  - vm_compute in Heq. injection Heq as -> ->. vm_compute. reflexivity.
  - vm_compute in Heq. injection Heq as -> ->. reflexivity.
  - exfalso. vm_compute in Heq. injection Heq as -> ->. discriminate Hd.
  - exact Hr.
Defined.

Lemma lifecycle_bounded_witness :
  (size (lr_bindings (runLifecycle start applied).1) <= 8)%nat /\
  (size (la_current (lr_actor (runLifecycle start applied).1)) <= lifecycleRecordLimit)%nat.
Proof. apply (lifecycle_bounded start applied); reflexivity. Defined.

Lemma lifecycle_deadline_settles_witness :
  settled (lr_actor (runLifecycle start ([event (LifecycleDesired 3 "r1" (want 1))]
    ++ [(host, LifecycleDeadline 3 (rev 1))])).1) (rev 1).
Proof.
  apply (lifecycle_deadline_settles start [event (LifecycleDesired 3 "r1" (want 1))]
    (plain (rev 1) RevisionWaiting "") host 3 [] 3); [reflexivity|].
  vm_compute. right. left.
Defined.

(** A revision that is replaced before its worker returns stays waiting: neither its
    worker nor its deadline gives it an outcome. *)
Example replaced_revision_stays_waiting :
  let evs := [event (LifecycleDesired 3 "r1" (want 1)); event (LifecycleDesired 3 "r2" (want 2));
              event (LifecycleEffectResult 3 (want 1) None); event (LifecycleDeadline 3 (rev 1));
              event (LifecycleEffectResult 3 (want 2) None)] in
  ro_Status <$> filter (fun o => ro_Correlation o = rev 1) (outcomes (runLifecycle start evs).2)
    = [RevisionAccepted; RevisionWaiting].
Proof. vm_compute. reflexivity. Qed.

(** The browser of an applied revision asks again after a newer one: it is told that the
    revision was rejected. *)
Example applied_then_rejected :
  let evs := applied ++ [event (LifecycleDesired 3 "r2" (want 2)); event (LifecycleDesired 3 "r1" (want 1))] in
  ro_Status <$> filter (fun o => ro_Correlation o = rev 1) (outcomes (runLifecycle start evs).2)
    = [RevisionAccepted; RevisionWaiting; RevisionApplied; RevisionRejected].
Proof. vm_compute. reflexivity. Qed.

(** The connection closes before the worker of its revision has run: the subscription
    that the worker makes afterwards is not given back when the lease ends. *)
Example late_worker_not_undone :
  let closed := (runLifecycle start [event (LifecycleDesired 3 "r1" (want 1)); event (ConnClose 3)]).1 in
  lr_bindings closed = ∅ /\
  (runLifecycle closed [event (LifecycleEffectResult 3 (want 1) None); event (LifecycleDeadline 3 (rev 1));
                        event (LifecycleExpiry 3 (rev 1))]).2 = [EmitOutcome (plain (rev 1) RevisionApplied "")].
Proof. vm_compute. auto. Qed.

End LifecycleDemo.
