(* ===== verification/RuntimeRelay.v ===== *)
(** * host/runtime: the terminal relay

    terminal_relay.go, with the parts of internal_dispatch.go, severance.go and ipc.go
    between a terminal session and a connection: a subscription has two goroutines, one
    that takes the terminal's output and one that forwards it to the event loop; anybody
    may subscribe, rebind, unsubscribe or sever at any time.

    A goroutine is a stack of instructions; an instruction is what runs between two points
    where another goroutine can come in: a section under the relay's mutex, an operation
    on a channel, a call of the backend.  Any goroutine can make the next step. *)

From Stdlib Require Import String.
From S2P Require Import Prelude GoStd HostState.

(** ** Data *)

Definition surfaceKey : Type := ConnID * SessionID * string.

Definition key_session (key : surfaceKey) : SessionID := key.1.2.
Definition key_conn (key : surfaceKey) : ConnID := key.1.1.

(** internalBroadcastSurface, but for the time stamp.  [bs_ref] is the subscription that
    made it, which the program does not say. *)
Record BroadcastSurface := mkBroadcast {
  bs_key : surfaceKey; bs_FrameID : string; bs_SubID : Z; bs_Data : string; bs_Sequence : Z;
  bs_ref : nat }.

(** The events of the loop's interactive lane. *)
Inductive LaneEvent :=
| InternalBroadcastSurface (ev : BroadcastSurface)
| InternalSurfaceClosed (key : surfaceKey) (frameID : string) (subID : Z).

(** A subscription.  The program does not keep the fields from [sf_key] on: whom it is
    for; what was put on its relay channel, on the loop's lane and on its connection's
    lane since it began; how often the surface was given back; and whether it left the
    table because its source ended. *)
Record surfaceSub := mkSub {
  sf_frameID : string; sf_cols : Z; sf_rows : Z; sf_subID : Z;
  sf_cancel : bool; sf_seq : Z; sf_relay : list BroadcastSurface;
  sf_key : surfaceKey; sf_pushed : list BroadcastSurface; sf_sent : list BroadcastSurface;
  sf_delivered : list BroadcastSurface; sf_released : nat; sf_gone : bool }.

#[export] Instance eta_Sub : Eta surfaceSub := fun x =>
  mkSub (sf_frameID x) (sf_cols x) (sf_rows x) (sf_subID x) (sf_cancel x) (sf_seq x) (sf_relay x)
    (sf_key x) (sf_pushed x) (sf_sent x) (sf_delivered x) (sf_released x) (sf_gone x).

(** ** Goroutines *)

Inductive Instr :=
(** SubscribeOwned: the first look, the backend, the second look. *)
| Subscribe (key : surfaceKey) (frameID : string) (cols rows : Z)
| Acquire (key : surfaceKey) (frameID : string) (cols rows : Z)
| Insert (key : surfaceKey) (ref : nat)
(** RebindOwned, UnsubscribeOwned, SeverOwned: their sections under the mutex. *)
| Rebind (key : surfaceKey) (frameID : string) (cols rows : Z)
| Unsubscribe (key : surfaceKey)
| Sever (key : surfaceKey)
(** close(sub.cancel), sub.release(), tr.sendNow of an internalSurfaceClosed. *)
| Cancel (ref : nat)
| Release (ref : nat)
| SendClosed (key : surfaceKey) (frameID : string) (subID : Z)
| Close
(** relayForward: the select, isActiveSub, tr.send, what follows a refusal. *)
| Forward (key : surfaceKey) (ref : nat) (backlog : nat)
| ForwardCheck (key : surfaceKey) (ref : nat) (backlog : nat) (ev : BroadcastSurface)
| ForwardSend (key : surfaceKey) (ref : nat) (backlog : nat) (ev : BroadcastSurface)
| ForwardRefused (key : surfaceKey) (ref : nat) (backlog : nat)
(** fanOut: the select, the end of the source, isActiveSub, the relay channel. *)
| FanOut (key : surfaceKey) (ref : nat)
| FanOutGone (key : surfaceKey) (ref : nat)
| FanOutCheck (key : surfaceKey) (ref : nat) (data : string)
| FanOutPut (key : surfaceKey) (ref : nat) (data : string)
(** The event loop: a receive, isCurrentOwnedSubscription, queueWireLane. *)
| Loop
| LoopCheck (ev : BroadcastSurface)
| LoopQueue (ev : BroadcastSurface)
(** close(r.done), when Run returns. *)
| Finish.

Abbreviation Thread := (list Instr).

(** Calls of the relay's methods. *)
Definition is_call (i : Instr) : bool :=
  match i with
  | Subscribe _ _ _ _ | Rebind _ _ _ _ | Unsubscribe _ | Sever _ | Close => true
  | _ => false
  end.

(** ** The shared state *)

(** [tr_lane] is internalChInteractive, [tr_outbox] the interactive lanes of the open
    connections, [tr_done] whether the loop has ended. *)
Record Relay := mkRelay {
  tr_subs : gmap surfaceKey nat; tr_heap : list surfaceSub;
  tr_lane : list LaneEvent; tr_outbox : gmap ConnID (list BroadcastSurface);
  tr_done : bool; tr_panicked : bool }.

#[export] Instance eta_Relay : Eta Relay := fun r =>
  mkRelay (tr_subs r) (tr_heap r) (tr_lane r) (tr_outbox r) (tr_done r) (tr_panicked r).

(** severanceThreshold, which is also the capacity of a relay channel; the capacities of
    the loop's lane (lifecycleMailboxSize) and of a connection's. *)
Class Capacities := {
  severanceThreshold : nat; lane_capacity : nat; outbox_capacity : nat }.

Definition default_capacities : Capacities :=
  {| severanceThreshold := 64; lane_capacity := 16; outbox_capacity := 32 |}.

Section Relay.
Context `{GoMapRange} {CAP : Capacities}.
Implicit Types (r : Relay) (key : surfaceKey) (ref : nat) (x : surfaceSub).

Definition set_sub r ref x : Relay := r <| tr_heap := <[ref := x]> (tr_heap r) |>.

Definition isActiveSub r key ref : bool := bool_decide (tr_subs r !! key = Some ref).

Definition sub_of r key : option surfaceSub := tr_subs r !! key ≫= fun ref => tr_heap r !! ref.

Definition isCurrentOwnedSubscription r key (frameID : string) (subID : Z) : bool :=
  match sub_of r key with
  | Some x => bool_decide (sf_frameID x = frameID) && bool_decide (sf_subID x = subID)
  | None => false
  end.

Definition shouldApplySlowClose r key (frameID : string) (subID : Z) : bool :=
  match sub_of r key with
  | Some x => bool_decide (sf_frameID x = frameID) && bool_decide (sf_subID x = subID)
  | None => true
  end.

Definition hasOwnedSubscription r key : bool := bool_decide (is_Some (tr_subs r !! key)).

Definition lane_room r : bool := bool_decide (length (tr_lane r) < lane_capacity)%nat.

Definition send_closed r key ref : Instr :=
  SendClosed key (from_option sf_frameID "" (tr_heap r !! ref)) (from_option sf_subID 0 (tr_heap r !! ref)).

(** The subscription that a successful backend call makes. *)
Definition new_sub key (frameID : string) (cols rows id : Z) : surfaceSub :=
  mkSub frameID cols rows id false 0 [] key [] [] [] 0 false.

(** A terminal session numbers its subscribers, and a frame has one session (Termvt). *)
Definition fresh_surface r (frameID : string) (id : Z) : Prop :=
  Forall (fun x => ~ (sf_frameID x = frameID /\ sf_subID x = id)) (tr_heap r).

Definition same_surface x (frameID : string) (cols rows : Z) : bool :=
  bool_decide (sf_frameID x = frameID) && (sf_cols x =? cols) && (sf_rows x =? rows).

(** The section of UnsubscribeOwned and SeverOwned under the mutex. *)
Definition detach r key (k : nat -> Thread) : Relay * Thread :=
  match tr_subs r !! key with
  | None => (r, [])
  | Some ref => (r <| tr_subs := delete key (tr_subs r) |>, k ref)
  end.

Definition rebind_section r key (frameID : string) (cols rows : Z) : Relay * Thread :=
  match tr_subs r !! key with
  | None => (r, [Subscribe key frameID cols rows])
  | Some ref =>
    match tr_heap r !! ref with
    | Some x =>
      if same_surface x frameID cols rows then (r, [])
      else (r <| tr_subs := delete key (tr_subs r) |>, [Cancel ref; Release ref; Subscribe key frameID cols rows])
    | None => (r, [])
    end
  end.

Definition insert_section r key ref : Relay * Thread * list Thread :=
  if hasOwnedSubscription r key then (r, [Release ref], [])
  else (r <| tr_subs := <[key := ref]> (tr_subs r) |>, [], [[Forward key ref 0]; [FanOut key ref]]).

(** close of a closed channel panics. *)
Definition cancel_section r ref x : Relay :=
  if sf_cancel x then r <| tr_panicked := true |> else set_sub r ref (x <| sf_cancel := true |>).

Definition gone_section r key ref x : Relay :=
  if isActiveSub r key ref
  then set_sub r ref (x <| sf_gone := true |>) <| tr_subs := delete key (tr_subs r) |> else r.

(** The relay channel takes the chunk, or the subscription is severed. *)
Definition put_section r key ref x (data : string) : Relay * Thread :=
  let ev := mkBroadcast key (sf_frameID x) (sf_subID x) data (sf_seq x) ref in
  let x := x <| sf_seq := (sf_seq x + 1) mod 2 ^ 64 |> in
  if bool_decide (length (sf_relay x) < severanceThreshold)%nat then
    (set_sub r ref (x <| sf_relay := sf_relay x ++ [ev] |> <| sf_pushed := sf_pushed x ++ [ev] |>),
     [FanOut key ref])
  else (set_sub r ref x, [Sever key]).

(** enqueueInternal on a surface event, as relayForward calls it. *)
Definition send_section r key ref x (backlog : nat) (ev : BroadcastSurface) : Relay * Thread :=
  if lane_room r then
    (set_sub r ref (x <| sf_sent := sf_sent x ++ [ev] |>)
       <| tr_lane := tr_lane r ++ [InternalBroadcastSurface ev] |>, [Forward key ref (backlog - 1)])
  else (r, [Sever (bs_key ev); ForwardRefused key ref (S backlog)]).

Definition note_delivered r (ev : BroadcastSurface) : Relay :=
  match tr_heap r !! bs_ref ev with
  | Some x => set_sub r (bs_ref ev) (x <| sf_delivered := sf_delivered x ++ [ev] |>)
  | None => r
  end.

(** queueWireLane for the connection of the event: a full lane severs. *)
Definition queue_section r (ev : BroadcastSurface) : Relay * Thread :=
  match tr_outbox r !! key_conn (bs_key ev) with
  | None => (r, [])
  | Some lane =>
    if bool_decide (length lane < outbox_capacity)%nat then
      (note_delivered r ev <| tr_outbox := <[key_conn (bs_key ev) := lane ++ [ev]]> (tr_outbox r) |>, [])
    else if bool_decide (key_session (bs_key ev) = "") then (r, [])
    else (r, [Sever (bs_key ev)])
  end.

(** ** Steps *)

(** One instruction: the state after it, what the goroutine does next, and the goroutines
    it starts.  Where Go selects, or the backend answers, there are several rules. *)
Inductive exec r : Instr -> Relay -> Thread -> list Thread -> Prop :=
| exec_subscribe key frameID cols rows :
    exec r (Subscribe key frameID cols rows) r
      (if hasOwnedSubscription r key then [] else [Acquire key frameID cols rows]) []
| exec_acquire_error key frameID cols rows :
    exec r (Acquire key frameID cols rows) r [] []
| exec_acquire key frameID cols rows id : fresh_surface r frameID id ->
    exec r (Acquire key frameID cols rows)
      (r <| tr_heap := tr_heap r ++ [new_sub key frameID cols rows id] |>)
      [Insert key (length (tr_heap r))] []
| exec_insert key ref :
    exec r (Insert key ref) (insert_section r key ref).1.1 (insert_section r key ref).1.2
      (insert_section r key ref).2
| exec_rebind key frameID cols rows :
    exec r (Rebind key frameID cols rows) (rebind_section r key frameID cols rows).1
      (rebind_section r key frameID cols rows).2 []
| exec_unsubscribe key :
    exec r (Unsubscribe key) (detach r key (fun ref => [Cancel ref; Release ref])).1
      (detach r key (fun ref => [Cancel ref; Release ref])).2 []
| exec_sever key :
    exec r (Sever key) (detach r key (fun ref => [Cancel ref; Release ref; send_closed r key ref])).1
      (detach r key (fun ref => [Cancel ref; Release ref; send_closed r key ref])).2 []
| exec_cancel ref x : tr_heap r !! ref = Some x -> exec r (Cancel ref) (cancel_section r ref x) [] []
| exec_release ref x : tr_heap r !! ref = Some x ->
    exec r (Release ref) (set_sub r ref (x <| sf_released := S (sf_released x) |>)) [] []
| exec_send_now key frameID subID : lane_room r = true ->
    exec r (SendClosed key frameID subID)
      (r <| tr_lane := tr_lane r ++ [InternalSurfaceClosed key frameID subID] |>) [] []
| exec_send_done key frameID subID : tr_done r = true -> exec r (SendClosed key frameID subID) r [] []
| exec_close : exec r Close r ((fun kv => Unsubscribe kv.1) <$> range (tr_subs r)) []
| exec_forward_cancelled key ref backlog x : tr_heap r !! ref = Some x -> sf_cancel x = true ->
    exec r (Forward key ref backlog) r [] []
| exec_forward_take key ref backlog x ev rest : tr_heap r !! ref = Some x -> sf_relay x = ev :: rest ->
    exec r (Forward key ref backlog) (set_sub r ref (x <| sf_relay := rest |>))
      [ForwardCheck key ref backlog ev] []
| exec_forward_check key ref backlog ev :
    exec r (ForwardCheck key ref backlog ev) r
      (if isActiveSub r key ref then [ForwardSend key ref backlog ev] else []) []
| exec_forward_send key ref backlog ev x : tr_heap r !! ref = Some x ->
    exec r (ForwardSend key ref backlog ev) (send_section r key ref x backlog ev).1
      (send_section r key ref x backlog ev).2 []
| exec_forward_refused key ref backlog :
    exec r (ForwardRefused key ref backlog) r
      (if bool_decide (severanceThreshold <= backlog)%nat then [Sever key] else [Forward key ref backlog]) []
| exec_fanout_cancelled key ref x : tr_heap r !! ref = Some x -> sf_cancel x = true ->
    exec r (FanOut key ref) r [] []
| exec_fanout_closed key ref : exec r (FanOut key ref) r [FanOutGone key ref] []
| exec_fanout_other key ref : exec r (FanOut key ref) r [FanOut key ref] []
| exec_fanout_output key ref data : exec r (FanOut key ref) r [FanOutCheck key ref data] []
| exec_fanout_gone key ref x : tr_heap r !! ref = Some x ->
    exec r (FanOutGone key ref) (gone_section r key ref x) [send_closed r key ref] []
| exec_fanout_check key ref data :
    exec r (FanOutCheck key ref data) r
      (if isActiveSub r key ref then [FanOutPut key ref data] else []) []
| exec_fanout_put key ref data x : tr_heap r !! ref = Some x ->
    exec r (FanOutPut key ref data) (put_section r key ref x data).1 (put_section r key ref x data).2 []
| exec_loop_output ev rest : tr_lane r = InternalBroadcastSurface ev :: rest ->
    exec r Loop (r <| tr_lane := rest |>) [LoopCheck ev; Loop] []
| exec_loop_closed key frameID subID rest calls :
    tr_lane r = InternalSurfaceClosed key frameID subID :: rest ->
    Forall (fun i => is_call i = true) calls ->
    exec r Loop (r <| tr_lane := rest |>)
      (if shouldApplySlowClose r key frameID subID then calls ++ [Loop] else [Loop]) []
| exec_loop_other calls : Forall (fun i => is_call i = true) calls -> exec r Loop r (calls ++ [Loop]) []
| exec_loop_exit : exec r Loop r [Close; Finish] []
| exec_finish : exec r Finish (r <| tr_done := true |>) [] []
| exec_loop_check ev :
    exec r (LoopCheck ev) r
      (if isCurrentOwnedSubscription r (bs_key ev) (bs_FrameID ev) (bs_SubID ev) then [LoopQueue ev] else []) []
| exec_loop_queue ev :
    exec r (LoopQueue ev) (queue_section r ev).1 (queue_section r ev).2 [].

(** The goroutines and the state.  A panic ends the program. *)
Record Config := mkConfig { cf_relay : Relay; cf_threads : list Thread }.

Inductive step : Config -> Config -> Prop :=
| step_exec r r' l1 i rest l2 next started :
    tr_panicked r = false -> exec r i r' next started ->
    step (mkConfig r (l1 ++ (i :: rest) :: l2)) (mkConfig r' (l1 ++ (next ++ rest) :: l2 ++ started))
(** Another goroutine calls a method of the relay. *)
| step_call r ts i : is_call i = true -> step (mkConfig r ts) (mkConfig r (ts ++ [[i]]))
(** A connection's writer takes an event; a connection closes; another one opens, under
    an id that was not used before. *)
| step_write r ts connID ev rest :
    tr_outbox r !! connID = Some (ev :: rest) ->
    step (mkConfig r ts) (mkConfig (r <| tr_outbox := <[connID := rest]> (tr_outbox r) |>) ts)
| step_conn_close r ts connID :
    step (mkConfig r ts) (mkConfig (r <| tr_outbox := delete connID (tr_outbox r) |>) ts)
| step_conn_open r ts connID :
    tr_outbox r !! connID = None -> Forall (fun x => key_conn (sf_key x) <> connID) (tr_heap r) ->
    step (mkConfig r ts) (mkConfig (r <| tr_outbox := <[connID := []]> (tr_outbox r) |>) ts).

Definition initial_relay : Relay := mkRelay ∅ [] [] ∅ false false.

(** The event loop alone. *)
Definition initial : Config := mkConfig initial_relay [[Loop]].

Definition reachable (c : Config) : Prop := rtc step initial c.

End Relay.
