(* ===== verification/RuntimeRelaySafety.v ===== *)
(** * host/runtime: the relay gives back what it acquires

    Whatever the interleaving, a subscription's cancel channel is closed at most once and
    its surface is released at most once; when no call is under way, every surface that
    was acquired is in the table, was released exactly once, or had its source end. *)

From Stdlib Require Import String.
From S2P Require Import Prelude GoStd HostState RuntimeRelay.

Section Safety.
Context `{GoMapRange} {CAP : Capacities}.
Implicit Types (r : Relay) (key : surfaceKey) (ref : nat) (x : surfaceSub) (ts : list Thread).

(** ** Tokens *)

(** The right to release a surface is held by an instruction or by the table. *)
Definition release_token ref (i : Instr) : nat :=
  match i with
  | Insert _ ref' | Release ref' => if decide (ref' = ref) then 1 else 0
  | _ => 0
  end.

Definition cancel_token ref (i : Instr) : nat :=
  match i with
  | Insert _ ref' | Cancel ref' => if decide (ref' = ref) then 1 else 0
  | _ => 0
  end.

Definition tokens (f : Instr -> nat) ts : nat := sum_list_with (sum_list_with f) ts.

Lemma tokens_app f ts1 ts2 : tokens f (ts1 ++ ts2) = (tokens f ts1 + tokens f ts2)%nat.
Proof. apply sum_list_with_app. Qed.

Lemma tokens_step f l1 i rest l2 next started :
  (tokens f (l1 ++ (next ++ rest) :: l2 ++ started) + f i =
   tokens f (l1 ++ (i :: rest) :: l2) + sum_list_with f next + tokens f started)%nat.
Proof.
  unfold tokens. rewrite !sum_list_with_app. simpl. rewrite !sum_list_with_app. lia.
Qed.

Definition in_table (subs : gmap surfaceKey nat) ref : nat := size (filter (fun kv => kv.2 = ref) subs).

Lemma in_table_insert subs key ref' ref : subs !! key = None ->
  in_table (<[key := ref']> subs) ref = (in_table subs ref + if decide (ref' = ref) then 1 else 0)%nat.
Proof.
  intros Hk. unfold in_table. destruct (decide (ref' = ref)) as [->|Hne].
  - rewrite map_filter_insert_True by done. rewrite map_size_insert_None; [lia|].
    rewrite map_lookup_filter_None. by left.
  - rewrite map_filter_insert_False by done. rewrite map_filter_delete, delete_id; [lia|].
    rewrite map_lookup_filter_None. by left.
Qed.

Lemma in_table_delete subs key ref' ref : subs !! key = Some ref' ->
  in_table subs ref = (in_table (delete key subs) ref + if decide (ref' = ref) then 1 else 0)%nat.
Proof.
  intros Hk. rewrite <- (insert_delete_id subs key ref') at 1 by done. apply in_table_insert, lookup_delete_eq.
Qed.

Lemma in_table_empty ref : in_table ∅ ref = 0%nat.
Proof. unfold in_table. by rewrite map_filter_empty, map_size_empty. Qed.

Lemma in_table_some subs key ref : subs !! key = Some ref -> (1 <= in_table subs ref)%nat.
Proof. intros Hk. rewrite (in_table_delete subs key ref ref Hk), decide_True by done. lia. Qed.

(** What the table and the subscription itself hold. *)
Definition held r ref : nat :=
  in_table (tr_subs r) ref +
  match tr_heap r !! ref with Some x => sf_released x + (if sf_gone x then 1 else 0) | None => 0 end.

Definition cancelling r ref : nat :=
  in_table (tr_subs r) ref +
  match tr_heap r !! ref with Some x => if sf_cancel x then 1 else 0 | None => 0 end.

(** ** The invariant *)

Record inv (c : Config) : Prop := {
  inv_release ref : (ref < length (tr_heap (cf_relay c)))%nat ->
    (tokens (release_token ref) (cf_threads c) + held (cf_relay c) ref = 1)%nat;
  inv_cancel ref : (ref < length (tr_heap (cf_relay c)))%nat ->
    (tokens (cancel_token ref) (cf_threads c) + cancelling (cf_relay c) ref <= 1)%nat;
  inv_fresh ref : (length (tr_heap (cf_relay c)) <= ref)%nat ->
    tokens (release_token ref) (cf_threads c) = 0%nat /\ tokens (cancel_token ref) (cf_threads c) = 0%nat /\
    in_table (tr_subs (cf_relay c)) ref = 0%nat;
  inv_panic : tr_panicked (cf_relay c) = false }.

(** What one instruction does to the tokens of a subscription. *)
Definition balanced r (i : Instr) r' (next : Thread) (started : list Thread) ref : Prop :=
  (release_token ref i + held r ref =
     sum_list_with (release_token ref) next + tokens (release_token ref) started + held r' ref)%nat /\
  (sum_list_with (cancel_token ref) next + tokens (cancel_token ref) started + cancelling r' ref
     <= cancel_token ref i + cancelling r ref)%nat.

(** Only the heap changes, at fields the tokens do not count. *)
Definition same_tokens x x' : Prop :=
  sf_released x' = sf_released x /\ sf_gone x' = sf_gone x /\ sf_cancel x' = sf_cancel x.

Lemma held_set r ref x ref' : tr_heap r !! ref = Some x -> forall x', same_tokens x x' ->
  held (set_sub r ref x') ref' = held r ref' /\ cancelling (set_sub r ref x') ref' = cancelling r ref'.
Proof.
  intros Hx x' (H1 & H2 & H3). unfold held, cancelling, set_sub. simpl.
  destruct (decide (ref' = ref)) as [->|Hne].
  - rewrite list_lookup_insert_eq by (by apply lookup_lt_Some in Hx). by rewrite Hx, H1, H2, H3.
  - by rewrite list_lookup_insert_ne.
Qed.

(** The instructions that leave tokens alone. *)
Definition neutral (i : Instr) : Prop := forall ref, release_token ref i = 0%nat /\ cancel_token ref i = 0%nat.

Lemma neutral_sum (next : Thread) ref : Forall neutral next ->
  sum_list_with (release_token ref) next = 0%nat /\ sum_list_with (cancel_token ref) next = 0%nat.
Proof.
  induction 1 as [|i l Hi _ [IH1 IH2]]; [done|]. destruct (Hi ref) as [H1 H2]. simpl. lia.
Qed.

Lemma balanced_neutral r i r' next started ref :
  neutral i -> Forall neutral next -> Forall (Forall neutral) started ->
  held r' ref = held r ref -> cancelling r' ref = cancelling r ref -> balanced r i r' next started ref.
Proof.
  intros Hi Hn Hs Hh Hc. destruct (Hi ref) as [H1 H2]. destruct (neutral_sum next ref Hn) as [H3 H4].
  assert (tokens (release_token ref) started = 0%nat /\ tokens (cancel_token ref) started = 0%nat) as [H5 H6].
  { clear -Hs. induction Hs as [|t l Ht _ [IH1 IH2]]; [done|]. destruct (neutral_sum t ref Ht) as [H1 H2].
    unfold tokens in *. simpl. lia. }
  unfold balanced. lia.
Qed.

Lemma call_neutral i : is_call i = true -> neutral i.
Proof. by destruct i. Qed.

Lemma calls_neutral calls : Forall (fun i => is_call i = true) calls -> Forall neutral (calls ++ [Loop]).
Proof.
  intros Hc. apply Forall_app. split; [|by repeat constructor].
  eapply Forall_impl; [done|]. intros i. apply call_neutral.
Qed.

(** Taking a subscription out of the table hands its tokens to the caller. *)
Lemma balanced_detach r i key ref' next ref : neutral i -> tr_subs r !! key = Some ref' -> Forall neutral next ->
  balanced r i (r <| tr_subs := delete key (tr_subs r) |>) (Cancel ref' :: Release ref' :: next) [] ref.
Proof.
  intros Hi Hk Hn. destruct (Hi ref) as [H1 H2]. destruct (neutral_sum next ref Hn) as [H3 H4].
  unfold balanced, held, cancelling, tokens. simpl. rewrite H1, H2, H3, H4.
  rewrite (in_table_delete _ _ _ ref Hk). destruct (decide (ref' = ref)); lia.
Qed.

Lemma balanced_insert r key ref' ref :
  balanced r (Insert key ref') (insert_section r key ref').1.1 (insert_section r key ref').1.2
    (insert_section r key ref').2 ref.
Proof.
  unfold insert_section, hasOwnedSubscription. case_bool_decide as Hk; simpl.
  - unfold balanced, tokens. simpl. destruct (decide (ref' = ref)); lia.
  - apply eq_None_not_Some in Hk. unfold balanced, held, cancelling, tokens. simpl.
    rewrite in_table_insert by done. destruct (decide (ref' = ref)); lia.
Qed.

Lemma balanced_gone r key ref' x ref : tr_heap r !! ref' = Some x -> (held r ref <= 1)%nat ->
  balanced r (FanOutGone key ref') (gone_section r key ref' x) [send_closed r key ref'] [] ref.
Proof.
  intros Hx Hh. unfold gone_section, isActiveSub. case_bool_decide as Hk; simpl.
  - unfold balanced, held, cancelling, tokens in *. simpl.
    pose proof (in_table_delete _ _ _ ref Hk) as Hd.
    destruct (decide (ref' = ref)) as [->|Hne].
    + rewrite list_lookup_insert_eq by (by apply lookup_lt_Some in Hx). rewrite Hx in *. simpl.
      destruct (sf_gone x); lia.
    + rewrite list_lookup_insert_ne by done. lia.
  - apply balanced_neutral; by repeat constructor.
Qed.

Lemma balanced_cancel r ref' x ref : tr_heap r !! ref' = Some x ->
  (cancel_token ref (Cancel ref') + cancelling r ref <= 1)%nat ->
  balanced r (Cancel ref') (cancel_section r ref' x) [] [] ref.
Proof.
  intros Hx Hc. unfold cancel_section. unfold balanced, held, cancelling, tokens, set_sub in *. simpl in *.
  destruct (decide (ref' = ref)) as [->|Hne].
  - rewrite Hx in *. destruct (sf_cancel x) eqn:Hcl; simpl; [rewrite Hx, Hcl; lia|].
    rewrite list_lookup_insert_eq by (by apply lookup_lt_Some in Hx). simpl. lia.
  - destruct (sf_cancel x); simpl; [lia|]. rewrite list_lookup_insert_ne by done. lia.
Qed.

Lemma balanced_release r ref' x ref : tr_heap r !! ref' = Some x ->
  balanced r (Release ref') (set_sub r ref' (x <| sf_released := S (sf_released x) |>)) [] [] ref.
Proof.
  intros Hx. unfold balanced, held, cancelling, tokens, set_sub. simpl. destruct (decide (ref' = ref)) as [->|Hne].
  - rewrite list_lookup_insert_eq by (by apply lookup_lt_Some in Hx). rewrite Hx. simpl. lia.
  - rewrite list_lookup_insert_ne by done. lia.
Qed.

(** Solves a step that changes nothing the tokens count. *)
Ltac neutral_step :=
  apply balanced_neutral; [done|repeat case_match; repeat constructor; done|repeat constructor|done|done].

Lemma balanced_set r i ref' x x' next ref : tr_heap r !! ref' = Some x -> same_tokens x x' ->
  neutral i -> Forall neutral next -> balanced r i (set_sub r ref' x') next [] ref.
Proof.
  intros Hx Hs Hi Hn. destruct (held_set r ref' x ref Hx x' Hs) as [H1 H2]. by apply balanced_neutral.
Qed.

Lemma held_note r ev ref :
  held (note_delivered r ev) ref = held r ref /\ cancelling (note_delivered r ev) ref = cancelling r ref.
Proof. unfold note_delivered. destruct (tr_heap r !! bs_ref ev) as [x|] eqn:Hx; [|done]. by eapply held_set. Qed.

(** An instruction's effect on the tokens of any but a new subscription. *)
Lemma exec_balanced r i r' next started ref :
  exec r i r' next started -> (ref < length (tr_heap r) \/ length (tr_heap r') <= ref)%nat -> (held r ref <= 1)%nat ->
  (cancel_token ref i + cancelling r ref <= 1)%nat -> balanced r i r' next started ref.
Proof.
  intros He Hlt Hh Hc. destruct He; try neutral_step.
  - simpl in Hlt. rewrite length_app in Hlt. simpl in Hlt.
    unfold balanced, held, cancelling, tokens. simpl. rewrite decide_False by lia.
    destruct Hlt; [rewrite lookup_app_l by lia; lia|].
    rewrite !lookup_ge_None_2 by (rewrite ?length_app; simpl; lia). lia.
  - by apply balanced_insert.
  - unfold rebind_section. destruct (tr_subs r !! key) as [ref'|] eqn:Hk; [|neutral_step].
    destruct (tr_heap r !! ref') as [x|]; [|neutral_step]. case_match; [neutral_step|].
    apply balanced_detach; by repeat constructor.
  - unfold detach. destruct (tr_subs r !! key) as [ref'|] eqn:Hk; [|neutral_step]. by apply balanced_detach.
  - unfold detach. destruct (tr_subs r !! key) as [ref'|] eqn:Hk; [|neutral_step].
    apply balanced_detach; by repeat constructor.
  - by apply balanced_cancel.
  - by apply balanced_release.
  - apply balanced_neutral; [done| |done..]. apply Forall_fmap, Forall_true. by intros kv.
  - eapply balanced_set; [done|done|done|by repeat constructor].
  - unfold send_section. case_match; [|neutral_step].
    destruct (held_set r ref0 x ref H0 (x <| sf_sent := sf_sent x ++ [ev] |>)) as [H2 H3]; [done|].
    apply balanced_neutral; by repeat constructor.
  - by apply balanced_gone.
  - unfold put_section. case_bool_decide; (eapply balanced_set; [done|done|done|by repeat constructor]).
  - apply balanced_neutral; [done| |done..]. case_match; [by apply calls_neutral|by repeat constructor].
  - apply balanced_neutral; [done|by apply calls_neutral|done..].
  - unfold queue_section. destruct (tr_outbox r !! _); [|neutral_step]. repeat case_bool_decide; try neutral_step.
    destruct (held_note r ev ref) as [H2 H3]. apply balanced_neutral; by repeat constructor.
Qed.

(** A new subscription starts with its tokens at its maker. *)
Lemma exec_new r i r' next started : exec r i r' next started ->
  length (tr_heap r') = length (tr_heap r) \/
  length (tr_heap r') = S (length (tr_heap r)) /\ tr_subs r' = tr_subs r /\ started = [] /\
  exists key frameID cols rows id, next = [Insert key (length (tr_heap r))] /\
    i = Acquire key frameID cols rows /\ tr_heap r' !! length (tr_heap r) = Some (new_sub key frameID cols rows id).
Proof.
  intros He. destruct He; try (left; done); try (left; simpl; apply length_insert).
  - right. simpl. rewrite length_app. simpl. split_and!; [lia|done..|].
    exists key, frameID, cols, rows, id. split_and!; [done..|]. by rewrite list_lookup_middle.
  - left. unfold insert_section. by case_match.
  - left. unfold rebind_section. by repeat case_match.
  - left. unfold detach. by case_match.
  - left. unfold detach. by case_match.
  - left. unfold cancel_section. case_match; [done|]. apply length_insert.
  - left. unfold send_section. case_match; [|done]. apply length_insert.
  - left. unfold gone_section. case_match; [|done]. apply length_insert.
  - left. unfold put_section. case_match; apply length_insert.
  - left. unfold queue_section, note_delivered. repeat case_match; try done. apply length_insert.
Qed.

Lemma exec_panic r i r' next started : exec r i r' next started -> tr_panicked r = false ->
  (forall ref, i = Cancel ref -> cancelling r ref = 0%nat) -> tr_panicked r' = false.
Proof.
  intros He Hp Hc. destruct He; try done.
  - unfold insert_section. by case_match.
  - unfold rebind_section. by repeat case_match.
  - unfold detach. by case_match.
  - unfold detach. by case_match.
  - unfold cancel_section. destruct (sf_cancel x) eqn:Hx; [|done].
    specialize (Hc ref eq_refl). unfold cancelling in Hc. rewrite H0, Hx in Hc. lia.
  - unfold send_section. by case_match.
  - unfold gone_section. by case_match.
  - unfold put_section. by case_match.
  - unfold queue_section, note_delivered. by repeat case_match.
Qed.

Lemma tokens_mid f l1 i rest l2 : (f i <= tokens f (l1 ++ (i :: rest) :: l2))%nat.
Proof. rewrite tokens_app. unfold tokens. simpl. lia. Qed.

Lemma inv_exec r r' l1 i rest l2 next started :
  inv (mkConfig r (l1 ++ (i :: rest) :: l2)) -> exec r i r' next started ->
  inv (mkConfig r' (l1 ++ (next ++ rest) :: l2 ++ started)).
Proof.
  intros [Hrel Hcan Hfresh Hp] He. simpl in *.
  assert (forall ref, (ref < length (tr_heap r) \/ length (tr_heap r') <= ref)%nat -> balanced r i r' next started ref)
    as Hbal.
  { intros ref Hlt. eapply exec_balanced; [done|done| |].
    - destruct (decide (ref < length (tr_heap r))%nat) as [Hr|Hr]; [specialize (Hrel ref Hr); lia|].
      destruct (Hfresh ref) as (_ & _ & Ht); [lia|]. unfold held. rewrite Ht, lookup_ge_None_2 by lia. lia.
    - pose proof (tokens_mid (cancel_token ref) l1 i rest l2).
      destruct (decide (ref < length (tr_heap r))%nat) as [Hr|Hr]; [specialize (Hcan ref Hr); lia|].
      destruct (Hfresh ref) as (_ & Hz & Ht); [lia|]. unfold cancelling. rewrite Ht, lookup_ge_None_2 by lia. lia. }
  pose proof (fun f => tokens_step f l1 i rest l2 next started) as Hts.
  assert (length (tr_heap r) <= length (tr_heap r'))%nat as Hlen
    by (destruct (exec_new _ _ _ _ _ He) as [-> | [-> _]]; lia).
  split; simpl.
  - intros ref Hlt. pose proof (Hts (release_token ref)) as Ht.
    destruct (decide (ref < length (tr_heap r))%nat) as [Hr|Hr].
    + destruct (Hbal ref (or_introl Hr)) as [Hb _]. specialize (Hrel ref Hr). lia.
    + destruct (exec_new _ _ _ _ _ He) as [Heq | (Heq & Hs & -> & key & frameID & cols & rows & id & -> & -> & Hx)]; [lia|].
      assert (ref = length (tr_heap r)) as -> by lia. destruct (Hfresh (length (tr_heap r))) as (Hz & _ & Htab); [lia|].
      unfold held. rewrite Hs, Htab, Hx. simpl in *. rewrite decide_True in Ht by done.
      change (tokens _ []) with 0%nat in Ht. lia.
  - intros ref Hlt. pose proof (Hts (cancel_token ref)) as Ht.
    destruct (decide (ref < length (tr_heap r))%nat) as [Hr|Hr].
    + destruct (Hbal ref (or_introl Hr)) as [_ Hb]. specialize (Hcan ref Hr). lia.
    + destruct (exec_new _ _ _ _ _ He) as [Heq | (Heq & Hs & -> & key & frameID & cols & rows & id & -> & -> & Hx)]; [lia|].
      assert (ref = length (tr_heap r)) as -> by lia. destruct (Hfresh (length (tr_heap r))) as (_ & Hz & Htab); [lia|].
      unfold cancelling. rewrite Hs, Htab, Hx. simpl in *. rewrite decide_True in Ht by done.
      change (tokens _ []) with 0%nat in Ht. lia.
  - intros ref Hge. destruct (Hbal ref (or_intror Hge)) as [Hb1 Hb2]. destruct (Hfresh ref) as (Hz1 & Hz2 & Htab); [lia|].
    pose proof (Hts (release_token ref)). pose proof (Hts (cancel_token ref)).
    pose proof (tokens_mid (release_token ref) l1 i rest l2). pose proof (tokens_mid (cancel_token ref) l1 i rest l2).
    unfold held in Hb1. unfold cancelling in Hb2.
    rewrite Htab, !lookup_ge_None_2 in Hb1, Hb2 by lia. lia.
  - eapply exec_panic; [done..|]. intros ref ->. pose proof (tokens_mid (cancel_token ref) l1 (Cancel ref) rest l2) as Hm.
    simpl in Hm. rewrite decide_True in Hm by done.
    destruct (decide (ref < length (tr_heap r))%nat) as [Hr|Hr]; [specialize (Hcan ref Hr); lia|].
    destruct (Hfresh ref) as (_ & Hz & _); lia.
Qed.

Lemma inv_step c c' : inv c -> step c c' -> inv c'.
Proof.
  intros Hinv Hs. destruct Hs; try (destruct Hinv as [K1 K2 K3 K4]; split; exact K1 || exact K2 || exact K3 || exact K4).
  - by eapply inv_exec.
  - assert (forall ref, tokens (release_token ref) [[i]] = 0%nat /\ tokens (cancel_token ref) [[i]] = 0%nat) as Hz.
    { intros ref. destruct (call_neutral i H0 ref) as [Ha Hb]. unfold tokens. simpl. lia. }
    destruct Hinv as [H1 H2 H3 H4]. split; [| | |exact H4]; intros ref Hr; destruct (Hz ref) as [Ha Hb];
      cbn [cf_threads]; rewrite !tokens_app, ?Ha, ?Hb, ?Nat.add_0_r; by auto.
Qed.

Lemma inv_initial : inv initial.
Proof. split; simpl; [lia|lia| |done]. intros ref _. split_and!; [done|done|apply in_table_empty]. Qed.

Lemma inv_reachable c : reachable c -> inv c.
Proof.
  intros Hr. unfold reachable in Hr. remember initial as c0 eqn:H0. assert (inv c0) as Hi by (subst; apply inv_initial).
  clear H0. induction Hr as [|c1 c2 c3 Hs _ IH]; [done|]. apply IH. by eapply inv_step.
Qed.

(** C17: However subscribers, the loop, the lifecycle workers and the goroutines of the
    subscriptions interleave, the relay never closes a cancel channel twice, which would
    end the daemon, and never releases a surface twice. *)
Theorem relay_never_panics c ref x :
  reachable c -> tr_heap (cf_relay c) !! ref = Some x ->
  tr_panicked (cf_relay c) = false /\ (sf_released x <= 1)%nat.
Proof.
  intros [Hrel _ _ Hp]%inv_reachable Hx. split; [done|].
  specialize (Hrel ref (lookup_lt_Some _ _ _ Hx)). unfold held in Hrel. rewrite Hx in Hrel. lia.
Qed.

(** No goroutine is between two sections of a call that holds a subscription. *)
Definition settled_calls (c : Config) : Prop :=
  Forall (Forall (fun i => match i with Insert _ _ | Release _ | Cancel _ => False | _ => True end)) (cf_threads c).

Lemma settled_tokens c ref : settled_calls c -> tokens (release_token ref) (cf_threads c) = 0%nat.
Proof.
  unfold settled_calls, tokens. induction 1 as [|t ts Ht _ IH]; [done|]. simpl. rewrite IH, Nat.add_0_r. clear -Ht.
  induction Ht as [|i t Hi _ IH]; [done|]. simpl. rewrite IH. by destruct i.
Qed.

(** C26: When no call is half done, a surface that was acquired is accounted for in
    exactly one way: a subscription of the table uses it, or it was released, once, or its
    source ended before. *)
Theorem relay_surfaces_accounted c ref x :
  reachable c -> settled_calls c -> tr_heap (cf_relay c) !! ref = Some x ->
  (exists key, tr_subs (cf_relay c) !! key = Some ref /\
     (forall key', tr_subs (cf_relay c) !! key' = Some ref -> key' = key) /\
     sf_released x = 0%nat /\ sf_gone x = false /\ sf_cancel x = false) \/
  ((forall key, tr_subs (cf_relay c) !! key <> Some ref) /\
   (sf_released x = 1%nat /\ sf_gone x = false \/ sf_released x = 0%nat /\ sf_gone x = true)).
Proof.
  intros [Hrel Hcan _ _]%inv_reachable Hset Hx. pose proof (lookup_lt_Some _ _ _ Hx) as Hlt.
  specialize (Hrel ref Hlt). specialize (Hcan ref Hlt). rewrite settled_tokens in Hrel by done.
  unfold held in Hrel. unfold cancelling in Hcan. rewrite Hx in Hrel, Hcan.
  destruct (decide (in_table (tr_subs (cf_relay c)) ref = 0%nat)) as [Hz|Hz].
  - right. split; [|destruct (sf_gone x); lia].
    intros key Hk%in_table_some. lia.
  - left. destruct (map_choose (filter (fun kv => kv.2 = ref) (tr_subs (cf_relay c)))) as (key & ref' & Hf).
    { intros He. apply Hz. unfold in_table. by rewrite He, map_size_empty. }
    apply map_lookup_filter_Some in Hf as [Hk Heq]. simpl in Heq. subst ref'. exists key.
    split_and!; [done| |lia|by destruct (sf_gone x); [lia|]|by destruct (sf_cancel x); [lia|]].
    intros key' Hk'. destruct (decide (key' = key)) as [|Hne]; [done|].
    assert (delete key (tr_subs (cf_relay c)) !! key' = Some ref) as Hd%in_table_some
      by (by rewrite lookup_delete_ne).
    rewrite (in_table_delete _ _ _ ref Hk), decide_True in Hrel by done. lia.
Qed.

End Safety.
