(* ===== verification/RuntimeRelayOrder.v ===== *)
(** * host/runtime: the relay keeps the order and leaves no gap

    What a subscription puts on its relay channel is numbered from zero; what reaches the
    loop's lane, and then the connection's, is a prefix of it.  Where a chunk cannot be
    passed on, no later chunk of the same subscription is. *)

From Stdlib Require Import String.
From S2P Require Import Prelude GoStd HostState RuntimeRelay RuntimeRelaySafety.

Section Order.
Context `{GoMapRange} {CAP : Capacities}.
Implicit Types (r : Relay) (key : surfaceKey) (ref : nat) (x : surfaceSub) (ts : list Thread).
Implicit Types (ev : BroadcastSurface) (i : Instr).

(** ** What instructions know *)

(** The subscription an instruction works for, and the chunk it holds. *)
Definition works_for i : option (surfaceKey * nat) :=
  match i with
  | Insert key ref | Forward key ref _ | ForwardCheck key ref _ _ | ForwardSend key ref _ _
  | ForwardRefused key ref _ | FanOut key ref | FanOutGone key ref | FanOutCheck key ref _
  | FanOutPut key ref _ => Some (key, ref)
  | _ => None
  end.

Definition carries i : option BroadcastSurface :=
  match i with
  | ForwardCheck _ _ _ ev | ForwardSend _ _ _ ev | LoopCheck ev | LoopQueue ev => Some ev
  | _ => None
  end.

Definition sub_key r key ref : Prop := exists x, tr_heap r !! ref = Some x /\ sf_key x = key.

Definition event_ok r ev : Prop :=
  exists x, tr_heap r !! bs_ref ev = Some x /\ bs_key ev = sf_key x /\
    bs_FrameID ev = sf_frameID x /\ bs_SubID ev = sf_subID x.

Record agrees r i : Prop := {
  ag_key key ref : works_for i = Some (key, ref) -> sub_key r key ref;
  ag_event ev : carries i = Some ev -> event_ok r ev;
  ag_ref key ref ev : works_for i = Some (key, ref) -> carries i = Some ev -> bs_ref ev = ref }.

Lemma agrees_plain r i : works_for i = None -> carries i = None -> agrees r i.
Proof. intros H1 H2. split; congruence. Qed.

(** ** What never changes in a subscription *)

Definition keeps x x' : Prop :=
  sf_key x' = sf_key x /\ sf_frameID x' = sf_frameID x /\ sf_subID x' = sf_subID x.

Definition grows r r' : Prop :=
  forall ref x, tr_heap r !! ref = Some x -> exists x', tr_heap r' !! ref = Some x' /\ keeps x x'.

Lemma grows_heap r r' : tr_heap r' = tr_heap r -> grows r r'.
Proof. intros Hh ref x Hx. exists x. by rewrite Hh. Qed.

Lemma grows_set r ref x x' : tr_heap r !! ref = Some x -> keeps x x' -> grows r (set_sub r ref x').
Proof.
  intros Hx Hk ref' y Hy. unfold set_sub. simpl. destruct (decide (ref' = ref)) as [->|Hne].
  - exists x'. rewrite list_lookup_insert_eq by (by apply lookup_lt_Some in Hx). by simplify_eq.
  - exists y. by rewrite list_lookup_insert_ne.
Qed.

Lemma grows_note r ev : grows r (note_delivered r ev).
Proof.
  unfold note_delivered. destruct (tr_heap r !! bs_ref ev) as [x|] eqn:Hx; [|by apply grows_heap].
  by eapply grows_set.
Qed.

Lemma exec_grows r i r' next started : exec r i r' next started -> grows r r'.
Proof.
  intros He. destruct He; try (by apply grows_heap); try (by eapply grows_set).
  - intros ref y Hy. exists y. simpl. by rewrite (lookup_app_l_Some _ _ _ _ Hy).
  - apply grows_heap. unfold insert_section. by case_match.
  - apply grows_heap. unfold rebind_section. by repeat case_match.
  - apply grows_heap. unfold detach. by case_match.
  - apply grows_heap. unfold detach. by case_match.
  - unfold cancel_section. case_match; [by apply grows_heap|by eapply grows_set].
  - unfold send_section. case_match; [|by apply grows_heap].
    by apply (grows_set r ref x (x <| sf_sent := sf_sent x ++ [ev] |>)).
  - unfold gone_section. case_match; [|by apply grows_heap].
    by apply (grows_set r ref x (x <| sf_gone := true |>)).
  - unfold put_section. case_match; by eapply grows_set.
  - unfold queue_section. case_match; [|by apply grows_heap]. repeat case_match; try by apply grows_heap.
    apply grows_note.
Qed.

Lemma grows_sub_key r r' key ref : grows r r' -> sub_key r key ref -> sub_key r' key ref.
Proof. intros Hg (x & Hx & Hk). destruct (Hg ref x Hx) as (x' & Hx' & Hk' & _). exists x'. split; [done|congruence]. Qed.

Lemma grows_event_ok r r' ev : grows r r' -> event_ok r ev -> event_ok r' ev.
Proof.
  intros Hg (x & Hx & H1 & H2 & H3). destruct (Hg _ x Hx) as (x' & Hx' & K1 & K2 & K3). exists x'.
  split_and!; [done|congruence..].
Qed.

Lemma grows_agrees r r' i : grows r r' -> agrees r i -> agrees r' i.
Proof.
  intros Hg [H1 H2 H3]. split; [| |done].
  - intros key ref Hw. by eapply grows_sub_key, H1.
  - intros ev Hc. by eapply grows_event_ok, H2.
Qed.

(** ** The shared tables *)

Definition lane_ok r : Prop := forall ev, InternalBroadcastSurface ev ∈ tr_lane r -> event_ok r ev.

Definition relays_ok r : Prop :=
  forall ref x ev, tr_heap r !! ref = Some x -> ev ∈ sf_relay x -> bs_ref ev = ref /\ event_ok r ev.

Definition table_ok r : Prop := forall key ref, tr_subs r !! key = Some ref -> sub_key r key ref.

Definition unique_surfaces r : Prop :=
  forall ref1 ref2 x1 x2, tr_heap r !! ref1 = Some x1 -> tr_heap r !! ref2 = Some x2 ->
    sf_frameID x1 = sf_frameID x2 -> sf_subID x1 = sf_subID x2 -> ref1 = ref2.

Record tables r : Prop := {
  tb_lane : lane_ok r; tb_relays : relays_ok r; tb_table : table_ok r; tb_unique : unique_surfaces r }.

(** The tables of a state whose subscriptions only changed where it does not matter. *)
Lemma tables_set r ref x x' r' : tables r -> tr_heap r !! ref = Some x -> keeps x x' ->
  (forall ev, ev ∈ sf_relay x' -> bs_ref ev = ref /\ (ev ∈ sf_relay x \/ event_ok r' ev)) ->
  tr_heap r' = <[ref := x']> (tr_heap r) ->
  (forall ev, InternalBroadcastSurface ev ∈ tr_lane r' -> InternalBroadcastSurface ev ∈ tr_lane r \/ event_ok r' ev) ->
  (forall key ref, tr_subs r' !! key = Some ref -> tr_subs r !! key = Some ref) -> tables r'.
Proof.
  intros [Hl Hr Ht Hu] Hx Hk Hrel Hh Hlane Hsubs.
  assert (grows r r') as Hg.
  { intros ref' y Hy. destruct (grows_set r ref x x' Hx Hk ref' y Hy) as (y' & Hy' & Hky). exists y'. by rewrite Hh. }
  assert (forall ref' y', tr_heap r' !! ref' = Some y' -> exists y, tr_heap r !! ref' = Some y /\ keeps y y') as Hback.
  { intros ref' y'. rewrite Hh. intros [(<- & <- & _) | [_ Hy]]%list_lookup_insert_Some; [by exists x|by exists y']. }
  split.
  - intros ev Hin. destruct (Hlane ev Hin) as [Hold|]; [|done]. by apply (grows_event_ok r), Hl.
  - intros ref' y' ev. rewrite Hh. intros [(<- & <- & _) | [_ Hy]]%list_lookup_insert_Some Hin.
    + destruct (Hrel ev Hin) as [Hb [Hold|Hok]]; [|done]. split; [done|].
      eapply grows_event_ok; [done|]. by apply (Hr ref x).
    + destruct (Hr ref' y' ev Hy Hin) as [Hb Hok]. split; [done|]. by eapply grows_event_ok.
  - intros key ref' Hs. eapply grows_sub_key; [done|]. by apply Ht, Hsubs.
  - intros ref1 ref2 y1 y2 H1 H2 Hf Hs. destruct (Hback _ _ H1) as (z1 & Hz1 & _ & F1 & S1).
    destruct (Hback _ _ H2) as (z2 & Hz2 & _ & F2 & S2). apply (Hu ref1 ref2 z1 z2); congruence.
Qed.

Lemma tables_same r r' : tables r -> tr_heap r' = tr_heap r ->
  (forall ev, InternalBroadcastSurface ev ∈ tr_lane r' -> InternalBroadcastSurface ev ∈ tr_lane r) ->
  (forall key ref, tr_subs r' !! key = Some ref -> tr_subs r !! key = Some ref \/ sub_key r key ref) -> tables r'.
Proof.
  intros [Hl Hr Ht Hu] Hh Hlane Hsubs. assert (grows r r') as Hg by (by apply grows_heap). split.
  - intros ev Hin. by apply (grows_event_ok r), Hl, Hlane.
  - intros ref x ev. rewrite Hh. intros Hx Hin. destruct (Hr ref x ev Hx Hin). split; [done|by eapply grows_event_ok].
  - intros key ref Hs. eapply grows_sub_key; [done|]. destruct (Hsubs key ref Hs); [by apply Ht|done].
  - intros ref1 ref2 x1 x2. rewrite Hh. apply Hu.
Qed.

Lemma lookup_delete_sub r key key' ref :
  delete key (tr_subs r) !! key' = Some ref -> tr_subs r !! key' = Some ref.
Proof. by intros [_ ?]%lookup_delete_Some. Qed.

Lemma tables_acquire r key frameID cols rows id : tables r -> fresh_surface r frameID id ->
  tables (r <| tr_heap := tr_heap r ++ [new_sub key frameID cols rows id] |>).
Proof.
  intros [Hl Hr Ht Hu] Hf. unfold fresh_surface in Hf. rewrite Forall_lookup in Hf.
  set (r' := r <| tr_heap := _ |>). assert (grows r r') as Hg.
  { intros ref y Hy. exists y. simpl. by rewrite (lookup_app_l_Some _ _ _ _ Hy). }
  split.
  - intros ev Hin. by apply (grows_event_ok r), Hl.
  - intros ref x ev [Hx | [_ Hx]]%lookup_app_Some Hin.
    + destruct (Hr ref x ev Hx Hin). split; [done|by eapply grows_event_ok].
    + apply list_lookup_singleton_Some in Hx as [_ <-]. by apply not_elem_of_nil in Hin.
  - intros k ref Hs. by eapply grows_sub_key, Ht.
  - intros ref1 ref2 x1 x2 [H1 | [L1 H1]]%lookup_app_Some [H2 | [L2 H2]]%lookup_app_Some F S.
    + by apply (Hu ref1 ref2 x1 x2).
    + apply list_lookup_singleton_Some in H2 as [_ <-]. simpl in *. destruct (Hf ref1 x1 H1). done.
    + apply list_lookup_singleton_Some in H1 as [_ <-]. simpl in *. destruct (Hf ref2 x2 H2). done.
    + apply list_lookup_singleton_Some in H1 as [? _], H2 as [? _]. lia.
Qed.

Lemma exec_tables r i r' next started : tables r -> agrees r i -> exec r i r' next started -> tables r'.
Proof.
  intros Htb Hag He. pose proof (exec_grows _ _ _ _ _ He) as Hg.
  assert (forall r', tr_heap r' = tr_heap r -> tr_lane r' = tr_lane r ->
    (forall key ref, tr_subs r' !! key = Some ref -> tr_subs r !! key = Some ref \/ sub_key r key ref) -> tables r') as Hsame.
  { intros r1 H1 H2 H3. apply (tables_same r); [done|done| |done]. by intros ev; rewrite H2. }
  assert (forall ref x x' r', tr_heap r !! ref = Some x -> keeps x x' -> tr_heap r' = <[ref := x']> (tr_heap r) ->
    (forall ev, ev ∈ sf_relay x' -> ev ∈ sf_relay x) -> tr_lane r' = tr_lane r ->
    (forall key ref, tr_subs r' !! key = Some ref -> tr_subs r !! key = Some ref) -> tables r') as Hset.
  { intros ref x x' r1 Hx Hk Hh Hrel Hl Hs. apply (tables_set r ref x x'); [done..| |done|by rewrite Hl; left|done].
    intros ev Hin%Hrel. split; [by apply (tb_relays _ Htb ref x)|by left]. }
  assert (forall key, tables (r <| tr_subs := delete key (tr_subs r) |>)) as Hdel.
  { intros key. apply Hsame; [done..|]. intros key' ref Hs. left. by apply (lookup_delete_sub r key). }
  destruct He; try done.
  - by apply tables_acquire.
  - unfold insert_section. case_match; [done|]. apply Hsame; [done..|]. simpl.
    intros key' ref' [[<- <-] | [_ ?]]%lookup_insert_Some; [|by left]. right. by apply Hag.
  - unfold rebind_section. repeat case_match; apply Hdel || exact Htb.
  - unfold detach. case_match; apply Hdel || exact Htb.
  - unfold detach. case_match; apply Hdel || exact Htb.
  - unfold cancel_section. case_match; [apply Hsame; [done..|by left]|].
    apply (Hset ref x (x <| sf_cancel := true |>)); done.
  - by apply (Hset ref x (x <| sf_released := S (sf_released x) |>)).
  - apply (tables_same r); [done|done| |by left]. simpl. intros ev' Hin.
    apply elem_of_app in Hin as [|?%list_elem_of_singleton]; done.
  - apply (Hset ref x (x <| sf_relay := rest |>)); [done..| |done|done]. simpl. rewrite H1. set_solver.
  - unfold send_section in *. destruct (lane_room r); [|done].
    apply (tables_set r ref x (x <| sf_sent := sf_sent x ++ [ev] |>)); [done..| |done| |done].
    + intros ev' Hin. split; [by apply (tb_relays _ Htb ref x)|by left].
    + simpl. intros ev' [? | [= ->]%list_elem_of_singleton]%elem_of_app; [by left|right].
      eapply grows_event_ok; [done|by apply Hag].
  - unfold gone_section. case_match; [|done]. apply (Hset ref x (x <| sf_gone := true |>)); try done.
    intros key' ref'. apply (lookup_delete_sub r key).
  - destruct (ag_key _ _ Hag key ref eq_refl) as (x0 & Hx0 & Hk0). rewrite H0 in Hx0. injection Hx0 as <-.
    unfold put_section in *. set (x1 := x <| sf_seq := _ |>) in *. case_bool_decide; [|by apply (Hset ref x x1)].
    set (x2 := x1 <| sf_relay := _ |> <| sf_pushed := _ |>) in *.
    apply (tables_set r ref x x2); [done|done|done| |done|by left|done]. simpl.
    intros ev' [? | ->%list_elem_of_singleton]%elem_of_app.
    + split; [by apply (tb_relays _ Htb ref x)|by left].
    + split; [done|right]. eexists. simpl. rewrite list_lookup_insert_eq by (by apply lookup_lt_Some in H0).
      by rewrite <- Hk0.
  - apply (tables_same r); [done|done| |by left]. simpl. rewrite H0. set_solver.
  - apply (tables_same r); [done|done| |by left]. simpl. rewrite H0. set_solver.
  - apply Hsame; [done..|by left].
  - unfold queue_section, note_delivered. destruct (tr_outbox r !! _); [|done].
    repeat case_bool_decide; try done. destruct (tr_heap r !! bs_ref ev) as [x|] eqn:Hx.
    + by apply (Hset (bs_ref ev) x (x <| sf_delivered := sf_delivered x ++ [ev] |>)).
    + apply Hsame; [done..|by left].
Qed.

(** ** What instructions start *)

Ltac agree_plain := apply agrees_plain; done.

Lemma calls_agree r calls : Forall (fun i => is_call i = true) calls -> Forall (agrees r) (calls ++ [Loop]).
Proof.
  intros Hc. apply Forall_app. split; [|repeat constructor; agree_plain].
  eapply Forall_impl; [done|]. intros []; try done; intros _; agree_plain.
Qed.

Ltac agree_next Hmore :=
  repeat case_match; repeat apply List.Forall_cons; try apply List.Forall_nil;
  first [by apply agrees_plain | by apply Hmore].

Lemma exec_agrees r i r' next started : tables r -> agrees r i -> exec r i r' next started ->
  Forall (agrees r') next /\ Forall (Forall (agrees r')) started.
Proof.
  intros Htb Hag He. pose proof (exec_grows _ _ _ _ _ He) as Hg.
  assert (forall i', (forall key ref, works_for i' = Some (key, ref) -> works_for i = Some (key, ref)) ->
    (forall ev, carries i' = Some ev -> carries i = Some ev) -> agrees r' i') as Hmore.
  { intros i' Hw Hc. destruct Hag as [A1 A2 A3]. split.
    - intros key ref ?%Hw. by eapply grows_sub_key, A1.
    - intros ev ?%Hc. by eapply grows_event_ok, A2.
    - intros key ref ev ?%Hw ?%Hc. by eapply A3. }
  destruct He; try (split; [agree_next Hmore|constructor]).
  - split; [|constructor]. apply Forall_singleton. split; [|done|done]. simpl. intros key' ref' [= <- <-].
    eexists. simpl. by rewrite list_lookup_middle.
  - unfold insert_section in *. case_match; simpl; (split; [agree_next Hmore|]); [constructor|].
    repeat apply List.Forall_cons; try apply List.Forall_nil; agree_next Hmore.
  - split; [|constructor]. unfold rebind_section. agree_next Hmore.
  - split; [|constructor]. unfold detach. agree_next Hmore.
  - split; [|constructor]. unfold detach. agree_next Hmore.
  - split; [|constructor]. apply Forall_fmap, Forall_true. intros kv. agree_plain.
  - split; [|constructor]. apply Forall_singleton.
    destruct (tb_relays _ Htb ref x ev H0) as [Hb Hok]; [rewrite H1; set_solver|].
    destruct (ag_key _ _ Hag key ref eq_refl) as (x0 & Hx0 & Hk0). split; simpl.
    + intros key' ref' [= <- <-]. by eapply grows_sub_key, (ag_key _ _ Hag).
    + intros ev' [= <-]. by eapply grows_event_ok.
    + by intros key' ref' ev' [= <- <-] [= <-].
  - split; [|constructor]. unfold send_section in *. agree_next Hmore.
  - split; [|constructor]. unfold put_section in *. agree_next Hmore.
  - split; [|constructor]. apply List.Forall_cons; [|apply Forall_singleton; agree_plain].
    split; [done| |done]. intros ev' [= <-]. eapply grows_event_ok; [done|]. apply (tb_lane _ Htb). rewrite H0. set_solver.
  - split; [|constructor]. case_match; [by apply calls_agree|]. apply Forall_singleton. agree_plain.
  - split; [|constructor]. by apply calls_agree.
  - split; [|constructor]. unfold queue_section. agree_next Hmore.
Qed.

(** ** One forwarder, one fan-out, one loop *)

(** The goroutine that forwards for a subscription, and the one that takes its output;
    before it is in the table, the call that makes it stands for both. *)
Definition fwd_token ref i : nat :=
  match i with
  | Insert _ ref' | Forward _ ref' _ | ForwardCheck _ ref' _ _ | ForwardSend _ ref' _ _
  | ForwardRefused _ ref' _ => if decide (ref' = ref) then 1 else 0
  | _ => 0
  end.

Definition fan_token ref i : nat :=
  match i with
  | Insert _ ref' | FanOut _ ref' | FanOutGone _ ref' | FanOutCheck _ ref' _ | FanOutPut _ ref' _ =>
    if decide (ref' = ref) then 1 else 0
  | _ => 0
  end.

Definition insert_token ref i : nat :=
  match i with Insert _ ref' => if decide (ref' = ref) then 1 else 0 | _ => 0 end.

(** A way of counting that instructions do not increase, but for a new subscription. *)
Definition role (f : nat -> Instr -> nat) : Prop :=
  (forall ref i, (0 < f ref i)%nat -> exists key, works_for i = Some (key, ref)) /\
  (forall ref i, is_call i = true -> f ref i = 0%nat) /\
  (forall ref i, (f ref i <= 1)%nat) /\
  forall r i r' next started ref, exec r i r' next started -> ref <> length (tr_heap r) ->
    (sum_list_with (f ref) next + tokens (f ref) started <= f ref i)%nat.

Lemma sum_calls (f : Instr -> nat) calls : (forall i, is_call i = true -> f i = 0%nat) -> f Loop = 0%nat ->
  Forall (fun i => is_call i = true) calls -> sum_list_with f (calls ++ [Loop]) = 0%nat.
Proof.
  intros Hf Hl Hc. rewrite sum_list_with_app. simpl. rewrite Hl. induction Hc as [|i l Hi _ IH]; [done|].
  simpl. rewrite Hf by done. lia.
Qed.

Lemma sum_unsubscribes (f : Instr -> nat) (l : list (surfaceKey * nat)) : (forall key, f (Unsubscribe key) = 0%nat) ->
  sum_list_with f ((fun kv => Unsubscribe kv.1) <$> l) = 0%nat.
Proof. intros Hf. induction l as [|kv l IH]; [done|]. simpl. rewrite Hf. exact IH. Qed.

Ltac role_cases He :=
  destruct He; unfold insert_section, rebind_section, detach, send_section, put_section, queue_section;
  repeat case_match; unfold tokens; simpl;
  rewrite ?sum_unsubscribes, ?sum_calls by (done || by intros []);
  repeat case_decide; simpl; try lia; try congruence.

Ltac solve_role f :=
  split_and!;
  [ intros ref i; unfold f; destruct i; try (simpl; lia); (case_decide; [|lia]); subst; intros _; by eexists
  | by intros ref []
  | intros ref []; simpl; repeat case_decide; lia
  | intros r i r' next started ref He Hne; role_cases He ].

Lemma fwd_role : role fwd_token.
Proof. solve_role fwd_token. Qed.

Lemma fan_role : role fan_token.
Proof. solve_role fan_token. Qed.

Lemma insert_role : role insert_token.
Proof. solve_role insert_token. Qed.

(** An instruction that is not the loop's. *)
Definition loop_free i : Prop := match i with Loop | LoopCheck _ | LoopQueue _ | Finish => False | _ => True end.

Lemma calls_loop_free calls : Forall (fun i => is_call i = true) calls -> Forall loop_free calls.
Proof. intros Hc. eapply Forall_impl; [done|]. by intros []. Qed.

Lemma exec_loop_free r i r' next started : exec r i r' next started ->
  Forall (Forall loop_free) started /\
  (loop_free i \/ (exists ev, i = LoopQueue ev) -> Forall loop_free next).
Proof.
  intros He. destruct He; unfold insert_section, rebind_section, detach, send_section, put_section, queue_section;
    (split; [repeat case_match; by repeat constructor|]); intros [Hi | [ev' ?]]; try done;
    repeat case_match; try (by repeat constructor).
  apply Forall_fmap, Forall_true. by intros kv.
Qed.

(** The first goroutine is the event loop, until it has ended. *)
Definition loop_shape ts : Prop :=
  exists pre tail others, ts = (pre ++ tail) :: others /\ tail ∈ [[Loop]; [Finish]; []] /\
    Forall (Forall loop_free) others /\
    (Forall loop_free pre \/ tail = [Loop] /\ exists ev, pre = [LoopCheck ev] \/ pre = [LoopQueue ev]).

Lemma exec_loop_shape r i r' next started rest l1 l2 :
  exec r i r' next started -> loop_shape (l1 ++ (i :: rest) :: l2) ->
  loop_shape (l1 ++ (next ++ rest) :: l2 ++ started).
Proof.
  intros He (pre & tail & others & Heq & Htail & Hoth & Hpre). destruct (exec_loop_free _ _ _ _ _ He) as [Hst Hnext].
  destruct l1 as [|t l1]; simpl in *.
  - injection Heq as Heq <-. assert (Forall (Forall loop_free) (l2 ++ started)) as Hoth' by (by apply Forall_app).
    destruct pre as [|i' pre]; simpl in Heq.
    + subst tail. assert (rest = [] /\ (i = Loop \/ i = Finish)) as [-> [-> | ->]] by set_solver.
      * inversion He; subst; rewrite !app_nil_r.
        -- exists [LoopCheck ev], [Loop], l2. split_and!; [done|set_solver|done|]. right. eauto.
        -- exists (if shouldApplySlowClose r key frameID subID then calls else []), [Loop], l2.
           split_and!; [by destruct (shouldApplySlowClose _ _ _ _)|set_solver|done|]. left.
           destruct (shouldApplySlowClose _ _ _ _); [by apply calls_loop_free|done].
        -- exists calls, [Loop], l2. split_and!; [done|set_solver|done|]. left. by apply calls_loop_free.
        -- exists [Close], [Finish], l2. split_and!; [done|set_solver|done|]. left. by repeat constructor.
      * inversion He; subst. exists [], [], (l2 ++ []). split_and!; [done|set_solver|done|by left].
    + injection Heq as -> ->. destruct Hpre as [Hpre | (-> & ev & [Hp | Hp])].
      * inversion Hpre; subst. exists (next ++ pre), tail, (l2 ++ started). rewrite (assoc_L (++)).
        split_and!; [done..|]. left. apply Forall_app. split; [|done]. apply Hnext. by left.
      * injection Hp as -> ->. inversion He; subst. case_match.
        -- exists [LoopQueue ev], [Loop], (l2 ++ []). split_and!; [done|set_solver|done|]. right. eauto.
        -- exists [], [Loop], (l2 ++ []). split_and!; [done|set_solver|done|by left].
      * injection Hp as -> ->. exists next, [Loop], (l2 ++ started). split_and!; [done|set_solver|done|].
        left. apply Hnext. right. by eexists.
  - injection Heq as -> <-. exists pre, tail. eexists. split_and!; [done|done| |done].
    apply Forall_app in Hoth as [H1 H2]. apply Forall_cons in H2 as [H2 H3]. apply Forall_cons in H2 as [Hi Hrest].
    apply Forall_app. split; [done|]. apply List.Forall_cons; [|by apply Forall_app].
    apply Forall_app. split; [|done]. apply Hnext. by left.
Qed.

(** ** The structure of a reachable configuration *)

Record structured (c : Config) : Prop := {
  sc_tables : tables (cf_relay c);
  sc_agree : Forall (Forall (agrees (cf_relay c))) (cf_threads c);
  sc_loop : loop_shape (cf_threads c);
  sc_role f ref : role f -> (tokens (f ref) (cf_threads c) <= 1)%nat }.

Lemma agrees_bound r ts f ref : role f -> Forall (Forall (agrees r)) ts -> (length (tr_heap r) <= ref)%nat ->
  tokens (f ref) ts = 0%nat.
Proof.
  intros (Hf & _) Hag Hge. unfold tokens. induction Hag as [|t ts Ht _ IH]; [done|]. simpl.
  rewrite IH, Nat.add_0_r. clear IH. induction Ht as [|i t Hi _ IH]; [done|]. simpl. rewrite IH, Nat.add_0_r.
  destruct (decide (f ref i = 0%nat)) as [|Hne]; [done|]. destruct (Hf ref i) as [key Hk]; [lia|].
  destruct (ag_key _ _ Hi key ref Hk) as (x & Hx%lookup_lt_Some & _). lia.
Qed.

Lemma grows_threads r r' ts : grows r r' -> Forall (Forall (agrees r)) ts -> Forall (Forall (agrees r')) ts.
Proof.
  intros Hg Hts. eapply Forall_impl; [done|]. intros t Ht. eapply Forall_impl; [done|]. intros i. by apply grows_agrees.
Qed.

Lemma structured_exec r i r' next started l1 rest l2 :
  structured (mkConfig r (l1 ++ (i :: rest) :: l2)) -> exec r i r' next started ->
  structured (mkConfig r' (l1 ++ (next ++ rest) :: l2 ++ started)).
Proof.
  intros Hst He. pose proof Hst as [Htb Hag Hl Hrole]. simpl in *.
  pose proof (exec_grows _ _ _ _ _ He) as Hg.
  assert (agrees r i) as Hi.
  { apply Forall_app in Hag as [_ Hag]. apply Forall_cons in Hag as [Hag _]. by apply Forall_cons in Hag as [? _]. }
  destruct (exec_agrees _ _ _ _ _ Htb Hi He) as [Hn Hs].
  assert (Forall (Forall (agrees r')) (l1 ++ (next ++ rest) :: l2 ++ started)) as Hag'.
  { apply (grows_threads _ _ _ Hg) in Hag. apply Forall_app in Hag as [H1 H2]. apply Forall_cons in H2 as [H2 H3].
    apply Forall_cons in H2 as [_ H2]. apply Forall_app. split; [done|].
    apply List.Forall_cons; by apply Forall_app. }
  split; simpl; [by eapply exec_tables|done|by eapply exec_loop_shape|].
  intros f ref Hf. specialize (Hrole f ref Hf). pose proof (tokens_step (f ref) l1 i rest l2 next started) as Hts.
  destruct (decide (length (tr_heap r') <= ref)%nat) as [Hge|Hge]; [rewrite (agrees_bound r') by done; lia|].
  destruct (decide (ref = length (tr_heap r))) as [->|Hne].
  - rewrite (agrees_bound r _ f (length (tr_heap r)) Hf Hag) in Hts by lia.
    destruct (exec_new _ _ _ _ _ He) as [Heq | (_ & _ & -> & key & frameID & cols & rows & id & -> & -> & _)]; [lia|].
    destruct Hf as (_ & _ & Hone & _). specialize (Hone (length (tr_heap r)) (Insert key (length (tr_heap r)))).
    change (tokens _ []) with 0%nat in Hts. simpl in *. lia.
  - destruct Hf as (_ & _ & _ & Hstep). specialize (Hstep _ _ _ _ _ ref He Hne). lia.
Qed.

Lemma structured_step c c' : structured c -> step c c' -> structured c'.
Proof.
  intros Hst Hs. destruct Hs as [r r' l1 i rest l2 next started _ He|r ts i Hi|r ts connID ev rest Hl|
    r ts connID|r ts connID Hn Hf]; [by eapply structured_exec| |destruct Hst as [Htb Hag Hl' Hro]..].
  - destruct Hst as [Htb Hag Hl' Hro]. cbn [cf_threads cf_relay] in *.
    destruct Hl' as (pre & tail & others & -> & Ht & Hoth & Hpre). split; cbn [cf_threads cf_relay]; [done| | |].
    + apply Forall_app. split; [done|]. do 2 apply Forall_singleton. apply agrees_plain; by destruct i.
    + exists pre, tail, (others ++ [[i]]). split_and!; [reflexivity|done| |exact Hpre]. apply Forall_app. split; [done|].
      do 2 apply Forall_singleton. by destruct i.
    + intros f ref Hf. rewrite tokens_app. specialize (Hro f ref Hf).
      destruct Hf as (_ & Hc & _). assert (tokens (f ref) [[i]] = 0%nat) as ->; [|lia].
      unfold tokens. simpl. by rewrite Hc.
  - split; simpl; [by apply (tables_same r); [..|by left]| |done|done]. eapply grows_threads; [by apply (grows_heap r)|done].
  - split; simpl; [by apply (tables_same r); [..|by left]| |done|done]. eapply grows_threads; [by apply (grows_heap r)|done].
  - split; simpl; [by apply (tables_same r); [..|by left]| |done|done]. eapply grows_threads; [by apply (grows_heap r)|done].
Qed.

Lemma structured_initial : structured initial.
Proof.
  split; simpl.
  - split.
    + intros ev Hin. by apply not_elem_of_nil in Hin.
    + by intros ref x ev Hx.
    + by intros key ref Hs.
    + by intros ref1 ref2 x1 x2 Hx.
  - do 2 apply Forall_singleton. by apply agrees_plain.
  - exists [], [Loop], []. split_and!; [done|set_solver|done|by left].
  - intros f ref (Hf & _ & Hone & _). unfold tokens. simpl. specialize (Hone ref Loop). lia.
Qed.

End Order.
