(* ===== verification/RuntimeRelayStream.v ===== *)
(** * host/runtime: what a browser gets of a terminal

    The chunks of one subscription on their way from its relay channel over the loop's
    lane to its connection. *)

From Stdlib Require Import String.
From S2P Require Import Prelude GoStd HostState RuntimeRelay RuntimeRelaySafety RuntimeRelayOrder.

Section Stream.
Context `{GoMapRange} {CAP : Capacities}.
Implicit Types (r : Relay) (key : surfaceKey) (ref : nat) (x : surfaceSub) (ts : list Thread).
Implicit Types (ev : BroadcastSurface) (i : Instr).

(** ** Chunks on the way *)

(** The chunk that the forwarder of [ref] holds; the one that the loop holds; those in
    the loop's lane. *)
Definition flight ref i : list BroadcastSurface :=
  match i with
  | ForwardCheck _ ref' _ ev | ForwardSend _ ref' _ ev => if decide (ref' = ref) then [ev] else []
  | _ => []
  end.

Definition desk ref i : list BroadcastSurface :=
  match i with
  | LoopCheck ev | LoopQueue ev => if decide (bs_ref ev = ref) then [ev] else []
  | _ => []
  end.

Definition waiting ref (lane : list LaneEvent) : list BroadcastSurface :=
  omap (fun e => match e with
                 | InternalBroadcastSurface ev => if decide (bs_ref ev = ref) then Some ev else None
                 | _ => None
                 end) lane.

Definition all (f : Instr -> list BroadcastSurface) ts : list BroadcastSurface := ts ≫= (fun t => t ≫= f).

(** [x'] is [x] as far as its stream goes. *)
Definition same_stream x x' : Prop :=
  sf_relay x' = sf_relay x /\ sf_pushed x' = sf_pushed x /\ sf_sent x' = sf_sent x /\
  sf_delivered x' = sf_delivered x /\ sf_seq x' = sf_seq x /\ sf_key x' = sf_key x.

(** ** What an instruction does to the stream of [ref] *)

Inductive change r i r' (next : Thread) ref x x' : Prop :=
| ch_quiet : same_stream x x' -> next ≫= flight ref = flight ref i -> next ≫= desk ref = desk ref i ->
    waiting ref (tr_lane r') = waiting ref (tr_lane r) ->
    (forall key b ev, ForwardSend key ref b ev ∈ next -> tr_subs r !! key = Some ref) ->
    (forall ev, bs_ref ev = ref -> LoopQueue ev ∈ next ->
       i = LoopCheck ev /\ isCurrentOwnedSubscription r (bs_key ev) (bs_FrameID ev) (bs_SubID ev) = true) ->
    change r i r' next ref x x'
| ch_put key data : i = FanOutPut key ref data ->
    let ev := mkBroadcast key (sf_frameID x) (sf_subID x) data (sf_seq x) ref in
    x' = x <| sf_seq := (sf_seq x + 1) mod 2 ^ 64 |> <| sf_relay := sf_relay x ++ [ev] |>
           <| sf_pushed := sf_pushed x ++ [ev] |> ->
    next = [FanOut key ref] -> tr_lane r' = tr_lane r -> change r i r' next ref x x'
| ch_put_full key data : i = FanOutPut key ref data ->
    x' = x <| sf_seq := (sf_seq x + 1) mod 2 ^ 64 |> -> next = [Sever key] -> tr_lane r' = tr_lane r ->
    change r i r' next ref x x'
| ch_take key b ev rest : i = Forward key ref b -> sf_relay x = ev :: rest -> x' = x <| sf_relay := rest |> ->
    next = [ForwardCheck key ref b ev] -> tr_lane r' = tr_lane r -> change r i r' next ref x x'
| ch_discard key b ev : i = ForwardCheck key ref b ev -> next = [] -> r' = r -> x' = x ->
    tr_subs r !! key <> Some ref -> change r i r' next ref x x'
| ch_sent key b ev : i = ForwardSend key ref b ev -> x' = x <| sf_sent := sf_sent x ++ [ev] |> ->
    next = [Forward key ref (b - 1)] -> tr_lane r' = tr_lane r ++ [InternalBroadcastSurface ev] ->
    change r i r' next ref x x'
| ch_refused key b ev : i = ForwardSend key ref b ev -> r' = r -> x' = x ->
    next = [Sever (bs_key ev); ForwardRefused key ref (S b)] -> change r i r' next ref x x'
| ch_pop ev : i = Loop -> bs_ref ev = ref -> x' = x ->
    waiting ref (tr_lane r) = ev :: waiting ref (tr_lane r') -> next = [LoopCheck ev; Loop] ->
    change r i r' next ref x x'
| ch_stale ev : i = LoopCheck ev -> bs_ref ev = ref -> r' = r -> x' = x -> next = [] ->
    isCurrentOwnedSubscription r (bs_key ev) (bs_FrameID ev) (bs_SubID ev) = false ->
    change r i r' next ref x x'
| ch_deliver ev : i = LoopQueue ev -> bs_ref ev = ref ->
    x' = x <| sf_delivered := sf_delivered x ++ [ev] |> -> next = [] -> tr_lane r' = tr_lane r ->
    is_Some (tr_outbox r !! key_conn (bs_key ev)) -> change r i r' next ref x x'
| ch_no_conn ev : i = LoopQueue ev -> bs_ref ev = ref -> r' = r -> x' = x -> next = [] ->
    tr_outbox r !! key_conn (bs_key ev) = None -> change r i r' next ref x x'
| ch_full ev : i = LoopQueue ev -> bs_ref ev = ref -> r' = r -> x' = x -> next = [Sever (bs_key ev)] ->
    change r i r' next ref x x'
| ch_anonymous ev : i = LoopQueue ev -> bs_ref ev = ref -> r' = r -> x' = x -> next = [] ->
    key_session (bs_key ev) = "" -> change r i r' next ref x x'.

Lemma set_sub_lookup r ref' y ref x' : tr_heap (set_sub r ref' y) !! ref = Some x' ->
  ref' = ref /\ x' = y \/ ref' <> ref /\ tr_heap r !! ref = Some x'.
Proof. unfold set_sub. simpl. intros [(<- & <- & _) | [? ?]]%list_lookup_insert_Some; [by left|by right]. Qed.

(** A step that leaves the subscription and the lane alone and neither makes nor uses a
    chunk of it. *)
Lemma ch_none_waiting r i r' next ref x x' :
  same_stream x x' -> waiting ref (tr_lane r') = waiting ref (tr_lane r) ->
  (forall i', i' ∈ i :: next -> flight ref i' = [] /\ desk ref i' = []) -> change r i r' next ref x x'.
Proof.
  intros Hs Hl Hn. destruct (Hn i) as [F D]; [set_solver|].
  assert (next ≫= flight ref = [] /\ next ≫= desk ref = []) as [H1 H2].
  { assert (forall i', i' ∈ next -> flight ref i' = [] /\ desk ref i' = []) as Hn' by set_solver. clear -Hn'.
    induction next as [|j l IH]; [done|]. destruct (Hn' j) as [F D]; [set_solver|].
    destruct IH as [IH1 IH2]; [set_solver|]. simpl. by rewrite F, D. }
  apply ch_quiet; rewrite ?H1, ?H2, ?F, ?D, ?Hl; try done.
  - intros key b ev Hin. destruct (Hn (ForwardSend key ref b ev)) as [Hf _]; [set_solver|].
    simpl in Hf. by rewrite decide_True in Hf.
  - intros ev Hr Hin. destruct (Hn (LoopQueue ev)) as [_ Hd]; [set_solver|]. simpl in Hd. by rewrite decide_True in Hd.
Qed.

Lemma ch_none r i r' next ref x x' :
  same_stream x x' -> tr_lane r' = tr_lane r ->
  (forall i', i' ∈ i :: next -> flight ref i' = [] /\ desk ref i' = []) -> change r i r' next ref x x'.
Proof. intros Hs Hl. apply ch_none_waiting; [done|by rewrite Hl]. Qed.

Lemma same_stream_refl x : same_stream x x.
Proof. by split_and!. Qed.

Lemma calls_no_chunk ref calls i' : Forall (fun i => is_call i = true) calls ->
  i' ∈ Loop :: calls ++ [Loop] -> flight ref i' = [] /\ desk ref i' = [].
Proof.
  intros Hc. rewrite elem_of_cons, elem_of_app, list_elem_of_singleton. rewrite Forall_forall in Hc.
  intros [->|[Hi%Hc| ->]]; [done| |done]. by destruct i'.
Qed.

(** Solves a step without chunks, on the same heap or on other fields. *)
Ltac no_chunk :=
  apply ch_none; [done||by split_and!|done|];
  let i' := fresh "i'" in let Hi := fresh "Hi" in
  intros i' Hi; repeat (apply elem_of_cons in Hi as [->|Hi]; [done|]); by apply not_elem_of_nil in Hi.

Lemma change_forward r key ref' b ev0 rest x0 ref x x' :
  tr_heap r !! ref' = Some x0 -> sf_relay x0 = ev0 :: rest -> tr_heap r !! ref = Some x ->
  tr_heap (set_sub r ref' (x0 <| sf_relay := rest |>)) !! ref = Some x' ->
  change r (Forward key ref' b) (set_sub r ref' (x0 <| sf_relay := rest |>)) [ForwardCheck key ref' b ev0] ref x x'.
Proof.
  intros H0 Hr Hx [[-> ->] | [Hne Hx']]%set_sub_lookup; simplify_eq.
  - by eapply ch_take.
  - apply ch_none; [by split_and!|done|]. intros i' Hi. simpl. apply elem_of_cons in Hi as [->|Hi]; [done|].
    apply list_elem_of_singleton in Hi as ->. simpl. by rewrite decide_False.
Qed.

Lemma change_send r key ref' b ev x0 ref x x' :
  agrees r (ForwardSend key ref' b ev) -> tr_heap r !! ref' = Some x0 -> tr_heap r !! ref = Some x ->
  tr_heap (send_section r key ref' x0 b ev).1 !! ref = Some x' ->
  change r (ForwardSend key ref' b ev) (send_section r key ref' x0 b ev).1 (send_section r key ref' x0 b ev).2 ref x x'.
Proof.
  intros Hag H0 Hx. pose proof (ag_ref _ _ Hag key ref' ev eq_refl eq_refl) as Hev.
  unfold send_section. destruct (lane_room r); simpl.
  - intros [[-> ->] | [Hne Hx']]%set_sub_lookup; simplify_eq; [by eapply ch_sent|].
    apply ch_quiet; simpl; rewrite ?decide_False by done; try done; [|set_solver|set_solver].
    unfold waiting. rewrite omap_app. simpl. rewrite decide_False by done. by rewrite app_nil_r.
  - intros Hx'. rewrite Hx in Hx'. injection Hx' as <-.
    destruct (decide (ref' = ref)) as [->|Hne]; [by eapply ch_refused|].
    apply ch_none; [by split_and!|done|]. intros i' Hi. apply elem_of_cons in Hi as [->|Hi].
    + simpl. by rewrite decide_False.
    + repeat (apply elem_of_cons in Hi as [->|Hi]; [done|]). by apply not_elem_of_nil in Hi.
Qed.

Lemma change_put r key ref' data x0 ref x x' :
  tr_heap r !! ref' = Some x0 -> tr_heap r !! ref = Some x ->
  tr_heap (put_section r key ref' x0 data).1 !! ref = Some x' ->
  change r (FanOutPut key ref' data) (put_section r key ref' x0 data).1 (put_section r key ref' x0 data).2 ref x x'.
Proof.
  intros H0 Hx. unfold put_section. case_bool_decide; simpl;
    intros [[-> ->] | [Hne Hx']]%set_sub_lookup; simplify_eq.
  - by eapply ch_put.
  - no_chunk.
  - by eapply ch_put_full.
  - no_chunk.
Qed.

Lemma change_queue r ev ref x x' : tr_heap r !! ref = Some x ->
  tr_heap (queue_section r ev).1 !! ref = Some x' ->
  change r (LoopQueue ev) (queue_section r ev).1 (queue_section r ev).2 ref x x'.
Proof.
  intros Hx. destruct (decide (bs_ref ev = ref)) as [He|Hne].
  - unfold queue_section. destruct (tr_outbox r !! key_conn (bs_key ev)) as [lane|] eqn:Ho; simpl;
      [|intros ?; simplify_eq; by eapply ch_no_conn].
    repeat case_bool_decide; simpl.
    + unfold note_delivered. rewrite He, Hx. intros [[_ ->] | [? ?]]%set_sub_lookup; [|done].
      by eapply ch_deliver.
    + intros ?; simplify_eq. by eapply ch_anonymous.
    + intros ?; simplify_eq. by eapply ch_full.
  - intros Hx'. assert (same_stream x x' /\ tr_lane (queue_section r ev).1 = tr_lane r /\
      ((queue_section r ev).2 = [] \/ (queue_section r ev).2 = [Sever (bs_key ev)])) as (Hs & Hl & Hn).
    { revert Hx'. unfold queue_section, note_delivered. destruct (tr_outbox r !! _); simpl;
        [|intros; simplify_eq; by auto using same_stream_refl].
      repeat case_bool_decide; simpl; [|intros; simplify_eq; by auto using same_stream_refl..].
      destruct (tr_heap r !! bs_ref ev) as [y|]; simpl; [|intros; simplify_eq; by auto using same_stream_refl].
      intros [[? _] | [_ ?]]%set_sub_lookup; [done|]. simplify_eq. by auto using same_stream_refl. }
    apply ch_none; [done..|]. intros i' [->|Hi]%elem_of_cons; [simpl; by rewrite decide_False|].
    destruct Hn as [Hn|Hn]; rewrite Hn in Hi; [by apply not_elem_of_nil in Hi|].
    by apply list_elem_of_singleton in Hi as ->.
Qed.

Lemma change_check r key ref' backlog ev ref x :
  change r (ForwardCheck key ref' backlog ev) r
    (if isActiveSub r key ref' then [ForwardSend key ref' backlog ev] else []) ref x x.
Proof.
  destruct (decide (ref' = ref)) as [->|Hne].
  - unfold isActiveSub. case_bool_decide as Ha; [|by eapply ch_discard].
    apply ch_quiet; simpl; rewrite ?decide_True by done; try done; [|set_solver].
    by intros key' b ev' [= -> -> ->]%list_elem_of_singleton.
  - apply ch_none; [apply same_stream_refl|done|]. intros i' [->|Hi]%elem_of_cons; [by simpl; rewrite decide_False|].
    destruct (isActiveSub _ _ _); [|by apply not_elem_of_nil in Hi].
    apply list_elem_of_singleton in Hi as ->. simpl. by rewrite decide_False.
Qed.

Lemma change_loop_output r ev rest ref x : tr_lane r = InternalBroadcastSurface ev :: rest ->
  change r Loop (r <| tr_lane := rest |>) [LoopCheck ev; Loop] ref x x.
Proof.
  intros H0. destruct (decide (bs_ref ev = ref)) as [He|Hne].
  - eapply ch_pop; try done. simpl. rewrite H0. unfold waiting. simpl. by rewrite decide_True.
  - apply ch_quiet; simpl; rewrite ?decide_False by done; try done; [|set_solver|set_solver].
    rewrite H0. unfold waiting. simpl. by rewrite decide_False.
Qed.

Lemma change_loop_check r ev ref x :
  change r (LoopCheck ev) r
    (if isCurrentOwnedSubscription r (bs_key ev) (bs_FrameID ev) (bs_SubID ev) then [LoopQueue ev] else []) ref x x.
Proof.
  destruct (decide (bs_ref ev = ref)) as [He|Hne].
  - destruct (isCurrentOwnedSubscription _ _ _ _) eqn:Hc; [|by eapply ch_stale].
    apply ch_quiet; simpl; rewrite ?decide_True by done; try done; [set_solver|].
    by intros ev' _ [= ->]%list_elem_of_singleton.
  - apply ch_none; [apply same_stream_refl|done|]. intros i' [->|Hi]%elem_of_cons; [by simpl; rewrite decide_False|].
    destruct (isCurrentOwnedSubscription _ _ _ _); [|by apply not_elem_of_nil in Hi].
    apply list_elem_of_singleton in Hi as ->. simpl. by rewrite decide_False.
Qed.

Lemma exec_change r i r' next started ref x x' :
  exec r i r' next started -> agrees r i -> tr_heap r !! ref = Some x -> tr_heap r' !! ref = Some x' ->
  change r i r' next ref x x'.
Proof.
  intros He Hag Hx Hx'. destruct He; try (rewrite Hx in Hx'; injection Hx' as <-); try (repeat case_match; no_chunk).
  - simpl in Hx'. rewrite (lookup_app_l_Some _ _ _ _ Hx) in Hx'. injection Hx' as <-. no_chunk.
  - assert (x' = x) as -> by (revert Hx'; unfold insert_section; case_match; simpl; congruence).
    unfold insert_section. case_match; no_chunk.
  - assert (x' = x) as -> by (revert Hx'; unfold rebind_section; repeat case_match; simpl; congruence).
    unfold rebind_section. repeat case_match; no_chunk.
  - assert (x' = x) as -> by (revert Hx'; unfold detach; case_match; simpl; congruence).
    unfold detach. case_match; no_chunk.
  - assert (x' = x) as -> by (revert Hx'; unfold detach; case_match; simpl; congruence).
    unfold detach. case_match; no_chunk.
  - assert (same_stream x x') as Hs; [|unfold cancel_section; case_match; no_chunk].
    revert Hx'. unfold cancel_section. case_match; [intros; simpl in *; simplify_eq; apply same_stream_refl|].
    intros [[-> ->] | [_ ?]]%set_sub_lookup; simplify_eq; by split_and!.
  - apply set_sub_lookup in Hx' as [[-> ->] | [_ ?]]; simplify_eq; no_chunk.
  - simpl in Hx'. simplify_eq. apply ch_quiet; try done; [|set_solver|set_solver].
    unfold waiting. simpl. rewrite omap_app. simpl. by rewrite app_nil_r.
  - apply ch_none; [apply same_stream_refl|done|]. intros i' [->|Hi]%elem_of_cons; [done|].
    by apply list_elem_of_fmap in Hi as (kv & -> & _).
  - by apply change_forward.
  - apply change_check.
  - by apply change_send.
  - assert (same_stream x x') as Hs; [|unfold gone_section; case_match; no_chunk].
    revert Hx'. unfold gone_section. case_match; [|intros; simplify_eq; apply same_stream_refl].
    intros [[-> ->] | [_ ?]]%set_sub_lookup; simplify_eq; by split_and!.
  - by apply change_put.
  - simpl in Hx'. simplify_eq. by apply change_loop_output.
  - simpl in Hx'. simplify_eq.
    assert (forall i', i' ∈ Loop :: (if shouldApplySlowClose r key frameID subID then calls ++ [Loop] else [Loop]) ->
      flight ref i' = [] /\ desk ref i' = []) as Hn.
    { intros i'. case_match; [by apply calls_no_chunk|]. by rewrite elem_of_cons, list_elem_of_singleton; intros [->| ->]. }
    apply (ch_none_waiting _ _ _ _ _ _ _ (same_stream_refl x)); [|done].
    simpl. rewrite H0. done.
  - apply ch_none; [apply same_stream_refl|done|]. intros i'. by apply calls_no_chunk.
  - simpl in Hx'. simplify_eq. no_chunk.
  - apply change_loop_check.
  - by apply change_queue.
Qed.

End Stream.
