(* ===== verification/RuntimeRelayGapless.v ===== *)
(** * host/runtime: the stream of a subscription has no gap

    The invariant that follows the chunks of one subscription, and what it gives. *)

From Stdlib Require Import String.
From S2P Require Import Prelude GoStd HostState RuntimeRelay RuntimeRelaySafety RuntimeRelayOrder RuntimeRelayStream.

Section Gapless.
Context `{GoMapRange} {CAP : Capacities}.
Implicit Types (r : Relay) (key : surfaceKey) (ref : nat) (x : surfaceSub) (ts : list Thread).
Implicit Types (ev : BroadcastSurface) (i : Instr).

(** ** Counting and collecting *)

Lemma all_concat f ts1 ts2 : all f (ts1 ++ ts2) = all f ts1 ++ all f ts2.
Proof. unfold all. apply bind_app. Qed.

Lemma all_step f l1 i rest l2 :
  all f (l1 ++ (i :: rest) :: l2) = all f l1 ++ f i ++ (rest ≫= f) ++ all f l2.
Proof. rewrite all_concat. unfold all at 2. simpl. by rewrite <- (assoc_L (++)). Qed.

Lemma all_next f l1 (next : Thread) rest l2 started :
  all f (l1 ++ (next ++ rest) :: l2 ++ started) = all f l1 ++ (next ≫= f) ++ (rest ≫= f) ++ all f l2 ++ all f started.
Proof.
  rewrite all_concat. f_equal. change (all f ((next ++ rest) :: l2 ++ started)) with (((next ++ rest) ≫= f) ++ all f (l2 ++ started)).
  by rewrite all_concat, bind_app, <- !(assoc_L (++)).
Qed.

(** Who has no token holds no chunk. *)
Lemma all_zero (f : Instr -> list BroadcastSurface) (g : Instr -> nat) ts :
  (forall i, g i = 0%nat -> f i = []) -> tokens g ts = 0%nat -> all f ts = [].
Proof.
  intros Hfg. induction ts as [|t ts IH]; [done|]. intros Hz.
  change (sum_list_with g t + tokens g ts = 0)%nat in Hz. change ((t ≫= f) ++ all f ts = []).
  rewrite IH by lia. rewrite app_nil_r. assert (sum_list_with g t = 0%nat) as Ht by lia. clear Hz IH.
  induction t as [|i t IH]; [done|]. simpl in *. rewrite Hfg by lia. apply IH. lia.
Qed.

Lemma tokens_lt (f g : Instr -> nat) ts t i : (forall i, (f i <= g i)%nat) -> t ∈ ts -> i ∈ t -> (f i < g i)%nat ->
  (tokens f ts < tokens g ts)%nat.
Proof.
  intros Hle Ht Hi Hlt.
  assert (forall t : Thread, (sum_list_with f t <= sum_list_with g t)%nat) as Hsum.
  { intros t'. induction t' as [|j t' IH]; [done|]. simpl. specialize (Hle j). lia. }
  assert (sum_list_with f t < sum_list_with g t)%nat as Hthis.
  { clear Ht. induction t as [|j t IH]; [by apply not_elem_of_nil in Hi|]. simpl. apply elem_of_cons in Hi as [->|Hi].
    - specialize (Hsum t). lia.
    - specialize (IH Hi). specialize (Hle j). lia. }
  unfold tokens. induction ts as [|t' ts IH]; [by apply not_elem_of_nil in Ht|]. simpl.
  assert (sum_list_with (sum_list_with f) ts <= sum_list_with (sum_list_with g) ts)%nat as Hrest.
  { clear IH Ht. induction ts as [|u ts IH]; [done|]. simpl. specialize (Hsum u). lia. }
  apply elem_of_cons in Ht as [->|Ht]; [lia|]. specialize (IH Ht). specialize (Hsum t'). lia.
Qed.

Lemma insert_fwd ref i : (insert_token ref i <= fwd_token ref i)%nat.
Proof. destruct i; simpl; case_decide || idtac; lia. Qed.

Lemma flight_fwd ref i : fwd_token ref i = 0%nat -> flight ref i = [].
Proof. destruct i; simpl; try done; case_decide; done. Qed.

(** ** Subscriptions that are over *)

Definition inactive (c : Config) ref : Prop :=
  (forall key, tr_subs (cf_relay c) !! key <> Some ref) /\ tokens (insert_token ref) (cf_threads c) = 0%nat.

Lemma exec_subs r i r' next started key ref : exec r i r' next started ->
  tr_subs r' !! key = Some ref -> tr_subs r !! key = Some ref \/ i = Insert key ref.
Proof.
  intros He. destruct He; simpl; try by left.
  - unfold insert_section. case_match; [by left|]. simpl. intros [[<- <-] | [_ ?]]%lookup_insert_Some; [by right|by left].
  - unfold rebind_section. repeat case_match; simpl; try by left. intros [_ ?]%lookup_delete_Some. by left.
  - unfold detach. case_match; simpl; [|by left]. intros [_ ?]%lookup_delete_Some. by left.
  - unfold detach. case_match; simpl; [|by left]. intros [_ ?]%lookup_delete_Some. by left.
  - unfold cancel_section. case_match; by left.
  - unfold send_section. case_match; by left.
  - unfold gone_section. case_match; [|by left]. simpl. intros [_ ?]%lookup_delete_Some. by left.
  - unfold put_section. case_match; by left.
  - unfold queue_section, note_delivered. repeat case_match; by left.
Qed.

Lemma inactive_exec r i r' next started l1 rest l2 ref : exec r i r' next started ->
  (ref < length (tr_heap r))%nat -> inactive (mkConfig r (l1 ++ (i :: rest) :: l2)) ref ->
  inactive (mkConfig r' (l1 ++ (next ++ rest) :: l2 ++ started)) ref.
Proof.
  intros He Hlt [Hno Hz]. simpl in *. pose proof (tokens_mid (insert_token ref) l1 i rest l2) as Hm. split; simpl.
  - intros key Hk. destruct (exec_subs _ _ _ _ _ _ _ He Hk) as [Hk'| ->]; [by apply (Hno key)|].
    simpl in Hm. rewrite decide_True in Hm by done. lia.
  - pose proof (tokens_step (insert_token ref) l1 i rest l2 next started).
    destruct insert_role as (_ & _ & _ & Hstep). specialize (Hstep _ _ _ _ _ ref He ltac:(lia)). lia.
Qed.

(** A forwarder that found its subscription not in the table, or has just severed it. *)
Lemma forwarder_inactive c key ref t i : structured c -> t ∈ cf_threads c -> i ∈ t ->
  works_for i = Some (key, ref) -> fwd_token ref i = 1%nat -> insert_token ref i = 0%nat ->
  tr_subs (cf_relay c) !! key <> Some ref -> inactive c ref.
Proof.
  intros Hst Ht Hi Hw Hf Hz Hno. destruct Hst as [Htb Hag _ Hrole]. split.
  - intros key' Hk'. destruct (tb_table _ Htb _ _ Hk') as (x & Hx & Hkx).
    rewrite Forall_forall in Hag. specialize (Hag t Ht). rewrite Forall_forall in Hag.
    destruct (ag_key _ _ (Hag i Hi) key ref Hw) as (x' & Hx' & Hkx'). congruence.
  - pose proof (tokens_lt (insert_token ref) (fwd_token ref) _ t i (insert_fwd ref) Ht Hi) as Hlt.
    specialize (Hrole fwd_token ref fwd_role). lia.
Qed.

(** An event that the loop finds not current, and one of a subscription that is over. *)
Lemma stale_no_key r ev ref : tables r -> event_ok r ev -> bs_ref ev = ref ->
  isCurrentOwnedSubscription r (bs_key ev) (bs_FrameID ev) (bs_SubID ev) = false ->
  forall key, tr_subs r !! key <> Some ref.
Proof.
  intros Htb (x & Hx & Hk & Hf & Hs) Hr Hc key Hkey. rewrite Hr in Hx.
  destruct (tb_table _ Htb _ _ Hkey) as (x' & Hx' & Hk'). rewrite Hx in Hx'. injection Hx' as <-.
  unfold isCurrentOwnedSubscription, sub_of in Hc. rewrite Hk, Hk', Hkey in Hc. simpl in Hc. rewrite Hx in Hc.
  by rewrite Hf, Hs, !bool_decide_eq_true_2 in Hc.
Qed.

Lemma inactive_stale c ev ref : tables (cf_relay c) -> event_ok (cf_relay c) ev -> bs_ref ev = ref ->
  inactive c ref ->
  isCurrentOwnedSubscription (cf_relay c) (bs_key ev) (bs_FrameID ev) (bs_SubID ev) = false.
Proof.
  intros Htb (x & Hx & Hk & Hf & Hs) Hr [Hno _]. rewrite Hr in Hx. unfold isCurrentOwnedSubscription, sub_of.
  destruct (tr_subs (cf_relay c) !! bs_key ev) as [ref'|] eqn:Hkey; [|done]. simpl.
  destruct (tr_heap (cf_relay c) !! ref') as [x'|] eqn:Hx'; [|done].
  destruct (bool_decide (sf_frameID x' = _)) eqn:F; [|done]. destruct (bool_decide (sf_subID x' = _)) eqn:S; [|done].
  apply bool_decide_eq_true in F, S. destruct (Hno (bs_key ev)). rewrite Hkey. f_equal.
  apply (tb_unique _ Htb ref' ref x' x); congruence.
Qed.

(** ** The invariant *)

Definition two64 : Z := 2 ^ 64.

Definition numbered ref x : Prop :=
  forall n ev, sf_pushed x !! n = Some ev -> bs_Sequence ev = Z.of_nat n mod two64 /\ bs_ref ev = ref.

(** A refused chunk: the forwarder is about to sever. *)
Definition severing ref ts : Prop := exists key b rest, (Sever key :: ForwardRefused key ref b :: rest) ∈ ts.

Definition no_send ref ts : Prop := forall t key b ev, t ∈ ts -> ForwardSend key ref b ev ∉ t.
Definition no_queue ref ts : Prop := forall t ev, t ∈ ts -> bs_ref ev = ref -> LoopQueue ev ∉ t.

Definition forwarding (c : Config) ref x : Prop :=
  sf_sent x ++ all (flight ref) (cf_threads c) ++ sf_relay x = sf_pushed x \/
  (sf_sent x `prefix_of` sf_pushed x /\ no_send ref (cf_threads c) /\
   (inactive c ref \/ severing ref (cf_threads c))).

Definition delivering (c : Config) ref x : Prop :=
  sf_delivered x ++ all (desk ref) (cf_threads c) ++ waiting ref (tr_lane (cf_relay c)) = sf_sent x \/
  (sf_delivered x `prefix_of` sf_sent x /\
   (inactive c ref /\ no_queue ref (cf_threads c) \/
    tr_outbox (cf_relay c) !! key_conn (sf_key x) = None \/
    tokens (insert_token ref) (cf_threads c) = 0%nat /\
    exists rest others, cf_threads c = (Sever (sf_key x) :: rest) :: others)).

Record stream (c : Config) ref x : Prop := {
  st_numbered : numbered ref x;
  st_seq : (0 < tokens (fan_token ref) (cf_threads c))%nat -> sf_seq x = Z.of_nat (length (sf_pushed x)) mod two64;
  st_new : (0 < tokens (insert_token ref) (cf_threads c))%nat -> sf_sent x = [];
  st_forward : forwarding c ref x;
  st_deliver : key_session (sf_key x) <> "" -> delivering c ref x }.

(** What [stream] says of every subscription. *)
Definition streams (c : Config) : Prop :=
  forall ref x, tr_heap (cf_relay c) !! ref = Some x -> stream c ref x.

(** ** One step *)

Lemma started_plain r i r' next started ref : exec r i r' next started ->
  all (flight ref) started = [] /\ all (desk ref) started = [] /\ no_send ref started /\ no_queue ref started.
Proof.
  intros He. assert (started = [] \/ exists key ref', started = [[Forward key ref' 0]; [FanOut key ref']]) as Hs.
  { destruct He; try by left. unfold insert_section. case_match; [by left|right]. by eexists _, _. }
  destruct Hs as [-> | (key & ref' & ->)].
  - split_and!; [done|done| |]; intros t *; set_solver.
  - split_and!; [done|done| |].
    + intros t k b ev Ht Hin. repeat (apply elem_of_cons in Ht as [->|Ht]; [by apply list_elem_of_singleton in Hin|]). set_solver.
    + intros t ev Ht _ Hin. repeat (apply elem_of_cons in Ht as [->|Ht]; [by apply list_elem_of_singleton in Hin|]). set_solver.
Qed.

Lemma exec_sever_gone r key r' next started : exec r (Sever key) r' next started -> tr_subs r' !! key = None.
Proof.
  intros He. inversion He; subst. unfold detach. destruct (tr_subs r !! key) eqn:Hk; simpl; [|done].
  apply lookup_delete_eq.
Qed.

Section Step.
Context (r r' : Relay) (i : Instr) (next rest : Thread) (l1 l2 started : list Thread) (ref : nat) (x x' : surfaceSub).

#[local] Abbreviation c := (mkConfig r (l1 ++ (i :: rest) :: l2)).
#[local] Abbreviation c' := (mkConfig r' (l1 ++ (next ++ rest) :: l2 ++ started)).

Context (Hst : structured c) (He : exec r i r' next started)
        (Hx : tr_heap r !! ref = Some x) (Hx' : tr_heap r' !! ref = Some x').

Lemma this_thread : (i :: rest) ∈ cf_threads c.
Proof. simpl. set_solver. Qed.

Lemma this_agrees : agrees r i.
Proof.
  pose proof (sc_agree _ Hst) as Hag. rewrite Forall_forall in Hag. specialize (Hag _ this_thread).
  by apply Forall_cons in Hag as [? _].
Qed.

Lemma this_change : change r i r' next ref x x'.
Proof. by eapply exec_change, Hx'; [|apply this_agrees|]. Qed.

Lemma ref_bound : (ref < length (tr_heap r))%nat.
Proof. by apply lookup_lt_Some in Hx. Qed.

(** The only forwarder of [ref] is this goroutine. *)
Lemma fwd_alone : fwd_token ref i = 1%nat ->
  all (flight ref) l1 = [] /\ rest ≫= flight ref = [] /\ all (flight ref) l2 = [] /\
  tokens (fwd_token ref) l1 = 0%nat /\ sum_list_with (fwd_token ref) rest = 0%nat /\ tokens (fwd_token ref) l2 = 0%nat.
Proof.
  intros Hi. pose proof (sc_role _ Hst fwd_token ref fwd_role) as Hone. cbn [cf_threads] in Hone.
  rewrite tokens_app in Hone. change (tokens (fwd_token ref) ((i :: rest) :: l2)) with
    (fwd_token ref i + sum_list_with (fwd_token ref) rest + tokens (fwd_token ref) l2)%nat in Hone.
  assert (forall ts, tokens (fwd_token ref) ts = 0%nat -> all (flight ref) ts = []) as Hz.
  { intros ts. apply all_zero, flight_fwd. }
  assert (rest ≫= flight ref = []) as Hrest.
  { specialize (Hz [rest]). unfold all, tokens in Hz. simpl in Hz. rewrite app_nil_r in Hz. apply Hz. lia. }
  split_and!; [apply Hz; lia|done|apply Hz; lia|lia..].
Qed.

(** A goroutine that is about to sever [ref] excludes another forwarder. *)
Lemma severing_excludes : severing ref (cf_threads c) -> fwd_token ref i = 0%nat.
Proof.
  intros (key & b & rest' & Hin). pose proof (sc_role _ Hst fwd_token ref fwd_role) as Hone.
  cbn [cf_threads] in *. destruct (decide (fwd_token ref i = 0%nat)) as [|Hne]; [done|].
  destruct fwd_role as (_ & _ & Hle & _). specialize (Hle ref i).
  destruct fwd_alone as (_ & _ & _ & Z1 & Z2 & Z3); [lia|].
  assert (forall ts, (Sever key :: ForwardRefused key ref b :: rest') ∈ ts -> (0 < tokens (fwd_token ref) ts)%nat) as Hpos.
  { intros ts Hts. pose proof (tokens_lt (fun _ => 0%nat) (fwd_token ref) ts _ (ForwardRefused key ref b)
      (fun _ => Nat.le_0_l _) Hts ltac:(set_solver)) as Hl. simpl in Hl. rewrite decide_True in Hl by done. lia. }
  apply elem_of_app in Hin as [Hin%Hpos|Hin]; [lia|]. apply elem_of_cons in Hin as [Heq|Hin%Hpos]; [|lia].
  by injection Heq as <- _.
Qed.

(** Severing takes [ref] out of the table, if it was there. *)
Lemma severed_inactive key b rest' : i = Sever key -> rest = ForwardRefused key ref b :: rest' -> inactive c' ref.
Proof.
  intros Hi Hr. assert (structured c') as Hst' by (by eapply structured_exec).
  eapply (forwarder_inactive c' key ref (next ++ rest) (ForwardRefused key ref b)); simpl in *.
  - done.
  - set_solver.
  - subst rest. set_solver.
  - done.
  - by rewrite decide_True.
  - done.
  - pose proof He as He'. rewrite Hi in He'. apply exec_sever_gone in He'. congruence.
Qed.

(** Threads other than this one, and what this one goes on with. *)
Lemma next_threads t : t ∈ cf_threads c' -> t = next ++ rest \/ t ∈ cf_threads c \/ t ∈ started.
Proof. simpl. set_solver. Qed.

Lemma no_send_next : (forall key b ev, ForwardSend key ref b ev ∉ next) ->
  no_send ref (cf_threads c) -> no_send ref (cf_threads c').
Proof.
  intros Hn Hno t key b ev Ht Hin. destruct (started_plain _ _ _ _ _ ref He) as (_ & _ & Hs & _).
  apply next_threads in Ht as [->|[Ht|Ht]]; [|by apply (Hno t key b ev)|by apply (Hs t key b ev)].
  apply elem_of_app in Hin as [Hin|Hin]; [by apply (Hn key b ev)|].
  apply (Hno (i :: rest) key b ev); [apply this_thread|set_solver].
Qed.

(** What remains when this goroutine was the forwarder and does not send any more. *)
Lemma no_send_alone : fwd_token ref i = 1%nat -> (forall key b ev, ForwardSend key ref b ev ∉ next) ->
  no_send ref (cf_threads c').
Proof.
  intros Hi Hn t key b ev Ht Hin. destruct (fwd_alone Hi) as (_ & _ & _ & Z1 & Z2 & Z3).
  destruct (started_plain _ _ _ _ _ ref He) as (_ & _ & Hs & _).
  assert (forall ts, tokens (fwd_token ref) ts = 0%nat -> t ∈ ts -> False) as Hz.
  { intros ts Hz Hts. pose proof (tokens_lt (fun _ => 0%nat) (fwd_token ref) ts _ (ForwardSend key ref b ev)
      (fun _ => Nat.le_0_l _) Hts Hin) as Hl. simpl in Hl. rewrite decide_True in Hl by done. lia. }
  simpl in Ht. apply elem_of_app in Ht as [Ht|Ht]; [by apply (Hz l1)|].
  apply elem_of_cons in Ht as [->|Ht]; [|apply elem_of_app in Ht as [Ht|Ht]; [by apply (Hz l2)|by apply (Hs t key b ev)]].
  apply elem_of_app in Hin as [Hin|Hin]; [by apply (Hn key b ev)|].
  assert (tokens (fwd_token ref) [rest] = 0%nat) as Hr by (unfold tokens; simpl; lia).
  pose proof (tokens_lt (fun _ => 0%nat) (fwd_token ref) [rest] rest (ForwardSend key ref b ev)
    (fun _ => Nat.le_0_l _) ltac:(set_solver) Hin) as Hl. simpl in Hl. rewrite decide_True in Hl by done. lia.
Qed.

Lemma flights_next : next ≫= flight ref = flight ref i -> all (flight ref) (cf_threads c') = all (flight ref) (cf_threads c).
Proof.
  intros Hn. simpl. rewrite all_next, all_step, Hn. destruct (started_plain _ _ _ _ _ ref He) as (-> & _).
  by rewrite app_nil_r.
Qed.

Lemma flights_alone : fwd_token ref i = 1%nat ->
  all (flight ref) (cf_threads c) = flight ref i /\ all (flight ref) (cf_threads c') = next ≫= flight ref.
Proof.
  intros Hi. destruct (fwd_alone Hi) as (Z1 & Z2 & Z3 & _). destruct (started_plain _ _ _ _ _ ref He) as (Z4 & _).
  simpl. rewrite all_next, all_step, Z1, Z2, Z3, Z4, !app_nil_r. done.
Qed.

(** While no chunk is lost. *)
Lemma forwarding_intact :
  sf_sent x ++ all (flight ref) (cf_threads c) ++ sf_relay x = sf_pushed x -> forwarding c' ref x'.
Proof.
  intros Hok. pose proof this_agrees as Hag. assert (structured c') as Hst' by (by eapply structured_exec).
  assert (forall e, flight ref i = [] -> next ≫= flight ref = [] ->
    x' = e -> sf_sent e = sf_sent x -> sf_relay e = sf_relay x -> sf_pushed e = sf_pushed x -> forwarding c' ref x') as Hsame.
  { intros e F1 F2 -> S R P. left. rewrite flights_next by congruence. by rewrite S, R, P. }
  destruct this_change as [(R & P & S & _) F _ _ _ _|key data Hi ev Hxx Hn _|key data Hi Hxx Hn _|
    key b ev rest' Hi R Hxx Hn _|key b ev Hi Hn Hrr Hxx Hk|key b ev Hi Hxx Hn _|key b ev Hi Hrr Hxx Hn|
    ev Hi _ Hxx _ Hn|ev Hi _ _ Hxx Hn _|ev Hi _ Hxx Hn _ _|ev Hi _ _ Hxx Hn _|ev Hi _ _ Hxx Hn|ev Hi _ _ Hxx Hn _];
    try (eapply Hsame; [by rewrite Hi|by rewrite Hn|exact Hxx|done|done|done]).
  - left. by rewrite flights_next, R, P, S.
  - left. rewrite flights_next by (by rewrite Hi, Hn). rewrite Hxx. simpl sf_sent. simpl sf_relay. simpl sf_pushed. rewrite <- Hok.
    by rewrite !(assoc_L (++)).
  - left. destruct flights_alone as [F1 F2]; [rewrite Hi; simpl; by rewrite decide_True|].
    rewrite F1, Hi, R in Hok. rewrite F2, Hn, Hxx. simpl. rewrite <- Hok. by rewrite decide_True.
  - right. destruct flights_alone as [F1 F2]; [rewrite Hi; simpl; by rewrite decide_True|].
    split_and!.
    + rewrite Hxx, <- Hok. by apply prefix_app_r.
    + apply no_send_alone; [rewrite Hi; simpl; by rewrite decide_True|]. rewrite Hn. set_solver.
    + left. apply inactive_exec with (r := r) (i := i); [done|apply ref_bound|].
      eapply (forwarder_inactive _ key ref (i :: rest) i); [done|apply this_thread|set_solver|..];
        rewrite Hi; simpl; [done|by rewrite decide_True|done|done].
  - left. destruct flights_alone as [F1 F2]; [rewrite Hi; simpl; by rewrite decide_True|].
    rewrite F1, Hi in Hok. simpl in Hok. rewrite decide_True in Hok by done. rewrite F2, Hn, Hxx. simpl. rewrite <- Hok.
    by rewrite <- (assoc_L (++)).
  - right. destruct flights_alone as [F1 F2]; [rewrite Hi; simpl; by rewrite decide_True|].
    split_and!.
    + rewrite Hxx, <- Hok. by apply prefix_app_r.
    + apply no_send_alone; [rewrite Hi; simpl; by rewrite decide_True|]. rewrite Hn. set_solver.
    + right. rewrite Hi in Hag. destruct (ag_event _ _ Hag ev eq_refl) as (y & Hy & Hky & _).
      destruct (ag_key _ _ Hag key ref eq_refl) as (y' & Hy' & Hky').
      rewrite (ag_ref _ _ Hag key ref ev eq_refl eq_refl) in Hy.
      exists key, (S b), rest. simpl. rewrite Hn. assert (bs_key ev = key) as -> by congruence. set_solver.
Qed.

(** After a chunk was lost. *)
Lemma forwarding_broken :
  sf_sent x `prefix_of` sf_pushed x -> no_send ref (cf_threads c) ->
  inactive c ref \/ severing ref (cf_threads c) -> forwarding c' ref x'.
Proof.
  intros Hpre Hno Hend. right.
  assert (forall key b ev, i <> ForwardSend key ref b ev) as Hi0.
  { intros key b ev Hi. apply (Hno (i :: rest) key b ev); [apply this_thread|rewrite Hi; set_solver]. }
  assert (sf_sent x' = sf_sent x /\ sf_pushed x `prefix_of` sf_pushed x' /\
    forall key b ev, ForwardSend key ref b ev ∈ next -> tr_subs r !! key = Some ref /\ fwd_token ref i = 1%nat) as (S & P & N).
  { destruct this_change as [(R & P & S & _) F _ _ Hs _|key data Hi ev Hxx Hn _|key data Hi Hxx Hn _|
    key b ev rest' Hi R Hxx Hn _|key b ev Hi Hn Hrr Hxx Hk|key b ev Hi Hxx Hn _|key b ev Hi Hrr Hxx Hn|
    ev Hi _ Hxx _ Hn|ev Hi _ _ Hxx Hn _|ev Hi _ Hxx Hn _ _|ev Hi _ _ Hxx Hn _|ev Hi _ _ Hxx Hn|ev Hi _ _ Hxx Hn _];
    try (split_and!; [by rewrite Hxx|by rewrite Hxx|rewrite Hn; set_solver]); try by destruct (Hi0 key b ev).
    - rewrite S, P. split_and!; [done..|]. intros key b ev Hin. split; [by apply (Hs key b ev)|].
      destruct (decide (fwd_token ref i = 0%nat)) as [Hz|Hz].
      + rewrite (flight_fwd ref i Hz) in F. apply list_elem_of_split in Hin as (k1 & k2 & ->).
        rewrite bind_app in F. apply app_eq_nil in F as [_ F]. simpl in F. by rewrite decide_True in F.
      + destruct fwd_role as (_ & _ & Hle & _). specialize (Hle ref i). lia.
    - rewrite Hxx. split_and!; [done|by apply prefix_app_r|rewrite Hn; set_solver]. }
  split_and!; [rewrite S; by etrans| |].
  - apply no_send_next; [|done]. intros key b ev Hin. destruct (N key b ev Hin) as [Hk Hf].
    destruct Hend as [[Hna _]|Hsev]; [by apply (Hna key)|]. apply severing_excludes in Hsev. lia.
  - destruct Hend as [Hin|(key & b & rest' & Hin)]; [left; by eapply inactive_exec, Hin; [|apply ref_bound]|].
    simpl in Hin. apply elem_of_app in Hin as [Hin|Hin]; [right; exists key, b, rest'; simpl; set_solver|].
    apply elem_of_cons in Hin as [Heq|Hin]; [|right; exists key, b, rest'; simpl; set_solver].
    injection Heq as Hi Hr. left. by eapply severed_inactive.
Qed.

Lemma forwarding_step : forwarding c ref x -> forwarding c' ref x'.
Proof. intros [Hok | (Hpre & Hno & Hend)]; [by apply forwarding_intact|by apply forwarding_broken]. Qed.

(** *** The loop's side *)

Lemma desk_loop_free ts : Forall (Forall loop_free) ts -> all (desk ref) ts = [] /\ no_queue ref ts.
Proof.
  intros Hf. split.
  - induction Hf as [|t ts Ht _ IH]; [done|]. change ((t ≫= desk ref) ++ all (desk ref) ts = []).
    rewrite IH, app_nil_r. clear IH. induction Ht as [|j t Hj _ IHt]; [done|].
    change (desk ref j ++ (t ≫= desk ref) = []). rewrite IHt, app_nil_r. by destruct j.
  - intros t ev Ht _ Hin. rewrite Forall_forall in Hf. specialize (Hf t Ht). rewrite Forall_forall in Hf.
    by specialize (Hf _ Hin).
Qed.

(** A step of the loop itself: it is the first goroutine, and holds no other chunk. *)
Lemma loop_here : ~ loop_free i -> l1 = [] /\ all (desk ref) l2 = [] /\ no_queue ref l2 /\ rest ∈ [[]; [Loop]].
Proof.
  intros Hi. destruct (sc_loop _ Hst) as (pre & tail & others & Heq & Htail & Hoth & Hpre). simpl in Heq.
  destruct l1 as [|t l1']; simpl in Heq; injection Heq as Heq Hl.
  - subst others. destruct (desk_loop_free l2 Hoth) as [D Q]. split_and!; [done..|].
    destruct pre as [|j pre]; simpl in Heq; [subst tail; set_solver|]. injection Heq as -> Hr.
    destruct Hpre as [Hpre | (-> & ev & [Hp | Hp])]; [by apply Forall_cons in Hpre as [? _]|..];
      injection Hp as _ ->; rewrite Hr; set_solver.
  - exfalso. apply Hi. rewrite <- Hl in Hoth. apply Forall_app in Hoth as [_ Hoth].
    apply Forall_cons in Hoth as [Ht _]. by apply Forall_cons in Ht as [? _].
Qed.

Lemma desks_next : next ≫= desk ref = desk ref i -> all (desk ref) (cf_threads c') = all (desk ref) (cf_threads c).
Proof.
  intros Hn. simpl. rewrite all_next, all_step, Hn. destruct (started_plain _ _ _ _ _ ref He) as (_ & -> & _).
  by rewrite app_nil_r.
Qed.

Lemma desks_here : ~ loop_free i ->
  all (desk ref) (cf_threads c) = desk ref i /\ all (desk ref) (cf_threads c') = next ≫= desk ref.
Proof.
  intros Hi. destruct (loop_here Hi) as (H1 & H2 & _ & Hr). destruct (started_plain _ _ _ _ _ ref He) as (_ & H3 & _).
  assert (rest ≫= desk ref = []) as H4.
  { apply elem_of_cons in Hr as [->|Hr]; [done|]. by apply list_elem_of_singleton in Hr as ->. }
  simpl. rewrite all_next, all_step, H1, H2, H3, H4, !app_nil_r. done.
Qed.

Lemma no_queue_here : ~ loop_free i -> (forall ev, LoopQueue ev ∉ next) -> no_queue ref (cf_threads c').
Proof.
  intros Hi Hn t ev Ht Hr Hin. destruct (loop_here Hi) as (H1 & _ & H2 & Hrest).
  destruct (started_plain _ _ _ _ _ ref He) as (_ & _ & _ & H3). simpl in Ht. rewrite H1 in Ht. simpl in Ht.
  apply elem_of_cons in Ht as [->|Ht]; [|apply elem_of_app in Ht as [Ht|Ht]; [by apply (H2 t ev)|by apply (H3 t ev)]].
  apply elem_of_app in Hin as [Hin|Hin]; [by apply (Hn ev)|].
  apply elem_of_cons in Hrest as [->|Hrest]; [by apply not_elem_of_nil in Hin|].
  apply list_elem_of_singleton in Hrest as ->. by apply list_elem_of_singleton in Hin.
Qed.

Lemma insert_tokens_next : tokens (insert_token ref) (cf_threads c) = 0%nat -> tokens (insert_token ref) (cf_threads c') = 0%nat.
Proof.
  intros Hz. simpl in *. pose proof (tokens_step (insert_token ref) l1 i rest l2 next started) as Ht.
  destruct insert_role as (_ & _ & _ & Hstep).
  specialize (Hstep _ _ _ _ _ ref He ltac:(pose proof ref_bound; lia)). lia.
Qed.

Lemma outbox_none conn : tr_outbox r !! conn = None -> tr_outbox r' !! conn = None.
Proof.
  intros Hc. destruct He; simpl; try done.
  - unfold insert_section. by case_match.
  - unfold rebind_section. by repeat case_match.
  - unfold detach. by case_match.
  - unfold detach. by case_match.
  - unfold cancel_section. by case_match.
  - unfold send_section. by case_match.
  - unfold gone_section. by case_match.
  - unfold put_section. by case_match.
  - unfold queue_section, note_delivered. repeat case_match; simpl; try done;
      rewrite lookup_insert_ne; congruence.
Qed.

Lemma key_kept : sf_key x' = sf_key x.
Proof. destruct (exec_grows _ _ _ _ _ He ref x Hx) as (y & Hy & Hk & _). congruence. Qed.

Lemma not_new : stream c ref x -> sf_sent x <> [] -> tokens (insert_token ref) (cf_threads c) = 0%nat.
Proof.
  intros Hstr Hne. destruct (decide (tokens (insert_token ref) (cf_threads c) = 0%nat)) as [|Hz]; [done|].
  destruct Hne. apply (st_new _ _ _ Hstr). lia.
Qed.

(** While no chunk is lost. *)
Lemma delivering_intact :
  key_session (sf_key x) <> "" -> stream c ref x ->
  sf_delivered x ++ all (desk ref) (cf_threads c) ++ waiting ref (tr_lane r) = sf_sent x -> delivering c' ref x'.
Proof.
  intros Hsess Hstr Hok. pose proof this_agrees as Hag.
  assert (forall e, desk ref i = [] -> next ≫= desk ref = [] -> tr_lane r' = tr_lane r ->
    x' = e -> sf_sent e = sf_sent x -> sf_delivered e = sf_delivered x -> delivering c' ref x') as Hsame.
  { intros e D1 D2 L -> S D. left. rewrite desks_next by congruence. simpl. by rewrite L, S, D. }
  assert (forall ev, carries i = Some ev -> bs_ref ev = ref -> bs_key ev = sf_key x) as Hkey.
  { intros ev Hc Hr. destruct (ag_event _ _ Hag ev Hc) as (y & Hy & Hk & _). rewrite Hr in Hy. congruence. }
  destruct this_change as [(_ & _ & S & D & _) _ F W _ _|key data Hi ev Hxx Hn L|key data Hi Hxx Hn L|
    key b ev rest' Hi R Hxx Hn L|key b ev Hi Hn Hrr Hxx Hk|key b ev Hi Hxx Hn L|key b ev Hi Hrr Hxx Hn|
    ev Hi Hr Hxx W Hn|ev Hi Hr Hrr Hxx Hn Hc|ev Hi Hr Hxx Hn L Ho|ev Hi Hr Hrr Hxx Hn Ho|ev Hi Hr Hrr Hxx Hn|
    ev Hi Hr Hrr Hxx Hn Ha];
    try (eapply Hsame; [by rewrite Hi|by rewrite Hn|by rewrite ?L, ?Hrr|exact Hxx|done|done]).
  - left. rewrite desks_next by done. simpl. by rewrite W, S, D.
  - rewrite Hi in Hag. pose proof (ag_ref _ _ Hag key ref ev eq_refl eq_refl) as Hr.
    left. rewrite desks_next by (by rewrite Hi, Hn). cbn [cf_relay]. rewrite L, Hxx. simpl sf_delivered. simpl sf_sent.
    rewrite <- Hok. unfold waiting. rewrite omap_app. simpl. rewrite decide_True by done. by rewrite !(assoc_L (++)).
  - destruct desks_here as [D1 D2]; [rewrite Hi; intros []|]. left. rewrite D1, Hi, W in Hok. rewrite D2, Hn, Hxx, <- Hok.
    simpl. by rewrite decide_True.
  - destruct desks_here as [D1 D2]; [rewrite Hi; intros []|]. right. split; [rewrite Hxx, <- Hok; by apply prefix_app_r|].
    left. split; [|apply no_queue_here; [rewrite Hi; intros []|rewrite Hn; set_solver]].
    apply inactive_exec with (r := r) (i := i); [done|apply ref_bound|]. split.
    + rewrite Hi in Hag. destruct (ag_event _ _ Hag ev eq_refl) as (y & Hy & Hrest).
      apply (stale_no_key r ev ref); [apply Hst|by exists y|done|done].
    + apply not_new; [done|]. rewrite <- Hok, D1, Hi. simpl. rewrite decide_True by done. by intros [_ ?]%app_eq_nil.
  - destruct desks_here as [D1 D2]; [rewrite Hi; intros []|]. left. rewrite D1, Hi in Hok. simpl in Hok.
    rewrite decide_True in Hok by done. rewrite D2, Hn, Hxx. simpl. rewrite L, <- Hok. by rewrite <- (assoc_L (++)).
  - right. split; [rewrite Hxx, <- Hok; by apply prefix_app_r|]. right. left. simpl.
    rewrite key_kept, <- (Hkey ev) by (by rewrite ?Hi). by apply outbox_none.
  - destruct loop_here as (H1 & _ & _ & Hrest); [rewrite Hi; intros []|].
    destruct desks_here as [D1 D2]; [rewrite Hi; intros []|].
    right. split; [rewrite Hxx, <- Hok; by apply prefix_app_r|]. right. right. split.
    + apply insert_tokens_next, not_new; [done|]. rewrite <- Hok, D1, Hi. simpl.
      rewrite decide_True by done. by intros [_ ?]%app_eq_nil.
    + exists rest, (l2 ++ started). simpl. rewrite H1, Hn, key_kept. simpl. by rewrite (Hkey ev) by (by rewrite ?Hi).
  - destruct Hsess. rewrite <- Ha. by rewrite (Hkey ev) by (by rewrite ?Hi).
Qed.

(** The loop queues what it has just found current. *)
Lemma queue_next ev : bs_ref ev = ref -> LoopQueue ev ∈ next ->
  i = LoopCheck ev /\ isCurrentOwnedSubscription r (bs_key ev) (bs_FrameID ev) (bs_SubID ev) = true.
Proof.
  intros Hr Hin.
  destruct this_change as [_ _ _ _ _ Hq|? ? _ ? _ Hn _|? ? _ _ Hn _|? ? ? ? _ _ _ Hn _|? ? ? _ Hn _ _ _|? ? ? _ _ Hn _|
    ? ? ? _ _ _ Hn|? _ _ _ _ Hn|? _ _ _ _ Hn _|? _ _ _ Hn _ _|? _ _ _ _ Hn _|? _ _ _ _ Hn|? _ _ _ _ Hn _];
    [by apply Hq|rewrite Hn in Hin; set_solver..].
Qed.

(** The loop amid a call: it holds no chunk. *)
Lemma no_queue_call : loop_free i -> l1 = [] -> no_queue ref (cf_threads c').
Proof.
  intros Hi Hl. destruct (sc_loop _ Hst) as (pre & tail & others & Heq & Htail & Hoth & Hpre). simpl in Heq. rewrite Hl in Heq.
  simpl in Heq. injection Heq as Heq Hl2. destruct (exec_loop_free _ _ _ _ _ He) as [Hs Hn].
  destruct pre as [|j pre]; simpl in Heq.
  { subst tail. assert (i = Loop \/ i = Finish) as [Hj|Hj] by set_solver; by rewrite Hj in Hi. }
  injection Heq as Hj Hr. assert (Forall loop_free pre) as Hfree.
  { destruct Hpre as [Hpre | (_ & ev & [Hp | Hp])]; [by apply Forall_cons in Hpre as [_ ?]|..];
      injection Hp as Hp _; rewrite Hj, Hp in Hi; done. }
  intros t ev Ht Hr' Hin. simpl in Ht. rewrite Hl in Ht. simpl in Ht. apply elem_of_cons in Ht as [->|Ht].
  - assert (Forall loop_free (next ++ pre)) as Hf by (apply Forall_app; split; [apply Hn; by left|done]).
    rewrite Hr, (assoc_L (++)) in Hin. apply elem_of_app in Hin as [Hin|Hin].
    2:{ rewrite !elem_of_cons in Htail. destruct Htail as [-> | [-> | [-> | ?%not_elem_of_nil]]]; [..|done];
        [by apply list_elem_of_singleton in Hin..|by apply not_elem_of_nil in Hin]. }
    rewrite Forall_forall in Hf. by specialize (Hf _ Hin).
  - assert (Forall (Forall loop_free) (l2 ++ started)) as Hf by (apply Forall_app; split; [by rewrite Hl2|done]).
    destruct (desk_loop_free _ Hf) as [_ Hq]. by apply (Hq t ev).
Qed.

Lemma severed_no_key : i = Sever (sf_key x) -> forall key, tr_subs r' !! key <> Some ref.
Proof.
  intros Hi key Hk. assert (structured c') as Hst' by (by eapply structured_exec).
  destruct (tb_table _ (sc_tables _ Hst') _ _ Hk) as (y & Hy & Hky). simpl in Hy. rewrite Hx' in Hy. injection Hy as <-.
  rewrite key_kept in Hky. pose proof He as He'. rewrite Hi in He'. apply exec_sever_gone in He'. congruence.
Qed.

(** After a chunk was lost. *)
Lemma delivering_broken :
  sf_delivered x `prefix_of` sf_sent x ->
  inactive c ref /\ no_queue ref (cf_threads c) \/ tr_outbox r !! key_conn (sf_key x) = None \/
  tokens (insert_token ref) (cf_threads c) = 0%nat /\
    (exists rest others, cf_threads c = (Sever (sf_key x) :: rest) :: others) -> delivering c' ref x'.
Proof.
  intros Hpre Hend. pose proof this_agrees as Hag. right.
  assert (forall ev, carries i = Some ev -> bs_ref ev = ref -> bs_key ev = sf_key x) as Hkey.
  { intros ev Hc Hr. destruct (ag_event _ _ Hag ev Hc) as (y & Hy & Hk & _). rewrite Hr in Hy. congruence. }
  assert (sf_delivered x' = sf_delivered x /\ sf_sent x `prefix_of` sf_sent x') as [D S].
  { destruct this_change as [(_ & _ & S & D & _) _ _ _ _ _|key data Hi ev Hxx _ _|key data Hi Hxx _ _|
    key b ev rest' Hi R Hxx _ _|key b ev Hi _ _ Hxx _|key b ev Hi Hxx _ _|key b ev Hi _ Hxx _|
    ev Hi _ Hxx _ _|ev Hi _ _ Hxx _ _|ev Hi Hr Hxx _ _ Ho|ev Hi _ _ Hxx _ _|ev Hi _ _ Hxx _|ev Hi _ _ Hxx _ _];
    try (rewrite Hxx; split; [done|simpl; by (done || apply prefix_app_r)]); [by rewrite D, S|].
    exfalso. destruct Hend as [[_ Hq] | [Hc | (_ & rest' & others & Heq)]].
    - apply (Hq (i :: rest) ev); [apply this_thread|done|rewrite Hi; set_solver].
    - rewrite (Hkey ev) in Ho by (by rewrite ?Hi). rewrite Hc in Ho. by destruct Ho.
    - destruct loop_here as (H1 & _); [rewrite Hi; intros []|]. simpl in Heq. rewrite H1, Hi in Heq. done. }
  split; [rewrite D; by etrans|]. rewrite key_kept.
  destruct Hend as [[Hin Hq] | [Hc | (Hz & rest' & others & Heq)]].
  - left. split; [by eapply inactive_exec, Hin; [|apply ref_bound]|].
    intros t ev Ht Hr Hin'. destruct (started_plain _ _ _ _ _ ref He) as (_ & _ & _ & Hs).
    apply next_threads in Ht as [->|[Ht|Ht]]; [|by apply (Hq t ev)|by apply (Hs t ev)].
    apply elem_of_app in Hin' as [Hin'|Hin']; [|by apply (Hq (i :: rest) ev); [apply this_thread|done|set_solver]].
    destruct (queue_next ev Hr Hin') as [Hi Hc]. rewrite Hi in Hag.
    pose proof (inactive_stale c ev ref (sc_tables _ Hst) (ag_event _ _ Hag ev eq_refl) Hr Hin) as Hc'.
    simpl in Hc'. congruence.
  - right. left. by apply outbox_none.
  - simpl in Heq. apply insert_tokens_next in Hz. destruct (decide (l1 = [])) as [Hl|Hl].
    + left. rewrite Hl in Heq. injection Heq as Hi _.
      split; [|apply no_queue_call; [by rewrite Hi|done]]. split; [by apply severed_no_key|done].
    + right. right. split; [done|]. simpl. clear -Heq Hl. destruct l1 as [|t l1']; [done|]. simpl in *.
      injection Heq as -> _. by eexists _, _.
Qed.

Lemma delivering_step : stream c ref x -> key_session (sf_key x') <> "" -> delivering c' ref x'.
Proof.
  intros Hstr. rewrite key_kept. intros Hs.
  destruct (st_deliver _ _ _ Hstr Hs) as [Hok | [Hpre Hend]]; [by apply delivering_intact|by apply delivering_broken].
Qed.

(** *** Numbers *)

Lemma fan_next : (tokens (fan_token ref) (cf_threads c') + fan_token ref i
                  <= tokens (fan_token ref) (cf_threads c) + sum_list_with (fan_token ref) next + tokens (fan_token ref) started)%nat.
Proof. simpl. rewrite tokens_step. lia. Qed.

Lemma numbers_step : stream c ref x ->
  numbered ref x' /\
  ((0 < tokens (fan_token ref) (cf_threads c'))%nat -> sf_seq x' = Z.of_nat (length (sf_pushed x')) mod two64).
Proof.
  intros Hstr. destruct fan_role as (_ & _ & _ & Hrole).
  specialize (Hrole _ _ _ _ _ ref He ltac:(pose proof ref_bound; lia)). pose proof fan_next as Hfan.
  pose proof (sc_role _ Hst fan_token ref fan_role) as Hone. pose proof (st_numbered _ _ _ Hstr) as Hnum.
  pose proof (st_seq _ _ _ Hstr) as Hseq.
  pose proof (tokens_mid (fan_token ref) l1 i rest l2) as Hmid. cbn [cf_threads] in *.
  assert (forall e, x' = e -> sf_pushed e = sf_pushed x -> sf_seq e = sf_seq x ->
    numbered ref x' /\ ((0 < tokens (fan_token ref) (l1 ++ (next ++ rest) :: l2 ++ started))%nat ->
      sf_seq x' = Z.of_nat (length (sf_pushed x')) mod two64)) as Hsame.
  { intros e -> P S. unfold numbered. rewrite P, S. split; [done|]. intros Hp. apply Hseq. lia. }
  destruct this_change as [(_ & P & _ & _ & S & _) _ _ _ _ _|key data Hi ev Hxx Hn _|key data Hi Hxx Hn _|
    ? ? ? ? _ _ Hxx _ _|? ? ? _ _ _ Hxx _|? ? ? _ Hxx _ _|? ? ? _ _ Hxx _|? _ _ Hxx _ _|? _ _ _ Hxx _ _|
    ? _ _ Hxx _ _ _|? _ _ _ Hxx _ _|? _ _ _ Hxx _|? _ _ _ Hxx _ _]; try (by apply (Hsame _ Hxx)).
  - by apply (Hsame x').
  - assert (fan_token ref i = 1%nat) as Ht by (rewrite Hi; simpl; by rewrite decide_True).
    specialize (Hseq ltac:(lia)). rewrite Hxx. simpl. split.
    + intros n ev'. simpl. intros [Hl | [Hge Hl]]%lookup_app_Some; [by apply Hnum|].
      apply list_lookup_singleton_Some in Hl as [Hz <-]. simpl. split; [|done]. rewrite Hseq. do 2 f_equal. lia.
    + intros _. rewrite length_app. simpl. rewrite Hseq. unfold two64. rewrite Zplus_mod_idemp_l. f_equal. lia.
  - assert (fan_token ref i = 1%nat) as Ht by (rewrite Hi; simpl; by rewrite decide_True).
    assert (started = []) as Hs by (pose proof He as He'; rewrite Hi in He'; by inversion He').
    rewrite Hxx. split; [done|]. rewrite Hn, Hs in Hfan. rewrite Hs. simpl in *. change (tokens _ []) with 0%nat in Hfan.
    rewrite Hn. simpl. lia.
Qed.

Lemma new_step : stream c ref x -> (0 < tokens (insert_token ref) (cf_threads c'))%nat -> sf_sent x' = [].
Proof.
  intros Hstr Hpos. assert (0 < tokens (insert_token ref) (cf_threads c))%nat as Hpos'.
  { pose proof insert_tokens_next. destruct (decide (tokens (insert_token ref) (cf_threads c) = 0%nat)); [|lia].
    rewrite insert_tokens_next in Hpos by done. lia. }
  pose proof (st_new _ _ _ Hstr Hpos') as Hnil.
  destruct this_change as [(_ & _ & S & _) _ _ _ _ _|? ? _ ? Hxx _ _|? ? _ Hxx _ _|
    ? ? ? ? _ _ Hxx _ _|? ? ? _ _ _ Hxx _|? ? ? Hi Hxx _ _|? ? ? _ _ Hxx _|? _ _ Hxx _ _|? _ _ _ Hxx _ _|
    ? _ _ Hxx _ _ _|? _ _ _ Hxx _ _|? _ _ _ Hxx _|? _ _ _ Hxx _ _]; try (by rewrite Hxx); [by rewrite S|].
  pose proof (tokens_lt (insert_token ref) (fwd_token ref) (cf_threads c) (i :: rest) i (insert_fwd ref) this_thread
    ltac:(set_solver)) as Hlt.
  rewrite Hi in Hlt at 1 2. simpl in Hlt. rewrite decide_True in Hlt by done. specialize (Hlt ltac:(lia)).
  pose proof (sc_role _ Hst fwd_token ref fwd_role). simpl in *. lia.
Qed.

Lemma stream_step : stream c ref x -> stream c' ref x'.
Proof.
  intros Hstr. destruct (numbers_step Hstr) as [Hnum Hseq].
  split; [done|done|by apply new_step|apply forwarding_step, Hstr|by apply delivering_step].
Qed.

End Step.

(** ** All steps *)

(** Nobody holds a chunk of a subscription that does not exist yet. *)
Lemma unborn r ts ref : Forall (Forall (agrees r)) ts -> tables r -> (length (tr_heap r) <= ref)%nat ->
  all (flight ref) ts = [] /\ all (desk ref) ts = [] /\ waiting ref (tr_lane r) = [].
Proof.
  intros Hag Htb Hge.
  assert (forall ev, event_ok r ev -> bs_ref ev <> ref) as Hold.
  { intros ev (x & Hx%lookup_lt_Some & _) <-. lia. }
  split_and!.
  - apply (all_zero _ (fwd_token ref)); [apply flight_fwd|]. by apply (agrees_bound r _ fwd_token ref fwd_role).
  - induction Hag as [|t ts Ht _ IH]; [done|]. change ((t ≫= desk ref) ++ all (desk ref) ts = []).
    rewrite IH, app_nil_r. clear IH. induction Ht as [|j t Hj _ IHt]; [done|].
    change (desk ref j ++ (t ≫= desk ref) = []). rewrite IHt, app_nil_r.
    destruct j; try done; simpl; rewrite decide_False; try done; by apply Hold, (ag_event _ _ Hj).
  - pose proof (tb_lane _ Htb) as Hl. unfold lane_ok in Hl. unfold waiting.
    induction (tr_lane r) as [|e lane IH]; [done|]. simpl. destruct e as [ev|]; [|apply IH; set_solver].
    rewrite decide_False by (apply Hold, Hl; set_solver). apply IH. set_solver.
Qed.

Lemma stream_born r i r' next started l1 rest l2 key frameID cols rows id :
  structured (mkConfig r (l1 ++ (i :: rest) :: l2)) -> exec r i r' next started ->
  i = Acquire key frameID cols rows -> next = [Insert key (length (tr_heap r))] -> started = [] ->
  tr_lane r' = tr_lane r ->
  stream (mkConfig r' (l1 ++ (next ++ rest) :: l2 ++ started)) (length (tr_heap r)) (new_sub key frameID cols rows id).
Proof.
  intros Hst He Hi Hn Hs Hl. destruct (unborn r _ (length (tr_heap r)) (sc_agree _ Hst) (sc_tables _ Hst)) as (F & D & W);
    [simpl; lia|]. simpl in F, D, W. rewrite all_step in F, D.
  apply app_eq_nil in F as [F1 [F2 [F3 F4]%app_eq_nil]%app_eq_nil].
  apply app_eq_nil in D as [D1 [D2 [D3 D4]%app_eq_nil]%app_eq_nil].
  split; simpl; [by intros n ev|done|done| |].
  - left. simpl. rewrite all_next, F1, F3, F4, Hn, Hs. done.
  - intros _. left. simpl. rewrite all_next, D1, D3, D4, Hn, Hs, Hl, W. done.
Qed.

Lemma streams_exec r i r' next started l1 rest l2 :
  structured (mkConfig r (l1 ++ (i :: rest) :: l2)) -> streams (mkConfig r (l1 ++ (i :: rest) :: l2)) ->
  exec r i r' next started -> streams (mkConfig r' (l1 ++ (next ++ rest) :: l2 ++ started)).
Proof.
  intros Hst Hs He ref x' Hx'. simpl in Hx'. destruct (decide (ref < length (tr_heap r))%nat) as [Hlt|Hge].
  - destruct (lookup_lt_is_Some_2 _ _ Hlt) as [x Hx]. eapply stream_step; [done|done|exact Hx|done|]. by apply Hs.
  - pose proof (lookup_lt_Some _ _ _ Hx').
    destruct (exec_new _ _ _ _ _ He) as [Heq | (Heq & _ & H1 & key & frameID & cols & rows & id & H2 & H3 & H4)]; [lia|].
    assert (ref = length (tr_heap r)) as -> by lia. rewrite H4 in Hx'. injection Hx' as <-.
    eapply stream_born; [done|done|exact H3|exact H2|exact H1|]. subst i. by inversion He.
Qed.

(** Steps that leave the relay's tables and the goroutines as they are. *)
Lemma stream_outbox r r' ts ref x : stream (mkConfig r ts) ref x ->
  tr_subs r' = tr_subs r -> tr_lane r' = tr_lane r ->
  (tr_outbox r !! key_conn (sf_key x) = None -> tr_outbox r' !! key_conn (sf_key x) = None) ->
  stream (mkConfig r' ts) ref x.
Proof.
  intros [Hn Hq Hz Hf Hd] Hs Hl Ho. split; [done..| |].
  - destruct Hf as [?|(? & ? & [[? ?]|?])]; [by left|right..]; split_and!; try done; [left|by right].
    split; simpl; [by rewrite Hs|done].
  - intros Hsess. destruct (Hd Hsess) as [Hok|[Hp [[[Hi1 Hi2] Hq']|[Hc|Hh]]]].
    + left. simpl in *. by rewrite Hl.
    + right. split; [done|]. left. split; [|done]. split; simpl in *; [by rewrite Hs|done].
    + right. split; [done|]. right. left. by apply Ho.
    + right. split; [done|]. right. right. done.
Qed.

Lemma call_quiet i ref : is_call i = true ->
  flight ref i = [] /\ desk ref i = [] /\ insert_token ref i = 0%nat /\ fan_token ref i = 0%nat.
Proof. by destruct i. Qed.

Lemma stream_call r ts i ref x : is_call i = true -> loop_shape ts -> stream (mkConfig r ts) ref x ->
  stream (mkConfig r (ts ++ [[i]])) ref x.
Proof.
  intros Hi Hloop [Hn Hq Hz Hf Hd]. destruct (call_quiet i ref Hi) as (F & D & I & G). simpl in *.
  assert (forall f, f i = [] -> all f (ts ++ [[i]]) = all f ts) as Hall.
  { intros f H0. rewrite all_concat. unfold all at 2. simpl. by rewrite H0, app_nil_r. }
  assert (forall g, g i = 0%nat -> tokens g (ts ++ [[i]]) = tokens g ts) as Htok.
  { intros g H0. rewrite tokens_app. unfold tokens at 2. simpl. lia. }
  assert (inactive (mkConfig r ts) ref -> inactive (mkConfig r (ts ++ [[i]])) ref) as Hin.
  { intros [H1 H2]. split; simpl in *; [done|]. by rewrite Htok. }
  split; simpl; [done| | | |].
  - by rewrite Htok.
  - by rewrite Htok.
  - unfold forwarding in *. simpl in *. rewrite Hall by done.
    destruct Hf as [?|(? & Hno & Hend)]; [by left|right]. split_and!; [done| |].
    + intros t key b ev [Ht|Ht%list_elem_of_singleton]%elem_of_app Hin'; [by apply (Hno t key b ev)|].
      subst t. apply list_elem_of_singleton in Hin'. by subst i.
    + destruct Hend as [?|(key & b & rest & ?)]; [by left; apply Hin|right]. exists key, b, rest. set_solver.
  - intros Hs. specialize (Hd Hs). unfold delivering in *. simpl in *. rewrite Hall, Htok by done.
    destruct Hd as [?|[? [[? Hno]|[?|[? (rest & others & ->)]]]]]; [by left|right..]; (split; [done|]).
    + left. split; [by apply Hin|]. intros t ev [Ht|Ht%list_elem_of_singleton]%elem_of_app Hr Hin';
        [by apply (Hno t ev)|]. subst t. apply list_elem_of_singleton in Hin'. by subst i.
    + by right; left.
    + right. right. split; [done|]. by eexists _, _.
Qed.

Lemma streams_step c c' : structured c -> streams c -> step c c' -> streams c'.
Proof.
  intros Hst Hs Hstep. destruct Hstep as [r r' l1 i rest l2 next started _ He|r ts i Hi|r ts connID ev rest Hl|
    r ts connID|r ts connID Hn Hf].
  - by eapply streams_exec.
  - intros ref x Hx. apply stream_call; [done|apply Hst|by apply Hs].
  - intros ref x Hx. apply (stream_outbox r); [by apply Hs|done..|]. simpl. intros Hnone.
    rewrite lookup_insert_ne; [done|congruence].
  - intros ref x Hx. apply (stream_outbox r); [by apply Hs|done..|]. simpl. intros Hnone.
    rewrite lookup_delete_None. by right.
  - intros ref x Hx. apply (stream_outbox r); [by apply Hs|done..|]. simpl. intros Hnone.
    rewrite Forall_lookup in Hf. rewrite lookup_insert_ne; [done|]. by apply not_eq_sym, (Hf ref).
Qed.

Lemma reachable_streams c : reachable c -> structured c /\ streams c.
Proof.
  intros Hr. unfold reachable in Hr. remember initial as c0 eqn:H0.
  assert (structured c0 /\ streams c0) as Hi by (subst; split; [apply structured_initial|done]).
  clear H0. induction Hr as [|c1 c2 c3 Hs _ IH]; [done|]. apply IH. destruct Hi as [H1 H2].
  split; [by eapply structured_step|by eapply streams_step].
Qed.

(** C5: Whatever the interleaving, what a connection gets of a subscription is a prefix
    of what was passed to the loop, which is a prefix of what the terminal put out, in
    order: chunk n carries the sequence number n.  A chunk is never left out: where one
    cannot be passed on, none of the same subscription follows. *)
Theorem relay_stream_gapless c ref x :
  reachable c -> tr_heap (cf_relay c) !! ref = Some x -> key_session (sf_key x) <> "" ->
  sf_delivered x `prefix_of` sf_sent x /\ sf_sent x `prefix_of` sf_pushed x /\
  forall n ev, sf_pushed x !! n = Some ev -> bs_Sequence ev = Z.of_nat n mod two64.
Proof.
  intros [Hst Hs]%reachable_streams Hx Hsess. specialize (Hs ref x Hx). split_and!.
  - destruct (st_deliver _ _ _ Hs Hsess) as [<- | [? _]]; [by apply prefix_app_r|done].
  - destruct (st_forward _ _ _ Hs) as [<- | (? & _)]; [by apply prefix_app_r|done].
  - intros n ev Hev. by apply (st_numbered _ _ _ Hs).
Qed.

End Gapless.
