(* ===== verification/RuntimeRelayRun.v ===== *)
(** * host/runtime: running the relay

    The steps of the relay as a function: a move names the goroutine and, where the step
    relation leaves a choice, the choice.  Then, on the capacities of the program, runs
    that deliver output, that lose the end of a terminal's output, and that leave the
    event loop waiting for itself. *)

From Stdlib Require Import String.
From S2P Require Import Prelude GoStd HostState RuntimeRelay RuntimeRelaySafety RuntimeRelayOrder RuntimeRelayStream.
From S2P Require Import RuntimeRelayGapless.

(** What the backend answers, which case a select takes, what the loop does next. *)
Inductive Choice :=
| Go | Fails | Gives (id : Z) | Cancelled | Ends | Outputs (data : string) | Calls (calls : list Instr) | Exits.

Inductive Move := Run (n : nat) (ch : Choice) | Invoke (i : Instr) | Open (connID : ConnID) | Shut (connID : ConnID).

Section Run.
Context `{GoMapRange} {CAP : Capacities}.
Implicit Types (r : Relay) (i : Instr).

#[export] Instance fresh_surface_dec r frameID id : Decision (fresh_surface r frameID id).
Proof. unfold fresh_surface. apply _. Defined.

Definition perform_loop r (ch : Choice) : option (Relay * Thread * list Thread) :=
  match ch with
  | Go =>
    match tr_lane r with
    | InternalBroadcastSurface ev :: rest => Some (r <| tr_lane := rest |>, [LoopCheck ev; Loop], [])
    | _ => None
    end
  | Calls calls => if forallb is_call calls then Some (r, calls ++ [Loop], []) else None
  | Exits => Some (r, [Close; Finish], [])
  | _ => None
  end.

Definition perform r i (ch : Choice) : option (Relay * Thread * list Thread) :=
  match i, ch with
  | Subscribe key f c w, Go => Some (r, if hasOwnedSubscription r key then [] else [Acquire key f c w], [])
  | Acquire key f c w, Fails => Some (r, [], [])
  | Acquire key f c w, Gives id =>
    if decide (fresh_surface r f id) then
      Some (r <| tr_heap := tr_heap r ++ [new_sub key f c w id] |>, [Insert key (length (tr_heap r))], [])
    else None
  | Insert key ref, Go => Some (insert_section r key ref)
  | Rebind key f c w, Go => Some (rebind_section r key f c w, [])
  | Unsubscribe key, Go => Some (detach r key (fun ref => [Cancel ref; Release ref]), [])
  | Sever key, Go => Some (detach r key (fun ref => [Cancel ref; Release ref; send_closed r key ref]), [])
  | Cancel ref, Go => x ← tr_heap r !! ref; Some (cancel_section r ref x, [], [])
  | Release ref, Go =>
    x ← tr_heap r !! ref; Some (set_sub r ref (x <| sf_released := S (sf_released x) |>), [], [])
  | SendClosed key f id, Go =>
    if lane_room r then Some (r <| tr_lane := tr_lane r ++ [InternalSurfaceClosed key f id] |>, [], []) else None
  | Close, Go => Some (r, (fun kv => Unsubscribe kv.1) <$> range (tr_subs r), [])
  | Forward key ref b, Cancelled => x ← tr_heap r !! ref; if sf_cancel x then Some (r, [], []) else None
  | Forward key ref b, Go =>
    x ← tr_heap r !! ref;
    match sf_relay x with
    | ev :: rest => Some (set_sub r ref (x <| sf_relay := rest |>), [ForwardCheck key ref b ev], [])
    | [] => None
    end
  | ForwardCheck key ref b ev, Go => Some (r, if isActiveSub r key ref then [ForwardSend key ref b ev] else [], [])
  | ForwardSend key ref b ev, Go => x ← tr_heap r !! ref; Some (send_section r key ref x b ev, [])
  | ForwardRefused key ref b, Go =>
    Some (r, if bool_decide (severanceThreshold <= b)%nat then [Sever key] else [Forward key ref b], [])
  | FanOut key ref, Ends => Some (r, [FanOutGone key ref], [])
  | FanOut key ref, Outputs data => Some (r, [FanOutCheck key ref data], [])
  | FanOutGone key ref, Go => x ← tr_heap r !! ref; Some (gone_section r key ref x, [send_closed r key ref], [])
  | FanOutCheck key ref data, Go => Some (r, if isActiveSub r key ref then [FanOutPut key ref data] else [], [])
  | FanOutPut key ref data, Go => x ← tr_heap r !! ref; Some (put_section r key ref x data, [])
  | Loop, ch => perform_loop r ch
  | LoopCheck ev, Go =>
    Some (r, if isCurrentOwnedSubscription r (bs_key ev) (bs_FrameID ev) (bs_SubID ev) then [LoopQueue ev] else [], [])
  | LoopQueue ev, Go => Some (queue_section r ev, [])
  | Finish, Go => Some (r <| tr_done := true |>, [], [])
  | _, _ => None
  end.

Lemma perform_exec r i ch r' next started : perform r i ch = Some (r', next, started) -> exec r i r' next started.
Proof.
  intros Hp. destruct i, ch; simpl in Hp; try done; simplify_option_eq;
    try (by econstructor); try (by constructor).
  - pose proof (exec_insert r key ref) as He. by rewrite Hp in He.
  - pose proof (exec_rebind r key frameID cols rows) as He. by rewrite H0 in He.
  - pose proof (exec_unsubscribe r key) as He. by rewrite H0 in He.
  - pose proof (exec_sever r key) as He. by rewrite H0 in He.
  - destruct (lane_room r) eqn:Hl; [|done]. injection Hp as <- <- <-. by constructor.
  - destruct (sf_relay H0) as [|ev rest] eqn:Hr; [done|]. injection Hp as <- <- <-. by econstructor.
  - destruct (sf_cancel H0) eqn:Hc; [|done]. injection Hp as <- <- <-. by econstructor.
  - pose proof (exec_forward_send r key ref backlog ev H0 Heqo) as He. by rewrite H1 in He.
  - pose proof (exec_forward_refused r' key ref backlog) as He. by rewrite bool_decide_eq_true_2 in He.
  - pose proof (exec_forward_refused r' key ref backlog) as He. by rewrite bool_decide_eq_false_2 in He.
  - pose proof (exec_fanout_put r key ref data H0 Heqo) as He. by rewrite H1 in He.
  - destruct (tr_lane r) as [|[ev|] rest] eqn:Hl; try done. injection Hp as <- <- <-. by constructor.
  - destruct (forallb is_call calls) eqn:Hc; [|done]. injection Hp as <- <- <-. apply exec_loop_other.
    rewrite forallb_forall in Hc. apply Forall_forall. intros i Hi. by apply Hc, list_elem_of_In.
  - pose proof (exec_loop_queue r ev) as He. by rewrite H0 in He.
Qed.

(** A move of a configuration; [None] when it cannot be made. *)
Definition move (c : Config) (m : Move) : option Config :=
  let '(mkConfig r ts) := c in
  match m with
  | Run n ch =>
    t ← ts !! n;
    match t with
    | [] => None
    | i :: rest =>
      if tr_panicked r then None
      else '(r', next, started) ← perform r i ch;
           Some (mkConfig r' (<[n := next ++ rest]> ts ++ started))
    end
  | Invoke i => if is_call i then Some (mkConfig r (ts ++ [[i]])) else None
  | Open connID =>
    if decide (tr_outbox r !! connID = None /\ Forall (fun x => key_conn (sf_key x) <> connID) (tr_heap r))
    then Some (mkConfig (r <| tr_outbox := <[connID := []]> (tr_outbox r) |>) ts) else None
  | Shut connID => Some (mkConfig (r <| tr_outbox := delete connID (tr_outbox r) |>) ts)
  end.

Fixpoint moves (c : Config) (ms : list Move) : option Config :=
  match ms with [] => Some c | m :: ms => c' ← move c m; moves c' ms end.

Lemma move_step c m c' : move c m = Some c' -> step c c'.
Proof.
  destruct c as [r ts]. destruct m as [n ch|i|connID|connID]; simpl.
  - destruct (ts !! n) as [[|i rest]|] eqn:Hn; simpl; [done| |done]. destruct (tr_panicked r) eqn:Hp; [done|].
    destruct (perform r i ch) as [[[r' next] started]|] eqn:He; simpl; [|done]. intros [= <-].
    apply perform_exec in He. rewrite (insert_take_drop ts n) by (by apply lookup_lt_Some in Hn).
    rewrite <- (take_drop_middle ts n (i :: rest) Hn) at 1. rewrite <- (assoc_L (++)). simpl. by constructor.
  - destruct (is_call i) eqn:Hi; [|done]. intros [= <-]. by constructor.
  - case_decide as Hf; [|done]. intros [= <-]. destruct Hf. by constructor.
  - intros [= <-]. constructor.
Qed.

Lemma moves_reachable ms c c' : moves c ms = Some c' -> rtc step c c'.
Proof.
  revert c. induction ms as [|m ms IH]; intros c; simpl; [by intros [= <-]|].
  destruct (move c m) as [c1|] eqn:Hm; [|done]. simpl. intros Hms. eapply rtc_l; [by eapply move_step|by apply IH].
Qed.

End Run.

(** ** A loop that waits for itself *)

Section Blocked.
Context `{GoMapRange} {CAP : Capacities}.
Implicit Types (r : Relay) (key : surfaceKey).

(** The event loop is in SeverOwned's send, and its own lane has no room. *)
Definition blocked (c : Config) : Prop :=
  lane_room (cf_relay c) = false /\ tr_done (cf_relay c) = false /\
  exists key frameID subID rest others, cf_threads c = (SendClosed key frameID subID :: rest) :: others.

Lemma exec_lane_free r i r' next started : exec r i r' next started -> loop_free i -> lane_room r = false ->
  tr_lane r' = tr_lane r /\ tr_done r' = tr_done r.
Proof.
  intros He Hi Hl. destruct He; try done.
  - unfold insert_section. by case_match.
  - unfold rebind_section. by repeat case_match.
  - unfold detach. by case_match.
  - unfold detach. by case_match.
  - unfold cancel_section. by case_match.
  - simplify_eq/=. congruence.
  - unfold send_section. by rewrite Hl.
  - unfold gone_section. by case_match.
  - unfold put_section. by case_match.
Qed.

Lemma blocked_step c c' : structured c -> blocked c -> step c c' ->
  blocked c' /\ head (cf_threads c') = head (cf_threads c).
Proof.
  intros Hst (Hl & Hd & key & f & id & rest & others & Hts) Hs.
  assert (Forall (Forall loop_free) others) as Hoth.
  { destruct (sc_loop _ Hst) as (pre & tail & others' & Heq & _ & Hoth & _). rewrite Hts in Heq. by injection Heq as _ ->. }
  destruct Hs as [r r' l1 i rest' l2 next started _ He|r ts i Hi|r ts connID ev rest' Ho|
    r ts connID|r ts connID Hn Hf]; simpl in *; subst;
    try (split; [|done]; split_and!; [done..|by repeat eexists]).
  destruct l1 as [|t l1]; simpl in *.
  - injection Hts as -> -> ->. inversion He; subst; congruence.
  - injection Hts as Ht Ho. subst others. apply Forall_app in Hoth as [_ Hoth]. apply Forall_cons in Hoth as [Hi _]. apply Forall_cons in Hi as [Hi _].
    destruct (exec_lane_free _ _ _ _ _ He Hi Hl) as [Hlane Hdone]. subst t.
    split; [|done]. split_and!; simpl; [|congruence|by repeat eexists]. unfold lane_room in *. by rewrite Hlane.
Qed.

(** C34: Once the event loop severs a subscription while its interactive lane is full, it
    waits for room in the lane that only it empties: whatever the other goroutines do, it
    never goes on. *)
Theorem relay_loop_deadlock c c' :
  reachable c -> blocked c -> rtc step c c' -> blocked c' /\ head (cf_threads c') = head (cf_threads c).
Proof.
  intros [Hst _]%reachable_streams Hb Hr. induction Hr as [|c1 c2 c3 Hs _ IH]; [done|].
  destruct (blocked_step _ _ Hst Hb Hs) as [Hb' Hh]. destruct IH as [Hb3 Hh3]; [by eapply structured_step|done|].
  split; [done|congruence].
Qed.

End Blocked.

(** ** Runs *)

Module RelayDemo.

#[local] Existing Instance canonical_range.
#[local] Existing Instance default_capacities.

Definition key : surfaceKey := (7, "s", "browser").

(** Connection 7 subscribes; goroutine 2 forwards and goroutine 3 takes the output. *)
Definition setup : list Move :=
  [Open 7; Invoke (Subscribe key "frame" 80 24); Run 1 Go; Run 1 (Gives 1); Run 1 Go].

Definition take_chunk (data : string) : list Move := [Run 3 (Outputs data); Run 3 Go; Run 3 Go].
Definition forward_chunk : list Move := [Run 2 Go; Run 2 Go; Run 2 Go].
Definition deliver_chunk : list Move := [Run 0 Go; Run 0 Go; Run 0 Go].

Definition run (ms : list Move) : Config := default initial (moves initial ms).

(** One chunk at the connection, one in the loop's lane, one in the relay channel. *)
Definition streaming : Config :=
  run (setup ++ (take_chunk "a" ++ forward_chunk ++ deliver_chunk) ++ (take_chunk "b" ++ forward_chunk) ++ take_chunk "c").

Definition the_sub (c : Config) : surfaceSub := default (new_sub key "" 0 0 0) (tr_heap (cf_relay c) !! 0%nat).

Lemma relay_never_panics_witness :
  tr_panicked (cf_relay streaming) = false /\ (sf_released (the_sub streaming) <= 1)%nat.
Proof.
  apply (relay_never_panics streaming 0 (the_sub streaming)); [|vm_compute; reflexivity].
  apply (moves_reachable (setup ++ (take_chunk "a" ++ forward_chunk ++ deliver_chunk)
    ++ (take_chunk "b" ++ forward_chunk) ++ take_chunk "c")). vm_compute. reflexivity.
Defined.

Lemma relay_stream_gapless_witness :
  sf_delivered (the_sub streaming) `prefix_of` sf_sent (the_sub streaming) /\
  (bs_Data <$> sf_pushed (the_sub streaming)) = ["a"; "b"; "c"].
Proof.
  destruct (relay_stream_gapless streaming 0 (the_sub streaming)) as (H1 & _ & _).
  - apply (moves_reachable (setup ++ (take_chunk "a" ++ forward_chunk ++ deliver_chunk)
      ++ (take_chunk "b" ++ forward_chunk) ++ take_chunk "c")). vm_compute. reflexivity.
  - vm_compute. reflexivity.
  - vm_compute. intros Heq. discriminate Heq.
  - split; [exact H1|vm_compute; reflexivity].
Defined.

(** The subscription is severed and its surface given back. *)
Definition unsubscribed : list Move := setup ++ [Invoke (Unsubscribe key); Run 4 Go; Run 4 Go; Run 4 Go].

Lemma relay_surfaces_accounted_witness :
  (exists k, tr_subs (cf_relay (run unsubscribed)) !! k = Some 0%nat) \/
  sf_released (the_sub (run unsubscribed)) = 1%nat \/ sf_gone (the_sub (run unsubscribed)) = true.
Proof.
  destruct (relay_surfaces_accounted (run unsubscribed) 0 (the_sub (run unsubscribed)))
    as [(k & Hk & _) | (_ & [[H1 _] | [_ H1]])].
  - apply (moves_reachable unsubscribed). vm_compute. reflexivity.
  - vm_compute. repeat constructor.
  - vm_compute. reflexivity.
  - left. exists k. exact Hk.
  - right. left. exact H1.
  - right. right. exact H1.
Defined.

(** A client that does not read: its lane is full after 32 chunks, the next one makes the
    loop sever, and meanwhile 16 more chunks fill the loop's own lane. *)
Definition deadlock : list Move :=
  setup ++ mjoin (replicate 32 (take_chunk "x" ++ forward_chunk ++ deliver_chunk))
    ++ take_chunk "x" ++ forward_chunk ++ deliver_chunk
    ++ mjoin (replicate 16 (take_chunk "x" ++ forward_chunk)) ++ [Run 0 Go; Run 0 Go; Run 0 Go].

Lemma relay_loop_deadlock_witness :
  blocked (run deadlock) /\ head (cf_threads (run deadlock)) = Some [SendClosed key "frame" 1; Loop].
Proof.
  assert (blocked (run deadlock)) as Hb.
  { split; [vm_compute; reflexivity|]. split; [vm_compute; reflexivity|].
    exists key, "frame", 1, [Loop], (tail (cf_threads (run deadlock))). vm_compute. reflexivity. }
  destruct (relay_loop_deadlock (run deadlock) (run deadlock)) as [H1 _].
  - apply (moves_reachable deadlock). vm_compute. reflexivity.
  - exact Hb.
  - reflexivity.
  - split; [exact H1|vm_compute; reflexivity].
Defined.

(** The terminal ends while a chunk of its output waits in the relay channel: the
    forwarder finds the subscription gone and drops it. *)
Example last_output_lost :
  let c := run (setup ++ take_chunk "bye" ++ [Run 3 Ends; Run 3 Go; Run 2 Go; Run 2 Go]) in
  (bs_Data <$> sf_pushed (the_sub c)) = ["bye"] /\ sf_sent (the_sub c) = [] /\
  cf_threads c !! 2%nat = Some [].
Proof. vm_compute. auto. Qed.

(** The terminal ends when the relay channel is empty: nobody closes the cancel channel,
    and the forwarder has nothing left to wait for. *)
Example forwarder_left_behind :
  let c := run (setup ++ [Run 3 Ends; Run 3 Go; Run 3 Go]) in
  cf_threads c = [[Loop]; []; [Forward key 0 0]; []] /\ tr_subs (cf_relay c) = ∅ /\
  sf_cancel (the_sub c) = false /\ sf_relay (the_sub c) = [].
Proof. vm_compute. auto. Qed.

End RelayDemo.
