(* ===== verification/GatewayCredentials.v ===== *)
(** * server/api: credentials that are used once

    ticket.go: the tickets a browser opens its web socket with.  repository_lease.go: the
    leases a clone broker gets a token for.  A method runs under the store's mutex, so a
    store is a state and a method a function on it.  The clock is read where the code reads
    it, and the random strings are draws handed in. *)

From Stdlib Require Import String.
From S2P Require Import Prelude HostState.

(** ** Serving requests one after the other *)

Section Serving.
Context {S R A : Type} (serve : S -> R -> S * A).

Fixpoint serve_all (s : S) (rs : list R) : S * list A :=
  match rs with
  | [] => (s, [])
  | r :: rs =>
    let '(s, a) := serve s r in
    let '(s, answers) := serve_all s rs in
    (s, a :: answers)
  end.

(** The moment an answer is given: the requests before it, and the state they leave. *)
Lemma serve_all_split s rs l1 a l2 :
  (serve_all s rs).2 = l1 ++ a :: l2 ->
  exists rs1 r rs2, rs = rs1 ++ r :: rs2 /\ (serve_all s rs1).2 = l1 /\
    let s1 := (serve_all s rs1).1 in
    (serve s1 r).2 = a /\ (serve_all (serve s1 r).1 rs2).2 = l2.
Proof.
  revert s rs. induction l1 as [|b l1 IH]; intros s rs Ha; destruct rs as [|r rs]; simpl in Ha; try done;
    destruct (serve s r) as [s1 a1] eqn:Hs; destruct (serve_all s1 rs) as [s2 answers] eqn:Hall;
    simplify_eq/=.
  - exists [], r, rs. simpl. rewrite Hs. simpl. by rewrite Hall.
  - destruct (IH s1 rs) as (rs1 & r' & rs2 & -> & H1 & H2); [by rewrite Hall|].
    exists (r :: rs1), r', rs2. split; [done|]. simpl. rewrite Hs. destruct (serve_all s1 rs1). simpl in *.
    by rewrite H1.
Qed.

(** A relation between the state and the answers so far that every request keeps. *)
Lemma serve_all_history (P : S -> list A -> Prop) s rs before :
  (forall s r before, P s before -> P (serve s r).1 (before ++ [(serve s r).2])) ->
  P s before -> P (serve_all s rs).1 (before ++ (serve_all s rs).2).
Proof.
  intros Hstep. revert s before. induction rs as [|r rs IH]; intros s before HP; simpl.
  - by rewrite app_nil_r.
  - pose proof (Hstep s r before HP) as H1. destruct (serve s r) as [s1 a]. specialize (IH s1 _ H1).
    destruct (serve_all s1 rs) as [s2 answers]. simpl in *. by rewrite <- (assoc_L (++)) in IH.
Qed.

End Serving.

(** ** Tickets (ticket.go) *)

Module Ticket.

Definition ticketTTL : Duration := 30 * Second.

Record ticketEntry := mkTicket { tk_expiry : Time; tk_clientInstanceID : string }.

(** ticketStore: its map. *)
Abbreviation ticketStore := (gmap string ticketEntry).

Definition newTicketStore : ticketStore := ∅.

Definition evictExpiredLocked (m : ticketStore) (now : Time) : ticketStore :=
  base.filter (fun kv => now < tk_expiry kv.2) m.

(** [tok] and [ci] are the draws of randomOpaque24; the clock is read for the eviction and
    again for the expiry. *)
Definition mint (m : ticketStore) (tok ci : string) (now1 now2 : Time) : ticketStore :=
  <[tok := mkTicket (now2 + ticketTTL) ci]> (evictExpiredLocked m now1).

Definition consume (m : ticketStore) (tok : string) (now : Time) : ticketStore * option string :=
  if bool_decide (tok = "") then (m, None)
  else match m !! tok with
       | None => (m, None)
       | Some entry =>
         let m := delete tok m in
         if now <? tk_expiry entry then (m, Some (tk_clientInstanceID entry)) else (m, None)
       end.

(** Requests on the store, and what they tell. *)
Inductive Request := Mint (tok ci : string) (now1 now2 : Time) | Consume (tok : string) (now : Time).

Inductive Answer := Minted (tok ci : string) (at_ : Time) | Opened (tok ci : string) (at_ : Time) | Refused.

Definition serve (m : ticketStore) (r : Request) : ticketStore * Answer :=
  match r with
  | Mint tok ci now1 now2 => (mint m tok ci now1 now2, Minted tok ci now2)
  | Consume tok now =>
    match consume m tok now with
    | (m, Some ci) => (m, Opened tok ci now)
    | (m, None) => (m, Refused)
    end
  end.


(** *** A ticket admits once *)

Implicit Types (m : ticketStore).

(** What the answers so far say of the tickets in the store. *)
Definition vouched m (answers : list Answer) : Prop :=
  forall tok entry, m !! tok = Some entry ->
  exists t, Minted tok (tk_clientInstanceID entry) t ∈ answers /\ tk_expiry entry = t + ticketTTL.

Lemma serve_vouched m r before : vouched m before ->
  vouched (serve m r).1 (before ++ [(serve m r).2]).
Proof.
  intros Hv tok entry. destruct r as [tok' ci now1 now2|tok' now]; simpl.
  - unfold mint. intros [[<- <-]|[Hne [Hm _]%map_lookup_filter_Some]]%lookup_insert_Some.
    + exists now2. split; [apply elem_of_app; right; by left|done].
    + destruct (Hv _ _ Hm) as (t & Hin & He). exists t. split; [by apply elem_of_app; left|done].
  - unfold consume. case_bool_decide; [|destruct (m !! tok') as [e|]; [destruct (now <? _)|]]; simpl;
      intros Hm; try apply lookup_delete_Some in Hm as [_ Hm];
      destruct (Hv _ _ Hm) as (t & Hin & He); (exists t; split; [by apply elem_of_app; left|done]).
Qed.

(** A ticket that is not in the store is not admitted before it is minted again. *)
Lemma absent_refused m rs tok :
  m !! tok = None -> (forall ci t, Minted tok ci t ∉ (serve_all serve m rs).2) ->
  forall ci t, Opened tok ci t ∉ (serve_all serve m rs).2.
Proof.
  revert m. induction rs as [|r rs IH]; intros m Hm Hnew ci t; simpl; [apply not_elem_of_nil|].
  simpl in Hnew. destruct (serve m r) as [m1 a] eqn:Hs. destruct (serve_all serve m1 rs) as [m2 answers] eqn:Ha.
  cbn [snd] in *. assert (m1 !! tok = None /\ a <> Opened tok ci t) as [Hm1 Hne].
  { destruct r as [tok' ci' now1 now2|tok' now]; simpl in Hs.
    - injection Hs as <- <-. split; [|done]. unfold mint. apply lookup_insert_None. split.
      + apply map_lookup_filter_None. by left.
      + intros ->. apply (Hnew ci' now2). by left.
    - unfold consume in Hs. case_bool_decide; [by simplify_eq|].
      destruct (m !! tok') as [e|] eqn:He; [|by simplify_eq].
      destruct (now <? _); simplify_eq; (split; [by apply lookup_delete_None; right|]); congruence. }
  rewrite not_elem_of_cons. split; [congruence|].
  specialize (IH m1 Hm1). rewrite Ha in IH. apply IH. intros ci' t' Hin. apply (Hnew ci' t'). by right.
Qed.

(** C21: A web-socket ticket admits once.  Whatever requests the store serves, a ticket
    that is admitted was minted before, with the client instance it is admitted as, less
    than 30 seconds ago; and it is not admitted again, unless the random source returns
    the same ticket once more. *)
Theorem ticket_admits_once rs l1 tok ci t l2 :
  (serve_all serve newTicketStore rs).2 = l1 ++ Opened tok ci t :: l2 ->
  (exists t0, Minted tok ci t0 ∈ l1 /\ t < t0 + ticketTTL) /\
  ((forall ci' t', Minted tok ci' t' ∉ l2) -> forall ci' t', Opened tok ci' t' ∉ l2).
Proof.
  intros (rs1 & r & rs2 & -> & Hl1 & Ha & Hl2)%serve_all_split.
  pose proof (serve_all_history serve vouched newTicketStore rs1 [] serve_vouched) as Hv.
  specialize (Hv ltac:(done)). rewrite Hl1 in Hv. simpl in Hv.
  set (m := (serve_all serve newTicketStore rs1).1) in *. clearbody m.
  destruct r as [tok' ci0 now1 now2|tok' now]; simpl in Ha; [done|].
  destruct (consume m tok' now) as [m1 out] eqn:Hc. unfold consume in Hc.
  case_bool_decide; [by simplify_eq|]. destruct (m !! tok') as [e|] eqn:He; [|by simplify_eq].
  destruct (now <? tk_expiry e) eqn:Hlt; simplify_eq/=. split.
  - destruct (Hv _ _ He) as (t0 & Hin & Hexp). exists t0. split; [done|]. lia.
  - apply absent_refused. unfold consume. rewrite bool_decide_false, He by done. rewrite Hlt. simpl.
    apply lookup_delete_eq.
Qed.

End Ticket.


(** ** Leases (repository_lease.go) *)

Module Lease.

Definition leaseTTL : Duration := 60 * Second.
Definition maxLeasesPerHost : nat := 32.
Definition leaseUsername : string := "x-access-token".

Record leaseRecord := mkLease {
  le_ID : string; le_HostID : string; le_RepositoryID : string; le_Owner : string; le_Name : string;
  le_Token : string; le_TokenGeneration : string; le_ExpiresAt : Time; le_Consumed : bool; le_Revoked : bool }.

#[export] Instance eta_Lease : Eta leaseRecord := fun r =>
  mkLease (le_ID r) (le_HostID r) (le_RepositoryID r) (le_Owner r) (le_Name r) (le_Token r)
    (le_TokenGeneration r) (le_ExpiresAt r) (le_Consumed r) (le_Revoked r).

Record LeaseIssue := mkIssue { li_LeaseID : string; li_ExpiresAt : Time }.

Record ConsumedLease := mkConsumed {
  cl_LeaseID : string; cl_RepositoryID : string; cl_Owner : string; cl_Name : string;
  cl_Username : string; cl_Token : string }.

(** leaseStore: its map. *)
Abbreviation leaseStore := (gmap string leaseRecord).

Implicit Types (m : leaseStore) (rec : leaseRecord).

(** A record that leaves the map is not reachable any more, but for the one [Consume]
    holds: the erasure of its token shows there only. *)
Definition evictLocked m (now : Time) : leaseStore :=
  base.filter (fun kv => now < le_ExpiresAt kv.2) m.

Definition counts (hostID : string) rec : bool :=
  bool_decide (le_HostID rec = hostID) && negb (le_Consumed rec) && negb (le_Revoked rec).

Definition unconsumedLocked m (hostID : string) : nat :=
  size (base.filter (fun kv => counts hostID kv.2 = true) m).

Definition UnconsumedCount m (hostID : string) (now : Time) : leaseStore * nat :=
  let m := evictLocked m now in (m, unconsumedLocked m hostID).

(** [id] is the draw of randomLeaseID. *)
Definition Issue m (id hostID repositoryID owner name token generation : string) (now1 now2 : Time) :
    leaseStore * (string + LeaseIssue) :=
  if bool_decide (hostID = "") || bool_decide (repositoryID = "") || bool_decide (owner = "")
     || bool_decide (name = "") || bool_decide (token = "") then (m, inl "invalid_identity")
  else
    let m := evictLocked m now1 in
    if bool_decide (maxLeasesPerHost <= unconsumedLocked m hostID)%nat then (m, inl "lease_capacity_exceeded")
    else
      let exp := now2 + leaseTTL in
      (<[id := mkLease id hostID repositoryID owner name token generation exp false false]> m,
       inr (mkIssue id exp)).

(** The eviction before the acceptance reads the clock again, and can evict the record that
    is being accepted. *)
Definition Consume m (leaseID : string) (now1 now2 : Time) : leaseStore * (string + ConsumedLease) :=
  match m !! leaseID with
  | None => (evictLocked m now1, inl "lease_not_found")
  | Some rec =>
    if le_Revoked rec then (m, inl "lease_revoked")
    else if negb (now1 <? le_ExpiresAt rec) then (delete leaseID m, inl "lease_expired")
    else if le_Consumed rec then (m, inl "lease_replay")
    else
      let token := if now2 <? le_ExpiresAt rec then le_Token rec else "" in
      let m := alter (fun rec => rec <| le_Consumed := true |> <| le_Token := "" |>) leaseID
                 (evictLocked m now2) in
      (m, inr (mkConsumed (le_ID rec) (le_RepositoryID rec) (le_Owner rec) (le_Name rec) leaseUsername token))
  end.

Definition Revoke m (id : string) : leaseStore := delete id m.

Definition RevokeHost m (hostID : string) : leaseStore :=
  base.filter (fun kv => le_HostID kv.2 <> hostID) m.

Definition RevokeGeneration m (hostID generation : string) : leaseStore :=
  base.filter (fun kv => ~ (le_HostID kv.2 = hostID /\ le_TokenGeneration kv.2 <> generation)) m.

Definition Clear : leaseStore := ∅.

Inductive Request :=
| RIssue (id hostID repositoryID owner name token generation : string) (now1 now2 : Time)
| RConsume (leaseID : string) (now1 now2 : Time)
| RRevoke (id : string)
| RRevokeHost (hostID : string)
| RRevokeGeneration (hostID generation : string)
| RClear
| RCount (hostID : string) (now : Time).

Inductive Answer :=
| Leased (issue : LeaseIssue) (hostID repositoryID owner name token generation : string)
| Granted (lease : ConsumedLease) (at1 at2 : Time)
| Failed (code : string)
| Done.

Definition serve m (r : Request) : leaseStore * Answer :=
  match r with
  | RIssue id hostID repositoryID owner name token generation now1 now2 =>
    match Issue m id hostID repositoryID owner name token generation now1 now2 with
    | (m, inr issue) => (m, Leased issue hostID repositoryID owner name token generation)
    | (m, inl code) => (m, Failed code)
    end
  | RConsume leaseID now1 now2 =>
    match Consume m leaseID now1 now2 with
    | (m, inr lease) => (m, Granted lease now1 now2)
    | (m, inl code) => (m, Failed code)
    end
  | RRevoke id => (Revoke m id, Done)
  | RRevokeHost hostID => (RevokeHost m hostID, Done)
  | RRevokeGeneration hostID generation => (RevokeGeneration m hostID generation, Done)
  | RClear => (Clear, Done)
  | RCount hostID now => ((UnconsumedCount m hostID now).1, Done)
  end.


(** *** A lease is granted once *)

(** The lease was issued as the record says, and its token is in the store until it is
    handed out. *)
Definition issued_as rec (answers : list Answer) : Prop :=
  exists token, Leased (mkIssue (le_ID rec) (le_ExpiresAt rec)) (le_HostID rec) (le_RepositoryID rec)
    (le_Owner rec) (le_Name rec) token (le_TokenGeneration rec) ∈ answers /\
  le_Token rec = (if le_Consumed rec then "" else token).

Definition vouched m (answers : list Answer) : Prop :=
  map_Forall (fun id rec => le_ID rec = id /\ le_Revoked rec = false /\ issued_as rec answers) m.

Lemma issued_later rec answers a : issued_as rec answers -> issued_as rec (answers ++ [a]).
Proof. intros (token & Hin & Ht). exists token. split; [by apply elem_of_app; left|done]. Qed.

Lemma vouched_subset m m' answers a : m' ⊆ m -> vouched m answers -> vouched m' (answers ++ [a]).
Proof.
  intros Hsub Hv id rec Hm. destruct (Hv id rec) as (? & ? & ?); [by eapply lookup_weaken|].
  eauto using issued_later.
Qed.

Lemma evict_subset m now : evictLocked m now ⊆ m.
Proof. apply map_filter_subseteq. Qed.

Lemma lease_serve_vouched m r before : vouched m before -> vouched (serve m r).1 (before ++ [(serve m r).2]).
Proof.
  intros Hv. destruct r as [id h repo o n tok g now1 now2|id now1 now2|id|h|h g| |h now]; simpl;
    try (by eapply vouched_subset; [|exact Hv]; apply map_filter_subseteq).
  - unfold Issue. destruct (_ || _); simpl; [by eapply vouched_subset|].
    case_bool_decide; simpl; [eapply vouched_subset; [apply evict_subset|done]|].
    apply map_Forall_insert_2.
    + split; [done|]. split; [done|]. exists tok. split; [|done]. apply elem_of_app. right. by left.
    + eapply vouched_subset; [apply evict_subset|done].
  - unfold Consume. destruct (m !! id) as [rec|] eqn:Hm; simpl;
      [|eapply vouched_subset; [apply evict_subset|done]].
    destruct (le_Revoked rec); simpl; [by eapply vouched_subset|].
    destruct (negb _); simpl; [eapply vouched_subset; [apply delete_subseteq|done]|].
    destruct (le_Consumed rec) eqn:Hc; simpl; [by eapply vouched_subset|].
    intros id' rec' [[-> (rec0 & He & ->)]|[Hne He]]%lookup_alter_Some;
      (assert (m !! id' = Some _) as Hm' by (eapply lookup_weaken; [exact He|apply evict_subset]));
      destruct (Hv _ _ Hm') as (Hid & Hr & Hi); [|by eauto using issued_later].
    split; [done|]. split; [done|]. simplify_eq. destruct Hi as (token & Hin & _). exists token.
    split; [by apply elem_of_app; left|done].
  - eapply vouched_subset; [apply delete_subseteq|done].
  - apply map_Forall_empty.
Qed.

(** A lease that is not in the store, or was granted, is not granted before it is issued
    again. *)
Definition spent m (id : string) : Prop := forall rec, m !! id = Some rec -> le_Consumed rec = true.

Definition names_lease (id : string) (a : Answer) : bool :=
  match a with Leased issue _ _ _ _ _ _ => bool_decide (li_LeaseID issue = id) | _ => false end.

Definition grants_lease (id : string) (a : Answer) : bool :=
  match a with Granted lease _ _ => bool_decide (cl_LeaseID lease = id) | _ => false end.

Lemma spent_subset m m' id : m' ⊆ m -> spent m id -> spent m' id.
Proof. intros Hsub Hs rec Hm. apply Hs. by eapply lookup_weaken. Qed.

(** The store keeps its records under their ids. *)
Lemma serve_spent m r id before :
  vouched m before -> spent m id -> names_lease id (serve m r).2 = false ->
  spent (serve m r).1 id /\ grants_lease id (serve m r).2 = false.
Proof.
  intros Hv Hs. destruct r as [id' h repo o n tok g now1 now2|id' now1 now2|id'|h|h g| |h now]; simpl;
    try (by intros _; split; [eapply spent_subset; [|exact Hs]; apply map_filter_subseteq|]).
  - unfold Issue. destruct (_ || _); simpl; [done|].
    case_bool_decide; simpl; [split; [eapply spent_subset; [apply evict_subset|done]|done]|].
    intros Hn%bool_decide_eq_false. split; [|done]. intros rec. rewrite lookup_insert_ne by done.
    intros Hm. apply Hs. eapply lookup_weaken; [exact Hm|apply evict_subset].
  - unfold Consume. destruct (m !! id') as [rec|] eqn:Hm; simpl;
      [|intros _; split; [eapply spent_subset; [apply evict_subset|done]|done]].
    destruct (le_Revoked rec); simpl; [done|].
    destruct (negb _); simpl; [intros _; split; [eapply spent_subset; [apply delete_subseteq|done]|done]|].
    destruct (le_Consumed rec) eqn:Hc; simpl; [done|]. intros _. split.
    + intros rec' [[-> (rec0 & _ & ->)]|[_ He]]%lookup_alter_Some; [done|].
      apply Hs. eapply lookup_weaken; [exact He|apply evict_subset].
    + apply bool_decide_eq_false. destruct (Hv _ _ Hm) as (-> & _ & _). intros ->.
      apply Hs in Hm. congruence.
  - intros _. split; [|done]. eapply spent_subset; [apply delete_subseteq|done].
  - intros _. split; [|done]. intros rec Hm. unfold Clear in Hm. by rewrite lookup_empty in Hm.
Qed.

Lemma spent_not_granted m rs id before :
  vouched m before -> spent m id -> Forall (fun a => names_lease id a = false) (serve_all serve m rs).2 ->
  Forall (fun a => grants_lease id a = false) (serve_all serve m rs).2.
Proof.
  revert m before. induction rs as [|r rs IH]; intros m before Hv Hs; simpl; [done|].
  pose proof (lease_serve_vouched m r before Hv) as Hv1. pose proof (serve_spent m r id before Hv Hs) as Hs1.
  destruct (serve m r) as [m1 a]. specialize (IH m1). simpl in *. destruct (serve_all serve m1 rs) as [m2 answers].
  simpl in *. intros [Hn Hrest]%List.Forall_cons_iff. destruct (Hs1 Hn) as [Hsp Hg]. constructor; [done|].
  by apply (IH (before ++ [a])).
Qed.

(** *** Capacity *)

Lemma counted_subset m m' h : m' ⊆ m -> (unconsumedLocked m' h <= unconsumedLocked m h)%nat.
Proof. intros Hsub. apply map_subseteq_size. by apply map_filter_subseteq_mono. Qed.

Definition within_capacity m : Prop := forall h, (unconsumedLocked m h <= maxLeasesPerHost)%nat.

Lemma capacity_subset m m' : m' ⊆ m -> within_capacity m -> within_capacity m'.
Proof. intros Hsub Hc h. etrans; [by apply counted_subset|apply Hc]. Qed.

(** A record that counts for no host it did not count for before. *)
Lemma capacity_alter m id f : (forall h rec, counts h (f rec) = true -> counts h rec = true) ->
  within_capacity m -> within_capacity (alter f id m).
Proof.
  intros Hf Hc h. etrans; [|apply (Hc h)]. unfold unconsumedLocked.
  rewrite <- !size_dom. apply subseteq_size. intros id'. rewrite !elem_of_dom.
  intros [rec [[[-> (rec0 & Hm & ->)]|[_ Hm]]%lookup_alter_Some Hcnt]%map_lookup_filter_Some].
  - exists rec0. apply map_lookup_filter_Some. split; [done|]. by apply Hf.
  - exists rec. by apply map_lookup_filter_Some.
Qed.

Lemma serve_capacity m r : within_capacity m -> within_capacity (serve m r).1.
Proof.
  intros Hc. destruct r as [id h repo o n tok g now1 now2|id now1 now2|id|h|h g| |h now]; simpl;
    try (by eapply capacity_subset; [|exact Hc]; apply map_filter_subseteq).
  - unfold Issue. destruct (_ || _); simpl; [done|].
    assert (within_capacity (evictLocked m now1)) as Hc1 by (by eapply capacity_subset; [apply evict_subset|]).
    case_bool_decide as Hcap; simpl; [done|]. intros h'. unfold unconsumedLocked.
    rewrite map_filter_insert. case_decide as Hcnt.
    + simpl in Hcnt. unfold counts in Hcnt. simpl in Hcnt. rewrite !andb_true_r in Hcnt.
      apply bool_decide_eq_true in Hcnt as <-.
      rewrite map_size_insert. unfold unconsumedLocked in Hcap. destruct (_ !! id); simpl; lia.
    + etrans; [|apply (Hc1 h')]. unfold unconsumedLocked. apply map_subseteq_size, map_filter_subseteq_mono, delete_subseteq.
  - unfold Consume. destruct (m !! id) as [rec|]; simpl;
      [|by eapply capacity_subset; [apply evict_subset|]].
    destruct (le_Revoked rec); simpl; [done|].
    destruct (negb _); simpl; [by eapply capacity_subset; [apply delete_subseteq|]|].
    destruct (le_Consumed rec); simpl; [done|]. apply capacity_alter.
    + intros h rec'. unfold counts. simpl. by rewrite andb_false_r.
    + by eapply capacity_subset; [apply evict_subset|].
  - by eapply capacity_subset; [apply delete_subseteq|].
  - intros h. unfold unconsumedLocked, Clear. rewrite map_filter_empty, map_size_empty. lia.
Qed.

(** C20: A lease hands its token out once.  Whatever requests the store serves, what is
    granted was issued before, for that repository, and had not expired when it was looked
    up; it is not granted again, unless the random source returns the same id once more;
    and no host ever holds more than 32 leases that wait to be granted.  The token is the
    one that was issued, except when the lease expires between the two readings of the
    clock: then the grant succeeds with an empty token. *)
Theorem lease_granted_once rs l1 lease t1 t2 l2 :
  (serve_all serve Clear rs).2 = l1 ++ Granted lease t1 t2 :: l2 ->
  (exists issue host token generation,
     Leased issue host (cl_RepositoryID lease) (cl_Owner lease) (cl_Name lease) token generation ∈ l1 /\
     li_LeaseID issue = cl_LeaseID lease /\ t1 < li_ExpiresAt issue /\
     cl_Token lease = if t2 <? li_ExpiresAt issue then token else "") /\
  (Forall (fun a => names_lease (cl_LeaseID lease) a = false) l2 ->
   Forall (fun a => grants_lease (cl_LeaseID lease) a = false) l2) /\
  forall host, (unconsumedLocked (serve_all serve Clear rs).1 host <= maxLeasesPerHost)%nat.
Proof.
  intros Hall.
  assert (forall h, (unconsumedLocked (serve_all serve Clear rs).1 h <= maxLeasesPerHost)%nat) as Hcap.
  { apply (serve_all_history serve (fun m _ => within_capacity m) Clear rs []).
    - intros m r _. apply serve_capacity.
    - intros h. unfold unconsumedLocked, Clear. rewrite map_filter_empty, map_size_empty. lia. }
  apply serve_all_split in Hall as (rs1 & r & rs2 & -> & Hl1 & Ha & Hl2).
  pose proof (serve_all_history serve vouched Clear rs1 [] lease_serve_vouched) as Hv.
  specialize (Hv ltac:(apply map_Forall_empty)). rewrite Hl1 in Hv. simpl in Hv.
  set (m := (serve_all serve Clear rs1).1) in *. clearbody m.
  destruct r as [id h repo o n tok g now1 now2|id now1 now2|id|h|h g| |h now]; simpl in Ha; try done;
    [by destruct (Issue _ _ _ _ _ _ _ _ _ _) as [? [|]]|].
  pose proof (lease_serve_vouched m (RConsume id now1 now2) l1 Hv) as Hv1. simpl in Hl2, Hv1.
  unfold Consume in *. destruct (m !! id) as [rec|] eqn:Hm; [|done].
  destruct (Hv _ _ Hm) as (Hid & Hr & (token & Hin & Htok)). rewrite Hr in *.
  destruct (now1 <? le_ExpiresAt rec) eqn:Hlt; simpl in *; [|done].
  destruct (le_Consumed rec) eqn:Hc; [done|]. injection Ha as <- <- <-. simpl in *.
  split; [|split; [|done]].
  - eexists _, _, _, _. split; [exact Hin|]. split; [done|]. split; [simpl; lia|]. simpl. by rewrite Htok.
  - rewrite <- Hl2, Hid. eapply spent_not_granted; [exact Hv1|].
    intros rec' [[_ (rec0 & _ & ->)]|[? _]]%lookup_alter_Some; done.
Qed.

(** A revoked lease is not granted any more. *)
Lemma revoked_not_granted rs1 rs2 r id :
  r = RRevoke id \/ r = RClear \/
  (exists host, r = RRevokeHost host /\
     forall rec, (serve_all serve Clear rs1).1 !! id = Some rec -> le_HostID rec = host) ->
  let later := (serve_all serve (serve (serve_all serve Clear rs1).1 r).1 rs2).2 in
  Forall (fun a => names_lease id a = false) later -> Forall (fun a => grants_lease id a = false) later.
Proof.
  intros Hr later. pose proof (serve_all_history serve vouched Clear rs1 [] lease_serve_vouched) as Hv.
  specialize (Hv ltac:(apply map_Forall_empty)). eapply spent_not_granted; [by apply lease_serve_vouched|].
  intros rec. destruct Hr as [->|[->|(host & -> & Hh)]]; simpl.
  - unfold Revoke. by rewrite lookup_delete_eq.
  - unfold Clear. by rewrite lookup_empty.
  - intros [Hm Hne]%map_lookup_filter_Some. by destruct Hne; apply Hh.
Qed.

End Lease.

(** ** Runs of the stores *)

Module CredentialsDemo.

Definition minted : list Ticket.Request :=
  [Ticket.Mint "t1" "browser" 100 100; Ticket.Consume "t1" 200; Ticket.Consume "t1" 300].

Lemma ticket_admits_once_witness :
  (serve_all Ticket.serve Ticket.newTicketStore minted).2 =
    [Ticket.Minted "t1" "browser" 100; Ticket.Opened "t1" "browser" 200; Ticket.Refused] /\
  exists t0, Ticket.Minted "t1" "browser" t0 ∈ [Ticket.Minted "t1" "browser" 100] /\ 200 < t0 + Ticket.ticketTTL.
Proof.
  split; [by vm_compute|].
  exact (proj1 (Ticket.ticket_admits_once minted [Ticket.Minted "t1" "browser" 100] "t1" "browser" 200
    [Ticket.Refused] ltac:(by vm_compute))).
Defined.

(** The second request comes as the lease expires, between two readings of the clock. *)
Definition leased : list Lease.Request :=
  [Lease.RIssue "l1" "host" "repo" "owner" "name" "secret" "g" 0 0; Lease.RConsume "l1" 5 6;
   Lease.RConsume "l1" 7 7].

Lemma lease_granted_once_witness :
  exists lease a, (serve_all Lease.serve Lease.Clear leased).2 = [a; Lease.Granted lease 5 6; Lease.Failed "lease_replay"] /\
  Lease.cl_Token lease = "secret" /\
  (exists issue host token generation,
     Lease.Leased issue host (Lease.cl_RepositoryID lease) (Lease.cl_Owner lease) (Lease.cl_Name lease) token
       generation ∈ [a] /\ Lease.li_LeaseID issue = Lease.cl_LeaseID lease /\ 5 < Lease.li_ExpiresAt issue /\
     Lease.cl_Token lease = if 6 <? Lease.li_ExpiresAt issue then token else "").
Proof.
  eexists _, _. split; [vm_compute; reflexivity|]. split; [reflexivity|].
  refine (proj1 (Lease.lease_granted_once leased [_] _ 5 6 [Lease.Failed "lease_replay"] _)).
  vm_compute. reflexivity.
Defined.

(** A lease that expires while it is granted gives an empty token. *)
Example expiring_lease_grants_nothing :
  (fun out => match out with inr lease => Some (Lease.cl_Token lease) | inl _ => None end)
    (Lease.Consume (serve_all Lease.serve Lease.Clear (take 1 leased)).1 "l1" (59 * Second) (60 * Second)).2
  = Some "".
Proof. vm_compute. reflexivity. Qed.

End CredentialsDemo.
