(* ===== verification/GatewayWorkspace.v ===== *)
(** * server/api: the files of a session's workspace

    workspace_path.go, workspace.go, workspace_write.go and the error translation of mux.go:
    which file a request may reach, and what a write does to it.  net/http is at the edge:
    a request is the values the handler reads, a response its status and body, and the
    text of JSON and HTTP dates, content types and log lines are left out.  The file system
    and git answer through [Host]; the file a write replaces is state. *)

From Stdlib Require Import String.
From S2P Require Import Prelude GoStd GoStrings GoPath GoTime HostState.

(** ** The path guard (workspace_path.go) *)

(** What the operating system and the daemon answer.  [EvalSymlinks] is that of
    path/filepath; [hs_lookGit], [hs_lstat] and [hs_git] are exec.LookPath, os.Lstat and the
    run of git with its arguments ([None]: it failed). *)
Record FileInfo := mkInfo { fi_IsDir : bool; fi_Size : Z; fi_ModTime : Time }.

Record SessionInfo := mkSessionInfo { si_ID : string; si_FrameGeneration : Z; si_WorkspaceRoot : string }.

(** The errors of an RPC to the daemon. *)
Inductive RPCError :=
| DeadlineExceeded | Canceled | ErrDaemonUnavailable | ErrorBody (code message : string)
| UnexpectedResponse | OtherError (text : string).

Record Host := mkHost {
  hs_Health : bool; hs_Sessions : RPCError + list SessionInfo;
  hs_EvalSymlinks : string -> option string; hs_Stat : string -> option FileInfo;
  hs_ReadDir : string -> option (list (string * bool)); hs_ReadFile : string -> option string;
  hs_lookGit : bool; hs_lstat : string -> bool; hs_git : list string -> option string }.

Section Guard.
Variable h : Host.

Definition workspaceDescendant (root path : string) : bool :=
  match Rel root path with
  | None => false
  | Some rel => negb (bool_decide (rel = "..")) && negb (HasPrefix rel "../")
  end.

(** The loop over the segments. *)
Fixpoint join_segments (current : string) (segs : list string) : option string :=
  match segs with
  | [] => Some current
  | seg :: segs =>
    if bool_decide (seg = "") || bool_decide (seg = "..") then None
    else join_segments (Join [current; seg]) segs
  end.

(** [None] is ErrWorkspacePathNotFound. *)
Definition GuardWorkspacePath (root rel : string) : option string :=
  let root := Clean root in
  if bool_decide (root = "") then None
  else if IsAbs rel then None
  else
    let rel := Clean rel in
    let rel := if bool_decide (rel = ".") then "" else rel in
    if Contains rel ".." then None
    else
      current ← (if bool_decide (rel = "") then Some root else join_segments root (components rel));
      resolvedRoot ← hs_EvalSymlinks h root;
      resolved ← hs_EvalSymlinks h current;
      if workspaceDescendant resolvedRoot resolved then Some resolved else None.

End Guard.

(** ** Requests and responses *)

(** The path value [id], the query parameters ("" when absent), the header
    If-Unmodified-Since as http.ParseTime takes it ([Some None]: it does not parse), the
    Content-Length, and what reading the body gives. *)
Inductive BodyRead := BodyOK (data : string) | BodyTooLarge | BodyError.

Record Request := mkRequest {
  rq_id : string; rq_handle : string; rq_handle_session : string; rq_root : string; rq_path : string;
  rq_ifUnmodifiedSince : option (option Time); rq_ContentLength : Z; rq_body : BodyRead }.

Record workspaceTreeEntry := mkEntry { we_Name : string; we_Path : string; we_Type : string }.

Inductive Body :=
| GatewayError (reason detail : string)
| APIError (code message : string)
| InvalidHandle
| HandleStale (sessionID : string) (generation pinned : Z) (root : string)
| RootHandle (sessionID : string) (generation : Z) (root : string)
| TreeUnreachable
| Tree (path : string) (entries : list workspaceTreeEntry)
| File (path : string) (size : Z) (isBinary : bool) (content : string) (mtime : Time)
| Diff (outcome diff : string)
| OversizeBody
| PreconditionFailed (current : Time)
| AuditFailed
| Written (updated : Time) (path : string).

Record Response := mkResponse { rs_status : Z; rs_body : Body }.

Definition gatewayError (status : Z) (reason detail : string) : Response :=
  mkResponse status (GatewayError reason detail).

Definition gatewayAPIError (status : Z) (code message : string) : Response :=
  mkResponse status (APIError code message).

Definition protoCodeToHTTP (code : string) : Z * string :=
  if bool_decide (code = "not_found") then (404, "not_found")
  else if bool_decide (code = "invalid_argument") then (400, "invalid_argument")
  else if bool_decide (code = "unsupported") then (422, "unsupported")
  else if bool_decide (code = "already_exists") then (409, "already_exists")
  else if bool_decide (code = "session_stopped") then (410, "session_stopped")
  else if bool_decide (code = "frame-not-ready") then (503, "frame_not_ready")
  else if bool_decide (code = "resource_exhausted") then (503, "resource_exhausted")
  else if bool_decide (code = "internal") then (502, "daemon_internal")
  else if bool_decide (code = "unknown") then (502, "daemon_unknown")
  else if bool_decide (code = "resolved_by_other") then (409, "resolved_by_other")
  else (500, "unmapped_code").

Definition handleProtoError (err : RPCError) : Response :=
  match err with
  | DeadlineExceeded => gatewayError 504 "daemon_timeout" "daemon timeout"
  | Canceled => gatewayError 504 "client_cancelled" "client cancelled"
  | ErrDaemonUnavailable => gatewayError 503 "daemon_unavailable" "daemon unavailable"
  | ErrorBody code message => gatewayError (protoCodeToHTTP code).1 (protoCodeToHTTP code).2 message
  | UnexpectedResponse => gatewayError 502 "upstream_error" "upstream error: unexpected response type"
  | OtherError text => gatewayError 502 "upstream_error" ("upstream error: " +:+ text)
  end.

(** ** Sessions and handles (workspace.go) *)

(** The allowlist of transcript.go. *)
Definition session_char (c : ascii) : bool :=
  let b := byte_Z c in
  in_range 97 122 b || in_range 65 90 b || in_range 48 57 b || (b =? 95) || (b =? 45).

Definition sessionIDPattern (id : string) : bool :=
  negb (bool_decide (id = "")) && forallb session_char (list_ascii_of_string id).

Record workspaceSession := mkWorkspace { ws_sessionID : string; ws_frameGeneration : Z; ws_workspaceRoot : string }.

(** [inl None] is errSessionNotFound. *)
Definition resolveWorkspaceSession (h : Host) (id : string) : option RPCError + workspaceSession :=
  match hs_Sessions h with
  | inl err => inl (Some err)
  | inr sessions =>
    match List.find (fun si => bool_decide (si_ID si = id)) sessions with
    | Some si =>
      if bool_decide (si_WorkspaceRoot si = "") then inl None
      else inr (mkWorkspace (si_ID si) (si_FrameGeneration si) (si_WorkspaceRoot si))
    | None => inl None
    end
  end.

Definition writeWorkspaceResolveError (err : option RPCError) : Response :=
  match err with
  | None => gatewayError 404 "session_not_found" "session not found"
  | Some err => handleProtoError err
  end.

(** [None]: the handle is valid, or there is none. *)
Definition validateWorkspaceHandle (r : Request) (info : workspaceSession) : option Response :=
  if bool_decide (rq_handle r = "") then None
  else if bool_decide (rq_handle_session r = "") || negb (bool_decide (rq_handle_session r = rq_id r))
          || negb (bool_decide (rq_handle_session r = ws_sessionID info))
  then Some (mkResponse 400 InvalidHandle)
  else if bool_decide (rq_root r = "") || negb (bool_decide (rq_root r = ws_workspaceRoot info))
  then Some (mkResponse 400 InvalidHandle)
  else match Atoi (rq_handle r) with
       | None => Some (gatewayError 400 "invalid_handle" "invalid handle")
       | Some pinned =>
         if pinned =? ws_frameGeneration info then None
         else Some (mkResponse 409 (HandleStale (ws_sessionID info) (ws_frameGeneration info) pinned (rq_root r)))
       end.

(** ** Reading *)

(** A call to the file system or to git. *)
Inductive Access :=
| Stat (path : string) | Lstat (path : string) | ReadDir (path : string) | ReadFile (path : string)
| Git (args : list string)
| CreateTemp (dir : string) | WriteTemp (path : string) | Rename (from to : string) | Remove (path : string)
| WriteFile (path : string).

(** What a handler calls, in order, and what it answers. *)
Abbreviation Handling := (list Access * Response)%type.

Definition answer (r : Response) : Handling := ([], r).
Definition call (a : Access) (k : Handling) : Handling := (a :: k.1, k.2).

Section Handlers.
Variable h : Host.
Implicit Types (r : Request).

(** The beginning the handlers share. *)
Definition for_session r (k : workspaceSession -> Handling) : Handling :=
  if negb (sessionIDPattern (rq_id r)) then answer (gatewayError 400 "invalid_session_id" "invalid session id")
  else if negb (hs_Health h) then answer (gatewayError 503 "daemon_unavailable" "daemon unavailable")
  else match resolveWorkspaceSession h (rq_id r) with
       | inl err => answer (writeWorkspaceResolveError err)
       | inr info => k info
       end.

Definition with_handle r (k : workspaceSession -> Handling) : Handling :=
  for_session r (fun info =>
    match validateWorkspaceHandle r info with
    | Some resp => answer resp
    | None => k info
    end).

Definition path_not_found : Response := gatewayError 404 "workspace_path_not_found" "path not found".

Definition serveWorkspaceRootHandle r : Handling :=
  for_session r (fun info =>
    answer (mkResponse 200 (RootHandle (ws_sessionID info) (ws_frameGeneration info) (ws_workspaceRoot info)))).

Definition tree_entry (rel : string) (ent : string * bool) : workspaceTreeEntry :=
  let prefix := if bool_decide (rel = "") then rel else rel +:+ "/" in
  mkEntry ent.1 (prefix +:+ ent.1) (if ent.2 then "dir" else "file").

Definition serveWorkspaceTree r : Handling :=
  with_handle r (fun info =>
    let root := ws_workspaceRoot info in
    call (Stat root) match hs_Stat h root with
    | None => answer (mkResponse 200 TreeUnreachable)
    | Some _ =>
      match GuardWorkspacePath h root (rq_path r) with
      | None => answer path_not_found
      | Some resolved =>
        call (ReadDir resolved) match hs_ReadDir h resolved with
        | None => answer path_not_found
        | Some entries => answer (mkResponse 200 (Tree (rq_path r) (tree_entry (rq_path r) <$> entries)))
        end
      end
    end).

(** utf8.Valid: every sequence decodes; U+FFFD stands for an invalid byte unless it is
    encoded there, in three bytes. *)
Fixpoint utf8_valid (fuel : nat) (l : list Z) : bool :=
  match fuel, l with
  | S fuel, b0 :: rest =>
    let '(r, rest') := decode_rune b0 rest in
    if (r =? RuneError) && negb (bool_decide (take 3 (b0 :: rest) = [239; 191; 189])) then false
    else utf8_valid fuel rest'
  | _, _ => true
  end.

Definition isUTF8Text (data : list Z) : bool := utf8_valid (length data) data.

Definition sniff_size : nat := Z.to_nat 8000.

Definition workspaceSniffBinary (data : string) : bool :=
  let sample := take sniff_size (bytes_of data) in
  existsb (Z.eqb 0) sample || negb (isUTF8Text sample).

Definition serveWorkspaceFile r : Handling :=
  with_handle r (fun info =>
    if bool_decide (rq_path r = "") then answer (gatewayError 400 "path_required" "path required")
    else match GuardWorkspacePath h (ws_workspaceRoot info) (rq_path r) with
    | None => answer path_not_found
    | Some resolved =>
      call (Stat resolved) match hs_Stat h resolved with
      | None => answer path_not_found
      | Some fi =>
        if fi_IsDir fi then answer path_not_found
        else call (ReadFile resolved) match hs_ReadFile h resolved with
        | None => answer path_not_found
        | Some data =>
          let binary := workspaceSniffBinary data in
          answer (mkResponse 200 (File (rq_path r) (fi_Size fi) binary (if binary then "" else data) (fi_ModTime fi)))
        end
      end
    end).

(** *** The diff (workspace.go, platform/lib/git/git.go) *)

Definition git_metadata (dir : string) : string := Join [Clean dir; ".git"].

Definition DiffHeadVsWorktree (repoRoot relPath : string) (k : string -> string -> Response) : Handling :=
  if negb (hs_lookGit h) then answer (k "git_binary_missing" "")
  else
    let root := Clean repoRoot in
    call (Lstat (git_metadata root))
    (if negb (hs_lstat h (git_metadata root)) then answer (k "not_a_repo" "")
     else
       let args := ["-C"; root; "diff"; "HEAD"; "--"] ++ (if bool_decide (relPath = "") then [] else [relPath]) in
       call (Git args) match hs_git h args with
       | Some out => answer (k "ok" out)
       | None =>
         call (Lstat (git_metadata root))
         (if hs_lstat h (git_metadata root) then answer (k "git_metadata_corrupted" "") else answer (k "not_a_repo" ""))
       end).

Definition serveWorkspaceDiff r : Handling :=
  with_handle r (fun info =>
    let root := ws_workspaceRoot info in
    if negb (bool_decide (rq_path r = "")) && bool_decide (GuardWorkspacePath h root (rq_path r) = None)
    then answer path_not_found
    else DiffHeadVsWorktree root (rq_path r) (fun outcome diff => mkResponse 200 (Diff outcome diff))).

End Handlers.

(** ** Writing (workspace_write.go) *)

Definition workspaceWriteBodyCap : Z := 2 ^ 20.

Record WFile := mkWFile { wf_content : string; wf_mode : Z; wf_mtime : Time }.
Inductive Node := NDir (info : FileInfo) | NFile (f : WFile).
Abbreviation FS := (gmap string Node).

Definition node_info (n : Node) : FileInfo :=
  match n with
  | NDir info => info
  | NFile f => mkInfo false (Z.of_nat (String.length (wf_content f))) (wf_mtime f)
  end.

Inductive atomicWriteOutcome := atomicWriteFailure | atomicWriteUnknown | atomicWriteInconclusive.

(** What the operating system does with the calls of one write: the errors of reading the
    old file, the name os.CreateTemp picks ([None]: an error), the errors of writing,
    closing and renaming the temporary file and of removing one, what other processes do to
    the file system before the final look at the target, the error of that look, and how a
    restoring write fails: before it opens the file, or with some bytes written; the clock. *)
Record Weather := mkWeather {
  we_readErr : bool; we_tmp : option string; we_writeErr : option string; we_closeErr : bool;
  we_renameErr : bool; we_removeErr : bool; we_meanwhile : FS -> FS; we_statErr : bool;
  we_restoreErr : option (option string); we_now : Time }.

Section Write.
Variable w : Weather.
Implicit Types (fs : FS) (target : string).

(** A file made by os.CreateTemp has mode 0600, which is 384. *)
Definition tmp_file (data : string) : Node := NFile (mkWFile data 384 (we_now w)).

Definition remove_file fs (tmp : string) : FS := if we_removeErr w then fs else delete tmp fs.

(** The calls, then the content before and that there was one; [None] is an error. *)
Definition workspaceFileSnapshot fs target : list Access * option (string * bool) :=
  match fs !! target with
  | Some (NFile f) => ([Stat target; ReadFile target], if we_readErr w then None else Some (wf_content f, true))
  | _ => ([Stat target], None)
  end.

(** os.WriteFile keeps the mode of a file that is there. *)
Definition write_file fs target (data : string) : FS :=
  let write data :=
    match fs !! target with
    | Some (NDir _) => fs
    | Some (NFile f) => <[target := NFile (mkWFile data (wf_mode f) (we_now w))]> fs
    | None => <[target := NFile (mkWFile data 384 (we_now w))]> fs
    end in
  match we_restoreErr w with
  | None => write data
  | Some None => fs
  | Some (Some partial) => write partial
  end.

Definition restoreWorkspaceFile fs target (prior : string) (hadPrior : bool) : FS * list Access :=
  if hadPrior then (write_file fs target prior, [WriteFile target])
  else (remove_file fs target, [Remove target]).

Definition atomicWriteWorkspaceFile fs target (data : string) :
    FS * list Access * (atomicWriteOutcome + Time) :=
  match workspaceFileSnapshot fs target with
  | (looked, None) => (fs, looked, inl atomicWriteFailure)
  | (looked, Some (prior, hadPrior)) =>
    let made := looked ++ [CreateTemp (Dir target)] in
    match we_tmp w with
    | None => (fs, made, inl atomicWriteFailure)
    | Some tmp =>
      let wrote := made ++ [WriteTemp tmp] in
      match we_writeErr w with
      | Some partial => (remove_file (<[tmp := tmp_file partial]> fs) tmp, wrote ++ [Remove tmp], inl atomicWriteFailure)
      | None =>
        let fs := <[tmp := tmp_file data]> fs in
        if we_closeErr w then (remove_file fs tmp, wrote ++ [Remove tmp], inl atomicWriteFailure)
        else if we_renameErr w then
          (remove_file fs tmp, wrote ++ [Rename tmp target; Remove tmp], inl atomicWriteFailure)
        else
          let fs := we_meanwhile w (<[target := tmp_file data]> (delete tmp fs)) in
          let renamed := wrote ++ [Rename tmp target; Stat target] in
          let restored := restoreWorkspaceFile fs target prior hadPrior in
          match (if we_statErr w then None else fs !! target) with
          | None => (restored.1, renamed ++ restored.2, inl atomicWriteUnknown)
          | Some node =>
            if fi_Size (node_info node) =? Z.of_nat (String.length data)
            then (fs, renamed, inr (fi_ModTime (node_info node)))
            else (restored.1, renamed ++ restored.2, inl atomicWriteInconclusive)
          end
      end
    end
  end.

(** [None]: the precondition holds, or there is none. *)
Definition checkWorkspaceWritePrecondition fs (r : Request) (resolved : string) : list Access * option Response :=
  match rq_ifUnmodifiedSince r with
  | None => ([], None)
  | Some header =>
    ([Stat resolved],
     match fs !! resolved with
     | Some (NFile f) =>
       match header with
       | None => Some (gatewayError 400 "invalid_if_unmodified_since" "invalid If-Unmodified-Since")
       | Some headerTime =>
         if TruncateSecond (wf_mtime f) =? TruncateSecond headerTime then None
         else Some (mkResponse 412 (PreconditionFailed (wf_mtime f)))
       end
     | _ => Some path_not_found
     end)
  end.

Definition writeWorkspaceAtomicWriteError (kind : atomicWriteOutcome) : Response :=
  match kind with
  | atomicWriteInconclusive => gatewayAPIError 500 "atomic_write_inconclusive" "atomic write inconclusive"
  | atomicWriteUnknown => gatewayAPIError 502 "atomic_write_unknown" "atomic write failed"
  | atomicWriteFailure => gatewayAPIError 502 "atomic_write_failed" "atomic write failed"
  end.

(** [audit]: whether the audit record is written. *)
Definition write_guarded (audit : bool) fs (r : Request) (resolved : string) : FS * Handling :=
  if workspaceWriteBodyCap <? rq_ContentLength r then (fs, answer (mkResponse 413 OversizeBody))
  else match rq_body r with
  | BodyTooLarge => (fs, answer (mkResponse 413 OversizeBody))
  | BodyError => (fs, answer (gatewayError 400 "bad_request" "bad request body"))
  | BodyOK body =>
    match checkWorkspaceWritePrecondition fs r resolved with
    | (calls, Some resp) => (fs, (calls, resp))
    | (calls, None) =>
      match atomicWriteWorkspaceFile fs resolved body with
      | (fs, more, inl kind) => (fs, (calls ++ more, writeWorkspaceAtomicWriteError kind))
      | (fs, more, inr updated) =>
        (fs, (calls ++ more,
              if audit then mkResponse 200 (Written updated (rq_path r)) else mkResponse 500 AuditFailed))
      end
    end
  end.

Definition serveWorkspaceFileWrite (h : Host) (audit : bool) fs (r : Request) : FS * Handling :=
  let stop resp := (fs, answer resp) in
  if negb (sessionIDPattern (rq_id r)) then stop (gatewayError 400 "invalid_session_id" "invalid session id")
  else if negb (hs_Health h) then stop (gatewayError 503 "daemon_unavailable" "daemon unavailable")
  else match resolveWorkspaceSession h (rq_id r) with
  | inl err => stop (writeWorkspaceResolveError err)
  | inr info =>
    match validateWorkspaceHandle r info with
    | Some resp => stop resp
    | None =>
      if bool_decide (rq_path r = "") then stop (gatewayError 400 "path_required" "path required")
      else match GuardWorkspacePath h (ws_workspaceRoot info) (rq_path r) with
           | None => stop path_not_found
           | Some resolved => write_guarded audit fs r resolved
           end
    end
  end.

End Write.
