(* ===== verification/GatewayWorkspaceFacts.v ===== *)
(** * server/api: what a workspace request can reach and change

    Every call of the handlers is on the workspace root or below it, and a write replaces
    the content of its file as a whole or not at all. *)

From Stdlib Require Import String.
From S2P Require Import Prelude GoStd GoStrings GoPath GoTime HostState GatewayWorkspace.

(** ** Cleaned paths *)

(** [..] comes first only, and not at all in a rooted path. *)
Definition dots_first (rooted : bool) (acc : list string) : Prop :=
  exists names k, (acc = names ++ replicate k "..") /\ (".." ∉ names) /\ (rooted = true -> k = O).

Lemma clean_step_dots rooted acc c : dots_first rooted acc -> dots_first rooted (clean_step rooted acc c).
Proof.
  intros (names & k & -> & Hn & Hk). unfold clean_step.
  destruct (_ || _); [by exists names, k|]. case_bool_decide as Hc.
  - destruct names as [|top names].
    + destruct k as [|k]; simpl.
      * destruct rooted; [by exists [], O|]. exists [], 1%nat. split; [done|]. split; [apply not_elem_of_nil|done].
      * exists [], (S (S k)). split; [done|]. split; [apply not_elem_of_nil|]. intros Hr. by specialize (Hk Hr).
    + simpl. apply not_elem_of_cons in Hn as [Ht Hn]. rewrite bool_decide_false by congruence. by exists names, k.
  - exists (c :: names), k. split; [done|]. split; [by apply not_elem_of_cons|done].
Qed.

Lemma clean_components_dots path :
  exists k names, (clean_components path = replicate k ".." ++ names) /\ (".." ∉ names) /\ (IsAbs path = true -> k = O).
Proof.
  assert (dots_first (IsAbs path) (foldl (clean_step (IsAbs path)) [] (components path)))
    as (names & k & Hl & Hn & Hk).
  { assert (dots_first (IsAbs path) []) as H0 by (exists [], O; split; [done|]; split; [apply not_elem_of_nil|done]).
    revert H0. generalize (@nil string) as acc. generalize (components path) as l.
    induction l as [|c l IH]; intros acc Hacc; simpl; [done|]. by apply IH, clean_step_dots. }
  exists k, (reverse names). unfold clean_components. rewrite Hl, reverse_app. split; [|split; [|done]].
  - by rewrite reverse_replicate.
  - by rewrite elem_of_reverse.
Qed.

Lemma strip_common_spec base targ :
  let '(b, t) := strip_common base targ in exists common, base = common ++ b /\ targ = common ++ t.
Proof.
  revert targ. induction base as [|x base IH]; intros targ; simpl; [by exists []|].
  destruct targ as [|y targ]; [by exists []|]. case_bool_decide as Heq; [|by exists []].
  subst y. specialize (IH targ). destruct (strip_common base targ) as [b t].
  destruct IH as (common & -> & ->). by exists (x :: common).
Qed.

(** ** The guard *)

(** [p] is [R] or below it. *)
Definition confined (R p : string) : Prop :=
  exists rest, clean_components p = clean_components R ++ rest /\ (".." ∉ rest) /\ IsAbs p = IsAbs R.

Lemma join_dots l : HasPrefix (strings_Join (".." :: l) "/") ".." = true /\
  (strings_Join (".." :: l) "/" = ".." \/ HasPrefix (strings_Join (".." :: l) "/") "../" = true).
Proof. destruct l as [|x l]; [by split; [|left]|]. split; [done|]. right. simpl. by destruct (_ +:+ _). Qed.

(** After a component that is not [..] there is none. *)
Lemma dots_over k (names common t : list string) x :
  replicate k ".." ++ names = common ++ x :: t -> x <> ".." -> (".." ∉ names) -> ".." ∉ x :: t.
Proof.
  revert common. induction k as [|k IH]; intros common Heq Hx Hn; simpl in Heq.
  - subst names. intros Hin. apply Hn, elem_of_app. by right.
  - destruct common as [|c common]; simplify_eq/=. by eapply IH.
Qed.

Lemma descendant_confined R p : workspaceDescendant R p = true -> confined R p.
Proof.
  unfold workspaceDescendant, Rel. destruct (Bool.eqb _ _) eqn:Habs; simpl; [|done].
  apply Bool.eqb_prop in Habs. pose proof (strip_common_spec (clean_components R) (clean_components p)) as Hs.
  destruct (strip_common _ _) as [b t]. destruct Hs as (common & HR & Hp).
  assert (forall l, negb (bool_decide (strings_Join (".." :: l) "/" = ".."))
    && negb (HasPrefix (strings_Join (".." :: l) "/") "../") = false) as Hout.
  { intros l. destruct (join_dots l) as [_ [-> | ->]]; [done|]. by rewrite andb_false_r. }
  destruct b as [|first b].
  - intros Hd. exists t. rewrite HR, app_nil_r. split; [done|]. split; [|done].
    destruct t as [|x t]; [apply not_elem_of_nil|].
    assert (x <> "..") as Hx by (intros ->; rewrite (bool_decide_false (".." :: t = [])), Hout in Hd by done; done).
    destruct (clean_components_dots p) as (k & names & Hk & Hn & _). rewrite Hp in Hk.
    by eapply dots_over.
  - case_bool_decide; [done|]. intros Hd. by rewrite fmap_cons, <- app_comm_cons, Hout in Hd.
Qed.

Theorem guard_confined h root rel p :
  GuardWorkspacePath h root rel = Some p ->
  exists R, hs_EvalSymlinks h (Clean root) = Some R /\ confined R p.
Proof.
  unfold GuardWorkspacePath. cbv zeta. case_bool_decide; [done|]. destruct (IsAbs rel); [done|].
  destruct (Contains _ _); [done|].
  intros (current & _ & (R & HR & (q & _ & Hd)%bind_Some)%bind_Some)%bind_Some.
  exists R. split; [done|]. destruct (workspaceDescendant R q) eqn:Hdesc; simplify_eq.
  by apply descendant_confined.
Qed.

(** ** Directories of cleaned paths *)

Definition name_ok (c : string) : Prop :=
  c <> "" /\ c <> "." /\ c <> ".." /\ slash ∉ list_ascii_of_string c.

Lemma split_slash_cons a l cur : slash ∉ a ->
  split_slash (a ++ slash :: l) cur = string_of_list_ascii (reverse cur ++ a) :: split_slash l [].
Proof.
  revert cur. induction a as [|c a IH]; intros cur Ha; simpl.
  - by rewrite app_nil_r.
  - apply not_elem_of_cons in Ha as [Hc Ha]. rewrite bool_decide_false by congruence.
    rewrite IH by done. by rewrite reverse_cons, <- app_assoc.
Qed.

Lemma split_slash_end a cur : slash ∉ a -> split_slash a cur = [string_of_list_ascii (reverse cur ++ a)].
Proof.
  revert cur. induction a as [|c a IH]; intros cur Ha; simpl; [by rewrite app_nil_r|].
  apply not_elem_of_cons in Ha as [Hc Ha]. rewrite bool_decide_false by congruence.
  rewrite IH by done. by rewrite reverse_cons, <- app_assoc.
Qed.

Lemma components_slash_free path : Forall (fun c => slash ∉ list_ascii_of_string c) (components path).
Proof.
  unfold components. assert (slash ∉ @nil ascii) as H0 by apply not_elem_of_nil. revert H0.
  generalize (@nil ascii) as cur. generalize (list_ascii_of_string path) as l.
  induction l as [|c l IH]; intros cur Hcur; simpl.
  - constructor; [|constructor]. by rewrite list_ascii_of_string_of_list_ascii, elem_of_reverse.
  - case_bool_decide; [constructor; [by rewrite list_ascii_of_string_of_list_ascii, elem_of_reverse|]|];
      apply IH; [apply not_elem_of_nil|]. by apply not_elem_of_cons.
Qed.

Lemma components_slash_cons (a rest : string) : slash ∉ list_ascii_of_string a ->
  components (a +:+ "/" +:+ rest) = a :: components rest.
Proof.
  intros Ha. unfold components. rewrite !ascii_app.
  change (list_ascii_of_string "/" ++ list_ascii_of_string rest) with (slash :: list_ascii_of_string rest).
  rewrite split_slash_cons by done. simpl. by rewrite string_of_list_ascii_of_string.
Qed.

Lemma components_join l : Forall name_ok l -> l <> [] -> components (strings_Join l "/") = l.
Proof.
  induction 1 as [|c l (_ & _ & _ & Hc) Hl IH]; [done|]. intros _. destruct l as [|d l].
  - simpl. unfold components. rewrite split_slash_end by done. simpl. by rewrite string_of_list_ascii_of_string.
  - change (strings_Join (c :: d :: l) "/") with (c +:+ "/" +:+ strings_Join (d :: l) "/").
    rewrite components_slash_cons by done. by rewrite IH.
Qed.

Lemma clean_names l acc : Forall name_ok l -> foldl (clean_step true) acc l = reverse l ++ acc.
Proof.
  intros Hl. revert acc. induction Hl as [|c l (H1 & H2 & H3 & _) Hl IH]; intros acc; simpl; [done|].
  rewrite IH, reverse_cons, <- app_assoc. f_equal. unfold clean_step.
  by rewrite !bool_decide_false by done.
Qed.

(** The rooted path with the given names. *)
Definition rooted (l : list string) : string := "/" +:+ strings_Join l "/".

Lemma IsAbs_slash s : IsAbs ("/" +:+ s) = true.
Proof. unfold IsAbs, HasPrefix. rewrite str_app_cons. simpl. by destruct s. Qed.

Lemma clean_components_rooted l : Forall name_ok l -> clean_components (rooted l) = l.
Proof.
  intros Hl. unfold clean_components, rooted. rewrite IsAbs_slash.
  assert (components ("/" +:+ strings_Join l "/") = "" :: components (strings_Join l "/")) as ->.
  { apply (components_slash_cons ""). apply not_elem_of_nil. }
  destruct (decide (l = [])) as [->|Hne]; [done|]. rewrite components_join by done.
  cbn [foldl]. change (clean_step true [] "") with (@nil string). rewrite clean_names by done.
  by rewrite app_nil_r, reverse_involutive.
Qed.

Lemma clean_components_ok p : IsAbs p = true -> Forall name_ok (clean_components p).
Proof.
  intros Habs. destruct (clean_components_dots p) as (k & names & Hl & Hn & Hk).
  rewrite Hl, (Hk Habs). simpl. assert (Forall (fun c => c <> "" /\ c <> "." /\ slash ∉ list_ascii_of_string c) names) as Hf.
  { assert (Forall (fun c => c <> "" /\ c <> "." /\ slash ∉ list_ascii_of_string c) (clean_components p)) as Hc.
    { unfold clean_components. apply Forall_reverse.
      pose proof (components_slash_free p) as Hs. revert Hs.
      assert (Forall (fun c => c <> "" /\ c <> "." /\ slash ∉ list_ascii_of_string c) []) as H0 by constructor.
      revert H0. generalize (@nil string) as acc. generalize (components p) as l.
      induction l as [|c l IH]; intros acc Hacc Hs; simpl; [done|]. apply List.Forall_cons_iff in Hs as [Hc Hs].
      apply IH; [|done]. unfold clean_step. destruct (_ || _) eqn:Hb; [done|].
      apply orb_false_iff in Hb as [H1%bool_decide_eq_false H2%bool_decide_eq_false].
      case_bool_decide as Hd; [|by constructor]. destruct acc as [|top acc]; [destruct (IsAbs p); [done|]|].
      - constructor; [|done]. split; [done|]. split; [done|]. subst c. done.
      - case_bool_decide; [constructor; [|done]|by apply List.Forall_cons_iff in Hacc as [_ ?]].
        split; [done|]. split; [done|]. subst c. done. }
    by rewrite Hl, (Hk Habs) in Hc. }
  apply Forall_forall. intros c Hc. destruct (proj1 (Forall_forall _ _) Hf c Hc) as (? & ? & ?).
  split; [done|]. split; [done|]. split; [by intros ->|done].
Qed.

Lemma join_snoc l x : l <> [] -> strings_Join (l ++ [x]) "/" = strings_Join l "/" +:+ "/" +:+ x.
Proof.
  induction l as [|c l IH]; [done|]. intros _. destruct l as [|d l]; [done|].
  change (strings_Join ((c :: d :: l) ++ [x]) "/") with (c +:+ "/" +:+ strings_Join ((d :: l) ++ [x]) "/").
  rewrite IH by done. change (strings_Join (c :: d :: l) "/") with (c +:+ "/" +:+ strings_Join (d :: l) "/").
  by rewrite !str_app_assoc.
Qed.

Lemma drop_name_slash (q x : list ascii) : slash ∉ x ->
  reverse (drop_name (reverse (q ++ slash :: x))) = q ++ [slash].
Proof.
  intros Hx. rewrite reverse_app, reverse_cons, <- app_assoc.
  assert (slash ∉ reverse x) as Hr by (by rewrite elem_of_reverse). revert Hr. generalize (reverse x) as y.
  induction y as [|c y IH]; intros Hy; simpl.
  - by rewrite reverse_cons, reverse_involutive.
  - apply not_elem_of_cons in Hy as [Hc Hy]. rewrite bool_decide_false by congruence. by apply IH.
Qed.

Lemma components_join_slash l : Forall name_ok l -> l <> [] ->
  components (strings_Join l "/" +:+ "/") = l ++ [""].
Proof.
  induction 1 as [|c l (_ & _ & _ & Hc) Hl IH]; [done|]. intros _. destruct l as [|d l].
  - exact (components_slash_cons c "" Hc).
  - change (strings_Join (c :: d :: l) "/") with (c +:+ "/" +:+ strings_Join (d :: l) "/").
    rewrite !str_app_assoc, components_slash_cons by done. by rewrite IH.
Qed.

Lemma Clean_rooted_slash l : Forall name_ok l -> l <> [] -> Clean (rooted l +:+ "/") = rooted l.
Proof.
  intros Hl Hne. unfold Clean, clean_components, rooted. rewrite !str_app_assoc, IsAbs_slash.
  assert (forall s, components ("/" +:+ s) = "" :: components s) as ->
    by (intros s; apply (components_slash_cons ""); apply not_elem_of_nil).
  rewrite components_join_slash by done.
  cbn [foldl]. change (clean_step true [] "") with (@nil string). rewrite foldl_app, (clean_names l) by done.
  cbn [foldl]. change (clean_step true (reverse l ++ []) "") with (reverse l ++ @nil string).
  by rewrite app_nil_r, reverse_involutive.
Qed.

Lemma Dir_rooted l x : Forall name_ok l -> name_ok x -> Dir (rooted (l ++ [x])) = rooted l.
Proof.
  intros Hl (_ & _ & _ & Hx).
  assert (forall q, Dir (q +:+ "/" +:+ x) = Clean (q +:+ "/")) as Hdir.
  { intros q. unfold Dir. rewrite !ascii_app.
    change (list_ascii_of_string "/" ++ list_ascii_of_string x) with (slash :: list_ascii_of_string x).
    rewrite drop_name_slash by done. f_equal. rewrite <- (string_of_list_ascii_of_string (q +:+ "/")).
    by rewrite ascii_app. }
  destruct (decide (l = [])) as [->|Hne]; [exact (Hdir "")|].
  assert (rooted (l ++ [x]) = rooted l +:+ "/" +:+ x) as ->
    by (unfold rooted; rewrite join_snoc by done; by rewrite !str_app_assoc).
  rewrite Hdir. by apply Clean_rooted_slash.
Qed.

(** The directory of a file below [R] is [R] or below it. *)
Lemma Dir_confined R p :
  Clean p = p -> IsAbs p = true -> confined R p -> clean_components p <> clean_components R ->
  confined R (Dir p).
Proof.
  intros Hp Habs (rest & Hr & Hd & HR) Hne.
  assert (rest <> []) as Hrest by (intros ->; by rewrite app_nil_r in Hr).
  destruct (exists_last Hrest) as (rest' & x & ->). rewrite (assoc_L (++)) in Hr.
  pose proof (clean_components_ok p Habs) as Hok. rewrite Hr in Hok.
  apply Forall_app in Hok as [Hl Hx%List.Forall_cons_iff]. destruct Hx as [Hx _].
  assert (p = rooted (clean_components p)) as Hroot.
  { rewrite <- Hp at 1. unfold Clean. by rewrite Habs. }
  rewrite Hroot, Hr, Dir_rooted by done. exists rest'. rewrite clean_components_rooted by done.
  split; [done|]. split; [by apply not_elem_of_app in Hd as [? _]|]. unfold rooted. rewrite IsAbs_slash. congruence.
Qed.

(** ** What the handlers reach *)

Definition below (h : Host) (root p : string) : Prop :=
  exists R, hs_EvalSymlinks h (Clean root) = Some R /\ confined R p.

(** A call that stays in the workspace: on the root or below what it resolves to, on its git
    metadata, a diff of the root or of a guarded path, or on the temporary file that was
    made below the root. *)
Definition allowed (h : Host) (w : Weather) (r : Request) (root : string) (a : Access) : Prop :=
  match a with
  | Stat p => p = root \/ below h root p
  | Lstat p => p = git_metadata (Clean root)
  | ReadDir p | ReadFile p | WriteFile p | CreateTemp p => below h root p
  | Git args =>
    args = ["-C"; Clean root; "diff"; "HEAD"; "--"]
    \/ (args = ["-C"; Clean root; "diff"; "HEAD"; "--"; rq_path r]
        /\ GuardWorkspacePath h root (rq_path r) <> None)
  | WriteTemp p | Remove p => we_tmp w = Some p
  | Rename from to => we_tmp w = Some from /\ below h root to
  end.

(** The handlers of a workspace, by the calls they make. *)
Definition workspace_calls (h : Host) (w : Weather) (audit : bool) (fs : FS) (r : Request) : list (list Access) :=
  [(serveWorkspaceRootHandle h r).1; (serveWorkspaceTree h r).1; (serveWorkspaceFile h r).1;
   (serveWorkspaceDiff h r).1; (serveWorkspaceFileWrite w h audit fs r).2.1].

(** The session the request names, with a handle that is current. *)
Definition admitted (h : Host) (r : Request) (info : workspaceSession) : Prop :=
  resolveWorkspaceSession h (rq_id r) = inr info /\ validateWorkspaceHandle r info = None.

Section Reach.
Context (h : Host) (w : Weather) (r : Request).

Definition admits (a : Access) : Prop := exists info, admitted h r info /\ allowed h w r (ws_workspaceRoot info) a.

Lemma with_handle_calls k :
  (forall info, admitted h r info -> Forall (allowed h w r (ws_workspaceRoot info)) (k info).1) ->
  Forall admits (with_handle h r k).1.
Proof.
  intros Hk. unfold with_handle, for_session. do 2 (destruct (negb _); [constructor|]).
  destruct (resolveWorkspaceSession h (rq_id r)) as [err|info] eqn:Hres; [constructor|].
  destruct (validateWorkspaceHandle r info) eqn:Hval; [constructor|].
  eapply Forall_impl; [by apply Hk|]. intros a Ha. by exists info.
Qed.

Lemma root_calls : Forall admits (serveWorkspaceRootHandle h r).1.
Proof.
  unfold serveWorkspaceRootHandle, for_session. do 2 (destruct (negb _); [constructor|]).
  destruct (resolveWorkspaceSession h (rq_id r)); constructor.
Qed.

Lemma tree_calls : Forall admits (serveWorkspaceTree h r).1.
Proof.
  apply with_handle_calls. intros info _. constructor; [by left|].
  destruct (hs_Stat h _); [|constructor]. destruct (GuardWorkspacePath _ _ _) as [p|] eqn:Hg; [|constructor].
  constructor; [exact (guard_confined _ _ _ _ Hg)|]. destruct (hs_ReadDir h p); constructor.
Qed.

Lemma file_calls : Forall admits (serveWorkspaceFile h r).1.
Proof.
  apply with_handle_calls. intros info _. case_bool_decide; [constructor|].
  destruct (GuardWorkspacePath _ _ _) as [p|] eqn:Hg; [|constructor]. apply guard_confined in Hg.
  constructor; [by right|]. destruct (hs_Stat h p) as [fi|]; [|constructor].
  destruct (fi_IsDir fi); [constructor|]. constructor; [done|]. destruct (hs_ReadFile h p); constructor.
Qed.

Lemma git_calls root k :
  (rq_path r <> "" -> GuardWorkspacePath h root (rq_path r) <> None) ->
  Forall (allowed h w r root) (DiffHeadVsWorktree h root (rq_path r) k).1.
Proof.
  intros Hguard. unfold DiffHeadVsWorktree. destruct (hs_lookGit h); [|constructor]. cbn [negb]. cbv zeta.
  constructor; [done|]. destruct (hs_lstat h _); cbn [negb]; [|constructor]. constructor.
  - simpl. case_bool_decide as Hp; [by left|]. right. split; [done|]. by apply Hguard.
  - destruct (hs_git h _); [constructor|]. by repeat constructor.
Qed.

Lemma diff_calls : Forall admits (serveWorkspaceDiff h r).1.
Proof.
  apply with_handle_calls. intros info _. cbv zeta beta. case_bool_decide as Hp; cbn [negb andb].
  - apply git_calls. by intros ?.
  - case_bool_decide; [constructor|]. by apply git_calls.
Qed.

(** The directory of a regular file below the root is below the root, where the root is
    not a regular file itself. *)
Lemma dir_below root (fs : FS) p f :
  (forall q q', hs_EvalSymlinks h q = Some q' -> Clean q' = q') ->
  (forall R, hs_EvalSymlinks h (Clean root) = Some R -> IsAbs R = true /\ fs !! R <> Some (NFile f)) ->
  Clean p = p -> below h root p -> fs !! p = Some (NFile f) -> below h root (Dir p).
Proof.
  intros Hclean Hroot Hp (R & HR & Hc) Hf. destruct (Hroot R HR) as [Habs Hdir].
  assert (IsAbs p = true) as Hpa by (destruct Hc as (? & _ & _ & ->); done).
  exists R. split; [done|]. apply Dir_confined; [done|done|done|]. intros Heq.
  assert (p = R) as -> by (rewrite <- Hp, <- (Hclean _ _ HR); unfold Clean; by rewrite Hpa, Habs, Heq). done.
Qed.

Ltac in_reach := cbn [fst snd app restoreWorkspaceFile]; rewrite ?List.Forall_cons_iff; cbn [allowed]; repeat split; eauto.

Lemma atomicWrite_calls root (fs : FS) p data :
  below h root p -> (forall f, fs !! p = Some (NFile f) -> below h root (Dir p)) ->
  Forall (allowed h w r root) (atomicWriteWorkspaceFile w fs p data).1.2.
Proof.
  intros Hb Hdir. unfold atomicWriteWorkspaceFile, workspaceFileSnapshot.
  destruct (fs !! p) as [[?|f]|] eqn:Hf; [in_reach| |in_reach].
  specialize (Hdir f eq_refl). destruct (we_readErr w); [in_reach|].
  destruct (we_tmp w) as [tmp|] eqn:Htmp; [|in_reach].
  destruct (we_writeErr w); [in_reach|].
  destruct (we_closeErr w); [in_reach|].
  destruct (we_renameErr w); [in_reach|]. cbv zeta.
  destruct (if we_statErr w then _ else _) as [node|]; [destruct (_ =? _)|];
    in_reach.
Qed.

Lemma guard_resolved root rel p :
  GuardWorkspacePath h root rel = Some p -> exists q, hs_EvalSymlinks h q = Some p.
Proof.
  unfold GuardWorkspacePath. cbv zeta. case_bool_decide; [done|]. destruct (IsAbs rel); [done|].
  destruct (Contains _ _); [done|].
  intros (current & _ & (R & HR & (q & Hq & Hd)%bind_Some)%bind_Some)%bind_Some.
  exists current. destruct (workspaceDescendant R q); by simplify_eq.
Qed.

Lemma write_calls audit (fs : FS) :
  (forall q q', hs_EvalSymlinks h q = Some q' -> Clean q' = q') ->
  (forall info R f, admitted h r info -> hs_EvalSymlinks h (Clean (ws_workspaceRoot info)) = Some R ->
    IsAbs R = true /\ fs !! R <> Some (NFile f)) ->
  Forall admits (serveWorkspaceFileWrite w h audit fs r).2.1.
Proof.
  intros Hclean Hroot. unfold serveWorkspaceFileWrite. do 2 (destruct (negb _); [constructor|]).
  destruct (resolveWorkspaceSession h (rq_id r)) as [err|info] eqn:Hres; [constructor|].
  destruct (validateWorkspaceHandle r info) eqn:Hval; [constructor|].
  case_bool_decide; [constructor|]. destruct (GuardWorkspacePath _ _ _) as [p|] eqn:Hg; [|constructor].
  destruct (guard_resolved _ _ _ Hg) as [q Hq]. apply guard_confined in Hg.
  assert (admitted h r info) as Hadm by done. unfold write_guarded. destruct (_ <? _); [constructor|].
  destruct (rq_body r) as [body| |]; [|constructor|constructor].
  apply (Forall_impl (allowed h w r (ws_workspaceRoot info))); [|intros a Ha; by exists info].
  assert (Forall (allowed h w r (ws_workspaceRoot info)) (checkWorkspaceWritePrecondition fs r p).1) as Hpre.
  { unfold checkWorkspaceWritePrecondition. destruct (rq_ifUnmodifiedSince r); in_reach. }
  destruct (checkWorkspaceWritePrecondition fs r p) as [calls [resp|]]; [done|].
  assert (Forall (allowed h w r (ws_workspaceRoot info)) (atomicWriteWorkspaceFile w fs p body).1.2) as Hw.
  { apply atomicWrite_calls; [done|]. intros f Hf. eapply dir_below; eauto. }
  destruct (atomicWriteWorkspaceFile w fs p body) as [[fs' more] [kind|updated]]; by apply Forall_app.
Qed.

End Reach.

(** C7: no request reaches outside the workspace of the session it names.  Every call the
    handlers of the root handle, the tree, a file, the diff and a write make, whatever the
    path of the request and whatever the symbolic links, belongs to a session the daemon
    lists under the id of the request with a current handle, and is on its root, at or below what
    the root resolves to, on its git metadata, a diff of the root or of a path that passes
    the guard, or on the temporary file a write makes below the root.  filepath.EvalSymlinks
    returns cleaned paths, and the root is an absolute directory. *)
Theorem workspace_confined h w audit (fs : FS) r :
  (forall q q', hs_EvalSymlinks h q = Some q' -> Clean q' = q') ->
  (forall info R f, admitted h r info -> hs_EvalSymlinks h (Clean (ws_workspaceRoot info)) = Some R ->
    IsAbs R = true /\ fs !! R <> Some (NFile f)) ->
  forall calls a, calls ∈ workspace_calls h w audit fs r -> a ∈ calls ->
  exists info, admitted h r info /\ allowed h w r (ws_workspaceRoot info) a.
Proof.
  intros Hclean Hroot calls a Hcalls. revert a. apply Forall_forall.
  unfold workspace_calls in Hcalls. rewrite !elem_of_cons in Hcalls.
  destruct Hcalls as [->|[->|[->|[->|[->|[]%elem_of_nil]]]]].
  - apply root_calls.
  - apply tree_calls.
  - apply file_calls.
  - apply diff_calls.
  - by apply write_calls.
Qed.

(** * server/api: what a workspace write leaves behind

    The outcome of serveWorkspaceFileWrite on every path: the file has the body of the
    request as a whole, or its old content, and no other file is touched. *)

(** The precondition of the request, to the second. *)
Definition unmodified (r : Request) (old : WFile) : Prop :=
  match rq_ifUnmodifiedSince r with
  | None => True
  | Some None => False
  | Some (Some t) => TruncateSecond (wf_mtime old) = TruncateSecond t
  end.

(** A write of [body] the gateway takes on, to the file [old] at [p]. *)
Record write_target (h : Host) (r : Request) (fs : FS) (p : string) (old : WFile) (body : string) : Prop := {
  wt_id : sessionIDPattern (rq_id r) = true;
  wt_health : hs_Health h = true;
  wt_guard : exists info, admitted h r info /\ GuardWorkspacePath h (ws_workspaceRoot info) (rq_path r) = Some p;
  wt_path : rq_path r <> "";
  wt_file : fs !! p = Some (NFile old);
  wt_length : rq_ContentLength r <= workspaceWriteBodyCap;
  wt_body : rq_body r = BodyOK body;
  wt_unmodified : unmodified r old }.

(** No other process interferes, os.CreateTemp picks a name that is free, and removing and
    restoring succeed. *)
Record quiet (w : Weather) (fs : FS) : Prop := {
  qu_meanwhile : we_meanwhile w = id;
  qu_tmp : forall tmp, we_tmp w = Some tmp -> fs !! tmp = None;
  qu_remove : we_removeErr w = false;
  qu_restore : we_restoreErr w = None }.

(** The calls of the write succeed as well. *)
Definition smooth (w : Weather) : Prop :=
  we_readErr w = false /\ we_tmp w <> None /\ we_writeErr w = None /\ we_closeErr w = false
  /\ we_renameErr w = false /\ we_statErr w = false.

(** The file system with one file replaced. *)
Definition replaced (w : Weather) (fs : FS) (p data : string) : FS := <[p := tmp_file w data]> fs.

Lemma insert_delete_fresh (fs : FS) tmp p n n' :
  fs !! tmp = None -> p <> tmp -> <[p := n]> (delete tmp (<[tmp := n']> fs)) = <[p := n]> fs.
Proof. intros Ht Hp. by rewrite delete_insert_id. Qed.

Section Outcome.
Context (w : Weather) (fs : FS) (Hq : quiet w fs).

(** The outcomes of the atomic write of a regular file. *)
Lemma atomicWrite_outcome p old body fs' calls res :
  fs !! p = Some (NFile old) -> atomicWriteWorkspaceFile w fs p body = (fs', calls, res) ->
  (fs' = fs /\ res = inl atomicWriteFailure /\ ~ smooth w)
  \/ (fs' = replaced w fs p body /\ res = inr (we_now w))
  \/ (we_statErr w = true /\ fs' = replaced w fs p (wf_content old) /\ res = inl atomicWriteUnknown).
Proof.
  destruct Hq as [Hmean Htmp Hrem Hres]. intros Hf. unfold atomicWriteWorkspaceFile, workspaceFileSnapshot, smooth.
  rewrite Hf. destruct (we_readErr w); [intros; simplify_eq; left; naive_solver|].
  destruct (we_tmp w) as [tmp|]; [|intros; simplify_eq; left; naive_solver].
  specialize (Htmp tmp eq_refl). assert (p <> tmp) as Hne by (intros ->; congruence).
  unfold remove_file. rewrite Hrem.
  destruct (we_writeErr w); [intros; simplify_eq; left; rewrite delete_insert_id by done; naive_solver|].
  destruct (we_closeErr w); [intros; simplify_eq; left; rewrite delete_insert_id by done; naive_solver|].
  destruct (we_renameErr w); [intros; simplify_eq; left; rewrite delete_insert_id by done; naive_solver|].
  rewrite Hmean. cbv zeta. cbn [id]. rewrite insert_delete_fresh by done.
  destruct (we_statErr w).
  - intros; simplify_eq. right; right. split; [done|]. split; [|done].
    unfold restoreWorkspaceFile, write_file. rewrite Hres. cbn [fst]. rewrite lookup_insert_eq. cbn [wf_mode].
    unfold replaced, tmp_file. by rewrite insert_insert_eq.
  - rewrite lookup_insert_eq. simpl. rewrite Z.eqb_refl. intros; simplify_eq. right; left. done.
Qed.

(** The precondition check passes exactly on unmodified files. *)
Lemma precondition_spec r p :
  match (checkWorkspaceWritePrecondition fs r p).2 with
  | Some resp => 400 <= rs_status resp /\ (forall old, fs !! p = Some (NFile old) -> ~ unmodified r old)
  | None => forall old, fs !! p = Some (NFile old) -> unmodified r old
  end.
Proof.
  unfold checkWorkspaceWritePrecondition, unmodified. destruct (rq_ifUnmodifiedSince r) as [header|]; [|done].
  cbn [snd]. destruct (fs !! p) as [[?|f]|]; [done| |done].
  destruct header as [t|]; [|split; [done|by intros ? _ ?]]. destruct (_ =? _) eqn:Heq.
  - apply Z.eqb_eq in Heq. naive_solver.
  - apply Z.eqb_neq in Heq. split; [done|naive_solver].
Qed.

(** The outcomes of a write. *)
Definition refused (fs' : FS) (resp : Response) : Prop := fs' = fs /\ 400 <= rs_status resp.

Definition performed (audit : bool) (r : Request) (p body : string) (fs' : FS) (resp : Response) : Prop :=
  fs' = replaced w fs p body
  /\ resp = if audit then mkResponse 200 (Written (we_now w) (rq_path r)) else mkResponse 500 AuditFailed.

Definition rolled_back (p : string) (old : WFile) (fs' : FS) (resp : Response) : Prop :=
  we_statErr w = true /\ fs' = replaced w fs p (wf_content old)
  /\ resp = writeWorkspaceAtomicWriteError atomicWriteUnknown.

Lemma write_guarded_outcome audit r p :
  let '(fs', (_, resp)) := write_guarded w audit fs r p in
  (refused fs' resp
   /\ (smooth w -> forall old body, fs !! p = Some (NFile old) -> rq_body r = BodyOK body ->
         rq_ContentLength r <= workspaceWriteBodyCap -> ~ unmodified r old))
  \/ (exists old body, fs !! p = Some (NFile old) /\ rq_body r = BodyOK body
       /\ rq_ContentLength r <= workspaceWriteBodyCap /\ unmodified r old
       /\ (performed audit r p body fs' resp \/ rolled_back p old fs' resp)).
Proof.
  unfold write_guarded. destruct (_ <? _) eqn:Hcap.
  { apply Z.ltb_lt in Hcap. left. split; [by split|]. intros; lia. }
  apply Z.ltb_ge in Hcap. destruct (rq_body r) as [body| |]; [|left; split; [by split|done]..].
  pose proof (precondition_spec r p) as Hpre.
  destruct (checkWorkspaceWritePrecondition fs r p) as [calls [resp|]]; cbn [snd] in Hpre.
  { destruct Hpre as [Hs Hno]. left. split; [by split|]. intros _ old ? Hf _ _. exact (Hno old Hf). }
  destruct (fs !! p) as [[info|old]|] eqn:Hf.
  2: destruct (atomicWriteWorkspaceFile w fs p body) as [[fs' more] res] eqn:Haw;
     destruct (atomicWrite_outcome _ _ _ _ _ _ Hf Haw) as [(-> & -> & Hs)|[[-> ->]|(Hst & -> & ->)]].
  - unfold atomicWriteWorkspaceFile, workspaceFileSnapshot. rewrite Hf. left. split; [by split|done].
  - left. split; [by split|done].
  - right. exists old, body. repeat split; auto. left. by split.
  - right. exists old, body. repeat split; auto. right. by split.
  - unfold atomicWriteWorkspaceFile, workspaceFileSnapshot. rewrite Hf. left. split; [by split|done].
Qed.

Lemma protoCode_status code : 400 <= (protoCodeToHTTP code).1.
Proof. unfold protoCodeToHTTP. repeat (case_bool_decide; [done|]). done. Qed.

Lemma resolveError_status err : 400 <= rs_status (writeWorkspaceResolveError err).
Proof. destruct err as [[]|]; try done. apply protoCode_status. Qed.

Lemma handle_status r info resp : validateWorkspaceHandle r info = Some resp -> 400 <= rs_status resp.
Proof.
  unfold validateWorkspaceHandle. case_bool_decide; [done|]. do 2 (destruct (_ || _); [by intros [= <-]|]).
  destruct (Atoi _) as [pinned|]; [|by intros [= <-]]. destruct (_ =? _); [done|]. by intros [= <-].
Qed.

End Outcome.


(** Other processes may have changed the file before the final look at it: unless they left
    a directory, the old content is restored. *)
Lemma inconclusive_restored w (fs : FS) p old body fs' calls kind :
  fs !! p = Some (NFile old) -> we_restoreErr w = None ->
  atomicWriteWorkspaceFile w fs p body = (fs', calls, inl kind) -> kind <> atomicWriteFailure ->
  match fs' !! p with
  | Some (NFile f) => wf_content f = wf_content old
  | Some (NDir _) => True
  | None => False
  end.
Proof.
  intros Hf Hres. unfold atomicWriteWorkspaceFile, workspaceFileSnapshot. rewrite Hf.
  destruct (we_readErr w); [by intros; simplify_eq|]. destruct (we_tmp w); [|by intros; simplify_eq].
  destruct (we_writeErr w); [by intros; simplify_eq|]. destruct (we_closeErr w); [by intros; simplify_eq|].
  destruct (we_renameErr w); [by intros; simplify_eq|]. cbv zeta. generalize (we_meanwhile w). intros meanwhile.
  set (fs1 := meanwhile _). clearbody fs1.
  assert (match write_file w fs1 p (wf_content old) !! p with
    | Some (NFile f) => wf_content f = wf_content old | Some (NDir _) => True | None => False end) as Hw.
  { unfold write_file. rewrite Hres. destruct (fs1 !! p) as [[?|?]|] eqn:H1; [by rewrite H1|by rewrite lookup_insert_eq..]. }
  destruct (if we_statErr w then _ else _) as [node|]; [destruct (_ =? _)|]; intros; by simplify_eq/=.
Qed.

(** A write makes the file private: whatever its mode was, it is 0600 afterwards, the mode
    of the temporary file that takes its place. *)
Lemma write_loses_mode w (fs : FS) p body :
  exists f, replaced w fs p body !! p = Some (NFile f) /\ wf_mode f = 384.
Proof. eexists. unfold replaced, tmp_file. by rewrite lookup_insert_eq. Qed.

(** ** A workspace *)

Module WorkspaceDemo.

(** [/w] with a file [a], a file [a..b], and a link [out] to [/etc/passwd]. *)
Definition links : list (string * string) :=
  [("/w", "/w"); ("/w/a", "/w/a"); ("/w/a..b", "/w/a..b"); ("/w/out", "/etc/passwd")].

Definition host : Host :=
  mkHost true (inr [mkSessionInfo "s1" 3 "/w"])
    (fun p => snd <$> List.find (fun l => bool_decide (l.1 = p)) links)
    (fun _ => Some (mkInfo false 3 7)) (fun _ => Some [("a", false)]) (fun _ => Some "old")
    true (fun _ => true) (fun _ => Some "diff").

Definition request (path : string) : Request :=
  mkRequest "s1" "3" "s1" "/w" path (Some (Some 7)) 3 (BodyOK "new").

Definition files : FS :=
  <["/w" := NDir (mkInfo true 0 0)]> (<["/w/a" := NFile (mkWFile "old" 420 7)]> ∅).

Definition weather : Weather :=
  mkWeather false (Some "/w/.workspace-write-1") None false false false id false None 9.

Lemma links_clean q q' : hs_EvalSymlinks host q = Some q' -> Clean q' = q'.
Proof.
  cbn [hs_EvalSymlinks host]. destruct (List.find _ links) as [l|] eqn:Hl; [|done]. apply List.find_some in Hl as [Hin _].
  intros [= <-]. simpl in Hin. destruct Hin as [<-|[<-|[<-|[<-|[]]]]]; vm_compute; reflexivity.
Qed.

Lemma root_directory info R f :
  admitted host (request "a") info -> hs_EvalSymlinks host (Clean (ws_workspaceRoot info)) = Some R ->
  IsAbs R = true /\ files !! R <> Some (NFile f).
Proof.
  intros [Hres _] HR. vm_compute in Hres. injection Hres as <-. vm_compute in HR. injection HR as <-. by split.
Qed.

(** The write makes its temporary file beside the target, in the workspace. *)
Lemma workspace_confined_witness :
  CreateTemp "/w" ∈ (serveWorkspaceFileWrite weather host true files (request "a")).2.1
  /\ exists info, admitted host (request "a") info
     /\ allowed host weather (request "a") (ws_workspaceRoot info) (CreateTemp "/w").
Proof.
  assert (CreateTemp "/w" ∈ (serveWorkspaceFileWrite weather host true files (request "a")).2.1) as Hin.
  { assert ((serveWorkspaceFileWrite weather host true files (request "a")).2.1
      = [Stat "/w/a"; Stat "/w/a"; ReadFile "/w/a"; CreateTemp "/w"; WriteTemp "/w/.workspace-write-1";
         Rename "/w/.workspace-write-1" "/w/a"; Stat "/w/a"]) as -> by (vm_compute; reflexivity).
    rewrite !elem_of_cons. auto 10. }
  split; [exact Hin|].
  refine (workspace_confined host weather true files (request "a") links_clean root_directory _ _ _ Hin).
  unfold workspace_calls. rewrite !elem_of_cons. auto 10.
Defined.

Lemma weather_quiet : quiet weather files.
Proof. split; [done| |done|done]. intros tmp [= <-]. vm_compute. reflexivity. Qed.

Lemma a_target : write_target host (request "a") files "/w/a" (mkWFile "old" 420 7) "new".
Proof.
  split; [reflexivity|reflexivity| |discriminate|reflexivity|discriminate|reflexivity|reflexivity].
  exists (mkWorkspace "s1" 3 "/w"). split; [split|]; vm_compute; reflexivity.
Qed.


(** A link out of the workspace is not followed. *)
Example link_out_refused : GuardWorkspacePath host "/w" "out" = None.
Proof. vm_compute. reflexivity. Qed.

(** A name with two dots in a row is refused, although it is no [..] segment. *)
Example dotted_name_refused : GuardWorkspacePath host "/w" "a..b" = None.
Proof. vm_compute. reflexivity. Qed.

(** Valid UTF-8 text is taken for binary where the sample ends inside a character. *)
Definition long_text : string :=
  string_of_list_ascii (replicate (Z.to_nat 7999) (ascii_of_nat 97) ++ [ascii_of_nat 195; ascii_of_nat 169]).

Example split_character_binary :
  isUTF8Text (bytes_of long_text) = true /\ workspaceSniffBinary long_text = true.
Proof. split; vm_compute; reflexivity. Qed.

End WorkspaceDemo.
