(* ===== verification/WslSupervisor.v ===== *)
(** * platform/wslhost: the supervisor of the host server on Windows

    supervisor.go, supervisor_runtime.go and the pure parts of config.go and process.go: the
    state machine that probes for the server in its WSL distribution, starts it, watches its
    health and restarts it.

    One mutex serialises everything, so an entry point is a function on the state.  What runs
    outside the mutex is part of the state: armed timers and callbacks that have fired and
    wait for the mutex, goroutines that wait for a started unit to exit, goroutines that run
    the recovery stop.  Every call to a dependency (clock, probe, launcher, health probe,
    recorder) goes to [s_trace]; the answer to a call is a function of its position there, so
    the theorems hold for whatever the dependencies answer.  The text of an error after the
    colon of a reason, and the time in the reason of a resume, are left out. *)

From Stdlib Require Import String.
From S2P Require Import Prelude GoStd GoStrings HostState.

(** ** The registration (config.go, process.go) *)

Record Thresholds := mkThresholds {
  th_HealthProbeTimeoutMS : Z; th_HealthCadenceMS : Z; th_StartupBudgetMS : Z; th_ResumeRecheckMS : Z;
  th_HealthRestartThreshold : Z; th_ConfigTerminalThreshold : Z; th_TransientTerminalThreshold : Z;
  th_GracefulStopBudgetMS : Z; th_BackoffSeconds : list Z }.

Definition DefaultThresholds : Thresholds :=
  mkThresholds 2000 5000 60000 10000 3 5 10 15000 [1; 2; 5; 15; 60].

(** The fields the supervisor reads. *)
Record Snapshot := mkSnapshot {
  sn_Generation : string; sn_Distribution : string; sn_LinuxUser : string; sn_ServerExecutable : string;
  sn_DataDir : string; sn_Addr : string; sn_TLSMode : string; sn_HealthURL : string;
  sn_Thresholds : Thresholds }.

(** The check of ValidateSnapshot on the thresholds. *)
Definition thresholds_complete (t : Thresholds) : bool :=
  (0 <? th_HealthProbeTimeoutMS t) && (0 <? th_HealthCadenceMS t) && (0 <? th_StartupBudgetMS t)
  && (0 <? th_ResumeRecheckMS t) && (0 <? th_HealthRestartThreshold t) && (0 <? th_ConfigTerminalThreshold t)
  && (0 <? th_TransientTerminalThreshold t) && (0 <? th_GracefulStopBudgetMS t)
  && negb (bool_decide (th_BackoffSeconds t = [])).

Record LaunchSpec := mkSpec {
  ls_Distribution : string; ls_LinuxUser : string; ls_ServerExecutable : string; ls_ServerArgs : list string }.

Definition BuildLaunchSpec (s : Snapshot) : LaunchSpec :=
  let args := ["-data-dir"; sn_DataDir s; "-addr"; sn_Addr s; "-no-auth"] in
  mkSpec (sn_Distribution s) (sn_LinuxUser s) (sn_ServerExecutable s)
    (if bool_decide (sn_TLSMode s = "insecure") then args ++ ["-insecure"] else args).

Definition BuildWSLExecArgv (spec : LaunchSpec) : list string :=
  ["wsl.exe"; "--distribution"; ls_Distribution spec; "--user"; ls_LinuxUser spec; "--exec";
   ls_ServerExecutable spec] ++ ls_ServerArgs spec.

Definition BuildTerminateArgv (distribution : string) : list string := ["wsl.exe"; "--terminate"; distribution].

Definition ArgvContainsShutdown (argv : list string) : bool := existsb (fun a => bool_decide (a = "--shutdown")) argv.

Section Argv.
Context `{UnicodeTables}.

Definition ArgvHasShell (argv : list string) : bool :=
  existsb (fun a => bool_decide (ToLower a ∈ ["cmd.exe"; "powershell.exe"; "pwsh.exe"; "sh"; "bash"; "-c"; "nohup"; "setsid"])) argv.

(** The loop of ValidateLaunchArgv: the last value of each flag, and whether there is
    [--exec]. *)
Fixpoint scan_argv (argv : list string) (distro user : string) (hasExec : bool) : string * string * bool :=
  match argv with
  | [] => (distro, user, hasExec)
  | a :: rest =>
    let next old := match rest with b :: _ => b | [] => old end in
    if bool_decide (a = "--distribution") then scan_argv rest (next distro) user hasExec
    else if bool_decide (a = "--user") then scan_argv rest distro (next user) hasExec
    else if bool_decide (a = "--exec") then scan_argv rest distro user true
    else scan_argv rest distro user hasExec
  end.

Definition ValidateLaunchArgv (argv : list string) (boundDistro boundUser : string) : bool :=
  if (length argv <? 7)%nat then false
  else if negb (bool_decide (argv !! 0%nat = Some "wsl.exe")) then false
  else if ArgvContainsShutdown argv then false
  else if ArgvHasShell argv then false
  else let '(distro, user, hasExec) := scan_argv argv "" "" false in
       hasExec && bool_decide (distro = boundDistro) && bool_decide (user = boundUser).

End Argv.

(** ** What the supervisor sees and records *)

Inductive Phase :=
| PhaseStopped | PhaseStarting | PhaseReady | PhaseBackoff | PhaseFailed | PhaseRestarting | PhaseAlreadyRunning.

#[export] Instance phase_eq_dec : EqDecision Phase.
Proof. solve_decision. Defined.

Inductive EventKind :=
| KindStart | KindProbe | KindAdopt | KindSpawn | KindAlreadyRunning | KindReady | KindHealth | KindChildExit
| KindBackoff | KindFailed | KindResume | KindHealthInvalidate | KindGracefulRestart | KindStaleDiscard
| KindServiceStop | KindBudgetExpiry | KindEscalation.

#[export] Instance kind_eq_dec : EqDecision EventKind.
Proof. solve_decision. Defined.

Record LifecycleEvent := mkEvent {
  ev_At : Time; ev_Kind : EventKind; ev_Phase : Phase; ev_Generation : string; ev_Epoch : Z; ev_Class : string;
  ev_Attempt : Z; ev_DelayMS : Z; ev_ExitCode : option Z; ev_Reason : string; ev_Setting : string }.

Definition ProbeClassAbsent : string := "absent".
Definition ProbeClassMatchedRunning : string := "matched_running".
Definition ProbeClassMismatch : string := "mismatch".
Definition ProbeClassUnknown : string := "unknown".

Record ProbeResult := mkProbe { pr_Class : string; pr_OwnershipToken : string; pr_Reason : string }.

Definition HealthStatusOK : string := "ok".

Record HealthResult := mkHealth { hr_Status : string; hr_Healthy : bool; hr_Reason : string; hr_At : Time }.

(** A call to a dependency, with its answer. *)
Inductive Call :=
| Now (t : Time)
| Probed (answer : option ProbeResult)
| Started (argv : list string) (ok : bool)
| HealthProbed (answer : option HealthResult)
| StopSent (token : string)
| Recorded (ev : LifecycleEvent).

(** The dependencies: the answer to the call at a position of the trace ([None] is an
    error). *)
Class Dependencies := mkDependencies {
  dep_now : nat -> Time;
  dep_probe : nat -> option ProbeResult;
  dep_start : nat -> bool;
  dep_health : nat -> option HealthResult }.

(** ** The state *)

(** The callbacks of the timers. *)
Inductive Callback := CbResume | CbHealth | CbBackoff.

#[export] Instance callback_eq_dec : EqDecision Callback.
Proof. solve_decision. Defined.

Record Armed := mkArmed { ar_delay : Duration; ar_callback : Callback; ar_epoch : Z }.

Record Supervisor := mkSupervisor {
  s_phase : Phase; s_epoch : Z; s_configFails : Z; s_transientFails : Z; s_healthFails : Z; s_retryAttempt : Z;
  s_ownershipToken : string; s_unit : option nat; s_unitEpoch : Z; s_adopted : bool;
  s_pendingTimer : option nat; s_healthInFlight : bool; s_spawnInFlight : bool; s_healthValid : bool;
  s_startupSince : Time; s_recoveryStop : bool; s_recoveryActive : bool; s_closed : bool;
  (* outside the mutex: the timers by number, the callbacks that have fired, the started
     units with the epoch their exit reports, the running recovery stops *)
  s_timers : gmap nat Armed; s_nextTimer : nat; s_due : list (Callback * Z);
  s_units : nat; s_watchers : list (nat * Z); s_recoveries : nat;
  s_trace : list Call }.

#[export] Instance eta_Supervisor : Eta Supervisor := fun s =>
  mkSupervisor (s_phase s) (s_epoch s) (s_configFails s) (s_transientFails s) (s_healthFails s) (s_retryAttempt s)
    (s_ownershipToken s) (s_unit s) (s_unitEpoch s) (s_adopted s)
    (s_pendingTimer s) (s_healthInFlight s) (s_spawnInFlight s) (s_healthValid s)
    (s_startupSince s) (s_recoveryStop s) (s_recoveryActive s) (s_closed s)
    (s_timers s) (s_nextTimer s) (s_due s) (s_units s) (s_watchers s) (s_recoveries s) (s_trace s).

Definition NewSupervisor : Supervisor :=
  mkSupervisor PhaseStopped 0 0 0 0 0 "" None 0 false None false false false 0 false false false
    ∅ 0 [] 0 [] 0 [].

(** ** Under the mutex *)

Section Supervise.
Context `{UnicodeTables} `{Dependencies} (snap : Snapshot).
Implicit Types (s : Supervisor).

Definition call s (c : Call) : Supervisor := s <| s_trace := s_trace s ++ [c] |>.

Definition position s : nat := length (s_trace s).

Definition clock s : Time * Supervisor := let t := dep_now (position s) in (t, call s (Now t)).

Definition ms (n : Z) : Duration := wrap64 (wrap64 n * Millisecond).

Definition cancelTimerLocked s : Supervisor :=
  match s_pendingTimer s with
  | Some id => s <| s_timers := delete id (s_timers s) |> <| s_pendingTimer := None |>
  | None => s
  end.

Definition scheduleLocked (d : Duration) (fn : Callback) s : Supervisor :=
  let s := cancelTimerLocked s in
  s <| s_timers := <[s_nextTimer s := mkArmed d fn (s_epoch s)]> (s_timers s) |>
    <| s_pendingTimer := Some (s_nextTimer s) |>
    <| s_nextTimer := S (s_nextTimer s) |>.

Definition recordLocked (kind : EventKind) (class reason : string) s : Supervisor :=
  let '(now, s) := clock s in
  call s (Recorded (mkEvent now kind (s_phase s) (sn_Generation snap) (s_epoch s) class (s_retryAttempt s) 0
                      None reason "")).

Definition backoffDelayLocked s : Duration :=
  let secs := th_BackoffSeconds (sn_Thresholds snap) in
  if bool_decide (secs = []) then Second
  else
    let idx := Z.max 0 (s_retryAttempt s - 1) in
    let idx := Z.min idx (Z.of_nat (length secs) - 1) in
    wrap64 (Z.min 60 (default 0 (secs !! Z.to_nat idx)) * Second).

Definition enterFailedLocked (class reason : string) s : Supervisor :=
  let s := cancelTimerLocked (s <| s_phase := PhaseFailed |>) in
  let '(now, s) := clock s in
  call s (Recorded (mkEvent now KindFailed (s_phase s) (sn_Generation snap) (s_epoch s) class (s_retryAttempt s) 0
                      None reason reason)).

Definition enterBackoffLocked (class reason : string) s : Supervisor :=
  let s := s <| s_phase := PhaseBackoff |> in
  let delay := backoffDelayLocked s in
  let '(now, s) := clock s in
  let s := call s (Recorded (mkEvent now KindBackoff (s_phase s) (sn_Generation snap) (s_epoch s) class
                               (s_retryAttempt s) (Z.quot delay Millisecond) None reason "")) in
  scheduleLocked delay CbBackoff s.

Definition noteConfigLocked (reason : string) s : Supervisor :=
  let s := s <| s_configFails := s_configFails s + 1 |> <| s_retryAttempt := s_retryAttempt s + 1 |> in
  if th_ConfigTerminalThreshold (sn_Thresholds snap) <=? s_configFails s
  then enterFailedLocked "configuration" reason s else enterBackoffLocked "configuration" reason s.

Definition noteTransientLocked (reason : string) s : Supervisor :=
  let s := s <| s_transientFails := s_transientFails s + 1 |> <| s_retryAttempt := s_retryAttempt s + 1 |> in
  if th_TransientTerminalThreshold (sn_Thresholds snap) <=? s_transientFails s
  then enterFailedLocked "transient" reason s else enterBackoffLocked "transient" reason s.

Definition startupBudgetExpiredLocked s : bool * Supervisor :=
  let '(now, s) := clock s in
  if IsZero (s_startupSince s) then (false, s <| s_startupSince := now |>)
  else (ms (th_StartupBudgetMS (sn_Thresholds snap)) <=? Sub now (s_startupSince s), s).

Definition scheduleHealthCadenceLocked s : Supervisor :=
  if bool_decide (s_phase s = PhaseFailed) || bool_decide (s_phase s = PhaseStopped) then s
  else
    let cadence := ms (th_HealthCadenceMS (sn_Thresholds snap)) in
    if IsZero (s_startupSince s) then scheduleLocked cadence CbHealth s
    else
      let '(now, s) := clock s in
      let remaining := wrap64 (ms (th_StartupBudgetMS (sn_Thresholds snap)) - Sub now (s_startupSince s)) in
      scheduleLocked (if remaining <? cadence then Z.max remaining 0 else cadence) CbHealth s.

(** onHealthLocked, issueHealthLocked, spawnOnceLocked, runProbeCycleLocked and
    beginGracefulRestartLocked call each other in a circle.  Each takes the restart it may
    come to; [None] is a restart that is out of fuel. *)
Section Circle.
Variable restart : Supervisor -> option Supervisor.

Definition onHealthLocked (res : HealthResult) s : option Supervisor :=
  let s := recordLocked KindHealth (hr_Status res) (hr_Reason res) s in
  if hr_Healthy res && bool_decide (hr_Status res = HealthStatusOK) then
    let s := s <| s_healthValid := true |> <| s_healthFails := 0 |> <| s_configFails := 0 |>
               <| s_transientFails := 0 |> <| s_retryAttempt := 0 |> <| s_phase := PhaseReady |>
               <| s_startupSince := 0 |> in
    Some (scheduleHealthCadenceLocked (recordLocked KindReady HealthStatusOK "status_ok" s))
  else match s_phase s with
  | PhaseReady =>
    let s := s <| s_healthFails := s_healthFails s + 1 |> in
    if th_HealthRestartThreshold (sn_Thresholds snap) <=? s_healthFails s then restart s
    else Some (scheduleHealthCadenceLocked s)
  | PhaseStarting | PhaseAlreadyRunning | PhaseBackoff | PhaseRestarting =>
    let '(expired, s) := startupBudgetExpiredLocked s in
    if expired then
      Some (noteTransientLocked "startup_budget_expired"
              (recordLocked KindBudgetExpiry "transient" "startup_budget_expired" s))
    else Some (scheduleHealthCadenceLocked s)
  | _ => Some (scheduleHealthCadenceLocked s)
  end.

(** The probe answers while the mutex is held, so neither [closed] nor the epoch can have
    changed when it returns. *)
Definition issueHealthLocked s : option Supervisor :=
  if s_healthInFlight s then Some s
  else
    let s := s <| s_healthInFlight := true |> in
    let epoch := s_epoch s in
    let answer := dep_health (position s) in
    let s := call s (HealthProbed answer) in
    let res := default (mkHealth "" false "health_error" 0) answer in
    if s_closed s || negb (epoch =? s_epoch s) then
      Some (recordLocked KindStaleDiscard "" "stale_health_result" (s <| s_healthInFlight := false |>))
    else
      let s := s <| s_healthInFlight := false |> in
      let '(at_, s) := if IsZero (hr_At res) then clock s else (hr_At res, s) in
      onHealthLocked (mkHealth (hr_Status res) (hr_Healthy res) (hr_Reason res) at_) s.

Definition spawnOnceLocked s : option Supervisor :=
  if s_spawnInFlight s then Some s
  else
    let s := s <| s_spawnInFlight := true |> in
    let argv := BuildWSLExecArgv (BuildLaunchSpec snap) in
    if negb (ValidateLaunchArgv argv (sn_Distribution snap) (sn_LinuxUser snap)) then
      Some (noteConfigLocked "invalid_launch" (s <| s_spawnInFlight := false |>))
    else
      let ok := dep_start (position s) in
      let s := call s (Started argv ok) in
      if negb ok then Some (noteTransientLocked "spawn_error" (s <| s_spawnInFlight := false |>))
      else
        let s := s <| s_unit := Some (s_units s) |> <| s_adopted := false |> <| s_unitEpoch := s_epoch s |> in
        let s := recordLocked KindSpawn "" "direct_foreground_exec" s in
        let s := s <| s_watchers := (s_units s, s_unitEpoch s) :: s_watchers s |> <| s_units := S (s_units s) |> in
        issueHealthLocked s.

Definition runProbeCycleLocked s : option Supervisor :=
  let s := cancelTimerLocked s in
  let answer := dep_probe (position s) in
  let s := call s (Probed answer) in
  match answer with
  | None => Some (noteTransientLocked "probe_error" (recordLocked KindProbe ProbeClassUnknown "probe_error" s))
  | Some pr =>
    let s := recordLocked KindProbe (pr_Class pr) (pr_Reason pr) s in
    if bool_decide (pr_Class pr = ProbeClassMatchedRunning) then
      let s := s <| s_ownershipToken := pr_OwnershipToken pr |> <| s_adopted := true |>
                 <| s_unitEpoch := s_epoch s |> <| s_phase := PhaseAlreadyRunning |> in
      let s := recordLocked KindAdopt (pr_Class pr) "adopted_matched_instance" s in
      issueHealthLocked (recordLocked KindAlreadyRunning (pr_Class pr) "already_running" s)
    else if bool_decide (pr_Class pr = ProbeClassAbsent) then spawnOnceLocked s
    else if bool_decide (pr_Class pr = ProbeClassMismatch) then Some (noteConfigLocked "probe_mismatch" s)
    else if bool_decide (pr_Class pr = ProbeClassUnknown) then Some (noteTransientLocked "probe_unknown" s)
    else Some (noteTransientLocked "probe_unclassified" s)
  end.

(** Stopping what is to be restarted: by the recovery stop, or by a signal to the owner of
    the token. *)
Definition stop_unit s : option Supervisor :=
  if s_recoveryStop s && negb (s_recoveryActive s) then
    Some (s <| s_recoveryActive := true |> <| s_recoveries := S (s_recoveries s) |>)
  else
    let s := if bool_decide (s_ownershipToken s = "") then s else call s (StopSent (s_ownershipToken s)) in
    match s_unit s with
    | Some _ => Some s
    | None => runProbeCycleLocked (s <| s_phase := PhaseStarting |>)
    end.

Definition beginGracefulRestartLocked s : option Supervisor :=
  let s := recordLocked KindGracefulRestart "" "health_restart_threshold" s in
  let s := cancelTimerLocked (s <| s_phase := PhaseRestarting |> <| s_healthFails := 0 |>) in
  let '(now, s) := clock (s <| s_healthInFlight := false |>) in
  stop_unit (s <| s_startupSince := now |>).

End Circle.

Fixpoint gracefulRestart (fuel : nat) s : option Supervisor :=
  match fuel with
  | O => None
  | S fuel => beginGracefulRestartLocked (gracefulRestart fuel) s
  end.

(** A restart does not come to another one ([probeCycle_total] and the theorems on runs). *)
Definition restarts : nat := 1.

Definition issueHealth s : option Supervisor := issueHealthLocked (gracefulRestart restarts) s.
Definition probeCycle s : option Supervisor := runProbeCycleLocked (gracefulRestart restarts) s.

(** ** The entry points *)

Definition Start s : option Supervisor :=
  if s_closed s then Some s
  else
    let s := s <| s_epoch := u64 (s_epoch s + 1) |> in
    let s := cancelTimerLocked s <| s_healthInFlight := false |> <| s_spawnInFlight := false |>
               <| s_phase := PhaseStarting |> in
    let '(now, s) := clock s in
    probeCycle (recordLocked KindStart "" "lifecycle_start" (s <| s_startupSince := now |>)).

Definition SetRecoveryStop s : Supervisor := s <| s_recoveryStop := true |>.

Definition Close s : Supervisor := cancelTimerLocked (s <| s_closed := true |>).

Definition OnResume s : Supervisor :=
  if s_closed s || bool_decide (s_phase s = PhaseFailed) || bool_decide (s_phase s = PhaseStopped) then s
  else
    let s := s <| s_healthValid := false |> <| s_healthFails := 0 |> <| s_healthInFlight := false |> in
    let s := cancelTimerLocked s <| s_epoch := u64 (s_epoch s + 1) |> in
    let s := recordLocked KindResume "" "windows_resume" s in
    scheduleLocked 0 CbResume (recordLocked KindHealthInvalidate "" "pre_resume_health_discarded" s).

Definition OnChildExit (exitCode unitEpoch : Z) s : option Supervisor :=
  if s_closed s then Some s
  else if negb (unitEpoch =? s_unitEpoch s) then Some (recordLocked KindStaleDiscard "" "stale_child_exit" s)
  else
    let '(now, s) := clock s in
    let s := call s (Recorded (mkEvent now KindChildExit (s_phase s) (sn_Generation snap) (s_epoch s) "" 0 0
                                 (Some exitCode) "unit_exited" "")) in
    let s := s <| s_unit := None |> <| s_ownershipToken := "" |> <| s_adopted := false |>
               <| s_spawnInFlight := false |> in
    match s_phase s with
    | PhaseFailed | PhaseStopped => Some s
    | PhaseRestarting =>
      if s_recoveryActive s then Some s
      else
        let '(now, s) := clock (s <| s_phase := PhaseStarting |>) in
        probeCycle (s <| s_startupSince := now |>)
    | _ => Some (noteTransientLocked "child_exit" s)
    end.

Definition DeliverHealth (res : HealthResult) (epoch : Z) s : option Supervisor :=
  if s_closed s then Some s
  else if negb (epoch =? s_epoch s) then Some (recordLocked KindStaleDiscard "" "stale_health" s)
  else onHealthLocked (gracefulRestart restarts) res (s <| s_healthInFlight := false |>).

(** What the recovery reads of the outcome of the stop. *)
Definition onRecoveryStop (rejected : bool) s : option Supervisor :=
  let s := s <| s_recoveryActive := false |> in
  if s_closed s || negb (bool_decide (s_phase s = PhaseRestarting)) then Some s
  else if rejected then Some (noteTransientLocked "recovery_stop_rejected" s)
  else
    let s := s <| s_unit := None |> <| s_ownershipToken := "" |> <| s_adopted := false |>
               <| s_spawnInFlight := false |> <| s_epoch := u64 (s_epoch s + 1) |> <| s_phase := PhaseStarting |> in
    let '(now, s) := clock s in
    probeCycle (s <| s_startupSince := now |>).

(** The callbacks of the timers, once they have the mutex. *)
Definition run_callback (cb : Callback) (epoch : Z) s : option Supervisor :=
  let stale := s_closed s || negb (epoch =? s_epoch s) in
  match cb with
  | CbResume =>
    if stale then Some (recordLocked KindStaleDiscard "" "stale_resume_timer" s)
    else match s_phase s with
         | PhaseFailed | PhaseStopped => Some s
         | PhaseReady | PhaseAlreadyRunning => issueHealth s
         | _ => probeCycle (s <| s_phase := PhaseStarting |>)
         end
  | CbHealth =>
    if stale then Some (recordLocked KindStaleDiscard "" "stale_health_timer" s)
    else match s_phase s with
         | PhaseFailed | PhaseStopped | PhaseBackoff => Some s
         | _ => issueHealth s
         end
  | CbBackoff =>
    if stale then Some (recordLocked KindStaleDiscard "" "stale_backoff_timer" s)
    else if negb (bool_decide (s_phase s = PhaseBackoff)) then Some s
    else
      let s := s <| s_epoch := u64 (s_epoch s + 1) |> <| s_healthInFlight := false |> <| s_spawnInFlight := false |>
                 <| s_phase := PhaseStarting |> in
      let '(now, s) := clock s in
      probeCycle (s <| s_startupSince := now |>)
  end.

(** ** Runs *)

(** What can happen next: a call from outside, a timer that fires (whether it is stopped
    later or not), a fired callback that gets the mutex, a unit that exits, a recovery stop
    that returns.  service.go and service_windows.go call Start once, and the
    program has no call of DeliverHealth. *)
Inductive Input :=
| IStart | ISetRecoveryStop | IClose | IResume
| IFire (id : nat) | IRun (n : nat) | IExit (n : nat) (exitCode : Z) | IRecovered (rejected : bool).

(** Whether the input can happen. *)
Definition enabled (i : Input) s : bool :=
  match i with
  | IStart => bool_decide (s_phase s = PhaseStopped)
  | IFire id => bool_decide (s_timers s !! id <> None)
  | IRun n => bool_decide (s_due s !! n <> None)
  | IExit n _ => bool_decide (s_watchers s !! n <> None)
  | IRecovered _ => (0 <? s_recoveries s)%nat
  | _ => true
  end.

(** [None]: it cannot, or the fuel is out. *)
Definition input (i : Input) s : option Supervisor :=
  match i with
  | IStart => Start s
  | ISetRecoveryStop => Some (SetRecoveryStop s)
  | IClose => Some (Close s)
  | IResume => Some (OnResume s)
  | IFire id =>
    armed ← s_timers s !! id;
    Some (s <| s_timers := delete id (s_timers s) |> <| s_due := s_due s ++ [(ar_callback armed, ar_epoch armed)] |>)
  | IRun n => due ← s_due s !! n; run_callback due.1 due.2 (s <| s_due := delete n (s_due s) |>)
  | IExit n exitCode =>
    watcher ← s_watchers s !! n; OnChildExit exitCode watcher.2 (s <| s_watchers := delete n (s_watchers s) |>)
  | IRecovered rejected => onRecoveryStop rejected (s <| s_recoveries := pred (s_recoveries s) |>)
  end.

(** NewServiceHost connects the recovery stop before anything runs. *)
Definition wired : Supervisor := SetRecoveryStop NewSupervisor.

Inductive reachable : Supervisor -> Prop :=
| reach_init : reachable wired
| reach_step s i s' : reachable s -> enabled i s = true -> input i s = Some s' -> reachable s'.

End Supervise.
