(* ===== verification/WslSupervisorFacts.v ===== *)
(** * platform/wslhost: the supervisor over every run

    No recursion runs out of fuel, the retry budgets hold, the server is started only
    after a probe that found nothing, and something always wakes the supervisor again,
    except where a resume meets a start that is under way. *)

From Stdlib Require Import String.
From S2P Require Import Prelude GoStd GoStrings HostState WslSupervisor.

(** ** What a trace shows *)

(** Whether every start follows a probe that answered absent, with no other call to the
    outside in between, and has the command line of the registration; whether the last call outside was such a probe; the starts since the
    server was last healthy; whether Windows resumed. *)
Record View := mkView { v_guarded : bool; v_absent : bool; v_starts : Z; v_resumed : bool }.

Section Facts.
Context `{UnicodeTables} `{Dependencies} (snap : Snapshot).
Implicit Types (s : Supervisor).
Hypothesis Hthresholds : thresholds_complete (sn_Thresholds snap) = true.

Definition launchable (argv : list string) : bool :=
  bool_decide (argv = BuildWSLExecArgv (BuildLaunchSpec snap))
  && ValidateLaunchArgv argv (sn_Distribution snap) (sn_LinuxUser snap).

#[local] Arguments launchable : simpl never.

Definition view_step (v : View) (c : Call) : View :=
  match c with
  | Now _ => v
  | Probed answer =>
    let absent := match answer with Some pr => bool_decide (pr_Class pr = ProbeClassAbsent) | None => false end in
    mkView (v_guarded v) absent (v_starts v) (v_resumed v)
  | Started argv _ => mkView (v_guarded v && v_absent v && launchable argv) false (v_starts v + 1) (v_resumed v)
  | HealthProbed _ | StopSent _ => mkView (v_guarded v) false (v_starts v) (v_resumed v)
  | Recorded ev =>
    match ev_Kind ev with
    | KindReady => mkView (v_guarded v) (v_absent v) 0 (v_resumed v)
    | KindResume => mkView (v_guarded v) (v_absent v) (v_starts v) true
    | _ => v
    end
  end.

Definition view_of (trace : list Call) : View := foldl view_step (mkView true false 0 false) trace.

#[local] Arguments view_of : simpl never.

Lemma view_snoc l c : view_of (l ++ [c]) = view_step (view_of l) c.
Proof. unfold view_of. by rewrite foldl_app. Qed.

(** ** The invariant *)

Abbreviation view s := (view_of (s_trace s)).
Abbreviation th := (sn_Thresholds snap).

Lemma thresholds_positive :
  0 < th_HealthRestartThreshold th /\ 0 < th_ConfigTerminalThreshold th /\ 0 < th_TransientTerminalThreshold th.
Proof. revert Hthresholds. unfold thresholds_complete. rewrite !andb_true_iff, !Z.ltb_lt. naive_solver. Qed.

(** A callback that will run in the current epoch: its timer is armed, or it has fired. *)
Definition pending s (cb : Callback) : Prop :=
  (exists id a, s_timers s !! id = Some a /\ ar_callback a = cb) \/ (cb, s_epoch s) ∈ s_due s.

(** What will move the supervisor on.  [blocked] is the exception: starting, with a start
    marked as in flight, in a run in which Windows has resumed, now or before. *)
Definition blocked s : Prop := s_phase s = PhaseStarting /\ s_spawnInFlight s = true /\ v_resumed (view s) = true.

Definition awake s : Prop :=
  match s_phase s with
  | PhaseStopped | PhaseFailed => True
  | PhaseReady | PhaseAlreadyRunning => pending s CbHealth \/ pending s CbResume
  | PhaseStarting => pending s CbHealth \/ pending s CbResume \/ blocked s
  | PhaseBackoff => pending s CbBackoff \/ pending s CbResume
  | PhaseRestarting => s_recoveryActive s = true \/ pending s CbHealth \/ pending s CbResume
  end.

(** The starts a phase allows since the last healthy answer. *)
Definition allowance s : Z :=
  s_retryAttempt s + match s_phase s with PhaseStarting | PhaseAlreadyRunning => 1 | _ => 0 end.

Record Core s : Prop := {
  c_retry : s_retryAttempt s = s_configFails s + s_transientFails s;
  c_config : 0 <= s_configFails s <= th_ConfigTerminalThreshold th;
  c_transient : 0 <= s_transientFails s <= th_TransientTerminalThreshold th;
  c_running : s_phase s <> PhaseFailed ->
    s_configFails s < th_ConfigTerminalThreshold th /\ s_transientFails s < th_TransientTerminalThreshold th;
  c_health : 0 <= s_healthFails s < th_HealthRestartThreshold th;
  c_flight : s_healthInFlight s = false;
  c_timers : forall id a, s_timers s !! id = Some a -> s_pendingTimer s = Some id /\ ar_epoch a = s_epoch s;
  c_recovery : s_recoveries s = if s_recoveryActive s then 1%nat else 0%nat;
  c_wired : s_recoveryStop s = true;
  c_spawn : s_spawnInFlight s = true -> s_unit s <> None;
  c_resume : v_resumed (view s) = false ->
    (forall id a, s_timers s !! id = Some a -> ar_callback a <> CbResume) /\ Forall (fun d => d.1 <> CbResume) (s_due s);
  c_guarded : v_guarded (view s) = true;
  c_starts : v_resumed (view s) = false -> v_starts (view s) <= allowance s }.

(** No timer is armed. *)
Definition cleared s : Supervisor := s <| s_timers := ∅ |> <| s_pendingTimer := None |>.

Lemma cancel_cleared s :
  (forall id a, s_timers s !! id = Some a -> s_pendingTimer s = Some id) -> cancelTimerLocked s = cleared s.
Proof.
  intros Honly. unfold cancelTimerLocked, cleared.
  assert (forall m : gmap nat Armed, (forall id a, m !! id = Some a -> s_timers s !! id = Some a) ->
    (forall id, s_pendingTimer s = Some id -> m !! id = None) -> m = ∅) as Hempty.
  { intros m Hm Hp. apply map_eq. intros id. rewrite lookup_empty. destruct (m !! id) as [a|] eqn:Ha; [|done].
    specialize (Hm _ _ Ha). apply Honly in Hm. rewrite Hp in Ha by done. done. }
  destruct (s_pendingTimer s) as [id|] eqn:Hp.
  - rewrite (Hempty (delete id (s_timers s))); [done| |by intros ? [= <-]; apply lookup_delete_eq].
    intros i a [_ Hi]%lookup_delete_Some. done.
  - rewrite <- (Hempty (s_timers s)), <- Hp; [|done|done]. by destruct s.
Qed.

Lemma core_only s : Core s -> forall id a, s_timers s !! id = Some a -> s_pendingTimer s = Some id.
Proof. intros HC id a Ha. by destruct (c_timers s HC id a Ha). Qed.

Lemma core_cleared s : Core s -> Core (cleared s).
Proof. intros []. constructor; cbn; auto. all: try (intros ? ? ?; by simplify_map_eq). naive_solver. Qed.

(** Calls that leave the view as it is. *)
Lemma core_call s c : view_step (view s) c = view s -> Core s -> Core (call s c).
Proof. intros Hv []. constructor; cbn; rewrite ?view_snoc, ?Hv; auto. Qed.

Lemma core_clock s : Core s -> Core (clock s).2.
Proof. by apply core_call. Qed.

Lemma view_record kind class reason s : kind <> KindReady -> kind <> KindResume ->
  view (recordLocked snap kind class reason s) = view s.
Proof. intros H1 H2. cbn. rewrite !view_snoc. by destruct kind. Qed.

Lemma core_record kind class reason s : kind <> KindReady -> kind <> KindResume ->
  Core s -> Core (recordLocked snap kind class reason s).
Proof.
  intros H1 H2 HC. pose proof (view_record kind class reason s H1 H2) as Hv. destruct HC.
  constructor; rewrite ?Hv; cbn; auto.
Qed.

(** The post-condition of what runs under the mutex. *)
Definition settled s s' : Prop := Core s' /\ awake s' /\ s_closed s' = s_closed s.

Lemma core_schedule d cb s : Core s -> (cb = CbResume -> v_resumed (view s) = true) ->
  Core (scheduleLocked d cb s) /\ pending (scheduleLocked d cb s) cb
  /\ s_phase (scheduleLocked d cb s) = s_phase s /\ s_closed (scheduleLocked d cb s) = s_closed s.
Proof.
  intros HC Hcb. unfold scheduleLocked. rewrite (cancel_cleared s (core_only s HC)). split; [|split; [|done]].
  - destruct HC. constructor; cbn; auto.
    + intros id a Ha. apply lookup_insert_Some in Ha as [[<- <-]|[_ Ha]]; [done|by rewrite lookup_empty in Ha].
    + intros Hr. split; [|naive_solver]. intros id a Ha.
      apply lookup_insert_Some in Ha as [[<- <-]|[_ Ha]]; [|by rewrite lookup_empty in Ha].
      simpl. intros ->. rewrite Hcb in Hr by done. done.
  - left. eexists _, _. split; [apply lookup_insert_eq|done].
Qed.

Lemma backoff_settled class reason s :
  Core s -> v_starts (view s) <= s_retryAttempt s \/ v_resumed (view s) = true -> s_phase s <> PhaseFailed ->
  settled s (enterBackoffLocked snap class reason s).
Proof.
  intros HC Hst Hph. unfold enterBackoffLocked. cbv zeta. cbn [clock].
  match goal with |- settled _ (scheduleLocked ?d ?cb ?s2) =>
    assert (Core s2) as HC2; [|destruct (core_schedule d cb s2 HC2) as (HC3 & Hp & Hphase & Hcl); [done|]] end.
  - destruct HC. constructor; cbn; rewrite ?view_snoc; cbn; auto. all: intros; unfold allowance; cbn; destruct Hst; auto; congruence || lia.
  - split; [done|]. split; [|done]. unfold awake. rewrite Hphase. cbn. by left.
Qed.

Lemma core_allowance s : Core s -> v_starts (view s) <= s_retryAttempt s + 1 \/ v_resumed (view s) = true.
Proof.
  intros HC. destruct (v_resumed (view s)) eqn:Hr; [by right|]. left.
  pose proof (c_starts s HC Hr) as Hs. unfold allowance in Hs. destruct (s_phase s); lia.
Qed.

(** A failure has been counted: the supervisor gives up, or waits. *)
Lemma counted_settled (over : bool) class reason s :
  Core (s <| s_phase := PhaseFailed |>) -> (over = false -> Core s) -> s_phase s <> PhaseFailed ->
  v_starts (view s) <= s_retryAttempt s \/ v_resumed (view s) = true ->
  settled s (if over then enterFailedLocked snap class reason s else enterBackoffLocked snap class reason s).
Proof.
  intros HF HC Hph Hst. destruct over; [|by apply backoff_settled; auto].
  unfold enterFailedLocked. cbv zeta. rewrite (cancel_cleared _ (core_only _ HF)). cbn [clock].
  apply core_cleared in HF. split; [|done]. destruct HF. constructor; cbn; rewrite ?view_snoc; cbn; auto.
Qed.

Ltac count_failure HC :=
  destruct HC; constructor; cbn; auto; try lia; try done;
  intros; try match goal with H : ?r = false -> _ <= _, H' : ?r = false |- _ => specialize (H H') end;
  unfold allowance in *; cbn in *; destruct_or?; try congruence; lia.

Lemma noteTransient_settled reason s :
  Core s -> s_phase s <> PhaseFailed -> settled s (noteTransientLocked snap reason s).
Proof.
  intros HC Hph. pose proof (core_allowance s HC) as Hst. destruct (c_running s HC Hph) as [Hc Ht].
  unfold noteTransientLocked. cbv zeta.
  match goal with |- settled s (if _ then _ ?s1 else _) => apply (counted_settled _ _ _ s1) end; [| |exact Hph|].
  - count_failure HC.
  - intros Hthr%Z.leb_gt. cbn in Hthr. count_failure HC.
  - cbn. destruct Hst; [left; lia|by right].
Qed.

Lemma noteConfig_settled reason s :
  Core s -> s_phase s <> PhaseFailed -> settled s (noteConfigLocked snap reason s).
Proof.
  intros HC Hph. pose proof (core_allowance s HC) as Hst. destruct (c_running s HC Hph) as [Hc Ht].
  unfold noteConfigLocked. cbv zeta.
  match goal with |- settled s (if _ then _ ?s1 else _) => apply (counted_settled _ _ _ s1) end; [| |exact Hph|].
  - count_failure HC.
  - intros Hthr%Z.leb_gt. cbn in Hthr. count_failure HC.
  - cbn. destruct Hst; [left; lia|by right].
Qed.

Lemma cadence_settled s : Core s -> s_phase s <> PhaseBackoff -> settled s (scheduleHealthCadenceLocked snap s).
Proof.
  intros HC Hph. unfold scheduleHealthCadenceLocked. cbv zeta.
  destruct (bool_decide (s_phase s = PhaseFailed) || bool_decide (s_phase s = PhaseStopped)) eqn:Hout.
  { split; [done|]. split; [|done]. unfold awake. by destruct (s_phase s). }
  assert (forall d s1, Core s1 -> s_phase s1 = s_phase s -> s_closed s1 = s_closed s ->
    settled s (scheduleLocked d CbHealth s1)) as Hsched.
  { intros d s1 HC1 Hp1 Hc1. destruct (core_schedule d CbHealth s1 HC1) as (HC2 & Hp & Hphase & Hcl); [done|].
    split; [done|]. split; [|congruence]. unfold awake. rewrite Hphase, Hp1. destruct (s_phase s); auto. done. }
  destruct (IsZero _); [by apply Hsched|]. cbn [clock]. apply Hsched; [by apply core_clock|done|done].
Qed.

(** A restart that is begun in the ready phase settles. *)
Definition restart_ok (restart : Supervisor -> option Supervisor) : Prop :=
  forall s, Core (s <| s_healthFails := 0 |>) -> s_phase s = PhaseReady -> s_closed s = false ->
    exists s', restart s = Some s' /\ settled s s'.

Lemma settled_mono s1 s s' : s_closed s1 = s_closed s -> settled s1 s' -> settled s s'.
Proof. intros Hc (? & ? & ?). split; [done|]. split; [done|congruence]. Qed.

Ltac mono := match goal with |- settled _ (_ ?s1) => apply (settled_mono s1); [cbn; congruence|] end.

Lemma budget_core s : Core s ->
  let s' := (startupBudgetExpiredLocked snap s).2 in Core s' /\ s_phase s' = s_phase s /\ s_closed s' = s_closed s.
Proof.
  intros HC%core_clock. unfold startupBudgetExpiredLocked. cbn [clock]. destruct (IsZero _); [|done].
  split; [|done]. destruct HC. constructor; cbn; auto.
Qed.

Lemma onHealth_settled restart res s :
  (s_phase s = PhaseReady -> restart_ok restart) -> Core s -> s_phase s <> PhaseBackoff -> s_closed s = false ->
  exists s', onHealthLocked snap restart res s = Some s' /\ settled s s'.
Proof.
  intros Hrestart HC Hph Hcl. pose proof thresholds_positive as (Ht1 & Ht2 & Ht3). unfold onHealthLocked. cbv zeta.
  apply (core_record KindHealth (hr_Status res) (hr_Reason res)) in HC; [|done|done].
  set (s1 := recordLocked snap KindHealth (hr_Status res) (hr_Reason res) s) in *.
  assert (s_phase s1 = s_phase s) as Hp1 by done. assert (s_closed s1 = s_closed s) as Hc1 by done. clearbody s1.
  rewrite <- Hp1 in Hrestart, Hph.
  assert (forall s', settled s1 s' -> settled s s') as Hmono by (intros s'; by apply settled_mono).
  destruct (_ && _).
  - eexists. split; [done|]. apply Hmono. mono. apply cadence_settled; [|done].
    destruct HC. constructor; cbn; rewrite ?view_snoc; cbn; auto; try lia. intros _. unfold allowance. cbn. lia.
  - destruct (s_phase s1) eqn:Hp.
    3: { destruct (_ <=? _) eqn:Hthr.
         - destruct (Hrestart eq_refl (s1 <| s_healthFails := s_healthFails s1 + 1 |>)) as (s' & -> & Hs'); [|done|cbn; congruence|].
           + destruct HC. constructor; cbn; auto. lia.
           + exists s'. split; [done|]. apply Hmono. exact Hs'.
         - apply Z.leb_gt in Hthr. cbn in Hthr. eexists. split; [done|]. apply Hmono.
           mono. apply cadence_settled; [|cbn; congruence].
           destruct HC. constructor; cbn; auto. lia. }
    3: done.
    all: try (eexists; split; [done|]; apply Hmono, cadence_settled; [done|congruence]).
    all: pose proof (budget_core s1 HC) as (HC2 & Hp2 & Hc2);
      destruct (startupBudgetExpiredLocked snap s1) as [[] s2]; cbn [snd] in *; (eexists; split; [done|]); apply Hmono.
    all: mono; first [apply noteTransient_settled; [by apply core_record|] | apply cadence_settled; [done|]]; cbn; congruence.
Qed.

Lemma issueHealth_settled restart s :
  (s_phase s = PhaseReady -> restart_ok restart) -> Core s -> s_phase s <> PhaseBackoff -> s_closed s = false ->
  exists s', issueHealthLocked snap restart s = Some s' /\ settled s s'.
Proof.
  intros Hrestart HC Hph Hcl. unfold issueHealthLocked. rewrite (c_flight s HC). cbv zeta.
  match goal with |- context [s_closed ?c || _] => set (s0 := c) end.
  change (s_closed s0) with (s_closed s). rewrite Hcl, Z.eqb_refl. cbn [orb negb].
  set (s1 := s0 <| s_healthInFlight := false |>).
  assert (Core s1) as HC1.
  { destruct HC. constructor; cbn; rewrite ?view_snoc; cbn; auto. }
  destruct (if IsZero _ then clock s1 else _) as [at_ s2] eqn:Hs2.
  assert (Core s2 /\ s_phase s2 = s_phase s /\ s_closed s2 = s_closed s) as (HC2 & Hp2 & Hc2).
  { destruct (IsZero _); [|by simplify_eq]. pose proof (core_clock s1 HC1) as Hk. rewrite Hs2 in Hk.
    split; [done|]. by injection Hs2 as _ <-. }
  match goal with |- context [onHealthLocked snap restart ?res s2] =>
    destruct (onHealth_settled restart res s2) as (s' & Hs' & Hset); [by rewrite Hp2|done|by rewrite Hp2|congruence|] end.
  exists s'. split; [exact Hs'|]. by apply (settled_mono s2).
Qed.

(** A probe cycle begins in the starting phase; a start that is in flight dates from before
    a resume; and the retries allow one more start. *)
Record fresh s : Prop := {
  f_phase : s_phase s = PhaseStarting;
  f_open : s_closed s = false;
  f_spawn : s_spawnInFlight s = true -> v_resumed (view s) = true;
  f_starts : v_resumed (view s) = false -> v_starts (view s) <= s_retryAttempt s }.

Lemma spawn_settled restart s :
  Core s -> fresh s -> v_absent (view s) = true -> exists s', spawnOnceLocked snap restart s = Some s' /\ settled s s'.
Proof.
  intros HC [Hph Hcl Hsp Hst] Habs. unfold spawnOnceLocked. cbv zeta. destruct (s_spawnInFlight s) eqn:Hfl.
  { exists s. split; [done|]. split; [done|]. split; [|done]. unfold awake. rewrite Hph. right; right. by split; auto. }
  destruct (ValidateLaunchArgv _ _ _) eqn:Hval; cbn [negb].
  2: { eexists. split; [done|]. mono. apply noteConfig_settled; [|cbn; congruence]. destruct HC. constructor; cbn; auto. }
  assert (launchable (BuildWSLExecArgv (BuildLaunchSpec snap)) = true) as Hl.
  { unfold launchable. by rewrite bool_decide_true, Hval. }
  destruct (dep_start _); cbn [negb].
  - match goal with |- context [issueHealthLocked snap restart ?s1] =>
      destruct (issueHealth_settled restart s1) as (s' & Hs' & Hset) end;
      [cbn; congruence| |cbn; congruence|done|by exists s'].
    destruct HC. constructor; cbn; rewrite ?view_snoc; cbn; auto. { rewrite c_guarded0, Habs. exact Hl. }
    intros Hr. unfold allowance. cbn. rewrite Hph. specialize (Hst Hr). lia.
  - eexists. split; [done|]. mono. apply noteTransient_settled; [|cbn; congruence].
    destruct HC. constructor; cbn; rewrite ?view_snoc; cbn; auto. { rewrite c_guarded0, Habs. exact Hl. }
    intros Hr. unfold allowance. cbn. rewrite Hph. specialize (Hst Hr). lia.
Qed.

Lemma probeCycle_settled restart s :
  (forall id a, s_timers s !! id = Some a -> s_pendingTimer s = Some id) -> Core (cleared s) -> fresh s ->
  exists s', runProbeCycleLocked snap restart s = Some s' /\ settled s s'.
Proof.
  intros Honly HC Hf. unfold runProbeCycleLocked. rewrite (cancel_cleared s Honly). cbv zeta.
  assert (fresh (cleared s)) as [Hph Hcl Hsp Hst] by (by destruct Hf). set (s0 := cleared s) in *.
  assert (forall m, (exists s', m = Some s' /\ settled s0 s') -> exists s', m = Some s' /\ settled s s') as Hmono.
  { intros m (s' & -> & Hs'). exists s'. split; [done|]. by apply (settled_mono s0). }
  apply Hmono. clear Hmono Honly Hf. clearbody s0.
  assert (forall answer, Core (call s0 (Probed answer))) as HC1.
  { intros answer. destruct HC. constructor; cbn; rewrite ?view_snoc; cbn; auto. }
  destruct (dep_probe _) as [pr|].
  2: { eexists. split; [done|]. mono. apply noteTransient_settled; [by apply core_record|cbn; congruence]. }
  specialize (HC1 (Some pr)). set (s1 := recordLocked snap KindProbe _ _ _).
  assert (Core s1) as HC2 by (by apply core_record).
  case_bool_decide as Hm.
  { match goal with |- context [issueHealthLocked snap restart ?s2] =>
      destruct (issueHealth_settled restart s2) as (s' & Hs' & Hset) end;
      [done| |done|done|by exists s'].
    do 2 (apply core_record; [done|done|]). destruct HC2. constructor; cbn in *; auto; try done.
    { intros _. apply c_running0. congruence. }
    unfold allowance. cbn. rewrite !view_snoc. cbn. intros Hr. specialize (Hst Hr). lia. }
  case_bool_decide as Ha.
  { destruct (spawn_settled restart s1) as (s' & Hs' & Hset); [done| |by cbn; rewrite !view_snoc; cbn; rewrite bool_decide_true|by exists s'].
    split; cbn; rewrite ?view_snoc; cbn; auto. }
  do 2 (case_bool_decide; [eexists; split; [done|]; mono; first [apply noteConfig_settled|apply noteTransient_settled]; [done|cbn; congruence]|]).
  eexists. split; [done|]. mono. apply noteTransient_settled; [done|cbn; congruence].
Qed.

Lemma stop_unit_settled restart s : Core s -> s_phase s = PhaseRestarting -> s_closed s = false ->
  exists s', stop_unit snap restart s = Some s' /\ settled s s'.
Proof.
  intros HC Hph Hcl. unfold stop_unit. rewrite (c_wired s HC). destruct (s_recoveryActive s) eqn:Hact; cbn [andb negb].
  2: { eexists. split; [done|]. split; [|split; [|done]].
       - destruct HC. constructor; cbn; auto. by rewrite c_recovery0, Hact.
       - unfold awake. cbn. rewrite Hph. by left. }
  cbv zeta. set (s2 := if bool_decide _ then s else _).
  assert (Core s2) as HC2.
  { unfold s2. case_bool_decide; [done|]. destruct HC. constructor; cbn; rewrite ?view_snoc; cbn; auto. }
  assert (s_closed s2 = s_closed s /\ s_phase s2 = PhaseRestarting /\ s_recoveryActive s2 = true)
    as (Hc2 & Hp2 & Ha2) by (unfold s2; by case_bool_decide). clearbody s2.
  destruct (s_unit s2) eqn:Hu.
  { exists s2. split; [done|]. split; [done|]. split; [|done]. unfold awake. rewrite Hp2. by left. }
  destruct (probeCycle_settled restart (s2 <| s_phase := PhaseStarting |>)) as (s' & Hs' & Hset).
  - intros id a. apply (core_only _ HC2).
  - apply core_cleared in HC2. destruct HC2. constructor; cbn in *; auto.
    + intros _. apply c_running0. congruence.
    + intros Hr. specialize (c_starts0 Hr). unfold allowance in *. cbn in *. rewrite Hp2 in c_starts0. lia.
  - split; cbn; [done|congruence| |].
    + intros Hsp. by destruct (c_spawn s2 HC2 Hsp).
    + intros Hr. pose proof (c_starts s2 HC2 Hr) as Hst. unfold allowance in Hst. rewrite Hp2 in Hst. lia.
  - exists s'. split; [done|]. by apply (settled_mono (s2 <| s_phase := PhaseStarting |>)).
Qed.

Lemma restart_settled restart : restart_ok (beginGracefulRestartLocked snap restart).
Proof.
  intros s HC Hph Hcl. unfold beginGracefulRestartLocked. cbv zeta.
  set (r := recordLocked snap KindGracefulRestart _ _ s).
  assert (Core (r <| s_healthFails := 0 |>)) as HCr by (by apply (core_record KindGracefulRestart "" "health_restart_threshold") in HC).
  assert (s_closed r = s_closed s /\ s_phase r = PhaseReady) as [Hcr Hpr] by done. clearbody r. clear HC Hph.
  rewrite cancel_cleared by (intros id a; apply (core_only _ HCr)). cbn [clock].
  match goal with |- context [stop_unit snap restart ?c] => destruct (stop_unit_settled restart c) as (s' & Hs' & Hset) end.
  - apply core_cleared in HCr. destruct HCr. constructor; cbn; rewrite ?view_snoc; cbn; auto.
    + intros _. apply c_running0. cbn. congruence.
    + intros Hr. specialize (c_starts0 Hr). unfold allowance in *. cbn in *. by rewrite Hpr in c_starts0.
  - done.
  - cbn. congruence.
  - exists s'. split; [done|]. eapply settled_mono; [|done]. cbn. congruence.
Qed.

(** ** Every input *)

Definition Inv s : Prop := Core s /\ (s_closed s = false -> awake s).

Definition keeps (m : option Supervisor) : Prop := exists s', m = Some s' /\ Inv s'.

Lemma settled_keeps s m : (exists s', m = Some s' /\ settled s s') -> keeps m.
Proof. intros (s' & Hm & HC & Ha & _). exists s'. by split. Qed.

Lemma circle_ok : restart_ok (gracefulRestart snap restarts).
Proof. apply restart_settled. Qed.

(** A probe cycle from a state that differs from [s] in what the cycle sets. *)
Ltac begin_cycle HC :=
  match goal with |- keeps (probeCycle snap ?s1) => apply (settled_keeps s1), probeCycle_settled end;
  [intros id a; apply (core_only _ HC)
  |apply core_cleared in HC; destruct HC; constructor; cbn in *; rewrite ?view_snoc; cbn; auto; try done
  |split; cbn; rewrite ?view_snoc; cbn; auto; try done].

Lemma starts_idle s : Core s -> s_phase s <> PhaseStarting -> s_phase s <> PhaseAlreadyRunning ->
  v_resumed (view s) = false -> v_starts (view s) <= s_retryAttempt s.
Proof.
  intros HC H1 H2 Hr. pose proof (c_starts s HC Hr) as Hst. unfold allowance in Hst. destruct (s_phase s); done || lia.
Qed.

Lemma Start_keeps s : Core s -> s_phase s = PhaseStopped -> keeps (Start snap s).
Proof.
  intros HC Hph. unfold Start. destruct (s_closed s) eqn:Hcl.
  { exists s. split; [done|]. split; [done|congruence]. }
  cbv zeta. rewrite cancel_cleared by (intros id a; apply (core_only _ HC)). cbn [clock].
  pose proof (starts_idle s HC ltac:(congruence) ltac:(congruence)) as Hidle.
  apply core_cleared in HC. begin_cycle HC.
  - intros _. apply c_running0. congruence.
  - intros Hr. unfold allowance. cbn. specialize (Hidle Hr). lia.
Qed.

Lemma resume_keeps s : Inv s -> Inv (OnResume snap s).
Proof.
  intros [HC Haw]. unfold OnResume.
  destruct (s_closed s || _ || _) eqn:Hout; [done|]. apply orb_false_iff in Hout as [[Hcl Hf]%orb_false_iff Hst].
  apply bool_decide_eq_false in Hf, Hst. cbv zeta. pose proof thresholds_positive as (Ht & _).
  rewrite cancel_cleared by (intros id a; apply (core_only _ HC)).
  match goal with |- Inv (scheduleLocked ?d ?cb ?s1) => assert (Core s1) as HC1;
    [|destruct (core_schedule d cb s1 HC1) as (HC2 & Hp & Hphase & Hcl2)] end.
  - apply core_record; [done|done|]. apply core_cleared in HC. destruct HC.
    constructor; cbn; rewrite ?view_snoc; cbn; auto; done.
  - intros _. cbn. rewrite !view_snoc. done.
  - split; [done|]. intros _. unfold awake. rewrite Hphase. cbn [s_phase].
    change (s_phase (recordLocked _ _ _ _ _)) with (s_phase s). destruct (s_phase s); auto; done.
Qed.

Lemma recycle_keeps s : Core s -> s_phase s = PhaseRestarting -> s_closed s = false -> s_spawnInFlight s = false ->
  keeps (let '(now, s) := clock (s <| s_phase := PhaseStarting |>) in probeCycle snap (s <| s_startupSince := now |>)).
Proof.
  intros HC Hph Hcl Hsp. pose proof (starts_idle s HC ltac:(congruence) ltac:(congruence)) as Hidle.
  cbn [clock]. begin_cycle HC.
  - intros _. apply c_running0. congruence.
  - intros Hr. unfold allowance. cbn. specialize (Hidle Hr). lia.
  - congruence.
Qed.

Lemma exit_keeps code epoch s : Inv s -> keeps (OnChildExit snap code epoch s).
Proof.
  intros [HC Haw]. unfold OnChildExit. destruct (s_closed s) eqn:Hcl.
  { exists s. split; [done|]. split; [done|congruence]. }
  specialize (Haw eq_refl). destruct (negb _).
  { eexists. split; [done|]. split; [by apply core_record|]. intros _. revert Haw. unfold awake, blocked, pending. cbn.
    rewrite !view_snoc. done. }
  cbn [clock]. cbv zeta. match goal with |- context [s_phase ?c] => set (s1 := c) end.
  assert (Core s1) as HC1 by (destruct HC; constructor; cbn; rewrite ?view_snoc; cbn; auto).
  assert (s_phase s1 = s_phase s /\ s_closed s1 = false /\ s_spawnInFlight s1 = false
    /\ (s_recoveryActive s1 = s_recoveryActive s)) as (Hp1 & Hc1 & Hsp1 & Ha1) by done.
  clearbody s1. clear HC Haw Hcl. destruct (s_phase s1) eqn:Hph.
  1,5: exists s1; split; [done|]; split; [done|]; intros _; unfold awake; by rewrite Hph.
  4: { destruct (s_recoveryActive s1) eqn:Hact.
       { exists s1. split; [done|]. split; [done|]. intros _. unfold awake. rewrite Hph. by left. }
       by apply recycle_keeps. }
  all: apply (settled_keeps s1); eexists; split; [done|]; apply noteTransient_settled; [done|congruence].
Qed.

Lemma recovered_keeps rejected s : Inv s -> (0 < s_recoveries s)%nat ->
  keeps (onRecoveryStop snap rejected (s <| s_recoveries := pred (s_recoveries s) |>)).
Proof.
  intros [HC Haw] Hpos. assert (s_recoveryActive s = true) as Hact.
  { pose proof (c_recovery s HC). destruct (s_recoveryActive s); [done|lia]. }
  unfold onRecoveryStop. cbv zeta. match goal with |- context [s_closed ?c || _] => set (s1 := c) end.
  assert (Core s1) as HC1.
  { destruct HC. constructor; cbn; auto. by rewrite c_recovery0, Hact. }
  assert (s_phase s1 <> PhaseRestarting -> s_closed s1 = false -> awake s1) as Haw1.
  { intros Hne Hc. specialize (Haw Hc). revert Haw Hne. unfold awake, blocked, pending. cbn. by destruct (s_phase s). }
  clearbody s1. clear HC Haw Hact Hpos. destruct (s_closed s1) eqn:Hcl; cbn [orb].
  { exists s1. split; [done|]. split; [done|congruence]. }
  case_bool_decide as Hph; cbn [negb]; [|exists s1; split; [done|]; by split; auto].
  destruct rejected.
  { apply (settled_keeps s1). eexists. split; [done|]. apply noteTransient_settled; [done|congruence]. }
  cbn [clock]. pose proof (starts_idle s1 HC1 ltac:(congruence) ltac:(congruence)) as Hidle. begin_cycle HC1.
  - intros _. apply c_running0. congruence.
  - intros Hr. unfold allowance. cbn. specialize (Hidle Hr). lia.
Qed.

(** Taking a fired callback off the list keeps the others. *)
Lemma pending_drop s n cb ep cb' : s_due s !! n = Some (cb, ep) -> pending s cb' -> cb' <> cb \/ ep <> s_epoch s ->
  pending (s <| s_due := delete n (s_due s) |>) cb'.
Proof.
  intros Hn [Harmed|Hdue] Hne; [by left|right]. cbn. apply list_elem_of_lookup in Hdue as [k Hk].
  assert (k <> n) as Hkn by (intros ->; rewrite Hn in Hk; naive_solver).
  apply list_elem_of_lookup. destruct (decide (k < n)%nat).
  - exists k. by rewrite list_lookup_delete_lt.
  - exists (pred k). rewrite list_lookup_delete_ge by lia. by replace (S (pred k)) with k by lia.
Qed.

(** Whether a phase waits for a callback. *)
Definition serves (phase : Phase) (cb : Callback) : bool :=
  match phase, cb with
  | (PhaseStopped | PhaseFailed), _ => false
  | PhaseBackoff, CbHealth => false
  | PhaseBackoff, _ => true
  | _, CbBackoff => false
  | _, _ => true
  end.

Lemma awake_drop s n cb ep : s_due s !! n = Some (cb, ep) -> awake s -> serves (s_phase s) cb = false \/ ep <> s_epoch s ->
  awake (s <| s_due := delete n (s_due s) |>).
Proof.
  intros Hn Haw Hs. assert (forall cb', serves (s_phase s) cb' = true -> pending s cb' ->
    pending (s <| s_due := delete n (s_due s) |>) cb') as Hd.
  { intros cb' Hcb' Hp. apply (pending_drop s n cb ep cb' Hn Hp). destruct Hs as [Hs|]; [left; congruence|by right]. }
  set (s1 := s <| s_due := _ |>) in *. assert (blocked s -> blocked s1) as Hb by done.
  assert (s_phase s1 = s_phase s /\ s_recoveryActive s1 = s_recoveryActive s) as [Hp Ha] by done. clearbody s1.
  unfold awake in *. rewrite Hp, Ha. destruct (s_phase s); try done; destruct_or?; auto 6.
Qed.

Lemma core_drop s n : Core s -> Core (s <| s_due := delete n (s_due s) |>).
Proof. intros []. constructor; cbn; auto. intros Hr. destruct (c_resume0 Hr). split; [done|by apply Forall_delete]. Qed.

(** A callback of the backoff timer begins a new cycle. *)
Lemma backoff_keeps s epoch : Core s -> s_phase s = PhaseBackoff -> s_closed s = false ->
  keeps (let '(now, s) := clock (s <| s_epoch := epoch |> <| s_healthInFlight := false |> <| s_spawnInFlight := false |>
                                   <| s_phase := PhaseStarting |>) in
         probeCycle snap (s <| s_startupSince := now |>)).
Proof.
  intros HC Hph Hcl. pose proof (starts_idle s HC ltac:(congruence) ltac:(congruence)) as Hidle. cbn [clock].
  begin_cycle HC.
  - intros _. apply c_running0. congruence.
  - intros Hr. unfold allowance. cbn. specialize (Hidle Hr). lia.
Qed.

Lemma resumed_keeps s : Core s -> s_phase s <> PhaseFailed -> s_closed s = false -> v_resumed (view s) = true ->
  keeps (probeCycle snap (s <| s_phase := PhaseStarting |>)).
Proof. intros HC Hph Hcl Hr. begin_cycle HC; congruence. Qed.

Lemma callback_keeps s n cb ep : Inv s -> s_due s !! n = Some (cb, ep) ->
  keeps (run_callback snap cb ep (s <| s_due := delete n (s_due s) |>)).
Proof.
  intros [HC Haw] Hn. pose proof (awake_drop s n cb ep Hn) as Hdrop.
  assert (cb = CbResume -> v_resumed (view s) = true) as Hres.
  { intros ->. apply not_false_is_true. intros Hr. destruct (c_resume s HC Hr) as [_ Hall].
    eapply Forall_lookup_1 in Hall; [|done]. done. }
  apply (core_drop s n) in HC. set (s1 := s <| s_due := _ |>) in *.
  assert (s_phase s1 = s_phase s /\ s_closed s1 = s_closed s /\ s_epoch s1 = s_epoch s /\ view s1 = view s)
    as (Hp & Hc & He & Hv) by done. clearbody s1.
  rewrite <- ?Hp, <- ?Hc, <- ?He, <- ?Hv in *. clear Hp Hc He Hv.
  assert (forall reason, s_closed s1 || negb (ep =? s_epoch s1) = true ->
    keeps (Some (recordLocked snap KindStaleDiscard "" reason s1))) as Hstale.
  { intros reason Hst. eexists. split; [done|]. split; [by apply core_record|]. intros Hc.
    change (s_closed s1 = false) in Hc. rewrite Hc in Hst. cbn [orb] in Hst. apply negb_true_iff, Z.eqb_neq in Hst.
    pose proof (Hdrop (Haw Hc) (or_intror Hst)) as Ha. revert Ha. unfold awake, blocked, pending. cbn. by rewrite !view_snoc. }
  assert (s_closed s1 || negb (ep =? s_epoch s1) = false -> serves (s_phase s1) cb = false -> keeps (Some s1)) as Hidle.
  { intros [Hc _]%orb_false_iff Hs. exists s1. split; [done|]. split; [done|]. intros _. apply Hdrop; auto. }
  unfold run_callback. destruct (s_closed s1 || negb (ep =? s_epoch s1)) eqn:Hst; [destruct cb; by apply Hstale|].
  assert (s_closed s1 = false) as Hcl by (by apply orb_false_iff in Hst as [? _]).
  assert (s_phase s1 <> PhaseBackoff -> keeps (issueHealth snap s1)) as Hissue.
  { intros Hb. apply (settled_keeps s1), issueHealth_settled; [intros; apply circle_ok|done|done|done]. }
  destruct cb.
  - specialize (Hres eq_refl). destruct (s_phase s1) eqn:Hp; try (by apply Hidle); try (by apply Hissue);
      by apply resumed_keeps; try congruence.
  - destruct (s_phase s1) eqn:Hp; try (by apply Hidle); by apply Hissue.
  - case_bool_decide as Hp; cbn [negb]; [by apply backoff_keeps|]. apply Hidle; [done|]. by destruct (s_phase s1).
Qed.

Lemma fire_keeps s id : Inv s -> s_timers s !! id <> None -> keeps (input snap (IFire id) s).
Proof.
  intros [HC Haw] Hid. cbn [input]. destruct (s_timers s !! id) as [a|] eqn:Ha; [|done]. cbn [mbind option_bind].
  destruct (c_timers s HC id a Ha) as [Hpend Hep]. eexists. split; [done|].
  set (s1 := s <| s_timers := _ |> <| s_due := _ |>).
  assert (forall cb, pending s cb -> pending s1 cb) as Hp.
  { intros cb [(id' & a' & Ha' & <-)|Hdue]; right; cbn; apply elem_of_app; [right|by left].
    destruct (c_timers s HC id' a' Ha') as [Hpend' _]. assert (id' = id) as -> by congruence.
    rewrite Ha in Ha'. simplify_eq. rewrite Hep. by apply list_elem_of_singleton. }
  split.
  - destruct HC. constructor; cbn; auto.
    + intros id' a' [_ Ha']%lookup_delete_Some. auto.
    + intros Hr. destruct (c_resume0 Hr) as [Ht Hd]. split; [intros id' a' [_ Ha']%lookup_delete_Some; eauto|].
      apply Forall_app. split; [done|]. constructor; [|constructor]. by apply (Ht id).
  - intros Hc. specialize (Haw Hc). assert (blocked s -> blocked s1) as Hb by done.
    assert (s_phase s1 = s_phase s /\ s_recoveryActive s1 = s_recoveryActive s) as [Hph Hact] by done. clearbody s1.
    unfold awake in *. rewrite Hph, Hact. destruct (s_phase s); try done; destruct_or?; auto 6.
Qed.

Lemma input_keeps i s : Inv s -> enabled i s = true -> keeps (input snap i s).
Proof.
  intros HI Hen. pose proof HI as [HC Haw]. destruct i; cbn [enabled] in Hen.
  - apply Start_keeps; [done|]. by apply bool_decide_eq_true in Hen.
  - eexists. split; [done|]. split; [|exact Haw]. destruct HC. by constructor.
  - eexists. split; [done|]. unfold Close. rewrite cancel_cleared by apply (core_only _ HC). split; [|done].
    apply core_cleared in HC. destruct HC. by constructor.
  - eexists. split; [done|]. by apply resume_keeps.
  - apply fire_keeps; [done|]. by apply bool_decide_eq_true in Hen.
  - cbn [input]. destruct (s_due s !! n) as [[cb ep]|] eqn:Hn; [by apply callback_keeps|by rewrite bool_decide_false in Hen].
  - cbn [input]. destruct (s_watchers s !! n); [|by rewrite bool_decide_false in Hen]. apply exit_keeps.
    split; [|exact Haw]. destruct HC. by constructor.
  - apply recovered_keeps; [done|]. by apply Nat.ltb_lt.
Qed.

Lemma wired_inv : Inv wired.
Proof.
  pose proof thresholds_positive as (? & ? & ?). split; [|done].
  constructor; cbn; try lia; try done.
Qed.

Lemma reachable_inv s : reachable snap s -> Inv s.
Proof.
  induction 1 as [|s i s' _ IH Hen Hin]; [apply wired_inv|].
  destruct (input_keeps i s IH Hen) as (s2 & Hs2 & HI). by simplify_eq.
Qed.

(** ** What the trace of a run shows *)

(** A call that does not leave the process. *)
Definition internal (c : Call) : bool := match c with Now _ | Recorded _ => true | _ => false end.

Lemma guarded_prefix l l' : v_guarded (view_of (l ++ l')) = true -> v_guarded (view_of l) = true.
Proof.
  induction l' as [|c l' IH] using rev_ind; [by rewrite app_nil_r|]. rewrite (assoc_L (++)), view_snoc. intros Hg.
  apply IH. destruct c as [| | | | |ev]; cbn in Hg; [done|done| |done|done|by destruct (ev_Kind ev)].
  by apply andb_true_iff in Hg as [[? _]%andb_true_iff _].
Qed.

Lemma absent_last l : v_absent (view_of l) = true ->
  exists l0 pr quiet, l = l0 ++ Probed (Some pr) :: quiet /\ pr_Class pr = ProbeClassAbsent /\ forallb internal quiet = true.
Proof.
  induction l as [|c l IH] using rev_ind; [done|]. rewrite view_snoc. intros Ha.
  assert (internal c = true -> v_absent (view_of l) = true -> exists l0 pr quiet,
    l ++ [c] = l0 ++ Probed (Some pr) :: quiet /\ pr_Class pr = ProbeClassAbsent /\ forallb internal quiet = true) as Hext.
  { intros Hc (l0 & pr & quiet & -> & Hpr & Hq)%IH. exists l0, pr, (quiet ++ [c]). rewrite <- (assoc_L (++)).
    split; [done|]. split; [done|]. rewrite forallb_app, Hq. simpl. by rewrite Hc. }
  destruct c as [|[pr|]| | | |ev]; cbn in Ha; [by apply Hext| |done|done|done|done|].
  - apply bool_decide_eq_true in Ha. by exists l, pr, [].
  - apply Hext; [done|]. by destruct (ev_Kind ev).
Qed.

(** Once closed the supervisor only keeps records. *)
Lemma closed_quiet s i s' : s_closed s = true -> input snap i s = Some s' ->
  s_closed s' = true /\ exists quiet, s_trace s' = s_trace s ++ quiet /\ forallb internal quiet = true.
Proof.
  intros Hcl. assert (forall s2, s_closed s2 = true -> s_trace s2 = s_trace s ->
    s_closed s2 = true /\ exists quiet, s_trace s2 = s_trace s ++ quiet /\ forallb internal quiet = true) as Hsame.
  { intros s2 Hc2 Ht2. split; [done|]. exists []. by rewrite app_nil_r. }
  destruct i; cbn [input].
  - unfold Start. rewrite Hcl. intros [= <-]. by apply Hsame.
  - intros [= <-]. by apply Hsame.
  - intros [= <-]. unfold Close, cancelTimerLocked. cbn. destruct (s_pendingTimer s); by apply Hsame.
  - intros [= <-]. unfold OnResume. rewrite Hcl. by apply Hsame.
  - intros (a & _ & [= <-])%bind_Some. by apply Hsame.
  - intros ([cb ep] & _ & Hr)%bind_Some. unfold run_callback in Hr. cbn [fst snd s_closed set_field] in Hr.
    cbn in Hr. rewrite Hcl in Hr. cbn [orb] in Hr. destruct cb; injection Hr as <-; (split; [done|]);
      eexists [_; _]; cbn; by rewrite <- (assoc_L (++)).
  - intros (wt & _ & Hr)%bind_Some. unfold OnChildExit in Hr. cbn in Hr. rewrite Hcl in Hr. injection Hr as <-. by apply Hsame.
  - unfold onRecoveryStop. cbn. rewrite Hcl. intros [= <-]. by apply Hsame.
Qed.

End Facts.

(** C12: the supervisor never stalls.  Whatever the dependencies answer and in whatever order
    timers fire, callbacks run, units exit and recovery stops return, every input is served
    (the mutual recursion of health checks, restarts and probe cycles ends), and while the
    supervisor is open and has neither failed nor not been started, something is on its way
    that moves it on: a health or resume callback of the current epoch, the backoff callback,
    or a running recovery stop.  The one exception is [blocked], which needs Windows to have
    resumed at some time: a probe cycle that the resume began may find a start still marked
    as in flight, and then nothing is scheduled. *)
Theorem supervisor_never_stalls `{UnicodeTables} `{Dependencies} snap s :
  thresholds_complete (sn_Thresholds snap) = true -> reachable snap s ->
  (forall i, enabled i s = true -> exists s', input snap i s = Some s') /\ (s_closed s = false -> awake snap s).
Proof.
  intros Hth Hr. pose proof (reachable_inv snap Hth s Hr) as HI. split; [|by destruct HI].
  intros i Hen. destruct (input_keeps snap Hth i s HI Hen) as (s' & Hs' & _). by exists s'.
Qed.

(** C15: the server is started only where none runs.  In every run, each start has the
    command line of the registration, which passes ValidateLaunchArgv (one distribution, one
    user, no shell, no shutdown), and the last thing the supervisor did outside itself before
    it was a probe that answered absent; and once it is closed it neither probes, starts nor
    stops anything. *)
Theorem starts_guarded `{UnicodeTables} `{Dependencies} snap s :
  thresholds_complete (sn_Thresholds snap) = true -> reachable snap s ->
  (forall before argv ok after, s_trace s = before ++ Started argv ok :: after ->
     argv = BuildWSLExecArgv (BuildLaunchSpec snap)
     /\ ValidateLaunchArgv argv (sn_Distribution snap) (sn_LinuxUser snap) = true
     /\ exists earlier pr quiet, before = earlier ++ Probed (Some pr) :: quiet
        /\ pr_Class pr = ProbeClassAbsent /\ forallb internal quiet = true)
  /\ (s_closed s = true -> forall i s', input snap i s = Some s' ->
        s_closed s' = true /\ exists quiet, s_trace s' = s_trace s ++ quiet /\ forallb internal quiet = true).
Proof.
  intros Hth Hr. split; [|intros Hcl i s'; by apply closed_quiet]. intros before argv ok after Htr.
  destruct (reachable_inv snap Hth s Hr) as [HC _]. pose proof (c_guarded snap s HC) as Hg.
  rewrite Htr, (cons_middle _ before after), (assoc_L (++)) in Hg. apply guarded_prefix in Hg. rewrite view_snoc in Hg.
  cbn in Hg. apply andb_true_iff in Hg as [[_ Ha]%andb_true_iff Hl].
  unfold launchable in Hl. apply andb_true_iff in Hl as [Hargv%bool_decide_eq_true Hval].
  split; [done|]. split; [done|]. by apply absent_last in Ha.
Qed.

(** C32: retries are bounded.  The retries counted are the configuration failures and the
    transient failures together; each kind stays below its threshold until the supervisor
    gives up; and while Windows has not resumed, the server is started at most once more than
    retries are counted since it was last healthy, so at most
    [ConfigTerminalThreshold + TransientTerminalThreshold] times. *)
Theorem starts_bounded `{UnicodeTables} `{Dependencies} snap s :
  thresholds_complete (sn_Thresholds snap) = true -> reachable snap s ->
  s_retryAttempt s = s_configFails s + s_transientFails s
  /\ 0 <= s_configFails s <= th_ConfigTerminalThreshold (sn_Thresholds snap)
  /\ 0 <= s_transientFails s <= th_TransientTerminalThreshold (sn_Thresholds snap)
  /\ (s_phase s <> PhaseFailed ->
      s_configFails s < th_ConfigTerminalThreshold (sn_Thresholds snap)
      /\ s_transientFails s < th_TransientTerminalThreshold (sn_Thresholds snap))
  /\ (v_resumed (view_of snap (s_trace s)) = false ->
      v_starts (view_of snap (s_trace s)) <= s_retryAttempt s + 1
      /\ v_starts (view_of snap (s_trace s))
         <= th_ConfigTerminalThreshold (sn_Thresholds snap) + th_TransientTerminalThreshold (sn_Thresholds snap)).
Proof.
  intros Hth Hr. destruct (reachable_inv snap Hth s Hr) as [HC _]. destruct HC.
  split; [done|]. split; [done|]. split; [done|]. split; [done|]. intros Hres. specialize (c_starts0 Hres).
  unfold allowance in c_starts0. destruct (decide (s_phase s = PhaseFailed)) as [Hf|Hf].
  - rewrite Hf in c_starts0. lia.
  - specialize (c_running0 Hf). destruct (s_phase s); lia.
Qed.
