(* ===== verification/WslStop.v ===== *)
(** * platform/wslhost: stopping the host server

    stop.go and the stop side of service.go: one stop transaction asks the owner of the
    server to end, waits for its budget, and escalates to killing the Windows child and to
    terminating the distribution.  A transaction is a function of what the dependencies
    answer; the answer to a call is a function of its position among the calls, as in
    WslSupervisor.v.  Concurrent calls of Run collapse onto the transaction in flight. *)

From Stdlib Require Import String.
From S2P Require Import Prelude GoStd GoStrings HostState WslSupervisor WslSupervisorFacts.

Inductive StopPath := StopPathSCM | StopPathRecovery | OtherPath (name : string).

#[export] Instance path_eq_dec : EqDecision StopPath.
Proof. solve_decision. Defined.

Inductive StopCheckpoint :=
| CheckpointAccepted | CheckpointDuplicateIgnored | CheckpointTokenMissing | CheckpointStopRejected
| CheckpointSIGTERMDelivered | CheckpointGracefulWaiting | CheckpointGracefulExited | CheckpointBudgetExpired
| CheckpointChildKill | CheckpointChildWait | CheckpointEvidenceProbe | CheckpointTerminateDistro
| CheckpointAbsenceConfirmed | CheckpointCompleted | CheckpointTerminateFailed | CheckpointEvidenceCleared.

#[export] Instance checkpoint_eq_dec : EqDecision StopCheckpoint.
Proof. solve_decision. Defined.

Definition ServerDrainBudgetMS : Z := 8000.
Definition ServerGatewayGraceMS : Z := 5000.
Definition SupervisedUnitExitOverMS : Z := 2000.
Definition ChildKillWaitMS : Z := 2000.

Definition DeriveGracefulStopBudgetMS : Z := ServerDrainBudgetMS + ServerGatewayGraceMS + SupervisedUnitExitOverMS.

Definition StopClassRejected : string := "rejected".
Definition StopClassAbsent : string := "absent".
Definition StopClassUnknown : string := "unknown".

Record StopResult := mkStopResult { st_Class : string; st_Reason : string }.

(** Ownership and unit of one transaction. *)
Record StopSessionState := mkStopSession { ss_OwnershipToken : string; ss_Unit : option nat }.

Record StopOutcome := mkStopOutcome {
  so_Path : StopPath; so_Completed : bool; so_Rejected : bool; so_Duplicate : bool; so_Class : string;
  so_Reason : string; so_Escalation : string; so_TerminateTarget : string; so_Checkpoints : list StopCheckpoint;
  so_BudgetMS : Z; so_UsedShutdown : bool; so_SIGTERMIssued : bool; so_ChildKilled : bool;
  so_DistroTerminated : bool }.

#[export] Instance eta_StopOutcome : Eta StopOutcome := fun o =>
  mkStopOutcome (so_Path o) (so_Completed o) (so_Rejected o) (so_Duplicate o) (so_Class o) (so_Reason o)
    (so_Escalation o) (so_TerminateTarget o) (so_Checkpoints o) (so_BudgetMS o) (so_UsedShutdown o)
    (so_SIGTERMIssued o) (so_ChildKilled o) (so_DistroTerminated o).

(** What the transaction calls, with the answers: HostControl.Stop, HostControl.Probe (the
    class), the wait for the unit, Kill of the unit, the sleep after it, TerminateDistro. *)
Inductive StopCall :=
| AskStop (token : string) (answer : option StopResult)
| AskProbe (class : option string)
| WaitUnit (unit : nat) (budget : Duration) (exited : bool)
| KillUnit (unit : nat) (ok : bool)
| SleepFor (d : Duration)
| TerminateDistro (distribution : string) (ok : bool).

(** [sd_ticks]: how often the ticker is taken before the timer or the context in the loop
    that probes for the end of a server without a unit. *)
Class StopDependencies := mkStopDependencies {
  sd_stop : nat -> option StopResult;
  sd_probe : nat -> option string;
  sd_exits : nat -> bool;
  sd_kill : nat -> bool;
  sd_terminate : nat -> bool;
  sd_ticks : nat }.

(** ** One transaction *)

(** The outcome so far, what it was at each checkpoint, and the calls. *)
Record Transaction := mkTransaction { t_out : StopOutcome; t_marks : list StopOutcome; t_calls : list StopCall }.

#[export] Instance eta_Transaction : Eta Transaction := fun t => mkTransaction (t_out t) (t_marks t) (t_calls t).

Section Stop.
Context `{StopDependencies} (snap : Snapshot).
Implicit Types (t : Transaction).

Definition GracefulBudget : Duration :=
  let budget := th_GracefulStopBudgetMS (sn_Thresholds snap) in
  ms (if budget <=? 0 then DeriveGracefulStopBudgetMS else budget).

Definition asked t (c : StopCall) : Transaction := t <| t_calls := t_calls t ++ [c] |>.

Definition place t : nat := length (t_calls t).

Definition update t (f : StopOutcome -> StopOutcome) : Transaction := t <| t_out := f (t_out t) |>.

Definition mark t (cp : StopCheckpoint) : Transaction :=
  let t := update t (fun o => o <| so_Checkpoints := so_Checkpoints o ++ [cp] |>) in
  t <| t_marks := t_marks t ++ [t_out t] |>.

Definition rejectWith t (reason : string) : Transaction :=
  update t (fun o => o <| so_Rejected := true |> <| so_Reason := reason |>).

Definition probe t : option string * Transaction :=
  let class := sd_probe (place t) in (class, asked t (AskProbe class)).

Definition confirmAbsence t : Transaction :=
  let '(class, t) := probe t in
  if bool_decide (class = Some ProbeClassAbsent) then mark t CheckpointAbsenceConfirmed else t.

Definition evidencePersists t : bool * Transaction :=
  let '(class, t) := probe t in (bool_decide (class = Some ProbeClassMatchedRunning), t).

Definition terminateBound t : Transaction :=
  let distro := sn_Distribution snap in
  if ArgvContainsShutdown (BuildTerminateArgv distro) then
    mark (rejectWith t "shutdown_forbidden") CheckpointTerminateFailed
  else
    let t := mark t CheckpointTerminateDistro in
    let ok := sd_terminate (place t) in
    let t := asked t (TerminateDistro distro ok) in
    if negb ok then mark (rejectWith t "terminate") CheckpointTerminateFailed
    else update t (fun o => o <| so_DistroTerminated := true |> <| so_TerminateTarget := distro |>
                              <| so_Escalation := "terminate_distro" |> <| so_UsedShutdown := false |>).

Definition scmEscalate (unit : option nat) t : Transaction :=
  let t :=
    match unit with
    | None => t
    | Some u =>
      let t := mark t CheckpointChildKill in
      let ok := sd_kill (place t) in
      let t := asked t (KillUnit u ok) in
      let t := if ok then t else update t (fun o => o <| so_Reason := "child_kill" |>) in
      let t := update t (fun o => o <| so_ChildKilled := true |> <| so_Escalation := "child_kill" |>) in
      asked (mark t CheckpointChildWait) (SleepFor (ms ChildKillWaitMS))
    end in
  let '(persists, t) := evidencePersists (mark t CheckpointEvidenceProbe) in
  if persists then terminateBound t else mark t CheckpointEvidenceCleared.

(** The loop that probes every 100 ms. *)
Fixpoint probe_until_absent (ticks : nat) t : bool * Transaction :=
  let '(class, t) := probe t in
  if bool_decide (class = Some ProbeClassAbsent) then (true, t)
  else match ticks with
       | O => (false, t)
       | S ticks => probe_until_absent ticks t
       end.

Definition waitForGracefulExit (unit : option nat) t : bool * Transaction :=
  match unit with
  | Some u => let exited := sd_exits (place t) in (exited, asked t (WaitUnit u GracefulBudget exited))
  | None => probe_until_absent sd_ticks t
  end.

Definition newOutcome (path : StopPath) : StopOutcome :=
  mkStopOutcome path false false false "" "" "" "" [] (Z.quot GracefulBudget Millisecond) false false false false.

Definition complete t : Transaction :=
  mark (update (confirmAbsence t) (fun o => o <| so_Completed := true |>)) CheckpointCompleted.

Definition runTransaction (path : StopPath) (session : StopSessionState) : Transaction :=
  let t := mark (mkTransaction (newOutcome path) [] []) CheckpointAccepted in
  let token := ss_OwnershipToken session in
  if bool_decide (token = "") then
    let t := update (rejectWith t "missing_ownership_token") (fun o => o <| so_Class := StopClassRejected |>) in
    mark (mark t CheckpointTokenMissing) CheckpointCompleted
  else
    let answer := sd_stop (place t) in
    let t := asked t (AskStop token answer) in
    match answer with
    | None =>
      let t := update (rejectWith t "stop_error") (fun o => o <| so_Class := StopClassUnknown |>) in
      mark (mark t CheckpointStopRejected) CheckpointCompleted
    | Some res =>
      let t := update t (fun o => o <| so_Class := st_Class res |> <| so_Reason := st_Reason res |>) in
      if bool_decide (st_Class res = StopClassRejected) || bool_decide (st_Class res = StopClassUnknown) then
        mark (mark (update t (fun o => o <| so_Rejected := true |>)) CheckpointStopRejected) CheckpointCompleted
      else if bool_decide (st_Class res = StopClassAbsent) then
        complete (mark (mark t CheckpointSIGTERMDelivered) CheckpointGracefulExited)
      else
        let t := mark (update t (fun o => o <| so_SIGTERMIssued := true |>)) CheckpointSIGTERMDelivered in
        let '(exited, t) := waitForGracefulExit (ss_Unit session) (mark t CheckpointGracefulWaiting) in
        if exited then complete (mark t CheckpointGracefulExited)
        else
          let t := mark t CheckpointBudgetExpired in
          match path with
          | OtherPath name => mark (rejectWith t ("unknown_stop_path:" +:+ name)) CheckpointCompleted
          | _ =>
            let t := match path with StopPathSCM => scmEscalate (ss_Unit session) t | _ => terminateBound t end in
            let t := confirmAbsence t in
            mark (update t (fun o => o <| so_Completed := negb (so_Rejected o) |>)) CheckpointCompleted
          end
    end.

(** ** The coordinator *)

Definition checkpointWaitHint (cp : StopCheckpoint) : Z :=
  match cp with
  | CheckpointChildWait => ChildKillWaitMS
  | CheckpointCompleted | CheckpointGracefulExited | CheckpointAbsenceConfirmed => 0
  | _ => (Z.quot GracefulBudget Millisecond) mod 2 ^ 32
  end.

(** [co_running]: the checkpoints the transaction in flight has still to reach, and its end.
    [co_statuses]: what was published, a checkpoint with its hint and number. *)
Record StopCoordinator := mkCoordinator {
  co_inFlight : bool; co_last : StopOutcome; co_cpSeq : Z;
  co_running : list StopOutcome * StopOutcome; co_statuses : list (StopCheckpoint * Z * Z) }.

Definition NewStopCoordinator : StopCoordinator :=
  let none := newOutcome (OtherPath "") <| so_BudgetMS := 0 |> in mkCoordinator false none 0 ([], none) [].

(** Run, up to the transaction: a call that finds one in flight returns at once. *)
Definition run_begin (path : StopPath) (session : StopSessionState) (c : StopCoordinator) :
    StopCoordinator * option StopOutcome :=
  if co_inFlight c then
    let out := co_last c <| so_Duplicate := true |>
                 <| so_Checkpoints := so_Checkpoints (co_last c) ++ [CheckpointDuplicateIgnored] |> in
    (mkCoordinator true out (co_cpSeq c) (co_running c) (co_statuses c), Some out)
  else
    let t := runTransaction path session in
    (mkCoordinator true (newOutcome path) 0 (t_marks t, t_out t) (co_statuses c), None).

(** The transaction reaches its next checkpoint. *)
Definition run_mark (c : StopCoordinator) : option StopCoordinator :=
  match co_running c with
  | (o :: marks, out) =>
    let seq := (co_cpSeq c + 1) mod 2 ^ 32 in
    let statuses := match last (so_Checkpoints o) with
                    | Some cp => [(cp, checkpointWaitHint cp, seq)]
                    | None => []
                    end in
    Some (mkCoordinator (co_inFlight c) o seq (marks, out) (co_statuses c ++ statuses))
  | ([], _) => None
  end.

(** It is through: Run returns its outcome. *)
Definition run_end (c : StopCoordinator) : option (StopCoordinator * StopOutcome) :=
  match co_running c with
  | ([], out) =>
    if co_inFlight c then Some (mkCoordinator false out (co_cpSeq c) ([], out) (co_statuses c), out) else None
  | _ => None
  end.

(** ** The service (service.go) *)

(** The exit code of the service. *)
Definition win32ExitCode (out : StopOutcome) : Z := if so_Rejected out && negb (so_Completed out) then 1 else 0.

Definition stopHasCheckpoint (out : StopOutcome) (want : StopCheckpoint) : bool :=
  existsb (fun cp => bool_decide (cp = want)) (so_Checkpoints out).

(** The events, with the fields it sets besides the time and the generation: kind, class,
    delay, reason, setting. *)
Definition RecordStopOutcome (out : StopOutcome) : list (EventKind * string * Z * string * string) :=
  if so_Duplicate out then []
  else
    [(KindServiceStop, so_Class out, 0, so_Reason out, "")]
    ++ (if stopHasCheckpoint out CheckpointBudgetExpired
        then [(KindBudgetExpiry, "", so_BudgetMS out, so_Reason out, "")] else [])
    ++ (if bool_decide (so_Escalation out = "") then []
        else [(KindEscalation, "", 0, so_Escalation out, so_TerminateTarget out)]).

End Stop.

(** What StopSession reads of the supervisor. *)
Definition StopSession (s : Supervisor) : StopSessionState := mkStopSession (s_ownershipToken s) (s_unit s).

(** ** Theorems *)

Section Facts.
Context `{StopDependencies} (snap : Snapshot).

(** Not an answer that ends the wait. *)
Definition still_there (c : StopCall) : Prop :=
  match c with
  | WaitUnit _ _ exited => exited = false
  | AskProbe class => class <> Some ProbeClassAbsent
  | _ => False
  end.

(** The owner was asked to stop, took the request, and outlived the wait. *)
Definition outlived (session : StopSessionState) (calls : list StopCall) : Prop :=
  exists res waits rest,
    calls = AskStop (ss_OwnershipToken session) (Some res) :: waits ++ rest
    /\ ss_OwnershipToken session <> ""
    /\ st_Class res <> StopClassRejected /\ st_Class res <> StopClassUnknown /\ st_Class res <> StopClassAbsent
    /\ waits <> [] /\ Forall still_there waits
    /\ match ss_Unit session with
       | Some u => waits = [WaitUnit u (GracefulBudget snap) false]
       | None => length waits = S sd_ticks
       end.

Lemma probe_until_spec ticks t :
  let '(ended, t') := probe_until_absent ticks t in
  t_out t' = t_out t /\
  exists waits, t_calls t' = t_calls t ++ waits /\ Forall (fun c => exists class, c = AskProbe class) waits
    /\ (ended = false -> length waits = S ticks /\ Forall still_there waits).
Proof.
  revert t. induction ticks as [|ticks IH]; intros t; simpl.
  - case_bool_decide as Ha; (split; [done|]); (eexists; split; [done|]); (split; [by repeat econstructor|]); [done|].
    intros _. split; [done|]. by repeat constructor.
  - case_bool_decide as Ha.
    + split; [done|]. eexists. split; [done|]. split; [by repeat econstructor|done].
    + specialize (IH (asked t (AskProbe (sd_probe (place t))))).
      destruct (probe_until_absent ticks _) as [ended t'].
      destruct IH as (Ho & waits & Hc & Hp & Hw). split; [done|]. exists (AskProbe (sd_probe (place t)) :: waits).
      split; [rewrite Hc; cbn; by rewrite <- (assoc_L (++))|]. split; [constructor; [by eexists|done]|].
      intros [Hl Hs]%Hw. split; [simpl; by rewrite Hl|]. by constructor.
Qed.

(** Calls that do no harm to a server that runs. *)
Definition harmless (c : StopCall) : bool :=
  match c with KillUnit _ _ | TerminateDistro _ _ => false | _ => true end.

Definition terminate_calls (l : list StopCall) : Prop :=
  l = [] \/ exists ok, l = [TerminateDistro (sn_Distribution snap) ok]
    /\ ArgvContainsShutdown (BuildTerminateArgv (sn_Distribution snap)) = false.

Lemma terminateBound_calls t : exists l, t_calls (terminateBound snap t) = t_calls t ++ l /\ terminate_calls l.
Proof.
  unfold terminateBound. cbv zeta. destruct (ArgvContainsShutdown _) eqn:Hs.
  - exists []. rewrite app_nil_r. split; [done|by left].
  - exists [TerminateDistro (sn_Distribution snap) (sd_terminate (place (mark t CheckpointTerminateDistro)))].
    split; [|right; by eexists]. by destruct (sd_terminate _).
Qed.

(** What an escalation calls. *)
Definition escalation (path : StopPath) (unit : option nat) (l : list StopCall) : Prop :=
  match path with
  | OtherPath _ => l = []
  | StopPathRecovery => exists term class, l = term ++ [AskProbe class] /\ terminate_calls term
  | StopPathSCM =>
    exists kill class term class', l = kill ++ AskProbe class :: term ++ [AskProbe class']
      /\ match unit with
         | Some u => exists ok, kill = [KillUnit u ok; SleepFor (ms ChildKillWaitMS)]
         | None => kill = []
         end
      /\ terminate_calls term /\ (term = [] \/ class = Some ProbeClassMatchedRunning)
  end.

Lemma scmEscalate_calls unit t :
  exists kill class term, t_calls (scmEscalate snap unit t) = t_calls t ++ kill ++ AskProbe class :: term
    /\ match unit with
       | Some u => exists ok, kill = [KillUnit u ok; SleepFor (ms ChildKillWaitMS)]
       | None => kill = []
       end
    /\ terminate_calls term /\ (term = [] \/ class = Some ProbeClassMatchedRunning).
Proof.
  unfold scmEscalate. cbv zeta. set (t1 := match unit with None => t | Some _ => _ end).
  assert (exists kill, t_calls t1 = t_calls t ++ kill /\ match unit with
       | Some u => exists ok, kill = [KillUnit u ok; SleepFor (ms ChildKillWaitMS)]
       | None => kill = []
       end) as (kill & Ht1 & Hkill).
  { unfold t1. destruct unit as [u|]; [|exists []; by rewrite app_nil_r].
    exists [KillUnit u (sd_kill (place (mark t CheckpointChildKill))); SleepFor (ms ChildKillWaitMS)].
    split; [|by eexists]. destruct (sd_kill _); cbn; by rewrite <- (assoc_L (++)). }
  clearbody t1. unfold evidencePersists. cbn [probe]. case_bool_decide as Hm.
  - match goal with |- context [terminateBound snap ?t2] => destruct (terminateBound_calls t2) as (term & Hterm & Ht) end.
    exists kill, (sd_probe (place (mark t1 CheckpointEvidenceProbe))), term.
    split; [rewrite Hterm; cbn; rewrite Ht1; by rewrite <- !(assoc_L (++))|]. split; [done|]. split; [done|]. by right.
  - exists kill, (sd_probe (place (mark t1 CheckpointEvidenceProbe))), [].
    split; [cbn; rewrite Ht1; by rewrite <- !(assoc_L (++))|]. split; [done|]. split; [by left|by left].
Qed.

Lemma confirm_calls t : exists class, t_calls (confirmAbsence t) = t_calls t ++ [AskProbe class].
Proof. unfold confirmAbsence. cbn. case_bool_decide; by eexists. Qed.

Lemma wait_spec unit t :
  let '(exited, t') := waitForGracefulExit snap unit t in
  t_out t' = t_out t /\
  exists waits, t_calls t' = t_calls t ++ waits /\ forallb harmless waits = true
    /\ (exited = false -> waits <> [] /\ Forall still_there waits
        /\ match unit with Some u => waits = [WaitUnit u (GracefulBudget snap) false] | None => length waits = S sd_ticks end).
Proof.
  destruct unit as [u|]; simpl.
  - split; [done|]. eexists. split; [done|]. split; [done|]. intros ->. split; [done|]. split; [by repeat constructor|done].
  - pose proof (probe_until_spec sd_ticks t) as Hp. destruct (probe_until_absent sd_ticks t) as [exited t'].
    destruct Hp as (Ho & waits & Hc & Hp & Hw). split; [done|]. exists waits. split; [done|]. split.
    + clear - Hp. induction Hp as [|c l [class ->] Hp IH]; done.
    + intros [Hl Hs]%Hw. split; [by destruct waits|]. done.
Qed.

Lemma mark_calls t cp : t_calls (mark t cp) = t_calls t.
Proof. done. Qed.

Lemma update_calls t f : t_calls (update t f) = t_calls t.
Proof. done. Qed.

Lemma complete_calls t : exists class, t_calls (complete t) = t_calls t ++ [AskProbe class].
Proof.
  destruct (confirm_calls t) as [class Hc]. exists class. unfold complete. by rewrite mark_calls, update_calls.
Qed.

Lemma transaction_calls path session :
  let calls := t_calls (runTransaction snap path session) in
  forallb harmless calls = true
  \/ exists head tail, calls = head ++ tail /\ outlived session head /\ forallb harmless head = true
       /\ escalation path (ss_Unit session) tail.
Proof.
  unfold runTransaction. cbv zeta. case_bool_decide as Htok; [by left|].
  destruct (sd_stop _) as [res|]; [|by left].
  destruct (bool_decide (st_Class res = StopClassRejected) || _) eqn:Hrej; [by left|].
  apply orb_false_iff in Hrej as [H1%bool_decide_eq_false H2%bool_decide_eq_false].
  case_bool_decide as H3.
  { left. match goal with |- context [complete ?t1] => destruct (complete_calls t1) as [class ->] end. done. }
  match goal with |- context [waitForGracefulExit snap ?u ?t1] => pose proof (wait_spec u t1) as Hw;
    destruct (waitForGracefulExit snap u t1) as [exited t2] end.
  destruct Hw as (_ & waits & Hc & Hh & Hwait). cbn in Hc. destruct exited.
  { left. match goal with |- context [complete ?t1] => destruct (complete_calls t1) as [class ->] end.
    rewrite mark_calls, Hc. simpl. by rewrite forallb_app, Hh. }
  destruct (Hwait eq_refl) as (Hne & Hstill & Hunit). clear Hwait.
  right. exists (t_calls t2).
  assert (outlived session (t_calls t2) /\ forallb harmless (t_calls t2) = true) as [Hout Hhead].
  { rewrite Hc. split; [|by simpl]. exists res, waits, []. rewrite app_nil_r. repeat (split; [done|]). done. }
  assert (forall t3 tail, t_calls t3 = t_calls t2 ++ tail -> exists class, t_calls (confirmAbsence t3) = t_calls t2 ++ tail ++ [AskProbe class]) as Hconf.
  { intros t3 tail Ht3. destruct (confirm_calls t3) as [class Hcl]. exists class. rewrite Hcl, Ht3. by rewrite <- (assoc_L (++)). }
  destruct path as [| |name].
  - destruct (scmEscalate_calls (ss_Unit session) (mark t2 CheckpointBudgetExpired)) as (kill & class & term & He & Hk & Ht & Hm).
    destruct (Hconf _ _ He) as [class' Hf]. eexists. rewrite mark_calls, update_calls. split; [exact Hf|].
    split; [done|]. split; [done|]. exists kill, class, term, class'. split; [by rewrite <- (assoc_L (++))|]. done.
  - destruct (terminateBound_calls (mark t2 CheckpointBudgetExpired)) as (term & He & Ht).
    destruct (Hconf _ _ He) as [class' Hf]. eexists. rewrite mark_calls, update_calls. split; [exact Hf|].
    split; [done|]. split; [done|]. by exists term, class'.
  - exists []. rewrite app_nil_r. done.
Qed.

(** A call that does harm lies in the escalation. *)
Lemma split_past {A} (a b l1 l2 : list A) x : x ∉ a -> a ++ b = l1 ++ x :: l2 ->
  exists l1', l1 = a ++ l1' /\ b = l1' ++ x :: l2.
Proof.
  revert l1. induction a as [|y a IH]; intros l1 Hx Heq; [by exists l1|].
  apply not_elem_of_cons in Hx as [Hy Hx]. destruct l1 as [|z l1]; injection Heq as Hz Heq; [done|subst z].
  destruct (IH l1 Hx Heq) as (l1' & -> & ->). by exists l1'.
Qed.

Lemma harm_escalates path session l1 c l2 :
  t_calls (runTransaction snap path session) = l1 ++ c :: l2 -> harmless c = false ->
  exists head l1', l1 = head ++ l1' /\ outlived session head /\ escalation path (ss_Unit session) (l1' ++ c :: l2).
Proof.
  intros Hcalls Hc. assert (forall l, forallb harmless l = true -> c ∉ l) as Hno.
  { intros l Hl Hin. rewrite forallb_forall in Hl. rewrite Hl in Hc; [done|]. by apply list_elem_of_In. }
  destruct (transaction_calls path session) as [Hall|(head & tail & Hht & Hout & Hhead & Hesc)].
  - rewrite Hcalls in Hall. by destruct (Hno _ Hall); apply elem_of_app; right; left.
  - rewrite Hcalls in Hht. symmetry in Hht. apply split_past in Hht as (l1' & -> & ->); [|by apply Hno].
    by exists head, l1'.
Qed.

Lemma confirm_out t : so_Rejected (t_out (confirmAbsence t)) = so_Rejected (t_out t).
Proof. unfold confirmAbsence. cbn. by case_bool_decide. Qed.

Lemma mark_last t cp : last (so_Checkpoints (t_out (mark t cp))) = Some cp.
Proof. cbn. by rewrite last_snoc. Qed.

Lemma finish_out t cp :
  let out := t_out (mark (update t (fun o => o <| so_Completed := negb (so_Rejected o) |>)) cp) in
  so_Completed out = negb (so_Rejected out).
Proof. done. Qed.

Lemma complete_out t : so_Rejected (t_out t) = false ->
  so_Completed (t_out (complete t)) = negb (so_Rejected (t_out (complete t))).
Proof. intros Hr. change (true = negb (so_Rejected (t_out (confirmAbsence t)))). by rewrite confirm_out, Hr. Qed.

Lemma transaction_outcome path session :
  let out := t_out (runTransaction snap path session) in
  so_Completed out = negb (so_Rejected out) /\ last (so_Checkpoints out) = Some CheckpointCompleted.
Proof.
  unfold runTransaction. cbv zeta. split; [|].
  2: { case_bool_decide; [apply mark_last|]. destruct (sd_stop _) as [res|]; [|apply mark_last].
       destruct (_ || _); [apply mark_last|]. case_bool_decide; [apply mark_last|].
       destruct (waitForGracefulExit _ _ _) as [[] t2]; [apply mark_last|]. destruct path; apply mark_last. }
  case_bool_decide; [done|]. destruct (sd_stop _) as [res|]; [|done]. destruct (_ || _); [done|].
  case_bool_decide; [by apply complete_out|].
  match goal with |- context [waitForGracefulExit snap ?u ?t1] => pose proof (wait_spec u t1) as Hw;
    destruct (waitForGracefulExit snap u t1) as [exited t2] end. destruct Hw as (Ho & _).
  assert (so_Rejected (t_out t2) = false /\ so_Completed (t_out t2) = false) as [Hr Hc] by (by rewrite Ho).
  destruct exited; [by apply complete_out|]. destruct path; [apply finish_out|apply finish_out|].
  change (so_Completed (t_out t2) = negb true). done.
Qed.

Lemma outlived_app session head l : outlived session head -> outlived session (head ++ l).
Proof.
  intros (res & waits & rest & -> & Hrest). exists res, waits, (rest ++ l). split; [|done].
  simpl. by rewrite <- (assoc_L (++)).
Qed.

(** Where an escalation has its harmful calls. *)
Ltac walk l := repeat (destruct l as [|? l]; simplify_eq/=; try done).

Lemma escalation_kill path unit l u ok l2 : escalation path unit (l ++ KillUnit u ok :: l2) ->
  path = StopPathSCM /\ unit = Some u.
Proof.
  destruct path as [| |name]; cbn.
  - intros (kill & class & term & class' & Heq & Hk & Hterm & _). destruct unit as [u'|].
    + destruct Hk as [ok' ->]. destruct Hterm as [ -> | (ok'' & -> & _)]; walk l.
    + subst kill. destruct Hterm as [ -> | (ok'' & -> & _)]; walk l.
  - intros (term & class & Heq & [ -> | (ok' & -> & _)]); walk l.
  - by destruct l.
Qed.

Lemma escalation_terminate path unit l distro ok l2 : escalation path unit (l ++ TerminateDistro distro ok :: l2) ->
  distro = sn_Distribution snap /\ ArgvContainsShutdown (BuildTerminateArgv distro) = false
  /\ (path = StopPathRecovery \/ (path = StopPathSCM /\ exists l', l = l' ++ [AskProbe (Some ProbeClassMatchedRunning)])).
Proof.
  destruct path as [| |name]; cbn.
  - intros (kill & class & term & class' & Heq & Hk & Hterm & Hm).
    destruct Hterm as [ -> | (ok' & -> & Hs)].
    { exfalso. destruct unit as [u|]; [destruct Hk as [ok' ->]|subst kill]; walk l. }
    destruct Hm as [Hm|Hm]; [done|]. subst class.
    destruct unit as [u|]; [destruct Hk as [ok'' ->]|subst kill]; walk l; (split; [done|]); (split; [done|]); right;
      (split; [done|]); [by eexists [_; _]|by eexists []].
  - intros (term & class & Heq & [ -> | (ok' & -> & Hs)]); walk l. split; [done|]. split; [done|]. by left.
  - by destruct l.
Qed.

End Facts.

(** C14: the stop escalates only against a server that was asked and did not go.  In every
    transaction a unit is killed, and the distribution terminated, only after the owner of the
    server, named by its token, took the request to stop and outlived the whole wait; a unit
    is killed only on the path of the service manager; on that path the distribution is
    terminated only if the last probe still found the server; what is terminated is the
    distribution of the registration, never with a shutdown of all; the transaction ends with
    the checkpoint completed, and is rejected or complete but not both; and without a token
    nothing is called at all. *)
Theorem stop_escalation_guarded `{StopDependencies} snap path session :
  let t := runTransaction snap path session in
  (forall l1 u ok l2, t_calls t = l1 ++ KillUnit u ok :: l2 ->
     path = StopPathSCM /\ ss_Unit session = Some u /\ outlived snap session l1)
  /\ (forall l1 distro ok l2, t_calls t = l1 ++ TerminateDistro distro ok :: l2 ->
     outlived snap session l1 /\ distro = sn_Distribution snap
     /\ ArgvContainsShutdown (BuildTerminateArgv distro) = false
     /\ (path = StopPathRecovery
         \/ (path = StopPathSCM /\ last l1 = Some (AskProbe (Some ProbeClassMatchedRunning)))))
  /\ so_Completed (t_out t) = negb (so_Rejected (t_out t))
  /\ last (so_Checkpoints (t_out t)) = Some CheckpointCompleted
  /\ (ss_OwnershipToken session = "" -> t_calls t = [] /\ so_Rejected (t_out t) = true).
Proof.
  split; [|split; [|split; [apply transaction_outcome|split; [apply transaction_outcome|]]]].
  - intros l1 u ok l2 (head & l1' & -> & Hout & Hesc)%harm_escalates; [|done].
    apply (outlived_app snap session head l1') in Hout. by destruct (escalation_kill snap path _ _ _ _ _ Hesc).
  - intros l1 distro ok l2 (head & l1' & -> & Hout & Hesc)%harm_escalates; [|done].
    apply (outlived_app snap session head l1') in Hout.
    destruct (escalation_terminate snap path _ _ _ _ _ Hesc) as (Hd & Hs & Hpath). split; [done|]. split; [done|].
    split; [done|]. destruct Hpath as [Hpath|(-> & l & ->)]; [by left|right]. split; [done|]. by rewrite (assoc_L (++)), last_snoc.
  - intros Htok. unfold runTransaction. by rewrite bool_decide_true.
Qed.

(** * platform/wslhost: concrete runs

    Runs of the supervisor and of a stop for the witnesses, and the runs that show where the
    code falls short. *)

Module WslDemo.

#[local] Instance tables : UnicodeTables := fun s => s.

Definition snap : Snapshot :=
  mkSnapshot "g1" "Ubuntu" "dev" "/usr/bin/agent-grid" "/data" ":8443" "tls" "https://127.0.0.1:8443/healthz"
    DefaultThresholds.

Definition absent : option ProbeResult := Some (mkProbe ProbeClassAbsent "" "no_lock").
Definition matched : option ProbeResult := Some (mkProbe ProbeClassMatchedRunning "tok" "lock_held").
Definition healthy : option HealthResult := Some (mkHealth HealthStatusOK true "status_ok" 0).
Definition unhealthy : option HealthResult := Some (mkHealth "unavailable" false "daemon_unavailable" 0).

(** Nothing runs, every start succeeds, and the health is the same throughout. *)
Definition steady (tick : Duration) (health : option HealthResult) : Dependencies :=
  mkDependencies (fun n => (1 + Z.of_nat n) * tick) (fun _ => absent) (fun _ => true) (fun _ => health).

Section Runs.
Context (D : Dependencies).

Fixpoint run (inputs : list Input) (s : Supervisor) : option Supervisor :=
  match inputs with
  | [] => Some s
  | i :: inputs => if enabled i s then s ← input snap i s; run inputs s else None
  end.

Lemma run_reachable inputs s s' : reachable snap s -> run inputs s = Some s' -> reachable snap s'.
Proof.
  revert s. induction inputs as [|i inputs IH]; intros s Hr Hrun; simpl in Hrun; [by simplify_eq|].
  destruct (enabled i s) eqn:Hen; [|done]. apply bind_Some in Hrun as (s1 & Hin & Hrun).
  eapply IH; [|done]. by eapply reach_step.
Qed.

End Runs.

(** The server is started and is healthy. *)
Definition started : option Supervisor := run (steady Second healthy) [IStart] wired.

Definition ready : Supervisor := default wired started.

Lemma ready_reachable : @reachable tables (steady Second healthy) snap ready.
Proof. eapply (run_reachable (steady Second healthy) [IStart]); [apply reach_init|]. vm_compute. reflexivity. Qed.

(** The health timer is armed. *)
Lemma supervisor_never_stalls_witness :
  s_phase ready = PhaseReady /\ s_closed ready = false /\ @awake tables snap ready.
Proof.
  split; [reflexivity|]. split; [reflexivity|].
  apply (@supervisor_never_stalls tables (steady Second healthy) snap ready); [reflexivity|exact ready_reachable|reflexivity].
Defined.

Definition command_line : list string :=
  ["wsl.exe"; "--distribution"; "Ubuntu"; "--user"; "dev"; "--exec"; "/usr/bin/agent-grid";
   "-data-dir"; "/data"; "-addr"; ":8443"; "-no-auth"].

Definition start_position : nat := 6.

(** The start follows the probe. *)
Lemma starts_guarded_witness :
  s_trace ready !! start_position = Some (Started command_line true) /\
  exists earlier pr quiet, take start_position (s_trace ready) = earlier ++ Probed (Some pr) :: quiet
    /\ pr_Class pr = ProbeClassAbsent /\ forallb internal quiet = true.
Proof.
  split; [vm_compute; reflexivity|].
  destruct (@starts_guarded tables (steady Second healthy) snap ready) as [H _]; [reflexivity|exact ready_reachable|].
  destruct (H (take start_position (s_trace ready)) command_line true (drop (S start_position) (s_trace ready)))
    as (_ & _ & Hp); [vm_compute; reflexivity|exact Hp].
Defined.

Lemma starts_bounded_witness :
  v_starts (@view_of tables snap (s_trace ready)) <= s_retryAttempt ready + 1.
Proof.
  apply (@starts_bounded tables (steady Second healthy) snap ready); [reflexivity|exact ready_reachable|].
  vm_compute. reflexivity.
Defined.

(** ** Stopping *)

(** The owner takes the request and stays, and every other call succeeds. *)
#[local] Instance stubborn : StopDependencies :=
  mkStopDependencies (fun _ => Some (mkStopResult "signaled" "sigterm_delivered"))
    (fun _ => Some ProbeClassMatchedRunning) (fun _ => false) (fun _ => true) (fun _ => true) 3.

Definition owner : StopSessionState := mkStopSession "tok" (Some 0%nat).

(** The distribution is terminated after the wait, the kill and the probe. *)
Lemma stop_escalation_guarded_witness :
  let t := runTransaction snap StopPathSCM owner in
  t_calls t !! 5%nat = Some (TerminateDistro "Ubuntu" true) /\ outlived snap owner (take 5 (t_calls t)).
Proof.
  split; [vm_compute; reflexivity|].
  destruct (stop_escalation_guarded snap StopPathSCM owner) as (_ & H & _).
  apply (H (take 5 (t_calls (runTransaction snap StopPathSCM owner))) "Ubuntu" true
           (drop 6 (t_calls (runTransaction snap StopPathSCM owner)))).
  vm_compute. reflexivity.
Defined.

(** A server the supervisor has started itself cannot be stopped: the ownership token comes
    only from a probe that finds a running server, and a start does not probe again.  The
    transaction of the service manager is rejected without a call, and the server stays. *)
Example spawned_server_not_stopped :
  s_phase ready = PhaseReady /\ s_unit ready = Some 0%nat /\ s_ownershipToken ready = "" /\
  let t := runTransaction snap StopPathSCM (StopSession ready) in
  t_calls t = [] /\ so_Reason (t_out t) = "missing_ownership_token" /\ win32ExitCode (t_out t) = 1.
Proof. vm_compute. repeat split. Qed.

(** ** Stalls and doubles *)

(** Windows resumes while the server starts up: the probe cycle finds the start in flight and
    schedules nothing.  The server may become healthy, but the supervisor does not look at it
    again; only the exit of the unit or another resume moves it on. *)
Example resume_during_startup_stalls :
  exists s, run (steady Second unhealthy) [IStart; IResume; IFire 1; IRun 0] wired = Some s
    /\ s_phase s = PhaseStarting /\ s_timers s = ∅ /\ s_due s = [] /\ s_recoveries s = 0%nat
    /\ s_watchers s = [(0%nat, 1)].
Proof. eexists. split; [vm_compute; reflexivity|]. vm_compute. repeat split. Qed.

(** The probe answers: nothing runs, then a server runs, then nothing. *)
Definition comes_and_goes : Dependencies :=
  mkDependencies (fun n => (1 + Z.of_nat n) * (10 * Second))
    (fun n => if (n <? 10)%nat then absent else if (n <? 30)%nat then matched else absent)
    (fun _ => true) (fun _ => unhealthy).

(** Worse: where a probe after the resume adopts the server that was just started, the exit
    of the unit is stale.  When it is gone and Windows resumes once more, nothing but a third
    resume is left to wake the supervisor. *)
Example adopted_start_stalls_for_good :
  exists s, run comes_and_goes [IStart; IResume; IFire 1; IRun 0; IExit 0 1; IResume; IFire 3; IRun 0] wired = Some s
    /\ s_phase s = PhaseStarting /\ s_timers s = ∅ /\ s_due s = [] /\ s_recoveries s = 0%nat /\ s_watchers s = [].
Proof. eexists. split; [vm_compute; reflexivity|]. vm_compute. repeat split. Qed.

(** A server that does not become healthy within the startup budget is left running: after the
    backoff a probe that finds nothing starts a second one, and the exit of the first is
    stale. *)
Example second_server_started :
  exists s, run (steady (4 * Second) unhealthy) [IStart; IFire 0; IRun 0; IFire 1; IRun 0] wired = Some s
    /\ s_unit s = Some 1%nat /\ s_watchers s = [(1%nat, 2); (0%nat, 1)] /\ s_unitEpoch s = 2.
Proof. eexists. split; [vm_compute; reflexivity|]. vm_compute. repeat split. Qed.

(** The service does not close the supervisor when it stops the server: the exit counts as a
    failure, and the server is started again when the backoff is over. *)
Example stopped_server_restarts :
  exists s, run (steady Second healthy) [IStart; IExit 0 0; IFire 1; IRun 0] wired = Some s
    /\ s_phase s = PhaseReady /\ s_unit s = Some 1%nat /\ s_units s = 2%nat.
Proof. eexists. split; [vm_compute; reflexivity|]. vm_compute. repeat split. Qed.

End WslDemo.
