(* ===== verification/AgentHook.v ===== *)
(** * host/lib/agenthook: hooks in the settings of the agents

    install.go: registering the daemon's command for the events of an agent in its
    settings.json, and its MCP servers.  A decoded JSON value is a value of [any]; reading and
    writing JSON text is a parameter ([JSON]).  The settings file is its content; the errors
    of the operating system and the temporary file are inputs ([Disk]).  A lock serialises the
    writers, so one installation is a function. *)

From Stdlib Require Import String.
From S2P Require Import Prelude GoStd GoStrings ShellArgs.

(** ** Values *)

(** A value of type any: as json.Unmarshal makes them, and the []string the code puts in. *)
#[warnings="-register-all"]
Inductive any :=
| ANull | ABool (b : bool) | ANumber (text : string) | AString (s : string)
| AArray (l : list any) | AObject (m : gmap string any) | AStrings (l : list string).

Abbreviation object := (gmap string any).

(** Type assertions. *)
Definition as_object (v : option any) : option object := match v with Some (AObject m) => Some m | _ => None end.
Definition as_array (v : option any) : option (list any) := match v with Some (AArray l) => Some l | _ => None end.
Definition as_string (v : option any) : string := match v with Some (AString s) => s | _ => "" end.

(** ** Specs *)

Record Spec := mkSpec {
  sp_Name : string; sp_Events : list string; sp_SettingsRel : string; sp_SubcmdName : string; sp_StaleMarker : string }.

Definition Claude : Spec :=
  mkSpec "claude"
    ["SessionStart"; "SessionEnd"; "PreToolUse"; "PostToolUse"; "PostToolUseFailure"; "Stop"; "StopFailure";
     "UserPromptSubmit"; "PreCompact"; "PostCompact"; "Notification"; "SubagentStart"; "SubagentStop";
     "TaskCreated"; "TaskCompleted"]
    ".claude/settings.json" "claude-setup-hooks" " event claude".

Definition Gemini : Spec :=
  mkSpec "gemini"
    ["SessionStart"; "SessionEnd"; "BeforeTool"; "AfterTool"; "BeforeAgent"; "AfterAgent"; "Notification"; "PreCompress"]
    ".gemini/settings.json" "gemini-setup-hooks" " event gemini".

Definition All : list Spec := [Claude; Gemini].

(** ** Entries *)

Definition newHookEntry (hookCmd : string) : any :=
  AObject {["hooks" := AArray [AObject (<["type" := AString "command"]> {["command" := AString hookCmd]})]]}.

(** strings.Index: what follows the first occurrence. *)
Fixpoint after_first (s sub : string) : option string :=
  if HasPrefix s sub then Some (drop_bytes (String.length sub) s)
  else match s with
       | EmptyString => None
       | String _ s => after_first s sub
       end.

Definition hasStaleCmd (cmd marker : string) : bool :=
  match after_first cmd marker with
  | None => false
  | Some after => bool_decide (after = "") || HasPrefix after " "
  end.

Definition entryHooks (entry : any) : list object :=
  match entry with
  | AObject m => omap (fun x => as_object (Some x)) (default [] (as_array (m !! "hooks")))
  | _ => []
  end.

Definition hook_command (h : object) : string := as_string (h !! "command").

(** What scanList finds in one entry. *)
Definition hasExact (hookCmd : string) (entry : any) : bool :=
  existsb (fun h => bool_decide (hook_command h = hookCmd)) (entryHooks entry).

Definition isStale (hookCmd staleMarker : string) (entry : any) : bool :=
  existsb (fun h => negb (bool_decide (hook_command h = hookCmd)) && negb (bool_decide (staleMarker = ""))
                    && hasStaleCmd (hook_command h) staleMarker) (entryHooks entry)
  && negb (hasExact hookCmd entry).

(** The walk over the list, from index [i]; [None] is -1. *)
Fixpoint scan (hookCmd staleMarker : string) (i : nat) (l : list any) (exactIdx staleIdx : option nat) :
    option nat * option nat :=
  match l with
  | [] => (exactIdx, staleIdx)
  | entry :: l =>
    let first (found : bool) (idx : option nat) :=
      if found && bool_decide (idx = None) then Some i else idx in
    scan hookCmd staleMarker (S i) l (first (hasExact hookCmd entry) exactIdx)
      (first (isStale hookCmd staleMarker entry) staleIdx)
  end.

Definition scanList (l : list any) (hookCmd staleMarker : string) : option nat * option nat :=
  scan hookCmd staleMarker 0 l None None.

Definition removeIndex (l : list any) (i : nat) : list any := take i l ++ drop (S i) l.

Definition mapField (root : object) (key : string) : object := default ∅ (as_object (root !! key)).

Definition listField (m : object) (key : string) : list any := default [] (as_array (m !! key)).

(** The switch of applyToHooks: the new list, and whether it changed. *)
Definition apply_event (hookCmd staleMarker : string) (l : list any) : list any * bool :=
  match scanList l hookCmd staleMarker with
  | (None, None) => (l ++ [newHookEntry hookCmd], true)
  | (None, Some staleIdx) => (<[staleIdx := newHookEntry hookCmd]> l, true)
  | (Some _, Some staleIdx) => (removeIndex l staleIdx, true)
  | (Some _, None) => (l, false)
  end.

(** The loop over the events. *)
Fixpoint apply_events (hookCmd staleMarker : string) (events : list string) (hooks : object) : object * list string :=
  match events with
  | [] => (hooks, [])
  | ev :: events =>
    let '(l, changed) := apply_event hookCmd staleMarker (listField hooks ev) in
    let '(hooks, registered) := apply_events hookCmd staleMarker events (<[ev := AArray l]> hooks) in
    (hooks, if changed then ev :: registered else registered)
  end.

Definition applyToHooks (hooks : object) (hookCmd : string) (spec : Spec) : object * list string :=
  apply_events hookCmd (sp_StaleMarker spec) (sp_Events spec) hooks.

(** ** MCP servers *)

Record MCPServerEntry := mkMCP {
  mc_Alias : string; mc_Type : string; mc_Command : string; mc_Args : list string; mc_PreserveExisting : bool;
  mc_RewriteArgsPrefix : list string }.

Definition mcpServerOwnedBy (existing : any) (argsPrefix : list string) : bool :=
  if bool_decide (argsPrefix = []) then false
  else match existing with
       | AObject entry =>
         let rawArgs := default [] (as_array (entry !! "args")) in
         (length argsPrefix <=? length rawArgs)%nat
         && bool_decide (Forall2 (fun want got => as_string (Some got) = want) argsPrefix
                           (take (length argsPrefix) rawArgs))
       | _ => false
       end.

(** The value an entry is written as. *)
Definition mcp_value (entry : MCPServerEntry) : object :=
  let value := <["type" := AString (mc_Type entry)]> {["command" := AString (mc_Command entry)]} in
  if bool_decide (mc_Args entry = []) then value else <["args" := AStrings (mc_Args entry)]> value.

Definition mcpServerEqual (existing : any) (want : MCPServerEntry) : bool :=
  match existing with
  | AObject entry =>
    bool_decide (as_string (entry !! "type") = mc_Type want)
    && bool_decide (as_string (entry !! "command") = mc_Command want)
    && (let gotArgs := default [] (as_array (entry !! "args")) in
        bool_decide (length gotArgs = length (mc_Args want))
        && bool_decide (Forall2 (fun got want => as_string (Some got) = want) gotArgs (mc_Args want)))
  | _ => false
  end.

Fixpoint apply_servers (entries : list MCPServerEntry) (servers : object) : object * bool :=
  match entries with
  | [] => (servers, false)
  | entry :: entries =>
    if bool_decide (TrimSpace (mc_Alias entry) = "") || bool_decide (TrimSpace (mc_Command entry) = "")
    then apply_servers entries servers
    else
      let write := (apply_servers entries (<[mc_Alias entry := AObject (mcp_value entry)]> servers)).1 in
      match servers !! mc_Alias entry with
      | None => (write, true)
      | Some existing =>
        if mc_PreserveExisting entry && negb (mcpServerOwnedBy existing (mc_RewriteArgsPrefix entry))
        then apply_servers entries servers
        else if mcpServerEqual existing entry then apply_servers entries servers
        else (write, true)
      end
  end.

Definition applyMCPServers (root : object) (entries : list MCPServerEntry) : object * bool :=
  if bool_decide (entries = []) then (root, false)
  else
    let '(servers, changed) := apply_servers entries (mapField root "mcpServers") in
    (<["mcpServers" := AObject servers]> root, changed).

(** ** The settings file *)

(** encoding/json: decoding into a map[string]any ([None] is an error, [Some None] the JSON
    null) and the indented encoding, with the newline the code appends. *)
Class JSON := { json_Unmarshal : string -> option (option object); json_MarshalIndent : object -> string }.

(** Which of the calls to the operating system fail: making the directory, taking the lock,
    reading a file that may be there, and those of the write up to the rename. *)
Record Disk := mkDisk {
  di_mkdirErr : bool; di_lockErr : bool; di_readErr : bool; di_writeErr : bool }.

Inductive InstallError :=
| EmptyPath | EmptyCommand | NoEvents | MkdirFailed | LockFailed | ReadFailed | ParseFailed | WriteFailed.

Section Install.
Context `{JSON}.

(** [file]: the content of settings.json, [None] when it does not exist. *)
Definition readOrInit (d : Disk) (file : option string) : option string :=
  if di_readErr d then None else Some (default "{}" file).

(** The temporary file takes the place of the settings as a whole, or an error leaves them
    as they were.  (The backup is best effort.) *)
Definition backupAndWrite (d : Disk) (file : option string) (root : object) : option string * option InstallError :=
  if di_writeErr d then (file, Some WriteFailed) else (Some (json_MarshalIndent root), None).

(** Making the directory, locking, reading and decoding, which the two installers share:
    the settings, or the error. *)
Definition load_settings (d : Disk) (file : option string) : InstallError + object :=
  if di_mkdirErr d then inl MkdirFailed
  else if di_lockErr d then inl LockFailed
  else match readOrInit d file with
       | None => inl ReadFailed
       | Some prev =>
         match json_Unmarshal prev with
         | None => inl ParseFailed
         | Some root => inr (default ∅ root)
         end
       end.

(** The file afterwards, the events that were registered and the error. *)
Definition Install (d : Disk) (settingsPath hookCmd : string) (spec : Spec) (file : option string) :
    option string * list string * option InstallError :=
  if bool_decide (settingsPath = "") then (file, [], Some EmptyPath)
  else if bool_decide (TrimSpace hookCmd = "") then (file, [], Some EmptyCommand)
  else if bool_decide (sp_Events spec = []) then (file, [], Some NoEvents)
  else match load_settings d file with
       | inl err => (file, [], Some err)
       | inr root =>
         let '(hooks, registered) := applyToHooks (mapField root "hooks") hookCmd spec in
         if bool_decide (registered = []) then (file, [], None)
         else let '(file, err) := backupAndWrite d file (<["hooks" := AObject hooks]> root) in
              (file, registered, err)
       end.

(** The file afterwards, whether the settings changed and the error. *)
Definition InstallMCPServers (d : Disk) (settingsPath : string) (entries : list MCPServerEntry) (file : option string) :
    option string * bool * option InstallError :=
  if bool_decide (settingsPath = "") then (file, false, Some EmptyPath)
  else if bool_decide (entries = []) then (file, false, None)
  else match load_settings d file with
       | inl err => (file, false, Some err)
       | inr root =>
         let '(root, changed) := applyMCPServers root entries in
         if negb changed then (file, false, None)
         else let '(file, err) := backupAndWrite d file root in (file, true, err)
       end.

End Install.

(** ** The command *)

Definition safe_byte (c : ascii) : bool :=
  let b := byte_Z c in
  in_range 97 122 b || in_range 65 90 b || in_range 48 57 b
  || bool_decide (c ∈ list_ascii_of_string "_-/.:+=@").

Definition needsShellQuote (s : string) : bool := existsb (fun c => negb (safe_byte c)) (list_ascii_of_string s).

Fixpoint quote_bytes (s : string) : string :=
  match s with
  | EmptyString => EmptyString
  | String c s =>
    if bool_decide (c = quote) then String quote (String backslash (String quote (String quote (quote_bytes s))))
    else String c (quote_bytes s)
  end.

Definition shellQuote (s : string) : string :=
  if bool_decide (s = "") then "''"
  else if negb (needsShellQuote s) then s
  else String quote (quote_bytes s +:+ String quote EmptyString).

Definition BuildHookCmd (binPath dataDir : string) (spec : Spec) : string :=
  let cmd := shellQuote binPath +:+ " event " +:+ sp_Name spec in
  if bool_decide (dataDir = "") then cmd else cmd +:+ " -data-dir " +:+ shellQuote dataDir.

(** * host/lib/agenthook: what an installation does to the settings

    [apply_event_spec]: the four cases of an event's list.  [install_registers]: an
    installation edits the list of every event in exactly one of four ways.
    [install_converges]: how many runs it takes until nothing changes.
    [BuildHookCmd_argv], [moved_binary_rewritten]: the command a shell reads back, and
    that a former one is recognised. *)

Section Event.
Context (hookCmd staleMarker : string).

Abbreviation exact := (hasExact hookCmd).
Abbreviation stale := (isStale hookCmd staleMarker).

Definition keep (f : any -> bool) (l : list any) : list any := List.filter f l.

Definition stale_count (l : list any) : nat := length (keep stale l).

Definition find_index (f : any -> bool) (l : list any) : option nat := fst <$> list_find (fun x => f x = true) l.

Lemma find_index_cons f x l :
  find_index f (x :: l) = if f x then Some 0%nat else S <$> find_index f l.
Proof.
  unfold find_index. simpl. destruct (f x) eqn:E; case_decide; try congruence; simpl; [done|].
  by destruct (list_find _ l) as [[]|].
Qed.

Lemma scan_spec l : forall i e s,
  scan hookCmd staleMarker i l e s =
  (match e with Some _ => e | None => Nat.add i <$> find_index exact l end,
   match s with Some _ => s | None => Nat.add i <$> find_index stale l end).
Proof.
  induction l as [|x l IH]; intros i e s; simpl; [by destruct e, s|]. rewrite IH, !find_index_cons.
  destruct (hasExact hookCmd x), (isStale hookCmd staleMarker x), e, s; simpl; try done;
    f_equal; try (rewrite Nat.add_0_r; done);
    repeat match goal with |- context [find_index ?f l] => destruct (find_index f l) end; simpl; try done; f_equal; lia.
Qed.

Lemma scanList_spec l : scanList l hookCmd staleMarker = (find_index exact l, find_index stale l).
Proof. unfold scanList. rewrite scan_spec. by destruct (find_index exact l), (find_index stale l). Qed.

Lemma find_index_split f l i :
  find_index f l = Some i ->
  exists l1 x l2, l = l1 ++ x :: l2 /\ i = length l1 /\ f x = true /\ existsb f l1 = false.
Proof.
  revert i. induction l as [|x l IH]; intros i Hi; [done|]. rewrite find_index_cons in Hi.
  destruct (f x) eqn:Ex; [injection Hi as <-; by exists [], x, l|].
  destruct (find_index f l) as [j|] eqn:Ej; [|done]. injection Hi as <-.
  destruct (IH j eq_refl) as (l1 & y & l2 & -> & -> & Hy & H1).
  exists (x :: l1), y, l2. simpl. by rewrite Ex.
Qed.

Lemma find_index_none f l : find_index f l = None <-> existsb f l = false.
Proof.
  induction l as [|x l IH]; [done|]. rewrite find_index_cons. simpl. destruct (f x); [done|].
  rewrite <- IH. by destruct (find_index f l).
Qed.

Lemma keep_none f l : existsb f l = false -> keep f l = [].
Proof. induction l as [|x l IH]; simpl; [done|]. by destruct (f x). Qed.

Lemma keep_app f l1 l2 : keep f (l1 ++ l2) = keep f l1 ++ keep f l2.
Proof. apply List.filter_app. Qed.

Lemma newHookEntry_exact : exact (newHookEntry hookCmd) = true.
Proof.
  unfold hasExact, newHookEntry, entryHooks. rewrite lookup_singleton_eq. simpl. unfold hook_command.
  rewrite lookup_insert_ne by done. rewrite lookup_singleton_eq. simpl. by rewrite bool_decide_true.
Qed.

Lemma exact_not_stale x : exact x = true -> stale x = false.
Proof. intros Hx. unfold isStale. by rewrite Hx, andb_false_r. Qed.

Lemma stale_not_exact x : stale x = true -> exact x = false.
Proof. intros Hx. destruct (exact x) eqn:E; [|done]. apply exact_not_stale in E. congruence. Qed.

Lemma keep_exists f l : existsb f l = true -> keep f l <> [].
Proof. induction l as [|x l IH]; simpl; [done|]. by destruct (f x). Qed.

Lemma keep_cons f x l : keep f (x :: l) = if f x then x :: keep f l else keep f l.
Proof. done. Qed.

Lemma removeIndex_middle l1 x l2 : removeIndex (l1 ++ x :: l2) (length l1) = l1 ++ l2.
Proof. unfold removeIndex. rewrite take_app_length. f_equal. induction l1; [done|]. apply IHl1. Qed.

Lemma insert_middle (l1 : list any) x y l2 : <[length l1 := y]> (l1 ++ x :: l2) = l1 ++ y :: l2.
Proof. induction l1 as [|z l1 IH]; simpl; [done|]. by f_equal. Qed.

(** An event's list before and after.  With no stale entry it stays as it is where the
    command was registered, and otherwise gets the new entry at its end.  With one, the
    first stale entry, whatever else it holds, is removed where the command was
    registered and otherwise replaced by the new entry; all around it stays. *)
Definition edited (l l' : list any) : Prop :=
  (existsb stale l = false /\ l' = if existsb exact l then l else l ++ [newHookEntry hookCmd]) \/
  (exists l1 x l2, l = l1 ++ x :: l2 /\ existsb stale l1 = false /\ stale x = true /\
     l' = if existsb exact l then l1 ++ l2 else l1 ++ newHookEntry hookCmd :: l2).

Lemma apply_event_spec l :
  let '(l', changed) := apply_event hookCmd staleMarker l in
  edited l l' /\ changed = negb (existsb exact l) || existsb stale l.
Proof.
  unfold apply_event, edited. rewrite scanList_spec.
  assert (forall f, existsb f l = bool_decide (is_Some (find_index f l))) as He.
  { intros f. pose proof (find_index_none f l) as Hn. destruct (find_index f l), (existsb f l); try done.
    - by destruct Hn as [_ Hn]; specialize (Hn eq_refl).
    - by destruct Hn as [Hn _]; specialize (Hn eq_refl). }
  rewrite !He. destruct (find_index stale l) as [k|] eqn:Es.
  - destruct (find_index_split _ _ _ Es) as (l1 & x & l2 & -> & -> & Hx & H1).
    destruct (find_index exact (l1 ++ x :: l2)) as [j|] eqn:Ee;
      rewrite ?removeIndex_middle, ?insert_middle; simpl; (split; [right; exists l1, x, l2|]; done).
  - destruct (find_index exact l) as [j|]; simpl; (split; [by left|done]).
Qed.

(** What follows for the command and for the stale entries. *)
Lemma edited_exact l l' : edited l l' -> existsb exact l' = true.
Proof.
  pose proof newHookEntry_exact as Hnew. intros [[_ ->]|(l1 & x & l2 & -> & _ & Hx & ->)].
  - destruct (existsb exact l) eqn:E; [done|]. rewrite existsb_app. simpl. by rewrite Hnew, orb_true_r.
  - apply stale_not_exact in Hx. destruct (existsb exact (l1 ++ x :: l2)) eqn:E; rewrite existsb_app in *; simpl in *.
    + by rewrite Hx in E.
    + by rewrite Hnew, orb_true_r.
Qed.

Lemma edited_stale l l' : edited l l' -> stale_count l' = pred (stale_count l).
Proof.
  pose proof (exact_not_stale _ newHookEntry_exact) as Hnew. unfold stale_count.
  intros [[H0 ->]|(l1 & x & l2 & -> & H1 & Hx & ->)].
  - apply keep_none in H0. case_match; rewrite ?keep_app, ?keep_cons, ?Hnew, ?H0; done.
  - apply keep_none in H1. rewrite !keep_app, keep_cons, Hx, H1. simpl.
    case_match; rewrite keep_app, ?keep_cons, ?Hnew, H1; done.
Qed.

Lemma stale_count_zero l : (stale_count l =? 0)%nat = negb (existsb stale l).
Proof.
  unfold stale_count. destruct (existsb stale l) eqn:E; [|by rewrite keep_none].
  apply keep_exists in E. by destruct (keep stale l).
Qed.

End Event.

(** ** The events *)

Section Events.
Context (hookCmd staleMarker : string).

Abbreviation update := (apply_event hookCmd staleMarker).

Lemma listField_insert hooks ev ev' l :
  listField (<[ev := AArray l]> hooks) ev' = if bool_decide (ev = ev') then l else listField hooks ev'.
Proof.
  unfold listField. case_bool_decide; subst; [by rewrite lookup_insert_eq|by rewrite lookup_insert_ne].
Qed.

Lemma apply_events_spec events : forall hooks,
  NoDup events ->
  (forall ev, ev ∈ events -> listField (apply_events hookCmd staleMarker events hooks).1 ev = (update (listField hooks ev)).1)
  /\ (forall key, key ∉ events -> (apply_events hookCmd staleMarker events hooks).1 !! key = hooks !! key)
  /\ (apply_events hookCmd staleMarker events hooks).2 = List.filter (fun ev => (update (listField hooks ev)).2) events.
Proof.
  induction events as [|e events IH]; intros hooks Hnd; simpl; [split; [by intros ev ?%elem_of_nil|done]|].
  apply NoDup_cons in Hnd as [He Hnd]. destruct (update (listField hooks e)) as [l changed] eqn:El.
  destruct (IH (<[e := AArray l]> hooks) Hnd) as (Hin & Hout & Hreg).
  destruct (apply_events _ _ events _) as [hooks' registered]. simpl in *. split; [|split].
  - intros ev Hev. destruct (decide (ev = e)) as [->|Hne].
    + unfold listField at 1. rewrite Hout by done. rewrite lookup_insert_eq. by rewrite El.
    + rewrite Hin by set_solver. rewrite listField_insert. by rewrite bool_decide_false.
  - intros key Hkey. rewrite Hout by set_solver. rewrite lookup_insert_ne; [done|set_solver].
  - rewrite Hreg. assert (forall es, e ∉ es ->
      List.filter (fun ev => (update (listField (<[e:=AArray l]> hooks) ev)).2) es
      = List.filter (fun ev => (update (listField hooks ev)).2) es) as ->.
    { intros es Hes. apply List.filter_ext_in. intros ev Hev%list_elem_of_In.
      rewrite listField_insert. rewrite bool_decide_false; [done|]. intros ->. done. }
    { by destruct changed. }
    done.
Qed.

End Events.

(** ** Installing *)

Section Installed.
Context `{JSON} (hookCmd : string) (spec : Spec).

Abbreviation exact := (hasExact hookCmd).
Abbreviation orphans := (stale_count hookCmd (sp_StaleMarker spec)).
Abbreviation events := (sp_Events spec).

Abbreviation registered_in := (edited hookCmd (sp_StaleMarker spec)).

Definition needs_change (l : list any) : bool :=
  negb (existsb exact l) || existsb (isStale hookCmd (sp_StaleMarker spec)) l.

Lemma applyToHooks_spec hooks :
  NoDup events ->
  let '(hooks', registered) := applyToHooks hooks hookCmd spec in
  (forall ev, ev ∈ events -> registered_in (listField hooks ev) (listField hooks' ev))
  /\ (forall key, key ∉ events -> hooks' !! key = hooks !! key)
  /\ registered = List.filter (fun ev => needs_change (listField hooks ev)) events.
Proof.
  intros Hnd. unfold applyToHooks.
  destruct (apply_events_spec hookCmd (sp_StaleMarker spec) events hooks Hnd) as (Hin & Hout & Hreg).
  destruct (apply_events _ _ _ _) as [hooks' registered]. simpl in *. split; [|split; [done|]].
  - intros ev Hev. rewrite Hin by done. pose proof (apply_event_spec hookCmd (sp_StaleMarker spec) (listField hooks ev)) as Hl.
    by destruct (apply_event _ _ _), Hl.
  - rewrite Hreg. apply List.filter_ext. intros ev. pose proof (apply_event_spec hookCmd (sp_StaleMarker spec) (listField hooks ev)) as Hl.
    by destruct (apply_event _ _ _), Hl.
Qed.

(** C23: an installation that fails leaves the settings file as it was.  One that succeeds
    leaves the command registered for every event of the spec, and edits the event's list
    in exactly one way.  A list without a stale
    entry (one holding a former command of the program) is kept as it is where the command
    was registered and gets the new entry at its end where it was not.  In a list with stale
    entries the first of them is removed as a whole, or replaced by the new entry where the
    command was not registered, with any hook and matcher of others that shared the entry;
    every other entry stays, in its order.  A value under one of the events, or under the
    hooks key, that is not of the expected type counts as empty and is replaced.  The other
    events and the other settings stay; the events reported are those that lacked the
    command or had a stale entry; and the file is written when there is such an event and
    otherwise left alone. *)
Theorem install_registers d settingsPath file file' registered err :
  NoDup events ->
  Install d settingsPath hookCmd spec file = (file', registered, err) ->
  match err with
  | Some _ => file' = file
  | None => exists root hooks',
      load_settings d file = inr root
      /\ (forall ev, ev ∈ events ->
            registered_in (listField (mapField root "hooks") ev) (listField hooks' ev)
            /\ existsb exact (listField hooks' ev) = true)
      /\ (forall key, key ∉ events -> hooks' !! key = mapField root "hooks" !! key)
      /\ registered = List.filter (fun ev => needs_change (listField (mapField root "hooks") ev)) events
      /\ file' = (if bool_decide (registered = []) then file
                  else Some (json_MarshalIndent (<["hooks" := AObject hooks']> root)))
  end.
Proof.
  intros Hnd Hrun. unfold Install in Hrun.
  do 3 (case_bool_decide; [by injection Hrun as <- _ <-|]).
  destruct (load_settings d file) as [e|root] eqn:El; [by simplify_eq/=|].
  pose proof (applyToHooks_spec (mapField root "hooks") Hnd) as Hspec.
  destruct (applyToHooks _ _ _) as [hooks' reg]. destruct Hspec as (Hev & Hkey & Hreg).
  assert (forall ev, ev ∈ events -> registered_in (listField (mapField root "hooks") ev) (listField hooks' ev)
    /\ existsb exact (listField hooks' ev) = true) as Hevs.
  { intros ev Hin. split; [by apply Hev|]. by eapply edited_exact, Hev. }
  case_bool_decide as Hnil.
  - injection Hrun as <- <- <-. exists root, hooks'. rewrite Hnil in Hreg. by split_and!.
  - unfold backupAndWrite in Hrun. destruct (di_writeErr d); simplify_eq/=; [done|].
    exists root, hooks'. rewrite (bool_decide_false _ Hnil). by split_and!.
Qed.

(** [k] installations, one after the other. *)
Definition runs (k : nat) (hooks : object) : object := Nat.iter k (fun h => (applyToHooks h hookCmd spec).1) hooks.

Lemma runs_list k hooks ev :
  NoDup events -> ev ∈ events ->
  orphans (listField (runs k hooks) ev) = (orphans (listField hooks ev) - k)%nat
  /\ ((0 < k)%nat -> existsb exact (listField (runs k hooks) ev) = true).
Proof.
  intros Hnd Hev. induction k as [|k [IH _]]; simpl; [split; lia|].
  pose proof (applyToHooks_spec (runs k hooks) Hnd) as Hspec.
  unfold runs in *. destruct (applyToHooks _ _ _) as [hooks' reg]. destruct Hspec as (Hall & _).
  specialize (Hall ev Hev). simpl. split; [|intros _; by apply edited_exact in Hall].
  apply edited_stale in Hall as ->. rewrite IH. lia.
Qed.

(** Repeated installations come to rest.  After [k] of them, one or more, the next
    one changes exactly the events that had more than [k] stale entries to begin with: with at
    most one, which is what the program itself leaves behind, the second run already
    changes nothing. *)
Theorem install_converges k hooks :
  NoDup events -> (0 < k)%nat ->
  (applyToHooks (runs k hooks) hookCmd spec).2
  = List.filter (fun ev => (k <? orphans (listField hooks ev))%nat) events.
Proof.
  intros Hnd Hk. pose proof (applyToHooks_spec (runs k hooks) Hnd) as Hspec.
  destruct (applyToHooks (runs k hooks) hookCmd spec) as [hooks' reg]. destruct Hspec as (_ & _ & ->). simpl.
  apply List.filter_ext_in. intros ev Hev%list_elem_of_In.
  destruct (runs_list k hooks ev Hnd Hev) as [Ho He]. unfold needs_change. rewrite He by done. simpl.
  rewrite <- (negb_involutive (existsb _ _)), <- stale_count_zero, Ho.
  destruct (Nat.ltb_spec k (orphans (listField hooks ev))), (Nat.eqb_spec (orphans (listField hooks ev) - k) 0); lia || done.
Qed.

End Installed.

(** ** The command *)

Lemma quote_bytes_replace s : quote_bytes s = ReplaceByte s quote escaped_quote.
Proof. induction s as [|c s IH]; simpl; [done|]. rewrite IH. by case_bool_decide. Qed.

Lemma safe_byte_is_plain c : safe_byte c = true -> plain_byte c = true.
Proof. by destruct c as [[] [] [] [] [] [] [] []]. Qed.

Lemma unquoted_plain s :
  needsShellQuote s = false -> Forall (fun c => plain_byte c = true) (list_ascii_of_string s).
Proof.
  unfold needsShellQuote. induction (list_ascii_of_string s) as [|c l IH]; simpl; [done|].
  intros [Hc Hl]%orb_false_iff. constructor; [|by apply IH]. apply negb_false_iff in Hc.
  by apply safe_byte_is_plain.
Qed.

(** A shell reads the quoted text back as one word. *)
Lemma shellQuote_lexes s : lexes_to (shellQuote s) s.
Proof.
  intros d. unfold shellQuote. destruct (bool_decide_reflect (s = "")) as [->|Hne]; [done|].
  destruct (needsShellQuote s) eqn:Hs; simpl.
  - rewrite quote_bytes_replace. change (String quote ?x) with (single quote +:+ x).
    rewrite !arun_app. change (arun (start d) (single quote)) with (mkA Single true "" (single quote) d).
    rewrite arun_quoted. simpl. rewrite !str_app_nil. unfold WriteByte, single. by rewrite !str_app_assoc.
  - unfold start. rewrite arun_plain; [done| |by left]. by apply unquoted_plain.
Qed.

(** The arguments a shell passes: the binary, the event command and the directory, whatever
    bytes the two paths have. *)
Lemma BuildHookCmd_argv binPath dataDir spec :
  sp_Name spec <> "" -> needsShellQuote (sp_Name spec) = false ->
  SplitArgs (BuildHookCmd binPath dataDir spec)
  = Some (inr ([binPath; "event"; sp_Name spec] ++ if bool_decide (dataDir = "") then [] else ["-data-dir"; dataDir])).
Proof.
  intros Hne Hsafe. unfold SplitArgs. rewrite LexArgs_lex.
  set (word s := mkArgToken s s). set (path s := mkArgToken (shellQuote s) s).
  assert (forall s, s <> "" -> needsShellQuote s = false -> lexes_to s s) as Hword.
  { intros s Hs Hq d. unfold start. rewrite arun_plain; [done|by apply unquoted_plain|by left]. }
  pose proof (lex_join ([path binPath; word "event"; word (sp_Name spec)]
    ++ if bool_decide (dataDir = "") then [] else [word "-data-dir"; path dataDir])) as Hlex.
  assert (BuildHookCmd binPath dataDir spec = strings_Join (map Raw ([path binPath; word "event"; word (sp_Name spec)]
    ++ if bool_decide (dataDir = "") then [] else [word "-data-dir"; path dataDir])) " ") as ->.
  { unfold BuildHookCmd. case_bool_decide; simpl; rewrite ?str_app_assoc; done. }
  rewrite Hlex; [by case_bool_decide|].
  repeat (apply Forall_cons; split; [apply shellQuote_lexes || by apply Hword|]).
  case_bool_decide; repeat (apply Forall_cons; split; [apply shellQuote_lexes || by apply Hword|]); by constructor.
Qed.

Definition blank : ascii := ascii_of_nat 32.

Definition no_blank (s : string) : Prop := Forall (fun c => c <> blank) (list_ascii_of_string s).

Lemma prefix_app p s : String.prefix p (p +:+ s) = true.
Proof. induction p as [|c p IH]; simpl; [by destruct s|]. by destruct (ascii_dec c c). Qed.

Lemma drop_bytes_app p s : drop_bytes (String.length p) (p +:+ s) = s.
Proof. by induction p as [|c p IH]. Qed.

Lemma after_first_here sub s : after_first (sub +:+ s) sub = Some s.
Proof.
  pose proof (prefix_app sub s) as Hp. pose proof (drop_bytes_app sub s) as Hd. unfold after_first, HasPrefix.
  destruct (sub +:+ s); by rewrite Hp, Hd.
Qed.

Lemma prefix_apart c c' p s : c' <> c -> String.prefix (String c p) (String c' s) = false.
Proof. intros Hc. cbn [String.prefix]. destruct (ascii_dec c c') as [->|]; done. Qed.

Lemma after_first_skip q sub s :
  no_blank q -> after_first (q +:+ String blank sub +:+ s) (String blank sub) = Some s.
Proof.
  intros Hq. induction q as [|c q IH]; [apply (after_first_here (String blank sub) s)|].
  inversion_clear Hq as [|? ? Hc Hq']. rewrite str_app_cons. cbn [after_first]. unfold HasPrefix.
  rewrite prefix_apart by done. by apply IH.
Qed.

Lemma no_blank_app a b : no_blank a -> no_blank b -> no_blank (a +:+ b).
Proof. unfold no_blank. rewrite ascii_app. intros. by apply Forall_app. Qed.

Lemma quote_bytes_no_blank s : no_blank s -> no_blank (quote_bytes s).
Proof.
  induction s as [|c s IH]; intros Hs; [done|]. inversion_clear Hs as [|? ? Hc Hs'].
  specialize (IH Hs'). unfold no_blank in *. simpl. case_bool_decide; simpl; repeat constructor; done.
Qed.

Lemma shellQuote_no_blank s : no_blank s -> no_blank (shellQuote s).
Proof.
  intros Hs. unfold shellQuote. case_bool_decide; [by repeat constructor|].
  destruct (needsShellQuote s); simpl; [|done]. constructor; [done|].
  apply no_blank_app; [by apply quote_bytes_no_blank|by repeat constructor].
Qed.

(** The commands the program has built are recognised when the path of the binary has no
    blank. *)
Lemma former_command_stale binPath dataDir spec :
  sp_StaleMarker spec = " event " +:+ sp_Name spec -> no_blank binPath ->
  hasStaleCmd (BuildHookCmd binPath dataDir spec) (sp_StaleMarker spec) = true.
Proof.
  intros Hm Hb. unfold hasStaleCmd, BuildHookCmd. rewrite Hm.
  apply shellQuote_no_blank in Hb. case_bool_decide.
  - pose proof (after_first_skip (shellQuote binPath) ("event " +:+ sp_Name spec) "" Hb) as Ha.
    change (String blank ("event " +:+ sp_Name spec)) with (" event " +:+ sp_Name spec) in Ha.
    rewrite str_app_nil_r in Ha. by rewrite Ha.
  - pose proof (after_first_skip (shellQuote binPath) ("event " +:+ sp_Name spec) (" -data-dir " +:+ shellQuote dataDir) Hb) as Ha.
    change (String blank ("event " +:+ sp_Name spec)) with (" event " +:+ sp_Name spec) in Ha.
    rewrite !str_app_assoc in Ha. rewrite !str_app_assoc. by rewrite Ha.
Qed.

Lemma newHookEntry_command hookCmd : entryHooks (newHookEntry hookCmd)
  = [<["type" := AString "command"]> {["command" := AString hookCmd]}].
Proof. unfold newHookEntry, entryHooks. by rewrite lookup_singleton_eq. Qed.

Lemma find_index_middle f l1 x l2 :
  existsb f l1 = false -> f x = true -> find_index f (l1 ++ x :: l2) = Some (length l1).
Proof.
  induction l1 as [|y l1 IH]; simpl; intros H1 Hx; rewrite find_index_cons; [by rewrite Hx|].
  apply orb_false_iff in H1 as [-> H1]. by rewrite IH.
Qed.

Lemma existsb_orb (f g : any -> bool) l :
  existsb (fun x => f x || g x) l = false -> existsb f l = false /\ existsb g l = false.
Proof.
  induction l as [|x l IH]; simpl; [done|]. intros [[-> ->]%orb_false_iff Hl]%orb_false_iff. by apply IH.
Qed.

(** A binary or directory that moved: the entry of the former command is rewritten in place. *)
Lemma moved_binary_rewritten spec oldBin oldDir newBin newDir l1 l2 :
  spec ∈ All -> no_blank oldBin ->
  BuildHookCmd oldBin oldDir spec <> BuildHookCmd newBin newDir spec ->
  existsb (fun e => hasExact (BuildHookCmd newBin newDir spec) e || isStale (BuildHookCmd newBin newDir spec) (sp_StaleMarker spec) e)
    (l1 ++ l2) = false ->
  apply_event (BuildHookCmd newBin newDir spec) (sp_StaleMarker spec)
    (l1 ++ newHookEntry (BuildHookCmd oldBin oldDir spec) :: l2)
  = (l1 ++ newHookEntry (BuildHookCmd newBin newDir spec) :: l2, true).
Proof.
  intros Hspec Hb Hmoved Hrest.
  assert (sp_StaleMarker spec = " event " +:+ sp_Name spec) as Hm.
  { by repeat (apply elem_of_cons in Hspec as [->|Hspec]; [reflexivity|]); apply elem_of_nil in Hspec. }
  pose proof (former_command_stale oldBin oldDir spec Hm Hb) as Hs.
  set (old := BuildHookCmd oldBin oldDir spec) in *. set (new := BuildHookCmd newBin newDir spec) in *.
  assert (hook_command (<["type" := AString "command"]> {["command" := AString old]}) = old) as Hcmd.
  { unfold hook_command. rewrite lookup_insert_ne by done. by rewrite lookup_singleton_eq. }
  assert (hasExact new (newHookEntry old) = false) as Hne.
  { unfold hasExact. rewrite newHookEntry_command. simpl. rewrite Hcmd. by rewrite bool_decide_false. }
  assert (isStale new (sp_StaleMarker spec) (newHookEntry old) = true) as Hst.
  { unfold isStale. rewrite Hne, newHookEntry_command. simpl. rewrite Hcmd, Hs, !bool_decide_false; [done| |done].
    rewrite Hm. done. }
  rewrite existsb_app in Hrest. apply orb_false_iff in Hrest as [H1 H2].
  destruct (existsb_orb _ _ _ H1) as [He1 Hs1], (existsb_orb _ _ _ H2) as [He2 Hs2].
  unfold apply_event. rewrite scanList_spec, (find_index_middle _ l1 _ l2 Hs1 Hst).
  assert (find_index (hasExact new) (l1 ++ newHookEntry old :: l2) = None) as ->.
  { apply find_index_none. rewrite existsb_app. simpl. by rewrite He1, Hne, He2. }
  by rewrite insert_middle.
Qed.

(** ** MCP servers *)

(** A server of the user's: an entry that asks to preserve it, and whose arguments do not
    mark it as the program's. *)
Definition preserves (alias : string) (existing : any) (entry : MCPServerEntry) : Prop :=
  mc_Alias entry = alias ->
  mc_PreserveExisting entry = true /\ mcpServerOwnedBy existing (mc_RewriteArgsPrefix entry) = false.

Lemma apply_servers_keeps entries : forall servers alias existing,
  servers !! alias = Some existing -> Forall (preserves alias existing) entries ->
  (apply_servers entries servers).1 !! alias = Some existing.
Proof.
  induction entries as [|e entries IH]; intros servers alias existing Hs Hall; simpl; [done|].
  apply List.Forall_cons_iff in Hall as [He Hall].
  destruct (decide (mc_Alias e = alias)) as [Ha|Ha].
  - destruct (He Ha) as [Hp Ho]. rewrite Ha, Hs, Hp, Ho. simpl. destruct (_ || _); by apply IH.
  - assert ((<[mc_Alias e := AObject (mcp_value e)]> servers) !! alias = Some existing)
      by (by rewrite lookup_insert_ne).
    repeat case_match; simpl; by apply IH.
Qed.

(** The settings come out with the user's servers and every other key unchanged. *)
Lemma applyMCPServers_keeps root entries alias existing :
  mapField root "mcpServers" !! alias = Some existing -> Forall (preserves alias existing) entries ->
  mapField (applyMCPServers root entries).1 "mcpServers" !! alias = Some existing
  /\ forall key, key <> "mcpServers" -> (applyMCPServers root entries).1 !! key = root !! key.
Proof.
  intros Hs Hall. unfold applyMCPServers. case_bool_decide; [done|].
  pose proof (apply_servers_keeps entries _ _ _ Hs Hall) as Hk.
  destruct (apply_servers _ _) as [servers changed]. simpl in *. split.
  - unfold mapField at 1. by rewrite lookup_insert_eq.
  - intros key Hkey. by rewrite lookup_insert_ne.
Qed.

(** ** Settings at work *)

Module HookDemo.

Definition spec : Spec := mkSpec "claude" ["SessionStart"; "Stop"] ".claude/settings.json" "claude-setup-hooks" " event claude".

Definition cmd : string := BuildHookCmd "/opt/new/server" "" spec.
Definition old1 : string := BuildHookCmd "/opt/old/server" "" spec.
Definition old2 : string := BuildHookCmd "/opt/older/server" "/data" spec.

Definition hook (command : string) : any := AObject (<["type" := AString "command"]> {["command" := AString command]}).

(** A user's notifier, and two commands the program left behind. *)
Definition stop_list : list any := [newHookEntry "notify-send done"; newHookEntry old1; newHookEntry old2].

Definition settings : object := {["hooks" := AObject {["Stop" := AArray stop_list]}]}.

(** A decoder for the two texts of the example. *)
#[local] Instance demo_json : JSON := {|
  json_Unmarshal text := if bool_decide (text = "{}") then Some (Some ∅)
                         else if bool_decide (text = "settings") then Some (Some settings) else None;
  json_MarshalIndent _ := "written" |}.

Definition calm : Disk := mkDisk false false false false.

Lemma events_distinct : NoDup (sp_Events spec).
Proof. apply (bool_decide_unpack _). vm_compute. exact I. Qed.

Lemma install_registers_witness :
  Install calm "/s" cmd spec (Some "settings") = (Some "written", ["SessionStart"; "Stop"], None)
  /\ exists hooks', edited cmd " event claude" stop_list (listField hooks' "Stop").
Proof.
  assert (Install calm "/s" cmd spec (Some "settings") = (Some "written", ["SessionStart"; "Stop"], None)) as Hrun
    by (vm_compute; reflexivity).
  split; [exact Hrun|].
  destruct (install_registers cmd spec calm "/s" (Some "settings") _ _ None events_distinct Hrun)
    as (root & hooks' & Hload & Hev & _).
  assert (load_settings calm (Some "settings") = inr settings) as Hl by reflexivity.
  rewrite Hl in Hload. injection Hload as <-. exists hooks'.
  assert (listField (mapField settings "hooks") "Stop" = stop_list) as Hstop by (vm_compute; reflexivity).
  rewrite <- Hstop. apply (Hev "Stop"). apply list_elem_of_In. right. by left.
Defined.

Lemma install_converges_witness :
  (applyToHooks (runs cmd spec 1 (mapField settings "hooks")) cmd spec).2 = ["Stop"]
  /\ (applyToHooks (runs cmd spec 2 (mapField settings "hooks")) cmd spec).2 = [].
Proof.
  split.
  - rewrite (install_converges cmd spec 1 _ events_distinct ltac:(lia)). vm_compute. reflexivity.
  - rewrite (install_converges cmd spec 2 _ events_distinct ltac:(lia)). vm_compute. reflexivity.
Defined.

(** After a run that reports success one of two stale commands is still there, and is
    delivered beside the new one. *)
Example stale_command_survives :
  (apply_event cmd " event claude" stop_list).1
  = [newHookEntry "notify-send done"; newHookEntry cmd; newHookEntry old2].
Proof. vm_compute. reflexivity. Qed.

(** An entry that has a user's hook and matcher beside the stale command loses both. *)
Definition shared_entry : any :=
  AObject (<["matcher" := AString "Bash"]> {["hooks" := AArray [hook "notify-send done"; hook old1]]}).

Example shared_entry_loses_hooks :
  (apply_event cmd " event claude" [shared_entry]).1 = [newHookEntry cmd].
Proof. vm_compute. reflexivity. Qed.

(** A former path that itself has the marker is not recognised: only the first occurrence
    is looked at. *)
Example marker_in_path_not_stale :
  hasStaleCmd (BuildHookCmd "/opt/x event claude/server" "" spec) " event claude" = false.
Proof. vm_compute. reflexivity. Qed.

End HookDemo.
