(* ===== verification/ClientConfig.v ===== *)
(** * clients/goclient/clientconfig: the servers a client may use

    config.go and projection.go: loading servers.json.  Admission is per entry: an entry that
    breaks a rule, or collides with another one, is kept and marked, and the others stand.
    Decoding JSON ([ConfigCodec]) and parsing URLs ([URLs]) are parameters; identifiers are
    the SHA-256 of the canonical URL. *)

From Stdlib Require Import String.
From S2P Require Import Prelude GoStd GoStrings GoPath.

Definition ServersSchemaVersion : Z := 2.

Record Auth := mkAuth { au_Mode : string; au_Token : string }.

Record Violation := mkViolation { vi_Rule : string; vi_Detail : string }.

Record Server := mkServer {
  sv_Index : Z; sv_ID : string; sv_DisplayName : string; sv_Enabled : bool; sv_DefaultExecution : bool;
  sv_URL : string; sv_Auth : Auth; sv_Violation : option Violation }.

#[export] Instance eta_Server : Eta Server := fun s =>
  mkServer (sv_Index s) (sv_ID s) (sv_DisplayName s) (sv_Enabled s) (sv_DefaultExecution s) (sv_URL s) (sv_Auth s)
    (sv_Violation s).

Inductive Admission := AdmissionUsable | AdmissionDisabled | AdmissionConfigurationInvalid.

#[export] Instance Admission_eq : EqDecision Admission.
Proof. solve_decision. Defined.

Definition admission (server : Server) : Admission :=
  match sv_Violation server with
  | Some _ => AdmissionConfigurationInvalid
  | None => if sv_Enabled server then AdmissionUsable else AdmissionDisabled
  end.

Definition usable (server : Server) : bool := bool_decide (admission server = AdmissionUsable).

Definition valid (server : Server) : bool := bool_decide (sv_Violation server = None).

Definition UsableServers (servers : list Server) : list Server := List.filter usable servers.

Definition InvalidServers (servers : list Server) : list Server := List.filter (fun s => negb (valid s)) servers.

Definition EnabledServer (servers : list Server) (id : string) : option Server :=
  List.find (fun s => usable s && bool_decide (sv_ID s = id)) servers.

(** ** Parameters *)

Record serverDocument := mkDocument {
  do_DisplayName : string; do_Enabled : bool; do_DefaultExecution : bool; do_URL : string; do_Auth : Auth }.

(** An error of the decoder: whether it is an UnmarshalTypeError, and its text. *)
Record DecodeError := mkDecodeError { de_type : bool; de_text : string }.

(** encoding/json on the file, on one entry with unknown fields refused, and on its name
    alone; strconv.Quote. *)
Class ConfigCodec := {
  decode_file : string -> string + (Z * option (list string));
  decode_entry : string -> DecodeError + serverDocument;
  decode_name : string -> string;
  strconv_Quote : string -> string }.

(** What is used of a parsed URL. *)
Record URL := mkURL {
  u_Scheme : string; u_User : bool; u_Host : string; u_Path : string; u_RawPath : string; u_RawQuery : string;
  u_Fragment : string }.

(** net/url: the parser with the text of its error, and the methods. *)
Class URLs := {
  url_Parse : string -> string + URL;
  url_Hostname : URL -> string; url_Port : URL -> string; url_EscapedPath : URL -> string;
  url_String : URL -> string }.

#[export] Instance eta_URL : Eta URL := fun u =>
  mkURL (u_Scheme u) (u_User u) (u_Host u) (u_Path u) (u_RawPath u) (u_RawQuery u) (u_Fragment u).

(** ** Rules of one entry *)

Definition displayNameKey (name : string) : string := TrimSpace name.

(** fmt's %04X of a control character. *)
Definition upper_hex (z : Z) : ascii := Z_byte (if z <? 10 then 48 + z else 55 + z).

Definition control_text (r : Z) : string :=
  "display_name contains control character U+00" +:+ string_of_list_ascii [upper_hex (r / 16); upper_hex (r mod 16)].

Definition is_control (r : Z) : bool := (r <=? 0x1F) || (r =? 0x7F).

Definition checkDisplayName (name : string) : option Violation :=
  let trimmed := displayNameKey name in
  if bool_decide (trimmed = "") then Some (mkViolation "display-name-required" "display_name must not be blank")
  else match List.find is_control (runes trimmed) with
       | Some r => Some (mkViolation "display-name-charset" (control_text r))
       | None =>
         if HasPrefix trimmed "-"
         then Some (mkViolation "display-name-charset"
                      "display_name must not begin with '-', which a command line reads as a flag")
         else None
       end.

Definition isDefaultPort (scheme port : string) : bool :=
  bool_decide (scheme = "http") && bool_decide (port = "80") || bool_decide (scheme = "https") && bool_decide (port = "443").

Definition ServerID (raw : string) : string := "srv_" +:+ Sha256.hex raw.

Fixpoint trim_right_bytes (c : ascii) (l : list ascii) : list ascii :=
  match l with
  | [] => []
  | x :: l => let l := trim_right_bytes c l in if bool_decide (l = []) && bool_decide (x = c) then [] else x :: l
  end.

(** strings.TrimRight with a one-byte cutset. *)
Definition TrimRight (s : string) (c : ascii) : string :=
  string_of_list_ascii (trim_right_bytes c (list_ascii_of_string s)).

Section Config.
Context `{UnicodeTables} `{ConfigCodec} `{URLs} `{GoMapRange}.

Definition checkAuth (auth : Auth) : option Violation :=
  let violation detail := Some (mkViolation "auth-variant-exact" detail) in
  if bool_decide (au_Mode auth = "none") then
    if bool_decide (au_Token auth = "") then None else violation "auth mode none must not carry a token"
  else if bool_decide (au_Mode auth = "bearer") then
    if bool_decide (TrimSpace (au_Token auth) = "") then violation "auth mode bearer needs a non-blank token" else None
  else violation ("unsupported auth mode " +:+ strconv_Quote (au_Mode auth)).

Definition canonicalHost (scheme hostname port : string) : string :=
  let host := ToLower hostname in
  let host := if Contains host ":" then "[" +:+ host +:+ "]" else host in
  if bool_decide (port = "") || isDefaultPort scheme port then host else host +:+ ":" +:+ port.

(** The rule that is broken with the text, or the canonical URL. *)
Definition canonicalURL (raw : string) : Violation + string :=
  match url_Parse raw with
  | inl err => inl (mkViolation "url-carries-no-credentials-query-or-fragment" err)
  | inr parsed =>
    if negb (bool_decide (u_Scheme parsed = "http")) && negb (bool_decide (u_Scheme parsed = "https"))
    then inl (mkViolation "url-http-or-https" "scheme must be http or https")
    else if bool_decide (u_Host parsed = "") || u_User parsed || negb (bool_decide (u_RawQuery parsed = ""))
            || negb (bool_decide (u_Fragment parsed = ""))
    then inl (mkViolation "url-carries-no-credentials-query-or-fragment"
                "credentials, query, fragment, or empty host are not allowed")
    else
      let parsed := parsed <| u_Host := canonicalHost (u_Scheme parsed) (url_Hostname parsed) (url_Port parsed) |> in
      inr (url_String (parsed <| u_Path := TrimRight (url_EscapedPath parsed) slash |>))
  end.

Definition decodeRule (err : DecodeError) : string :=
  if de_type err then "entry-field-types"
  else if Contains (de_text err) "unknown field" then "unknown-entry-field-rejected"
  else "entry-field-types".

Definition admitEntry (index : Z) (raw : string) : Server :=
  match decode_entry raw with
  | inl err =>
    mkServer index "" (decode_name raw) false false "" (mkAuth "" "") (Some (mkViolation (decodeRule err) (de_text err)))
  | inr document =>
    let server := mkServer index "" (do_DisplayName document) (do_Enabled document) (do_DefaultExecution document)
                    (do_URL document) (do_Auth document) None in
    match checkDisplayName (do_DisplayName document) with
    | Some violation => server <| sv_Violation := Some violation |>
    | None =>
      match canonicalURL (do_URL document) with
      | inl violation => server <| sv_Violation := Some violation |>
      | inr canonical =>
        let server := server <| sv_URL := canonical |> <| sv_ID := ServerID canonical |> in
        match checkAuth (do_Auth document) with
        | Some violation => server <| sv_Violation := Some violation |>
        | None =>
          if do_DefaultExecution document && negb (do_Enabled document)
          then server <| sv_Violation := Some (mkViolation "default-execution-must-be-enabled"
                                                 "a default execution entry must be enabled") |>
          else server
        end
      end
    end
  end.

(** ** Rules between entries *)

(** servers[index].Violation = v for some indices. *)
Definition invalidate (v : Violation) (indices : list nat) (servers : list Server) : list Server :=
  foldl (fun servers index => alter (fun s => s <| sv_Violation := Some v |>) index servers) servers indices.

(** The indices of the valid entries with a key, by key. *)
Fixpoint groups_from (index : nat) (servers : list Server) (key : Server -> option string)
    (groups : gmap string (list nat)) : gmap string (list nat) :=
  match servers with
  | [] => groups
  | server :: servers =>
    let groups :=
      if negb (valid server) then groups
      else match key server with
           | None => groups
           | Some value =>
             if bool_decide (value = "") then groups
             else <[value := default [] (groups !! value) ++ [index]]> groups
           end in
    groups_from (S index) servers key groups
  end.

Definition markCollisions (servers : list Server) (key : Server -> option string) (rule detail : string) : list Server :=
  foldl (fun servers (group : string * list nat) =>
           if (length group.2 <? 2)%nat then servers else invalidate (mkViolation rule detail) group.2 servers)
    servers (range (groups_from 0 servers key ∅)).

Definition markDuplicateURLs (servers : list Server) : list Server :=
  markCollisions servers (fun server => if bool_decide (sv_ID server = "") then None else Some (sv_ID server))
    "duplicate-url-rejected" "two entries resolve to the same canonical url".

Definition markDuplicateDisplayNames (servers : list Server) : list Server :=
  markCollisions servers (fun server => if sv_Enabled server then Some (displayNameKey (sv_DisplayName server)) else None)
    "display-name-unique" "two enabled entries share a display name".

Fixpoint marked_from (index : nat) (servers : list Server) : list nat :=
  match servers with
  | [] => []
  | server :: servers =>
    let rest := marked_from (S index) servers in
    if valid server && sv_DefaultExecution server then index :: rest else rest
  end.

(** The fallback: the first usable entry. *)
Fixpoint default_first (servers : list Server) : list Server :=
  match servers with
  | [] => []
  | server :: servers =>
    if usable server then server <| sv_DefaultExecution := true |> :: servers else server :: default_first servers
  end.

Definition markDefaultExecution (servers : list Server) : list Server :=
  match marked_from 0 servers with
  | [_] => servers
  | [] => default_first servers
  | marked =>
    default_first
      (invalidate (mkViolation "at-most-one-default-execution"
                     "more than one entry is marked as the default execution server") marked servers)
  end.

Definition admitServers (raw : list string) : list Server :=
  markDefaultExecution (markDuplicateDisplayNames (markDuplicateURLs
    (imap (fun index entry => admitEntry (Z.of_nat index) entry) raw))).

Inductive LoadError := ConfigUnavailable | ConfigUnparsable (text : string) | ConfigVersion (version : Z) | ConfigNoServers.

(** [data]: what os.ReadFile returned. *)
Definition Load (data : option string) : LoadError + list Server :=
  match data with
  | None => inl ConfigUnavailable
  | Some data =>
    match decode_file data with
    | inl text => inl (ConfigUnparsable text)
    | inr (version, servers) =>
      if negb (version =? ServersSchemaVersion) then inl (ConfigVersion version)
      else match servers with
           | None => inl ConfigNoServers
           | Some raw => inr (admitServers raw)
           end
    end
  end.

End Config.

(** ** The directory and the projection *)

(** [home]: what os.UserHomeDir returned.  Paths are joined as on Unix. *)
Definition directoryFor (goos : string) (env : string -> string) (home : option string) : option string :=
  if bool_decide (goos = "windows") then
    let appData := TrimSpace (env "APPDATA") in
    if bool_decide (appData = "") then
      h ← home; Some (Join [h; "AppData"; "Roaming"; "agent-grid"; "config"])
    else Some (Join [appData; "agent-grid"; "config"])
  else
    let value := env "XDG_CONFIG_HOME" in
    if bool_decide (value = "") then h ← home; Some (Join [h; ".config"; "agent-grid"])
    else Some (Join [value; "agent-grid"]).

Record ServerProjection := mkProjection {
  pj_ServerID : string; pj_DisplayName : string; pj_Enabled : bool; pj_DefaultExecution : bool }.

Definition Projection (servers : list Server) : list ServerProjection :=
  map (fun s => mkProjection (sv_ID s) (sv_DisplayName s) (sv_Enabled s) (sv_DefaultExecution s)) servers.

(** * clients/goclient/clientconfig: what admission guarantees

    [markCollisions_map]: the marking of collisions, which goes through a map in arbitrary
    order, as one pass over the entries.  [usable_servers_sound]: what holds of the servers
    a client may use, and that an entry is lost only by itself or by one it collides with. *)

Definition with_violation (v : Violation) (s : Server) : Server := s <| sv_Violation := Some v |>.

(** ** Marking by index *)

Lemma invalidate_lookup v indices : forall servers i,
  invalidate v indices servers !! i
  = (fun s => if bool_decide (i ∈ indices) then with_violation v s else s) <$> servers !! i.
Proof.
  induction indices as [|k indices IH]; intros servers i.
  - rewrite bool_decide_false by set_solver. simpl. by destruct (servers !! i).
  - change (invalidate v (k :: indices) servers) with (invalidate v indices (alter (with_violation v) k servers)).
    rewrite IH. destruct (decide (i = k)) as [->|Hne].
    + rewrite list_lookup_alter_eq. destruct (servers !! k); simpl; [|done].
      rewrite (bool_decide_true (k ∈ k :: indices)) by set_solver. by case_bool_decide.
    + rewrite list_lookup_alter_ne by done. destruct (servers !! i); simpl; [|done].
      assert (bool_decide (i ∈ k :: indices) = bool_decide (i ∈ indices)) as -> by (apply bool_decide_ext; set_solver).
      done.
Qed.

Lemma invalidate_app v l k servers : invalidate v (l ++ k) servers = invalidate v k (invalidate v l servers).
Proof. apply foldl_app. Qed.

(** ** Collisions *)

Section Collisions.
Context `{GoMapRange} (key : Server -> option string).

(** The key an entry takes part with. *)
Definition live_key (s : Server) : option string :=
  if valid s then value ← key s; if bool_decide (value = "") then None else Some value else None.

Fixpoint hits (value : string) (index : nat) (servers : list Server) : list nat :=
  match servers with
  | [] => []
  | s :: servers =>
    if bool_decide (live_key s = Some value) then index :: hits value (S index) servers else hits value (S index) servers
  end.

Lemma hits_elem value servers : forall index i,
  i ∈ hits value index servers <->
  (index <= i)%nat /\ exists s, servers !! (i - index)%nat = Some s /\ live_key s = Some value.
Proof.
  induction servers as [|s servers IH]; intros index i; simpl.
  { split; [by intros ?%elem_of_nil|by intros (_ & s & ? & _)]. }
  assert (i ∈ hits value (S index) servers <->
          (index < i)%nat /\ exists s', (s :: servers) !! (i - index)%nat = Some s' /\ live_key s' = Some value) as Htail.
  { rewrite IH. split; intros (Hi & s' & Hs' & Hk); (split; [lia|]); exists s'; (split; [|done]);
      replace (i - index)%nat with (S (i - S index)) in * by lia; done. }
  case_bool_decide as Hs; [rewrite elem_of_cons|]; rewrite Htail.
  - split.
    + intros [->|(Hi & Hex)]; [|split; [lia|done]]. split; [lia|]. exists s. by rewrite Nat.sub_diag.
    + intros (Hi & Hex). destruct (decide (i = index)) as [->|]; [by left|]. right. split; [lia|done].
  - split; [intros (Hi & Hex); split; [lia|done]|].
    intros (Hi & s' & Hs' & Hk). split; [|by exists s']. destruct (decide (i = index)) as [->|]; [|lia].
    rewrite Nat.sub_diag in Hs'. injection Hs' as <-. done.
Qed.

Lemma groups_from_lookup value servers : forall index groups,
  groups_from index servers key groups !! value
  = match hits value index servers with
    | [] => groups !! value
    | l => Some (default [] (groups !! value) ++ l)
    end.
Proof.
  induction servers as [|s servers IH]; intros index groups; simpl; [done|]. rewrite IH. clear IH.
  unfold live_key. destruct (valid s); simpl; [|done]. destruct (key s) as [v|]; simpl; [|done].
  destruct (bool_decide_reflect (v = "")) as [->|Hv]; simpl; [done|].
  destruct (bool_decide_reflect (Some v = Some value)) as [Hvv|Hvv].
  - injection Hvv as ->. rewrite lookup_insert_eq. simpl. destruct (hits value (S index) servers); [done|].
    by rewrite <- app_assoc.
  - rewrite lookup_insert_ne by congruence. done.
Qed.

(** Another entry has the same key. *)
Definition clash (servers : list Server) (s : Server) : bool :=
  match live_key s with
  | Some value => (2 <=? length (hits value 0 servers))%nat
  | None => false
  end.

Definition big (groups : list (string * list nat)) : list nat :=
  mjoin ((fun group => if (length group.2 <? 2)%nat then [] else group.2) <$> groups).

Lemma mark_groups v groups : forall servers,
  foldl (fun servers (group : string * list nat) =>
           if (length group.2 <? 2)%nat then servers else invalidate v group.2 servers) servers groups
  = invalidate v (big groups) servers.
Proof.
  induction groups as [|[k l] groups IH]; intros servers; simpl; [done|]. rewrite IH.
  unfold big. simpl. rewrite invalidate_app. by destruct (length l <? 2)%nat.
Qed.

Lemma elem_of_big groups i :
  i ∈ big groups <-> exists k l, (k, l) ∈ groups /\ (2 <= length l)%nat /\ i ∈ l.
Proof.
  unfold big. rewrite list_elem_of_join. split.
  - intros (l & Hi & Hl). apply list_elem_of_fmap in Hl as ([k l'] & -> & Hin). simpl in Hi.
    destruct (Nat.ltb_spec (length l') 2); [by apply elem_of_nil in Hi|]. by exists k, l'.
  - intros (k & l & Hin & Hlen & Hi). exists l. split; [done|]. apply list_elem_of_fmap. exists (k, l).
    split; [|done]. simpl. by destruct (Nat.ltb_spec (length l) 2); [lia|].
Qed.

Lemma big_clash servers i s :
  servers !! i = Some s -> i ∈ big (range (groups_from 0 servers key ∅)) <-> clash servers s = true.
Proof.
  intros Hs. rewrite elem_of_big. unfold clash. split.
  - intros (value & l & Hin & Hlen & Hi). apply elem_of_range in Hin. rewrite groups_from_lookup, lookup_empty in Hin.
    destruct (hits value 0 servers) as [|h t] eqn:Eh; [done|]. simpl in Hin. injection Hin as <-. rewrite <- Eh in *.
    apply hits_elem in Hi as (_ & s' & Hs' & Hk). rewrite Nat.sub_0_r in Hs'.
    assert (s' = s) as -> by congruence. rewrite Hk. by apply Nat.leb_le.
  - destruct (live_key s) as [value|] eqn:Ek; [|done]. intros Hlen%Nat.leb_le. exists value, (hits value 0 servers).
    split; [|split; [done|]].
    + apply elem_of_range. rewrite groups_from_lookup, lookup_empty.
      destruct (hits value 0 servers) eqn:Eh; [simpl in Hlen; lia|done].
    + apply hits_elem. split; [lia|]. exists s. by rewrite Nat.sub_0_r.
Qed.

Lemma markCollisions_map servers rule detail :
  markCollisions servers key rule detail
  = (fun s => if clash servers s then with_violation (mkViolation rule detail) s else s) <$> servers.
Proof.
  unfold markCollisions. rewrite mark_groups. apply list_eq. intros i. rewrite invalidate_lookup.
  rewrite list_lookup_fmap. destruct (servers !! i) as [s|] eqn:Es; simpl; [|done]. f_equal.
  pose proof (big_clash servers i s Es) as Hb. destruct (clash servers s).
  - by rewrite bool_decide_true; [|apply Hb].
  - rewrite bool_decide_false; [done|]. intros Hin%Hb. done.
Qed.

End Collisions.

(** ** Keys that are left are distinct *)

Section Distinct.
Context (key : Server -> option string) `{GoMapRange}.

Abbreviation keys := (omap (live_key key)).

Lemma keys_cons s l :
  keys (s :: l) = match live_key key s with Some value => value :: keys l | None => keys l end.
Proof. done. Qed.

Lemma hits_times value servers : forall index,
  Z.of_nat (length (hits key value index servers)) = times value (keys servers).
Proof.
  induction servers as [|s servers IH]; intros index; [done|]. rewrite keys_cons. cbn [hits].
  case_bool_decide as Hs.
  - rewrite Hs, times_cons, times_one, decide_True by done. rewrite <- (IH (S index)). simpl. lia.
  - rewrite (IH (S index)). destruct (live_key key s) as [v|]; [|done].
    rewrite times_cons, times_one, decide_False by congruence. lia.
Qed.

Lemma live_key_violated v s : live_key key (with_violation v s) = None.
Proof. done. Qed.

Lemma keys_marked servers v l :
  keys ((fun s => if clash key servers s then with_violation v s else s) <$> l)
  = List.filter (fun value => times value (keys servers) <? 2) (keys l).
Proof.
  induction l as [|s l IH]; [done|]. rewrite fmap_cons, !keys_cons, IH. clear IH. unfold clash at 1.
  destruct (live_key key s) as [value|] eqn:Ek; [|by rewrite Ek].
  pose proof (hits_times value servers 0) as Ht. cbn [List.filter].
  destruct (Nat.leb_spec 2 (length (hits key value 0 servers))), (Z.ltb_spec (times value (keys servers)) 2); try lia;
    by rewrite ?live_key_violated, ?Ek.
Qed.

Lemma times_filter (f : string -> bool) x l : times x (List.filter f l) = if f x then times x l else 0.
Proof.
  induction l as [|y l IH]; simpl; [by destruct (f x)|]. rewrite (times_cons x y l), (times_one x y).
  destruct (f y) eqn:Ey; [rewrite (times_cons x y), (times_one x y)|]; rewrite IH;
    destruct (decide (y = x)) as [->|]; rewrite ?Ey; destruct (f x); try done; lia.
Qed.

Lemma marked_distinct servers rule detail : NoDup (keys (markCollisions servers key rule detail)).
Proof.
  rewrite markCollisions_map, keys_marked. apply times_NoDup. intros x. rewrite times_filter.
  destruct (Z.ltb_spec (times x (keys servers)) 2); lia.
Qed.

End Distinct.

(** ** The stages *)

(** What later stages do to an entry. *)
Record kept (s t : Server) : Prop := {
  kept_index : sv_Index t = sv_Index s; kept_id : sv_ID t = sv_ID s; kept_name : sv_DisplayName t = sv_DisplayName s;
  kept_enabled : sv_Enabled t = sv_Enabled s; kept_url : sv_URL t = sv_URL s; kept_auth : sv_Auth t = sv_Auth s;
  kept_valid : valid t = true -> valid s = true }.

Lemma kept_refl s : kept s s.
Proof. done. Qed.

Lemma kept_trans s t u : kept s t -> kept t u -> kept s u.
Proof. intros [] []. split; [congruence..|]. auto. Qed.

Lemma kept_violation v s : kept s (with_violation v s).
Proof. done. Qed.

Lemma Forall2_kept_trans l k m : Forall2 kept l k -> Forall2 kept k m -> Forall2 kept l m.
Proof.
  intros Hlk. revert m. induction Hlk as [|s t l k Hst Hlk IH]; intros m Hm; inversion Hm; subst; [constructor|].
  constructor; [by eapply kept_trans|auto].
Qed.

Lemma kept_markCollisions `{GoMapRange} key servers rule detail :
  Forall2 kept servers (markCollisions servers key rule detail).
Proof.
  rewrite markCollisions_map. apply Forall2_fmap_r, Forall_Forall2_diag, Forall_forall. intros s _. simpl.
  destruct (clash key servers s); [apply kept_violation|apply kept_refl].
Qed.

Lemma kept_invalidate v indices servers : Forall2 kept servers (invalidate v indices servers).
Proof.
  apply Forall2_lookup. intros i. rewrite invalidate_lookup. destruct (servers !! i) as [s|]; simpl; constructor.
  case_bool_decide; [apply kept_violation|apply kept_refl].
Qed.

Lemma kept_default_first servers : Forall2 kept servers (default_first servers).
Proof.
  induction servers as [|s servers IH]; simpl; [constructor|]. destruct (usable s).
  - constructor; [done|]. apply Forall_Forall2_diag, Forall_forall. intros t _. apply kept_refl.
  - constructor; [apply kept_refl|done].
Qed.

Lemma kept_markDefaultExecution servers : Forall2 kept servers (markDefaultExecution servers).
Proof.
  unfold markDefaultExecution. destruct (marked_from 0 servers) as [|a [|b l]].
  - apply kept_default_first.
  - apply Forall_Forall2_diag, Forall_forall. intros t _. apply kept_refl.
  - eapply Forall2_kept_trans; [apply kept_invalidate|apply kept_default_first].
Qed.

(** Keys that do not look at what the stages change. *)
Lemma kept_keys key l k :
  (forall s t, kept s t -> key t = key s) -> Forall2 kept l k ->
  omap (live_key key) k `sublist_of` omap (live_key key) l.
Proof.
  intros Hkey. induction 1 as [|s t l k Hst Hlk IH]; [constructor|]. rewrite !keys_cons.
  unfold live_key. rewrite (Hkey s t Hst). destruct (valid t) eqn:Ht.
  - rewrite (kept_valid _ _ Hst Ht). destruct (_ : option string); [by constructor|done].
  - destruct (if valid s then _ else _); [by constructor|done].
Qed.

Lemma usable_keys key (g : Server -> string) l :
  Forall (fun s => usable s = true -> live_key key s = Some (g s)) l ->
  map g (UsableServers l) `sublist_of` omap (live_key key) l.
Proof.
  induction 1 as [|s l Hs Hl IH]; [constructor|]. rewrite keys_cons. unfold UsableServers. simpl.
  destruct (usable s); [rewrite Hs by done; by constructor|]. destruct (live_key key s); [by constructor|done].
Qed.

Lemma usable_spec s : usable s = true <-> valid s = true /\ sv_Enabled s = true.
Proof.
  unfold usable, valid, admission. rewrite !bool_decide_eq_true.
  destruct (sv_Violation s), (sv_Enabled s); naive_solver.
Qed.

(** ** One entry *)

Section Entry.
Context `{UnicodeTables} `{ConfigCodec} `{URLs}.

Record entry_ok (s : Server) : Prop := {
  ok_id : sv_ID s = ServerID (sv_URL s);
  ok_name : checkDisplayName (sv_DisplayName s) = None;
  ok_auth : checkAuth (sv_Auth s) = None }.

Lemma admitEntry_ok index raw :
  let s := admitEntry index raw in
  sv_Index s = index
  /\ (valid s = true -> entry_ok s /\ (sv_DefaultExecution s = true -> sv_Enabled s = true)).
Proof.
  unfold admitEntry. destruct (decode_entry raw) as [err|document]; [done|].
  destruct (checkDisplayName _) eqn:En; [done|]. destruct (canonicalURL _); [done|].
  destruct (checkAuth _) eqn:Ea; [done|].
  destruct (do_DefaultExecution document) eqn:Ed, (do_Enabled document) eqn:Ee; simpl; rewrite ?Ed, ?Ee; by repeat split.
Qed.

Lemma kept_ok s t : kept s t -> entry_ok s -> entry_ok t.
Proof. intros [] []. split; congruence. Qed.

Lemma ok_id_nonempty s : entry_ok s -> sv_ID s <> "".
Proof. intros [->]. done. Qed.

Lemma ok_name_nonempty s : entry_ok s -> displayNameKey (sv_DisplayName s) <> "".
Proof. intros [_ Hn _] He. unfold checkDisplayName in Hn. by rewrite He in Hn. Qed.

End Entry.

(** ** The default *)

Definition default_key (s : Server) : option string := if sv_DefaultExecution s then Some "default" else None.

Lemma marked_hits servers : forall index, marked_from index servers = hits default_key "default" index servers.
Proof.
  induction servers as [|s servers IH]; intros index; simpl; [done|]. rewrite IH. unfold live_key, default_key.
  by destruct (valid s), (sv_DefaultExecution s).
Qed.

(** Two entries with a key are an entry and another one. *)
Lemma hits_other key value servers : forall index i,
  (2 <= length (hits key value index servers))%nat -> exists j, j <> i /\ j ∈ hits key value index servers.
Proof.
  intros index i Hlen. destruct (hits key value index servers) as [|a [|b l]] eqn:Eh; simpl in Hlen; [lia..|].
  assert (a < b)%nat as Hab.
  { clear Hlen. revert index Eh. induction servers as [|s servers IH]; intros index Eh; simpl in Eh; [done|].
    case_bool_decide; [|by eapply IH]. injection Eh as <- Eh.
    assert (b ∈ hits key value (S index) servers) as Hb by (rewrite Eh; set_solver).
    apply hits_elem in Hb as [Hb _]. lia. }
  destruct (decide (a = i)); [exists b|exists a]; split; [lia|set_solver|done|set_solver].
Qed.

Abbreviation defaults := (fun l => List.filter sv_DefaultExecution (UsableServers l)).

Definition one_default (l : list Server) : Prop :=
  length (defaults l) = if bool_decide (UsableServers l = []) then 0%nat else 1%nat.

Lemma default_first_one l :
  (forall s, s ∈ l -> usable s = true -> sv_DefaultExecution s = false) -> one_default (default_first l).
Proof.
  unfold one_default. induction l as [|s l IH]; intros Hnone; [done|].
  assert (forall t, t ∈ l -> usable t = true -> sv_DefaultExecution t = false) as Htail by set_solver.
  cbn [default_first]. destruct (usable s) eqn:Es.
  - assert (usable (s <| sv_DefaultExecution := true |>) = true) as Hu by exact Es.
    unfold UsableServers. cbn [List.filter]. rewrite Hu. cbn [List.filter].
    rewrite bool_decide_false by done. simpl. f_equal. clear IH Hnone.
    induction l as [|t l IH]; [done|]. cbn [List.filter]. destruct (usable t) eqn:Et; [|by apply IH; set_solver].
    cbn [List.filter]. rewrite (Htail t) by (done || set_solver). apply IH. set_solver.
  - unfold UsableServers in *. cbn [List.filter]. rewrite Es. by apply IH.
Qed.

Lemma default_live s : live_key default_key s = Some "default" <-> valid s = true /\ sv_DefaultExecution s = true.
Proof. unfold live_key, default_key. destruct (valid s), (sv_DefaultExecution s); naive_solver. Qed.

Lemma hits_default_count servers index :
  (forall s, s ∈ servers -> valid s = true -> sv_DefaultExecution s = true -> sv_Enabled s = true) ->
  length (hits default_key "default" index servers) = length (defaults servers).
Proof.
  revert index. induction servers as [|s servers IH]; intros index Hen; [done|].
  assert (forall i, length (hits default_key "default" i servers) = length (defaults servers)) as IH'
    by (intros i; apply IH; set_solver).
  unfold UsableServers. cbn [hits List.filter]. case_bool_decide as Hd.
  - apply default_live in Hd as [Hv Hd]. assert (usable s = true) as ->.
    { apply usable_spec. split; [done|]. apply Hen; [set_solver|done..]. }
    cbn [List.filter]. rewrite Hd. simpl. by rewrite IH'.
  - destruct (usable s) eqn:Es; [|by apply IH']. apply usable_spec in Es as [Hv _]. cbn [List.filter].
    destruct (sv_DefaultExecution s) eqn:Ed; [|by apply IH']. destruct Hd. by apply default_live.
Qed.

Lemma not_marked_default servers s :
  marked_from 0 servers = [] -> s ∈ servers -> valid s = true -> sv_DefaultExecution s = false.
Proof.
  intros Hm Hs Hv. destruct (sv_DefaultExecution s) eqn:Ed; [|done]. rewrite marked_hits in Hm.
  apply list_elem_of_lookup in Hs as (i & Hi).
  assert (i ∈ hits default_key "default" 0 servers) as Hin.
  { apply hits_elem. split; [lia|]. exists s. rewrite Nat.sub_0_r. split; [done|].
    unfold live_key, default_key. by rewrite Hv, Ed. }
  rewrite Hm in Hin. by apply elem_of_nil in Hin.
Qed.

Lemma unmarked_default v servers s :
  s ∈ invalidate v (marked_from 0 servers) servers -> valid s = true -> sv_DefaultExecution s = false.
Proof.
  intros (i & Hi)%list_elem_of_lookup Hv. rewrite invalidate_lookup in Hi.
  destruct (servers !! i) as [s0|] eqn:E0; [|done]. simpl in Hi. injection Hi as <-.
  destruct (bool_decide_reflect (i ∈ marked_from 0 servers)) as [|Hn]; [done|].
  destruct (sv_DefaultExecution s0) eqn:Ed; [|done]. destruct Hn. rewrite marked_hits. apply hits_elem.
  split; [lia|]. exists s0. rewrite Nat.sub_0_r. split; [done|]. unfold live_key, default_key. by rewrite Hv, Ed.
Qed.

Lemma markDefaultExecution_one servers :
  (forall s, s ∈ servers -> valid s = true -> sv_DefaultExecution s = true -> sv_Enabled s = true) ->
  one_default (markDefaultExecution servers).
Proof.
  intros Hen. unfold markDefaultExecution. destruct (marked_from 0 servers) as [|a [|b l]] eqn:Em.
  - apply default_first_one. intros s Hs [Hv _]%usable_spec. by apply (not_marked_default servers).
  - unfold one_default. pose proof (hits_default_count servers 0 Hen) as Hc. rewrite <- marked_hits, Em in Hc.
    rewrite <- Hc. rewrite bool_decide_false; [done|]. intros Hnil. by rewrite Hnil in Hc.
  - apply default_first_one. intros s Hs [Hv _]%usable_spec. rewrite <- Em in Hs. by apply unmarked_default in Hs.
Qed.

(** ** Isolation *)

Lemma markCollisions_lookup `{GoMapRange} key servers rule detail j t :
  markCollisions servers key rule detail !! j = Some t ->
  exists s, servers !! j = Some s /\ (t = s \/ t = with_violation (mkViolation rule detail) s).
Proof.
  rewrite markCollisions_map, list_lookup_fmap. destruct (servers !! j) as [s|]; simpl; [|done].
  intros [= <-]. exists s. split; [done|]. destruct (clash key servers s); auto.
Qed.

Lemma survives_collisions `{GoMapRange} key servers rule detail i s :
  servers !! i = Some s ->
  (forall j s', j <> i -> servers !! j = Some s' -> live_key key s' = live_key key s -> live_key key s = None) ->
  markCollisions servers key rule detail !! i = Some s.
Proof.
  intros Hi Halone. rewrite markCollisions_map, list_lookup_fmap, Hi. simpl. unfold clash.
  destruct (live_key key s) as [value|] eqn:Ek; [|done].
  destruct (Nat.leb_spec 2 (length (hits key value 0 servers))) as [Hlen|]; [|done].
  destruct (hits_other key value servers 0 i Hlen) as (j & Hj & Hin).
  apply hits_elem in Hin as (_ & s' & Hs' & Hk). rewrite Nat.sub_0_r in Hs'.
  pose proof (Halone j s' Hj Hs' ltac:(congruence)). congruence.
Qed.

Lemma survives_default servers i s :
  servers !! i = Some s -> valid s = true ->
  (forall j s', j <> i -> servers !! j = Some s' -> valid s' = true ->
     sv_DefaultExecution s = true -> sv_DefaultExecution s' = false) ->
  exists t, markDefaultExecution servers !! i = Some t /\ valid t = true.
Proof.
  intros Hi Hv Halone.
  assert (forall l, l !! i = Some s -> exists t, default_first l !! i = Some t /\ valid t = true) as Hfirst.
  { clear Hi Halone. intros l. revert i. induction l as [|x l IH]; intros i Hi; [done|]. cbn [default_first].
    destruct (usable x), i as [|i]; simpl in *; simplify_eq; try (by eexists); by apply IH. }
  unfold markDefaultExecution. destruct (marked_from 0 servers) as [|a [|b l]] eqn:Em; [by apply Hfirst|by exists s|].
  apply Hfirst. rewrite invalidate_lookup, Hi. simpl. f_equal. rewrite bool_decide_false; [done|]. rewrite <- Em, marked_hits.
  intros Hin. pose proof (hits_elem default_key "default" servers 0 i) as Hel. apply Hel in Hin as (_ & s1 & Hs1 & Hd).
  rewrite Nat.sub_0_r in Hs1. assert (s1 = s) as -> by congruence. apply default_live in Hd as [_ Hd].
  destruct (hits_other default_key "default" servers 0 i) as (j & Hj & Hjin).
  { rewrite <- marked_hits, Em. simpl. lia. }
  apply hits_elem in Hjin as (_ & s' & Hs' & Hk). rewrite Nat.sub_0_r in Hs'. apply default_live in Hk as [Hv' Hd'].
  rewrite (Halone j s' Hj Hs' Hv' Hd) in Hd'. done.
Qed.

Section Claims.
Context `{UnicodeTables} `{ConfigCodec} `{URLs} `{GoMapRange}.

Definition entries (raw : list string) : list Server :=
  imap (fun index entry => admitEntry (Z.of_nat index) entry) raw.

Abbreviation name_key := (fun s => displayNameKey (sv_DisplayName s)).

(** Two entries that cannot both be used. *)
Definition collide (s s' : Server) : Prop :=
  sv_ID s = sv_ID s' \/ (sv_Enabled s = true /\ sv_Enabled s' = true /\ name_key s = name_key s')
  \/ (sv_DefaultExecution s = true /\ sv_DefaultExecution s' = true).

Lemma survives raw i s :
  entries raw !! i = Some s -> valid s = true ->
  (forall j s', j <> i -> entries raw !! j = Some s' -> valid s' = true -> ~ collide s s') ->
  exists t, admitServers raw !! i = Some t /\ valid t = true.
Proof.
  intros Hi Hv Halone. unfold admitServers. fold (entries raw). set (L1 := markDuplicateURLs (entries raw)).
  assert (forall (l : list Server) j t, (forall s', l !! j = Some s' -> valid s' = true -> entries raw !! j = Some s') ->
    forall key rule detail, markCollisions l key rule detail !! j = Some t -> valid t = true -> entries raw !! j = Some t) as Hback.
  { intros l j t Hl key rule detail (s' & Hs' & [->| ->])%markCollisions_lookup Ht; [by apply Hl|done]. }
  assert (forall j t, L1 !! j = Some t -> valid t = true -> entries raw !! j = Some t) as Hstage by (intros; by eapply Hback).
  assert (L1 !! i = Some s) as Hi1.
  { apply survives_collisions; [done|]. intros j s' Hj Hs' Hk. unfold live_key in *. rewrite Hv in *.
    destruct (valid s') eqn:Hv'; [|done]. destruct (bool_decide_reflect (sv_ID s = "")) as [|Hid]; [done|]. simpl in *.
    rewrite (bool_decide_false _ Hid) in *. destruct (bool_decide (sv_ID s' = "")) eqn:Hid'; [done|]. simpl in Hk.
    rewrite Hid' in Hk. destruct (Halone j s' Hj Hs' Hv'). left. congruence. }
  assert (markDuplicateDisplayNames L1 !! i = Some s) as Hi2.
  { apply survives_collisions; [done|]. intros j s' Hj Hs' Hk. unfold live_key in *. rewrite Hv in *.
    destruct (valid s') eqn:Hv'; [|done]. destruct (sv_Enabled s) eqn:He; [|done]. simpl in *.
    destruct (bool_decide (name_key s = "")) eqn:Hn; [done|]. destruct (sv_Enabled s') eqn:He'; [|done]. simpl in Hk.
    destruct (bool_decide (name_key s' = "")); [done|].
    destruct (Halone j s' Hj (Hstage j s' Hs' Hv') Hv'). right. left. split; [done|]. split; [done|]. congruence. }
  apply survives_default with s; [done|done|]. intros j s' Hj Hs' Hv' Hd.
  destruct (sv_DefaultExecution s') eqn:Hd'; [|done].
  assert (entries raw !! j = Some s') as Hs0 by (eapply Hback; [|done..]; apply Hstage).
  destruct (Halone j s' Hj Hs0 Hv'). right. by right.
Qed.

Lemma admitServers_kept raw : Forall2 kept (entries raw) (admitServers raw).
Proof.
  unfold admitServers. fold (entries raw).
  eapply Forall2_kept_trans; [apply kept_markCollisions|].
  eapply Forall2_kept_trans; [apply kept_markCollisions|]. apply kept_markDefaultExecution.
Qed.

Lemma admitted_ok raw t : t ∈ admitServers raw -> valid t = true -> entry_ok t.
Proof.
  intros (i & Hi)%list_elem_of_lookup Hv.
  destruct (Forall2_lookup_r _ _ _ _ _ (admitServers_kept raw) Hi) as (s & Hs & Hk).
  apply kept_ok with s; [done|]. unfold entries in Hs. rewrite list_lookup_imap in Hs.
  destruct (raw !! i) as [entry|]; [|done]. injection Hs as <-. apply admitEntry_ok. by apply (kept_valid _ _ Hk).
Qed.

Lemma usable_distinct key (g : Server -> string) l rule detail raw :
  (forall s t, kept s t -> key t = key s) ->
  (forall s, entry_ok s -> usable s = true -> live_key key s = Some (g s)) ->
  Forall2 kept (markCollisions l key rule detail) (admitServers raw) ->
  NoDup (map g (UsableServers (admitServers raw))).
Proof.
  intros Hkey Hg Hk. eapply sublist_NoDup; [|apply (usable_keys key)].
  - eapply sublist_NoDup; [apply (marked_distinct key l rule detail)|]. by apply kept_keys.
  - apply Forall_forall. intros s Hs Hu. apply Hg; [|done]. apply (admitted_ok raw); [done|]. by apply usable_spec in Hu as [? _].
Qed.

Lemma usable_ids_distinct raw : NoDup (map sv_ID (UsableServers (admitServers raw))).
Proof.
  eapply (usable_distinct (fun s => if bool_decide (sv_ID s = "") then None else Some (sv_ID s))).
  - intros s t []. by rewrite kept_id0.
  - intros s Hok [Hv _]%usable_spec. unfold live_key. rewrite Hv, bool_decide_false by (by apply ok_id_nonempty).
    simpl. by rewrite bool_decide_false by (by apply ok_id_nonempty).
  - eapply Forall2_kept_trans; [apply kept_markCollisions|apply kept_markDefaultExecution].
Qed.

(** The enabled entries of a file without invalid ones, which is what the fleet runtime of
    the web host starts its workers for. *)
Lemma enabled_ids_distinct raw :
  InvalidServers (admitServers raw) = [] -> NoDup (map sv_ID (List.filter sv_Enabled (admitServers raw))).
Proof.
  intros Hinv. pose proof (usable_ids_distinct raw) as Hnd.
  assert (List.filter sv_Enabled (admitServers raw) = UsableServers (admitServers raw)) as ->; [|done].
  apply List.filter_ext_in. intros s Hs. unfold InvalidServers in Hinv.
  assert (valid s = true) as Hv.
  { destruct (valid s) eqn:Ev; [done|]. assert (In s []) as []. rewrite <- Hinv. apply filter_In. by rewrite Ev. }
  destruct (usable s) eqn:Eu; [by apply usable_spec in Eu as [_ ->]|].
  destruct (sv_Enabled s) eqn:Ee; [|done]. assert (usable s = true) by (by apply usable_spec). congruence.
Qed.

Lemma admitted_one_default raw : one_default (admitServers raw).
Proof.
  apply markDefaultExecution_one. intros s (i & Hi)%list_elem_of_lookup Hv Hd.
  apply markCollisions_lookup in Hi as (s1 & Hi & [->| ->]); [|done].
  apply markCollisions_lookup in Hi as (s0 & Hi & [->| ->]); [|done].
  rewrite list_lookup_imap in Hi. destruct (raw !! i) as [entry|]; [|done]. injection Hi as <-.
  by apply (admitEntry_ok (Z.of_nat i) entry).
Qed.

(** C16: what a client may rely on after loading servers.json.  The usable servers have
    distinct identifiers and distinct names, each with the identifier of its canonical URL, a
    sound name and sound credentials; exactly one of them is the default, when there are any;
    every entry of the file is there, at its position; and an entry that is sound by itself and
    collides with no other sound one is not invalidated, whatever else the file holds. *)
Theorem usable_servers_sound data raw servers :
  decode_file data = inr (ServersSchemaVersion, Some raw) -> Load (Some data) = inr servers ->
  NoDup (map sv_ID (UsableServers servers))
  /\ NoDup (map name_key (UsableServers servers))
  /\ (forall s, s ∈ UsableServers servers -> entry_ok s)
  /\ one_default servers
  /\ length servers = length raw
  /\ (forall i s, servers !! i = Some s -> sv_Index s = Z.of_nat i)
  /\ (forall i s, entries raw !! i = Some s -> valid s = true ->
        (forall j s', j <> i -> entries raw !! j = Some s' -> valid s' = true -> ~ collide s s') ->
        exists t, servers !! i = Some t /\ valid t = true).
Proof.
  intros Hdec Hload. unfold Load in Hload. rewrite Hdec in Hload. simpl in Hload. injection Hload as <-.
  pose proof (admitServers_kept raw) as Hk. split; [|split; [|split; [|split; [|split; [|split]]]]].
  - apply usable_ids_distinct.
  - eapply (usable_distinct (fun s => if sv_Enabled s then Some (name_key s) else None)).
    + intros s t []. by rewrite kept_enabled0, kept_name0.
    + intros s Hok [Hv He]%usable_spec. unfold live_key. rewrite Hv, He. simpl.
      by rewrite bool_decide_false by (by apply ok_name_nonempty).
    + apply kept_markDefaultExecution.
  - intros s Hs. apply list_elem_of_In, filter_In in Hs as [Hin Hu]. apply (admitted_ok raw); [by apply list_elem_of_In|].
    by apply usable_spec in Hu as [? _].
  - apply admitted_one_default.
  - rewrite <- (Forall2_length _ _ _ Hk). apply length_imap.
  - intros i s Hs. destruct (Forall2_lookup_r _ _ _ _ _ Hk Hs) as (s0 & Hs0 & Hk0). rewrite (kept_index _ _ Hk0).
    unfold entries in Hs0. rewrite list_lookup_imap in Hs0. destruct (raw !! i); [|done]. injection Hs0 as <-.
    apply admitEntry_ok.
  - apply survives.
Qed.

End Claims.
