(* ===== verification/FleetHealth.v ===== *)
(** * clients/web-host: the health of the fleet, its values

    fleet.go: protocol tokens, the classification of errors, observations and the wire
    schema a snapshot of them has to meet, the delay between attempts, and the projection of
    sessions.  The runtime that produces them is in FleetRuntime.v. *)

From Stdlib Require Import String.
From S2P Require Import Prelude GoStd GoStrings GoTime GoPath ClientConfig.

Definition protocolVersion : string := "protocol-3".

(** ** Protocol tokens *)

Definition is_digit (c : ascii) : bool := in_range 48 57 (byte_Z c).

(** The expression ^protocol-\d+$. *)
Definition safeProtocolVersionToken (s : string) : bool :=
  HasPrefix s "protocol-"
  && (let digits := list_ascii_of_string (TrimPrefix s "protocol-") in
      negb (bool_decide (digits = [])) && forallb is_digit digits).

Definition sanitizeProtocolVersionToken (actual : string) : string :=
  if bool_decide (actual = "") then "<missing>"
  else if safeProtocolVersionToken actual then actual else "<invalid>".

Definition mismatch_prefix : string := "incompatible protocol: client protocol-".

Fixpoint skip_digits (s : string) : string :=
  match s with
  | EmptyString => EmptyString
  | String c rest => if is_digit c then skip_digits rest else s
  end.

(** The expression of the closed detail: the prefix, digits, and a token or a placeholder. *)
Definition closedProtocolMismatchDetail (s : string) : bool :=
  HasPrefix s mismatch_prefix
  && (let rest := TrimPrefix s mismatch_prefix in
      let after := skip_digits rest in
      negb (bool_decide (after = rest)) && HasPrefix after ", server "
      && (let server := TrimPrefix after ", server " in
          safeProtocolVersionToken server || bool_decide (server = "<missing>") || bool_decide (server = "<invalid>"))).

Definition protocolMismatchDetail (actual : string) : string :=
  "incompatible protocol: client " +:+ protocolVersion +:+ ", server " +:+ sanitizeProtocolVersionToken actual.

Section Classify.
Context `{UnicodeTables}.

(** The reason and the detail of an error, by its text. *)
Definition classifyHealthError (message : string) : string * string :=
  if Contains (ToLower message) "timeout" || Contains (ToLower message) "deadline" then ("connection_timeout", "")
  else if Contains message "incompatible protocol" then
    if closedProtocolMismatchDetail message then ("protocol_mismatch", message)
    else ("protocol_mismatch", protocolMismatchDetail "")
  else if Contains (ToLower message) "websocket" then ("websocket_failed", "")
  else if Contains (ToLower message) "empty websocket ticket" then ("empty_ticket", "")
  else if Contains message "HTTP" || HasPrefix message "5" || HasPrefix message "4" then ("http_error", "")
  else ("connection_failed", "").

End Classify.

(** ** Observations *)

Record healthPrior := mkPrior { hp_Kind : string; hp_ObservedAt : string; hp_Reason : string; hp_Detail : string }.

Record healthObservation := mkObservation {
  ho_Kind : string; ho_ObservedAt : string; ho_Reason : string; ho_Detail : string; ho_Prior : option healthPrior }.

Definition observed (kind at_ : string) : healthObservation := mkObservation kind at_ "" "" None.

Record healthServer := mkHealthServer {
  hs_ServerID : string; hs_ServerLabel : string; hs_Enabled : bool; hs_Observation : healthObservation }.

Record fleetHealthSnapshotV1 := mkHealthSnapshot {
  hv_SchemaVersion : Z; hv_HostInstanceID : string; hv_Revision : Z; hv_Servers : list healthServer }.

(** [re_writer]: the epoch of the worker that wrote the observation, which the program does
    not keep. *)
Record healthRecord := mkRecord {
  re_generation : Z; re_terminalIncompatible : bool; re_observation : healthObservation; re_writer : Z }.

Definition nestablePrior (observation : healthObservation) : option healthPrior :=
  let k := ho_Kind observation in
  if bool_decide (k = "connected") || bool_decide (k = "unavailable") || bool_decide (k = "incompatible_protocol")
  then Some (mkPrior k (ho_ObservedAt observation) (ho_Reason observation) (ho_Detail observation))
  else if bool_decide (k = "health_unavailable") then ho_Prior observation
  else None.

(** time.RFC3339Nano in UTC: the fraction without trailing zeros. *)
Fixpoint digits_of (n : nat) (z : Z) : list ascii :=
  match n with
  | O => []
  | S n => digits_of n (z / 10) ++ [digit (z mod 10)]
  end.

Definition FormatRFC3339Nano (t : Time) : string :=
  let fraction := trim_right_bytes (digit 0) (digits_of 9 (t mod Second)) in
  string_of_list_ascii
    (removelast (list_ascii_of_string (FormatRFC3339 t))
     ++ (if bool_decide (fraction = []) then [] else Z_byte 46 :: fraction) ++ [char_Z]).

(** ** The wire schema *)

(** The keys of a JSON object, those of its "prior" among them: [None] is a value that is
    not an object. *)
Record jsonObject := mkObject { ob_keys : list string; ob_prior : option (option (list string)) }.

Definition validateHealthReason (reason : string) : bool :=
  bool_decide (reason = "")
  || bool_decide (reason ∈ ["connection_timeout"; "connection_failed"; "http_error"; "websocket_failed"; "empty_ticket";
                            "protocol_mismatch"; "refresh_failed"; "delivery_lost"]).

Definition validateHealthObservation (observation : healthObservation) (object : jsonObject) : bool :=
  let k := ho_Kind observation in
  let at_ := negb (bool_decide (ho_ObservedAt observation = "")) in
  let bare := bool_decide (ho_Reason observation = "") && bool_decide (ho_Prior observation = None)
              && bool_decide (ho_Detail observation = "") in
  let only l := forallb (fun key => bool_decide (key ∈ l)) (ob_keys object) in
  if bool_decide (k = "disabled") then negb at_ && bare && only ["kind"]
  else if bool_decide (k = "checking") || bool_decide (k = "connected") then at_ && bare && only ["kind"; "observedAt"]
  else if bool_decide (k = "unavailable") || bool_decide (k = "incompatible_protocol") then
    at_ && bool_decide (ho_Prior observation = None) && bool_decide (ob_prior object = None)
    && validateHealthReason (ho_Reason observation)
  else if bool_decide (k = "health_unavailable") then
    at_
    && match ho_Prior observation with
       | None => true
       | Some prior =>
         bool_decide (hp_Kind prior ∈ ["connected"; "unavailable"; "incompatible_protocol"])
         && negb (bool_decide (hp_ObservedAt prior = ""))
         && match ob_prior object with
            | None => true
            | Some None => false
            | Some (Some keys) => negb (bool_decide ("stale" ∈ keys)) && negb (bool_decide (keys = []))
            end
       end
    && validateHealthReason (ho_Reason observation)
  else false.

(** [None]: no observation, or not an object. *)
Definition validateHealthObservationRaw (raw : option jsonObject) (observation : healthObservation) : bool :=
  match raw with
  | None => false
  | Some object => negb (bool_decide ("stale" ∈ ob_keys object)) && validateHealthObservation observation object
  end.

(** Whether the decoder takes a snapshot, given its observations as objects. *)
Definition DecodeFleetHealthSnapshotV1 (snapshot : fleetHealthSnapshotV1) (envelope : list (option jsonObject)) : bool :=
  (hv_SchemaVersion snapshot =? 1) && negb (bool_decide (hv_HostInstanceID snapshot = ""))
  && bool_decide (length envelope = length (hv_Servers snapshot))
  && forallb (fun x => validateHealthObservationRaw x.1 (hs_Observation x.2)) (zip envelope (hv_Servers snapshot)).

(** encoding/json with the tags of the fields: empty optional ones are left out. *)
Definition omitempty (key value : string) : list string := if bool_decide (value = "") then [] else [key].

Definition prior_keys (prior : healthPrior) : list string :=
  "kind" :: "observedAt" :: omitempty "reason" (hp_Reason prior) ++ omitempty "detail" (hp_Detail prior).

Definition marshal_observation (o : healthObservation) : jsonObject :=
  mkObject ("kind" :: omitempty "observedAt" (ho_ObservedAt o) ++ omitempty "reason" (ho_Reason o)
              ++ omitempty "detail" (ho_Detail o) ++ match ho_Prior o with Some _ => ["prior"] | None => [] end)
    ((fun prior => Some (prior_keys prior)) <$> ho_Prior o).

Definition marshal_snapshot (snapshot : fleetHealthSnapshotV1) : list (option jsonObject) :=
  map (fun server => Some (marshal_observation (hs_Observation server))) (hv_Servers snapshot).

(** ** Retrying *)

Definition healthRetryBase : Duration := 250 * Millisecond.
Definition healthRetryCap : Duration := 2 * Second.
Definition healthPhaseTimeout : Duration := 3 * Second.
Definition healthConnectedFreshness : Duration := 5 * Second.

Definition retryDelay (attempt : Z) : Duration :=
  if 0 <? attempt then
    let shift := Z.min attempt 4 in
    Z.min (healthRetryBase * 2 ^ shift) healthRetryCap
  else healthRetryBase.

(** ** Members and sessions *)

Record fleetMember := mkMember {
  fm_ServerID : string; fm_ServerLabel : string; fm_Generation : Z; fm_State : string; fm_Stale : bool;
  fm_Reason : string; fm_Sessions : list string }.

Record fleetSession := mkSession {
  fs_ServerID : string; fs_SessionID : string; fs_ServerLabel : string; fs_Session : string; fs_Stale : bool }.

Record fleetSnapshot := mkSnapshot { sn_Revision : Z; sn_Members : list fleetMember; sn_Sessions : list fleetSession }.

(** json.Unmarshal of a session's "id"; [None] is an error. *)
Class SessionCodec := session_id : string -> option string.

Section Sessions.
Context `{SessionCodec}.

Definition projectFleetSessions (members : list fleetMember) : list fleetSession :=
  member ← members;
  let displayLabel :=
    if (1 <? length (List.filter (fun m => bool_decide (fm_ServerLabel m = fm_ServerLabel member)) members))%nat
    then fm_ServerLabel member +:+ " · " +:+ fm_ServerID member else fm_ServerLabel member in
  raw ← fm_Sessions member;
  match session_id raw with
  | None => []
  | Some id => if bool_decide (id = "") then [] else [mkSession (fm_ServerID member) id displayLabel raw (fm_Stale member)]
  end.

(** The member that [replace] writes, and the members with it in place of the first of the
    server whose generation is not newer; [None] when there is none. *)
Fixpoint replace_member (server : Server) (generation : Z) (state reason : string) (sessions : list string)
    (members : list fleetMember) : option (list fleetMember) :=
  match members with
  | [] => None
  | current :: members =>
    if negb (bool_decide (fm_ServerID current = sv_ID server)) || (generation <? fm_Generation current)
    then (current ::.) <$> replace_member server generation state reason sessions members
    else
      let sessions := if bool_decide (state = "connected") then sessions else fm_Sessions current in
      Some (mkMember (sv_ID server) (sv_DisplayName server) generation state
              (negb (bool_decide (state = "connected")) && negb (bool_decide (sessions = []))) reason sessions :: members)
  end.

End Sessions.
