(* ===== verification/FleetRuntime.v ===== *)
(** * clients/web-host: the fleet runtime

    fleet.go: one worker per enabled server probes it, follows its web socket and publishes
    what it observes; a manual reconnect retires the worker and starts another one;
    subscribers get the latest snapshot.

    Workers and reconnects are threads over a shared state.  A step of a thread is what runs
    between two points where another thread can come in: a section under the mutex, the load
    of the stop flag, or a call to the network, whose result is an input.  A property of
    [reachable] holds for every interleaving and every behaviour of the servers.  Generations
    and epochs are uint64 counters that are incremented once per attempt; the model does not
    wrap them.  One reading of the clock stands for those a thread makes before its next
    step.  A sleep can end at any time: by its timer, a wake-up or the end of the program.
    The counts of live handles and the table of connections, which only [stop]
    looks at, are left out. *)

From Stdlib Require Import String.
From S2P Require Import Prelude GoStd GoStrings GoTime ClientConfig FleetHealth.

(** ** Threads *)

(** What followGeneration returns with: the text of an error. *)
Abbreviation Error := string (only parsing).

(** Where a thread is.  [PcPublish]: in publishHealth, before the load of the stop flag or
    after it ([armed]); [PcReplace]: before replace. *)
Inductive Pc :=
| PcTop | PcBegin
| PcPublish (armed : bool) (observation : healthObservation) (terminal : bool) (next : Pc)
| PcReplace (state reason : string) (sessions : list string) (next : Pc)
| PcProbe | PcTicket | PcDial
| PcLoop (helloDeadline freshnessDeadline : Time) (connected : bool)
| PcRead (helloDeadline freshnessDeadline : Time) (connected : bool)
| PcReturned (err : Error) | PcJudge (err : Error)
| PcSleep | PcSleeping (wake : nat) (delay : Duration)
| PcEnd.

(** The generation is that of the last attempt. *)
Record Thread := mkThread {
  th_server : Server; th_epoch : Z; th_attempt : Z; th_generation : Z; th_ctx : option nat; th_pc : Pc }.

#[export] Instance eta_Thread : Eta Thread := fun t =>
  mkThread (th_server t) (th_epoch t) (th_attempt t) (th_generation t) (th_ctx t) (th_pc t).

Definition at_pc (t : Thread) (pc : Pc) : Thread := t <| th_pc := pc |>.

(** ** State *)

(** [fl_base]: the generation of the last reconnect of a server, which the program does not
    keep. *)
Record Fleet := mkFleet {
  fl_snapshot : fleetSnapshot; fl_healthRevision : Z; fl_hostInstanceID : string;
  fl_subscribers : gmap nat (list fleetSnapshot); fl_healthSubs : gmap nat (list fleetHealthSnapshotV1);
  fl_servers : list Server; fl_allServers : list Server; fl_health : gmap string healthRecord;
  fl_started : bool; fl_stopped : bool;
  fl_memberGeneration : gmap string Z; fl_workerEpoch : gmap string Z;
  fl_memberCancel : gmap string nat; fl_cancelled : gset nat; fl_rootCancelled : bool; fl_nextCtx : nat;
  fl_memberWake : gmap string nat; fl_woken : gset nat; fl_nextWake : nat;
  fl_threads : gmap nat Thread; fl_nextThread : nat;
  fl_base : gmap string Z }.

#[export] Instance eta_Fleet : Eta Fleet := fun f =>
  mkFleet (fl_snapshot f) (fl_healthRevision f) (fl_hostInstanceID f) (fl_subscribers f) (fl_healthSubs f) (fl_servers f)
    (fl_allServers f) (fl_health f) (fl_started f) (fl_stopped f) (fl_memberGeneration f) (fl_workerEpoch f)
    (fl_memberCancel f) (fl_cancelled f) (fl_rootCancelled f) (fl_nextCtx f) (fl_memberWake f) (fl_woken f) (fl_nextWake f)
    (fl_threads f) (fl_nextThread f) (fl_base f).

Definition zero_of (m : gmap string Z) (id : string) : Z := default 0 (m !! id).

Definition generation_of (f : Fleet) (id : string) : Z := zero_of (fl_memberGeneration f) id.
Definition epoch_of (f : Fleet) (id : string) : Z := zero_of (fl_workerEpoch f) id.

(** [random]: the identifier of the host; [now]: the clock, read for each server. *)
Definition newFleetRuntime (random : string) (now : Time) (config : list Server) : Fleet :=
  let enabled := List.filter sv_Enabled config in
  mkFleet (mkSnapshot 0 (map (fun s => mkMember (sv_ID s) (sv_DisplayName s) 0 "connecting" false "" []) enabled) [])
    0 random ∅ ∅ enabled config
    (foldl (fun m s => <[sv_ID s := mkRecord 0 false (if sv_Enabled s then observed "checking" (FormatRFC3339Nano now)
                                                        else observed "disabled" "") 0]> m) ∅ config)
    false false ∅ ∅ ∅ ∅ false 0 ∅ ∅ 0 ∅ 0 ∅.

(** ** Publishing *)

(** A channel of capacity one; a send on a full channel blocks. *)
Definition send {A} (x : A) (ch : list A) : option (list A) := if (length ch <? 1)%nat then Some (ch ++ [x]) else None.

(** The select of a publisher: where there is no room, the old value is taken out first. *)
Definition conflate {A} (x : A) (ch : list A) : option (list A) :=
  match send x ch with
  | Some ch => Some ch
  | None => send x (tail ch)
  end.

(** [None]: a send blocks, with the mutex held. *)
Definition deliver {A} (x : A) (m : gmap nat (list A)) : option (gmap nat (list A)) :=
  if bool_decide (map_Forall (fun _ ch => is_Some (conflate x ch)) m) then Some (omap (conflate x) m) else None.

Definition healthSnapshotLocked (f : Fleet) : fleetHealthSnapshotV1 :=
  mkHealthSnapshot 1 (fl_hostInstanceID f) (fl_healthRevision f)
    (map (fun s => mkHealthServer (sv_ID s) (sv_DisplayName s) (sv_Enabled s)
                     (match fl_health f !! sv_ID s with
                      | Some record => re_observation record
                      | None => observed "disabled" ""
                      end)) (fl_allServers f)).

(** The section of publishHealth; [epoch] is the writer's. *)
Definition publishHealth (serverID : string) (generation epoch : Z) (observation : healthObservation) (terminal : bool)
    (f : Fleet) : option Fleet :=
  match fl_health f !! serverID with
  | None => Some f
  | Some record =>
    if generation <? re_generation record then Some f
    else
      let record := mkRecord generation (terminal || re_terminalIncompatible record) observation epoch in
      let f := f <| fl_health := <[serverID := record]> (fl_health f) |> <| fl_healthRevision := fl_healthRevision f + 1 |> in
      subs ← deliver (healthSnapshotLocked f) (fl_healthSubs f);
      Some (f <| fl_healthSubs := subs |>)
  end.

(** ** One attempt (followGeneration) *)

(** A response: an error of the client, or a status with the decoded body ([inl] is the error
    of decoding it). *)
Inductive Response := Failed (err : Error) | Answered (code : Z) (status : string) (body : Error + string).

Definition probeCapabilities (r : Response) : Error + string :=
  match r with
  | Failed err => inl err
  | Answered code status body => if negb (code =? 200) then inl status else body
  end.

Definition requestFleetTicket (r : Response) : Error + string :=
  match r with
  | Failed err => inl err
  | Answered code status body =>
    if negb (code =? 200) then inl status
    else match body with
         | inl err => inl err
         | inr ticket => if bool_decide (ticket = "") then inl "empty websocket ticket" else inr ticket
         end
  end.

(** A frame of the socket: its kind and its sessions. *)
Record Frame := mkFrame { fr_Kind : string; fr_Sessions : option (list string) }.

(** The outcome of a read: an error (whether it is a deadline or a cancellation, and its
    text), or data that may not decode. *)
Inductive ReadResult := ReadError (deadlineOrCanceled : bool) (err : Error) | ReadData (frame : option Frame).

(** What the world answers to a step. *)
Inductive Net :=
| NoAnswer | Responded (r : Response) | Dialed (err : option Error) | Received (r : ReadResult).

Section Runtime.
Context `{UnicodeTables} `{SessionCodec}.

Definition replace (server : Server) (generation : Z) (state reason : string) (sessions : list string) (f : Fleet) :
    option Fleet :=
  match replace_member server generation state reason sessions (sn_Members (fl_snapshot f)) with
  | None => Some f
  | Some members =>
    let snapshot := mkSnapshot (sn_Revision (fl_snapshot f) + 1) members (projectFleetSessions members) in
    subs ← deliver snapshot (fl_subscribers f);
    Some (f <| fl_snapshot := snapshot |> <| fl_subscribers := subs |>)
  end.

(** ctx.Err() of an attempt. *)
Definition canceled (f : Fleet) (t : Thread) : bool :=
  fl_rootCancelled f || match th_ctx t with Some ctx => bool_decide (ctx ∈ fl_cancelled f) | None => false end.

Definition publish (observation : healthObservation) (terminal : bool) (next : Pc) : Pc :=
  PcPublish false observation terminal next.

(** The loop of followGeneration around a read. *)
Definition read_frame (now : Time) (hello fresh : Time) (connected : bool) (f : Fleet) (t : Thread) (r : ReadResult) : Pc :=
  match r with
  | ReadError over err =>
    if connected && over
    then PcReturned (if canceled f t then "context canceled" else "connected freshness expired")
    else PcReturned err
  | ReadData None => PcLoop hello fresh connected
  | ReadData (Some frame) =>
    if bool_decide (fr_Kind frame = "p") then
      PcLoop hello (if connected then Add now healthConnectedFreshness else fresh) connected
    else match fr_Sessions frame with
         | Some sessions =>
           if bool_decide (fr_Kind frame = "h") || bool_decide (fr_Kind frame = "v") then
             PcReplace "connected" "" sessions
               (publish (observed "connected" (FormatRFC3339Nano now)) false
                  (PcLoop hello (Add now healthConnectedFreshness) true))
           else PcLoop hello fresh connected
         | None => PcLoop hello fresh connected
         end
  end.

(** ** The worker (follow) *)

(** The section at the start of an attempt; [None] is the end of the worker. *)
Definition begin_attempt (t : Thread) (f : Fleet) : Fleet * option Thread :=
  let id := sv_ID (th_server t) in
  if negb (epoch_of f id =? th_epoch t) then (f, None)
  else
    let generation := generation_of f id + 1 in
    let terminal := match fl_health f !! id with Some record => re_terminalIncompatible record | None => false end in
    let ctx := fl_nextCtx f in
    let f := f <| fl_memberGeneration := <[id := generation]> (fl_memberGeneration f) |>
               <| fl_nextCtx := S ctx |> <| fl_memberCancel := <[id := ctx]> (fl_memberCancel f) |> in
    if terminal then (f <| fl_cancelled := {[ctx]} ∪ fl_cancelled f |>, None)
    else (f, Some (t <| th_generation := generation |> <| th_ctx := Some ctx |>)).

(** The section after an attempt: what becomes of the worker, at time [now]. *)
Definition judge (now : Time) (err : Error) (t : Thread) (f : Fleet) : option Pc :=
  let id := sv_ID (th_server t) in
  let record := fl_health f !! id in
  let terminal := match record with Some record => re_terminalIncompatible record | None => false end in
  if negb (epoch_of f id =? th_epoch t) then None
  else if terminal then None
  else
    let '(reason, detail) := classifyHealthError err in
    let at_ := FormatRFC3339Nano now in
    if bool_decide (reason = "protocol_mismatch") then
      Some (publish (mkObservation "incompatible_protocol" at_ reason detail None) true
              (PcReplace "unavailable" detail [] PcEnd))
    else
      let wasConnected := match record with
                          | Some record => bool_decide (ho_Kind (re_observation record) = "connected")
                                           || bool_decide (ho_Kind (re_observation record) = "health_unavailable")
                          | None => false
                          end in
      let observation :=
        if wasConnected
        then mkObservation "health_unavailable" at_ "refresh_failed" ""
               (match record with Some record => nestablePrior (re_observation record) | None => None end)
        else mkObservation "unavailable" at_ reason detail None in
      Some (publish observation false (PcReplace "reconnecting" reason [] PcSleep)).

Definition memberWakeChannel (id : string) (f : Fleet) : nat * Fleet :=
  match fl_memberWake f !! id with
  | Some ch => (ch, f)
  | None =>
    let ch := fl_nextWake f in
    (ch, f <| fl_memberWake := <[id := ch]> (fl_memberWake f) |> <| fl_nextWake := S ch |>)
  end.

(** A step of a thread, at time [now] with what the world answers.  [None]: it waits for
    another answer, or for ever; the thread is gone where there is none in the result. *)
Definition step_thread (now : Time) (net : Net) (t : Thread) (f : Fleet) : option (Fleet * option Thread) :=
  let id := sv_ID (th_server t) in
  let goto f pc := Some (f, Some (at_pc t pc)) in
  let returned err := goto f (PcReturned err) in
  match th_pc t with
  | PcTop => if fl_stopped f then Some (f, None) else goto f PcBegin
  | PcBegin =>
    match begin_attempt t f with
    | (f, None) => Some (f, None)
    | (f, Some t) => Some (f, Some (at_pc t (publish (observed "checking" (FormatRFC3339Nano now)) false PcProbe)))
    end
  | PcPublish false observation terminal next =>
    goto f (if fl_stopped f then next else PcPublish true observation terminal next)
  | PcPublish true observation terminal next =>
    f ← publishHealth id (th_generation t) (th_epoch t) observation terminal f;
    goto f next
  | PcReplace state reason sessions next =>
    f ← replace (th_server t) (th_generation t) state reason sessions f;
    goto f next
  | PcProbe =>
    match net with
    | Responded r =>
      match probeCapabilities r with
      | inl err => returned err
      | inr version =>
        if bool_decide (version = protocolVersion) then goto f PcTicket else returned (protocolMismatchDetail version)
      end
    | _ => None
    end
  | PcTicket =>
    match net with
    | Responded r => match requestFleetTicket r with inl err => returned err | inr _ => goto f PcDial end
    | _ => None
    end
  | PcDial =>
    match net with
    | Dialed (Some err) => returned err
    | Dialed None => goto f (PcLoop (Add now healthPhaseTimeout) 0 false)
    | _ => None
    end
  | PcLoop hello fresh connected =>
    if fl_stopped f then returned "runtime stopped"
    else if canceled f t then returned "context canceled"
    else if negb connected && (hello <? now) then returned "hello timed out"
    else goto f (PcRead hello fresh connected)
  | PcRead hello fresh connected =>
    match net with
    | Received r => goto f (read_frame now hello fresh connected f t r)
    | _ => None
    end
  | PcReturned err =>
    let f := match th_ctx t with Some ctx => f <| fl_cancelled := {[ctx]} ∪ fl_cancelled f |> | None => f end in
    if fl_stopped f then Some (f, None) else goto f (PcJudge err)
  | PcJudge err => Some (f, at_pc t <$> judge now err t f)
  | PcSleep =>
    let delay := retryDelay (th_attempt t) in
    let t := t <| th_attempt := th_attempt t + 1 |> in
    if fl_stopped f then Some (f, Some (at_pc t PcTop))
    else let '(ch, f) := memberWakeChannel id f in Some (f, Some (at_pc t (PcSleeping ch delay)))
  | PcSleeping _ _ => goto f PcTop
  | PcEnd => Some (f, None)
  end.

(** ** The entry points *)

Definition spawn (t : Thread) (f : Fleet) : Fleet :=
  f <| fl_threads := <[fl_nextThread f := t]> (fl_threads f) |> <| fl_nextThread := S (fl_nextThread f) |>.

(** startOnce.Do(startWorkers).  Nobody changes an epoch before it is done, so it is one
    step. *)
Definition startWorkers (f : Fleet) : Fleet :=
  if fl_started f then f
  else foldl (fun f s => spawn (mkThread s (epoch_of f (sv_ID s)) 0 0 None PcTop) f) (f <| fl_started := true |>)
         (fl_servers f).

Definition wakeMemberLocked (id : string) (f : Fleet) : Fleet :=
  let f := match fl_memberWake f !! id with
           | Some ch => f <| fl_woken := {[ch]} ∪ fl_woken f |>
           | None => f
           end in
  f <| fl_memberWake := <[id := fl_nextWake f]> (fl_memberWake f) |> <| fl_nextWake := S (fl_nextWake f) |>.

(** The section of reconnect. *)
Definition retire (id : string) (f : Fleet) : Fleet :=
  let f := f <| fl_health := alter (fun r => mkRecord (re_generation r) false (re_observation r) (re_writer r)) id
                               (fl_health f) |> in
  let f := match fl_memberCancel f !! id with
           | Some ctx => f <| fl_cancelled := {[ctx]} ∪ fl_cancelled f |>
                           <| fl_memberCancel := delete id (fl_memberCancel f) |>
           | None => f
           end in
  let f := wakeMemberLocked id f in
  f <| fl_memberGeneration := <[id := generation_of f id + 1]> (fl_memberGeneration f) |>
    <| fl_workerEpoch := <[id := epoch_of f id + 1]> (fl_workerEpoch f) |>
    <| fl_base := <[id := generation_of f id + 1]> (fl_base f) |>.

Definition reconnecting (now : Time) : Pc :=
  publish (observed "checking" (FormatRFC3339Nano now)) false (PcReplace "reconnecting" "manual reconnect" [] PcTop).

Inductive ReconnectError := NotReady | UnknownOrDisabled.

(** reconnect up to the end of its section; the thread publishes and goes on as the fresh
    worker.  (The stop flag is loaded at the start.) *)
Definition reconnect (now : Time) (serverID : string) (f : Fleet) : ReconnectError + Fleet :=
  if fl_stopped f then inl NotReady
  else match List.find (fun s => bool_decide (sv_ID s = serverID)) (fl_allServers f) with
       | None => inl UnknownOrDisabled
       | Some server =>
         if negb (sv_Enabled server) then inl UnknownOrDisabled
         else
           let f := retire serverID (startWorkers f) in
           inr (spawn (mkThread server (epoch_of f serverID) 0 (generation_of f serverID) None (reconnecting now)) f)
       end.

Definition subscribe (sub : nat) (f : Fleet) : Fleet :=
  let f := startWorkers f in f <| fl_subscribers := <[sub := [fl_snapshot f]]> (fl_subscribers f) |>.

Definition subscribeHealth (sub : nat) (f : Fleet) : Fleet :=
  let f := startWorkers f in f <| fl_healthSubs := <[sub := [healthSnapshotLocked f]]> (fl_healthSubs f) |>.

(** ** Runs *)

(** What can happen: a call from outside (a subscription starts the workers before it
    registers, so starting them is a step of its own as well), a subscriber that takes its value or leaves, the
    three parts of stop, and a step of a thread. *)
Inductive Input :=
| ISubscribe (sub : nat) | IUnsubscribe (sub : nat) | ITake (sub : nat)
| ISubscribeHealth (sub : nat) | IUnsubscribeHealth (sub : nat) | ITakeHealth (sub : nat)
| IStartWorkers | IReconnect (now : Time) (serverID : string) | IStop | ICancelRoot | IDropSubscribers
| IStep (thread : nat) (now : Time) (net : Net).

Definition input (i : Input) (f : Fleet) : option Fleet :=
  match i with
  | ISubscribe sub => Some (subscribe sub f)
  | IUnsubscribe sub => Some (f <| fl_subscribers := delete sub (fl_subscribers f) |>)
  | ITake sub => Some (f <| fl_subscribers := alter tail sub (fl_subscribers f) |>)
  | ISubscribeHealth sub => Some (subscribeHealth sub f)
  | IUnsubscribeHealth sub => Some (f <| fl_healthSubs := delete sub (fl_healthSubs f) |>)
  | ITakeHealth sub => Some (f <| fl_healthSubs := alter tail sub (fl_healthSubs f) |>)
  | IStartWorkers => Some (startWorkers f)
  | IReconnect now serverID => match reconnect now serverID f with inl _ => Some f | inr f => Some f end
  | IStop => Some (f <| fl_stopped := true |>)
  | ICancelRoot => Some (f <| fl_rootCancelled := true |>)
  | IDropSubscribers => Some (f <| fl_subscribers := ∅ |> <| fl_healthSubs := ∅ |>)
  | IStep thread now net =>
    t ← fl_threads f !! thread;
    r ← step_thread now net t f;
    Some (match r.2 with
          | Some t => r.1 <| fl_threads := <[thread := t]> (fl_threads r.1) |>
          | None => r.1 <| fl_threads := delete thread (fl_threads r.1) |>
          end)
  end.

Inductive reachable (config : list Server) (random : string) : Fleet -> Prop :=
| reach_new now : reachable config random (newFleetRuntime random now config)
| reach_input f i f' : reachable config random f -> input i f = Some f' -> reachable config random f'.

End Runtime.
