(* ===== verification/FleetFacts.v ===== *)
(** * clients/web-host: the books of the fleet runtime

    [Core]: what holds of workers, epochs, generations and records; every step of a thread,
    the start of the workers and a reconnect keep it.  The runs are in FleetRun.v. *)

From Stdlib Require Import String.
From S2P Require Import Prelude GoStd GoStrings GoTime ClientConfig FleetHealth FleetRuntime.

Definition base_of (f : Fleet) (id : string) : Z := zero_of (fl_base f) id.

Definition shown_generation (f : Fleet) (id : string) : Z :=
  match fl_health f !! id with Some r => re_generation r | None => 0 end.

Definition flagged (f : Fleet) (id : string) : bool :=
  match fl_health f !! id with Some r => re_terminalIncompatible r | None => false end.

(** An observation that the wire schema takes. *)
Definition well_formed (o : healthObservation) : Prop :=
  validateHealthObservationRaw (Some (marshal_observation o)) o = true.

(** ** Observations *)

Lemma FormatRFC3339Nano_nonempty t : FormatRFC3339Nano t <> "".
Proof.
  unfold FormatRFC3339Nano. set (l := _ ++ _ ++ [char_Z]). assert (l <> []) as Hl.
  { subst l. intros Hn. apply app_eq_nil in Hn as [_ Hn]. by apply app_eq_nil in Hn as [_ Hn]. }
  by destruct l.
Qed.

Lemma no_stale o : bool_decide ("stale" ∈ ob_keys (marshal_observation o)) = false.
Proof.
  apply bool_decide_eq_false_2. unfold marshal_observation, omitempty. simpl.
  repeat case_bool_decide; destruct (ho_Prior o); simpl; intros Hin;
    repeat (apply elem_of_cons in Hin as [Hin|Hin]; [done|]); by apply elem_of_nil in Hin.
Qed.

Lemma well_formed_observed k at_ :
  k = "checking" \/ k = "connected" -> at_ <> "" -> well_formed (observed k at_).
Proof.
  intros Hk Hat. unfold well_formed, validateHealthObservationRaw. rewrite no_stale. simpl.
  unfold validateHealthObservation. simpl. unfold omitempty. rewrite !(bool_decide_false _ Hat).
  by destruct Hk as [->| ->].
Qed.

Lemma well_formed_disabled : well_formed (observed "disabled" "").
Proof. vm_compute. reflexivity. Qed.

Lemma well_formed_unavailable k at_ reason detail :
  k = "unavailable" \/ k = "incompatible_protocol" -> at_ <> "" -> validateHealthReason reason = true ->
  well_formed (mkObservation k at_ reason detail None).
Proof.
  intros Hk Hat Hr. unfold well_formed, validateHealthObservationRaw. rewrite no_stale. simpl.
  unfold validateHealthObservation. simpl. rewrite !(bool_decide_false _ Hat), Hr. by destruct Hk as [->| ->].
Qed.

Definition prior_ok (prior : healthPrior) : Prop :=
  hp_Kind prior ∈ ["connected"; "unavailable"; "incompatible_protocol"] /\ hp_ObservedAt prior <> "".

Lemma well_formed_health_unavailable at_ prior :
  at_ <> "" -> (forall p, prior = Some p -> prior_ok p) ->
  well_formed (mkObservation "health_unavailable" at_ "refresh_failed" "" prior).
Proof.
  intros Hat Hp. unfold well_formed, validateHealthObservationRaw. rewrite no_stale. simpl.
  unfold validateHealthObservation. simpl. rewrite (bool_decide_false _ Hat). destruct prior as [p|]; [|done]. simpl.
  destruct (Hp p eq_refl) as [Hk Ho]. rewrite (bool_decide_true _ Hk), (bool_decide_false _ Ho). simpl.
  unfold prior_keys, omitempty. repeat case_bool_decide; simpl; try done;
    match goal with Hin : "stale" ∈ _ |- _ =>
      repeat (apply elem_of_cons in Hin as [Hin|Hin]; [done|]); by apply elem_of_nil in Hin end.
Qed.

Lemma nestablePrior_ok o p : well_formed o -> nestablePrior o = Some p -> prior_ok p.
Proof.
  unfold well_formed, validateHealthObservationRaw, nestablePrior, validateHealthObservation.
  rewrite no_stale. simpl. intros Hwf Hp.
  destruct (bool_decide_reflect (ho_Kind o = "connected")) as [Hk|_].
  { rewrite Hk in Hwf. simpl in Hwf. simpl in Hp. injection Hp as <-. split; simpl; [rewrite Hk; set_solver|].
    intros He. by rewrite He in Hwf. }
  destruct (bool_decide_reflect (ho_Kind o = "unavailable")) as [Hk|_].
  { rewrite Hk in Hwf. simpl in Hwf. simpl in Hp. injection Hp as <-. split; simpl; [rewrite Hk; set_solver|].
    intros He. by rewrite He in Hwf. }
  destruct (bool_decide_reflect (ho_Kind o = "incompatible_protocol")) as [Hk|_].
  { rewrite Hk in Hwf. simpl in Hwf. simpl in Hp. injection Hp as <-. split; simpl; [rewrite Hk; set_solver|].
    intros He. by rewrite He in Hwf. }
  simpl in Hp. destruct (bool_decide_reflect (ho_Kind o = "health_unavailable")) as [Hk|_]; [|done].
  rewrite Hk in Hwf. simpl in Hwf. rewrite Hp in Hwf.
  apply andb_true_iff in Hwf as [[_ Hwf]%andb_true_iff _].
  apply andb_true_iff in Hwf as [[Hkind%bool_decide_eq_true Hat%negb_true_iff%bool_decide_eq_false]%andb_true_iff _].
  done.
Qed.

Lemma classify_reason_valid `{UnicodeTables} message : validateHealthReason (classifyHealthError message).1 = true.
Proof. unfold classifyHealthError. repeat match goal with |- context [if ?b then _ else _] => destruct b end; done. Qed.

(** The thread ends after this. *)
Fixpoint ending (pc : Pc) : bool :=
  match pc with
  | PcEnd => true
  | PcReplace _ _ _ next => ending next
  | _ => false
  end.

(** A reconnect that has still to publish. *)
Definition announcing (pc : Pc) : bool :=
  match pc with PcPublish _ _ _ (PcReplace _ _ _ PcTop) => true | _ => false end.

(** What a thread is about to publish is well formed, and it ends only after it has reported
    an incompatible protocol. *)
Fixpoint shape (pc : Pc) : Prop :=
  match pc with
  | PcPublish _ o terminal next => well_formed o /\ shape next /\ (ending next = true -> terminal = true)
  | PcReplace _ _ _ next => shape next
  | _ => True
  end.

Definition thread_id (t : Thread) : string := sv_ID (th_server t).

Definition current (f : Fleet) (t : Thread) : Prop := th_epoch t = epoch_of f (thread_id t).

Section Facts.
Context `{UnicodeTables} `{SessionCodec} (config : list Server) (random : string).

Record thread_ok (f : Fleet) (t : Thread) : Prop := {
  t_server : th_server t ∈ config;
  t_enabled : sv_Enabled (th_server t) = true;
  t_epoch : th_epoch t <= epoch_of f (thread_id t);
  t_retired : th_epoch t < epoch_of f (thread_id t) -> th_generation t < base_of f (thread_id t);
  t_current : current f t -> th_generation t = generation_of f (thread_id t);
  t_ending : current f t -> ending (th_pc t) = true -> fl_stopped f = true \/ flagged f (thread_id t) = true;
  t_announced : current f t ->
    fl_stopped f = true \/ announcing (th_pc t) = true \/ base_of f (thread_id t) <= shown_generation f (thread_id t);
  t_shape : shape (th_pc t) }.

Definition followed (f : Fleet) (s : Server) : Prop :=
  flagged f (sv_ID s) = true \/ exists n t, fl_threads f !! n = Some t /\ thread_id t = sv_ID s /\ current f t.

Record record_ok (f : Fleet) (id : string) (r : healthRecord) : Prop := {
  r_generation : re_generation r <= generation_of f id;
  r_observation : well_formed (re_observation r);
  r_writer : base_of f id <= re_generation r -> re_writer r = epoch_of f id }.

Record Core (f : Fleet) : Prop := {
  c_all : fl_allServers f = config;
  c_servers : fl_servers f = List.filter sv_Enabled config;
  c_host : fl_hostInstanceID f = random;
  c_threads : forall n t, fl_threads f !! n = Some t -> thread_ok f t;
  c_distinct : forall n m t u, fl_threads f !! n = Some t -> fl_threads f !! m = Some u -> n <> m ->
    thread_id t = thread_id u -> th_epoch t <> th_epoch u;
  c_next : forall n, (fl_nextThread f <= n)%nat -> fl_threads f !! n = None;
  c_base : forall id, base_of f id <= generation_of f id;
  c_health : forall s, s ∈ config -> is_Some (fl_health f !! sv_ID s);
  c_records : forall id r, fl_health f !! id = Some r -> record_ok f id r;
  c_unstarted : fl_started f = false ->
    fl_threads f = ∅ /\ forall id, epoch_of f id = 0 /\ generation_of f id = 0 /\ base_of f id = 0
                                 /\ 0 <= shown_generation f id;
  c_followed : fl_started f = true -> fl_stopped f = false ->
    forall s, s ∈ config -> sv_Enabled s = true -> followed f s }.

(** ** Steps that leave the books alone *)

Record same (f f' : Fleet) : Prop := {
  s_all : fl_allServers f' = fl_allServers f; s_servers : fl_servers f' = fl_servers f;
  s_host : fl_hostInstanceID f' = fl_hostInstanceID f; s_threads : fl_threads f' = fl_threads f;
  s_next : fl_nextThread f' = fl_nextThread f; s_epoch : fl_workerEpoch f' = fl_workerEpoch f;
  s_generation : fl_memberGeneration f' = fl_memberGeneration f; s_base : fl_base f' = fl_base f;
  s_health : fl_health f' = fl_health f; s_started : fl_started f' = fl_started f;
  s_stopped : fl_stopped f' = fl_stopped f }.

Lemma same_refl f : same f f.
Proof. done. Qed.

Lemma same_trans f g h : same f g -> same g h -> same f h.
Proof. intros [] []. split; congruence. Qed.

Ltac same_rewrite Hs :=
  unfold followed, flagged, shown_generation, current, epoch_of, generation_of, base_of in *;
  rewrite ?(s_all _ _ Hs), ?(s_servers _ _ Hs), ?(s_host _ _ Hs), ?(s_threads _ _ Hs), ?(s_next _ _ Hs), ?(s_epoch _ _ Hs),
    ?(s_generation _ _ Hs), ?(s_base _ _ Hs), ?(s_health _ _ Hs), ?(s_started _ _ Hs), ?(s_stopped _ _ Hs).

Lemma same_thread f f' t : same f f' -> thread_ok f t -> thread_ok f' t.
Proof. intros Hs []. split; same_rewrite Hs; done. Qed.

Lemma same_core f f' : same f f' -> Core f -> Core f'.
Proof.
  intros Hs HC. destruct HC. split; try (same_rewrite Hs; done).
  - intros n t Ht. rewrite (s_threads _ _ Hs) in Ht. apply (same_thread f); eauto.
  - intros id r Hr. rewrite (s_health _ _ Hs) in Hr. destruct (c_records0 id r Hr). split; same_rewrite Hs; done.
Qed.

(** ** A thread moves on *)

Definition with_thread (n : nat) (t : option Thread) (f : Fleet) : Fleet :=
  match t with
  | Some t => f <| fl_threads := <[n := t]> (fl_threads f) |>
  | None => f <| fl_threads := delete n (fl_threads f) |>
  end.

Lemma with_thread_lookup n ot f m u :
  fl_threads (with_thread n ot f) !! m = Some u -> (m = n /\ ot = Some u) \/ (m <> n /\ fl_threads f !! m = Some u).
Proof.
  destruct ot as [t|]; simpl; destruct (decide (m = n)) as [->|Hne];
    rewrite ?lookup_insert_eq, ?lookup_delete_eq, ?lookup_insert_ne, ?lookup_delete_ne by congruence; naive_solver.
Qed.

Lemma core_move f n t ot :
  Core f -> fl_threads f !! n = Some t ->
  (forall t', ot = Some t' -> thread_ok f t' /\ thread_id t' = thread_id t /\ th_epoch t' = th_epoch t) ->
  (ot = None -> current f t -> fl_stopped f = true \/ flagged f (thread_id t) = true) ->
  Core (with_thread n ot f).
Proof.
  intros HC Ht Hsome Hnone. destruct HC.
  assert (forall u, thread_ok f u -> thread_ok (with_thread n ot f) u) as Hok by (intros u []; by destruct ot).
  split; try (by destruct ot).
  - intros m u [[-> ->]|[_ Hu]]%with_thread_lookup; apply Hok; [by apply Hsome|by eapply c_threads0].
  - intros m k u w [[-> Hu]|[Hm Hu]]%with_thread_lookup [[-> Hw]|[Hk Hw]]%with_thread_lookup Hne Hid; [done|..].
    + destruct (Hsome _ Hu) as (_ & Hi & ->). apply (c_distinct0 n k t w); congruence.
    + destruct (Hsome _ Hw) as (_ & Hi & ->). apply (c_distinct0 m n u t); congruence.
    + by apply (c_distinct0 m k u w).
  - intros m Hm. assert (fl_threads f !! m = None) as Hfree by (apply c_next0; by destruct ot).
    assert (m <> n) by congruence.
    destruct ot; simpl; rewrite ?lookup_insert_ne, ?lookup_delete_ne by congruence; done.
  - intros id r Hr. assert (record_ok f id r) as [] by (apply c_records0; by destruct ot). by destruct ot.
  - intros Hst. assert (fl_threads f = ∅) as He by (apply c_unstarted0; by destruct ot). by rewrite He in Ht.
  - intros Hst Hstop s Hs Hen. assert (fl_stopped f = false) as Hstop' by (by destruct ot).
    destruct (c_followed0 ltac:(by destruct ot) Hstop' s Hs Hen) as [Hf|(m & u & Hu & Hid & Hcur)];
      [left; by destruct ot|].
    destruct (decide (m = n)) as [->|Hne].
    + assert (u = t) as -> by congruence. destruct ot as [t'|].
      * right. exists n, t'. destruct (Hsome t' eq_refl) as (_ & Hi & He). simpl. rewrite lookup_insert_eq.
        split; [done|]. split; [congruence|]. unfold current in *. rewrite Hi, He. exact Hcur.
      * left. destruct (Hnone eq_refl Hcur) as [Hx|Hx]; [congruence|]. rewrite <- Hid. exact Hx.
    + right. exists m, u. split; [|by destruct ot].
      destruct ot; simpl; rewrite ?lookup_insert_ne, ?lookup_delete_ne by congruence; done.
Qed.

(** ** Publishing *)

(** All the books but the record of one server. *)
Record updated (id : string) (r : healthRecord) (f f' : Fleet) : Prop := {
  u_all : fl_allServers f' = fl_allServers f; u_servers : fl_servers f' = fl_servers f;
  u_host : fl_hostInstanceID f' = fl_hostInstanceID f; u_threads : fl_threads f' = fl_threads f;
  u_next : fl_nextThread f' = fl_nextThread f; u_epoch : fl_workerEpoch f' = fl_workerEpoch f;
  u_generation : fl_memberGeneration f' = fl_memberGeneration f; u_base : fl_base f' = fl_base f;
  u_health : fl_health f' = <[id := r]> (fl_health f); u_started : fl_started f' = fl_started f;
  u_stopped : fl_stopped f' = fl_stopped f }.

Lemma publishHealth_spec id g e o terminal f f' :
  publishHealth id g e o terminal f = Some f' ->
  (f' = f /\ forall r, fl_health f !! id = Some r -> g < re_generation r)
  \/ exists r, fl_health f !! id = Some r /\ re_generation r <= g
       /\ updated id (mkRecord g (terminal || re_terminalIncompatible r) o e) f f'.
Proof.
  unfold publishHealth. destruct (fl_health f !! id) as [r|]; [|intros [= <-]; by left].
  destruct (Z.ltb_spec g (re_generation r)); [intros [= <-]; left; split; [done|]; intros ? [= <-]; done|].
  intros (subs & _ & Hf)%bind_Some. injection Hf as <-. right. exists r. by repeat split.
Qed.

Section Updated.
Context (id : string) (r r' : healthRecord) (f f' : Fleet).
Context (Hr : fl_health f !! id = Some r) (Hu : updated id r' f f').
Context (Hgen : re_generation r <= re_generation r')
        (Hflag : re_terminalIncompatible r = true -> re_terminalIncompatible r' = true).

Lemma updated_shown k : shown_generation f k <= shown_generation f' k.
Proof.
  unfold shown_generation. rewrite (u_health _ _ _ _ Hu). destruct (decide (k = id)) as [->|].
  - by rewrite lookup_insert_eq, Hr.
  - by rewrite lookup_insert_ne.
Qed.

Lemma updated_flagged k : flagged f k = true -> flagged f' k = true.
Proof.
  unfold flagged. rewrite (u_health _ _ _ _ Hu). destruct (decide (k = id)) as [->|].
  - rewrite lookup_insert_eq, Hr. exact Hflag.
  - by rewrite lookup_insert_ne.
Qed.

Lemma updated_counts k :
  epoch_of f' k = epoch_of f k /\ generation_of f' k = generation_of f k /\ base_of f' k = base_of f k.
Proof. unfold epoch_of, generation_of, base_of. by rewrite (u_epoch _ _ _ _ Hu), (u_generation _ _ _ _ Hu), (u_base _ _ _ _ Hu). Qed.

Lemma updated_thread t : thread_ok f t -> thread_ok f' t.
Proof.
  intros []. destruct (updated_counts (thread_id t)) as (He & Hg & Hb).
  split; unfold current in *; rewrite ?He, ?Hg, ?Hb, ?(u_stopped _ _ _ _ Hu); try done.
  - intros Hc Hend. destruct (t_ending0 Hc Hend); [by left|right; by apply updated_flagged].
  - intros Hc. destruct (t_announced0 Hc) as [|[|]]; [by left|by right; left|].
    right. right. pose proof (updated_shown (thread_id t)). lia.
Qed.

Lemma updated_core : record_ok f id r' -> Core f -> Core f'.
Proof.
  intros Hok HC. destruct HC. pose proof updated_counts as Hc.
  split; rewrite ?(u_all _ _ _ _ Hu), ?(u_servers _ _ _ _ Hu), ?(u_host _ _ _ _ Hu), ?(u_next _ _ _ _ Hu); try done.
  - intros n t. rewrite (u_threads _ _ _ _ Hu). intros Ht. apply updated_thread. by eapply c_threads0.
  - by rewrite (u_threads _ _ _ _ Hu).
  - by rewrite (u_threads _ _ _ _ Hu).
  - intros k. destruct (Hc k) as (_ & -> & ->). done.
  - intros s Hs. rewrite (u_health _ _ _ _ Hu). apply lookup_insert_is_Some'. right. by apply c_health0.
  - intros k w Hw. rewrite (u_health _ _ _ _ Hu) in Hw. destruct (Hc k) as (He & Hg & Hb).
    assert (record_ok f k w) as [].
    { apply lookup_insert_Some in Hw as [[<- <-]|[_ Hw]]; [done|by apply c_records0]. }
    split; rewrite ?He, ?Hg, ?Hb; done.
  - rewrite (u_started _ _ _ _ Hu), (u_threads _ _ _ _ Hu). intros Hst. destruct (c_unstarted0 Hst) as [Ht Hz].
    split; [done|]. intros k. destruct (Hz k) as (? & ? & ? & ?), (Hc k) as (-> & -> & ->).
    pose proof (updated_shown k). repeat split; try done. lia.
  - rewrite (u_started _ _ _ _ Hu), (u_stopped _ _ _ _ Hu). intros Hst Hstop s Hs Hen.
    destruct (c_followed0 Hst Hstop s Hs Hen) as [Hf|(n & t & Ht & Hid & Hcur)]; [left; by apply updated_flagged|].
    right. exists n, t. rewrite (u_threads _ _ _ _ Hu). split; [done|]. split; [done|]. unfold current.
    by destruct (Hc (thread_id t)) as (-> & _).
Qed.

End Updated.

Lemma core_publish f n t o terminal next f' :
  Core f -> fl_threads f !! n = Some t -> th_pc t = PcPublish true o terminal next ->
  publishHealth (thread_id t) (th_generation t) (th_epoch t) o terminal f = Some f' ->
  Core f' /\ thread_ok f' (at_pc t next) /\ fl_threads f' !! n = Some t.
Proof.
  intros HC Ht Hpc Hpub. pose proof (c_threads f HC n t Ht) as Hok. pose proof (c_health f HC _ (t_server _ _ Hok)) as [r Hr].
  fold (thread_id t) in Hr.
  pose proof (t_shape _ _ Hok) as Hshape. rewrite Hpc in Hshape. destruct Hshape as (Hwf & Hnext & Hterm).
  apply publishHealth_spec in Hpub as [[-> Hstale]|(r0 & Hr0 & Hle & Hu)].
  - specialize (Hstale r Hr). split; [done|]. split; [|done].
    assert (~ current f t) as Hnot.
    { intros Hc. pose proof (t_current _ _ Hok Hc). pose proof (r_generation _ _ _ (c_records f HC _ _ Hr)). lia. }
    destruct Hok. split; try done; by intros ?%Hnot.
  - assert (r0 = r) as -> by congruence.
    set (r' := mkRecord (th_generation t) (terminal || re_terminalIncompatible r) o (th_epoch t)) in *.
    assert (record_ok f (thread_id t) r') as Hrec.
    { destruct Hok. split; simpl; [|done|].
      - destruct (decide (th_epoch t = epoch_of f (thread_id t))) as [Hc|Hc]; [rewrite (t_current0 Hc); lia|].
        pose proof (t_retired0 ltac:(lia)). pose proof (c_base f HC (thread_id t)). lia.
      - intros Hb. destruct (decide (th_epoch t = epoch_of f (thread_id t))) as [Hc|Hc]; [done|].
        pose proof (t_retired0 ltac:(lia)). lia. }
    assert (re_terminalIncompatible r = true -> re_terminalIncompatible r' = true) as Hflag
      by (simpl; intros ->; apply orb_true_r).
    split; [by apply (updated_core _ r r' f f' Hr Hu Hle Hflag)|].
    pose proof (updated_thread _ r r' f f' Hr Hu Hle Hflag t Hok) as Hok'.
    split; [|by rewrite (u_threads _ _ _ _ Hu)].
    destruct (updated_counts _ _ _ _ Hu (thread_id t)) as (He & Hg & Hb). destruct Hok'. split; try done.
    + intros _ Hend. right. unfold flagged. rewrite (u_health _ _ _ _ Hu), lookup_insert_eq. simpl.
      by rewrite (Hterm Hend).
    + intros Hc. right. right. unfold shown_generation. change (thread_id (at_pc t next)) with (thread_id t).
      rewrite (u_health _ _ _ _ Hu), lookup_insert_eq. simpl. pose proof (t_current0 Hc) as Hgen.
      rewrite Hgen, Hg, Hb. apply (c_base f HC).
Qed.

(** ** A new attempt *)

(** All the books but the generation of one server. *)
Record bumped (id : string) (f f' : Fleet) : Prop := {
  b_all : fl_allServers f' = fl_allServers f; b_servers : fl_servers f' = fl_servers f;
  b_host : fl_hostInstanceID f' = fl_hostInstanceID f; b_threads : fl_threads f' = fl_threads f;
  b_next : fl_nextThread f' = fl_nextThread f; b_epoch : fl_workerEpoch f' = fl_workerEpoch f;
  b_generation : fl_memberGeneration f' = <[id := generation_of f id + 1]> (fl_memberGeneration f);
  b_base : fl_base f' = fl_base f; b_health : fl_health f' = fl_health f; b_started : fl_started f' = fl_started f;
  b_stopped : fl_stopped f' = fl_stopped f }.

Lemma bumped_generation id f f' k :
  bumped id f f' -> generation_of f' k = generation_of f k + (if bool_decide (k = id) then 1 else 0).
Proof.
  intros Hb. unfold generation_of at 1, zero_of. rewrite (b_generation _ _ _ Hb). case_bool_decide as Hk.
  - subst. by rewrite lookup_insert_eq.
  - rewrite lookup_insert_ne by congruence. unfold generation_of, zero_of. lia.
Qed.

Ltac bumped_rewrite Hb :=
  unfold followed, flagged, shown_generation, current, epoch_of, base_of in *;
  rewrite ?(b_all _ _ _ Hb), ?(b_servers _ _ _ Hb), ?(b_host _ _ _ Hb), ?(b_threads _ _ _ Hb), ?(b_next _ _ _ Hb),
    ?(b_epoch _ _ _ Hb), ?(b_base _ _ _ Hb), ?(b_health _ _ _ Hb), ?(b_started _ _ _ Hb), ?(b_stopped _ _ _ Hb).

(** A thread that is not the current one of the server keeps its standing. *)
Lemma bumped_thread id f f' t :
  bumped id f f' -> thread_ok f t -> (thread_id t = id -> ~ current f t) -> thread_ok f' t.
Proof.
  intros Hb [] Hnot. pose proof (bumped_generation id f f' (thread_id t) Hb) as Hg.
  split; try (bumped_rewrite Hb; done). intros Hc. assert (current f t) as Hc' by (unfold current, epoch_of in *; by rewrite (b_epoch _ _ _ Hb) in Hc).
  rewrite Hg, bool_decide_false by (intros ?; by apply Hnot). rewrite Z.add_0_r. auto.
Qed.

Lemma core_bump f n t f' ot :
  Core f -> fl_threads f !! n = Some t -> current f t -> bumped (thread_id t) f f' ->
  (forall t', ot = Some t' -> thread_ok f' t' /\ thread_id t' = thread_id t /\ th_epoch t' = th_epoch t) ->
  (ot = None -> fl_stopped f = true \/ flagged f (thread_id t) = true) ->
  Core (with_thread n ot f').
Proof.
  intros HC Ht Hcur Hb Hsome Hnone. destruct HC.
  assert (forall k, generation_of f k <= generation_of f' k) as Hg.
  { intros k. rewrite (bumped_generation _ _ _ k Hb). case_bool_decide; lia. }
  assert (forall u, thread_ok f' u -> thread_ok (with_thread n ot f') u) as Hok by (intros u []; by destruct ot).
  assert (fl_started f = true) as Hstarted.
  { destruct (fl_started f) eqn:Es; [done|]. destruct (c_unstarted0 eq_refl) as [He _]. by rewrite He in Ht. }
  split; try (destruct ot; simpl; bumped_rewrite Hb; done).
  - intros m u [[-> ->]|[Hm Hu]]%with_thread_lookup; apply Hok; [by apply Hsome|]. rewrite (b_threads _ _ _ Hb) in Hu.
    apply (bumped_thread (thread_id t) f); [done|by eapply c_threads0|]. intros Hid Hc.
    apply (c_distinct0 m n u t Hu Ht Hm Hid). unfold current in *. congruence.
  - intros m k u w Hu Hw Hne Hid. apply with_thread_lookup in Hu, Hw. rewrite (b_threads _ _ _ Hb) in Hu, Hw.
    destruct Hu as [[-> Hu]|[Hm Hu]], Hw as [[-> Hw]|[Hk Hw]]; [done|..].
    + destruct (Hsome _ Hu) as (_ & Hi & ->). apply (c_distinct0 n k t w); congruence.
    + destruct (Hsome _ Hw) as (_ & Hi & ->). apply (c_distinct0 m n u t); congruence.
    + by apply (c_distinct0 m k u w).
  - intros m Hm. assert (fl_threads f !! m = None) as Hfree.
    { apply c_next0. rewrite <- (b_next _ _ _ Hb). by destruct ot. }
    assert (m <> n) by congruence. rewrite <- (b_threads _ _ _ Hb) in Hfree.
    destruct ot; simpl; rewrite ?lookup_insert_ne, ?lookup_delete_ne by congruence; done.
  - intros k. specialize (Hg k). specialize (c_base0 k). unfold base_of, generation_of in *.
    destruct ot; simpl; rewrite (b_base _ _ _ Hb); lia.
  - intros k r Hr. assert (record_ok f k r) as [] by (apply c_records0; rewrite <- (b_health _ _ _ Hb); by destruct ot).
    specialize (Hg k). split; [destruct ot; unfold generation_of in *; simpl; lia|done|].
    destruct ot; bumped_rewrite Hb; simpl; bumped_rewrite Hb; done.
  - intros Hst. exfalso. rewrite <- (b_started _ _ _ Hb) in Hstarted. destruct ot; simpl in Hst; congruence.
  - intros _ Hstop s Hs Hen. assert (fl_stopped f = false) as Hstop' by (rewrite <- (b_stopped _ _ _ Hb); by destruct ot).
    destruct (decide (thread_id t = sv_ID s)) as [Hid|Hid].
    + destruct ot as [t'|].
      * right. exists n, t'. destruct (Hsome t' eq_refl) as (_ & Hi & He). simpl. rewrite lookup_insert_eq.
        split; [done|]. split; [congruence|]. bumped_rewrite Hb. simpl. bumped_rewrite Hb. congruence.
      * left. destruct (Hnone eq_refl) as [Hx|Hx]; [congruence|]. rewrite <- Hid. bumped_rewrite Hb. simpl. by bumped_rewrite Hb.
    + destruct (c_followed0 Hstarted Hstop' s Hs Hen) as [Hf|(m & u & Hu & Hid' & Hc)];
        [left; destruct ot; bumped_rewrite Hb; simpl; by bumped_rewrite Hb|].
      right. exists m, u. assert (m <> n) by (intros ->; congruence). split; [|split; [done|]].
      * destruct ot; simpl; rewrite ?lookup_insert_ne, ?lookup_delete_ne by congruence; by rewrite (b_threads _ _ _ Hb).
      * destruct ot; bumped_rewrite Hb; simpl; by bumped_rewrite Hb.
Qed.

(** ** Steps *)

Lemma ok_next f t t' :
  thread_ok f t -> th_server t' = th_server t -> th_epoch t' = th_epoch t -> th_generation t' = th_generation t ->
  shape (th_pc t') ->
  (ending (th_pc t') = true -> ending (th_pc t) = true \/ fl_stopped f = true) ->
  (announcing (th_pc t) = true -> announcing (th_pc t') = true \/ fl_stopped f = true) ->
  thread_ok f t'.
Proof.
  intros [] Hs He Hg Hsh Hend Hann. unfold current, thread_id in *.
  split; unfold current, thread_id in *; rewrite ?Hs, ?He, ?Hg; try done.
  - intros Hc Hx. destruct (Hend Hx) as [Hy|Hy]; [by apply t_ending0|by left].
  - intros Hc. destruct (t_announced0 Hc) as [|[Ha|]]; [by left| |by right; right].
    destruct (Hann Ha); [by right; left|by left].
Qed.

(** A move without a change of the books. *)
Lemma core_goto f f1 n t t' :
  Core f -> same f f1 -> fl_threads f !! n = Some t ->
  th_server t' = th_server t -> th_epoch t' = th_epoch t -> th_generation t' = th_generation t -> shape (th_pc t') ->
  (ending (th_pc t') = true -> ending (th_pc t) = true \/ fl_stopped f = true) ->
  (announcing (th_pc t) = true -> announcing (th_pc t') = true \/ fl_stopped f = true) ->
  Core (with_thread n (Some t') f1).
Proof.
  intros HC Hs Ht Hsv He Hg Hsh Hend Hann. apply (core_move f1 n t); [by apply (same_core f)|by rewrite (s_threads _ _ Hs)| |done].
  intros t1 [= <-]. split; [|unfold thread_id; by rewrite Hsv, He]. apply (same_thread f); [done|].
  apply (ok_next f t); try done. by apply (c_threads f HC n).
Qed.

Lemma core_quit f f1 n t :
  Core f -> same f f1 -> fl_threads f !! n = Some t ->
  (current f t -> fl_stopped f = true \/ flagged f (thread_id t) = true) -> Core (with_thread n None f1).
Proof.
  intros HC Hs Ht Hq. apply (core_move f1 n t); [by apply (same_core f)|by rewrite (s_threads _ _ Hs)|done|].
  intros _ Hc. unfold flagged, current, epoch_of in *. rewrite (s_epoch _ _ Hs) in Hc. rewrite (s_stopped _ _ Hs), (s_health _ _ Hs).
  by apply Hq.
Qed.

Lemma replace_same s g state reason sessions f f' : replace s g state reason sessions f = Some f' -> same f f'.
Proof.
  unfold replace. destruct (replace_member _ _ _ _ _ _); [|by intros [= <-]].
  intros (subs & _ & Hf)%bind_Some. by injection Hf as <-.
Qed.

Lemma judge_shape now err f t pc : Core f -> judge now err t f = Some pc -> shape pc /\ ending pc = false.
Proof.
  intros HC. unfold judge. destruct (negb _); [done|]. destruct (match fl_health f !! _ with Some _ => _ | None => _ end); [done|].
  pose proof (classify_reason_valid err) as Hreason. pose proof (FormatRFC3339Nano_nonempty now) as Hnow.
  destruct (classifyHealthError err) as [reason detail]. simpl in Hreason.
  case_bool_decide; intros [= <-]; (split; [|done]).
  - split; [|done]. apply well_formed_unavailable; auto.
  - split; [|done]. destruct (match fl_health f !! sv_ID (th_server t) with Some _ => _ | None => _ end).
    + apply well_formed_health_unavailable; [done|]. intros p. destruct (fl_health f !! _) as [r|] eqn:Er; [|done].
      apply nestablePrior_ok. by eapply c_records.
    + apply well_formed_unavailable; auto.
Qed.

Lemma core_begin f n t now f' ot :
  Core f -> fl_threads f !! n = Some t -> th_pc t = PcBegin -> begin_attempt t f = (f', ot) ->
  Core (with_thread n ((fun t => at_pc t (publish (observed "checking" (FormatRFC3339Nano now)) false PcProbe)) <$> ot) f').
Proof.
  intros HC Ht Hpc. pose proof (c_threads f HC n t Ht) as Hok. unfold begin_attempt. fold (thread_id t).
  destruct (Z.eqb_spec (epoch_of f (thread_id t)) (th_epoch t)) as [Hcur|Hcur]; simpl.
  2: { intros [= <- <-]. apply (core_quit f f n t); [done..|]. unfold current. congruence. }
  fold (flagged f (thread_id t)). destruct (flagged f (thread_id t)) eqn:Hfl; intros [= <- <-].
  - apply (core_bump f n t); [done|done|by symmetry|by split|done|by right].
  - match goal with |- Core (with_thread _ _ ?g) => set (f' := g) end.
    assert (bumped (thread_id t) f f') as Hb by done. apply (core_bump f n t); [done|done|by symmetry|done| |done].
    intros t' [= <-]. split; [|done]. pose proof (bumped_generation _ _ _ (thread_id t) Hb) as Hg.
    rewrite bool_decide_true in Hg by done. destruct Hok.
    split; [done|done|exact t_epoch0| |intros _; symmetry; exact Hg|done|..].
    + intros Hlt. change (th_epoch t < epoch_of f (thread_id t)) in Hlt. lia.
    + intros _. destruct (t_announced0 (eq_sym Hcur)) as [|[Ha|]]; [by left|by rewrite Hpc in Ha|by right; right].
    + split; [|done]. apply well_formed_observed; [by left|apply FormatRFC3339Nano_nonempty].
Qed.

Lemma read_frame_shape now hello fresh connected f t r :
  let pc := read_frame now hello fresh connected f t r in shape pc /\ ending pc = false.
Proof.
  unfold read_frame. pose proof (FormatRFC3339Nano_nonempty now) as Hnow.
  repeat case_match; try done. split; [|done]. split; [|done]. apply well_formed_observed; auto.
Qed.

Lemma with_thread_input n now net f :
  input (IStep n now net) f
  = t ← fl_threads f !! n; r ← step_thread now net t f; Some (with_thread n r.2 r.1).
Proof. simpl. destruct (fl_threads f !! n); simpl; [|done]. by destruct (step_thread _ _ _ _) as [[f' [t'|]]|]. Qed.

Lemma core_returned f n t err f1 ot :
  Core f -> fl_threads f !! n = Some t -> th_pc t = PcReturned err ->
  (let f := match th_ctx t with Some ctx => f <| fl_cancelled := {[ctx]} ∪ fl_cancelled f |> | None => f end in
   if fl_stopped f then Some (f, None) else Some (f, Some (at_pc t (PcJudge err)))) = Some (f1, ot) ->
  Core (with_thread n ot f1).
Proof.
  intros HC Ht Hpc. set (f0 := match th_ctx t with Some _ => _ | None => _ end).
  assert (same f f0) as Hs by (subst f0; by destruct (th_ctx t)). clearbody f0. cbv zeta. rewrite (s_stopped _ _ Hs).
  destruct (fl_stopped f) eqn:Hstop; intros [= <- <-].
  - apply (core_quit f f0 n t); auto.
  - apply (core_goto f f0 n t); rewrite ?Hpc; done.
Qed.

Lemma core_judged f n t now err :
  Core f -> fl_threads f !! n = Some t -> th_pc t = PcJudge err -> Core (with_thread n (at_pc t <$> judge now err t f) f).
Proof.
  intros HC Ht Hpc. destruct (judge now err t f) as [pc|] eqn:Hj; simpl.
  - destruct (judge_shape now err f t pc HC Hj) as [Hs He]. apply (core_goto f f n t); rewrite ?Hpc; try done.
    intros Hx. simpl in Hx. congruence.
  - apply (core_quit f f n t); [done|done|done|]. intros Hc. unfold judge in Hj. fold (thread_id t) in Hj.
    unfold current in Hc. rewrite <- Hc, Z.eqb_refl in Hj. simpl in Hj. fold (flagged f (thread_id t)) in Hj.
    destruct (flagged f (thread_id t)); [by right|]. destruct (classifyHealthError err). by case_bool_decide.
Qed.

Lemma core_step n now net f f' : Core f -> input (IStep n now net) f = Some f' -> Core f'.
Proof.
  intros HC. rewrite with_thread_input. intros (t & Ht & ([f1 ot] & Hstep & Hf)%bind_Some)%bind_Some. injection Hf as <-. simpl.
  pose proof (c_threads f HC n t Ht) as Hok. pose proof (t_shape _ _ Hok) as Hshape.
  unfold step_thread in Hstep. destruct (th_pc t) eqn:Hpc.
  - destruct (fl_stopped f) eqn:Hst; injection Hstep as <- <-; [apply (core_quit f f n t); auto; apply same_refl|].
    apply (core_goto f f n t); rewrite ?Hpc; try done.
  - destruct (begin_attempt t f) as [f2 ot2] eqn:Hb. pose proof (core_begin f n t now f2 ot2 HC Ht Hpc Hb) as HC'.
    by destruct ot2; injection Hstep as <- <-.
  - destruct Hshape as (Hwf & Hnext & Hterm). destruct armed.
    + apply bind_Some in Hstep as (f2 & Hpub & Hgo). injection Hgo as <- <-.
      destruct (core_publish f n t _ _ _ f2 HC Ht Hpc Hpub) as (HC2 & Hok2 & Ht2).
      apply (core_move f2 n t); [done..| |done]. intros t' [= <-]. done.
    + injection Hstep as <- <-. destruct (fl_stopped f) eqn:Hst;
        apply (core_goto f f n t); rewrite ?Hpc; try done; auto; simpl; auto.
  - apply bind_Some in Hstep as (f2 & Hrep & Hgo). injection Hgo as <- <-. apply replace_same in Hrep.
    apply (core_goto f f2 n t); rewrite ?Hpc; try done; auto.
  - destruct net; try done. destruct (probeCapabilities r); [|case_bool_decide]; injection Hstep as <- <-;
      apply (core_goto f f n t); rewrite ?Hpc; done.
  - destruct net; try done. destruct (requestFleetTicket r); injection Hstep as <- <-;
      apply (core_goto f f n t); rewrite ?Hpc; done.
  - destruct net as [| |[err|]|]; try done; injection Hstep as <- <-; apply (core_goto f f n t); rewrite ?Hpc; done.
  - repeat case_match; injection Hstep as <- <-; apply (core_goto f f n t); rewrite ?Hpc; done.
  - destruct net; try done. injection Hstep as <- <-.
    destruct (read_frame_shape now helloDeadline freshnessDeadline connected f t r) as [Hs He].
    apply (core_goto f f n t); rewrite ?Hpc; try done. intros Hx. simpl in Hx. congruence.
  - by apply (core_returned f n t err _ _ HC Ht Hpc Hstep).
  - injection Hstep as <- <-. by apply (core_judged f n t now err).
  - destruct (fl_stopped f) eqn:Hst; [injection Hstep as <- <-; apply (core_goto f f n t); rewrite ?Hpc; done|].
    destruct (memberWakeChannel (sv_ID (th_server t)) f) as [ch f2] eqn:Hw. injection Hstep as <- <-.
    assert (same f f2) as Hs by (unfold memberWakeChannel in Hw; destruct (fl_memberWake f !! _); by injection Hw as <- <-).
    apply (core_goto f f2 n t); rewrite ?Hpc; done.
  - injection Hstep as <- <-. apply (core_goto f f n t); rewrite ?Hpc; done.
  - injection Hstep as <- <-. apply (core_quit f f n t); [done|done|done|]. intros Hc. apply (t_ending _ _ Hok Hc).
    by rewrite Hpc.
Qed.

(** ** Starting the workers *)

Definition fresh (s : Server) : Thread := mkThread s 0 0 0 None PcTop.

(** All the books but the threads. *)
Record alike (f f' : Fleet) : Prop := {
  a_all : fl_allServers f' = fl_allServers f; a_servers : fl_servers f' = fl_servers f;
  a_host : fl_hostInstanceID f' = fl_hostInstanceID f; a_epoch : fl_workerEpoch f' = fl_workerEpoch f;
  a_generation : fl_memberGeneration f' = fl_memberGeneration f; a_base : fl_base f' = fl_base f;
  a_health : fl_health f' = fl_health f; a_started : fl_started f' = fl_started f; a_stopped : fl_stopped f' = fl_stopped f;
  a_subs : fl_subscribers f' = fl_subscribers f; a_healthSubs : fl_healthSubs f' = fl_healthSubs f;
  a_snapshot : fl_snapshot f' = fl_snapshot f; a_revision : fl_healthRevision f' = fl_healthRevision f }.

Record spawned (f0 f : Fleet) (l : list Server) : Prop := {
  w_alike : alike f0 f;
  w_thread : forall n t, fl_threads f !! n = Some t -> exists s, s ∈ l /\ t = fresh s;
  w_each : forall s, s ∈ l -> exists n, fl_threads f !! n = Some (fresh s);
  w_distinct : forall n m t u, fl_threads f !! n = Some t -> fl_threads f !! m = Some u -> thread_id t = thread_id u -> n = m;
  w_next : forall n, (fl_nextThread f <= n)%nat -> fl_threads f !! n = None }.

Lemma spawned_one f0 f l s :
  (forall id, epoch_of f0 id = 0) -> spawned f0 f l -> sv_ID s ∉ map sv_ID l ->
  spawned f0 (spawn (mkThread s (epoch_of f (sv_ID s)) 0 0 None PcTop) f) (l ++ [s]).
Proof.
  intros Hz [Ha Ht He Hd Hn] Hs.
  assert (epoch_of f (sv_ID s) = 0) as -> by (unfold epoch_of; rewrite (a_epoch _ _ Ha); apply Hz). fold (fresh s).
  pose proof (Hn _ (Nat.le_refl _)) as Hfree.
  assert (forall n t, fl_threads f !! n = Some t -> thread_id t <> sv_ID s) as Hold.
  { intros n t (s' & Hs' & ->)%Ht Heq. apply Hs. apply list_elem_of_In, in_map_iff. exists s'. split; [done|].
    by apply list_elem_of_In. }
  split; simpl.
  - by destruct Ha.
  - intros n t [[<- <-]|[_ Hx]]%lookup_insert_Some; [exists s; set_solver|].
    destruct (Ht n t Hx) as (s' & Hs' & ->). exists s'. set_solver.
  - intros s' [Hs'|Hs']%elem_of_app.
    + destruct (He s' Hs') as [n Hn']. exists n. rewrite lookup_insert_ne; [done|]. intros <-. congruence.
    + apply list_elem_of_singleton in Hs' as ->. exists (fl_nextThread f). apply lookup_insert_eq.
  - intros n m t u [[<- <-]|[_ Hx]]%lookup_insert_Some [[<- <-]|[_ Hy]]%lookup_insert_Some Hid; [done|..].
    + by destruct (Hold m u Hy).
    + by destruct (Hold n t Hx).
    + by apply (Hd n m t u).
  - intros n Hle. rewrite lookup_insert_ne by lia. apply Hn. lia.
Qed.

Lemma spawned_all f0 l : forall f done,
  (forall id, epoch_of f0 id = 0) -> spawned f0 f done -> NoDup (map sv_ID (done ++ l)) ->
  spawned f0 (foldl (fun f s => spawn (mkThread s (epoch_of f (sv_ID s)) 0 0 None PcTop) f) f l) (done ++ l).
Proof.
  induction l as [|s l IH]; intros f done Hz Hsp Hnd; [by rewrite app_nil_r|]. cbn [foldl].
  rewrite (assoc_L (++) done [s] l : done ++ s :: l = _). apply IH; [done| |by rewrite <- (assoc_L (++))].
  apply spawned_one; [done|done|]. rewrite map_app in Hnd. apply NoDup_app in Hnd as (_ & Hx & _).
  intros Hin. apply (Hx _ Hin). simpl. left.
Qed.

Lemma startWorkers_spawned f :
  Core f -> NoDup (map sv_ID (List.filter sv_Enabled config)) -> fl_started f = false ->
  spawned (f <| fl_started := true |>) (startWorkers f) (List.filter sv_Enabled config).
Proof.
  intros HC Hnd Hst. unfold startWorkers. rewrite Hst. rewrite (c_servers f HC).
  destruct (c_unstarted f HC Hst) as [Hempty Hz].
  apply (spawned_all (f <| fl_started := true |>) _ _ []); [intros id; by destruct (Hz id)| |done].
  split; simpl; [done| | | |]; rewrite Hempty; [by intros n t|by intros s ?%elem_of_nil|by intros n m t u|done].
Qed.

Lemma core_start f : Core f -> NoDup (map sv_ID (List.filter sv_Enabled config)) -> Core (startWorkers f).
Proof.
  intros HC Hnd. destruct (fl_started f) eqn:Hst; [unfold startWorkers; by rewrite Hst|].
  destruct (startWorkers_spawned f HC Hnd Hst) as [Ha Ht He Hd Hn]. destruct (c_unstarted f HC Hst) as [_ Hz].
  set (f' := startWorkers f) in *. destruct Ha. simpl in *. destruct HC.
  assert (forall s, s ∈ List.filter sv_Enabled config -> s ∈ config /\ sv_Enabled s = true) as Hel.
  { intros s Hs%list_elem_of_In. apply filter_In in Hs as [Hs%list_elem_of_In ?]. done. }
  assert (forall id, epoch_of f' id = 0 /\ generation_of f' id = 0 /\ base_of f' id = 0) as Hzero.
  { intros id. destruct (Hz id) as (? & ? & ? & _). unfold epoch_of, generation_of, base_of in *.
    by rewrite a_epoch0, a_generation0, a_base0. }
  assert (forall id, shown_generation f' id = shown_generation f id) as Hshown
    by (intros id; unfold shown_generation; by rewrite a_health0).
  split; try congruence; try done.
  - intros n t (s & Hs & ->)%Ht. destruct (Hzero (sv_ID s)) as (Hze & Hzg & Hzb), (Hel s Hs).
    split; unfold current, thread_id; simpl; rewrite ?Hze, ?Hzg, ?Hzb; try done; try lia.
    intros _. right. right. rewrite Hshown. apply Hz.
  - intros n m t u Hx Hy Hne Hid. destruct Hne. by apply (Hd n m t u).
  - intros id. destruct (Hzero id) as (_ & -> & ->). done.
  - intros s Hs. rewrite a_health0. by apply c_health0.
  - intros id r Hr. rewrite a_health0 in Hr. destruct (c_records0 id r Hr), (Hzero id) as (Hze & Hzg & Hzb), (Hz id) as (Hye & Hyg & Hyb & _).
    split; rewrite ?Hze, ?Hzg, ?Hzb; try done; congruence || (rewrite Hyb, Hye in *; done).
  - intros _ _ s Hs Hen. right. destruct (He s) as [n Hx]; [apply list_elem_of_In, filter_In; split; [by apply list_elem_of_In|done]|].
    exists n, (fresh s). split; [done|]. split; [done|]. unfold current. destruct (Hzero (thread_id (fresh s))) as (-> & _). done.
Qed.

(** ** Reconnecting *)

Record retired (id : string) (f f' : Fleet) : Prop := {
  e_all : fl_allServers f' = fl_allServers f; e_servers : fl_servers f' = fl_servers f;
  e_host : fl_hostInstanceID f' = fl_hostInstanceID f; e_threads : fl_threads f' = fl_threads f;
  e_next : fl_nextThread f' = fl_nextThread f;
  e_epoch : fl_workerEpoch f' = <[id := epoch_of f id + 1]> (fl_workerEpoch f);
  e_generation : fl_memberGeneration f' = <[id := generation_of f id + 1]> (fl_memberGeneration f);
  e_base : fl_base f' = <[id := generation_of f id + 1]> (fl_base f);
  e_health : fl_health f' = alter (fun r => mkRecord (re_generation r) false (re_observation r) (re_writer r)) id (fl_health f);
  e_started : fl_started f' = fl_started f; e_stopped : fl_stopped f' = fl_stopped f;
  e_subs : fl_subscribers f' = fl_subscribers f; e_healthSubs : fl_healthSubs f' = fl_healthSubs f;
  e_snapshot : fl_snapshot f' = fl_snapshot f; e_revision : fl_healthRevision f' = fl_healthRevision f }.

Lemma retire_retired id f : retired id f (retire id f).
Proof. unfold retire, wakeMemberLocked. simpl. destruct (fl_memberCancel f !! id); simpl; destruct (fl_memberWake f !! id); by split. Qed.

Lemma zero_of_insert m id v k : zero_of (<[id := v]> m) k = if bool_decide (k = id) then v else zero_of m k.
Proof.
  unfold zero_of. case_bool_decide as Hk; [subst; by rewrite lookup_insert_eq|by rewrite lookup_insert_ne by congruence].
Qed.

Section Retired.
Context (id : string) (f f' : Fleet) (Hr : retired id f f').

Lemma retired_epoch k : epoch_of f' k = if bool_decide (k = id) then epoch_of f id + 1 else epoch_of f k.
Proof. unfold epoch_of at 1. by rewrite (e_epoch _ _ _ Hr), zero_of_insert. Qed.

Lemma retired_generation k : generation_of f' k = if bool_decide (k = id) then generation_of f id + 1 else generation_of f k.
Proof. unfold generation_of at 1. by rewrite (e_generation _ _ _ Hr), zero_of_insert. Qed.

Lemma retired_base k : base_of f' k = if bool_decide (k = id) then generation_of f id + 1 else base_of f k.
Proof. unfold base_of at 1. by rewrite (e_base _ _ _ Hr), zero_of_insert. Qed.

Lemma retired_lookup k r' :
  fl_health f' !! k = Some r' ->
  exists r, fl_health f !! k = Some r /\ re_generation r' = re_generation r /\ re_observation r' = re_observation r
    /\ re_writer r' = re_writer r /\ (k <> id -> r' = r).
Proof.
  rewrite (e_health _ _ _ Hr). destruct (decide (k = id)) as [->|Hk].
  - rewrite lookup_alter_eq. intros (r & Hx & ->)%fmap_Some. by exists r.
  - rewrite lookup_alter_ne by congruence. intros Hx. by exists r'.
Qed.

Lemma retired_shown k : shown_generation f' k = shown_generation f k.
Proof.
  unfold shown_generation. rewrite (e_health _ _ _ Hr). destruct (decide (k = id)) as [->|Hk].
  - rewrite lookup_alter_eq. by destruct (fl_health f !! id).
  - by rewrite lookup_alter_ne by congruence.
Qed.

Lemma retired_flagged k : k <> id -> flagged f' k = flagged f k.
Proof. intros Hk. unfold flagged. by rewrite (e_health _ _ _ Hr), lookup_alter_ne by congruence. Qed.

(** The threads of the server are all retired, the others are not concerned. *)
Lemma retired_thread t : Core f -> thread_ok f t -> thread_ok f' t /\ (thread_id t = id -> th_epoch t < epoch_of f' id).
Proof.
  intros HC []. pose proof (retired_epoch (thread_id t)) as He. pose proof (retired_generation (thread_id t)) as Hg.
  pose proof (retired_base (thread_id t)) as Hb. pose proof (retired_shown (thread_id t)) as Hs.
  pose proof (c_base f HC (thread_id t)) as Hbase.
  destruct (bool_decide_reflect (thread_id t = id)) as [Hid|Hid].
  - assert (th_epoch t < epoch_of f' (thread_id t)) as Hlt by (rewrite Hid in *; lia).
    split; [|intros _; by rewrite <- Hid]. split; try done; unfold current; try lia.
    intros _. rewrite Hb. destruct (decide (th_epoch t = epoch_of f (thread_id t))) as [Hc|Hc].
    + rewrite (t_current0 Hc), Hid. lia.
    + pose proof (t_retired0 ltac:(lia)). rewrite Hid in *. lia.
  - split; [|done]. unfold current in *. split; unfold current; rewrite ?He, ?Hg, ?Hb, ?Hs, ?(e_stopped _ _ _ Hr); try done.
    by rewrite retired_flagged.
Qed.

End Retired.

Lemma core_reconnect f s now :
  Core f -> fl_started f = true -> s ∈ config -> sv_Enabled s = true ->
  let f1 := retire (sv_ID s) f in
  Core (spawn (mkThread s (epoch_of f1 (sv_ID s)) 0 (generation_of f1 (sv_ID s)) None (reconnecting now)) f1).
Proof.
  intros HC Hst Hs Hen f1. set (t0 := mkThread _ _ _ _ _ _).
  pose proof (retire_retired (sv_ID s) f : retired (sv_ID s) f f1) as Hr. clearbody f1.
  pose proof (c_next f HC _ (Nat.le_refl _)) as Hfree. rewrite <- (e_threads _ _ _ Hr), <- (e_next _ _ _ Hr) in Hfree.
  assert (forall n t, fl_threads f1 !! n = Some t -> thread_ok f1 t /\ (thread_id t = sv_ID s -> th_epoch t < epoch_of f1 (sv_ID s))) as Hold.
  { intros n t Ht. rewrite (e_threads _ _ _ Hr) in Ht. apply (retired_thread _ _ _ Hr _ HC). by apply (c_threads f HC n). }
  assert (thread_ok f1 t0) as Hnew.
  { split; [done|done|done| |done|done|intros _; right; by left|].
    { intros Hlt. change (epoch_of f1 (sv_ID s) < epoch_of f1 (sv_ID s)) in Hlt. lia. }
    split; [|done]. apply well_formed_observed; [by left|apply FormatRFC3339Nano_nonempty]. }
  destruct HC. split; simpl; rewrite ?(e_all _ _ _ Hr), ?(e_servers _ _ _ Hr), ?(e_host _ _ _ Hr); try done.
  - intros n t [[<- <-]|[_ Ht]]%lookup_insert_Some; [by destruct Hnew|]. by destruct (Hold n t Ht) as [[] _].
  - intros n m t u [[<- <-]|[Hn Ht]]%lookup_insert_Some [[<- <-]|[Hm Hu]]%lookup_insert_Some Hne Hid; [done|..].
    + destruct (Hold m u Hu) as [_ Hlt]. specialize (Hlt ltac:(by rewrite <- Hid)). simpl. lia.
    + destruct (Hold n t Ht) as [_ Hlt]. specialize (Hlt Hid). simpl. lia.
    + rewrite (e_threads _ _ _ Hr) in Ht, Hu. by apply (c_distinct0 n m t u).
  - intros n Hn. rewrite lookup_insert_ne by lia. rewrite (e_threads _ _ _ Hr). apply c_next0. rewrite <- (e_next _ _ _ Hr). lia.
  - intros k. change (base_of f1 k <= generation_of f1 k). rewrite (retired_base _ _ _ Hr), (retired_generation _ _ _ Hr).
    case_bool_decide; [lia|apply c_base0].
  - intros s' Hs'. rewrite (e_health _ _ _ Hr). apply lookup_alter_is_Some. by apply c_health0.
  - intros k r' Hr'. destruct (retired_lookup _ _ _ Hr k r' Hr') as (r & Hx & Eg & Eo & Ew & _). destruct (c_records0 k r Hx).
    pose proof (retired_epoch _ _ _ Hr k) as He. pose proof (retired_generation _ _ _ Hr k) as Hg. pose proof (retired_base _ _ _ Hr k) as Hb.
    split; rewrite ?Eg, ?Eo, ?Ew; [change (re_generation r <= generation_of f1 k); rewrite Hg; case_bool_decide; subst; lia|done|].
    change (base_of f1 k <= re_generation r -> re_writer r = epoch_of f1 k). rewrite He, Hb. case_bool_decide; subst; [lia|done].
  - rewrite (e_started _ _ _ Hr). congruence.
  - rewrite (e_stopped _ _ _ Hr). intros _ Hstop s' Hs' Hen'. destruct (decide (sv_ID s' = sv_ID s)) as [Hid|Hid].
    + right. exists (fl_nextThread f1), t0. simpl. rewrite lookup_insert_eq. split; [done|]. by split.
    + destruct (c_followed0 Hst Hstop s' Hs' Hen') as [Hf|(n & t & Ht & Hi & Hc)].
      * left. change (flagged f1 (sv_ID s') = true). by rewrite (retired_flagged _ _ _ Hr).
      * right. rewrite <- (e_threads _ _ _ Hr) in Ht. exists n, t. simpl. rewrite lookup_insert_ne by congruence.
        split; [done|]. split; [done|]. change (th_epoch t = epoch_of f1 (thread_id t)).
        rewrite (retired_epoch _ _ _ Hr), bool_decide_false by congruence. exact Hc.
Qed.

End Facts.
