(* ===== verification/FleetRun.v ===== *)
(** * clients/web-host: runs of the fleet runtime

    The books of FleetFacts.v hold in every reachable state, what waits in a subscriber's
    channel is the current snapshot, and the claims that follow. *)

From Stdlib Require Import String.
From S2P Require Import Prelude GoStd GoStrings GoTime ClientConfig FleetHealth FleetRuntime FleetFacts.

Section Run.
Context `{UnicodeTables} `{SessionCodec} (config : list Server) (random : string).

Abbreviation Core := (Core config random).

(** ** The first state *)

Lemma new_health now l : forall (m : gmap string healthRecord) id r,
  (forall r, m !! id = Some r -> re_generation r = 0 /\ re_writer r = 0 /\ well_formed (re_observation r)) ->
  foldl (fun m s => <[sv_ID s := mkRecord 0 false (if sv_Enabled s then observed "checking" (FormatRFC3339Nano now)
                                                     else observed "disabled" "") 0]> m) m l !! id = Some r ->
  re_generation r = 0 /\ re_writer r = 0 /\ well_formed (re_observation r).
Proof.
  induction l as [|s l IH]; intros m id r Hm Hl; simpl in Hl; [by apply Hm|]. apply IH in Hl; [done|].
  intros r0 [[<- <-]|[_ Hr]]%lookup_insert_Some; [|by apply Hm]. split; [done|]. split; [done|]. simpl.
  destruct (sv_Enabled s); [|apply well_formed_disabled].
  apply well_formed_observed; [by left|apply FormatRFC3339Nano_nonempty].
Qed.

Lemma new_health_all now l : forall (m : gmap string healthRecord) id,
  id ∈ map sv_ID l \/ is_Some (m !! id) ->
  is_Some (foldl (fun m s => <[sv_ID s := mkRecord 0 false (if sv_Enabled s then observed "checking" (FormatRFC3339Nano now)
                                                              else observed "disabled" "") 0]> m) m l !! id).
Proof.
  induction l as [|s l IH]; intros m id Hid; simpl; [by destruct Hid as [?%elem_of_nil|]|]. apply IH.
  destruct (decide (id = sv_ID s)) as [->|Hne]; [right; rewrite lookup_insert_eq; eauto|].
  destruct Hid as [Hid|Hid]; [left; set_solver|right; by rewrite lookup_insert_ne by congruence].
Qed.

Lemma core_new now : Core (newFleetRuntime random now config).
Proof.
  assert (forall id r, fl_health (newFleetRuntime random now config) !! id = Some r ->
    re_generation r = 0 /\ re_writer r = 0 /\ well_formed (re_observation r)) as Hrec.
  { intros id r. apply new_health. by intros r0 ?%lookup_empty_Some. }
  split; simpl; try done.
  - intros s Hs. apply new_health_all. left. apply list_elem_of_In, in_map, list_elem_of_In, Hs.
  - intros id r Hr. destruct (Hrec id r Hr) as (Hg & Hw & Hwf). by split; rewrite ?Hg, ?Hw.
  - intros _. split; [done|]. intros id. split; [done|]. split; [done|]. split; [done|].
    unfold shown_generation. destruct (fl_health _ !! id) as [r|] eqn:Hr; [|done].
    destruct (Hrec id r Hr) as [-> _]. done.
Qed.

(** ** Every input *)

Lemma core_input i f f' :
  NoDup (map sv_ID (List.filter sv_Enabled config)) -> Core f -> input i f = Some f' -> Core f'.
Proof.
  intros Hnd HC. destruct i as [sub|sub|sub|sub|sub|sub| |now id| | | |n now net]; simpl.
  - intros [= <-]. apply (same_core config random (startWorkers f)); [by split|]. exact (core_start config random f HC Hnd).
  - intros [= <-]. by apply (same_core config random f).
  - intros [= <-]. by apply (same_core config random f).
  - intros [= <-]. apply (same_core config random (startWorkers f)); [by split|]. exact (core_start config random f HC Hnd).
  - intros [= <-]. by apply (same_core config random f).
  - intros [= <-]. by apply (same_core config random f).
  - intros [= <-]. exact (core_start config random f HC Hnd).
  - unfold reconnect. destruct (fl_stopped f); [by intros [= <-]|].
    destruct (List.find _ (fl_allServers f)) as [s|] eqn:Hfind; [|by intros [= <-]].
    apply find_some in Hfind as [Hin Hid%bool_decide_eq_true]. rewrite (c_all _ _ f HC) in Hin. apply list_elem_of_In in Hin.
    destruct (sv_Enabled s) eqn:Hen; simpl; intros [= <-]; [|done]. subst id.
    apply (core_reconnect config random (startWorkers f) s now); [exact (core_start config random f HC Hnd)| |done|done].
    unfold startWorkers. destruct (fl_started f) eqn:Hst; [done|].
    assert (forall l g, fl_started g = true ->
      fl_started (foldl (fun f s => spawn (mkThread s (epoch_of f (sv_ID s)) 0 0 None PcTop) f) g l) = true) as Hfold.
    { induction l as [|x l IH]; intros g Hg; simpl; [done|]. by apply IH. }
    by apply Hfold.
  - intros [= <-]. split; try apply HC.
    + intros n t Ht. destruct (c_threads _ _ f HC n t Ht). split; try done; by left.
    + intros id r Hr. by destruct (c_records _ _ f HC id r Hr).
    + done.
  - intros [= <-]. apply (same_core config random f); [by split|done].
  - intros [= <-]. apply (same_core config random f); [by split|done].
  - intros Hin. by apply (core_step config random n now net f f').
Qed.

Lemma core_reachable f :
  NoDup (map sv_ID (List.filter sv_Enabled config)) -> reachable config random f -> Core f.
Proof. intros Hnd. induction 1 as [now|f i f' _ IH Hin]; [apply core_new|]. by eapply core_input. Qed.

(** ** Channels *)

(** What waits is the current snapshot. *)
Definition waiting {A} (x : A) (m : gmap nat (list A)) : Prop := forall k ch, m !! k = Some ch -> ch = [] \/ ch = [x].

Definition Mail (f : Fleet) : Prop :=
  waiting (fl_snapshot f) (fl_subscribers f) /\ waiting (healthSnapshotLocked f) (fl_healthSubs f).

Lemma deliver_waiting {A} (x y : A) m : waiting x m -> deliver y m = Some ((fun _ => [y]) <$> m).
Proof.
  intros Hm. assert (forall k ch, m !! k = Some ch -> conflate y ch = Some [y]) as Hc
    by (intros k ch [->| ->]%Hm; done).
  unfold deliver. rewrite bool_decide_true by (intros k ch Hk; rewrite (Hc k ch Hk); eauto). f_equal.
  apply map_eq. intros k. rewrite lookup_omap, lookup_fmap. destruct (m !! k) as [ch|] eqn:Hk; simpl; [by apply (Hc k)|done].
Qed.

Lemma delivered_waiting {A} (x : A) (m : gmap nat (list A)) : waiting x ((fun _ => [x]) <$> m).
Proof. intros k ch. rewrite lookup_fmap. intros (c & _ & ->)%fmap_Some. by right. Qed.

Record quiet (f f' : Fleet) : Prop := {
  q_snapshot : fl_snapshot f' = fl_snapshot f; q_subs : fl_subscribers f' = fl_subscribers f;
  q_healthSubs : fl_healthSubs f' = fl_healthSubs f; q_health : healthSnapshotLocked f' = healthSnapshotLocked f }.

Lemma quiet_mail f f' : quiet f f' -> Mail f -> Mail f'.
Proof. intros [Hs Hb Hh Hl]. unfold Mail. by rewrite Hs, Hb, Hh, Hl. Qed.

Lemma quiet_trans f g h : quiet f g -> quiet g h -> quiet f h.
Proof. intros [] []. split; congruence. Qed.

Lemma publish_mail id g e o terminal f :
  Mail f -> exists f', publishHealth id g e o terminal f = Some f' /\ Mail f'.
Proof.
  intros Hm. unfold publishHealth. destruct (fl_health f !! id) as [r|]; [|by exists f].
  destruct (g <? re_generation r); [by exists f|]. destruct Hm as [Hm1 Hm2].
  match goal with |- context [deliver (healthSnapshotLocked ?g) _] => set (f1 := g) end.
  assert (fl_healthSubs f1 = fl_healthSubs f) as -> by done.
  rewrite (deliver_waiting _ (healthSnapshotLocked f1) _ Hm2). eexists. split; [reflexivity|].
  split; [exact Hm1|]. apply (delivered_waiting (healthSnapshotLocked f1)).
Qed.

Lemma replace_mail s g state reason sessions f :
  Mail f -> exists f', replace s g state reason sessions f = Some f' /\ Mail f'.
Proof.
  intros Hm. unfold replace. destruct (replace_member _ _ _ _ _ _) as [members|]; [|by exists f].
  destruct Hm as [Hm1 Hm2]. rewrite (deliver_waiting _ _ _ Hm1). eexists. split; [reflexivity|].
  split; [apply delivered_waiting|exact Hm2].
Qed.

Lemma with_thread_quiet n ot f : quiet f (with_thread n ot f).
Proof. by destruct ot. Qed.

Lemma begin_quiet t f : quiet f (begin_attempt t f).1.
Proof. unfold begin_attempt. destruct (negb _); [done|]. by destruct (match fl_health f !! _ with Some _ => _ | None => _ end). Qed.

Lemma wake_quiet id f : quiet f (memberWakeChannel id f).2.
Proof. unfold memberWakeChannel. by destruct (fl_memberWake f !! id). Qed.

(** A step that goes on keeps the channels, and with an answer that suits it a thread can
    always go on. *)
Lemma step_mail now net t f f' ot : Mail f -> step_thread now net t f = Some (f', ot) -> Mail f'.
Proof.
  intros Hm Hs. unfold step_thread in Hs. destruct (th_pc t).
  - destruct (fl_stopped f); by injection Hs as <- <-.
  - pose proof (begin_quiet t f) as Hq. destruct (begin_attempt t f) as [f2 [t2|]]; injection Hs as <- <-; by apply (quiet_mail f).
  - destruct armed; [|by injection Hs as <- <-].
    destruct (publish_mail (sv_ID (th_server t)) (th_generation t) (th_epoch t) observation terminal f Hm) as (f2 & Hp & Hm2).
    rewrite Hp in Hs. by injection Hs as <- <-.
  - destruct (replace_mail (th_server t) (th_generation t) state reason sessions f Hm) as (f2 & Hp & Hm2).
    rewrite Hp in Hs. by injection Hs as <- <-.
  - destruct net; try done. by repeat case_match; injection Hs as <- <-.
  - destruct net; try done. by repeat case_match; injection Hs as <- <-.
  - destruct net as [| |[]|]; try done; by injection Hs as <- <-.
  - by repeat case_match; injection Hs as <- <-.
  - destruct net; try done. by injection Hs as <- <-.
  - destruct (th_ctx t); simpl in Hs; destruct (fl_stopped f); by injection Hs as <- <-.
  - by injection Hs as <- <-.
  - destruct (fl_stopped f); [by injection Hs as <- <-|]. pose proof (wake_quiet (sv_ID (th_server t)) f) as Hq.
    destruct (memberWakeChannel _ f) as [ch f2]. injection Hs as <- <-. by apply (quiet_mail f).
  - by injection Hs as <- <-.
  - by injection Hs as <- <-.
Qed.

Lemma step_enabled f t : Mail f -> exists net, forall now, is_Some (step_thread now net t f).
Proof.
  intros Hm. unfold step_thread. destruct (th_pc t) as [| |[|] o terminal next| | | | | | | | | | |];
    try (exists NoAnswer; intros now; repeat case_match; eauto; done).
  - exists NoAnswer. intros now.
    destruct (publish_mail (sv_ID (th_server t)) (th_generation t) (th_epoch t) o terminal f Hm) as (f2 & -> & _). eauto.
  - exists NoAnswer. intros now. destruct (replace_mail (th_server t) (th_generation t) state reason sessions f Hm) as (f2 & -> & _). eauto.
  - exists (Responded (Failed "")). intros now. eauto.
  - exists (Responded (Failed "")). intros now. eauto.
  - exists (Dialed None). intros now. eauto.
  - exists (Received (ReadData None)). intros now. eauto.
Qed.

Lemma spawn_quiet t f : quiet f (spawn t f).
Proof. done. Qed.

Lemma spawn_shown t f k : shown_generation (spawn t f) k = shown_generation f k.
Proof. done. Qed.

Lemma start_quiet f : quiet f (startWorkers f) /\ fl_health (startWorkers f) = fl_health f.
Proof.
  unfold startWorkers. destruct (fl_started f); [done|].
  assert (forall l g, quiet f g /\ fl_health g = fl_health f ->
    let h := foldl (fun f s => spawn (mkThread s (epoch_of f (sv_ID s)) 0 0 None PcTop) f) g l in
    quiet f h /\ fl_health h = fl_health f) as Hfold.
  { induction l as [|s l IH]; intros g [Hq Hg]; [done|]. apply IH. split; [|done]. by eapply quiet_trans. }
  by apply Hfold.
Qed.

Lemma retire_quiet id f : quiet f (retire id f).
Proof.
  pose proof (retire_retired id f) as Hr. destruct (Hr). split; try done. unfold healthSnapshotLocked.
  rewrite e_all, e_host, e_revision. f_equal. apply map_ext. intros s. f_equal.
  destruct (fl_health (retire id f) !! sv_ID s) as [r'|] eqn:E'.
  - by destruct (retired_lookup _ _ _ Hr _ _ E') as (r & -> & _ & -> & _).
  - rewrite e_health in E'. by apply lookup_alter_None in E' as ->.
Qed.

Lemma waiting_alter {A} (x : A) m k : waiting x m -> waiting x (alter tail k m).
Proof.
  intros Hm j ch. destruct (decide (k = j)) as [->|].
  - rewrite lookup_alter_eq. intros (c & Hc & ->)%fmap_Some. destruct (Hm j c Hc) as [->| ->]; by left.
  - rewrite lookup_alter_ne by done. apply Hm.
Qed.

Lemma waiting_insert {A} (x : A) m k : waiting x m -> waiting x (<[k := [x]]> m).
Proof. intros Hm j ch [[_ <-]|[_ Hj]]%lookup_insert_Some; [by right|by apply (Hm j)]. Qed.

Lemma waiting_empty {A} (x : A) : waiting x ∅.
Proof. by intros k ch ?%lookup_empty_Some. Qed.

Lemma waiting_delete {A} (x : A) m k : waiting x m -> waiting x (delete k m).
Proof. intros Hm j ch [_ Hj]%lookup_delete_Some. by apply (Hm j). Qed.

Lemma mail_input i f f' : Mail f -> input i f = Some f' -> Mail f'.
Proof.
  intros Hm. destruct (Hm) as [Hm1 Hm2]. pose proof (quiet_mail _ _ (proj1 (start_quiet f)) Hm) as [Hs1 Hs2].
  destruct i as [sub|sub|sub|sub|sub|sub| |now id| | | |n now net].
  - intros [= <-]. split; [by apply waiting_insert|exact Hs2].
  - intros [= <-]. split; [by apply waiting_delete|exact Hm2].
  - intros [= <-]. split; [by apply waiting_alter|exact Hm2].
  - intros [= <-]. split; [exact Hs1|by apply waiting_insert].
  - intros [= <-]. split; [exact Hm1|by apply waiting_delete].
  - intros [= <-]. split; [exact Hm1|by apply waiting_alter].
  - by intros [= <-].
  - simpl. unfold reconnect. destruct (fl_stopped f); [by intros [= <-]|].
    destruct (List.find _ (fl_allServers f)) as [s|]; [|by intros [= <-]].
    destruct (sv_Enabled s); simpl; intros [= <-]; [|done].
    apply (quiet_mail _ _ (spawn_quiet _ _)). exact (quiet_mail _ _ (retire_quiet id (startWorkers f)) (conj Hs1 Hs2)).
  - by intros [= <-].
  - by intros [= <-].
  - intros [= <-]. split; apply waiting_empty.
  - rewrite with_thread_input. intros (t & Ht & ([f1 ot] & Hs & Hf)%bind_Some)%bind_Some. injection Hf as <-.
    apply (quiet_mail f1); [apply with_thread_quiet|]. by apply step_mail in Hs.
Qed.

Lemma mail_reachable f : reachable config random f -> Mail f.
Proof.
  induction 1 as [now|f i f' _ IH Hin]; [|by eapply mail_input]. split; apply waiting_empty.
Qed.

(** ** Shown generations only grow *)

Lemma step_shown now net t f f' ot k :
  step_thread now net t f = Some (f', ot) -> shown_generation f k <= shown_generation f' k.
Proof.
  intros Hs. assert (fl_health f' = fl_health f -> shown_generation f k <= shown_generation f' k) as Heq
    by (unfold shown_generation; by intros ->).
  unfold step_thread in Hs. destruct (th_pc t).
  - apply Heq. destruct (fl_stopped f); by injection Hs as <- <-.
  - apply Heq. unfold begin_attempt in Hs. destruct (negb _); [by injection Hs as <- <-|].
    destruct (match fl_health f !! _ with Some _ => _ | None => _ end); by injection Hs as <- <-.
  - destruct armed; [|apply Heq; by injection Hs as <- <-].
    apply bind_Some in Hs as (f2 & Hp & Hf). injection Hf as <- <-.
    apply publishHealth_spec in Hp as [[-> _]|(r & Hr & Hle & Hu)]; [done|]. by apply (updated_shown _ r _ _ _ Hr Hu).
  - apply Heq. apply bind_Some in Hs as (f2 & Hp & Hf). injection Hf as <- <-. by apply replace_same in Hp as [].
  - apply Heq. destruct net; try done. by repeat case_match; injection Hs as <- <-.
  - apply Heq. destruct net; try done. by repeat case_match; injection Hs as <- <-.
  - apply Heq. destruct net as [| |[]|]; try done; by injection Hs as <- <-.
  - apply Heq. by repeat case_match; injection Hs as <- <-.
  - apply Heq. destruct net; try done. by injection Hs as <- <-.
  - apply Heq. destruct (th_ctx t); simpl in Hs; destruct (fl_stopped f); by injection Hs as <- <-.
  - apply Heq. by injection Hs as <- <-.
  - apply Heq. destruct (fl_stopped f); [by injection Hs as <- <-|]. unfold memberWakeChannel in Hs.
    destruct (fl_memberWake f !! _); by injection Hs as <- <-.
  - apply Heq. by injection Hs as <- <-.
  - apply Heq. by injection Hs as <- <-.
Qed.

Lemma input_shown i f f' k : input i f = Some f' -> shown_generation f k <= shown_generation f' k.
Proof.
  assert (shown_generation (startWorkers f) k = shown_generation f k) as Hstart
    by (unfold shown_generation; by destruct (start_quiet f) as [_ ->]).
  destruct i as [sub|sub|sub|sub|sub|sub| |now id| | | |n now net]; try (by intros [= <-]).
  - intros [= <-]. unfold shown_generation in *. simpl. lia.
  - intros [= <-]. unfold shown_generation in *. simpl. lia.
  - intros [= <-]. lia.
  - simpl. unfold reconnect. destruct (fl_stopped f); [by intros [= <-]|].
    destruct (List.find _ (fl_allServers f)) as [s|]; [|by intros [= <-]].
    destruct (sv_Enabled s); simpl; intros [= <-]; [|done].
    rewrite spawn_shown, (retired_shown _ _ _ (retire_retired id (startWorkers f))). lia.
  - rewrite with_thread_input. intros (t & Ht & ([f1 ot] & Hs & Hf)%bind_Some)%bind_Some. injection Hf as <-.
    apply (step_shown _ _ _ _ _ _ k) in Hs. unfold shown_generation in *. by destruct ot.
Qed.

(** ** The claims *)

(** C10: every enabled server is followed by one worker at a time, and what is shown of it is
    that worker's, when the enabled entries have distinct identifiers (entries without a
    configuration error do, [enabled_ids_distinct]; for others see [invalid_servers_followed]).
    In every reachable state, whatever the servers answer and however workers and reconnects
    interleave: workers of a server differ in their epochs, so at most one is
    current; once the workers are started and until the program stops, each enabled server has
    a current worker, or has been given up as incompatible; an observation that is shown while
    the current worker is past its announcement was written by it; a retired worker can no
    longer replace what is shown once the reconnect that retired it has announced its
    generation (before that it can, see [reconnect_race_stalls]); and the generation shown
    never goes back. *)
Theorem fleet_followed f :
  NoDup (map sv_ID (List.filter sv_Enabled config)) -> reachable config random f ->
  (forall n m t u, fl_threads f !! n = Some t -> fl_threads f !! m = Some u -> n <> m ->
     thread_id t = thread_id u -> th_epoch t <> th_epoch u)
  /\ (fl_started f = true -> fl_stopped f = false -> forall s, s ∈ config -> sv_Enabled s = true -> followed f s)
  /\ (forall n t r, fl_threads f !! n = Some t -> current f t -> fl_stopped f = false -> announcing (th_pc t) = false ->
        fl_health f !! thread_id t = Some r -> re_writer r = th_epoch t)
  /\ (forall n t o terminal, fl_threads f !! n = Some t -> th_epoch t < epoch_of f (thread_id t) ->
        base_of f (thread_id t) <= shown_generation f (thread_id t) ->
        publishHealth (thread_id t) (th_generation t) (th_epoch t) o terminal f = Some f)
  /\ (forall i f' id, input i f = Some f' -> shown_generation f id <= shown_generation f' id).
Proof.
  intros Hnd Hreach. pose proof (core_reachable f Hnd Hreach) as HC.
  split; [apply HC|]. split; [apply HC|]. split; [|split; [|intros i f' id; apply input_shown]].
  - intros n t r Ht Hcur Hstop Hann Hr. pose proof (c_threads _ _ f HC n t Ht) as Hok.
    destruct (t_announced _ _ _ Hok Hcur) as [?|[?|Hb]]; [congruence..|]. unfold shown_generation in Hb. rewrite Hr in Hb.
    rewrite Hcur. by apply (r_writer _ _ _ (c_records _ _ f HC _ r Hr)).
  - intros n t o terminal Ht Hlt Hb. pose proof (t_retired _ _ _ (c_threads _ _ f HC n t Ht) Hlt) as Hg.
    unfold publishHealth. unfold shown_generation in Hb. destruct (fl_health f !! thread_id t) as [r|]; [|done].
    by destruct (Z.ltb_spec (th_generation t) (re_generation r)); [|lia].
Qed.

Lemma snapshot_decodes f :
  Core f -> random <> "" ->
  DecodeFleetHealthSnapshotV1 (healthSnapshotLocked f) (marshal_snapshot (healthSnapshotLocked f)) = true.
Proof.
  intros HC Hr. unfold DecodeFleetHealthSnapshotV1, marshal_snapshot, healthSnapshotLocked. cbn [hv_SchemaVersion hv_HostInstanceID hv_Servers].
  rewrite (c_host _ _ f HC), (bool_decide_false _ Hr), bool_decide_true by apply length_map. simpl.
  induction (fl_allServers f) as [|s l IH]; [done|]. simpl. rewrite IH, andb_true_r.
  destruct (fl_health f !! sv_ID s) as [r|] eqn:Hs; [|apply well_formed_disabled].
  apply (r_observation _ _ _ (c_records _ _ f HC _ r Hs)).
Qed.


End Run.
