(* ===== verification/FleetDemo.v ===== *)
(** * clients/web-host: classification, and the fleet at work

    What the classification of errors can and cannot say; the witnesses of the theorems on
    the client configuration and the fleet; and concrete runs that go wrong. *)

From Stdlib Require Import String.
From S2P Require Import Prelude GoStd GoStrings GoTime ClientConfig FleetHealth FleetRuntime FleetFacts FleetRun.

(** ** Substrings *)

Lemma HasPrefix_app s p q : HasPrefix s (p +:+ q) = true -> HasPrefix s p = true.
Proof.
  unfold HasPrefix. revert s. induction p as [|c p IH]; intros s Hs; [by destruct s|].
  rewrite str_app_cons in Hs. destruct s as [|c' s]; [done|]. cbn [String.prefix] in *.
  destruct (ascii_dec c c'); [by apply IH|done].
Qed.

Lemma Contains_tail c s sub : Contains s sub = true -> Contains (String c s) sub = true.
Proof. intros Hs. cbn [Contains]. by rewrite Hs, orb_true_r. Qed.

Lemma HasPrefix_Contains s p q : HasPrefix s (p +:+ q) = true -> Contains s q = true.
Proof.
  revert s. induction p as [|c p IH]; intros s Hs; [rewrite str_app_nil in Hs; destruct s; cbn [Contains]; by rewrite Hs|].
  rewrite str_app_cons in Hs. destruct s as [|c' s]; [done|]. unfold HasPrefix in Hs. cbn [String.prefix] in Hs.
  destruct (ascii_dec c c'); [|done]. by apply Contains_tail, IH.
Qed.

Lemma Contains_middle s p q r : Contains s (p +:+ q +:+ r) = true -> Contains s q = true.
Proof.
  induction s as [|c s IH]; cbn [Contains]; rewrite ?orb_false_r; intros Hs.
  - apply HasPrefix_Contains in Hs. cbn [Contains] in Hs. rewrite orb_false_r in *. by apply HasPrefix_app in Hs.
  - apply orb_true_iff in Hs as [Hs|Hs]; [|by apply Contains_tail, IH].
    rewrite <- str_app_assoc in Hs. apply HasPrefix_app, HasPrefix_Contains in Hs. exact Hs.
Qed.

Lemma Contains_char s sub c :
  Contains s sub = true -> c ∈ list_ascii_of_string sub -> c ∈ list_ascii_of_string s.
Proof.
  assert (forall s sub, HasPrefix s sub = true -> c ∈ list_ascii_of_string sub -> c ∈ list_ascii_of_string s) as Hp.
  { intros s0 sub0. revert s0. induction sub0 as [|x sub0 IH]; intros s0 Hs Hc; [by apply elem_of_nil in Hc|].
    destruct s0 as [|y s0]; [done|]. unfold HasPrefix in Hs. cbn [String.prefix] in Hs.
    destruct (ascii_dec x y) as [->|]; [|done]. simpl in *. apply elem_of_cons in Hc as [->|Hc]; [left|right; by apply IH]. }
  induction s as [|x s IH]; cbn [Contains]; rewrite ?orb_false_r; intros Hs Hc; [by eapply Hp|].
  apply orb_true_iff in Hs as [Hs|Hs]; [by eapply Hp|]. simpl. right. by apply IH.
Qed.

(** ** Classification *)

Section Classification.
Context `{UnicodeTables}.

(** The reason empty_ticket is never given: the text of that error has the word websocket,
    which is looked for first. *)
Lemma empty_ticket_never message : (classifyHealthError message).1 <> "empty_ticket".
Proof.
  unfold classifyHealthError. repeat match goal with |- context [if ?b then _ else _] => destruct b eqn:?; simpl; try done end.
  match goal with Hx : Contains _ "empty websocket ticket" = true |- _ =>
    apply (Contains_middle _ "empty " "websocket" " ticket") in Hx end.
  congruence.
Qed.

(** What is shown as a detail is nothing or has the closed form, whatever a server says. *)
Lemma closed_detail message :
  (classifyHealthError message).2 = "" \/ closedProtocolMismatchDetail (classifyHealthError message).2 = true.
Proof.
  unfold classifyHealthError.
  repeat match goal with |- context [if ?b then _ else _] => destruct b eqn:?; simpl; try (by left) end; right; [done|].
  vm_compute. reflexivity.
Qed.

(** The letters of a mismatch with a token. *)
Definition mismatch_letters : list ascii :=
  list_ascii_of_string "incompatible protocol: client protocol-3, server protocol-0123456789".

Lemma mismatch_lower digits :
  forallb is_digit (list_ascii_of_string digits) = true ->
  let message := "incompatible protocol: client protocol-3, server protocol-" +:+ digits in
  ToLower message = message /\ Forall (fun c => c ∈ mismatch_letters) (list_ascii_of_string message).
Proof.
  intros Hd message.
  assert (Forall (fun c => is_digit c = true) (list_ascii_of_string digits)) as Hall
    by (apply Forall_forall; intros c Hc; rewrite forallb_forall in Hd; by apply Hd, list_elem_of_In).
  assert (Forall (fun c => (N_of_ascii c <? 128)%N = true /\ lower_byte c = c /\ c ∈ mismatch_letters) (list_ascii_of_string message)) as Hm.
  { unfold message. rewrite ascii_app. apply Forall_app. split.
    - apply (bool_decide_unpack _). vm_compute. exact I.
    - eapply Forall_impl; [exact Hall|]. intros c Hc. unfold is_digit in Hc.
      destruct c as [[] [] [] [] [] [] [] []]; try discriminate Hc; (split; [done|]; split; [done|]);
        apply (bool_decide_unpack _); vm_compute; exact I. }
  split; [|eapply Forall_impl; [exact Hm|]; by intros c (_ & _ & ?)]. unfold ToLower.
  assert (is_ascii message = true) as ->.
  { unfold is_ascii. apply forallb_forall. intros c Hc%list_elem_of_In. rewrite Forall_forall in Hm. by apply Hm. }
  rewrite <- (string_of_list_ascii_of_string message) at 2. f_equal.
  clear Hd Hall. induction Hm as [|c l (_ & Hc & _) Hl IH]; [done|]. rewrite fmap_cons, Hc. by rewrite IH.
Qed.

Lemma TrimPrefix_app p s : HasPrefix s p = true -> s = p +:+ TrimPrefix s p.
Proof.
  unfold TrimPrefix. intros Hp. rewrite Hp. revert s Hp. unfold HasPrefix.
  induction p as [|c p IH]; intros s Hp; [by destruct s|]. destruct s as [|c' s]; [done|]. cbn [String.prefix] in Hp.
  destruct (ascii_dec c c') as [->|]; [|done]. rewrite str_app_cons. f_equal. by apply IH.
Qed.

(** A server with another protocol version is classified as such, with the closed detail. *)
Lemma mismatch_classified version :
  classifyHealthError (protocolMismatchDetail version) = ("protocol_mismatch", protocolMismatchDetail version).
Proof.
  unfold protocolMismatchDetail, sanitizeProtocolVersionToken.
  destruct (bool_decide (version = "")); [vm_compute; reflexivity|].
  destruct (safeProtocolVersionToken version) eqn:Ht; [|vm_compute; reflexivity].
  pose proof Ht as Htoken. apply andb_true_iff in Htoken as [Hpre Hdig]. apply andb_true_iff in Hdig as [_ Hdig].
  assert ("incompatible protocol: client " +:+ protocolVersion +:+ ", server " +:+ version
    = "incompatible protocol: client protocol-3, server protocol-" +:+ TrimPrefix version "protocol-") as Heq.
  { rewrite (TrimPrefix_app "protocol-" version Hpre) at 1. by rewrite <- !str_app_assoc. }
  destruct (mismatch_lower _ Hdig) as [Hlow Hletters]. rewrite <- Heq in Hlow, Hletters.
  set (message := _ +:+ protocolVersion +:+ _) in *.
  assert (forall c sub, c ∈ list_ascii_of_string sub -> c ∉ mismatch_letters -> Contains message sub = false) as Habsent.
  { intros c sub Hc Hn. destruct (Contains message sub) eqn:E; [|done]. apply (Contains_char _ _ c) in E; [|done].
    rewrite Forall_forall in Hletters. by apply Hletters in E. }
  unfold classifyHealthError. rewrite Hlow.
  rewrite (Habsent (ascii_of_nat 117) "timeout"), (Habsent (ascii_of_nat 100) "deadline");
    [|apply (bool_decide_unpack _); vm_compute; exact I..]. simpl.
  assert (closedProtocolMismatchDetail message = true) as Hclosed.
  { unfold closedProtocolMismatchDetail.
    assert (HasPrefix message mismatch_prefix = true) as -> by reflexivity.
    assert (TrimPrefix message mismatch_prefix = "3, server " +:+ version) as -> by reflexivity.
    assert (skip_digits ("3, server " +:+ version) = ", server " +:+ version) as -> by reflexivity.
    assert (HasPrefix (", server " +:+ version) ", server " = true) as -> by (by destruct version).
    assert (TrimPrefix (", server " +:+ version) ", server " = version) as -> by (by destruct version).
    rewrite bool_decide_false by discriminate. by rewrite Ht. }
  by rewrite Hclosed.
Qed.

End Classification.

(** ** The fleet at work *)

Module FleetDemo.

#[local] Instance tables : UnicodeTables := fun s => s.
#[local] Instance sessions : SessionCodec := fun raw => Some raw.

(** An entry of the file is its URL, with the name of the host. *)
#[local] Instance codec : ConfigCodec := {|
  decode_file data := inr (ServersSchemaVersion, Some (Fields data));
  decode_entry raw := inr (mkDocument raw true false raw (mkAuth "bearer" "secret"));
  decode_name raw := raw;
  strconv_Quote s := s |}.

#[local] Instance urls : URLs := {|
  url_Parse raw := inr (mkURL "http" false raw "" "" "" "");
  url_Hostname u := u_Host u; url_Port u := ""; url_EscapedPath u := u_Path u;
  url_String u := u_Scheme u +:+ "://" +:+ u_Host u +:+ u_Path u |}.

#[local] Instance order : GoMapRange := canonical_range.

(** Two servers, and one that is there twice, in different spellings. *)
Definition file : string := "alpha beta gamma Gamma".

Definition loaded : list Server := admitServers (Fields file).

(** The two spellings are one server, and both entries are invalid. *)
Lemma usable_servers_sound_witness :
  Load (Some file) = inr loaded /\ map admission loaded
    = [AdmissionUsable; AdmissionUsable; AdmissionConfigurationInvalid; AdmissionConfigurationInvalid]
  /\ NoDup (map sv_ID (UsableServers loaded)) /\ one_default loaded.
Proof.
  split; [reflexivity|]. split; [vm_compute; reflexivity|].
  destruct (usable_servers_sound file (Fields file) loaded) as (Hid & _ & _ & Hone & _); [reflexivity..|].
  split; [exact Hid|exact Hone].
Defined.

Section Runs.
Context (config : list Server).

Fixpoint run (inputs : list Input) (f : Fleet) : option Fleet :=
  match inputs with
  | [] => Some f
  | i :: inputs => f ← input i f; run inputs f
  end.

Lemma inputs_reachable inputs f f' :
  reachable config "host" f -> run inputs f = Some f' -> reachable config "host" f'.
Proof.
  revert f. induction inputs as [|i inputs IH]; intros f Hr Hrun; simpl in Hrun; [by injection Hrun as <-|].
  apply bind_Some in Hrun as (f1 & Hin & Hrun). eapply IH; [|exact Hrun]. by eapply reach_input.
Qed.

End Runs.

Definition go (thread : nat) : Input := IStep thread 0 NoAnswer.

Definition ok (body : string) : Net := Responded (Answered 200 "200 OK" (inr body)).

(** An attempt up to its probe; the rest of one that connects. *)
Definition to_probe (thread : nat) : list Input := [go thread; go thread; go thread; go thread].

Definition connects (thread : nat) (sessions : list string) : list Input :=
  [IStep thread 0 (ok protocolVersion); IStep thread 0 (ok "ticket"); IStep thread 0 (Dialed None); go thread;
   IStep thread 0 (Received (ReadData (Some (mkFrame "h" (Some sessions))))); go thread; go thread; go thread].

Definition alpha : Server := mkServer 0 "srv_a" "alpha" true true "http://alpha" (mkAuth "none" "") None.

Definition connected : Fleet :=
  default (newFleetRuntime "host" 0 [alpha])
    (run ([ISubscribeHealth 0; ITakeHealth 0] ++ to_probe 0 ++ connects 0 ["s1"]) (newFleetRuntime "host" 0 [alpha])).

Lemma connected_reachable : reachable [alpha] "host" connected.
Proof.
  eapply (inputs_reachable [alpha] ([ISubscribeHealth 0; ITakeHealth 0] ++ to_probe 0 ++ connects 0 ["s1"]));
    [exact (reach_new [alpha] "host" 0)|vm_compute; reflexivity].
Qed.

Lemma alpha_alone : NoDup (map sv_ID (List.filter sv_Enabled [alpha])).
Proof. apply (bool_decide_unpack _). vm_compute. exact I. Qed.

(** The one server is connected, and followed. *)
Lemma fleet_followed_witness :
  ho_Kind <$> (re_observation <$> fl_health connected !! "srv_a") = Some "connected" /\ followed connected alpha.
Proof.
  split; [vm_compute; reflexivity|].
  destruct (fleet_followed [alpha] "host" connected alpha_alone connected_reachable) as (_ & Hf & _).
  apply Hf; [reflexivity|reflexivity|left|reflexivity].
Defined.


(** A reconnect while the worker is about to report an incompatible protocol: the report lands
    after the flag was reset and before the reconnect has announced itself, so the fresh worker
    finds the flag and ends.  The server is shown as being checked, and nobody checks it. *)
Example reconnect_race_stalls :
  exists f, run ([IStartWorkers] ++ to_probe 0 ++ [IStep 0 0 (ok "protocol-9"); go 0; go 0; go 0; IReconnect 0 "srv_a"; go 0]
                 ++ [go 0; go 0; go 1; go 1; go 1; go 1; go 1]) (newFleetRuntime "host" 0 [alpha]) = Some f
    /\ fl_threads f = ∅ /\ fl_stopped f = false
    /\ ho_Kind <$> (re_observation <$> fl_health f !! "srv_a") = Some "checking" /\ flagged f "srv_a" = true.
Proof. eexists. split; [vm_compute; reflexivity|]. vm_compute. repeat split. Qed.

(** Whom a thread follows, and whether it is at its probe. *)
Definition follows (t : Thread) : Admission * string * bool :=
  (admission (th_server t), thread_id t, match th_pc t with PcProbe => true | _ => false end).

(** The runtime looks at the enabled flag of an entry, not at its admission: entries that are
    invalid are followed as well, here with two workers for one identifier. *)
Example invalid_servers_followed :
  (fun f => (follows <$> fl_threads f !! 2%nat, follows <$> fl_threads f !! 3%nat))
    <$> run ([IStartWorkers] ++ to_probe 2 ++ to_probe 3) (newFleetRuntime "host" 0 loaded)
  = Some (Some (AdmissionConfigurationInvalid, ServerID "http://gamma", true),
          Some (AdmissionConfigurationInvalid, ServerID "http://gamma", true)).
Proof. vm_compute. reflexivity. Qed.

(** Silence before the first frame is not called a timeout. *)
Example hello_timeout_reason : classifyHealthError "hello timed out" = ("connection_failed", "").
Proof. vm_compute. reflexivity. Qed.

(** The phrase of an HTTP status can make a server terminally incompatible. *)
Example status_phrase_mismatch :
  (classifyHealthError "503 incompatible protocol").1 = "protocol_mismatch".
Proof. vm_compute. reflexivity. Qed.

End FleetDemo.
